(* ===== verification/_CoqProject ===== *)
-Q . S2P
Prelude.v
JsString.v
JsObject.v
EntityId.v
BlockTypes.v
StyledText.v
StyledTextFacts.v
BlockConvert.v
BlockConvertFacts.v
DraftDiff.v
DocModel.v
DraftDiffFacts.v
DraftSave.v
DraftMachine.v
Routes.v
Navigation.v
ContentTree.v
Variants.v
Stores.v
StoresFacts.v
Windows.v
Walk.v
Comments.v
Timeline.v
DaemonApi.v
Groups.v
GroupsFacts.v
GroupNavFacts.v
DaemonModel.v
GroupsExamples.v
GroupListFacts.v
Publishing.v
NodeConvert.v
NodeConvertFacts.v
NodeRoundtrip.v
BlockNodes.v
NodeExamples.v
SiteChanges.v
SiteApi.v
SiteRouting.v
SiteFacts.v
WebImport.v
MarkdownPaste.v
MarkdownExport.v
MarkdownExportFacts.v
PublicationQuery.v
Entities.v
Feed.v
Streams.v
WebLinks.v
Positions.v
EditorBlocks.v
PositionsFacts.v
EditorBlocksFacts.v
EditorLookup.v
EditorInsert.v
EditorUpdate.v
EditorRemove.v
PositionsModel.v
EditorExamples.v
SuggestMenu.v
RangeSelection.v
Keyboard.v
Autocomplete.v
EditorGroups.v
EditorGroupsFacts.v
EditorKeys.v
EditorKeysFacts.v
EditorKeysExamples.v
UniqueID.v
Dates.v
Desktop.v
DraftActors.v
EditorApi.v
LinkPaste.v
Autolink.v
Tipping.v
CodeBlock.v
CommentEditor.v
MediaInsert.v
