(* ===== verification/Prelude.v ===== *)
(** * Mintter Hypermedia front end: a verification development

    The program (src/, TypeScript under src/frontend/) is a desktop application and a
    web site for documents that live in a peer-to-peer network.  A Go daemon stores and
    exchanges the documents; the front end talks to it over gRPC.  This development
    models the front end's own logic: how ids and links are read and written, how the
    daemon's documents become editor content and come back as changes, the machine that
    saves drafts, how windows navigate and are restored, and the models that group,
    clip, list and cite what is shown.

    ** How the parts interact

    A window shows a route ([Routes], [Navigation]); opening a link parses an id
    ([EntityId]) and yields a route, in which a group entry or a set of authors may
    select the version ([Variants]).  A draft route starts the draft machine
    ([DraftMachine]): it loads the draft, whose blocks are turned into editor blocks
    ([StyledText], [BlockConvert]), remembers a map of them, and on each save compares
    the editor with that map ([DraftDiff]); the changes go to the daemon, whose contract
    for them is [DocModel].  Published documents are shown through [ContentTree]
    (clipping, embeds, excerpts, titles), with their history ([Timeline]) and comments
    ([Comments]).  The main process keeps the windows ([Windows]) and small stores
    ([Stores]).

    ** Files and what they model (paths under src/frontend/)

    - [Prelude]: exceptions as [result] with its bind, loops that may throw,
      [Array.sort] as a stable insertion sort, [Set] as [dedup]; the automation.
    - [JsString], [JsObject]: [String.prototype] operations on code units, and objects
      as entry lists in property order.
    - [EntityId]: packages/shared/src/utils/entity-id-url.ts.
    - [BlockTypes]: packages/shared/src/hm-types.ts (blocks, annotations, inlines).
    - [StyledText], [BlockConvert] with their [Facts]: packages/shared/src/client/
      to-hm-block.ts and from-hm-block.ts, utils/ipfs-cid.ts.
    - [DraftDiff], [DocModel], [DraftDiffFacts], [DraftSave]: the save of
      packages/app/models/documents.ts; [DocModel] is what a list of changes does to a
      document, as proto/documents/v1alpha/documents.proto states it.
    - [DraftMachine]: packages/app/models/draft-machine.ts, state
      for state, and its actors' behaviour as a world of edits and saves.
    - [DraftActors]: the actors that [useDraftEditor] of documents.ts gives the machine,
      the query that loads the draft and the effect that saves on leaving, over a class
      of the daemon's calls with laws.
    - [Routes], [Navigation]: packages/app/utils/routes.tsx,
      route-context.ts, route-encoding.ts, window-types.ts, useNavigate.tsx,
      open-draft.ts, navigation.tsx and navigation-container.tsx.
    - [ContentTree]: packages/shared/src/content.ts, the embeds,
      references and excerpts of models/documents.ts, packages/app/utils/path.ts.
    - [Variants]: packages/shared/src/variants.ts.
    - [Stores] (a Module per store), [StoresFacts]: apps/desktop/src/app-recents.ts,
      app-favorites.ts, app-comments.ts, app-settings.ts and the smaller stores.
    - [Windows]: apps/desktop/src/app-windows.ts and the window part of
      app-api.ts.
    - [Walk]: the level-by-level loops; [Comments], [Timeline]:
      packages/app/models/comments.ts and changes.ts, which use them.  [CommentEditor]: the
      editor of a comment's draft, of comments.ts.
    - [DaemonApi]: calls to the daemon as a state and error monad, with the class of the
      calls the group commands make and the laws of their answers; [DaemonModel] is a
      daemon that satisfies them.
    - [Groups], [GroupsFacts], [GroupNavFacts], [GroupListFacts], [GroupsExamples]:
      packages/app/models/groups.ts; [Publishing]: [usePublishDraft] of
      packages/app/models/documents.ts.
    - [NodeConvert], [NodeConvertFacts], [NodeRoundtrip], [BlockNodes], [NodeExamples]:
      the editor's conversions between its blocks and ProseMirror's nodes,
      packages/editor/src/blocknote/core/api/nodeConversions/nodeConversions.ts.
    - [Positions], [EditorBlocks]: the editor's node types and positions, and its
      operations on blocks: of packages/editor/src/blocknote/core, api/util/nodeUtil.ts,
      api/blockManipulation/blockManipulation.ts, extensions/Blocks/helpers and commands
      of extensions/Blocks/nodes/BlockContainer.ts.  [PositionsFacts], [EditorBlocksFacts],
      [EditorLookup], [EditorInsert], [EditorUpdate], [EditorRemove] have their theorems,
      [PositionsModel] satisfies what they assume of ProseMirror, [EditorExamples] applies
      them.
    - [EditorGroups], [EditorKeys] with their [Facts]: lists and their levels, and what
      the keys do, of BlockContainer.ts and helpers/getGroupInfoFromPos.ts;
      [EditorKeysExamples] applies their theorems.  [UniqueID]:
      extensions/UniqueID/UniqueID.ts.  [SuggestMenu]: the plugins of the
      slash menu and the link menu.  [Autocomplete]: mentions, of
      packages/editor/src/autocomplete.tsx; [Keyboard]: keyboard-helpers.ts beside it.
    - [EditorApi]: the blocks, the cursor, the selection, the traversal and the styles of
      BlockNoteEditor.ts.  [LinkPaste]: tiptap-extension-link/helpers/pasteHandler.ts and
      extensions/LinkMenu/defaultLinkMenuItems.tsx; [Autolink]: helpers/autolink.ts.
    - [CodeBlock]: tiptap-extension-code-block of packages/editor/src, the keys in a block of
      code and its highlighting.  [MediaInsert]: packages/app/utils/media-drag.ts, the drop
      of files on the pages comment-draft.tsx and draft.tsx, and the editor's
      handle-local-media-paste-plugin.ts.
    - [RangeSelection]: packages/shared/src/range-selection.tsx; [Dates]:
      packages/shared/src/utils/date.ts.
    - [Desktop] (a Module per part): apps/desktop/src/daemon.ts,
      auto-update.ts, and the export of many documents of main.ts.
    - [Tipping]: apps/site/src/web-tipping.tsx, donations to authors.
    - [SiteChanges]: [publication.getChanges] of
      apps/site/server/routers/_app.ts; [SiteApi]: the other procedures of that file and
      server/group.ts; [SiteRouting]: middleware.ts, server/static-props.ts, the pages'
      parameters; [SiteFacts].
    - [PublicationQuery]: packages/app/models/publication.ts; [Entities]:
      entities.ts, favorites.ts, search.ts, content-graph.ts and
      recents.ts of packages/app/models; [Feed]: feed.ts; [WebLinks]:
      web-links.ts and networking.ts; [Streams]: packages/shared/src/utils/stream.ts.
    - [WebImport]: packages/app/models/web-importer.ts; [MarkdownPaste]:
      the editor's MarkdownExtension.ts; [MarkdownExport] and its
      [Facts]: packages/app/utils/blocks-to-markdown.ts and
      apps/desktop/src/save-markdown-file.tsx.

    ** What the theorems show

    - Refinement: the changes a save captures give the server's document the blocks and
      parents of the editor's, and a restore's those of the previous draft, in the same
      order if no surviving siblings were reordered
      ([DraftSave.captured_changes_reach_editor], [DraftSave.restore_changes_reach_previous]),
      and what the calls around it leave in the daemon when they fail
      ([DraftActors.save_outcomes], [DraftActors.restore_outcomes]);
      a window's routes and index are a history, a browser's but for one case of
      [backplace] ([Navigation.navigation_refines_history]); the comment store is a map
      from ids to drafts with its listing as an index.
    - Groups: each command on a group is followed through the daemon it talks to
      ([DaemonApi.DaemonLaws]): what it leaves listed at every path, what it does to the
      navigation document, and that a command which fails changes no group's content.
    - Invariants and progress: no edit of the blocks is forgotten by the draft machine,
      and they are eventually saved, while a title typed during a save is not
      ([DraftMachine.no_edit_forgotten], [DraftMachine.edits_get_saved]); the save
      indicator tells the truth; the persisted windows are the open ones, and a restart
      opens them again but for those whose single page is shown already
      ([Windows.quit_and_restart_restores]).
    - Round trips: ids and web URLs, styled text, blocks through the editor with what each
      type keeps ([BlockConvertFacts.block_roundtrip]) and through ProseMirror's nodes
      ([BlockNodes.block_node_roundtrip]), routes through a window's URL.
    - Equivalence: the editor's reading of a content node is what a reading character
      by character gives ([NodeConvertFacts.contentNodeToInlineContent_spec]); its cache
      of converted nodes, which hands out shared objects that saves write to, changes at
      most the list props of a block ([BlockNodes.nodeToBlock_cached]); the
      application and the site choose the same version of a document
      ([PublicationQuery.variant_query_equiv]).
    - Editing: on documents that fit the schema, a position is taken to its block, and
      inserting, updating and removing blocks changes what was asked for, leaves the
      rest and keeps the document typed ([EditorLookup.getBlockInfoFromPos_spec],
      [EditorUpdate.insertBlocks_spec], [EditorUpdate.updateBlock_spec]); removing one
      block after the other is pruning the document ([EditorRemove.removeBlocks_spec]).
    - Keys and lists: which commands Backspace and Enter run at each place, where a merge
      moves text and where new blocks stand ([EditorKeysFacts.handleBackspace_spec],
      [EditorKeysFacts.BNMergeBlocks_spec]), the levels of lists
      ([EditorGroupsFacts.UpdateGroup_spec]); which blocks get an id after a change, and
      when all have one of their own ([UniqueID.ids_unique]).
    - The editor's interface: the traversal calls back for every block once, the cursor's
      block and its neighbours, the blocks that a range meets
      ([EditorApi.forEachBlock_spec], [EditorApi.getTextCursorPosition_spec],
      [EditorApi.getSelection_spec]).
    - Links: what a paste leaves when its lookups are answered, late or not at all, and
      the items that its menu ends with ([LinkPaste.paste_entity_spec],
      [LinkPaste.look_up_settles]), where a node made of a
      link goes ([LinkPaste.insertNode_spec]), what is linked as it is typed
      ([Autolink.autolink_spec]).
    - Code and media: what Tab and Shift-Tab make of the selected lines, and when they fail
      ([CodeBlock.Tab_spec], [CodeBlock.Shift_Tab_spec]); each character of code gets the
      classes of its highlighting ([CodeBlock.block_decorations_spec]); dropped files become
      blocks in their order, or none does if the first is not uploaded
      ([MediaInsert.drop_files_spec]).
    - Drafts of comments: when what is shown as saved is stored, and when an edit is lost
      ([CommentEditor.calm_saved_is_stored], [CommentEditor.edit_during_save_is_lost]).
    - Menus and selections, under any sequence of events: Enter runs one of an open menu's
      items if it has any ([SuggestMenu.menu_invariant]), the mentions' arrows go through all
      groups in order ([Autocomplete.down_is_next]), a selected range is a nonempty one of
      one block ([RangeSelection.range_invariant]).
    - Donations, in the program's doubles: the share that is changed stays within its
      bounds ([Tipping.splitReducer_target]), while the sum of all drifts
      ([Tipping.shares_drift]); thanks come after a payment.  Networking: which polling
      ends and which goes on ([WebLinks.Ready.polling_ends], [WebLinks.Gateway.loops_go_on]).
    - The main process: what is announced of the daemon and who hears it
      ([Desktop.daemon_trace]), that an export overwrites nothing
      ([Desktop.export_own_folders]); how far a relative date is from the time that
      passed ([Dates.relative_spec]).
    - Import and export: an imported page is a published document that shows its blocks
      if the numbers drawn for them are distinct ([WebImport.importWebCapture_spec]);
      pasted Markdown is a forest of its sections; exported HTML is made of whole tags
      around the document's text, and its media files are all saved.
    - The web site: the URL a document is shared under is routed to the page that asks
      for that document and version, with its variants if there is a version; what its
      queries answer; which changes it lists.
    - Functional behaviour on every branch, errors included: runs of styled text,
      [toHMBlock], [extractContent], [fromHMBlock], clipping, embeds, path names,
      variants, links into groups, histories and citations.
    - Where the code does something else than it means to, a theorem states what it does
      (for instance [DraftSave.moved_pair_is_scrambled],
      [DraftMachine.title_typed_while_saving_is_lost]).

    ** Modelling choices

    - A string is a list of code units below 256; no operation of the sources looks
      beyond code units, but characters above are outside the model.
    - An object used as a dictionary is the list of its entries ([JsObject]); the
      reordering of integer-like keys is left out.
    - A thrown [Error] is [Err] with its message; a rejected promise likewise.
    - Editor events, timers and actors are events and effects of step functions; what
      happens between two awaits is one step.
    - Code that is not under src/ is a parameter, with its documented behaviour as a
      class of laws and an instance that satisfies it: [EntityId.UrlApi] (URL and
      URLSearchParams), [DraftDiff.Lodash] (deep equality), [Routes.RouteCodec] (JSON and
      Base64), [DaemonApi.Daemon] (the daemon's calls), [NodeConvert.Schema] (ProseMirror's
      schema), [Positions.ProseMirror] (its positions and the steps of a transaction),
      [LinkPaste.LinkEditor] and [CodeBlock.CodeEditor] (edits of text), [DraftActors.Drafts] (the daemon's drafts).
      Queries that only read are function arguments; the site's are the record
      [SiteApi.SiteDaemon].
    - An [electron-store] returns what was last written to it, and [window.close()] runs
      the window's close listener.
    - Shares and amounts of donations are doubles, with the operations of the Standard
      Library's [SpecFloat].
    - Blocks that are read of the editor's nodes are objects with an address in the cache
      ([NodeConvert.Cache]), since saves write to them and later reads share them.

    ** Fuel

    The loops over replies, ancestors and dependencies ([Walk.walk],
    [Comments.follow_single], [Comments.thread_loop]) end only if the relation they
    follow has no cycle.  The theorems ask for a rank that decreases along it, as
    content addressing provides, and any fuel above the ranks of the starting points;
    they conclude that the loop does end.  [DocModel.ancestor_loop] climbs at most as
    many levels as the document has blocks.  Everything else is structural.

    ** What is not modelled

    The Go daemon (except the contracts in [DocModel] and [DaemonApi]); generated gRPC
    clients; the editor's views and the rest of its plugins (side menu, toolbars, dragging
    of blocks) with the commands that split blocks, whose fitting of slices
    is ProseMirror's; React components, the markup of pages and the UI kit.  Parts of modelled
    files that only fetch, invalidate queries, show messages or drive the editor are
    left out where they are. *)
From Stdlib Require Export Lia ZArith.
From stdpp Require Export base tactics option strings gmap sorting list.

#[global] Set Default Goal Selector "!".

Declare Scope js_scope.
Delimit Scope js_scope with js.

(** ** Exceptions

    [Err msg] is a thrown [Error(msg)] (or a rejected promise); [Ok] is a
    normal return. *)
Inductive result (A : Type) : Type :=
| Ok (a : A)
| Err (msg : string).
Arguments Ok {A} a.
Arguments Err {A} msg.

Definition rbind {A B} (c : result A) (k : A → result B) : result B :=
  match c with
  | Ok a => k a
  | Err m => Err m
  end.

Definition rmap {A B} (f : A → B) (c : result A) : result B :=
  rbind c (λ a, Ok (f a)).

Notation "'let*' x ':=' c 'in' k" := (rbind c (λ x, k))
  (at level 10, x binder, c at level 100, k at level 200) : js_scope.
#[global] Open Scope js_scope.

Definition is_ok {A} (c : result A) : bool :=
  match c with
  | Ok _ => true
  | Err _ => false
  end.

(** [arr.map(f)] for a callback that may throw: left to right, stopping at the
    first exception.  The recursion is on the list only, so a nested [Fixpoint]
    may pass itself as [f]. *)
Definition map_result {A B} (f : A → result B) : list A → result (list B) :=
  fix go (l : list A) : result (list B) :=
    match l with
    | [] => Ok []
    | x :: l' =>
        let* y := f x in
        let* ys := go l' in
        Ok (y :: ys)
    end.

(** [arr.forEach(f)] over an accumulator, for a callback that may throw. *)
Fixpoint fold_result {A S} (f : S → A → result S) (s : S) (l : list A) : result S :=
  match l with
  | [] => Ok s
  | x :: l' => let* s' := f s x in fold_result f s' l'
  end.

(** [arr.forEach((x, i) => ..)] whose callback also reads [arr[i - 1]]: [f] is given
    the previous element.  The recursion is on the list only, as above. *)
Definition fold_prev {A S} (f : option A → A → S → S) : option A → list A → S → S :=
  fix go (prev : option A) (l : list A) (s : S) : S :=
    match l with
    | [] => s
    | x :: l' => go (Some x) l' (f prev x s)
    end.

(** The same for a callback that may throw and contributes to two lists. *)
Definition collect_prev {A C D} (f : option A → A → result (list C * list D)) :
    option A → list A → result (list C * list D) :=
  fix go (prev : option A) (l : list A) : result (list C * list D) :=
    match l with
    | [] => Ok ([], [])
    | x :: l' =>
        let* r := f prev x in
        let* rs := go (Some x) l' in
        Ok (r.1 ++ rs.1, r.2 ++ rs.2)
    end.

(** The pure version: [f] of every element and its previous one, concatenated. *)
Definition flat_prev {A C} (f : option A → A → list C) : option A → list A → list C :=
  fix go (prev : option A) (l : list A) : list C :=
    match l with
    | [] => []
    | x :: l' => f prev x ++ go (Some x) l'
    end.

(** ** [undefined], [null] and values

    Most optional fields of the program are only tested for truthiness, and
    then [None] stands for both [undefined] and [null].  Where the code tells
    the two apart, [nullish] does too. *)
Inductive nullish (A : Type) : Type :=
| Undefined
| Null
| Given (a : A).
Arguments Undefined {A}.
Arguments Null {A}.
Arguments Given {A} a.

(** JavaScript truthiness of a string and of an optional string. *)
Definition truthy (s : string) : bool := negb (String.eqb s "").
Definition otruthy (o : option string) : bool :=
  match o with
  | Some s => truthy s
  | None => false
  end.

(** [a || b] on optional strings, and [s || null]. *)
Definition js_or (a b : option string) : option string := if otruthy a then a else b.
Definition or_null (a : option string) : option string := js_or a None.

(** [a && f(a)] used as a list: [x ? [..] : []]. *)
Definition opt_list {A} (o : option A) : list A :=
  match o with
  | Some a => [a]
  | None => []
  end.

(** [Array.prototype.sort] with a comparator: insertion sort, stable, which is
    the (unique) result ECMAScript requires when the comparator is consistent. *)
Fixpoint js_insert {A} (cmp : A → A → Z) (x : A) (l : list A) : list A :=
  match l with
  | [] => [x]
  | y :: l' => if (cmp x y <=? 0)%Z then x :: y :: l' else y :: js_insert cmp x l'
  end.
Fixpoint js_sort {A} (cmp : A → A → Z) (l : list A) : list A :=
  match l with
  | [] => []
  | x :: l' => js_insert cmp x (js_sort cmp l')
  end.

(** [new Set(list)] iterated: first occurrences, in order. *)
Fixpoint dedup_go {A} `{EqDecision A} (seen : list A) (l : list A) : list A :=
  match l with
  | [] => []
  | x :: l' =>
      if bool_decide (x ∈ seen) then dedup_go seen l' else x :: dedup_go (x :: seen) l'
  end.
Definition dedup {A} `{EqDecision A} (l : list A) : list A := dedup_go [] l.

(** ** Automation *)

Create HintDb js discriminated.
Create Rewrite HintDb js_str.

(** Inverts every equation [rbind .. = Ok ..] in the context. *)
Ltac inv_result :=
  repeat match goal with
  | H : Ok _ = Ok _ |- _ => injection H as H; try subst
  | H : Ok _ = Err _ |- _ => discriminate H
  | H : Err _ = Ok _ |- _ => discriminate H
  | H : rbind ?c _ = Ok _ |- _ =>
      let E := fresh "E" in destruct c eqn:E; cbn [rbind] in H; [| discriminate H]
  | H : rmap _ ?c = Ok _ |- _ => unfold rmap in H
  end.

(** Splits the boolean conditions of the context and the goal. *)
Ltac bool_simpl :=
  repeat match goal with
  | H : andb _ _ = true |- _ => apply andb_prop in H as [??]
  | H : negb _ = true |- _ => apply negb_true_iff in H
  | H : negb _ = false |- _ => apply negb_false_iff in H
  | H : bool_decide _ = true |- _ => apply bool_decide_eq_true in H
  | H : bool_decide _ = false |- _ => apply bool_decide_eq_false in H
  | H : String.eqb _ _ = true |- _ => apply String.eqb_eq in H
  | H : String.eqb _ _ = false |- _ => apply String.eqb_neq in H
  end.

(** ** Generic lemmas *)

Lemma Ok_inj {A} (a b : A) : Ok a = Ok b → a = b.
Proof. by intros [= ->]. Qed.
Lemma rbind_ok_inv {A B} (c : result A) (k : A → result B) b :
  rbind c k = Ok b → ∃ a, c = Ok a ∧ k a = Ok b.
Proof. destruct c; [eauto | discriminate]. Qed.

Lemma map_result_cons {A B} (f : A → result B) x l :
  map_result f (x :: l) =
  let* y := f x in let* ys := map_result f l in Ok (y :: ys).
Proof. done. Qed.

Lemma map_result_ok {A B} (f : A → result B) l ys :
  map_result f l = Ok ys ↔ Forall2 (λ x y, f x = Ok y) l ys.
Proof.
  split.
  - revert ys; induction l as [|x l IH]; intros ys H.
    + cbn in H. inv_result. constructor.
    + rewrite map_result_cons in H. inv_result. by constructor; [|apply IH].
  - induction 1 as [|x y l ys Hx _ IH]; [done|].
    rewrite map_result_cons, Hx. cbn [rbind]. by rewrite IH.
Qed.

Lemma map_result_length {A B} (f : A → result B) l ys :
  map_result f l = Ok ys → length ys = length l.
Proof. intros H%map_result_ok. symmetry. by eapply Forall2_length. Qed.

Lemma map_result_total {A B} (f : A → result B) l :
  (∀ x, x ∈ l → is_ok (f x) = true) → ∃ ys, map_result f l = Ok ys.
Proof.
  induction l as [|x l IH]; intros Hok; [by eexists|].
  destruct (f x) as [y|] eqn:E; [|specialize (Hok x ltac:(left)); by rewrite E in Hok].
  destruct IH as [ys Hys]; [intros z Hz; apply Hok; by right|].
  exists (y :: ys). rewrite map_result_cons, E. cbn [rbind]. by rewrite Hys.
Qed.

Lemma fold_result_app {A S} (f : S → A → result S) s l1 l2 :
  fold_result f s (l1 ++ l2) = let* s' := fold_result f s l1 in fold_result f s' l2.
Proof.
  revert s. induction l1 as [|x l1 IH]; intros s; [done|].
  cbn. destruct (f s x); cbn; eauto.
Qed.

Lemma truthy_spec s : truthy s = true ↔ s ≠ "".
Proof. unfold truthy. rewrite negb_true_iff, String.eqb_neq. done. Qed.

Lemma otruthy_Some s : s ≠ "" → otruthy (Some s) = true.
Proof. intros ?. by apply truthy_spec. Qed.

#[export] Hint Resolve otruthy_Some : js.

(** *** Sorting *)
Section js_sort.
Context {A : Type} (cmp : A → A → Z).

Lemma js_insert_Permutation x l : js_insert cmp x l ≡ₚ x :: l.
Proof.
  induction l as [|y l IH]; [done|]. cbn.
  case_match; [done|]. rewrite IH. apply Permutation_swap.
Qed.

Lemma js_sort_Permutation l : js_sort cmp l ≡ₚ l.
Proof. induction l as [|x l IH]; [done|]. cbn. by rewrite js_insert_Permutation, IH. Qed.

Hypothesis cmp_total : ∀ x y, (cmp x y <= 0)%Z ∨ (cmp y x <= 0)%Z.
Hypothesis cmp_trans : ∀ x y z, (cmp x y <= 0)%Z → (cmp y z <= 0)%Z → (cmp x z <= 0)%Z.

Lemma js_insert_sorted x l :
  StronglySorted (λ a b, (cmp a b <= 0)%Z) l →
  StronglySorted (λ a b, (cmp a b <= 0)%Z) (js_insert cmp x l).
Proof.
  induction 1 as [|y l Hl IH Hy]; cbn; [repeat constructor|].
  destruct (cmp x y <=? 0)%Z eqn:E.
  - apply Z.leb_le in E. constructor; [by constructor|].
    constructor; [done|]. eapply List.Forall_impl; [|exact Hy]. cbn. eauto.
  - apply Z.leb_gt in E. constructor; [done|].
    rewrite js_insert_Permutation. constructor; [|done].
    destruct (cmp_total x y); lia || done.
Qed.

Lemma js_sort_sorted l : StronglySorted (λ a b, (cmp a b <= 0)%Z) (js_sort cmp l).
Proof. induction l; cbn; [constructor | by apply js_insert_sorted]. Qed.

(** Comparators that agree on the elements sort alike. *)
Lemma js_sort_agree (cmp' : A → A → Z) l :
  (∀ x y, x ∈ l → y ∈ l → cmp' x y = cmp x y) → js_sort cmp' l = js_sort cmp l.
Proof.
  induction l as [|x l IH]; intros H; [done|]. cbn.
  rewrite IH by (intros; apply H; by right).
  assert (∀ y, y ∈ js_sort cmp l → cmp' x y = cmp x y) as Hx.
  { intros y Hy. rewrite js_sort_Permutation in Hy. apply H; [left|by right]. }
  clear IH H. induction (js_sort cmp l) as [|y k IHk]; [done|]. cbn.
  rewrite (Hx y) by left. destruct (cmp x y <=? 0)%Z; [done|]. f_equal.
  apply IHk. intros z Hz. apply Hx. by right.
Qed.

(** A list that is already in order is left alone. *)
Lemma js_sort_sorted_id l :
  StronglySorted (λ a b, (cmp a b <= 0)%Z) l → js_sort cmp l = l.
Proof.
  induction 1 as [|x l Hl IH Hx]; [done|]. cbn. rewrite IH.
  destruct l as [|y l]; [done|]. cbn. inversion_clear Hx as [|?? Hxy].
  by apply Z.leb_le in Hxy as ->.
Qed.
End js_sort.

Lemma filter_all {A} (f : A → bool) l : (∀ x, x ∈ l → f x = true) → List.filter f l = l.
Proof.
  induction l as [|x l IH]; [done|]. intros H. cbn. rewrite (H x ltac:(left)).
  f_equal. apply IH. intros y Hy. apply H. by right.
Qed.

Lemma StronglySorted_weaken {A} (R R' : A → A → Prop) l :
  (∀ x y, R x y → R' x y) → StronglySorted R l → StronglySorted R' l.
Proof.
  intros H. induction 1 as [|x l _ IH Hx]; [constructor|]. constructor; [done|].
  eapply list.Forall_impl; [exact Hx|]. auto.
Qed.

(** Sorting by a key, largest first. *)
Lemma js_sort_desc {A} (key : A → Z) (cmp : A → A → Z) l :
  (∀ x y, x ∈ l → y ∈ l → cmp x y = (key y - key x)%Z) →
  StronglySorted (λ a b, (key b <= key a)%Z) (js_sort cmp l).
Proof.
  intros H. rewrite (js_sort_agree (λ x y, key y - key x)%Z cmp) by done.
  eapply StronglySorted_weaken; [|apply js_sort_sorted]; cbn; intros; lia.
Qed.

(** *** First occurrences *)
Section dedup.
Context {A : Type} `{EqDecision A}.

Lemma elem_of_dedup_go seen (l : list A) x : x ∈ dedup_go seen l ↔ x ∈ l ∧ x ∉ seen.
Proof.
  revert seen. induction l as [|y l IH]; intros seen; cbn; [set_solver|].
  case_bool_decide as Hy; [|rewrite elem_of_cons]; rewrite IH; [set_solver|].
  destruct (decide (x = y)); set_solver.
Qed.
Lemma elem_of_dedup (l : list A) x : x ∈ dedup l ↔ x ∈ l.
Proof. unfold dedup. rewrite elem_of_dedup_go. set_solver. Qed.

Lemma NoDup_dedup_go seen (l : list A) : NoDup (dedup_go seen l).
Proof.
  revert seen. induction l as [|y l IH]; intros seen; cbn; [constructor|].
  case_bool_decide; [done|]. constructor; [|done]. rewrite elem_of_dedup_go. set_solver.
Qed.
Lemma NoDup_dedup (l : list A) : NoDup (dedup l).
Proof. apply NoDup_dedup_go. Qed.
End dedup.

#[export] Hint Resolve NoDup_dedup : js.

