(* ===== verification/JsString.v ===== *)
(** * JavaScript strings

    A JavaScript string is a sequence of code units; the development models it
    by Rocq's [string], one [ascii] per code unit, so strings are limited to the
    code units 0-255.  The operations of [String.prototype] that the sources use
    are defined here ([split], [join], [slice], [substring], [startsWith],
    [indexOf], [replaceAll], [toLowerCase], [trim], decimal printing and
    [parseInt]), with the lemmas the components share. *)
From S2P Require Import Prelude.
From Stdlib Require Export Ascii.
From Stdlib Require Import DecimalString DecimalN DecimalFacts.

#[global] Arguments String.append !_ _ / : simpl nomatch.

(** ** Characters *)

Definition char_code (c : ascii) : N := Ascii.N_of_ascii c.
Definition is_digit (c : ascii) : bool := (48 <=? char_code c)%N && (char_code c <=? 57)%N.
Definition is_lower (c : ascii) : bool := (97 <=? char_code c)%N && (char_code c <=? 122)%N.
Definition is_upper (c : ascii) : bool := (65 <=? char_code c)%N && (char_code c <=? 90)%N.

(** [\s]: tab, line feed, vertical tab, form feed, carriage return, space and
    no-break space (the other members of the class are above code unit 255). *)
Definition is_space (c : ascii) : bool :=
  ((9 <=? char_code c)%N && (char_code c <=? 13)%N) || (char_code c =? 32)%N || (char_code c =? 160)%N.

(** The line terminators that [.] does not match (below 256). *)
Definition is_newline (c : ascii) : bool := (char_code c =? 10)%N || (char_code c =? 13)%N.

(** [toLowerCase] of a code unit: A-Z and the Latin-1 capitals but U+00D7. *)
Definition lower_char (c : ascii) : ascii :=
  let n := char_code c in
  if is_upper c || ((192 <=? n)%N && (n <=? 222)%N && negb (n =? 215)%N)
  then Ascii.ascii_of_N (n + 32) else c.

(** The characters that neither the WHATWG URL parser nor
    [application/x-www-form-urlencoded] treats specially, minus the dot. *)
Definition is_clean (c : ascii) : bool :=
  is_digit c || is_lower c || is_upper c || (char_code c =? 45)%N || (char_code c =? 95)%N.

(** ** Strings as sequences of characters *)

Fixpoint str_all (p : ascii → bool) (s : string) : bool :=
  match s with
  | EmptyString => true
  | String c s' => p c && str_all p s'
  end.

Fixpoint str_map (f : ascii → ascii) (s : string) : string :=
  match s with
  | EmptyString => EmptyString
  | String c s' => String (f c) (str_map f s')
  end.

Fixpoint str_filter (p : ascii → bool) (s : string) : string :=
  match s with
  | EmptyString => EmptyString
  | String c s' => if p c then String c (str_filter p s') else str_filter p s'
  end.

Definition lacks (c : ascii) (s : string) : bool := str_all (λ d, negb (Ascii.eqb c d)) s.
Definition clean (s : string) : bool := str_all is_clean s.

Definition len (s : string) : nat := String.length s.

(** ** The operations *)

(** [s.split(sep)] for a non-empty separator: scan left to right; after a match,
    skip the rest of the separator. *)
Definition cons_head (c : ascii) (l : list string) : list string :=
  match l with
  | [] => [String c EmptyString]
  | h :: t => String c h :: t
  end.

Fixpoint split_go (sep : string) (skip : nat) (s : string) : list string :=
  match s with
  | EmptyString => [EmptyString]
  | String c s' =>
      match skip with
      | S k => split_go sep k s'
      | O =>
          if String.prefix sep s then EmptyString :: split_go sep (len sep - 1) s'
          else cons_head c (split_go sep O s')
      end
  end.
Definition js_split (sep s : string) : list string := split_go sep 0 s.

(** [arr.join(sep)] *)
Definition js_join (sep : string) (l : list string) : string := String.concat sep l.

(** [s.slice(a, b)] and [s.substring(0, n)] for indices that may be negative
    (counted from the end, as [slice] does) or too large (clamped). *)
Definition slice_index (n i : Z) : nat :=
  Z.to_nat (if (i <? 0)%Z then Z.max 0 (n + i) else Z.min n i).
Definition chars (s : string) : list ascii := String.list_ascii_of_string s.
Definition of_chars (l : list ascii) : string := String.string_of_list_ascii l.
Definition js_slice (s : string) (a b : Z) : string :=
  let n := Z.of_nat (len s) in
  of_chars (take (slice_index n b - slice_index n a) (drop (slice_index n a) (chars s))).
Definition js_slice_from (s : string) (a : Z) : string := js_slice s a (Z.of_nat (len s)).
Definition js_substring0 (s : string) (n : nat) : string := String.substring 0 n s.

Definition js_startsWith (p s : string) : bool := String.prefix p s.
(** A string in double quotes. *)
Definition DQUOTE : string := String (ascii_of_nat 34) "".
Definition quoted (s : string) : string := DQUOTE +:+ s +:+ DQUOTE.
Definition js_toLowerCase (s : string) : string := str_map lower_char s.

(** [s.replaceAll(a, b)] for one-character [a] and [b]. *)
Definition replaceAll1 (a b : ascii) (s : string) : string :=
  str_map (λ c, if Ascii.eqb c a then b else c) s.

Fixpoint trim_start (s : string) : string :=
  match s with
  | EmptyString => EmptyString
  | String c s' => if is_space c then trim_start s' else s
  end.
Fixpoint str_rev (s acc : string) : string :=
  match s with
  | EmptyString => acc
  | String c s' => str_rev s' (String c acc)
  end.
Definition js_trim (s : string) : string :=
  str_rev (trim_start (str_rev (trim_start s) EmptyString)) EmptyString.

(** Number to string, and [parseInt] of a digit string: numbers of the model are
    naturals, exact where the program's doubles are (below 2^53). *)
Definition num_to_str (n : N) : string := NilZero.string_of_uint (N.to_uint n).
Definition digits_value (s : string) : option N :=
  match s with
  | EmptyString => None
  | _ => N.of_uint <$> NilEmpty.uint_of_string s
  end.

(** ** Lemmas *)

Lemma str_app_nil_r s : s +:+ "" = s.
Proof. induction s as [|c s IH]; [done|]. cbn. by rewrite IH. Qed.
Lemma str_app_assoc s t u : (s +:+ t) +:+ u = s +:+ t +:+ u.
Proof. induction s as [|c s IH]; [done|]. cbn. by rewrite IH. Qed.
Lemma len_app s t : len (s +:+ t) = len s + len t.
Proof. unfold len. induction s as [|c s IH]; cbn; lia. Qed.
Lemma str_app_inj s t u : s +:+ t = s +:+ u → t = u.
Proof. induction s as [|c s IH]; cbn; [done|]. intros [=]. auto. Qed.
Lemma str_app_eq_nil s t : s +:+ t = "" → s = "" ∧ t = "".
Proof. destruct s; [done|discriminate]. Qed.

Lemma str_all_app p s t : str_all p (s +:+ t) = str_all p s && str_all p t.
Proof. induction s as [|c s IH]; [done|]. cbn. rewrite IH. by destruct (p c). Qed.
Lemma str_all_impl (p q : ascii → bool) s :
  (∀ c, p c = true → q c = true) → str_all p s = true → str_all q s = true.
Proof.
  intros Hpq. induction s as [|c s IH]; [done|]. cbn. intros [Hc Hs]%andb_prop.
  rewrite (Hpq c Hc). auto.
Qed.

Lemma lacks_app c s t : lacks c (s +:+ t) = lacks c s && lacks c t.
Proof. apply str_all_app. Qed.
Lemma lacks_cons c d s : lacks c (String d s) = negb (Ascii.eqb c d) && lacks c s.
Proof. done. Qed.

Lemma clean_lacks c s : is_clean c = false → clean s = true → lacks c s = true.
Proof.
  intros Hc. apply str_all_impl. intros d Hd.
  destruct (Ascii.eqb_spec c d); [congruence|done].
Qed.

Lemma str_eqb_refl s : String.eqb s s = true.
Proof. by apply String.eqb_eq. Qed.

Lemma prefix_app s t : String.prefix s (s +:+ t) = true.
Proof.
  induction s as [|c s IH]; [by destruct t|]. cbn. by destruct (Ascii.ascii_dec c c).
Qed.
Lemma prefix_iff p s : String.prefix p s = true ↔ ∃ t, s = p +:+ t.
Proof.
  split; [|intros [t ->]; apply prefix_app].
  revert s. induction p as [|c p IH]; intros s H; [by exists s|].
  destruct s as [|d s]; [discriminate|]. cbn in H.
  destruct (Ascii.ascii_dec c d) as [->|]; [|discriminate].
  destruct (IH _ H) as [t ->]. by exists t.
Qed.
Lemma prefix_head_ne c d p s : c ≠ d → String.prefix (String c p) (String d s) = false.
Proof. intros Hne. cbn. by destruct (Ascii.ascii_dec c d). Qed.

Lemma prefix_same c p s : String.prefix (String c p) (String c s) = String.prefix p s.
Proof. cbn. by destruct (Ascii.ascii_dec c c). Qed.

(** *** Splitting *)

Lemma split_go_skip sep s t : split_go sep (len s) (s +:+ t) = split_go sep 0 t.
Proof. induction s as [|c s IH]; [done|]. cbn. apply IH. Qed.

(** No occurrence of the separator's first character: nothing to split. *)
Lemma js_split_none c sep x :
  lacks c x = true → js_split (String c sep) x = [x].
Proof.
  unfold js_split. induction x as [|d x IH]; [done|].
  rewrite lacks_cons. intros [Hd Hx]%andb_prop.
  apply negb_true_iff in Hd. apply Ascii.eqb_neq in Hd.
  change (split_go (String c sep) 0 (String d x)) with
    (if String.prefix (String c sep) (String d x)
     then EmptyString :: split_go (String c sep) (len (String c sep) - 1) x
     else cons_head d (split_go (String c sep) 0 x)).
  rewrite (prefix_head_ne _ _ _ _ Hd), (IH Hx). done.
Qed.

Lemma js_split_cons c sep x y :
  lacks c x = true →
  js_split (String c sep) (x +:+ String c sep +:+ y) = x :: js_split (String c sep) y.
Proof.
  unfold js_split. induction x as [|d x IH].
  - intros _. change ("" +:+ ?s) with s.
    change (String c sep +:+ y) with (String c (sep +:+ y)). cbn [split_go].
    change (String c (sep +:+ y)) with (String c sep +:+ y).
    rewrite prefix_app.
    replace (len (String c sep) - 1) with (len sep) by (unfold len; cbn; lia).
    by rewrite (split_go_skip (String c sep) sep y).
  - rewrite lacks_cons. intros [Hd Hx]%andb_prop.
    apply negb_true_iff in Hd. apply Ascii.eqb_neq in Hd.
    change (String d x +:+ ?s) with (String d (x +:+ s)). cbn [split_go].
    rewrite (prefix_head_ne _ _ _ _ Hd), (IH Hx). done.
Qed.

Lemma js_split_end c sep x :
  lacks c x = true → js_split (String c sep) (x +:+ String c sep) = [x; ""].
Proof.
  intros Hx. rewrite <- (str_app_nil_r (x +:+ String c sep)), str_app_assoc.
  by rewrite js_split_cons.
Qed.

Lemma js_join_cons sep x y l : js_join sep (x :: y :: l) = x +:+ sep +:+ js_join sep (y :: l).
Proof. done. Qed.

(** [join] then [split] gives the parts back when none contains the separator. *)
Lemma js_split_join c l :
  l ≠ [] → Forall (λ x, lacks c x = true) l →
  js_split (String c "") (js_join (String c "") l) = l.
Proof.
  intros Hne Hl. induction Hl as [|x l Hx Hl IH]; [done|].
  destruct l as [|y l]; [by apply js_split_none|].
  rewrite js_join_cons, js_split_cons by done. f_equal. by apply IH.
Qed.

(** *** Decimal notation *)

Lemma string_of_uint_digits d : str_all is_digit (NilEmpty.string_of_uint d) = true.
Proof. induction d; cbn; auto. Qed.

Lemma to_uint_nonnil n : N.to_uint n ≠ Decimal.Nil.
Proof. destruct n as [|p]; [done|]. apply DecimalPos.Unsigned.to_uint_nonnil. Qed.

Lemma nilzero_nilempty d : d ≠ Decimal.Nil → NilZero.string_of_uint d = NilEmpty.string_of_uint d.
Proof. by destruct d. Qed.

Lemma num_to_str_digits n : str_all is_digit (num_to_str n) = true.
Proof.
  unfold num_to_str. rewrite nilzero_nilempty by apply to_uint_nonnil.
  apply string_of_uint_digits.
Qed.

Lemma num_to_str_ne n : num_to_str n ≠ "".
Proof.
  unfold num_to_str. pose proof (to_uint_nonnil n) as Hn. by destruct (N.to_uint n).
Qed.

Lemma digits_value_num_to_str n : digits_value (num_to_str n) = Some n.
Proof.
  pose proof (num_to_str_ne n) as Hne. unfold digits_value.
  destruct (num_to_str n) as [|c s] eqn:E; [done|]. rewrite <- E. unfold num_to_str.
  rewrite nilzero_nilempty by apply to_uint_nonnil.
  rewrite NilEmpty.usu. cbn. by rewrite DecimalN.Unsigned.of_to.
Qed.

#[export] Hint Resolve num_to_str_digits num_to_str_ne clean_lacks : js.
#[export] Hint Rewrite str_app_nil_r str_app_assoc lacks_app str_all_app digits_value_num_to_str : js_str.

(** *** Substrings that do not occur *)

Fixpoint no_occ (sep s : string) : bool :=
  match s with
  | EmptyString => true
  | String _ s' => negb (String.prefix sep s) && no_occ sep s'
  end.

Lemma js_split_no_occ sep x : no_occ sep x = true → js_split sep x = [x].
Proof.
  unfold js_split. induction x as [|d x IH]; [done|].
  cbn [no_occ]. intros [Hd Hx]%andb_prop. apply negb_true_iff in Hd.
  cbn [split_go]. by rewrite Hd, (IH Hx).
Qed.

Lemma no_occ_lacks c sep x y :
  lacks c x = true → no_occ (String c sep) y = true → no_occ (String c sep) (x +:+ y) = true.
Proof.
  induction x as [|d x IH]; [done|].
  rewrite lacks_cons. intros [Hd Hx]%andb_prop Hy.
  apply negb_true_iff, Ascii.eqb_neq in Hd.
  change (String d x +:+ y) with (String d (x +:+ y)). cbn [no_occ].
  by rewrite (prefix_head_ne _ _ _ _ Hd), (IH Hx Hy).
Qed.

Lemma substring_app s t : String.substring 0 (len s) (s +:+ t) = s.
Proof. unfold len. induction s as [|c s IH]; [by destruct t|]. cbn. by rewrite IH. Qed.

Lemma substring_all s : String.substring 0 (len s) s = s.
Proof. rewrite <- (str_app_nil_r s) at 2. apply substring_app. Qed.

Lemma substring_skip s t : String.substring (len s) (len t) (s +:+ t) = t.
Proof.
  unfold len. induction s as [|c s IH]; [apply substring_all|]. exact IH.
Qed.

Lemma str_map_app f s t : str_map f (s +:+ t) = str_map f s +:+ str_map f t.
Proof. induction s as [|c s IH]; [done|]. cbn. by rewrite IH. Qed.

Lemma replaceAll1_lacks a b s : lacks a s = true → replaceAll1 a b s = s.
Proof.
  unfold replaceAll1. induction s as [|c s IH]; [done|].
  rewrite lacks_cons. intros [Hc Hs]%andb_prop. cbn. rewrite (IH Hs), Ascii.eqb_sym.
  apply negb_true_iff in Hc. by rewrite Hc.
Qed.

Lemma lacks_join c sep l :
  lacks c sep = true → Forall (λ x, lacks c x = true) l → lacks c (js_join sep l) = true.
Proof.
  intros Hsep. induction 1 as [|x l Hx Hl IH]; [done|].
  destruct l as [|y l]; [done|]. rewrite js_join_cons, !lacks_app, Hx, Hsep. done.
Qed.

Lemma lacks_digits c s : is_digit c = false → str_all is_digit s = true → lacks c s = true.
Proof.
  intros Hc. apply str_all_impl. intros d Hd. destruct (Ascii.eqb_spec c d); [congruence|done].
Qed.

#[export] Hint Resolve lacks_digits lacks_join : js.

(** *** Characters as a list *)

Lemma of_chars_chars s : of_chars (chars s) = s.
Proof. apply String.string_of_list_ascii_of_string. Qed.
Lemma chars_of_chars l : chars (of_chars l) = l.
Proof. apply String.list_ascii_of_string_of_list_ascii. Qed.
Lemma length_chars s : length (chars s) = len s.
Proof. unfold len, chars. induction s as [|c s IH]; [done|]. cbn. by f_equal. Qed.
Lemma chars_app s t : chars (s +:+ t) = chars s ++ chars t.
Proof. unfold chars. induction s as [|c s IH]; [done|]. cbn. by rewrite IH. Qed.
Lemma of_chars_app l k : of_chars (l ++ k) = of_chars l +:+ of_chars k.
Proof. unfold of_chars. induction l as [|c l IH]; [done|]. cbn. by rewrite IH. Qed.
Lemma chars_inj s t : chars s = chars t → s = t.
Proof. intros H. by rewrite <- (of_chars_chars s), H, of_chars_chars. Qed.

Lemma slice_index_id n i : (0 <= i <= n)%Z → slice_index n i = Z.to_nat i.
Proof. intros ?. unfold slice_index. destruct (i <? 0)%Z eqn:E; lia. Qed.

Lemma chars_slice s a b :
  (0 <= a)%Z → (a <= b)%Z → (b <= Z.of_nat (len s))%Z →
  chars (js_slice s a b) = take (Z.to_nat b - Z.to_nat a) (drop (Z.to_nat a) (chars s)).
Proof.
  intros. unfold js_slice. rewrite chars_of_chars, !slice_index_id by lia. done.
Qed.

Lemma js_slice_app s a b c :
  (0 <= a)%Z → (a <= b)%Z → (b <= c)%Z → (c <= Z.of_nat (len s))%Z →
  js_slice s a b +:+ js_slice s b c = js_slice s a c.
Proof.
  intros. apply chars_inj. rewrite chars_app, !chars_slice by lia.
  replace (Z.to_nat c - Z.to_nat a)
    with ((Z.to_nat b - Z.to_nat a) + (Z.to_nat c - Z.to_nat b)) by lia.
  rewrite <- take_take_drop, drop_drop.
  by replace (Z.to_nat a + (Z.to_nat b - Z.to_nat a)) with (Z.to_nat b) by lia.
Qed.

Lemma js_slice_full s : js_slice s 0 (Z.of_nat (len s)) = s.
Proof.
  apply chars_inj. rewrite chars_slice by lia. rewrite Nat2Z.id, Nat.sub_0_r, drop_0.
  apply take_ge. by rewrite length_chars.
Qed.
