(* ===== verification/JsObject.v ===== *)
(** * JavaScript objects used as dictionaries

    A [Record<string, V>] is modelled by the list of its entries in property
    order, so that [Object.keys], [Object.entries] and [Array.find] over them
    have the program's order: a new key goes last, an assignment to an existing
    key keeps its place.  (Keys that are canonical array indices, which engines
    list first, do not occur in the modelled stores.)  A [delete]d key and a key
    set to [undefined] are both absent, which is what reads observe. *)
From S2P Require Import Prelude.

Abbreviation obj V := (list (string * V)).

Fixpoint oget {V} (o : obj V) (k : string) : option V :=
  match o with
  | [] => None
  | (k', v) :: o' => if String.eqb k k' then Some v else oget o' k
  end.

(** [o[k] = v] *)
Fixpoint oset {V} (o : obj V) (k : string) (v : V) : obj V :=
  match o with
  | [] => [(k, v)]
  | (k', v') :: o' => if String.eqb k k' then (k, v) :: o' else (k', v') :: oset o' k v
  end.

(** [delete o[k]] *)
Definition odelete {V} (o : obj V) (k : string) : obj V :=
  List.filter (λ e, negb (String.eqb k e.1)) o.

Definition okeys {V} (o : obj V) : list string := o.*1.
Definition ovalues {V} (o : obj V) : list V := o.*2.

(** [{...o1, ...o2}] *)
Definition ospread {V} (o1 o2 : obj V) : obj V := foldl (λ o e, oset o e.1 e.2) o1 o2.

(** [Object.fromEntries(l)] *)
Definition ofromEntries {V} (l : list (string * V)) : obj V := ospread [] l.

(** Well-formed: no key twice. *)
Definition owf {V} (o : obj V) : Prop := NoDup (okeys o).

Section obj.
Context {V : Type}.
Implicit Types (o : obj V) (k : string) (v : V).

Lemma oget_oset_eq o k v : oget (oset o k v) k = Some v.
Proof.
  induction o as [|[k' v'] o IH]; cbn; [by rewrite String.eqb_refl|].
  destruct (String.eqb k k') eqn:E; cbn; [by rewrite String.eqb_refl | by rewrite E].
Qed.

Lemma oget_oset_ne o k k' v : k ≠ k' → oget (oset o k v) k' = oget o k'.
Proof.
  intros Hne%not_eq_sym%String.eqb_neq.
  induction o as [|[j w] o IH]; cbn; [by rewrite Hne|].
  destruct (String.eqb_spec k j) as [->|]; cbn; [by rewrite Hne | by rewrite IH].
Qed.

Lemma oget_oset o k k' v :
  oget (oset o k v) k' = if String.eqb k k' then Some v else oget o k'.
Proof.
  destruct (String.eqb_spec k k') as [->|]; [apply oget_oset_eq | by apply oget_oset_ne].
Qed.

Lemma odelete_cons o k j w :
  odelete ((j, w) :: o) k = if String.eqb k j then odelete o k else (j, w) :: odelete o k.
Proof. unfold odelete. cbn. by destruct (String.eqb k j). Qed.

Lemma oget_odelete_eq o k : oget (odelete o k) k = None.
Proof.
  induction o as [|[j w] o IH]; [done|]. rewrite odelete_cons.
  destruct (String.eqb k j) eqn:E; cbn; [done | by rewrite E].
Qed.

Lemma oget_odelete_ne o k k' : k ≠ k' → oget (odelete o k) k' = oget o k'.
Proof.
  intros Hne. induction o as [|[j w] o IH]; [done|]. rewrite odelete_cons. cbn.
  destruct (String.eqb_spec k j) as [->|]; cbn.
  - rewrite IH. apply not_eq_sym, String.eqb_neq in Hne. by rewrite Hne.
  - by rewrite IH.
Qed.

Lemma oset_new o k v : k ∉ okeys o → oset o k v = o ++ [(k, v)].
Proof.
  induction o as [|[j w] o IH]; [done|]. cbn. intros [Hk Ho]%not_elem_of_cons.
  apply String.eqb_neq in Hk. rewrite Hk. by rewrite IH.
Qed.

Lemma okeys_oset o k v :
  okeys (oset o k v) = if bool_decide (k ∈ okeys o) then okeys o else okeys o ++ [k].
Proof.
  induction o as [|[j w] o IH]; [done|]. cbn.
  destruct (String.eqb_spec k j) as [->|Hne]; cbn.
  - rewrite bool_decide_eq_true_2; [done | left].
  - fold (okeys (oset o k v)) (okeys o). rewrite IH.
    repeat case_bool_decide; [done| set_solver..|done].
Qed.

Lemma oget_Some_elem o k v : oget o k = Some v → (k, v) ∈ o.
Proof.
  induction o as [|[j w] o IH]; [done|]. cbn.
  destruct (String.eqb_spec k j) as [->|]; [intros [= ->]; left | right; auto].
Qed.

Lemma elem_of_okeys o k : k ∈ okeys o ↔ is_Some (oget o k).
Proof.
  induction o as [|[j w] o IH]; cbn.
  - split; [by intros ?%elem_of_nil | by intros []].
  - rewrite elem_of_cons. fold (okeys o). rewrite IH.
    destruct (String.eqb_spec k j) as [->|]; [naive_solver | naive_solver].
Qed.

Lemma oget_None o k : oget o k = None ↔ k ∉ okeys o.
Proof. rewrite elem_of_okeys. destruct (oget o k); naive_solver. Qed.

Lemma oget_elem o k v : owf o → (k, v) ∈ o → oget o k = Some v.
Proof.
  unfold owf. induction o as [|[j w] o IH]; [by intros _ ?%elem_of_nil|].
  cbn. intros [Hj Ho]%NoDup_cons [[= <- <-]|Hin]%elem_of_cons; [by rewrite String.eqb_refl|].
  destruct (String.eqb_spec k j) as [->|]; [|auto].
  destruct Hj. change (o.*1) with (okeys o). rewrite elem_of_okeys. by rewrite IH.
Qed.

Lemma owf_nil : owf (@nil (string * V)).
Proof. constructor. Qed.

Lemma owf_oset o k v : owf o → owf (oset o k v).
Proof.
  unfold owf. rewrite okeys_oset. case_bool_decide as Hk; [done|].
  intros Ho. apply NoDup_app. split; [done|]. split; [set_solver|].
  apply NoDup_singleton.
Qed.

Lemma owf_odelete o k : owf o → owf (odelete o k).
Proof.
  unfold owf, odelete. induction o as [|[j w] o IH]; [done|].
  cbn. intros [Hj Ho]%NoDup_cons. destruct (negb (String.eqb k j)); cbn; [|auto].
  constructor; [|auto]. contradict Hj. fold (okeys o).
  apply list_elem_of_fmap in Hj as ([j' w'] & -> & Hin).
  apply list_elem_of_fmap. exists (j', w'). split; [done|].
  apply list_elem_of_In, List.filter_In in Hin as [Hin _]. by apply list_elem_of_In.
Qed.

Lemma owf_ospread o1 o2 : owf o1 → owf (ospread o1 o2).
Proof.
  unfold ospread. revert o1. induction o2 as [|[k v] o2 IH]; intros o1 H; [done|].
  cbn. apply IH. by apply owf_oset.
Qed.

(** Later entries win; [o2] is read from its last entry for the key, which for a
    well-formed [o2] is the only one. *)
Lemma oget_ospread o1 o2 k :
  owf o2 → oget (ospread o1 o2) k = match oget o2 k with Some v => Some v | None => oget o1 k end.
Proof.
  unfold ospread, owf. revert o1. induction o2 as [|[j v] o2 IH]; intros o1; [done|].
  cbn. intros [Hj Ho]%NoDup_cons. rewrite (IH _ Ho), oget_oset.
  destruct (String.eqb_spec j k) as [->|Hne].
  - rewrite String.eqb_refl. apply oget_None in Hj. by rewrite Hj.
  - apply not_eq_sym, String.eqb_neq in Hne. by rewrite Hne.
Qed.
End obj.

#[export] Hint Resolve owf_nil owf_oset owf_odelete owf_ospread : js.
