(* ===== verification/EntityId.v ===== *)
(** * Hypermedia identifiers and URLs

    [frontend/packages/shared/src/utils/entity-id-url.ts]: building and parsing
    [hm://] identifiers, public web URLs, fragments with block ranges, and the
    variants query parameter.  [new URL(..).toString()] and [URLSearchParams] are
    the host platform's: they are the class [UrlApi], and the laws used of them,
    which only concern characters that neither parser treats specially, are
    [UrlApiLaws]. *)
From S2P Require Import Prelude.
From S2P Require Import JsString.
From S2P Require Import JsObject.

(** ** Data *)

Definition HYPERMEDIA_PUBLIC_WEB_GATEWAY : string := "https://hyper.media".
Definition HYPERMEDIA_SCHEME : string := "hm".
Definition HYPERMEDIA_ENTITY_TYPES : obj string :=
  [("a", "Account"); ("d", "Document"); ("g", "Group"); ("c", "Comment")].

(** The properties every object literal inherits from [Object.prototype]; an
    indexed read such as [values[key]] finds them too. *)
Definition object_prototype_keys : list string :=
  ["constructor"; "__defineGetter__"; "__defineSetter__"; "hasOwnProperty";
   "__lookupGetter__"; "__lookupSetter__"; "isPrototypeOf"; "propertyIsEnumerable";
   "toString"; "valueOf"; "__proto__"; "toLocaleString"].

Inductive BlockRange : Type :=
| Range (start rend : N)
| ExpandedBlockRange (expanded : bool).

Inductive PublicationVariant : Type :=
| GroupVariant (groupId : string) (pathName : option string)
| AuthorVariant (author : option string).

(** [{blockId}], possibly with a range. *)
Record ParsedFragment : Type := { pf_blockId : string; pf_range : option BlockRange }.

Record ParsedURL : Type := {
  pu_scheme : string;
  pu_path : list string;
  pu_query : list (string * string);
  pu_fragment : option string;
}.

Record UnpackedHypermediaId : Type := {
  u_id : string;
  u_type : string;
  u_eid : option string;
  u_qid : string;
  u_groupPathName : option string;
  u_version : option string;
  u_blockRef : option string;
  u_blockRange : option BlockRange;
  u_hostname : option string;
  u_scheme : option string;
  u_variants : option (list PublicationVariant);
  u_latest : option bool;
}.

(** The options argument of [createHmId] and [hmId]. *)
Record HmIdOpts : Type := {
  o_version : option string;
  o_blockRef : option string;
  o_blockRange : option BlockRange;
  o_groupPathName : option string;
  o_variants : option (list PublicationVariant);
  o_latest : option bool;
  o_hostname : option string;
}.
Definition no_opts : HmIdOpts :=
  {| o_version := None; o_blockRef := None; o_blockRange := None; o_groupPathName := None;
     o_variants := None; o_latest := None; o_hostname := None |}.

#[export] Instance BlockRange_eq_dec : EqDecision BlockRange.
Proof. solve_decision. Defined.
#[export] Instance PublicationVariant_eq_dec : EqDecision PublicationVariant.
Proof. solve_decision. Defined.

(** A template literal prints a missing value as [undefined]. *)
Definition undef_str (o : option string) : string := default "undefined" o.

(** ** The platform's URL functions *)

Class UrlApi : Type := {
  url_href : string → result string;                      (* new URL(s).toString() *)
  url_search_params : string → list (string * string);    (* new URLSearchParams(s) *)
}.

(** Characters that survive form-urlencoded decoding unchanged. *)
Definition is_query_char (c : ascii) : bool :=
  is_clean c || (char_code c =? 46)%N || (char_code c =? 47)%N || (char_code c =? 58)%N.
Definition query_clean (s : string) : bool := str_all is_query_char s.

Definition show_param (e : string * option string) : string :=
  match e.2 with
  | None => e.1
  | Some v => e.1 +:+ "=" +:+ v
  end.

Class UrlApiLaws `{UrlApi} : Prop := {
  url_href_clean (segs : list string) :
    segs ≠ [] → Forall (λ s, clean s = true ∧ s ≠ "") segs →
    url_href ("hm://" +:+ js_join "/" segs) = Ok ("hm://" +:+ js_join "/" segs);
  url_search_params_clean (q : list (string * option string)) :
    Forall (λ e, clean e.1 = true ∧ e.1 ≠ "" ∧ query_clean (default "" e.2) = true) q →
    url_search_params (js_join "&" (show_param <$> q)) = (λ e, (e.1, default "" e.2)) <$> q;
}.

(** [URLSearchParams.get] and [.has] *)
Definition params_get (q : list (string * string)) (k : string) : option string := oget q k.
Definition params_has (q : list (string * string)) (k : string) : bool :=
  match oget q k with Some _ => true | None => false end.

(** ** Fragments *)

(** The rest of the fragment after the 8 characters of the block id:
    [((?<expanded>\+)|\[(?<rangeStart>\d+)\:(?<rangeEnd>\d+)\])?$] *)
Definition match_range (s : string) : option (option BlockRange) :=
  match s with
  | EmptyString => Some None
  | String "+" EmptyString => Some (Some (ExpandedBlockRange true))
  | String "[" rest =>
      match js_split "]" rest with
      | [body; ""] =>
          match js_split ":" body with
          | [a; b] =>
              match digits_value a, digits_value b with
              | Some x, Some y => Some (Some (Range x y))
              | _, _ => None
              end
          | _ => None
          end
      | _ => None
      end
  | _ => None
  end.

Definition parseFragment (input : option string) : option ParsedFragment :=
  match input with
  | None | Some EmptyString => None
  | Some s =>
      let blockId := String.substring 0 8 s in
      if (8 <=? len s) && str_all (λ c, negb (is_space c)) blockId then
        match match_range (String.substring 8 (len s - 8) s) with
        | Some r => Some {| pf_blockId := blockId; pf_range := r |}
        | None => Some {| pf_blockId := s; pf_range := None |}
        end
      else Some {| pf_blockId := s; pf_range := None |}
  end.

Definition serializeBlockRange (range : option BlockRange) : string :=
  match range with
  | Some (ExpandedBlockRange true) => "+"
  | Some (Range a b) => "[" +:+ num_to_str a +:+ ":" +:+ num_to_str b +:+ "]"
  | _ => ""
  end.

(** The capture of [url?.match] on a hash, any characters, and the end: what follows
    the leftmost [#] that no line terminator follows. *)
Fixpoint match_hash (s : string) : option string :=
  match s with
  | EmptyString => None
  | String c s' =>
      if Ascii.eqb c "#" && str_all (λ d, negb (is_newline d)) s' then Some s' else match_hash s'
  end.

Definition extractBlockRefOfUrl (url : option string) : option string :=
  let fragment := or_null (url ≫= match_hash) in
  match fragment with
  | Some f => or_null (pf_blockId <$> parseFragment (Some f))
  | None => None
  end.

(** [null] is [None]; the empty object [{}] (a fragment without range) is
    [Some None]. *)
Definition extractBlockRangeOfUrl (url : option string) : option (option BlockRange) :=
  let fragment := or_null (url ≫= match_hash) in
  match fragment with
  | Some f => pf_range <$> parseFragment (Some f)
  | None => None
  end.

(** ** Query strings *)

Definition serializeQueryString (query : list (string * option string)) : string :=
  let queryString := js_join "&" (show_param <$> query) in
  if truthy queryString then "?" +:+ queryString else "".

(** ** Parsing *)

Definition inKeys (key : option string) : option string :=
  match key with
  | None => None
  | Some k =>
      if bool_decide (k ∈ okeys HYPERMEDIA_ENTITY_TYPES) || bool_decide (k ∈ object_prototype_keys)
      then Some k else None
  end.

Section url_api.
Context `{UrlApi}.

Definition parseCustomURL (url : string) : option ParsedURL :=
  if negb (truthy url) then None else
  let parts := js_split "://" url in
  let scheme := default "" (parts !! 0) in
  let rest := parts !! 1 in
  if negb (otruthy rest) then None else
  let hashed := js_split "#" (default "" rest) in
  let asked := js_split "?" (default "" (hashed !! 0)) in
  Some {| pu_scheme := scheme;
          pu_path := js_split "/" (default "" (asked !! 0));
          pu_query := match asked !! 1 with Some q => url_search_params q | None => [] end;
          pu_fragment := hashed !! 1 |}.

(** [createHmId(type, id)] without options. *)
Definition createHmId0 (type id : string) : result string :=
  url_href (HYPERMEDIA_SCHEME +:+ "://" +:+ type +:+ "/" +:+ id).

(** One element of [variantsString.split('.')]: at most one variant.  [split(/:|\//)]
    cuts at either character. *)
Definition parseVariant (single : string) : result (list PublicationVariant) :=
  if negb (truthy single) then Ok [] else
  let parts := js_split "/" (replaceAll1 ":" "/" single) in
  match parts with
  | key :: rest =>
      if String.eqb key "g" then
        let* groupId := createHmId0 "g" (undef_str (rest !! 0)) in
        Ok [GroupVariant groupId (or_null (rest !! 1))]
      else if String.eqb key "a" then Ok [AuthorVariant (rest !! 0)]
      else Ok []
  | [] => Ok []
  end.

Definition parseVariantsQuery (variantsString : option (string + list string)) :
    result (option (list PublicationVariant)) :=
  match variantsString with
  | None | Some (inl EmptyString) => Ok None
  | Some v =>
      let s := match v with inl s => s | inr l => js_join "." l end in
      let* vs := map_result parseVariant (js_split "." s) in
      match concat vs with
      | [] => Ok None
      | l => Ok (Some l)
      end
  end.

(** The two branches of [unpackHmId] read the type, the entity id and the path
    name from [path[off]], [path[off+1]] and [path[off+2]]. *)
Definition unpackParsed (hypermediaId : string) (parsed : ParsedURL) (off : nat)
    (hostname : option string) : result (option UnpackedHypermediaId) :=
  let type := inKeys (pu_path parsed !! off) in
  let eid := pu_path parsed !! S off in
  let version := params_get (pu_query parsed) "v" in
  let latest := params_has (pu_query parsed) "l" in
  let* variants := parseVariantsQuery (inl <$> params_get (pu_query parsed) "b") in
  match type with
  | None => Ok None
  | Some type =>
      let* qid := createHmId0 type (undef_str eid) in
      let fragment := parseFragment (pu_fragment parsed) in
      Ok (Some {| u_id := hypermediaId; u_qid := qid; u_type := type; u_eid := eid;
                  u_groupPathName := or_null (pu_path parsed !! S (S off));
                  u_version := version; u_variants := variants;
                  u_blockRef := pf_blockId <$> fragment;
                  u_blockRange := fragment ≫= pf_range;
                  u_hostname := hostname; u_latest := Some latest;
                  u_scheme := Some (pu_scheme parsed) |})
  end.

Definition unpackHmId (hypermediaId : string) : result (option UnpackedHypermediaId) :=
  match parseCustomURL hypermediaId with
  | None => Ok None
  | Some parsed =>
      if String.eqb (pu_scheme parsed) HYPERMEDIA_SCHEME then
        unpackParsed hypermediaId parsed 0 None
      else if String.eqb (pu_scheme parsed) "https" || String.eqb (pu_scheme parsed) "http" then
        unpackParsed hypermediaId parsed 1 (pu_path parsed !! 0)
      else Ok None
  end.

(** ** Building *)

Definition variantParam (variant : PublicationVariant) : result (option string) :=
  match variant with
  | GroupVariant groupId pathName =>
      let* g := unpackHmId groupId in
      match g with
      | None => Ok None
      | Some g =>
          Ok (Some ("g/" +:+ undef_str (u_eid g) +:+
                    (if otruthy pathName then "/" +:+ default "" pathName else "")))
      end
  | AuthorVariant author => Ok (Some ("a/" +:+ undef_str author))
  end.

Definition getVariantsParamValue (variants : list PublicationVariant) : result string :=
  let* l := map_result variantParam variants in
  Ok (js_join "." (concat (opt_list <$> l))).

(** The query object [{v, b, l}] that the builders assemble. *)
Definition buildQuery (version : option string) (variants : option (list PublicationVariant))
    (latest : option bool) : result (list (string * option string)) :=
  let v := if otruthy version then [("v", version)] else [] in
  let l := match latest with Some true => [("l", None)] | _ => [] end in
  match variants with
  | Some ((_ :: _) as vs) =>
      let* b := getVariantsParamValue vs in
      Ok (v ++ [("b", Some b)] ++ l)
  | _ => Ok (v ++ l)
  end.

Definition createHmId (type id : string) (opts : HmIdOpts) : result string :=
  let path := type +:+ "/" +:+ id +:+
    (if otruthy (o_groupPathName opts) then "/" +:+ default "" (o_groupPathName opts) else "") in
  let* responseUrl := url_href (HYPERMEDIA_SCHEME +:+ "://" +:+ path) in
  let* query := buildQuery (o_version opts) (o_variants opts) (o_latest opts) in
  Ok (responseUrl +:+ serializeQueryString query +:+
      (if otruthy (o_blockRef opts)
       then "#" +:+ default "" (o_blockRef opts) +:+ serializeBlockRange (o_blockRange opts)
       else "")).

Definition hmId (type eid : string) (opts : HmIdOpts) : result UnpackedHypermediaId :=
  let* id := createHmId type eid opts in
  let* qid := createHmId type eid no_opts in
  Ok {| u_id := id; u_type := type; u_eid := Some eid; u_qid := qid;
        (* the fields below are overridden by the spread of [opts] when given *)
        u_groupPathName := o_groupPathName opts; u_version := o_version opts;
        u_blockRef := o_blockRef opts; u_blockRange := o_blockRange opts;
        u_hostname := o_hostname opts; u_scheme := None;
        u_variants := o_variants opts; u_latest := o_latest opts |}.

Definition createPublicWebHmUrl (type eid : string) (hostname : nullish string)
    (opts : HmIdOpts) : result string :=
  let webPath := "/" +:+ type +:+ "/" +:+ eid in
  let urlHost :=
    match hostname with
    | Undefined => HYPERMEDIA_PUBLIC_WEB_GATEWAY
    | Null => ""
    | Given h => h
    end in
  let* query := buildQuery (o_version opts) (o_variants opts) (o_latest opts) in
  Ok (urlHost +:+ webPath +:+ serializeQueryString query +:+
      (if otruthy (o_blockRef opts)
       then "#" +:+ default "" (o_blockRef opts) +:+ serializeBlockRange (o_blockRange opts)
       else "")).

(** The parameter's default is [null], so [undefined] becomes [null] too. *)
Definition groupDocUrl (groupEid : string) (version : option string) (pathName : string)
    (hostname : nullish string) : string :=
  let hostname := match hostname with Undefined => Null | h => h end in
  let webPath := "/g/" +:+ groupEid in
  let urlHost :=
    match hostname with
    | Null => ""
    | Undefined => HYPERMEDIA_PUBLIC_WEB_GATEWAY
    | Given h => h
    end in
  urlHost +:+ webPath +:+
  (if truthy pathName && negb (String.eqb pathName "/") then "/" +:+ pathName else "") +:+
  (if otruthy version then "?v=" +:+ default "" version else "").

(** [!blockRef.startsWith('#') ? '#' : ''] followed by the block and its range. *)
Definition hashRef (blockRef : option string) (blockRange : option BlockRange) : string :=
  if otruthy blockRef then
    (if js_startsWith "#" (default "" blockRef) then "" else "#") +:+
    default "" blockRef +:+ serializeBlockRange blockRange
  else "".

Definition createHmDocLink (documentId : string) (opts : HmIdOpts) : result string :=
  let* query := buildQuery (o_version opts) (o_variants opts) (o_latest opts) in
  Ok (documentId +:+ serializeQueryString query +:+ hashRef (o_blockRef opts) (o_blockRange opts)).

Definition createHmGroupDocLink (groupId pathName : string) (version blockRef : option string)
    (blockRange : option BlockRange) : string :=
  groupId +:+
  (if truthy pathName then if String.eqb pathName "/" then "/-" else "/" +:+ pathName else "") +:+
  (if otruthy version then "?v=" +:+ default "" version else "") +:+
  hashRef blockRef blockRange.

(** ** Derived operations *)

Definition unpackDocId (inputUrl : string) : result (option (UnpackedHypermediaId * string)) :=
  let* unpackedHm := unpackHmId inputUrl in
  match unpackedHm with
  | Some u =>
      if otruthy (u_eid u) then
        if negb (String.eqb (u_type u) "d") then
          Err ("URL is expected to be a document ID: " +:+ inputUrl)
        else
          let* docId := createHmId "d" (undef_str (u_eid u)) no_opts in
          Ok (Some (u, docId))
      else Ok None
  | None => Ok None
  end.

Definition isHypermediaScheme (url : option string) : bool :=
  match url with
  | Some u => js_startsWith (HYPERMEDIA_SCHEME +:+ "://") u
  | None => false
  end.

(** [text.indexOf(gwUrl.get()) === 0] *)
Definition isPublicGatewayLink (text gwUrl : string) : bool := js_startsWith gwUrl text.

Definition idToUrl (hmId : string) (hostname : nullish string) (opts : HmIdOpts) :
    result (option string) :=
  let* unpacked := unpackHmId hmId in
  match unpacked with
  | Some u =>
      if truthy (u_type u) then
        let* url := createPublicWebHmUrl (u_type u) (undef_str (u_eid u)) hostname
          {| o_version := js_or (o_version opts) (u_version u);
             o_blockRef := js_or (o_blockRef opts) (u_blockRef u);
             o_blockRange := match o_blockRange opts with Some r => Some r | None => u_blockRange u end;
             o_groupPathName := None; o_variants := o_variants opts; o_latest := None;
             o_hostname := None |} in
        Ok (Some url)
      else Ok None
  | None => Ok None
  end.

Definition normalizeHmId (urlMaybe gwUrl : string) : result (option string) :=
  if isHypermediaScheme (Some urlMaybe) then Ok (Some urlMaybe)
  else if isPublicGatewayLink urlMaybe gwUrl then
    let* unpacked := unpackHmId urlMaybe in
    match unpacked with
    | Some u =>
        if otruthy (u_eid u) && truthy (u_type u) then
          let* id := createHmId (u_type u) (undef_str (u_eid u))
            {| o_version := u_version u; o_blockRef := u_blockRef u;
               o_blockRange := u_blockRange u; o_groupPathName := None;
               o_variants := None; o_latest := None; o_hostname := None |} in
          Ok (Some id)
        else Ok None
    | None => Ok None
    end
  else Ok None.

Definition labelOfEntityType (type : string) : option string := oget HYPERMEDIA_ENTITY_TYPES type.

Definition hmIdWithVersion (hmId version blockRef : option string)
    (blockRange : option BlockRange) : result (option string) :=
  if negb (otruthy hmId) then Ok None else
  let* unpacked := unpackHmId (default "" hmId) in
  match unpacked with
  | None => Ok None
  | Some u =>
      let* id := createHmId (u_type u) (undef_str (u_eid u))
        {| o_groupPathName := u_groupPathName u; o_version := js_or version (u_version u);
           o_blockRef := blockRef; o_blockRange := blockRange;
           o_variants := None; o_latest := None; o_hostname := None |} in
      Ok (Some id)
  end.
End url_api.

(** ** A concrete platform

    Enough of the platform's parsers to evaluate the witnesses: printable ASCII
    without percent-encoding. *)
Definition split_param (p : string) : string * string :=
  match js_split "=" p with
  | [] => (p, "")
  | k :: rest => (k, js_join "=" rest)
  end.

#[export] Instance plain_url : UrlApi := {
  url_href s :=
    if str_all (λ c, (33 <=? char_code c)%N && (char_code c <=? 126)%N) s
    then Ok s else Err "Invalid URL";
  url_search_params s := split_param <$> List.filter truthy (js_split "&" s);
}.

(** * Hypermedia identifiers: theorems

    What the components that build and parse ids rely on: the round trip between
    [createHmId] and [unpackHmId], between web URLs and ids, and of fragments.
    Everything is proved from the class [UrlApiLaws]; the instance [plain_url] of
    [EntityId] satisfies it and evaluates the witnesses. *)

(** ** Well-formed arguments *)

Definition is_entity_type (t : string) : bool := bool_decide (t ∈ okeys HYPERMEDIA_ENTITY_TYPES).

Definition clean_ne (s : string) : bool := clean s && truthy s.
Definition clean_opt (o : option string) : bool :=
  match o with Some s => clean_ne s | None => true end.

(** A variant whose identifiers are clean; a group is named by its own id. *)
Definition clean_variant (v : PublicationVariant) : Prop :=
  match v with
  | AuthorVariant (Some a) => clean_ne a = true
  | AuthorVariant None => False
  | GroupVariant gid p => clean_opt p = true ∧ ∃ e, clean_ne e = true ∧ gid = "hm://g/" +:+ e
  end.

(** The characters of versions: change ids joined by dots. *)
Definition is_version_char (c : ascii) : bool := is_clean c || (char_code c =? 46)%N.
Definition version_clean (o : option string) : Prop :=
  match o with Some v => str_all is_version_char v = true ∧ v ≠ "" | None => True end.

Definition block_ref_clean (o : option string) : Prop :=
  match o with Some b => len b = 8 ∧ clean b = true | None => True end.

Definition clean_opts (o : HmIdOpts) : Prop :=
  clean_opt (o_groupPathName o) = true ∧ version_clean (o_version o) ∧
  block_ref_clean (o_blockRef o) ∧
  (∀ vs, o_variants o = Some vs → vs ≠ [] ∧ Forall clean_variant vs).

(** A range that is not serialised does not come back. *)
Definition norm_range (r : option BlockRange) : option BlockRange :=
  match r with
  | Some (ExpandedBlockRange false) => None
  | r => r
  end.

(** What [unpackHmId] is expected to return on the id built from [opts]. *)
Definition unpacked_of (id type eid : string) (o : HmIdOpts) : UnpackedHypermediaId :=
  {| u_id := id; u_type := type; u_eid := Some eid; u_qid := "hm://" +:+ type +:+ "/" +:+ eid;
     u_groupPathName := o_groupPathName o; u_version := o_version o;
     u_blockRef := o_blockRef o;
     u_blockRange := match o_blockRef o with Some _ => norm_range (o_blockRange o) | None => None end;
     u_hostname := None; u_scheme := Some HYPERMEDIA_SCHEME; u_variants := o_variants o;
     u_latest := Some (match o_latest o with Some true => true | _ => false end) |}.

(** ** Lemmas *)

Lemma match_range_serialize r : match_range (serializeBlockRange r) = Some (norm_range r).
Proof.
  destruct r as [[a b|[|]]|]; [|done..]. cbn [serializeBlockRange norm_range].
  change ("[" +:+ ?s) with (String "[" s). unfold match_range.
  replace (num_to_str a +:+ ":" +:+ num_to_str b +:+ "]")
    with (js_join ":" [num_to_str a; num_to_str b] +:+ "]") by (cbn; by rewrite !str_app_assoc).
  rewrite js_split_end by (apply lacks_join; [done|]; repeat constructor; eauto with js).
  rewrite js_split_join by (try done; repeat constructor; eauto with js).
  by rewrite !digits_value_num_to_str.
Qed.

Lemma clean_no_space c : is_clean c = true → is_space c = false.
Proof. destruct c as [[|] [|] [|] [|] [|] [|] [|] [|]]; vm_compute; congruence. Qed.

Lemma parseFragment_serialize b r :
  len b = 8 → clean b = true →
  parseFragment (Some (b +:+ serializeBlockRange r)) =
  Some {| pf_blockId := b; pf_range := norm_range r |}.
Proof.
  intros Hlen Hb. unfold parseFragment.
  destruct (b +:+ serializeBlockRange r) as [|c s] eqn:E.
  { apply str_app_eq_nil in E as [-> _]. done. }
  rewrite <- E. clear c s E. rewrite len_app, Hlen.
  set (ser := serializeBlockRange r).
  assert (String.substring 0 8 (b +:+ ser) = b) as -> by (rewrite <- Hlen; apply substring_app).
  assert (String.substring 8 (8 + len ser - 8) (b +:+ ser) = ser) as ->.
  { replace (8 + len ser - 8) with (len ser) by lia. rewrite <- Hlen. apply substring_skip. }
  unfold ser. rewrite match_range_serialize, (str_all_impl is_clean); [done| |done].
  intros c Hc. by rewrite (clean_no_space c Hc).
Qed.

Lemma clean_join segs :
  Forall (λ s, clean s = true ∧ s ≠ "") segs →
  str_all (λ c, is_clean c || (char_code c =? 47)%N) (js_join "/" segs) = true.
Proof.
  induction 1 as [|x l [Hx _] Hl IH]; [done|].
  assert (str_all (λ c, is_clean c || (char_code c =? 47)%N) x = true) as Hx'.
  { revert Hx. apply str_all_impl. by intros c ->. }
  destruct l as [|y l]; [done|]. rewrite js_join_cons, !str_all_app, Hx', IH. done.
Qed.

Lemma clean_printable c :
  is_clean c || (char_code c =? 47)%N = true → (33 <=? char_code c)%N && (char_code c <=? 126)%N = true.
Proof. destruct c as [[|] [|] [|] [|] [|] [|] [|] [|]]; vm_compute; congruence. Qed.

Lemma query_char_lacks c s :
  is_query_char c = false → query_clean s = true → lacks c s = true.
Proof.
  intros Hc. apply str_all_impl. intros d Hd. destruct (Ascii.eqb_spec c d); [congruence|done].
Qed.

Lemma lacks_show_param c e :
  is_query_char c = false → Ascii.eqb c "=" = false →
  clean e.1 = true → query_clean (default "" e.2) = true → lacks c (show_param e) = true.
Proof.
  intros Hc He Hk Hv. assert (lacks c e.1 = true) as Hk'.
  { apply clean_lacks; [|done]. unfold is_query_char in Hc. by destruct (is_clean c). }
  unfold show_param. destruct (e.2) as [v|]; [|done]. cbn in Hv.
  rewrite !lacks_app, Hk', lacks_cons, He. cbn. by apply query_char_lacks.
Qed.

Lemma show_param_truthy e : e.1 ≠ "" → truthy (show_param e) = true.
Proof.
  intros Hne. unfold show_param. apply truthy_spec.
  destruct (e.2); [|done]. by intros [? _]%str_app_eq_nil.
Qed.

#[export] Instance plain_url_laws : UrlApiLaws.
Proof.
  constructor.
  - intros segs _ Hs. cbn. apply clean_join in Hs.
    rewrite (str_all_impl _ _ _ clean_printable Hs). done.
  - intros q Hq. cbn. destruct (decide (q = [])) as [->|Hne]; [done|].
    rewrite js_split_join.
    + clear Hne. induction Hq as [|e q (Hk & Hne & Hv) Hq IH]; [done|].
      cbn [fmap list_fmap List.filter]. rewrite show_param_truthy by done.
      cbn [fmap list_fmap]. rewrite IH. f_equal.
      unfold split_param, show_param. destruct e as [k [v|]]; cbn [fst snd default from_option id] in *.
      * rewrite js_split_cons by (by apply clean_lacks). f_equal.
        change v with (js_join "=" [v]) at 2. f_equal.
        apply js_split_none. by apply query_char_lacks.
      * by rewrite js_split_none by (by apply clean_lacks).
    + by destruct q.
    + apply Forall_fmap. eapply list.Forall_impl; [exact Hq|]. cbn.
      intros e (Hk & _ & Hv). by apply lacks_show_param.
Qed.

(** *** Parsing a URL given by its parts *)

Definition query_tail (q : option string) : string :=
  match q with Some q => "?" +:+ q | None => "" end.
Definition fragment_tail (f : option string) : string :=
  match f with Some f => "#" +:+ f | None => "" end.

Section laws.
Context `{UrlApiLaws}.

Lemma parseCustomURL_parts scheme P q f :
  lacks ":" scheme = true → P ≠ "" →
  no_occ "://" (P +:+ query_tail q +:+ fragment_tail f) = true →
  lacks "#" (P +:+ query_tail q) = true → lacks "?" P = true →
  lacks "?" (default "" q) = true → lacks "#" (default "" f) = true →
  parseCustomURL (scheme +:+ "://" +:+ P +:+ query_tail q +:+ fragment_tail f) =
  Some {| pu_scheme := scheme; pu_path := js_split "/" P;
          pu_query := match q with Some q => url_search_params q | None => [] end;
          pu_fragment := f |}.
Proof.
  intros Hsch HP Hocc Hhash HqP Hq Hf. unfold parseCustomURL.
  assert (truthy (scheme +:+ "://" +:+ P +:+ query_tail q +:+ fragment_tail f) = true) as ->.
  { apply truthy_spec. intros [_ [? _]%str_app_eq_nil]%str_app_eq_nil. done. }
  rewrite js_split_cons, (js_split_no_occ _ _ Hocc) by done. cbn [negb].
  assert (otruthy (Some (P +:+ query_tail q +:+ fragment_tail f)) = true) as Hne.
  { apply otruthy_Some. by intros [? _]%str_app_eq_nil. }
  change ([scheme; ?r] !! 1) with (Some r). rewrite Hne. cbn [negb from_option id].
  assert (js_split "#" (P +:+ query_tail q +:+ fragment_tail f) =
          (P +:+ query_tail q) :: opt_list f) as ->.
  { rewrite <- str_app_assoc. destruct f as [f|]; cbn [fragment_tail opt_list].
    - rewrite js_split_cons, js_split_none; done.
    - rewrite str_app_nil_r. by apply js_split_none. }
  cbn [lookup list_lookup from_option id].
  assert (js_split "?" (P +:+ query_tail q) = P :: opt_list q) as ->.
  { destruct q as [q|]; cbn [query_tail opt_list].
    - rewrite js_split_cons, js_split_none; done.
    - rewrite str_app_nil_r. by apply js_split_none. }
  cbn. f_equal. by destruct q, f.
Qed.

(** *** The pieces of an identifier *)

Definition path_segs (t e : string) (gpn : option string) : list string := t :: e :: opt_list gpn.

Lemma entity_type_clean t : is_entity_type t = true → clean t = true ∧ t ≠ "".
Proof. intros Ht%bool_decide_eq_true. cbn in Ht. set_unfold. naive_solver. Qed.

Lemma clean_ne_spec s : clean_ne s = true ↔ clean s = true ∧ s ≠ "".
Proof. unfold clean_ne. by rewrite andb_true_iff, truthy_spec. Qed.

Lemma path_segs_clean t e gpn :
  is_entity_type t = true → clean_ne e = true → clean_opt gpn = true →
  Forall (λ s, clean s = true ∧ s ≠ "") (path_segs t e gpn).
Proof.
  intros Ht%entity_type_clean He%clean_ne_spec Hg. constructor; [done|]. constructor; [done|].
  destruct gpn as [g|]; [|constructor]. repeat constructor; by apply clean_ne_spec.
Qed.

Lemma path_join t e gpn :
  js_join "/" (path_segs t e gpn) =
  t +:+ "/" +:+ e +:+ (match gpn with Some g => "/" +:+ g | None => "" end).
Proof. destruct gpn; cbn; by rewrite ?str_app_nil_r. Qed.

(** Path segments: dots are allowed, which the host name of a web URL needs. *)
Definition seg_clean (s : string) : Prop := str_all is_version_char s = true ∧ s ≠ "".

Lemma clean_seg s : clean s = true ∧ s ≠ "" → seg_clean s.
Proof.
  intros [Hc Hne]. split; [|done]. revert Hc. apply str_all_impl.
  intros c Hc. unfold is_version_char. by rewrite Hc.
Qed.

Lemma seg_lacks c s : is_version_char c = false → seg_clean s → lacks c s = true.
Proof.
  intros Hc [Hs _]. revert Hs. apply str_all_impl. intros d Hd.
  destruct (Ascii.eqb_spec c d); [congruence|done].
Qed.

Lemma path_lacks c segs :
  is_version_char c = false → Ascii.eqb c "/" = false →
  Forall seg_clean segs → lacks c (js_join "/" segs) = true.
Proof.
  intros Hc Hs Hsegs. apply lacks_join; [by rewrite lacks_cons, Hs|].
  eapply list.Forall_impl; [exact Hsegs|]. intros s. by apply seg_lacks.
Qed.

Lemma path_split segs :
  segs ≠ [] → Forall seg_clean segs → js_split "/" (js_join "/" segs) = segs.
Proof.
  intros Hne Hs. apply js_split_join; [done|].
  eapply list.Forall_impl; [exact Hs|]. intros s. by apply seg_lacks.
Qed.

Lemma path_segs_seg t e gpn :
  is_entity_type t = true → clean_ne e = true → clean_opt gpn = true →
  Forall seg_clean (path_segs t e gpn).
Proof.
  intros Ht He Hg. eapply list.Forall_impl; [by apply path_segs_clean|]. apply clean_seg.
Qed.

Lemma createHmId0_clean t e :
  is_entity_type t = true → clean_ne e = true →
  createHmId0 t e = Ok ("hm://" +:+ t +:+ "/" +:+ e).
Proof.
  intros Ht He. unfold createHmId0, HYPERMEDIA_SCHEME.
  pose proof (path_segs_clean t e None Ht He eq_refl) as Hs.
  assert (path_segs t e None ≠ []) as Hne by done.
  pose proof (url_href_clean _ Hne Hs) as Hu.
  rewrite path_join, !str_app_nil_r in Hu. exact Hu.
Qed.

Definition query_string (entries : list (string * option string)) : option string :=
  match entries with
  | [] => None
  | _ => Some (js_join "&" (show_param <$> entries))
  end.

Definition clean_entries (entries : list (string * option string)) : Prop :=
  Forall (λ e, clean e.1 = true ∧ e.1 ≠ "" ∧ query_clean (default "" e.2) = true) entries.

Lemma serializeQueryString_tail entries :
  clean_entries entries → serializeQueryString entries = query_tail (query_string entries).
Proof.
  intros He. unfold serializeQueryString. destruct entries as [|e l]; [done|].
  assert (truthy (js_join "&" (show_param <$> e :: l)) = true) as ->; [|done].
  apply truthy_spec. inversion_clear He as [|?? (_ & Hne & _) _].
  pose proof (show_param_truthy e Hne) as Ht%truthy_spec.
  destruct l as [|e' l]; cbn [fmap list_fmap]; [done|]. rewrite js_join_cons.
  by intros [? _]%str_app_eq_nil.
Qed.

Lemma entries_lacks c entries :
  is_query_char c = false → Ascii.eqb c "=" = false → Ascii.eqb c "&" = false →
  clean_entries entries → lacks c (default "" (query_string entries)) = true.
Proof.
  intros Hc He Ha Hl. destruct entries as [|e l]; [done|]. cbn [query_string from_option id default].
  apply lacks_join; [by rewrite lacks_cons, Ha|]. apply Forall_fmap.
  eapply list.Forall_impl; [exact Hl|]. cbn. intros x (? & _ & ?). by apply lacks_show_param.
Qed.

Lemma entries_search_params entries :
  clean_entries entries →
  match query_string entries with Some q => url_search_params q | None => [] end =
  (λ e, (e.1, default "" e.2)) <$> entries.
Proof.
  intros He. destruct entries as [|e l]; [done|]. by apply url_search_params_clean.
Qed.

(** *** [unpackHmId] on an identifier given by its parts *)

Lemma no_occ_fragment b r :
  clean b = true → no_occ "://" ("#" +:+ b +:+ serializeBlockRange r) = true.
Proof.
  intros Hb. apply (no_occ_lacks ":" "//" "#"); [done|].
  apply no_occ_lacks; [by apply clean_lacks|].
  destruct r as [[x y|[|]]|]; try done. cbn [serializeBlockRange].
  apply (no_occ_lacks ":" "//" "["); [done|].
  apply no_occ_lacks; [eauto with js|].
  pose proof (num_to_str_digits y) as Hy. pose proof (num_to_str_ne y) as Hne.
  destruct (num_to_str y) as [|c s] eqn:E; [done|].
  change (":" +:+ ?t) with (String ":" t). cbn [no_occ].
  assert (no_occ "://" (String c s +:+ "]") = true) as ->.
  { apply no_occ_lacks; [|done]. by apply lacks_digits. }
  assert (c ≠ "/"%char) as Hc.
  { intros ->. cbn in Hy. discriminate. }
  rewrite andb_true_r, prefix_same. change (String c s +:+ "]") with (String c (s +:+ "]")).
  rewrite prefix_head_ne; done.
Qed.

Lemma no_occ_parts segs entries b r :
  Forall seg_clean segs → clean_entries entries →
  lacks ":" (default "" (query_string entries)) = true →
  match b with Some b => clean b = true | None => True end →
  no_occ "://" (js_join "/" segs +:+ query_tail (query_string entries) +:+
    fragment_tail ((λ b, b +:+ serializeBlockRange r) <$> b)) = true.
Proof.
  intros Hs He Hc Hb. apply no_occ_lacks; [by apply path_lacks|].
  apply no_occ_lacks.
  - destruct (query_string entries); [|done]. cbn [query_tail]. by rewrite lacks_app.
  - destruct b as [b|]; [|done]. by apply no_occ_fragment.
Qed.

Lemma lacks_hash_ref b r : clean b = true → lacks "#" (b +:+ serializeBlockRange r) = true.
Proof.
  intros Hb. rewrite lacks_app. apply andb_true_intro. split; [by apply clean_lacks|].
  destruct r as [[x y|[|]]|]; try done. cbn [serializeBlockRange].
  rewrite !lacks_app. repeat (apply andb_true_intro; split); eauto with js.
Qed.

Lemma block_ref_clean_clean b :
  block_ref_clean b → match b with Some b => clean b = true | None => True end.
Proof. by destruct b as [b|]; [intros []|]. Qed.

(** A URL assembled from clean parts, and its parse. *)
Definition url_of (scheme : string) (segs : list string) (entries : list (string * option string))
    (b : option string) (r : option BlockRange) : string :=
  scheme +:+ "://" +:+ js_join "/" segs +:+ query_tail (query_string entries) +:+
  fragment_tail ((λ b, b +:+ serializeBlockRange r) <$> b).
Definition params_of (entries : list (string * option string)) : list (string * string) :=
  (λ x, (x.1, default "" x.2)) <$> entries.

Lemma parse_url_of scheme segs entries b r :
  lacks ":" scheme = true → segs ≠ [] → Forall seg_clean segs → clean_entries entries →
  lacks ":" (default "" (query_string entries)) = true → block_ref_clean b →
  parseCustomURL (url_of scheme segs entries b r) =
  Some {| pu_scheme := scheme; pu_path := segs; pu_query := params_of entries;
          pu_fragment := (λ b, b +:+ serializeBlockRange r) <$> b |}.
Proof.
  intros Hsch Hne Hs Hq Hcol Hb%block_ref_clean_clean. unfold url_of.
  rewrite <- (path_split segs Hne Hs) at 2. unfold params_of. rewrite <- entries_search_params by done.
  apply parseCustomURL_parts; [done| |by apply no_occ_parts|..].
  - destruct segs as [|s l]; [done|]. inversion_clear Hs as [|?? [_ Hsne] _].
    destruct l; [done|]. rewrite js_join_cons. by intros [? _]%str_app_eq_nil.
  - rewrite lacks_app. apply andb_true_intro. split; [by apply path_lacks|].
    pose proof (entries_lacks "#" entries eq_refl eq_refl eq_refl Hq) as Hh.
    destruct (query_string entries); [|done]. cbn [query_tail]. by rewrite lacks_app.
  - by apply path_lacks.
  - by apply entries_lacks.
  - destruct b as [b|]; [|done]. by apply lacks_hash_ref.
Qed.

(** The [unpackHmId] of an identifier assembled from clean parts, up to its
    variants query; [pre] is empty for [hm:], the host for web URLs. *)
Lemma unpackParsed_parts url scheme pre t e gpn entries b r hostname :
  is_entity_type t = true → clean_ne e = true → clean_opt gpn = true → block_ref_clean b →
  unpackParsed url {| pu_scheme := scheme; pu_path := pre ++ path_segs t e gpn;
    pu_query := params_of entries; pu_fragment := (λ b, b +:+ serializeBlockRange r) <$> b |}
    (length pre) hostname =
  let* variants := parseVariantsQuery (inl <$> params_get (params_of entries) "b") in
  Ok (Some {| u_id := url; u_type := t; u_eid := Some e; u_qid := "hm://" +:+ t +:+ "/" +:+ e;
              u_groupPathName := gpn; u_version := params_get (params_of entries) "v";
              u_blockRef := b;
              u_blockRange := match b with Some _ => norm_range r | None => None end;
              u_hostname := hostname; u_scheme := Some scheme; u_variants := variants;
              u_latest := Some (params_has (params_of entries) "l") |}).
Proof.
  intros Ht He Hg Hb. unfold unpackParsed. cbn [pu_path pu_query pu_fragment pu_scheme].
  destruct (parseVariantsQuery _) as [vs|m]; [|done]. cbn [rbind].
  assert (∀ n, (pre ++ path_segs t e gpn) !! (length pre + n) = path_segs t e gpn !! n) as Hl.
  { intros n. rewrite lookup_app_r by lia. f_equal. lia. }
  pose proof (Hl 0) as H0'. pose proof (Hl 1) as H1'. pose proof (Hl 2) as H2'.
  rewrite Nat.add_0_r in H0'. rewrite Nat.add_1_r in H1'.
  replace (length pre + 2) with (S (S (length pre))) in H2' by lia.
  rewrite H0', H1', H2'. change (path_segs t e gpn !! 0) with (Some t).
  change (path_segs t e gpn !! 1) with (Some e).
  change (path_segs t e gpn !! 2) with (opt_list gpn !! 0).
  unfold inKeys. fold (is_entity_type t). rewrite Ht. cbn [orb undef_str from_option id].
  rewrite createHmId0_clean by done. cbn [rbind]. do 3 f_equal.
  - destruct gpn as [g|]; [|done]. cbn [opt_list lookup list_lookup].
    apply clean_ne_spec in Hg as [_ Hg]. unfold or_null, js_or. by rewrite otruthy_Some.
  - destruct b as [b|]; [|done]. destruct Hb. cbn [fmap option_fmap option_map].
    by rewrite parseFragment_serialize.
  - destruct b as [b|]; [|done]. destruct Hb. cbn [fmap option_fmap option_map].
    by rewrite parseFragment_serialize.
Qed.

Lemma unpackHmId_parts t e gpn entries b r :
  is_entity_type t = true → clean_ne e = true → clean_opt gpn = true → clean_entries entries →
  lacks ":" (default "" (query_string entries)) = true → block_ref_clean b →
  let url := url_of "hm" (path_segs t e gpn) entries b r in
  unpackHmId url =
  let* variants := parseVariantsQuery (inl <$> params_get (params_of entries) "b") in
  Ok (Some {| u_id := url; u_type := t; u_eid := Some e; u_qid := "hm://" +:+ t +:+ "/" +:+ e;
              u_groupPathName := gpn; u_version := params_get (params_of entries) "v";
              u_blockRef := b;
              u_blockRange := match b with Some _ => norm_range r | None => None end;
              u_hostname := None; u_scheme := Some "hm"; u_variants := variants;
              u_latest := Some (params_has (params_of entries) "l") |}).
Proof.
  intros Ht He Hg Hq Hcol Hb url. unfold unpackHmId.
  pose proof (path_segs_seg t e gpn Ht He Hg) as Hs.
  unfold url at 1. rewrite parse_url_of by done. cbn [pu_scheme].
  change (String.eqb "hm" HYPERMEDIA_SCHEME) with true. cbn iota.
  by apply (unpackParsed_parts url "hm" []).
Qed.

Lemma unpackHmId_web_parts host t e gpn entries b r :
  seg_clean host →
  is_entity_type t = true → clean_ne e = true → clean_opt gpn = true → clean_entries entries →
  lacks ":" (default "" (query_string entries)) = true → block_ref_clean b →
  let url := url_of "https" (host :: path_segs t e gpn) entries b r in
  unpackHmId url =
  let* variants := parseVariantsQuery (inl <$> params_get (params_of entries) "b") in
  Ok (Some {| u_id := url; u_type := t; u_eid := Some e; u_qid := "hm://" +:+ t +:+ "/" +:+ e;
              u_groupPathName := gpn; u_version := params_get (params_of entries) "v";
              u_blockRef := b;
              u_blockRange := match b with Some _ => norm_range r | None => None end;
              u_hostname := Some host; u_scheme := Some "https"; u_variants := variants;
              u_latest := Some (params_has (params_of entries) "l") |}).
Proof.
  intros Hh Ht He Hg Hq Hcol Hb url. unfold unpackHmId.
  assert (Forall seg_clean (host :: path_segs t e gpn)) as Hs.
  { constructor; [done|]. by apply path_segs_seg. }
  unfold url at 1. rewrite parse_url_of by done. cbn [pu_scheme].
  change (String.eqb "https" HYPERMEDIA_SCHEME) with false.
  change (String.eqb "https" "https" || String.eqb "https" "http") with true. cbn iota.
  by apply (unpackParsed_parts url "https" [host]).
Qed.

(** *** Variants *)

Lemma unpackHmId_bare t e :
  is_entity_type t = true → clean_ne e = true →
  unpackHmId ("hm://" +:+ t +:+ "/" +:+ e) =
  Ok (Some (unpacked_of ("hm://" +:+ t +:+ "/" +:+ e) t e no_opts)).
Proof.
  intros Ht He.
  pose proof (unpackHmId_parts t e None [] None None Ht He eq_refl
    ltac:(constructor) eq_refl I) as Hu.
  assert (url_of "hm" (path_segs t e None) [] None None = "hm://" +:+ t +:+ "/" +:+ e) as E.
  { unfold url_of. rewrite path_join. cbn [query_string query_tail fragment_tail fmap option_fmap
      option_map]. by rewrite !str_app_nil_r. }
  cbn zeta in Hu. rewrite E in Hu. rewrite Hu. done.
Qed.

Lemma parseVariant_author a :
  clean_ne a = true → parseVariant ("a/" +:+ a) = Ok [AuthorVariant (Some a)].
Proof.
  intros [Ha Hne]%clean_ne_spec. unfold parseVariant.
  rewrite replaceAll1_lacks by (apply (clean_lacks ":") in Ha; [|done]; by rewrite lacks_app, Ha).
  change ("a/" +:+ a) with ("a" +:+ "/" +:+ a).
  rewrite js_split_cons, js_split_none by (try done; by apply clean_lacks). done.
Qed.

Lemma variantParam_clean v :
  clean_variant v →
  ∃ s, variantParam v = Ok (Some s) ∧ truthy s = true ∧ lacks "." s = true ∧
       lacks ":" s = true ∧ query_clean s = true ∧ parseVariant s = Ok [v].
Proof.
  intros Hv. destruct v as [gid p|[a|]]; [|clear H0|done].
  - destruct Hv as (Hp & e & He & ->). exists (js_join "/" (path_segs "g" e p)).
    pose proof (path_segs_clean "g" e p eq_refl He Hp) as Hs.
    assert (otruthy p = match p with Some _ => true | None => false end) as Hpt.
    { destruct p; [|done]. by apply clean_ne_spec in Hp as [_ ?%otruthy_Some]. }
    pose proof (path_segs_seg "g" e p eq_refl He Hp) as Hseg.
    assert (lacks ":" (js_join "/" (path_segs "g" e p)) = true) as Hcolon by by apply path_lacks.
    change ("hm://g/" +:+ e) with ("hm://" +:+ "g" +:+ "/" +:+ e).
    cbn [variantParam]. rewrite (unpackHmId_bare "g" e eq_refl He). cbn [rbind unpacked_of u_eid].
    split_and!; [| | |done| |].
    + rewrite path_join, Hpt. by destruct p.
    + rewrite path_join. done.
    + apply lacks_join; [done|]. eapply list.Forall_impl; [exact Hs|]. cbn.
      intros x [Hx _]. by apply clean_lacks.
    + eapply str_all_impl; [|by apply clean_join]. intros c. unfold is_query_char.
      destruct (is_clean c), (char_code c =? 46)%N; cbn; done || by intros ->.
    + unfold parseVariant. rewrite replaceAll1_lacks by done. rewrite path_join at 1.
      cbn [negb]. rewrite path_split by done. unfold path_segs.
      change (String.eqb "g" "g") with true. cbn iota.
      change ((e :: opt_list p) !! 0) with (Some e). cbn [undef_str from_option id].
      rewrite createHmId0_clean by done. cbn [rbind]. do 3 f_equal.
      change ((e :: opt_list p) !! 1) with (opt_list p !! 0).
      destruct p as [p|]; [|done]. cbn [opt_list lookup list_lookup].
      unfold or_null, js_or. by rewrite Hpt.
  - exists ("a/" +:+ a). cbn in Hv. rewrite parseVariant_author by done.
    apply clean_ne_spec in Hv as [Ha _].
    assert (query_clean ("a/" +:+ a) = true) as Hq.
    { unfold query_clean. rewrite str_all_app. cbn. revert Ha. apply str_all_impl.
      intros c Hc. unfold is_query_char. by rewrite Hc. }
    split_and!; [done|done| | |done|done]; rewrite lacks_app; cbn; by apply clean_lacks.
Qed.

(** The [b] parameter: a string the parser gives back as the same variants. *)
Lemma variants_roundtrip vs :
  vs ≠ [] → Forall clean_variant vs →
  ∃ b, getVariantsParamValue vs = Ok b ∧ lacks ":" b = true ∧ query_clean b = true ∧
       parseVariantsQuery (Some (inl b)) = Ok (Some vs).
Proof.
  intros Hne Hvs.
  assert (∃ ss, Forall2 (λ v s, variantParam v = Ok (Some s) ∧ truthy s = true ∧
      lacks "." s = true ∧ lacks ":" s = true ∧ query_clean s = true ∧ parseVariant s = Ok [v])
      vs ss) as [ss Hss].
  { clear Hne. induction Hvs as [|v vs Hv Hvs [ss IH]]; [by eexists|].
    destruct (variantParam_clean v Hv) as [s Hs]. by exists (s :: ss); constructor. }
  assert (ss ≠ []) as Hssne by (intros ->; by inversion Hss; subst).
  exists (js_join "." ss). split_and!.
  - unfold getVariantsParamValue.
    assert (map_result variantParam vs = Ok (Some <$> ss)) as ->.
    { apply map_result_ok. apply Forall2_fmap_r. eapply Forall2_impl; [exact Hss|]. naive_solver. }
    cbn [rbind]. do 2 f_equal. clear. induction ss as [|s ss IH]; [done|]. cbn. by f_equal.
  - apply lacks_join; [done|]. eapply Forall2_Forall_r in Hss as Hss'; [exact Hss'|].
    apply Forall_true. naive_solver.
  - assert (Forall (λ s, query_clean s = true) ss) as Hq.
    { eapply Forall2_Forall_r in Hss as Hss'; [exact Hss'|]. apply Forall_true. naive_solver. }
    clear -Hq. induction Hq as [|s ss Hs Hq IH]; [done|].
    destruct ss as [|s' ss]; [done|]. rewrite js_join_cons. unfold query_clean in *.
    by rewrite !str_all_app, Hs, IH.
  - unfold parseVariantsQuery. destruct (js_join "." ss) as [|c b] eqn:E.
    { destruct ss as [|s ss]; [done|]. inversion Hss as [|?? vs' ?(_ & Ht & _)]; subst.
      destruct ss; [cbn in E; by subst|]. rewrite js_join_cons in E.
      apply str_app_eq_nil in E as [-> _]. done. }
    rewrite <- E. rewrite js_split_join; [|done|].
    2:{ eapply Forall2_Forall_r in Hss as Hss'; [exact Hss'|]. apply Forall_true. naive_solver. }
    assert (map_result parseVariant ss = Ok ((λ v, [v]) <$> vs)) as ->.
    { apply map_result_ok. apply Forall2_fmap_r. apply Forall2_flip.
      eapply Forall2_impl; [exact Hss|]. naive_solver. }
    cbn [rbind]. assert (concat ((λ v, [v]) <$> vs) = vs) as ->.
    { clear. induction vs as [|v vs IH]; [done|]. cbn. by f_equal. }
    by destruct vs.
Qed.

(** *** Round trip *)

Definition entries_of (o : HmIdOpts) (b : option string) : list (string * option string) :=
  (if otruthy (o_version o) then [("v", o_version o)] else []) ++
  (match b with Some b => [("b", Some b)] | None => [] end) ++
  (match o_latest o with Some true => [("l", None)] | _ => [] end).

Lemma version_query_clean v : str_all is_version_char v = true → query_clean v = true.
Proof.
  apply str_all_impl. intros c. unfold is_version_char, is_query_char.
  destruct (is_clean c); [done|]. cbn. by intros ->.
Qed.

Lemma version_lacks_colon v : str_all is_version_char v = true → lacks ":" v = true.
Proof.
  apply str_all_impl. intros c Hc. destruct (Ascii.eqb_spec ":" c) as [<-|]; [|done].
  by vm_compute in Hc.
Qed.

Lemma buildQuery_clean o :
  clean_opts o →
  ∃ b, buildQuery (o_version o) (o_variants o) (o_latest o) = Ok (entries_of o b) ∧
       parseVariantsQuery (inl <$> b) = Ok (o_variants o) ∧
       clean_entries (entries_of o b) ∧
       lacks ":" (default "" (query_string (entries_of o b))) = true.
Proof.
  intros (_ & Hv & _ & Hvs).
  assert (∃ b, buildQuery (o_version o) (o_variants o) (o_latest o) = Ok (entries_of o b) ∧
    parseVariantsQuery (inl <$> b) = Ok (o_variants o) ∧
    query_clean (default "" b) = true ∧ lacks ":" (default "" b) = true) as (b & Hb & Hp & Hq & Hl).
  { unfold buildQuery, entries_of. destruct (o_variants o) as [[|v vs]|] eqn:E.
    - by destruct (Hvs _ eq_refl).
    - destruct (Hvs _ eq_refl) as [Hne Hcl].
      destruct (variants_roundtrip _ Hne Hcl) as (b & Hb & ? & ? & ?). exists (Some b).
      cbn beta iota. rewrite Hb. done.
    - by exists None. }
  exists b. split; [done|]. split; [done|].
  assert (Forall (λ e, clean e.1 = true ∧ e.1 ≠ "" ∧ query_clean (default "" e.2) = true ∧
                       lacks ":" (show_param e) = true) (entries_of o b)) as Hall.
  { unfold entries_of. apply Forall_app. split; [|apply Forall_app; split].
    - destruct (o_version o) as [v|]; [|constructor]. destruct Hv as [Hv Hne].
      rewrite otruthy_Some by done. repeat constructor; try done.
      + by apply version_query_clean.
      + unfold show_param. cbn [fst snd]. rewrite !lacks_app. cbn. by apply version_lacks_colon.
    - destruct b as [b|]; [|constructor]. cbn in Hq, Hl. repeat constructor; done.
    - destruct (o_latest o) as [[|]|]; repeat constructor; done. }
  split; [eapply list.Forall_impl; [exact Hall|]; naive_solver|].
  destruct (entries_of o b) as [|e l] eqn:E; [done|]. cbn [query_string from_option id].
  apply lacks_join; [done|]. apply Forall_fmap. eapply list.Forall_impl; [exact Hall|]. naive_solver.
Qed.

(** [createHmId] as the concatenation of its parts. *)
Lemma createHmId_parts t e o b :
  is_entity_type t = true → clean_ne e = true → clean_opts o →
  buildQuery (o_version o) (o_variants o) (o_latest o) = Ok (entries_of o b) →
  clean_entries (entries_of o b) →
  createHmId t e o =
  Ok (url_of "hm" (path_segs t e (o_groupPathName o)) (entries_of o b) (o_blockRef o) (o_blockRange o)).
Proof.
  intros Ht He (Hg & _ & Hb & _) Hq Hc. unfold createHmId, HYPERMEDIA_SCHEME.
  pose proof (path_segs_clean t e _ Ht He Hg) as Hs.
  assert (t +:+ "/" +:+ e +:+ (if otruthy (o_groupPathName o)
      then "/" +:+ default "" (o_groupPathName o) else "") =
      js_join "/" (path_segs t e (o_groupPathName o))) as ->.
  { rewrite path_join. destruct (o_groupPathName o) as [g|]; [|done].
    apply clean_ne_spec in Hg as [_ Hg]. by rewrite otruthy_Some. }
  change ("hm" +:+ "://" +:+ ?x) with ("hm://" +:+ x).
  rewrite url_href_clean by done. cbn [rbind]. rewrite Hq. cbn [rbind].
  rewrite serializeQueryString_tail, str_app_assoc by done. do 3 f_equal.
  destruct (o_blockRef o) as [x|]; [|done]. destruct Hb as [Hlen _].
  rewrite otruthy_Some; [done|]. by intros ->.
Qed.

Lemma params_of_entries o b :
  version_clean (o_version o) →
  let params := params_of (entries_of o b) in
  params_get params "v" = o_version o ∧ params_get params "b" = b ∧
  params_has params "l" = match o_latest o with Some true => true | _ => false end.
Proof.
  intros Hv. unfold entries_of.
  destruct (o_version o) as [v|]; [destruct Hv; rewrite otruthy_Some by done|];
    destruct b, (o_latest o) as [[|]|]; done.
Qed.

Lemma createHmId_no_opts t e :
  is_entity_type t = true → clean_ne e = true →
  createHmId t e no_opts = Ok ("hm://" +:+ t +:+ "/" +:+ e).
Proof.
  intros Ht He. unfold createHmId.
  cbn [no_opts o_groupPathName o_version o_variants o_latest o_blockRef otruthy].
  rewrite str_app_nil_r.
  pose proof (createHmId0_clean t e Ht He) as Hid0. unfold createHmId0 in Hid0. rewrite Hid0.
  cbn. by rewrite str_app_nil_r.
Qed.

Lemma createHmId_unpack t e o :
  is_entity_type t = true → clean_ne e = true → clean_opts o →
  ∃ b, let url := url_of "hm" (path_segs t e (o_groupPathName o)) (entries_of o b)
                    (o_blockRef o) (o_blockRange o) in
       createHmId t e o = Ok url ∧ unpackHmId url = Ok (Some (unpacked_of url t e o)).
Proof.
  intros Ht He Ho. destruct (buildQuery_clean o Ho) as (b & Hq & Hp & Hc & Hl).
  exists b. split; [by apply createHmId_parts|].
  destruct Ho as (Hg & Hv & Hb & Hvs).
  rewrite unpackHmId_parts by done.
  destruct (params_of_entries o b Hv) as (-> & -> & ->). rewrite Hp. done.
Qed.

Lemma createPublicWebHmUrl_parts t e o b :
  buildQuery (o_version o) (o_variants o) (o_latest o) = Ok (entries_of o b) →
  clean_entries (entries_of o b) → block_ref_clean (o_blockRef o) →
  createPublicWebHmUrl t e Undefined o =
  Ok (url_of "https" ("hyper.media" :: path_segs t e None) (entries_of o b) (o_blockRef o) (o_blockRange o)).
Proof.
  intros Hq Hc Hb. unfold createPublicWebHmUrl, url_of. rewrite Hq. cbn [rbind].
  rewrite serializeQueryString_tail by done.
  assert ((if otruthy (o_blockRef o)
    then "#" +:+ default "" (o_blockRef o) +:+ serializeBlockRange (o_blockRange o) else "") =
    fragment_tail ((λ x, x +:+ serializeBlockRange (o_blockRange o)) <$> o_blockRef o)) as ->.
  { destruct (o_blockRef o) as [x|]; [|done]. destruct Hb as [Hlen _].
    rewrite otruthy_Some; [done|]. by intros ->. }
  change (js_join "/" ("hyper.media" :: path_segs t e None))
    with ("hyper.media" +:+ "/" +:+ js_join "/" (path_segs t e None)).
  by rewrite path_join, str_app_nil_r, !str_app_assoc.
Qed.

Lemma serialize_norm_range r : serializeBlockRange (norm_range r) = serializeBlockRange r.
Proof. by destruct r as [[|[|]]|]. Qed.

Lemma createHmId_range_irrelevant t e v b r :
  createHmId t e {| o_version := v; o_blockRef := b;
    o_blockRange := match b with Some _ => norm_range r | None => None end;
    o_groupPathName := None; o_variants := None; o_latest := None; o_hostname := None |} =
  createHmId t e {| o_version := v; o_blockRef := b; o_blockRange := r;
    o_groupPathName := None; o_variants := None; o_latest := None; o_hostname := None |}.
Proof. unfold createHmId. cbn. destruct b; [|done]. by rewrite serialize_norm_range. Qed.

Lemma match_hash_after base f :
  lacks "#" base = true → str_all (λ d, negb (is_newline d)) f = true →
  match_hash (base +:+ "#" +:+ f) = Some f.
Proof.
  intros Hb Hf. induction base as [|c base IH]; [cbn; by rewrite Hf|].
  rewrite lacks_cons in Hb. apply andb_prop in Hb as [Hc Hb].
  change (String c base +:+ ?s) with (String c (base +:+ s)). cbn [match_hash].
  rewrite Ascii.eqb_sym. apply negb_true_iff in Hc. rewrite Hc. auto.
Qed.

Lemma fragment_no_newline b r :
  clean b = true → str_all (λ d, negb (is_newline d)) (b +:+ serializeBlockRange r) = true.
Proof.
  assert (∀ c, is_clean c = true → negb (is_newline c) = true) as Hc.
  { intros c. destruct c as [[|] [|] [|] [|] [|] [|] [|] [|]]; vm_compute; congruence. }
  assert (∀ n, str_all (λ d, negb (is_newline d)) (num_to_str n) = true) as Hn.
  { intros n. apply (str_all_impl is_digit); [|apply num_to_str_digits].
    intros c Hd. apply Hc. unfold is_clean. by rewrite Hd. }
  intros Hb. rewrite str_all_app, (str_all_impl _ _ _ Hc Hb).
  destruct r as [[x y|[|]]|]; try done. cbn [serializeBlockRange]. by rewrite !str_all_app, !Hn.
Qed.

(** C8. Round trip of hypermedia ids: for a known entity type, a clean entity id
    and clean options (8-character block references, dot-separated versions,
    author and group variants), [createHmId] succeeds and [unpackHmId] of its
    result gives back every component, a collapsed block range excepted. *)
Theorem unpackHmId_createHmId t e o :
  is_entity_type t = true → clean_ne e = true → clean_opts o →
  ∃ url, createHmId t e o = Ok url ∧ unpackHmId url = Ok (Some (unpacked_of url t e o)).
Proof.
  intros Ht He Ho. destruct (createHmId_unpack t e o Ht He Ho) as (b & Hc & Hu). eauto.
Qed.

(** A public web URL and the hypermedia id name the same thing: normalising
    the URL built for the public gateway gives the [hm://] id of the same entity,
    version, block and range (variants and the [latest] flag are dropped). *)
Theorem normalizeHmId_createPublicWebHmUrl t e o :
  is_entity_type t = true → clean_ne e = true → clean_opts o →
  ∃ url, createPublicWebHmUrl t e Undefined o = Ok url ∧
    normalizeHmId url HYPERMEDIA_PUBLIC_WEB_GATEWAY =
    rmap Some (createHmId t e
      {| o_version := o_version o; o_blockRef := o_blockRef o; o_blockRange := o_blockRange o;
         o_groupPathName := None; o_variants := None; o_latest := None; o_hostname := None |}).
Proof.
  intros Ht He Ho. destruct (buildQuery_clean o Ho) as (b & Hq & Hp & Hc & Hl).
  destruct Ho as (Hg & Hv & Hb & Hvs).
  eexists. split; [by apply createPublicWebHmUrl_parts|]. unfold normalizeHmId.
  change (isHypermediaScheme (Some _)) with false.
  assert (isPublicGatewayLink (url_of "https" ("hyper.media" :: path_segs t e None) (entries_of o b)
    (o_blockRef o) (o_blockRange o)) HYPERMEDIA_PUBLIC_WEB_GATEWAY = true) as ->.
  { apply prefix_iff. eexists. unfold url_of.
    change (js_join "/" ("hyper.media" :: path_segs t e None))
      with ("hyper.media" +:+ "/" +:+ js_join "/" (path_segs t e None)).
    rewrite !str_app_assoc. done. }
  cbn iota. assert (seg_clean "hyper.media") as Hhost by done.
  rewrite unpackHmId_web_parts by done.
  destruct (params_of_entries o b Hv) as (-> & -> & ->). rewrite Hp. cbn [rbind u_eid u_type].
  pose proof He as [_ Hne]%clean_ne_spec. rewrite otruthy_Some by done.
  pose proof Ht as [_ Htne]%entity_type_clean. apply truthy_spec in Htne. rewrite Htne.
  cbn [andb undef_str from_option id u_version u_blockRef u_blockRange].
  by rewrite createHmId_range_irrelevant.
Qed.

(** [unpackDocId] on a well-formed id: the document id without version,
    block or query for documents, the thrown error for any other entity type. *)
Theorem unpackDocId_spec t e o :
  is_entity_type t = true → clean_ne e = true → clean_opts o →
  ∃ url, createHmId t e o = Ok url ∧
    unpackDocId url =
      if String.eqb t "d" then Ok (Some (unpacked_of url t e o, "hm://d/" +:+ e))
      else Err ("URL is expected to be a document ID: " +:+ url).
Proof.
  intros Ht He Ho. destruct (createHmId_unpack t e o Ht He Ho) as (b & Hc & Hu).
  eexists. split; [done|]. unfold unpackDocId. rewrite Hu. cbn [rbind unpacked_of u_eid u_type].
  pose proof He as [_ Hne]%clean_ne_spec. rewrite otruthy_Some by done.
  destruct (String.eqb_spec t "d") as [->|]; [|done]. cbn [negb undef_str from_option id].
  pose proof (buildQuery_clean no_opts) as Hq.
  rewrite (createHmId_parts "d" e no_opts None); try done.
  - cbn [rbind]. do 3 f_equal. unfold url_of. cbn [no_opts o_groupPathName].
    rewrite path_join. cbn. by rewrite !str_app_nil_r.
  - constructor.
Qed.

(** [hmIdWithVersion] replaces the version and the block of an id and keeps
    its entity, path name and, when no version is given, its version. *)
Theorem hmIdWithVersion_spec t e o v b r :
  is_entity_type t = true → clean_ne e = true → clean_opts o →
  ∃ url, createHmId t e o = Ok url ∧
    hmIdWithVersion (Some url) v b r =
    rmap Some (createHmId t e
      {| o_version := js_or v (o_version o); o_blockRef := b; o_blockRange := r;
         o_groupPathName := o_groupPathName o; o_variants := None; o_latest := None;
         o_hostname := None |}).
Proof.
  intros Ht He Ho. destruct (createHmId_unpack t e o Ht He Ho) as (b' & Hc & Hu).
  eexists. split; [done|]. unfold hmIdWithVersion. rewrite otruthy_Some by done.
  cbn [negb from_option id]. rewrite Hu. done.
Qed.

(** The fragment of a URL: the block reference and the block range that
    were put after the hash are read back from any URL. *)
Theorem extract_fragment base b r :
  lacks "#" base = true → len b = 8 → clean b = true →
  let url := Some (base +:+ "#" +:+ b +:+ serializeBlockRange r) in
  extractBlockRefOfUrl url = Some b ∧ extractBlockRangeOfUrl url = Some (norm_range r).
Proof.
  intros Hbase Hlen Hb url. unfold extractBlockRefOfUrl, extractBlockRangeOfUrl, url.
  assert (b ≠ "") as Hne by (by intros ->).
  cbn [mbind option_bind]. rewrite match_hash_after by (done || by apply fragment_no_newline).
  unfold or_null, js_or. rewrite otruthy_Some by (by intros [? _]%str_app_eq_nil).
  rewrite parseFragment_serialize by done. cbn [fmap option_fmap option_map pf_blockId pf_range].
  by rewrite otruthy_Some.
Qed.

(** [inKeys] also finds what the table inherits from [Object.prototype]:
    [hm://constructor/...] unpacks to an id whose type is no entity type and has
    no label. *)
Theorem unpackHmId_inherited_key e :
  clean_ne e = true →
  ∃ u, unpackHmId ("hm://constructor/" +:+ e) = Ok (Some u) ∧
       u_type u = "constructor" ∧ is_entity_type (u_type u) = false ∧
       labelOfEntityType (u_type u) = None.
Proof.
  intros [He Hne]%clean_ne_spec.
  assert (Forall (λ s, clean s = true ∧ s ≠ "") ["constructor"; e]) as Hc by (by repeat constructor).
  assert (Forall seg_clean ["constructor"; e]) as Hs.
  { eapply list.Forall_impl; [exact Hc|]. apply clean_seg. }
  pose proof (parse_url_of "hm" ["constructor"; e] [] None None eq_refl ltac:(done) Hs
    ltac:(constructor) eq_refl I) as Hp.
  replace (url_of "hm" ["constructor"; e] [] None None) with ("hm://constructor/" +:+ e) in Hp
    by (unfold url_of; cbn; by rewrite !str_app_nil_r).
  pose proof (url_href_clean ["constructor"; e] ltac:(done) Hc) as Hh.
  unfold unpackHmId. rewrite Hp. cbn [pu_scheme].
  change (String.eqb "hm" HYPERMEDIA_SCHEME) with true. cbn iota.
  unfold unpackParsed. cbn [pu_path pu_query]. change (params_get (params_of []) "b") with (@None string).
  cbn [fmap option_fmap option_map parseVariantsQuery rbind].
  change (inKeys (["constructor"; e] !! 0)) with (Some "constructor"). cbn iota.
  unfold createHmId0. change (["constructor"; e] !! 1) with (Some e).
  change (HYPERMEDIA_SCHEME +:+ "://" +:+ "constructor" +:+ "/" +:+ undef_str (Some e))
    with ("hm://" +:+ js_join "/" ["constructor"; e]).
  rewrite Hh. cbn [rbind]. eexists. split; [done|]. done.
Qed.
End laws.

(** ** Witnesses *)

Definition ex_opts : HmIdOpts :=
  {| o_version := Some "bafy2.bafy3"; o_blockRef := Some "Xk3_9-aB"; o_blockRange := Some (Range 3 14);
     o_groupPathName := None;
     o_variants := Some [GroupVariant "hm://g/grp1" (Some "my-doc"); AuthorVariant (Some "z6Mk")];
     o_latest := Some true; o_hostname := None |}.

Lemma ex_opts_clean : clean_opts ex_opts.
Proof.
  split_and!; [done|done|done|]. intros vs [= <-]. split; [done|].
  repeat constructor. by exists "grp1".
Qed.

Lemma unpackHmId_createHmId_witness :
  ∃ url, createHmId "d" "abc123" ex_opts = Ok url ∧
         unpackHmId url = Ok (Some (unpacked_of url "d" "abc123" ex_opts)).
Proof. apply unpackHmId_createHmId; [reflexivity | reflexivity | exact ex_opts_clean]. Defined.

Lemma normalizeHmId_createPublicWebHmUrl_witness :
  ∃ url, createPublicWebHmUrl "d" "abc123" Undefined ex_opts = Ok url ∧
    normalizeHmId url HYPERMEDIA_PUBLIC_WEB_GATEWAY =
    rmap Some (createHmId "d" "abc123"
      {| o_version := o_version ex_opts; o_blockRef := o_blockRef ex_opts;
         o_blockRange := o_blockRange ex_opts; o_groupPathName := None; o_variants := None;
         o_latest := None; o_hostname := None |}).
Proof.
  apply normalizeHmId_createPublicWebHmUrl; [reflexivity | reflexivity | exact ex_opts_clean].
Defined.

Lemma unpackDocId_spec_witness :
  ∃ url, createHmId "g" "abc123" ex_opts = Ok url ∧
    unpackDocId url = Err ("URL is expected to be a document ID: " +:+ url).
Proof. apply (unpackDocId_spec "g"); [reflexivity | reflexivity | exact ex_opts_clean]. Defined.

Lemma hmIdWithVersion_spec_witness :
  ∃ url, createHmId "d" "abc123" ex_opts = Ok url ∧
    hmIdWithVersion (Some url) (Some "bafy9") None None =
    rmap Some (createHmId "d" "abc123"
      {| o_version := Some "bafy9"; o_blockRef := None; o_blockRange := None;
         o_groupPathName := None; o_variants := None; o_latest := None; o_hostname := None |}).
Proof.
  apply (hmIdWithVersion_spec "d" "abc123" ex_opts (Some "bafy9") None None);
    [reflexivity | reflexivity | exact ex_opts_clean].
Defined.

Lemma extract_fragment_witness :
  let url := Some ("https://hyper.media/d/abc?v=1" +:+ "#" +:+ "Xk3_9-aB" +:+
                   serializeBlockRange (Some (Range 3 14))) in
  extractBlockRefOfUrl url = Some "Xk3_9-aB" ∧ extractBlockRangeOfUrl url = Some (Some (Range 3 14)).
Proof. apply (extract_fragment _ "Xk3_9-aB" (Some (Range 3 14))); reflexivity. Defined.

Lemma unpackHmId_inherited_key_witness :
  ∃ u, unpackHmId ("hm://constructor/" +:+ "abc") = Ok (Some u) ∧
       u_type u = "constructor" ∧ is_entity_type (u_type u) = false ∧
       labelOfEntityType (u_type u) = None.
Proof. apply unpackHmId_inherited_key; reflexivity. Defined.
