(* ===== verification/BlockTypes.v ===== *)
(** * Documents, blocks, annotations and inline content

    The data of [frontend/packages/shared/src/hm-types.ts] that the other
    components share: server-side blocks and block trees ([HMBlock],
    [HMBlockNode], [HMDocument]), text annotations, and the editor's inline
    content and blocks.  [None] is an absent field. *)
From S2P Require Import Prelude.
From S2P Require Import JsString.
From S2P Require Import JsObject.

(** ** Annotations and inline content *)

(** A text annotation: [starts[i]] to [ends[i]] are its ranges of code units. *)
Record Annotation : Type := {
  a_type : string;
  a_ref : option string;
  a_starts : list Z;
  a_ends : list Z;
  a_attributes : option (obj string);
}.

(** The keys of [HMStyles]. *)
Inductive Style : Type :=
| Bold | Italic | Underline | Strike | Code | TextColor | BackgroundColor.
#[export] Instance Style_eq_dec : EqDecision Style.
Proof. solve_decision. Defined.

(** A style object is the list of its keys with a truthy value, in property
    order. *)
Abbreviation HMStyles := (list Style).

Inductive HMInlineContent : Type :=
| InlineText (text : string) (styles : HMStyles)
| InlineLink (type : string) (href : option string) (content : list HMInlineContent)
| InlineEmbed (ref : option string).

(** ** Server blocks *)

Record HMBlock : Type := {
  b_id : string;
  b_type : string;
  b_text : option string;
  b_ref : option string;
  b_annotations : option (list Annotation);
  b_attributes : option (obj string);
}.

Inductive HMBlockNode : Type :=
| BlockNode (block : option HMBlock) (children : option (list HMBlockNode)).

Definition node_block (n : HMBlockNode) : option HMBlock :=
  match n with BlockNode b _ => b end.
Definition node_children (n : HMBlockNode) : option (list HMBlockNode) :=
  match n with BlockNode _ c => c end.
(** [node.children] read as a list, an absent one as empty. *)
Definition node_kids (n : HMBlockNode) : list HMBlockNode := default [] (node_children n).

(** [block.attributes?.key] *)
Definition block_attr (b : HMBlock) (k : string) : option string := b_attributes b ≫= λ o, oget o k.

Record HMDocument : Type := {
  d_title : option string;
  d_id : option string;
  d_author : option string;
  d_editors : list string;
  d_children : option (list HMBlockNode);
  d_createTime : option string;
  d_updateTime : option string;
  d_publishTime : option string;
  d_version : option string;
  d_previousVersion : option string;
}.

Record HMPublication : Type := {
  p_document : option HMDocument;
  p_version : option string;
}.

(** ** Editor blocks *)

(** The [props] of an editor block, of any type; a heading's level is a number. *)
Record BlockProps : Type := {
  p_url : option string;
  p_name : option string;
  p_width : option string;
  p_size : option string;
  p_view : option string;
  p_text : option string;
  p_language : option string;
  p_textAlignment : option string;
  p_level : option N;
  p_childrenType : option string;
  p_listLevel : option string;
  p_start : option string;
}.
Definition no_props : BlockProps :=
  {| p_url := None; p_name := None; p_width := None; p_size := None; p_view := None;
     p_text := None; p_language := None; p_textAlignment := None; p_level := None;
     p_childrenType := None; p_listLevel := None; p_start := None |}.

Inductive EditorBlock : Type :=
| EBlock (id type : string) (props : BlockProps) (content : list HMInlineContent)
    (children : list EditorBlock).

Definition e_id (b : EditorBlock) : string := match b with EBlock i _ _ _ _ => i end.
Definition e_type (b : EditorBlock) : string := match b with EBlock _ t _ _ _ => t end.
Definition e_props (b : EditorBlock) : BlockProps := match b with EBlock _ _ p _ _ => p end.
Definition e_content (b : EditorBlock) : list HMInlineContent :=
  match b with EBlock _ _ _ c _ => c end.
Definition e_children (b : EditorBlock) : list EditorBlock :=
  match b with EBlock _ _ _ _ l => l end.
Definition with_props (b : EditorBlock) (p : BlockProps) : EditorBlock :=
  match b with EBlock i t _ c l => EBlock i t p c l end.

(** ** Trees *)

(** Induction over block trees, with the hypothesis for every child. *)
Section node_ind.
Variable P : HMBlockNode → Prop.
Hypothesis Hnode : ∀ b c, Forall P (default [] c) → P (BlockNode b c).

Fixpoint node_tree_ind (n : HMBlockNode) : P n :=
  match n with
  | BlockNode b c =>
      Hnode b c
        (match c as c' return Forall P (default [] c') with
         | None => list.Forall_nil_2 P
         | Some l =>
             (fix go (l : list HMBlockNode) : Forall P l :=
                match l with
                | [] => list.Forall_nil_2 P
                | x :: l' => list.Forall_cons_2 P x l' (node_tree_ind x) (go l')
                end) l
         end)
  end.
End node_ind.

Section eblock_ind.
Variable P : EditorBlock → Prop.
Hypothesis Hblock : ∀ i t p c l, Forall P l → P (EBlock i t p c l).

Fixpoint eblock_tree_ind (b : EditorBlock) : P b :=
  match b with
  | EBlock i t p c l =>
      Hblock i t p c l
        ((fix go (l : list EditorBlock) : Forall P l :=
            match l with
            | [] => list.Forall_nil_2 P
            | x :: l' => list.Forall_cons_2 P x l' (eblock_tree_ind x) (go l')
            end) l)
  end.
End eblock_ind.

(** The blocks of a tree in document order: a node, then its children. *)
Fixpoint preorder (n : HMBlockNode) : list (option HMBlock) :=
  match n with
  | BlockNode b c => b :: match c with None => [] | Some l => concat (preorder <$> l) end
  end.
Definition preorder_list (l : list HMBlockNode) : list (option HMBlock) := concat (preorder <$> l).

Lemma preorder_eq b c : preorder (BlockNode b c) = b :: preorder_list (default [] c).
Proof. by destruct c. Qed.
