(* ===== verification/StyledText.v ===== *)
(** * Styled text: annotations to inline content and back

    [packages/shared/src/client/to-hm-block.ts] (lines 25-193) turns a server
    block's text and annotations into runs of styled text, links and embeds;
    [packages/shared/src/client/from-hm-block.ts] (lines 10-114) extracts a text
    and its annotations from inline content. *)
From S2P Require Import Prelude.
From S2P Require Import JsString.
From S2P Require Import JsObject.
From S2P Require Import BlockTypes.

(** ** From annotations to runs *)

(** The internal annotation of a character: [null] until an annotation covers it. *)
Abbreviation InternalAnnotation := (option HMStyles).

Definition areStylesEqual (styles1 styles2 : InternalAnnotation) (keys : list Style) : bool :=
  match styles1, styles2 with
  | None, None => true
  | Some s1, Some s2 =>
      forallb (λ key, Bool.eqb (bool_decide (key ∈ s1)) (bool_decide (key ∈ s2))) keys
  | _, _ => false
  end.

Definition annotationStyle (a : Annotation) : HMStyles :=
  if String.eqb (a_type a) "emphasis" then [Italic]
  else if String.eqb (a_type a) "strong" then [Bold]
  else if String.eqb (a_type a) "underline" then [Underline]
  else if String.eqb (a_type a) "strike" then [Strike]
  else if String.eqb (a_type a) "code" then [Code]
  else [].

(** [{...(old || {}), ...styles}] *)
Definition merge_styles (old : InternalAnnotation) (styles : HMStyles) : HMStyles :=
  let o := default [] old in
  o ++ List.filter (λ s, negb (bool_decide (s ∈ o))) styles.

(** [for (let i = start; i < end; i++) stylesForIndex[i] = ..], on the indices
    below [text.length], the only ones read later. *)
Definition paint_range (styles : HMStyles) (sfi : list InternalAnnotation) (r : Z * Z) :
    list InternalAnnotation :=
  imap (λ i old,
    if ((r.1 <=? Z.of_nat i) && (Z.of_nat i <? r.2))%Z then Some (merge_styles old styles)
    else old) sfi.

(** A range whose end is missing ([ends[index]] is undefined) paints nothing. *)
Definition paint_annotation (sfi : list InternalAnnotation) (a : Annotation) :
    list InternalAnnotation :=
  foldl (paint_range (annotationStyle a)) sfi (zip (a_starts a) (a_ends a)).

Definition stylesForIndex (n : nat) (annotations : list Annotation) : list InternalAnnotation :=
  foldl paint_annotation (replicate n None) annotations.

Definition allStyleKeys (annotations : list Annotation) : list Style :=
  dedup (concat (annotationStyle <$> annotations)).

(** The second loop: [cur] and [cst] are [currentText] and [currentStyles]. *)
Fixpoint style_runs (keys : list Style) (cur : string) (cst : InternalAnnotation)
    (rest : list (ascii * InternalAnnotation)) : list HMInlineContent :=
  match rest with
  | [] => if String.eqb cur "" then [] else [InlineText cur (default [] cst)]
  | (c, st) :: rest' =>
      if areStylesEqual st cst keys then style_runs keys (cur +:+ of_chars [c]) cst rest'
      else InlineText cur (default [] cst) :: style_runs keys (of_chars [c]) st rest'
  end.

Definition partialBlockToStyledText (text : option string) (annotations : option (list Annotation)) :
    list HMInlineContent :=
  let t := default "" text in
  let anns := default [] annotations in
  match zip (chars t) (stylesForIndex (len t) anns) with
  | [] => []
  | (c, st) :: rest => style_runs (allStyleKeys anns) (of_chars [c]) st rest
  end.

(** ** Links, ranges and inline embeds *)

Definition isLinkEmbedOrRange (a : Annotation) : bool :=
  String.eqb (a_type a) "link" || String.eqb (a_type a) "inline-embed"
  || String.eqb (a_type a) "range".

Definition shift_annotation (d : Z) (a : Annotation) : Annotation :=
  {| a_type := a_type a; a_ref := a_ref a;
     a_starts := (λ s, s - d)%Z <$> a_starts a; a_ends := (λ e, e - d)%Z <$> a_ends a;
     a_attributes := a_attributes a |}.

Definition getSlicedContent (text : string) (annotations : list Annotation) (start end_ : Z) :
    list HMInlineContent :=
  partialBlockToStyledText (Some (js_slice text start end_))
    (Some (shift_annotation start <$> annotations)).

Definition first_start (a : Annotation) : Z := hd 0%Z (a_starts a).
Definition first_end (a : Annotation) : Z := hd 0%Z (a_ends a).

(** [sortedAnnotations[aIndex + 1]?.starts[0] || block.text.length] *)
Definition nonAnnotationContentEnd (text : string) (rest : list Annotation) : Z :=
  match rest with
  | [] => Z.of_nat (len text)
  | a :: _ => if (first_start a =? 0)%Z then Z.of_nat (len text) else first_start a
  end.

Definition annotation_inline (text : string) (annotations : list Annotation) (a : Annotation)
    (annotationStart annotationEnd : Z) : list HMInlineContent :=
  if String.eqb (a_type a) "link" || String.eqb (a_type a) "range" then
    [InlineLink (a_type a) (a_ref a)
       (getSlicedContent text annotations annotationStart annotationEnd)]
  else if String.eqb (a_type a) "inline-embed" then [InlineEmbed (a_ref a)]
  else [].

(** The [forEach] over the sorted annotations. *)
Fixpoint annotated_inlines (text : string) (annotations : list Annotation) (annotationStart : Z)
    (sorted : list Annotation) : list HMInlineContent :=
  match sorted with
  | [] => []
  | a :: rest =>
      let annotationEnd := (annotationStart + (first_end a - first_start a))%Z in
      let contentEnd := nonAnnotationContentEnd text rest in
      annotation_inline text annotations a annotationStart annotationEnd
      ++ getSlicedContent text annotations annotationEnd contentEnd
      ++ annotated_inlines text annotations contentEnd rest
  end.

Definition invalidRangeMsg : string :=
  "Invalid link, embed, or range annotations in this block. Only one range per annotation is allowed".

Definition singleRange (a : Annotation) : bool :=
  (length (a_starts a) =? 1)%nat && (length (a_ends a) =? 1)%nat.

Definition toHMInlineContent (block : HMBlock) : result (list HMInlineContent) :=
  let anns := default [] (b_annotations block) in
  let special := List.filter isLinkEmbedOrRange anns in
  match special with
  | [] => Ok (partialBlockToStyledText (b_text block) (b_annotations block))
  | _ =>
      if negb (forallb singleRange special) then Err invalidRangeMsg
      else
        let sorted := js_sort (λ a b, first_start a - first_start b)%Z special in
        match b_text block, sorted with
        | Some text, a :: _ =>
            let annotationStart := first_start a in
            Ok (getSlicedContent text anns 0 annotationStart
                ++ annotated_inlines text anns annotationStart sorted)
        | _, _ => Err "TypeError"
        end
  end.

(** ** From inline content to annotations *)

Definition styleMarkToAnnotationType (style : Style) : result string :=
  match style with
  | Bold => Ok "strong"
  | Italic => Ok "emphasis"
  | Underline => Ok "underline"
  | Strike => Ok "strike"
  | Code => Ok "code"
  | _ => Err "Cannot handle this style yet"
  end.

(** The local variables of [extractContent]. *)
Record Extract : Type := {
  x_text : string;
  x_annotations : list Annotation;
  x_styleStarts : list (Style * Z);
  x_charIndex : Z;
}.
Definition extract_init : Extract :=
  {| x_text := ""; x_annotations := []; x_styleStarts := []; x_charIndex := 0 |}.

Definition mk_range (type : string) (ref : option string) (attrs : option (obj string)) (s e : Z) :
    Annotation :=
  {| a_type := type; a_ref := ref; a_starts := [s]; a_ends := [e]; a_attributes := attrs |}.

(** "Check for style starts" *)
Definition open_styles (styles : HMStyles) (at_ : Z) (starts : list (Style * Z)) :
    list (Style * Z) :=
  foldl (λ st s, if bool_decide (s ∈ st.*1) then st else st ++ [(s, at_)]) starts styles.

(** "Check for style ends": an annotation for every open style that [keep]
    rejects, and the styles that stay open. *)
Fixpoint close_styles (keep : Style → bool) (at_ : Z) (starts : list (Style * Z)) :
    result (list Annotation * list (Style * Z)) :=
  match starts with
  | [] => Ok ([], [])
  | (s, k) :: rest =>
      if keep s then
        let* r := close_styles keep at_ rest in Ok (r.1, (s, k) :: r.2)
      else
        let* ty := styleMarkToAnnotationType s in
        let* r := close_styles keep at_ rest in
        Ok (mk_range ty None None k at_ :: r.1, r.2)
  end.

Definition extract_text (st : Extract) (text : string) (styles : HMStyles) : result Extract :=
  let starts := open_styles styles (x_charIndex st) (x_styleStarts st) in
  let* r := close_styles (λ s, bool_decide (s ∈ styles)) (x_charIndex st) starts in
  Ok {| x_text := x_text st +:+ text;
        x_annotations := x_annotations st ++ r.1;
        x_styleStarts := r.2;
        x_charIndex := x_charIndex st + Z.of_nat (len text) |}.

Definition extract_embed (st : Extract) (ref : option string) : Extract :=
  {| x_text := x_text st +:+ " ";
     x_annotations := x_annotations st
       ++ [mk_range "inline-embed" ref (Some []) (x_charIndex st) (x_charIndex st + 1)];
     x_styleStarts := x_styleStarts st;
     x_charIndex := x_charIndex st + 1 |}.

(** [linkContent] is the result of the recursive call. *)
Definition extract_link (st : Extract) (href : option string)
    (linkContent : list Annotation * string) : Extract :=
  let i := x_charIndex st in
  let n := Z.of_nat (len linkContent.2) in
  {| x_text := x_text st +:+ linkContent.2;
     x_annotations := x_annotations st ++ (shift_annotation (- i) <$> linkContent.1)
       ++ [mk_range "link" href None i (i + n)];
     x_styleStarts := x_styleStarts st;
     x_charIndex := i + n |}.

(** "Check for any styles that didn't end" *)
Definition extract_finish (st : Extract) : result (list Annotation * string) :=
  let* r := close_styles (λ _, false) (x_charIndex st) (x_styleStarts st) in
  Ok (x_annotations st ++ r.1, x_text st).

(** The body of [content.forEach].  Only [type === 'link'] has nested content
    that is extracted; another link-shaped inline has no [text] and throws. *)
Fixpoint extract_inline (st : Extract) (inline : HMInlineContent) {struct inline} :
    result Extract :=
  match inline with
  | InlineText text styles => extract_text st text styles
  | InlineEmbed ref => Ok (extract_embed st ref)
  | InlineLink type href content =>
      if String.eqb type "link" then
        let* sub := fold_result extract_inline extract_init content in
        let* linkContent := extract_finish sub in
        Ok (extract_link st href linkContent)
      else Err "TypeError"
  end.

Definition extractContent (content : list HMInlineContent) : result (list Annotation * string) :=
  let* st := fold_result extract_inline extract_init content in
  extract_finish st.
