(* ===== verification/StyledTextFacts.v ===== *)
(** * Theorems about styled text

    What the runs of [partialBlockToStyledText] say about every character, that
    [extractContent] is inverse to it on text, and what links and embeds keep. *)
From S2P Require Import Prelude.
From S2P Require Import JsString.
From S2P Require Import JsObject.
From S2P Require Import BlockTypes.
From S2P Require Import StyledText.

(** ** Vocabulary *)

(** Annotation [a] covers the character at index [i]. *)
Definition covers (a : Annotation) (i : Z) : Prop :=
  ∃ r, r ∈ zip (a_starts a) (a_ends a) ∧ (r.1 <= i < r.2)%Z.

(** Some annotation puts style [s] on the character at index [i]. *)
Definition painted (annotations : list Annotation) (s : Style) (i : Z) : Prop :=
  ∃ a, a ∈ annotations ∧ s ∈ annotationStyle a ∧ covers a i.

(** The characters of a list of text inlines, each with its styles. *)
Definition inline_chars (inline : HMInlineContent) : list (ascii * HMStyles) :=
  match inline with
  | InlineText text styles => (λ c, (c, styles)) <$> chars text
  | _ => []
  end.
Definition styled_chars (content : list HMInlineContent) : list (ascii * HMStyles) :=
  concat (inline_chars <$> content).

Definition is_text (inline : HMInlineContent) : bool :=
  match inline with
  | InlineText _ _ => true
  | _ => false
  end.

(** The text an inline shows in a document: an embed takes one space. *)
Fixpoint inline_text (inline : HMInlineContent) : string :=
  match inline with
  | InlineText text _ => text
  | InlineEmbed _ => " "
  | InlineLink _ _ content => foldr (λ i acc, inline_text i +:+ acc) "" content
  end.
Definition content_text (content : list HMInlineContent) : string :=
  foldr (λ i acc, inline_text i +:+ acc) "" content.

(** ** Painting *)

Lemma elem_of_merge_styles s old styles :
  s ∈ merge_styles old styles ↔ s ∈ default [] old ∨ s ∈ styles.
Proof.
  unfold merge_styles. rewrite elem_of_app, !list_elem_of_In, List.filter_In.
  rewrite <- !list_elem_of_In, negb_true_iff, bool_decide_eq_false.
  destruct (decide (s ∈ default [] old)); naive_solver.
Qed.

Lemma length_paint_range styles sfi r : length (paint_range styles sfi r) = length sfi.
Proof. apply length_imap. Qed.
Lemma length_paint_annotation sfi a : length (paint_annotation sfi a) = length sfi.
Proof.
  unfold paint_annotation. revert sfi.
  induction (zip _ _) as [|r rs IH]; intros sfi; [done|]. cbn. by rewrite IH, length_paint_range.
Qed.
Lemma length_stylesForIndex n anns : length (stylesForIndex n anns) = n.
Proof.
  unfold stylesForIndex. rewrite <- (length_replicate n (@None HMStyles)) at 2.
  generalize (replicate n (@None HMStyles)).
  induction anns as [|a anns IH]; intros l; [done|]. cbn. by rewrite IH, length_paint_annotation.
Qed.

Lemma lookup_paint_range styles sfi r i :
  paint_range styles sfi r !! i =
  (λ old, if ((r.1 <=? Z.of_nat i) && (Z.of_nat i <? r.2))%Z then Some (merge_styles old styles)
          else old) <$> sfi !! i.
Proof. apply list_lookup_imap. Qed.

(** What a cell of [stylesForIndex] records: its styles, and whether it is null. *)
Definition cell_styles (st : InternalAnnotation) : HMStyles := default [] st.

Lemma lookup_paint_annotation sfi a i old :
  sfi !! i = Some old →
  ∃ st, paint_annotation sfi a !! i = Some st ∧
    (∀ s, s ∈ cell_styles st ↔
       s ∈ cell_styles old ∨ (s ∈ annotationStyle a ∧ covers a (Z.of_nat i))) ∧
    (st = None ↔ old = None ∧ ¬ covers a (Z.of_nat i)).
Proof.
  unfold paint_annotation, covers. revert sfi old.
  induction (zip (a_starts a) (a_ends a)) as [|r rs IH]; intros sfi old Hi.
  - exists old. set_solver.
  - cbn [foldl].
    edestruct (IH (paint_range (annotationStyle a) sfi r)) as (st & Hst & Hs & Hn);
      [by rewrite lookup_paint_range, Hi|].
    exists st. split; [done|]. revert Hs Hn. cbn.
    destruct (_ && _)%Z eqn:E; cbn; intros Hs Hn; split.
    + intros s. rewrite Hs, elem_of_merge_styles. split; [|naive_solver set_solver].
      intros [[?|?]|(? & r' & ? & ?)]; [by left|right..]; split; try done.
      * exists r. split; [set_solver | lia].
      * exists r'. split; [set_solver | done].
    + rewrite Hn. split; [naive_solver|]. intros [_ []]. exists r. split; [set_solver | lia].
    + intros s. rewrite Hs. f_equiv. f_equiv. split; intros (r' & Hr & ?); exists r'.
      * set_solver.
      * apply elem_of_cons in Hr as [->|]; [lia | done].
    + rewrite Hn. f_equiv. split; intros Hc (r' & Hr & ?); apply Hc; exists r'.
      * apply elem_of_cons in Hr as [->|]; [lia | done].
      * set_solver.
Qed.

Lemma lookup_stylesForIndex n anns i :
  i < n →
  ∃ st, stylesForIndex n anns !! i = Some st ∧
    (∀ s, s ∈ cell_styles st ↔ painted anns s (Z.of_nat i)) ∧
    (st = None ↔ ∀ a, a ∈ anns → ¬ covers a (Z.of_nat i)).
Proof.
  intros Hi. unfold stylesForIndex, painted.
  assert (∃ st, replicate n (@None HMStyles) !! i = Some st ∧ st = None) as (old & Hold & Hnone)
    by (exists None; split; [by apply lookup_replicate_2 | done]).
  assert (∃ st, foldl paint_annotation (replicate n None) anns !! i = Some st ∧
    (∀ s, s ∈ cell_styles st ↔ s ∈ cell_styles old ∨
       ∃ a, a ∈ anns ∧ s ∈ annotationStyle a ∧ covers a (Z.of_nat i)) ∧
    (st = None ↔ old = None ∧ ∀ a, a ∈ anns → ¬ covers a (Z.of_nat i))) as (st & ? & Hs & Hn).
  2:{ exists st. subst old. cbn in *. split; [done|]. split; [|naive_solver].
      intros s. rewrite Hs. set_solver. }
  clear Hnone. revert old Hold. generalize (replicate n (@None HMStyles)).
  induction anns as [|a anns IH]; intros sfi old Hold; [exists old; set_solver|].
  cbn [foldl]. destruct (lookup_paint_annotation sfi a i old Hold) as (st1 & H1 & Hs1 & Hn1).
  destruct (IH _ _ H1) as (st & H2 & Hs2 & Hn2). exists st. split; [done|].
  setoid_rewrite elem_of_cons. split; [|naive_solver].
  intros s. rewrite Hs2, Hs1. naive_solver.
Qed.

(** ** Runs *)

(** The same character with the same set of styles. *)
Definition same_char (p q : ascii * HMStyles) : Prop := p.1 = q.1 ∧ ∀ s, s ∈ p.2 ↔ s ∈ q.2.
#[export] Instance same_char_equiv : Equivalence same_char.
Proof.
  unfold same_char. split.
  - by intros p.
  - intros p q [??]. naive_solver.
  - intros p q r [??] [??]. naive_solver congruence.
Qed.

Lemma same_char_refl_list l : Forall2 same_char l l.
Proof. by apply list.Forall2_same_length_lookup_2; [|intros i x y -> [= ->]]. Qed.

Lemma styled_chars_cons t st l :
  styled_chars (InlineText t st :: l) = ((λ c, (c, st)) <$> chars t) ++ styled_chars l.
Proof. done. Qed.
Lemma styled_chars_app l k : styled_chars (l ++ k) = styled_chars l ++ styled_chars k.
Proof. unfold styled_chars. by rewrite fmap_app, concat_app. Qed.

(** Equality of styles over the keys that occur is equality of the style sets,
    and of the null cells. *)
Lemma areStylesEqual_spec st1 st2 keys :
  (∀ s, s ∈ cell_styles st1 → s ∈ keys) → (∀ s, s ∈ cell_styles st2 → s ∈ keys) →
  areStylesEqual st1 st2 keys = true ↔
  (st1 = None ↔ st2 = None) ∧ ∀ s, s ∈ cell_styles st1 ↔ s ∈ cell_styles st2.
Proof.
  intros H1 H2. destruct st1 as [l1|], st2 as [l2|]; cbn in *; [|naive_solver..].
  rewrite forallb_forall. setoid_rewrite <- list_elem_of_In.
  setoid_rewrite eqb_true_iff. split.
  - intros H. split; [done|]. intros s. split; intros Hs.
    + specialize (H s (H1 _ Hs)). rewrite (bool_decide_eq_true_2 _ Hs) in H.
      by symmetry in H; bool_simpl.
    + specialize (H s (H2 _ Hs)). rewrite (bool_decide_eq_true_2 _ Hs) in H. by bool_simpl.
  - intros [_ H] s _. apply bool_decide_ext, H.
Qed.

Lemma truthy_snoc cur c : String.eqb (cur +:+ of_chars [c]) "" = false.
Proof. by destruct cur. Qed.

Lemma style_runs_chars keys cur cst rest :
  cur ≠ "" →
  Forall (λ st, ∀ s, s ∈ cell_styles st → s ∈ keys) (cst :: rest.*2) →
  Forall2 same_char (styled_chars (style_runs keys cur cst rest))
    (((λ c, (c, cell_styles cst)) <$> chars cur) ++ (prod_map id cell_styles <$> rest)).
Proof.
  revert cur cst. induction rest as [|[c st] rest IH]; intros cur cst Hcur Hk.
  - apply String.eqb_neq in Hcur. cbn [style_runs]. rewrite Hcur, styled_chars_cons.
    apply same_char_refl_list.
  - cbn [style_runs]. apply list.Forall_cons in Hk as [Hcst Hk].
    assert (Hst := Hk). apply list.Forall_cons in Hst as [Hst Hrest].
    destruct (areStylesEqual st cst keys) eqn:E.
    + apply areStylesEqual_spec in E as [_ E]; [|done..].
      etrans; [apply IH; [apply String.eqb_neq, truthy_snoc | by constructor]|].
      rewrite chars_app, fmap_app, <- (assoc_L (++)).
      apply Forall2_app; [apply same_char_refl_list|].
      rewrite fmap_cons. cbn. constructor; [|apply same_char_refl_list].
      split; cbn; [done|]. intros s. symmetry. apply E.
    + rewrite styled_chars_cons.
      apply Forall2_app; [apply same_char_refl_list|]. by apply IH.
Qed.

Lemma elem_of_allStyleKeys s anns :
  s ∈ allStyleKeys anns ↔ ∃ a, a ∈ anns ∧ s ∈ annotationStyle a.
Proof.
  unfold allStyleKeys. rewrite elem_of_dedup, list_elem_of_In, in_concat.
  setoid_rewrite <- list_elem_of_In. setoid_rewrite list_elem_of_fmap. naive_solver.
Qed.

Lemma painted_key anns s i : painted anns s i → s ∈ allStyleKeys anns.
Proof. intros (a & ? & ? & _). apply elem_of_allStyleKeys. eauto. Qed.

(** Cells of [stylesForIndex] next to the characters they style. *)
Definition painted_cells (t : string) (anns : list Annotation) : list (ascii * InternalAnnotation) :=
  zip (chars t) (stylesForIndex (len t) anns).

Lemma length_painted_cells t anns : length (painted_cells t anns) = len t.
Proof.
  unfold painted_cells. rewrite length_zip_with, length_chars, length_stylesForIndex. lia.
Qed.

Lemma painted_cells_keys t anns :
  Forall (λ st, ∀ s, s ∈ cell_styles st → s ∈ allStyleKeys anns) (painted_cells t anns).*2.
Proof.
  apply Forall_fmap, Forall_lookup. intros i [c st] Hi. cbn. intros s Hs.
  assert (i < len t) as Hlt by (rewrite <- (length_painted_cells t anns); by eapply lookup_lt_Some).
  destruct (lookup_stylesForIndex (len t) anns i Hlt) as (st' & Hst & Hp & _).
  apply lookup_zip_Some in Hi as [_ Hi]. cbn in Hi. simplify_eq.
  by eapply painted_key, Hp.
Qed.

Lemma partialBlockToStyledText_chars text anns :
  Forall2 same_char (styled_chars (partialBlockToStyledText (Some text) (Some anns)))
    (prod_map id cell_styles <$> painted_cells text anns).
Proof.
  unfold partialBlockToStyledText.
  change (default [] (Some anns)) with anns. change (default "" (Some text)) with text.
  change (zip _ _) with (painted_cells text anns).
  assert (Hk := painted_cells_keys text anns).
  destruct (painted_cells text anns) as [|[c st] rest]; [constructor|].
  by apply style_runs_chars.
Qed.

Lemma partial_styled_lookup text anns i p :
  styled_chars (partialBlockToStyledText (Some text) (Some anns)) !! i = Some p →
  chars text !! i = Some p.1 ∧ ∀ s, s ∈ p.2 ↔ painted anns s (Z.of_nat i).
Proof.
  intros Hp.
  destruct (Forall2_lookup_l _ _ _ _ _ (partialBlockToStyledText_chars text anns) Hp)
    as (q & Hq & Hc & Hs).
  apply list_lookup_fmap_Some in Hq as ([c st] & -> & Hi). cbn in *.
  apply lookup_zip_Some in Hi as [Ht Hst]. cbn in *. split; [congruence|].
  intros s. rewrite Hs. apply lookup_lt_Some in Ht. rewrite length_chars in Ht.
  destruct (lookup_stylesForIndex (len text) anns i Ht) as (st' & Hst' & Hpt & _).
  simplify_eq. apply Hpt.
Qed.

(** The runs cover the text: every inline is a text inline with a character. *)
Lemma style_runs_texts keys cur cst rest :
  cur ≠ "" →
  Forall (λ i, ∃ t st, i = InlineText t st ∧ t ≠ "") (style_runs keys cur cst rest).
Proof.
  revert cur cst. induction rest as [|[c st] rest IH]; intros cur cst Hcur; cbn [style_runs].
  - apply String.eqb_neq in Hcur as Hc. rewrite Hc. repeat constructor. eauto.
  - destruct (areStylesEqual st cst keys).
    + apply IH, String.eqb_neq, truthy_snoc.
    + constructor; [eauto | by apply IH].
Qed.

Lemma partial_texts text anns :
  Forall (λ i, ∃ t st, i = InlineText t st ∧ t ≠ "") (partialBlockToStyledText text anns).
Proof.
  unfold partialBlockToStyledText. destruct (zip _ _) as [|[c st] rest]; [constructor|].
  by apply style_runs_texts.
Qed.

Lemma texts_styled_chars l :
  Forall (λ i, ∃ t st, i = InlineText t st ∧ t ≠ "") l →
  chars (content_text l) = (styled_chars l).*1.
Proof.
  induction 1 as [|i l (t & st & -> & _) _ IH]; [done|].
  rewrite styled_chars_cons, fmap_app, <- IH, <- list_fmap_compose.
  change (content_text (InlineText t st :: l)) with (t +:+ content_text l).
  rewrite chars_app. f_equal. symmetry. apply list_fmap_id.
Qed.

Lemma partial_content_text text anns :
  content_text (partialBlockToStyledText (Some text) (Some anns)) = text.
Proof.
  apply chars_inj. rewrite (texts_styled_chars _ (partial_texts _ _)).
  assert (Forall2 eq (styled_chars (partialBlockToStyledText (Some text) (Some anns))).*1
            (painted_cells text anns).*1) as H%list_eq_Forall2.
  { apply Forall2_fmap. pose proof (partialBlockToStyledText_chars text anns) as H.
    apply (Forall2_fmap_r (prod_map id cell_styles)) in H. eapply Forall2_impl; [exact H|]. by intros ?? [? _]. }
  rewrite H. apply fst_zip. rewrite length_chars, length_stylesForIndex. done.
Qed.

(** Two runs in a row differ: in a style, or in whether an annotation covers them. *)
Definition run_break (p q : HMInlineContent) : Prop :=
  match p, q with
  | InlineText _ st1, InlineText _ st2 => ¬ (∀ s, s ∈ st1 ↔ s ∈ st2)
  | _, _ => True
  end.

(** [l] has no two neighbours in the same style. *)
Definition maximal_runs (l : list HMInlineContent) : Prop :=
  ∀ i p q, l !! i = Some p → l !! S i = Some q → run_break p q.

Lemma maximal_runs_cons p q l : run_break p q → maximal_runs (q :: l) → maximal_runs (p :: q :: l).
Proof. intros Hp Hl [|i] p' q' H1 H2; cbn in *; [by simplify_eq | by eapply Hl]. Qed.

Lemma style_runs_maximal keys cur cst rest :
  cur ≠ "" →
  Forall (λ st, (∀ s, s ∈ cell_styles st → s ∈ keys) ∧ (st = None ↔ cell_styles st = []))
    (cst :: rest.*2) →
  maximal_runs (style_runs keys cur cst rest) ∧
  ∃ t l, style_runs keys cur cst rest = InlineText t (cell_styles cst) :: l.
Proof.
  revert cur cst. induction rest as [|[c st] rest IH]; intros cur cst Hcur Hk; cbn [style_runs].
  - apply String.eqb_neq in Hcur as ->. split; [by intros [|[|?]]|]. by eexists _, _.
  - apply list.Forall_cons in Hk as [[Hcst Hn] Hk].
    assert (Hst := Hk). apply list.Forall_cons in Hst as [[Hst Hn'] Hrest].
    destruct (areStylesEqual st cst keys) eqn:E.
    + apply IH; [apply String.eqb_neq, truthy_snoc | by constructor].
    + split; [|by eexists _, _].
      destruct (IH (of_chars [c]) st) as [Hm (t & l & Hl)]; [done..|].
      rewrite Hl in *. apply maximal_runs_cons; [|done].
      intros Heq. apply not_true_iff_false in E. apply E, areStylesEqual_spec; [done..|].
      split; [|intros s; symmetry; apply Heq].
      rewrite Hn, Hn'. split; intros H0; apply elem_of_nil_inv; intros s Hs; apply Heq in Hs;
        unfold cell_styles in *; cbn [snd] in *; rewrite H0 in Hs; by apply not_elem_of_nil in Hs.
Qed.

Lemma partial_maximal text anns :
  (∀ a, a ∈ anns → annotationStyle a ≠ []) →
  maximal_runs (partialBlockToStyledText (Some text) (Some anns)).
Proof.
  intros Hanns. unfold partialBlockToStyledText.
  change (default [] (Some anns)) with anns. change (default "" (Some text)) with text.
  change (zip _ _) with (painted_cells text anns).
  assert (Forall (λ st, (∀ s, s ∈ cell_styles st → s ∈ allStyleKeys anns) ∧
                        (st = None ↔ cell_styles st = [])) (painted_cells text anns).*2) as H.
  { apply Forall_and. split; [apply painted_cells_keys|].
    apply Forall_fmap, Forall_lookup. intros i [c st] Hi. cbn.
    assert (i < len text) as Hlt
      by (rewrite <- (length_painted_cells text anns); by eapply lookup_lt_Some).
    destruct (lookup_stylesForIndex (len text) anns i Hlt) as (st' & Hst & Hp & Hn).
    apply lookup_zip_Some in Hi as [_ Hi]. cbn in Hi. simplify_eq.
    split; [by intros ->|]. rewrite Hn. intros Hnil a Ha Hc.
    destruct (annotationStyle a) as [|s l] eqn:E; [by eapply Hanns|].
    assert (s ∈ cell_styles st) as Hs; [|change (cell_styles st = []) in Hnil; by rewrite Hnil in Hs; apply not_elem_of_nil in Hs].
    apply Hp. exists a. rewrite E. split; [done|]. split; [left | done]. }
  destruct (painted_cells text anns) as [|[c st] rest]; [by intros [|?]|].
  by apply style_runs_maximal.
Qed.

(** ** Extraction: text, errors and bounds *)

(** A style that has a server annotation. *)
Definition supported (s : Style) : bool := is_ok (styleMarkToAnnotationType s).

(** What [extractContent] accepts: no colours in any text, and only links nest. *)
Fixpoint extractable (inline : HMInlineContent) : bool :=
  match inline with
  | InlineText _ styles => forallb supported styles
  | InlineEmbed _ => true
  | InlineLink type _ content => String.eqb type "link" && forallb extractable content
  end.

(** Induction over inline content, with the hypothesis for a link's content. *)
Section inline_ind.
Variable P : HMInlineContent → Prop.
Hypothesis Htext : ∀ t st, P (InlineText t st).
Hypothesis Hlink : ∀ ty h c, Forall P c → P (InlineLink ty h c).
Hypothesis Hembed : ∀ r, P (InlineEmbed r).

Fixpoint inline_tree_ind (i : HMInlineContent) : P i :=
  match i with
  | InlineText t st => Htext t st
  | InlineEmbed r => Hembed r
  | InlineLink ty h c =>
      Hlink ty h c
        ((fix go (l : list HMInlineContent) : Forall P l :=
            match l with
            | [] => list.Forall_nil_2 P
            | x :: l' => list.Forall_cons_2 P x l' (inline_tree_ind x) (go l')
            end) c)
  end.
End inline_ind.

Lemma open_styles_keys styles at_ starts s :
  s ∈ (open_styles styles at_ starts).*1 ↔ s ∈ starts.*1 ∨ s ∈ styles.
Proof.
  unfold open_styles. revert starts. induction styles as [|x l IH]; intros starts; [set_solver|].
  cbn. rewrite IH. case_bool_decide; [set_solver|]. rewrite fmap_app. set_solver.
Qed.

Lemma close_styles_ok keep at_ starts :
  forallb supported starts.*1 = true →
  ∃ anns, close_styles keep at_ starts = Ok (anns, List.filter (λ e, keep e.1) starts).
Proof.
  induction starts as [|[s k] starts IH]; [eexists; done|]. cbn. intros [Hs H]%andb_prop.
  destruct (IH H) as [anns E]. destruct (keep s).
  - rewrite E. by eexists.
  - unfold supported in Hs. destruct (styleMarkToAnnotationType s); [|done]. cbn. rewrite E.
    by eexists.
Qed.

Lemma close_styles_supported keep at_ starts r :
  close_styles keep at_ starts = Ok r →
  r.2 = List.filter (λ e, keep e.1) starts ∧ ∀ s, s ∈ starts.*1 → keep s = false → supported s.
Proof.
  revert r. induction starts as [|[s k] starts IH]; cbn; intros r H.
  - inv_result. split; [done | set_solver].
  - destruct (keep s) eqn:K; inv_result; destruct (IH _ eq_refl) as [-> Hs]; cbn.
    + split; [done|]. intros x [->|]%elem_of_cons; [congruence | auto].
    + split; [done|]. intros x [->|]%elem_of_cons; [|auto]. intros _.
      unfold supported. by rewrite E.
Qed.

Lemma forallb_elem {A} (f : A → bool) l : forallb f l = true ↔ ∀ x, x ∈ l → f x = true.
Proof. rewrite forallb_forall. by setoid_rewrite list_elem_of_In. Qed.

(** The styles still open were all met. *)
Definition open_supported (st : Extract) : Prop := forallb supported (x_styleStarts st).*1 = true.

Lemma filter_keys_sub (f : Style * Z → bool) (l : list (Style * Z)) s :
  s ∈ (List.filter f l).*1 → s ∈ l.*1.
Proof.
  rewrite !list_elem_of_fmap. setoid_rewrite list_elem_of_In. setoid_rewrite List.filter_In.
  setoid_rewrite <- list_elem_of_In. naive_solver.
Qed.

Lemma extract_text_ok st t styles :
  open_supported st → forallb supported styles = true →
  ∃ st', extract_text st t styles = Ok st' ∧ open_supported st'.
Proof.
  unfold open_supported. intros Ho Hs. unfold extract_text.
  destruct (close_styles_ok (λ s, bool_decide (s ∈ styles)) (x_charIndex st)
    (open_styles styles (x_charIndex st) (x_styleStarts st))) as [anns E].
  { rewrite forallb_elem in *. intros s [?|?]%open_styles_keys; auto. }
  rewrite E. eexists. split; [done|]. cbn [x_styleStarts fst snd]. rewrite forallb_elem in *.
  intros s [?|?]%filter_keys_sub%open_styles_keys; auto.
Qed.

Lemma extract_finish_ok st : open_supported st → ∃ r, extract_finish st = Ok r.
Proof.
  intros Ho. unfold extract_finish.
  destruct (close_styles_ok (λ _, false) (x_charIndex st) _ Ho) as [anns E].
  rewrite E. by eexists.
Qed.

Lemma extract_fold_ok st l :
  Forall (λ i, ∀ st, open_supported st → extractable i = true →
                ∃ st', extract_inline st i = Ok st' ∧ open_supported st') l →
  open_supported st → forallb extractable l = true →
  ∃ st', fold_result extract_inline st l = Ok st' ∧ open_supported st'.
Proof.
  intros H. revert st. induction H as [|i l Hi _ IH]; intros st Ho Hl; [by exists st|].
  cbn in *. apply andb_prop in Hl as [Hx Hl].
  destruct (Hi st Ho Hx) as (st' & -> & Ho'). by apply IH.
Qed.

Lemma extract_inline_ok i st :
  open_supported st → extractable i = true →
  ∃ st', extract_inline st i = Ok st' ∧ open_supported st'.
Proof.
  revert st. induction i as [t s|ty h c IH|r] using inline_tree_ind; intros st Ho Hx.
  - by apply extract_text_ok.
  - cbn in *. apply andb_prop in Hx as [-> Hc].
    destruct (extract_fold_ok extract_init c IH) as (sub & E & Hsub); [done..|].
    rewrite E. cbn. destruct (extract_finish_ok sub Hsub) as [r ->]. by eexists.
  - by eexists.
Qed.

Lemma extract_text_inv st t styles st' :
  extract_text st t styles = Ok st' → open_supported st' →
  open_supported st ∧ forallb supported styles = true.
Proof.
  unfold open_supported, extract_text. rewrite !forallb_elem. intros H Ho. inv_result.
  apply close_styles_supported in E as [Hr Hc]. cbn in Ho. rewrite Hr in Ho.
  assert (∀ s, s ∈ (open_styles styles (x_charIndex st) (x_styleStarts st)).*1 →
               supported s = true) as Hall.
  { intros s Hs. destruct (decide (s ∈ styles)) as [Hin|Hin].
    - apply Ho. apply list_elem_of_fmap in Hs as ([s' k] & -> & Hk).
      apply list_elem_of_fmap. exists (s', k). split; [done|].
      apply list_elem_of_In, List.filter_In. split; [by apply list_elem_of_In|].
      by apply bool_decide_eq_true.
    - apply Is_true_true, Hc; [done|]. by apply bool_decide_eq_false. }
  split; intros s Hs; apply Hall, open_styles_keys; auto.
Qed.

Lemma extract_fold_inv l :
  Forall (λ i, ∀ st st', extract_inline st i = Ok st' → open_supported st' →
                open_supported st ∧ extractable i = true) l →
  ∀ st st', fold_result extract_inline st l = Ok st' → open_supported st' →
  open_supported st ∧ forallb extractable l = true.
Proof.
  induction 1 as [|i l Hi _ IH]; intros st st' H Ho; cbn in *; inv_result; [done|].
  destruct (IH _ _ H Ho) as [Ho1 Hl]. destruct (Hi _ _ E Ho1) as [? Hx]. by rewrite Hx, Hl.
Qed.

Lemma extract_finish_inv st r : extract_finish st = Ok r → open_supported st.
Proof.
  unfold extract_finish, open_supported. rewrite forallb_elem. intros H s Hs. inv_result.
  apply close_styles_supported in E as [_ Hc]. by apply Is_true_true, Hc.
Qed.

Lemma extract_inline_inv i st st' :
  extract_inline st i = Ok st' → open_supported st' →
  open_supported st ∧ extractable i = true.
Proof.
  revert st st'. induction i as [t s|ty h c IH|r] using inline_tree_ind; intros st st' H Ho.
  - by eapply extract_text_inv.
  - cbn in *. destruct (String.eqb ty "link"); [|done]. inv_result. split; [done|].
    apply extract_finish_inv in E0. by destruct (extract_fold_inv c IH _ _ E E0).
  - cbn in *. by inv_result.
Qed.

(** *** Text and bounds *)

Definition in_bounds (n : Z) (a : Annotation) : Prop :=
  ∃ s e, a_starts a = [s] ∧ a_ends a = [e] ∧ (0 <= s <= e)%Z ∧ (e <= n)%Z.

Record extract_wf (st : Extract) : Prop := {
  wf_index : x_charIndex st = Z.of_nat (len (x_text st));
  wf_anns : Forall (in_bounds (x_charIndex st)) (x_annotations st);
  wf_starts : Forall (λ e, 0 <= e.2 <= x_charIndex st)%Z (x_styleStarts st);
}.

Lemma in_bounds_mono n m a : (n <= m)%Z → in_bounds n a → in_bounds m a.
Proof. intros ? (s & e & ? & ? & ? & ?). exists s, e. repeat split; try done; lia. Qed.

Lemma open_styles_bounds styles at_ starts :
  (0 <= at_)%Z → Forall (λ e, 0 <= e.2 <= at_)%Z starts →
  Forall (λ e, 0 <= e.2 <= at_)%Z (open_styles styles at_ starts).
Proof.
  intros Hat. unfold open_styles. revert starts.
  induction styles as [|x l IH]; intros starts H; [done|]. cbn. apply IH.
  case_bool_decide; [done|]. apply Forall_app. split; [done|]. repeat constructor; cbn; lia.
Qed.

Lemma close_styles_bounds keep at_ starts r :
  close_styles keep at_ starts = Ok r → Forall (λ e, 0 <= e.2 <= at_)%Z starts →
  Forall (in_bounds at_) r.1 ∧ Forall (λ e, 0 <= e.2 <= at_)%Z r.2.
Proof.
  revert r. induction starts as [|[s k] starts IH]; intros r H Hb; cbn in H.
  - inv_result. by split.
  - apply list.Forall_cons in Hb as [Hk Hb]. cbn in Hk.
    destruct (keep s); inv_result; destruct (IH _ eq_refl Hb) as [H1 H2]; cbn;
      split; try done; constructor; try done.
    exists k, at_. repeat split; lia.
Qed.

Lemma extract_text_wf st t styles st' :
  extract_wf st → extract_text st t styles = Ok st' →
  extract_wf st' ∧ x_text st' = x_text st +:+ t.
Proof.
  intros [Hi Ha Hs] H. unfold extract_text in H. inv_result. split; [|done].
  eapply close_styles_bounds in E as [H1 H2]; [|apply open_styles_bounds; [lia | done]].
  split; cbn.
  - rewrite len_app. lia.
  - apply Forall_app. split; (eapply list.Forall_impl; [eassumption|]); intros b;
      apply in_bounds_mono; lia.
  - eapply list.Forall_impl; [exact H2|]. cbn. intros e. lia.
Qed.

Lemma extract_embed_wf st r : extract_wf st → extract_wf (extract_embed st r).
Proof.
  intros [Hi Ha Hs]. split; cbn.
  - rewrite len_app. cbn. lia.
  - apply Forall_app. split.
    + eapply list.Forall_impl; [exact Ha|]. intros a. apply in_bounds_mono. lia.
    + repeat constructor. eexists _, _. repeat split; lia.
  - eapply list.Forall_impl; [exact Hs|]. cbn. intros e. lia.
Qed.

Lemma in_bounds_shift i n a :
  (0 <= i)%Z → in_bounds n a → in_bounds (i + n) (shift_annotation (- i) a).
Proof.
  intros ? (s & e & Hs & He & ? & ?). exists (s + i)%Z, (e + i)%Z. cbn. rewrite Hs, He. cbn.
  repeat split; try lia; do 2 f_equal; lia.
Qed.

Lemma extract_link_wf st href r :
  extract_wf st → Forall (in_bounds (Z.of_nat (len r.2))) r.1 → extract_wf (extract_link st href r).
Proof.
  intros [Hi Ha Hs] Hr. split; cbn.
  - rewrite len_app. lia.
  - rewrite !Forall_app. split; [|split].
    + eapply list.Forall_impl; [exact Ha|]. intros a. apply in_bounds_mono. lia.
    + apply Forall_fmap. eapply list.Forall_impl; [exact Hr|]. intros a Hb.
      apply in_bounds_shift; [lia | done].
    + repeat constructor. eexists _, _. repeat split; lia.
  - eapply list.Forall_impl; [exact Hs|]. cbn. intros e. lia.
Qed.

Lemma extract_finish_wf st r :
  extract_wf st → extract_finish st = Ok r →
  r.2 = x_text st ∧ Forall (in_bounds (Z.of_nat (len (x_text st)))) r.1.
Proof.
  intros [Hi Ha Hs] H. unfold extract_finish in H. inv_result. split; [done|].
  apply close_styles_bounds in E as [H1 _]; [|done]. rewrite <- Hi. by apply Forall_app.
Qed.

Lemma extract_init_wf : extract_wf extract_init.
Proof. by split; cbn. Qed.

Lemma extract_fold_wf l :
  Forall (λ i, ∀ st st', extract_wf st → extract_inline st i = Ok st' →
                extract_wf st' ∧ x_text st' = x_text st +:+ inline_text i) l →
  ∀ st st', extract_wf st → fold_result extract_inline st l = Ok st' →
  extract_wf st' ∧ x_text st' = x_text st +:+ content_text l.
Proof.
  induction 1 as [|i l Hi _ IH]; intros st st' Hw H; cbn in *; inv_result.
  - split; [done|]. apply chars_inj. rewrite chars_app. symmetry. apply app_nil_r.
  - destruct (Hi _ _ Hw E) as [Hw1 Ht1]. destruct (IH _ _ Hw1 H) as [Hw2 Ht2].
    split; [done|]. rewrite Ht2, Ht1. apply chars_inj. by rewrite !chars_app, (assoc_L (++)).
Qed.

Lemma extract_inline_wf i st st' :
  extract_wf st → extract_inline st i = Ok st' →
  extract_wf st' ∧ x_text st' = x_text st +:+ inline_text i.
Proof.
  revert st st'. induction i as [t s|ty h c IH|r] using inline_tree_ind; intros st st' Hw H.
  - by eapply extract_text_wf.
  - cbn in H. destruct (String.eqb ty "link"); [|done]. inv_result.
    destruct (extract_fold_wf c IH _ _ extract_init_wf E) as [Hsub Ht].
    destruct (extract_finish_wf _ _ Hsub E0) as [Hr Hb]. split.
    + apply extract_link_wf; [done|]. by rewrite Hr.
    + cbn. by rewrite Hr, Ht.
  - cbn in H. inv_result. split; [by apply extract_embed_wf | done].
Qed.

(** ** Extraction of text content, character by character *)

Lemma annotationStyle_mark s ty ref attrs x y :
  styleMarkToAnnotationType s = Ok ty → annotationStyle (mk_range ty ref attrs x y) = [s].
Proof. by destruct s; intros [= <-]. Qed.

Lemma painted_app anns1 anns2 s i :
  painted (anns1 ++ anns2) s i ↔ painted anns1 s i ∨ painted anns2 s i.
Proof. unfold painted. setoid_rewrite elem_of_app. naive_solver. Qed.

Lemma painted_cons a anns s i :
  painted (a :: anns) s i ↔ (s ∈ annotationStyle a ∧ covers a i) ∨ painted anns s i.
Proof. unfold painted. setoid_rewrite elem_of_cons. naive_solver. Qed.

Lemma painted_nil s i : ¬ painted [] s i.
Proof. intros (a & Ha & _). by apply not_elem_of_nil in Ha. Qed.

Lemma covers_mk_range ty ref attrs x y i : covers (mk_range ty ref attrs x y) i ↔ (x <= i < y)%Z.
Proof. unfold covers. cbn. setoid_rewrite list_elem_of_singleton. naive_solver. Qed.

Lemma painted_close keep at_ starts r s i :
  close_styles keep at_ starts = Ok r →
  painted r.1 s i ↔ ∃ k, (s, k) ∈ starts ∧ keep s = false ∧ (k <= i < at_)%Z.
Proof.
  revert r. induction starts as [|[s' k'] starts IH]; intros r H; cbn in H.
  - inv_result. cbn. split; [by intros H%painted_nil | set_solver].
  - setoid_rewrite elem_of_cons. destruct (keep s') eqn:K; inv_result; cbn.
    + rewrite (IH _ eq_refl). split; [intros (k & ?); exists k; tauto|].
      intros (k & [[= -> ->]|Hk] & ? & ?); [congruence | eauto].
    + rewrite painted_cons, (annotationStyle_mark _ _ _ _ _ _ E), list_elem_of_singleton,
        covers_mk_range, (IH _ eq_refl). split.
      * intros [[-> ?]|(k & ?)]; [exists k' | exists k]; tauto.
      * intros (k & [[= -> ->]|Hk] & ? & ?); [by left | eauto].
Qed.

Lemma elem_of_open_styles styles at_ starts s k :
  (s, k) ∈ open_styles styles at_ starts ↔
  (s, k) ∈ starts ∨ (k = at_ ∧ s ∈ styles ∧ s ∉ starts.*1).
Proof.
  unfold open_styles. revert starts. induction styles as [|x l IH]; intros starts; [set_solver|].
  cbn. rewrite IH. case_bool_decide as Hx.
  - rewrite elem_of_cons. naive_solver.
  - rewrite fmap_app, !elem_of_app. cbn. rewrite !elem_of_cons, !elem_of_nil.
    destruct (decide (s = x)); naive_solver.
Qed.

Lemma elem_of_open_filter (styles : HMStyles) s k (l : list (Style * Z)) :
  (s, k) ∈ List.filter (λ e, bool_decide (e.1 ∈ styles)) l ↔ (s, k) ∈ l ∧ s ∈ styles.
Proof. by rewrite list_elem_of_In, List.filter_In, <- list_elem_of_In, bool_decide_eq_true. Qed.

(** The state of the extraction after the characters [sc]. *)
Definition extract_rel (st : Extract) (sc : list (ascii * HMStyles)) : Prop :=
  extract_wf st ∧ chars (x_text st) = sc.*1 ∧
  ∀ i p s, sc !! i = Some p →
    s ∈ p.2 ↔ painted (x_annotations st) s (Z.of_nat i) ∨
              ∃ k, (s, k) ∈ x_styleStarts st ∧ (k <= Z.of_nat i)%Z.

Lemma painted_bounds n anns s i : Forall (in_bounds n) anns → painted anns s i → (i < n)%Z.
Proof.
  rewrite Forall_forall. intros Hb (a & Ha & _ & (r & Hr & Hi)).
  destruct (Hb a Ha) as (x & y & Hx & Hy & ?). rewrite Hx, Hy in Hr. cbn in Hr.
  apply list_elem_of_singleton in Hr as ->. cbn in *. lia.
Qed.

Lemma extract_rel_index st sc : extract_rel st sc → x_charIndex st = Z.of_nat (length sc).
Proof.
  intros (Hw & Ht & _). rewrite (wf_index _ Hw), <- length_chars, Ht, length_fmap. done.
Qed.

Lemma extract_text_rel st sc t styles st' :
  extract_rel st sc → extract_text st t styles = Ok st' →
  extract_rel st' (sc ++ ((λ c, (c, styles)) <$> chars t)).
Proof.
  intros Hrel H. pose proof (extract_rel_index _ _ Hrel) as Hn.
  destruct Hrel as (Hw & Ht & Hp). destruct (extract_text_wf _ _ _ _ Hw H) as [Hw' Ht'].
  split; [done|]. split.
  { rewrite Ht', chars_app, Ht, fmap_app, <- list_fmap_compose. f_equal. symmetry.
    apply list_fmap_id. }
  unfold extract_text in H. inv_result. cbn.
  pose proof (λ s i, painted_close _ _ _ _ s i E) as Hc.
  apply close_styles_supported in E as [Hr _].
  intros i p s Hi. rewrite painted_app, Hc, Hr. clear Hc Hr Ht'.
  setoid_rewrite elem_of_open_filter.
  setoid_rewrite elem_of_open_styles. setoid_rewrite bool_decide_eq_false.
  rewrite Hn in *. apply lookup_app_Some in Hi as [Hi|[Hlen Hi]].
  - apply lookup_lt_Some in Hi as Hlt. rewrite (Hp i p s Hi).
    destruct (decide (s ∈ styles)); naive_solver lia.
  - apply list_lookup_fmap_Some in Hi as (c & -> & _). cbn. split.
    + intros Hs. right. destruct (decide (s ∈ (x_styleStarts st).*1)) as [Hin|Hin].
      * apply list_elem_of_fmap in Hin as ([s' k] & -> & Hk). exists k.
        destruct Hw as [_ _ Hb]. rewrite Forall_forall in Hb. specialize (Hb _ Hk). cbn in *.
        rewrite Hn in Hb. split; [|lia]. auto.
      * exists (Z.of_nat (length sc)). split; [|lia]. auto.
    + intros [[Hpt|Hk]|(k & Hk & ?)]; [|naive_solver lia|by destruct Hk].
      apply (painted_bounds (x_charIndex st)) in Hpt; [lia | by destruct Hw].
Qed.

Lemma extract_fold_rel l st sc st' :
  forallb is_text l = true → extract_rel st sc →
  fold_result extract_inline st l = Ok st' → extract_rel st' (sc ++ styled_chars l).
Proof.
  revert st sc. induction l as [|i l IH]; intros st sc Hl Hr H;
    cbn [forallb fold_result] in *.
  - inv_result. by rewrite app_nil_r.
  - destruct i as [t styles|?|?]; [|done..].
    cbn [extract_inline is_text andb] in *. inv_result.
    rewrite styled_chars_cons, (assoc_L (++)). eapply IH; [done| |exact H].
    by eapply extract_text_rel.
Qed.

Lemma extract_init_rel : extract_rel extract_init [].
Proof. split; [apply extract_init_wf|]. by split. Qed.

Lemma extract_finish_painted st sc r :
  extract_rel st sc → extract_finish st = Ok r →
  chars r.2 = sc.*1 ∧
  ∀ i p s, sc !! i = Some p → s ∈ p.2 ↔ painted r.1 s (Z.of_nat i).
Proof.
  intros Hrel H. pose proof (extract_rel_index _ _ Hrel) as Hn. destruct Hrel as (Hw & Ht & Hp).
  unfold extract_finish in H. inv_result. cbn. split; [done|]. intros i p s Hi.
  rewrite painted_app, (painted_close _ _ _ _ s _ E), (Hp i p s Hi).
  apply lookup_lt_Some in Hi. naive_solver lia.
Qed.

(** ** Links, ranges and embeds *)

(** The characters of inline content in document order; an embed is one
    unstyled space. *)
Definition flat_inline (inline : HMInlineContent) : list (ascii * HMStyles) :=
  match inline with
  | InlineText _ _ => inline_chars inline
  | InlineLink _ _ content => styled_chars content
  | InlineEmbed _ => [(" "%char, [])]
  end.
Definition flat_chars (content : list HMInlineContent) : list (ascii * HMStyles) :=
  concat (flat_inline <$> content).

Definition embedded (anns : list Annotation) (i : Z) : Prop :=
  ∃ a, a ∈ anns ∧ a_type a = "inline-embed" ∧ covers a i.

(** [l] shows the text from [from] on, every character in its painted styles. *)
Definition rendered (text : string) (anns : list Annotation) (from : Z)
    (l : list (ascii * HMStyles)) : Prop :=
  ∀ i p, l !! i = Some p →
    chars text !! Z.to_nat (from + Z.of_nat i) = Some p.1 ∧
    (¬ embedded anns (from + Z.of_nat i) →
     ∀ s, s ∈ p.2 ↔ painted anns s (from + Z.of_nat i)).

Lemma rendered_app text anns from l1 l2 :
  rendered text anns from l1 → rendered text anns (from + Z.of_nat (length l1)) l2 →
  rendered text anns from (l1 ++ l2).
Proof.
  intros H1 H2 i p [Hi|[Hlen Hi]]%lookup_app_Some; [by apply H1|].
  specialize (H2 _ _ Hi).
  by replace (from + Z.of_nat (length l1) + Z.of_nat (i - length l1))%Z
    with (from + Z.of_nat i)%Z in H2 by lia.
Qed.

Lemma flat_chars_app l k : flat_chars (l ++ k) = flat_chars l ++ flat_chars k.
Proof. unfold flat_chars. by rewrite fmap_app, concat_app. Qed.

Lemma flat_chars_texts l :
  Forall (λ i, ∃ t st, i = InlineText t st ∧ t ≠ "") l → flat_chars l = styled_chars l.
Proof.
  induction 1 as [|i l (t & st & -> & _) _ IH]; [done|].
  unfold flat_chars, styled_chars in *. cbn. by rewrite IH.
Qed.

Lemma covers_shift d a i : covers (shift_annotation d a) i ↔ covers a (i + d).
Proof.
  unfold covers, shift_annotation. cbn.
  assert (zip ((λ s, s - d)%Z <$> a_starts a) ((λ e, e - d)%Z <$> a_ends a) =
          (λ r, (r.1 - d, r.2 - d)%Z) <$> zip (a_starts a) (a_ends a)) as ->.
  { generalize (a_ends a). induction (a_starts a) as [|s l IH]; intros [|e k]; cbn; [done..|].
    by rewrite IH. }
  setoid_rewrite list_elem_of_fmap. split.
  - intros (r & (q & -> & Hq) & ?). exists q. cbn in *. split; [done | lia].
  - intros (q & Hq & ?). eexists. split; [by exists q|]. cbn. lia.
Qed.

Lemma painted_shift d anns s i :
  painted (shift_annotation d <$> anns) s i ↔ painted anns s (i + d).
Proof.
  unfold painted. setoid_rewrite list_elem_of_fmap. split.
  - intros (b & (a & -> & Ha) & Hs & Hc%covers_shift). by exists a.
  - intros (a & Ha & Hs & Hc). eexists. split; [by exists a|]. by rewrite covers_shift.
Qed.

Lemma sliced_length text anns a b :
  (0 <= a <= b)%Z → (b <= Z.of_nat (len text))%Z →
  length (styled_chars (getSlicedContent text anns a b)) = Z.to_nat (b - a).
Proof.
  intros ? ?. unfold getSlicedContent.
  rewrite (Forall2_length _ _ _ (partialBlockToStyledText_chars _ _)), length_fmap,
    length_painted_cells, <- length_chars, chars_slice, length_take, length_drop, length_chars
    by lia. lia.
Qed.

Lemma sliced_rendered text anns a b :
  (0 <= a <= b)%Z → (b <= Z.of_nat (len text))%Z →
  rendered text anns a (styled_chars (getSlicedContent text anns a b)).
Proof.
  intros ? ? i p Hi. apply lookup_lt_Some in Hi as Hlt. rewrite sliced_length in Hlt by lia.
  apply partial_styled_lookup in Hi as [Hc Hs]. split.
  - rewrite chars_slice in Hc by lia. apply lookup_take_Some in Hc as [Hc _].
    rewrite lookup_drop in Hc. rewrite <- Hc. f_equal. lia.
  - intros _ s. rewrite Hs, painted_shift. by rewrite Z.add_comm.
Qed.

Lemma flat_sliced text anns a b :
  flat_chars (getSlicedContent text anns a b) = styled_chars (getSlicedContent text anns a b).
Proof. apply flat_chars_texts, partial_texts. Qed.

(** The ranges that the sorted annotations must have: in the text, not empty,
    not overlapping, and an embed over a single space. *)
Fixpoint disjoint_ranges (text : string) (lo : Z) (sorted : list Annotation) : Prop :=
  match sorted with
  | [] => (lo <= Z.of_nat (len text))%Z
  | a :: rest =>
      (lo <= first_start a < first_end a)%Z ∧
      (a_type a = "inline-embed" → js_slice text (first_start a) (first_end a) = " ") ∧
      disjoint_ranges text (first_end a) rest
  end.

Lemma disjoint_ranges_le text lo sorted :
  disjoint_ranges text lo sorted → (lo <= Z.of_nat (len text))%Z.
Proof.
  revert lo. induction sorted as [|a rest IH]; intros lo; cbn; [done|].
  intros (? & _ & H%IH). lia.
Qed.

Lemma contentEnd_bounds text lo rest :
  (0 < lo)%Z → disjoint_ranges text lo rest →
  (lo <= nonAnnotationContentEnd text rest <= Z.of_nat (len text))%Z ∧
  match rest with
  | [] => nonAnnotationContentEnd text rest = Z.of_nat (len text)
  | a :: _ => nonAnnotationContentEnd text rest = first_start a
  end.
Proof.
  intros Hlo H. destruct rest as [|a rest]; cbn in *; [lia|].
  destruct H as (? & _ & ?%disjoint_ranges_le). destruct (Z.eqb_spec (first_start a) 0); lia.
Qed.

Lemma singleRange_covers a i :
  singleRange a = true → covers a i ↔ (first_start a <= i < first_end a)%Z.
Proof.
  unfold singleRange, covers, first_start, first_end. intros H. apply andb_prop in H as [Hs He].
  destruct (a_starts a) as [|x [|? ?]]; [done| |done].
  destruct (a_ends a) as [|y [|? ?]]; [done| |done]. cbn.
  setoid_rewrite list_elem_of_singleton. naive_solver.
Qed.

Lemma annotation_inline_rendered text anns a :
  a ∈ anns → isLinkEmbedOrRange a = true → singleRange a = true →
  (0 <= first_start a < first_end a)%Z → (first_end a <= Z.of_nat (len text))%Z →
  (a_type a = "inline-embed" → js_slice text (first_start a) (first_end a) = " ") →
  let l := flat_chars (annotation_inline text anns a (first_start a) (first_end a)) in
  rendered text anns (first_start a) l ∧ length l = Z.to_nat (first_end a - first_start a).
Proof.
  intros Ha Hty Hsr ? ? Hemb l. subst l. unfold annotation_inline.
  destruct (_ || _) eqn:E1; [|destruct (String.eqb_spec (a_type a) "inline-embed") as [Ht|Ht]].
  - unfold flat_chars. cbn [fmap list_fmap concat flat_inline]. cbn. rewrite app_nil_r.
    split; [apply sliced_rendered; lia | apply sliced_length; lia].
  - specialize (Hemb Ht). apply (f_equal chars) in Hemb. rewrite chars_slice in Hemb by lia.
    apply (f_equal length) in Hemb as Hl.
    rewrite length_take, length_drop, length_chars in Hl. cbn in Hl.
    split; [|cbn; lia]. intros i p Hi. destruct i as [|i]; [|done]. cbn in Hi. simplify_eq.
    rewrite Z.add_0_r. cbn. split.
    + assert (take (Z.to_nat (first_end a) - Z.to_nat (first_start a))
               (drop (Z.to_nat (first_start a)) (chars text)) !! 0 = Some " "%char) as Hsp
        by by rewrite Hemb.
      apply lookup_take_Some in Hsp as [Hsp _]. rewrite lookup_drop, Nat.add_0_r in Hsp. done.
    + intros []. exists a. split; [done|]. split; [done|]. apply singleRange_covers; [done|lia].
  - exfalso. unfold isLinkEmbedOrRange in Hty. apply String.eqb_neq in Ht.
    rewrite Ht, orb_false_r in Hty. by rewrite Hty in E1.
Qed.

Lemma annotated_rendered text anns lo sorted :
  Forall (λ a, a ∈ anns ∧ isLinkEmbedOrRange a = true ∧ singleRange a = true) sorted →
  (0 <= lo)%Z → disjoint_ranges text lo sorted → sorted ≠ [] →
  let start := first_start (hd (mk_range "" None None 0 0) sorted) in
  let l := flat_chars (annotated_inlines text anns start sorted) in
  rendered text anns start l ∧ length l = Z.to_nat (Z.of_nat (len text) - start).
Proof.
  intros Hf Hlo Hd Hne. revert lo Hlo Hd.
  induction Hf as [|a rest (Ha & Hty & Hsr) Hrest IH]; intros lo Hlo Hd; [done|].
  cbn [hd annotated_inlines]. destruct Hd as (? & Hemb & Hd).
  replace (first_start a + (first_end a - first_start a))%Z with (first_end a) by lia.
  assert (first_end a <= Z.of_nat (len text))%Z as Hend by by eapply disjoint_ranges_le.
  destruct (annotation_inline_rendered text anns a) as [Hr1 Hl1]; try done; [lia|].
  destruct (contentEnd_bounds text (first_end a) rest) as [Hb He]; [lia | done|].
  rewrite !flat_chars_app, flat_sliced.
  pose proof (sliced_rendered text anns (first_end a) (nonAnnotationContentEnd text rest)
    ltac:(lia) ltac:(lia)) as Hr2.
  pose proof (sliced_length text anns (first_end a) (nonAnnotationContentEnd text rest)
    ltac:(lia) ltac:(lia)) as Hl2.
  assert (rendered text anns (nonAnnotationContentEnd text rest)
            (flat_chars (annotated_inlines text anns (nonAnnotationContentEnd text rest) rest)) ∧
          length (flat_chars (annotated_inlines text anns (nonAnnotationContentEnd text rest) rest))
          = Z.to_nat (Z.of_nat (len text) - nonAnnotationContentEnd text rest)) as [Hr3 Hl3].
  { destruct rest as [|b rest]; [split; [by intros [|?]|cbn; lia]|].
    rewrite He. apply (IH ltac:(done) (first_end a)); [lia | done]. }
  split; [|rewrite !length_app; lia].
  apply rendered_app; [done|]. rewrite Hl1.
  apply rendered_app.
  - by replace (first_start a + Z.of_nat (Z.to_nat (first_end a - first_start a)))%Z
      with (first_end a) by lia.
  - rewrite Hl2. replace (_ + _ + _)%Z with (nonAnnotationContentEnd text rest) by lia. done.
Qed.

Lemma partial_default text anns :
  partialBlockToStyledText text anns = partialBlockToStyledText text (Some (default [] anns)).
Proof. by destruct anns. Qed.

Lemma sorted_inlines_spec text anns special :
  (∀ a, a ∈ special → a ∈ anns ∧ isLinkEmbedOrRange a = true) →
  special ≠ [] → forallb singleRange special = true →
  let sorted := js_sort (λ a b, first_start a - first_start b)%Z special in
  disjoint_ranges text 0 sorted →
  ∃ content,
    match sorted with
    | a :: _ => Ok (getSlicedContent text anns 0 (first_start a)
                    ++ annotated_inlines text anns (first_start a) sorted)
    | [] => Err "TypeError"
    end = Ok content ∧
    length (flat_chars content) = len text ∧ rendered text anns 0 (flat_chars content).
Proof.
  intros Hin Hne Hs sorted Hd.
  pose proof (js_sort_Permutation (λ a b, first_start a - first_start b)%Z special) as Hp.
  fold sorted in Hp. clearbody sorted.
  assert (Forall (λ a, a ∈ anns ∧ isLinkEmbedOrRange a = true ∧ singleRange a = true) sorted) as Hf.
  { apply list.Forall_forall. intros a. rewrite Hp. intros Ha.
    rewrite forallb_elem in Hs. destruct (Hin a Ha). auto. }
  destruct sorted as [|a sorted]; [by apply Permutation_nil in Hp; subst|].
  eexists. split; [done|].
  destruct (annotated_rendered text anns 0 (a :: sorted)) as [Hr Hl]; [done..|].
  cbn [hd] in Hr, Hl. destruct Hd as (? & _ & ?%disjoint_ranges_le).
  rewrite flat_chars_app, flat_sliced. split.
  - rewrite length_app, Hl, sliced_length by lia. lia.
  - apply rendered_app; [apply sliced_rendered; lia|].
    rewrite sliced_length by lia.
    by replace (0 + _)%Z with (first_start a) by lia.
Qed.

Lemma extractContent_facts content :
  (is_ok (extractContent content) = true ↔ forallb extractable content = true) ∧
  ∀ annotations text, extractContent content = Ok (annotations, text) →
    text = content_text content ∧ Forall (in_bounds (Z.of_nat (len text))) annotations.
Proof.
  assert (Forall (λ i, ∀ st, open_supported st → extractable i = true →
    ∃ st', extract_inline st i = Ok st' ∧ open_supported st') content) as Hok
    by (apply list.Forall_forall; eauto using extract_inline_ok).
  assert (Forall (λ i, ∀ st st', extract_inline st i = Ok st' → open_supported st' →
    open_supported st ∧ extractable i = true) content) as Hinv
    by (apply list.Forall_forall; eauto using extract_inline_inv).
  assert (Forall (λ i, ∀ st st', extract_wf st → extract_inline st i = Ok st' →
    extract_wf st' ∧ x_text st' = x_text st +:+ inline_text i) content) as Hwf
    by (apply list.Forall_forall; eauto using extract_inline_wf).
  unfold extractContent. split; [split|].
  - destruct (fold_result extract_inline extract_init content) as [st|] eqn:E; [|done].
    cbn. destruct (extract_finish st) eqn:F; [|done]. intros _.
    apply extract_finish_inv in F. by apply (extract_fold_inv content Hinv _ _ E F).
  - intros Hx. destruct (extract_fold_ok extract_init content Hok) as (st & -> & Ho); [done..|].
    cbn. by destruct (extract_finish_ok st Ho) as [r ->].
  - intros anns text H. inv_result.
    destruct (extract_fold_wf content Hwf _ _ extract_init_wf E) as [Hw Ht].
    apply extract_finish_wf in H as [Htext Hb]; [|done]. cbn in *. by subst.
Qed.
Lemma toHMInlineContent_rendered block text :
  let anns := default [] (b_annotations block) in
  let special := List.filter isLinkEmbedOrRange anns in
  b_text block = Some text → forallb singleRange special = true →
  disjoint_ranges text 0 (js_sort (λ a b, first_start a - first_start b)%Z special) →
  ∃ content, toHMInlineContent block = Ok content ∧
    length (flat_chars content) = len text ∧ rendered text anns 0 (flat_chars content).
Proof.
  intros anns special Ht Hs Hd. unfold toHMInlineContent. fold anns. fold special.
  destruct special as [|a0 l0] eqn:Hsp.
  - eexists. split; [done|]. rewrite Ht.
    rewrite partial_default. fold anns.
    rewrite flat_chars_texts by apply partial_texts. split.
    + by rewrite (Forall2_length _ _ _ (partialBlockToStyledText_chars _ _)), length_fmap,
        length_painted_cells.
    + intros i p [Hc Hst]%partial_styled_lookup.
      rewrite Z.add_0_l, Nat2Z.id. auto.
  - assert (special ≠ []) as Hne by (by rewrite Hsp). rewrite <- Hsp in *. clear Hsp a0 l0.
    rewrite Hs, Ht. cbn [negb]. apply sorted_inlines_spec; try done.
    intros a Ha. subst special. rewrite list_elem_of_In, List.filter_In in Ha.
    by rewrite list_elem_of_In.
Qed.

(** *** The content of a rendered block can be extracted *)

(** A text, a link of texts, or an embed: the shape [toHMInlineContent] produces. *)
Definition plain_inline (i : HMInlineContent) : Prop :=
  match i with
  | InlineLink _ _ content => forallb is_text content = true
  | _ => True
  end.

Lemma is_text_texts l :
  Forall (λ i, ∃ t st, i = InlineText t st ∧ t ≠ "") l → forallb is_text l = true.
Proof. intros H. apply forallb_elem. rewrite list.Forall_forall in H. intros i Hi.
  by destruct (H i Hi) as (t & st & -> & _). Qed.

Lemma styled_chars_text l :
  forallb is_text l = true → (styled_chars l).*1 = chars (content_text l).
Proof.
  induction l as [|[t st|?|?] l IH]; [done| |done..]. cbn [forallb is_text andb]. intros H.
  change (content_text (InlineText t st :: l)) with (t +:+ content_text l).
  rewrite styled_chars_cons, fmap_app, chars_app, IH, <- list_fmap_compose by done. f_equal.
  apply list_fmap_id.
Qed.

Lemma flat_chars_content l : Forall plain_inline l → (flat_chars l).*1 = chars (content_text l).
Proof.
  induction 1 as [|i l Hi _ IH]; [done|].
  change (flat_chars (i :: l)) with (flat_inline i ++ flat_chars l).
  change (content_text (i :: l)) with (inline_text i +:+ content_text l).
  rewrite fmap_app, IH, chars_app. f_equal. destruct i as [t st|ty h c|r]; [|by apply styled_chars_text|done].
  cbn. rewrite <- list_fmap_compose. apply list_fmap_id.
Qed.

Lemma rendered_text text anns content :
  Forall plain_inline content → length (flat_chars content) = len text →
  rendered text anns 0 (flat_chars content) → content_text content = text.
Proof.
  intros Hp Hl Hr. apply chars_inj. rewrite <- (flat_chars_content _ Hp).
  apply list_eq_same_length with (len text); [by rewrite length_chars|by rewrite length_fmap|].
  intros i x y Hi Hx Hy. apply list_lookup_fmap_Some in Hx as (p & -> & Hp').
  destruct (Hr _ _ Hp') as [Hc _]. rewrite Z.add_0_l, Nat2Z.id in Hc. congruence.
Qed.

Lemma annotationStyle_supported a s : s ∈ annotationStyle a → supported s = true.
Proof.
  unfold annotationStyle. repeat case_match; intros Hs; try by apply not_elem_of_nil in Hs.
  all: by apply list_elem_of_singleton in Hs as ->.
Qed.

Lemma style_runs_supported keys cur cst rest :
  Forall (λ st, ∀ s, s ∈ cell_styles st → supported s = true) (cst :: rest.*2) →
  forallb extractable (style_runs keys cur cst rest) = true.
Proof.
  revert cur cst. induction rest as [|[c st] rest IH]; intros cur cst H; cbn [style_runs].
  - apply list.Forall_cons in H as [H _]. case_match; [done|]. cbn. rewrite andb_true_r.
    by apply forallb_elem.
  - apply list.Forall_cons in H as [H Hr]. assert (H1 := Hr). apply list.Forall_cons in H1 as [_ H1].
    case_match; [by apply IH; constructor|].
    cbn [forallb extractable]. apply andb_true_intro. split; [by apply forallb_elem | by apply IH].
Qed.

Lemma partial_extractable text anns :
  forallb extractable (partialBlockToStyledText (Some text) (Some anns)) = true.
Proof.
  unfold partialBlockToStyledText.
  change (default [] (Some anns)) with anns. change (default "" (Some text)) with text.
  change (zip _ _) with (painted_cells text anns).
  pose proof (painted_cells_keys text anns) as Hk.
  destruct (painted_cells text anns) as [|[c st] rest]; [done|].
  apply style_runs_supported. eapply list.Forall_impl; [exact Hk|].
  intros st' Hst s Hs. apply Hst, elem_of_allStyleKeys in Hs as (a & _ & Hs).
  by eapply annotationStyle_supported.
Qed.

Lemma annotated_plain text anns start sorted :
  Forall plain_inline (annotated_inlines text anns start sorted) ∧
  (Forall (λ a, a_type a ≠ "range") sorted →
   forallb extractable (annotated_inlines text anns start sorted) = true).
Proof.
  revert start. induction sorted as [|a rest IH]; intros start; [by split|].
  cbn [annotated_inlines]. destruct (IH (nonAnnotationContentEnd text rest)) as [H1 H2].
  assert (∀ x y, Forall plain_inline (getSlicedContent text anns x y)) as Hs.
  { intros x y. eapply list.Forall_impl; [apply partial_texts|]. by intros ? (t & st & -> & _). }
  rewrite !Forall_app, !forallb_app. unfold annotation_inline. split.
  - split; [|by split]. repeat case_match; repeat constructor.
    apply is_text_texts, partial_texts.
  - intros [Ha Hr]%list.Forall_cons. rewrite (H2 Hr), andb_true_r.
    unfold getSlicedContent. rewrite (partial_extractable _ _), andb_true_r.
    apply String.eqb_neq in Ha. rewrite Ha.
    destruct (String.eqb (a_type a) "link") eqn:E; cbn [orb forallb extractable].
    + by rewrite E, partial_extractable.
    + by destruct (String.eqb (a_type a) "inline-embed").
Qed.

Lemma toHMInlineContent_plain block content :
  toHMInlineContent block = Ok content →
  Forall plain_inline content ∧
  (Forall (λ a, a_type a ≠ "range") (default [] (b_annotations block)) →
   forallb extractable content = true).
Proof.
  unfold toHMInlineContent. set (anns := default [] (b_annotations block)).
  assert (∀ t l, Forall plain_inline (partialBlockToStyledText t l)) as Hs.
  { intros t l. eapply list.Forall_impl; [apply partial_texts|]. by intros ? (x & st & -> & _). }
  assert (∀ t l, forallb extractable (partialBlockToStyledText t l) = true) as Hx.
  { intros t l. rewrite partial_default. destruct t as [t|]; [apply partial_extractable|].
    apply (partial_extractable "" (default [] l)). }
  destruct (List.filter isLinkEmbedOrRange anns) as [|a0 l0] eqn:E.
  - intros [= <-]. auto.
  - rewrite <- E. destruct (forallb singleRange _); [|done]. cbn [negb].
    destruct (b_text block) as [text|]; [|done].
    pose proof (js_sort_Permutation (λ a b, first_start a - first_start b)%Z
      (List.filter isLinkEmbedOrRange anns)) as Hp.
    destruct (js_sort _ _) as [|a sorted]; [done|]. intros [= <-].
    destruct (annotated_plain text anns (first_start a) (a :: sorted)) as [H1 H2]. split.
    + apply Forall_app. split; [apply Hs | done].
    + intros Hr. rewrite forallb_app. unfold getSlicedContent. rewrite Hx. apply H2.
      rewrite Hp. apply list.Forall_forall. intros b Hb.
      rewrite list_elem_of_In, List.filter_In, <- list_elem_of_In in Hb.
      rewrite list.Forall_forall in Hr. apply Hr, Hb.
Qed.

(** ** The properties *)

(** The runs of [partialBlockToStyledText] show the whole text, no run is
    empty, every character has exactly the styles that some annotation paints on
    it, and when every annotation is a style no two neighbouring runs have the
    same styles (so the loop joins all it can). *)
Theorem partialBlockToStyledText_spec text anns :
  let runs := partialBlockToStyledText (Some text) (Some anns) in
  content_text runs = text ∧
  Forall (λ i, ∃ t st, i = InlineText t st ∧ t ≠ "") runs ∧
  (∀ i p, styled_chars runs !! i = Some p →
     chars text !! i = Some p.1 ∧ ∀ s, s ∈ p.2 ↔ painted anns s (Z.of_nat i)) ∧
  ((∀ a, a ∈ anns → annotationStyle a ≠ []) → maximal_runs runs).
Proof.
  split; [apply partial_content_text|]. split; [apply partial_texts|].
  split; [intros i p; apply partial_styled_lookup | apply partial_maximal].
Qed.
Lemma partialBlockToStyledText_spec_witness :
  let anns := [mk_range "strong" None None 0 2; mk_range "emphasis" None None 1 3] in
  partialBlockToStyledText (Some "abcd") (Some anns) =
    [InlineText "a" [Bold]; InlineText "b" [Bold; Italic]; InlineText "c" [Italic];
     InlineText "d" []] ∧
  maximal_runs (partialBlockToStyledText (Some "abcd") (Some anns)).
Proof.
  split; [vm_compute; reflexivity|].
  apply (partialBlockToStyledText_spec "abcd"
    [mk_range "strong" None None 0 2; mk_range "emphasis" None None 1 3]).
  intros a [->|[->|[]%not_elem_of_nil]%elem_of_cons]%elem_of_cons; discriminate.
Defined.

(** [extractContent] returns exactly when the content holds no colour style
    and no link-shaped inline other than a link (a range inline, which
    [toHMInlineContent] itself produces, has no [text] and throws).  The text it
    returns is the text shown, and every annotation is one range inside it. *)
Theorem extractContent_spec content :
  (is_ok (extractContent content) = true ↔ forallb extractable content = true) ∧
  ∀ annotations text, extractContent content = Ok (annotations, text) →
    text = content_text content ∧ Forall (in_bounds (Z.of_nat (len text))) annotations.
Proof. apply extractContent_facts. Qed.
Lemma extractContent_spec_witness :
  let content := [InlineText "a" [Bold]; InlineEmbed None; InlineLink "link" None [InlineText "b" []]] in
  let annotations := [mk_range "inline-embed" None (Some []) 1 2; mk_range "link" None None 2 3;
                      mk_range "strong" None None 0 3] in
  "a b" = content_text content ∧ Forall (in_bounds (Z.of_nat (len "a b"))) annotations.
Proof.
  refine (proj2 (extractContent_spec
    [InlineText "a" [Bold]; InlineEmbed None; InlineLink "link" None [InlineText "b" []]]) _ _ _).
  vm_compute. reflexivity.
Defined.

(** What extracting text inlines gives renders to the same characters and styles. *)
Lemma extracted_text_styles content annotations text :
  forallb is_text content = true → extractContent content = Ok (annotations, text) →
  Forall2 same_char
    (styled_chars (partialBlockToStyledText (Some text) (Some annotations)))
    (styled_chars content).
Proof.
  intros Ht E. unfold extractContent in E. apply rbind_ok_inv in E as (st & E & F).
  pose proof (extract_fold_rel content _ _ _ Ht extract_init_rel E) as Hrel.
  destruct (extract_finish_painted _ _ _ Hrel F) as [Hc Hp]. cbn [fst snd app] in *.
  apply Forall2_same_length_lookup_2.
  - rewrite (Forall2_length _ _ _ (partialBlockToStyledText_chars _ _)), length_fmap,
      length_painted_cells, <- length_chars, Hc. apply length_fmap.
  - intros i p q Hi Hq. apply partial_styled_lookup in Hi as [Hpc Hps]. split.
    + rewrite Hc in Hpc. rewrite list_lookup_fmap in Hpc. rewrite Hq in Hpc. cbn in Hpc. congruence.
    + intros s. rewrite Hps. symmetry. by apply Hp.
Qed.

(** C5. Round trip on text: extracting text inlines (of the five styles the
    server knows) and rendering the result gives the same characters, each with
    the same styles. *)
Theorem styledText_roundtrip content :
  forallb is_text content = true → forallb extractable content = true →
  ∃ annotations text, extractContent content = Ok (annotations, text) ∧
    Forall2 same_char
      (styled_chars (partialBlockToStyledText (Some text) (Some annotations)))
      (styled_chars content).
Proof.
  intros Ht Hx. apply extractContent_facts in Hx as Hok.
  destruct (extractContent content) as [[anns text]|] eqn:E; [|done].
  exists anns, text. split; [done|]. by apply (extracted_text_styles content).
Qed.
Lemma styledText_roundtrip_witness :
  ∃ annotations text,
    extractContent [InlineText "ab" [Bold]; InlineText "c" [Code; Bold]; InlineText "d" []] =
      Ok (annotations, text) ∧
    Forall2 same_char
      (styled_chars (partialBlockToStyledText (Some text) (Some annotations)))
      (styled_chars [InlineText "ab" [Bold]; InlineText "c" [Code; Bold]; InlineText "d" []]).
Proof. apply styledText_roundtrip; vm_compute; reflexivity. Defined.

(** A block whose link, range and embed annotations have one range each, not
    empty, in the text and not overlapping (an embed over one space) renders to
    inline content that shows exactly the text, with every character outside the
    embeds in the styles that the annotations paint on it. *)
Theorem toHMInlineContent_spec block text :
  let anns := default [] (b_annotations block) in
  let special := List.filter isLinkEmbedOrRange anns in
  b_text block = Some text → forallb singleRange special = true →
  disjoint_ranges text 0 (js_sort (λ a b, first_start a - first_start b)%Z special) →
  ∃ content, toHMInlineContent block = Ok content ∧
    length (flat_chars content) = len text ∧ rendered text anns 0 (flat_chars content).
Proof. apply toHMInlineContent_rendered. Qed.
Lemma toHMInlineContent_spec_witness :
  let block := {| b_id := "b"; b_type := "paragraph"; b_text := Some "ab cd";
                  b_ref := None; b_attributes := None;
                  b_annotations := Some [mk_range "link" (Some "u") None 0 2;
                    mk_range "inline-embed" (Some "v") None 2 3;
                    mk_range "strong" None None 1 4] |} in
  ∃ content, toHMInlineContent block = Ok content ∧ length (flat_chars content) = len "ab cd" ∧
    rendered "ab cd" [mk_range "link" (Some "u") None 0 2;
      mk_range "inline-embed" (Some "v") None 2 3; mk_range "strong" None None 1 4]
      0 (flat_chars content).
Proof.
  apply (toHMInlineContent_spec
    {| b_id := "b"; b_type := "paragraph"; b_text := Some "ab cd";
       b_ref := None; b_attributes := None;
       b_annotations := Some [mk_range "link" (Some "u") None 0 2;
         mk_range "inline-embed" (Some "v") None 2 3; mk_range "strong" None None 1 4] |} "ab cd");
    [reflexivity | reflexivity |].
  vm_compute. repeat split; discriminate.
Defined.

(** A style that is open before a link is not closed at the link: with a
    bold text, an unstyled link and an unstyled text after it, the one bold
    annotation covers the link too, so the link comes back bold. *)
Theorem extractContent_style_leak t u v href :
  extractContent [InlineText t [Bold]; InlineLink "link" href [InlineText u []]; InlineText v []] =
    Ok ([mk_range "link" href None (Z.of_nat (len t)) (Z.of_nat (len t) + Z.of_nat (len u));
         mk_range "strong" None None 0 (Z.of_nat (len t) + Z.of_nat (len u))],
        t +:+ u +:+ v).
Proof.
  rewrite <- str_app_assoc. reflexivity.
Qed.
