(* ===== verification/BlockConvert.v ===== *)
(** * Server block trees to editor blocks and back

    [packages/shared/src/client/to-hm-block.ts] (lines 195-458),
    [packages/shared/src/client/from-hm-block.ts] (lines 116-302) and
    [packages/shared/src/utils/ipfs-cid.ts].  A conversion that throws returns
    [Err].  A block type without [content] in the editor has [content = []]
    here, and [new ServerBlock({..})] fills the fields it is not given with the
    protobuf defaults (empty string, no annotations, no attributes). *)
From S2P Require Import Prelude.
From S2P Require Import JsString.
From S2P Require Import JsObject.
From S2P Require Import BlockTypes.
From S2P Require Import StyledText.

(** ** [getCIDFromIPFSUrl] *)

Fixpoint take_line (s : string) : string :=
  match s with
  | EmptyString => EmptyString
  | String c s' => if is_newline c then EmptyString else String c (take_line s')
  end.

(** The capture of the leftmost match of [ipfs://] and one or more characters
    that are not line terminators. *)
Fixpoint match_ipfs (s : string) : option string :=
  match s with
  | EmptyString => None
  | String _ s' =>
      let rest := take_line (String.substring 7 (len s - 7) s) in
      if js_startsWith "ipfs://" s && truthy rest then Some rest else match_ipfs s'
  end.

Definition getCIDFromIPFSUrl (url : option string) : option string :=
  match url with
  | Some u => if truthy u then match_ipfs u else None
  | None => None
  end.

(** ** [toHMBlock] *)

Definition extractChildrenType (childrenType : option string) : string :=
  match childrenType with
  | Some c =>
      if String.eqb c "ol" then "ol"
      else if String.eqb c "ul" then "ul"
      else if String.eqb c "blockquote" then "blockquote"
      else "group"
  | None => "group"
  end.

Definition childrenTypeProp (block : HMBlock) : option string :=
  Some (extractChildrenType (block_attr block "childrenType")).

(** [level] is [opts.level], with 0 for an absent one (the code only reads
    [opts.level || 0] and [opts.level || 1]).  In the three functions below,
    [rec] is [toHMBlock(serverBlock.children, ..)] at the given level. *)
Definition missingBlockMsg : string := "Server BlockNode is missing Block data".

Definition props_childrenType (c : option string) : BlockProps :=
  {| p_url := None; p_name := None; p_width := None; p_size := None; p_view := None;
     p_text := None; p_language := None; p_textAlignment := None; p_level := None;
     p_childrenType := c; p_listLevel := None; p_start := None |}.

Definition toHMBlockParagraph (rec : N → result (list EditorBlock)) (block : option HMBlock)
    (level : N) : result EditorBlock :=
  match block with
  | None => Err missingBlockMsg
  | Some b =>
      let* content := toHMInlineContent b in
      let* children := rec level in
      Ok (EBlock (b_id b) "paragraph" (props_childrenType (childrenTypeProp b)) content children)
  end.

Definition toHMBlockHeading (rec : N → result (list EditorBlock)) (block : option HMBlock)
    (level : N) : result EditorBlock :=
  match block with
  | None => Err missingBlockMsg
  | Some b =>
      let* content := toHMInlineContent b in
      let* children := rec (level + 1)%N in
      Ok (EBlock (b_id b) "heading"
            {| p_url := None; p_name := None; p_width := None; p_size := None; p_view := None;
               p_text := None; p_language := None; p_textAlignment := None;
               p_level := Some (if (level =? 0)%N then 1%N else level);
               p_childrenType := None; p_listLevel := None; p_start := None |}
            content children)
  end.

Definition toHMBlockMath (rec : N → result (list EditorBlock)) (block : option HMBlock)
    (level : N) : result EditorBlock :=
  match block with
  | None => Err missingBlockMsg
  | Some b =>
      let* content := toHMInlineContent b in
      let* children := rec level in
      Ok (EBlock (b_id b) "math" (props_childrenType (childrenTypeProp b)) content children)
  end.

(** The props of the media blocks, from the fields each of them copies. *)
Definition media_props (b : HMBlock) (url name width size view language textAlignment : option string) :
    BlockProps :=
  {| p_url := url; p_name := name; p_width := width; p_size := size; p_view := view;
     p_text := None; p_language := language; p_textAlignment := textAlignment; p_level := None;
     p_childrenType := childrenTypeProp b; p_listLevel := None; p_start := None |}.

Definition is_nostr (b : HMBlock) : bool :=
  match block_attr b "subType" with
  | Some s => js_startsWith "nostr:" s
  | None => false
  end.

(** The first branches of the map callback, by block type; [Ok None] is
    [res === null]. *)
Definition toHMBlockMedia (b : HMBlock) : result (option EditorBlock) :=
  let attr := block_attr b in
  let left := Some "left" in
  if String.eqb (b_type b) "image" then
    let* content := toHMInlineContent b in
    Ok (Some (EBlock (b_id b) "image"
      (media_props b (b_ref b) (attr "name") (attr "width") None None None left) content []))
  else if String.eqb (b_type b) "file" then
    if is_nostr b then
      Ok (Some (EBlock (b_id b) "nostr"
        (media_props b (getCIDFromIPFSUrl (b_ref b)) (attr "name") None (attr "size") None None left)
        [] []))
    else
      Ok (Some (EBlock (b_id b) "file"
        (media_props b (b_ref b) (attr "name") None (attr "size") None None left) [] []))
  else if String.eqb (b_type b) "video" then
    let* content := toHMInlineContent b in
    Ok (Some (EBlock (b_id b) "video"
      (media_props b (b_ref b) (attr "name") (attr "width") None None None None) content []))
  else if String.eqb (b_type b) "web-embed" then
    Ok (Some (EBlock (b_id b) "web-embed"
      (media_props b (b_ref b) None None None None None None) [] []))
  else if String.eqb (b_type b) "embed" then
    Ok (Some (EBlock (b_id b) "embed"
      (media_props b (b_ref b) None None None (js_or (attr "view") (Some "content")) None left) [] []))
  else if String.eqb (b_type b) "codeBlock" then
    let* content := toHMInlineContent b in
    Ok (Some (EBlock (b_id b) "codeBlock"
      (media_props b None None None None None (attr "language") left) content []))
  else Ok None.

(** The assignments to [res.props] after the branches. *)
Definition override_props (block : option HMBlock) (p : BlockProps) : BlockProps :=
  let attr k := block ≫= λ b, or_null (block_attr b k) in
  {| p_url := p_url p; p_name := p_name p; p_width := p_width p; p_size := p_size p;
     p_view := p_view p; p_text := p_text p; p_language := p_language p;
     p_textAlignment := p_textAlignment p; p_level := p_level p;
     p_childrenType := js_or (attr "childrenType") (p_childrenType p);
     p_listLevel := js_or (attr "listLevel") (p_listLevel p);
     p_start := js_or (attr "start") (p_start p) |}.

Definition is_math (block : option HMBlock) : bool :=
  match block with
  | Some b => String.eqb (b_type b) "math" || String.eqb (b_type b) "equation"
  | None => false
  end.
Definition is_heading (block : option HMBlock) : bool :=
  match block with
  | Some b => String.eqb (b_type b) "heading"
  | None => false
  end.

(** The callback of [children.map].  The children are converted inside the
    paragraph, heading and math functions and once more for [res.children]. *)
Definition toHMBlockStep (rec : N → result (list EditorBlock)) (has_children : bool)
    (block : option HMBlock) (level : N) : result EditorBlock :=
  let* media := match block with Some b => toHMBlockMedia b | None => Ok None end in
  let* res :=
    match media with
    | Some r => Ok r
    | None =>
        if is_heading block then toHMBlockHeading rec block level
        else if is_math block then toHMBlockMath rec block level
        else toHMBlockParagraph rec block level
    end in
  let res := with_props res (override_props block (e_props res)) in
  if has_children then
    let* children := rec (level + 1)%N in
    Ok (EBlock (e_id res) (e_type res) (e_props res) (e_content res) children)
  else Ok res.

Fixpoint toHMBlockNode (level : N) (n : HMBlockNode) {struct n} : result EditorBlock :=
  match n with
  | BlockNode block children =>
      let rec (l : N) :=
        match children with
        | None => Ok []
        | Some cs => map_result (toHMBlockNode l) cs
        end in
      toHMBlockStep rec (match children with Some (_ :: _) => true | _ => false end) block level
  end.

(** [opts] absent is [{level: 1}]. *)
Definition toHMBlock (children : option (list HMBlockNode)) (opts : option N) :
    result (list EditorBlock) :=
  map_result (toHMBlockNode (default 1%N opts)) (default [] children).

(** ** [fromHMBlock] *)

(** [new ServerBlock({..})] *)
Definition new_ServerBlock (id type : string) (attributes : list (string * option string))
    (ref : option string) (content : list Annotation * string) : HMBlock :=
  {| b_id := id; b_type := type; b_text := Some content.2; b_ref := Some (default "" ref);
     b_annotations := Some content.1;
     b_attributes := Some (omap (λ e, (λ v, (e.1, v)) <$> e.2) attributes) |}.

Definition no_content : list Annotation * string := ([], "").

(** The [ref] of image, file, nostr and video blocks. *)
Definition ipfs_ref (url : option string) : option string :=
  match url with
  | Some u =>
      if truthy u && negb (js_startsWith "http" u) && negb (js_startsWith "ipfs://" u)
      then Some ("ipfs://" +:+ u) else Some u
  | None => None
  end.

Definition fromHMBlockRes (e : EditorBlock) : result (option HMBlock) :=
  let id := e_id e in
  let p := e_props e in
  let ty := e_type e in
  let with_content type attributes ref :=
    let* content := extractContent (e_content e) in
    Ok (Some (new_ServerBlock id type attributes ref content)) in
  let without_content type attributes ref :=
    Ok (Some (new_ServerBlock id type attributes ref no_content)) in
  if String.eqb ty "paragraph" then with_content "paragraph" [] None
  else if String.eqb ty "heading" then
    with_content "heading" [("level", num_to_str <$> p_level p)] None
  else if String.eqb ty "math" || String.eqb ty "equation" then with_content "math" [] None
  else if String.eqb ty "image" then
    with_content "image" [("name", p_name p); ("width", p_width p)] (ipfs_ref (p_url p))
  else if String.eqb ty "imagePlaceholder" then with_content "image" [("name", p_name p)] None
  else if String.eqb ty "file" then
    without_content "file" [("name", p_name p); ("size", p_size p)] (ipfs_ref (p_url p))
  else if String.eqb ty "nostr" then
    without_content "file"
      [("subType", Some "nostr:note"); ("name", p_name p); ("size", p_size p); ("text", p_text p)]
      (ipfs_ref (p_url p))
  else if String.eqb ty "web-embed" then without_content "web-embed" [] (p_url p)
  else if String.eqb ty "video" then
    without_content "video" [("name", p_name p); ("width", p_width p)] (ipfs_ref (p_url p))
  else if String.eqb ty "embed" then without_content "embed" [("view", p_view p)] (p_url p)
  else if String.eqb ty "codeBlock" then with_content "codeBlock" [("language", p_language p)] None
  else Ok None.

Definition set_attr (attributes : obj string) (k : string) (v : option string) : obj string :=
  match v with
  | Some v => oset attributes k v
  | None => odelete attributes k
  end.

(** [extractChildrenType] of from-hm-block.ts *)
Definition extractChildrenTypeAttr (b : HMBlock) (e : EditorBlock) : HMBlock :=
  let p := e_props e in
  let a0 := default [] (b_attributes b) in
  let a1 :=
    if otruthy (p_childrenType p)
    then set_attr (set_attr a0 "childrenType" (p_childrenType p)) "listLevel" (p_listLevel p)
    else a0 in
  let a2 := if otruthy (p_start p) then set_attr a1 "start" (p_start p) else a1 in
  {| b_id := b_id b; b_type := b_type b; b_text := b_text b; b_ref := b_ref b;
     b_annotations := b_annotations b; b_attributes := Some a2 |}.

(** [addLevelAttr], which no path calls. *)
Definition addLevelAttr (b : HMBlock) (e : EditorBlock) : HMBlock :=
  {| b_id := b_id b; b_type := b_type b; b_text := b_text b; b_ref := b_ref b;
     b_annotations := b_annotations b;
     b_attributes := Some (set_attr (default [] (b_attributes b)) "level"
                             (num_to_str <$> p_level (e_props e))) |}.

Definition fromHMBlock (e : EditorBlock) : result HMBlock :=
  if negb (truthy (e_id e)) then Err "this block has no id"
  else
    let* res := fromHMBlockRes e in
    match res with
    | Some b => Ok (extractChildrenTypeAttr b e)
    | None => Err "not implemented"
    end.
