(* ===== verification/BlockConvertFacts.v ===== *)
(** * Theorems about block conversion

    Shape, heading levels and totality of [toHMBlock], the errors of
    [fromHMBlock], and what survives a round trip through the editor. *)
From S2P Require Import Prelude.
From S2P Require Import JsString.
From S2P Require Import JsObject.
From S2P Require Import BlockTypes.
From S2P Require Import StyledText.
From S2P Require Import StyledTextFacts.
From S2P Require Import BlockConvert.

(** ** Specification *)

(** The editor type of a server block. *)
Definition editor_type (b : HMBlock) : string :=
  let ty := b_type b in
  if String.eqb ty "image" then "image"
  else if String.eqb ty "file" then if is_nostr b then "nostr" else "file"
  else if String.eqb ty "video" then "video"
  else if String.eqb ty "web-embed" then "web-embed"
  else if String.eqb ty "embed" then "embed"
  else if String.eqb ty "codeBlock" then "codeBlock"
  else if String.eqb ty "heading" then "heading"
  else if String.eqb ty "math" || String.eqb ty "equation" then "math"
  else "paragraph".

(** The inline content of a server block; files and embeds have none. *)
Definition block_content (b : HMBlock) : result (list HMInlineContent) :=
  let ty := b_type b in
  if String.eqb ty "file" || String.eqb ty "web-embed" || String.eqb ty "embed" then Ok []
  else toHMInlineContent b.

(** The [url] prop of the media blocks. *)
Definition editor_url (b : HMBlock) : option string :=
  let ty := b_type b in
  if String.eqb ty "image" then b_ref b
  else if String.eqb ty "file" then
    if is_nostr b then getCIDFromIPFSUrl (b_ref b) else b_ref b
  else if String.eqb ty "video" || String.eqb ty "web-embed" || String.eqb ty "embed" then b_ref b
  else None.

(** The [childrenType] prop: the attribute, else the default; a heading has no
    default. *)
Definition editor_childrenType (b : HMBlock) : option string :=
  js_or (or_null (block_attr b "childrenType"))
    (if String.eqb (editor_type b) "heading" then None else childrenTypeProp b).

(** The editor block [e] has the data of [b], at heading depth [level]. *)
Record same_block (level : N) (b : HMBlock) (e : EditorBlock) : Prop := {
  sb_id : e_id e = b_id b;
  sb_type : e_type e = editor_type b;
  sb_content : block_content b = Ok (e_content e);
  sb_level : editor_type b = "heading" → p_level (e_props e) = Some (N.max 1 level);
  sb_url : p_url (e_props e) = editor_url b;
  sb_childrenType : p_childrenType (e_props e) = editor_childrenType b;
}.

(** [converted lvl n e]: [e] is node [n] at heading depth [lvl]. *)
Inductive converted : N → HMBlockNode → EditorBlock → Prop :=
| converted_node lvl b children e :
    same_block lvl b e →
    Forall2 (converted (lvl + 1)) (default [] children) (e_children e) →
    converted lvl (BlockNode (Some b) children) e.

(** ** One node *)

(** The data of [b] before the last assignments to the props. *)
Definition raw_block (level : N) (b : HMBlock) (e : EditorBlock) : Prop :=
  e_id e = b_id b ∧ e_type e = editor_type b ∧ block_content b = Ok (e_content e) ∧
  (editor_type b = "heading" → p_level (e_props e) = Some (N.max 1 level)) ∧
  p_url (e_props e) = editor_url b ∧
  p_childrenType (e_props e) =
    (if String.eqb (editor_type b) "heading" then None else childrenTypeProp b).

Lemma not_media_type b :
  toHMBlockMedia b = Ok None →
  block_content b = toHMInlineContent b ∧ editor_url b = None ∧
  editor_type b = if is_heading (Some b) then "heading"
                  else if is_math (Some b) then "math" else "paragraph".
Proof.
  unfold toHMBlockMedia, editor_type, editor_url, block_content, is_heading, is_math.
  destruct (String.eqb (b_type b) "image"); [by destruct (toHMInlineContent b)|].
  destruct (String.eqb (b_type b) "file"); [by destruct (is_nostr b)|].
  destruct (String.eqb (b_type b) "video"); [by destruct (toHMInlineContent b)|].
  destruct (String.eqb (b_type b) "web-embed"); [done|].
  destruct (String.eqb (b_type b) "embed"); [done|].
  destruct (String.eqb (b_type b) "codeBlock"); [by destruct (toHMInlineContent b)|]. done.
Qed.

Lemma media_base b e level :
  toHMBlockMedia b = Ok (Some e) → e_children e = [] ∧ raw_block level b e.
Proof.
  unfold toHMBlockMedia, raw_block, editor_type, editor_url, block_content.
  destruct (String.eqb_spec (b_type b) "image") as [E|_];
    [rewrite ?E; cbn; intros; inv_result; by repeat split|].
  destruct (String.eqb_spec (b_type b) "file") as [E|_];
    [rewrite ?E; destruct (is_nostr b); cbn; intros; inv_result; by repeat split|].
  destruct (String.eqb_spec (b_type b) "video") as [E|_];
    [rewrite ?E; cbn; intros; inv_result; by repeat split|].
  destruct (String.eqb_spec (b_type b) "web-embed") as [E|_];
    [rewrite ?E; cbn; intros; inv_result; by repeat split|].
  destruct (String.eqb_spec (b_type b) "embed") as [E|_];
    [rewrite ?E; cbn; intros; inv_result; by repeat split|].
  destruct (String.eqb_spec (b_type b) "codeBlock") as [E|_];
    [rewrite ?E; cbn; intros; inv_result; by repeat split|].
  done.
Qed.

Lemma override_level block p : p_level (override_props block p) = p_level p.
Proof. done. Qed.

Lemma max_level level : (if (level =? 0)%N then 1%N else level) = N.max 1 level.
Proof. destruct (N.eqb_spec level 0); lia. Qed.

Lemma raw_override level b e :
  raw_block level b e → same_block level b (with_props e (override_props (Some b) (e_props e))).
Proof.
  intros (? & ? & ? & ? & ? & Hc). destruct e. split; try done.
  cbn in *. unfold editor_childrenType. by rewrite Hc.
Qed.

Lemma step_inv rec hc block level e :
  toHMBlockStep rec hc block level = Ok e →
  ∃ b, block = Some b ∧ same_block level b e ∧
    (if hc then rec (level + 1)%N = Ok (e_children e)
     else e_children e = [] ∨ ∃ l, rec l = Ok (e_children e)).
Proof.
  intros H. unfold toHMBlockStep in H.
  apply rbind_ok_inv in H as (media & Hm & H). apply rbind_ok_inv in H as (res & Hr & H).
  assert (∃ b, block = Some b ∧ raw_block level b res ∧
            (e_children res = [] ∨ ∃ l, rec l = Ok (e_children res))) as (b & -> & Hraw & Hch).
  { destruct block as [b|]; [|by inv_result]. exists b. split; [done|].
    destruct media as [r|].
    - injection Hr as <-. destruct (media_base b r level Hm) as [Hch Hraw]. auto.
    - destruct (not_media_type b Hm) as (Hc & Hu & Hty). unfold raw_block. rewrite Hc, Hty, Hu.
      destruct (is_heading (Some b)); [|destruct (is_math (Some b))]; cbn in Hr; inv_result;
        repeat split; try done; cbn; eauto.
      intros _. by rewrite max_level. }
  exists b. split; [done|]. apply raw_override in Hraw. destruct hc; inv_result; destruct res; [|auto].
  split; [by destruct Hraw | done].
Qed.

Lemma media_total b : is_ok (block_content b) = true → is_ok (toHMBlockMedia b) = true.
Proof.
  unfold toHMBlockMedia, block_content.
  destruct (String.eqb_spec (b_type b) "image") as [E|_];
    [rewrite ?E; cbn; by destruct (toHMInlineContent b)|].
  destruct (String.eqb (b_type b) "file"); [by destruct (is_nostr b)|].
  destruct (String.eqb_spec (b_type b) "video") as [E|_];
    [rewrite ?E; cbn; by destruct (toHMInlineContent b)|].
  destruct (String.eqb (b_type b) "web-embed"); [done|].
  destruct (String.eqb (b_type b) "embed"); [done|].
  destruct (String.eqb (b_type b) "codeBlock"); [cbn; by destruct (toHMInlineContent b)|done].
Qed.

Lemma step_total rec hc b level :
  is_ok (block_content b) = true → (∀ l, is_ok (rec l) = true) →
  is_ok (toHMBlockStep rec hc (Some b) level) = true.
Proof.
  intros Hc Hrec. unfold toHMBlockStep.
  destruct (toHMBlockMedia b) as [media|m] eqn:Hm.
  - cbn. destruct media as [r|].
    + cbn. destruct hc; [|done]. pose proof (Hrec (level + 1)%N). by destruct (rec (level + 1)%N).
    + destruct (not_media_type b Hm) as (Hc' & _). rewrite Hc' in Hc. unfold toHMBlockHeading,
        toHMBlockMath, toHMBlockParagraph.
      destruct (toHMInlineContent b); [|done]. pose proof (Hrec level) as H0.
      pose proof (Hrec (level + 1)%N) as H1.
      destruct (rec level), (rec (level + 1)%N); try done.
      by destruct (String.eqb (b_type b) "heading"), (String.eqb (b_type b) "math"),
        (String.eqb (b_type b) "equation"), hc.
  - pose proof (media_total b Hc) as Hok. by rewrite Hm in Hok.
Qed.

(** ** Trees *)

(** Every node of the tree has a block whose content renders. *)
Definition renderable (ob : option HMBlock) : Prop :=
  ∃ b, ob = Some b ∧ is_ok (block_content b) = true.

Lemma elem_of_preorder_list b l : b ∈ preorder_list l ↔ ∃ n, n ∈ l ∧ b ∈ preorder n.
Proof.
  unfold preorder_list. rewrite list_elem_of_In, in_concat. setoid_rewrite <- list_elem_of_In.
  setoid_rewrite list_elem_of_fmap. naive_solver.
Qed.

Lemma toHMBlockNode_total n level :
  Forall renderable (preorder n) → is_ok (toHMBlockNode level n) = true.
Proof.
  revert level. induction n as [b c IH] using node_tree_ind. intros level.
  rewrite preorder_eq, list.Forall_cons. intros [(b' & -> & Hb) Hc].
  cbn [toHMBlockNode]. apply step_total; [done|]. intros l.
  destruct c as [cs|]; [|done]. cbn in *.
  destruct (map_result_total (toHMBlockNode l) cs) as [es ->]; [|done].
  intros n Hn. rewrite list.Forall_forall in IH. apply IH; [done|].
  rewrite list.Forall_forall in *. intros ob Hob. apply Hc, elem_of_preorder_list. eauto.
Qed.

Lemma toHMBlockNode_converted n level e :
  toHMBlockNode level n = Ok e → converted level n e.
Proof.
  revert level e. induction n as [b c IH] using node_tree_ind. intros level e H.
  cbn [toHMBlockNode] in H. apply step_inv in H as (b' & -> & Hb & Hch).
  constructor; [done|]. destruct c as [[|n cs]|]; cbn [default] in *.
  - destruct Hch as [->|[l Hl]]; [constructor|]. cbn in Hl. injection Hl as <-. constructor.
  - change (id (n :: cs)) with (n :: cs) in *.
    apply map_result_ok in Hch. rewrite list.Forall_forall in IH.
    apply Forall2_same_length_lookup in Hch as [Hlen Hl].
    apply Forall2_same_length_lookup. split; [done|]. intros i x y Hx Hy.
    apply IH; [by eapply list_elem_of_lookup_2 | by eapply Hl].
  - destruct Hch as [->|[l Hl]]; [constructor|]. injection Hl as <-. constructor.
Qed.

Lemma converted_renderable n level e : converted level n e → Forall renderable (preorder n).
Proof.
  revert level e. induction n as [b c IH] using node_tree_ind. intros level e H.
  inversion_clear H as [? b' ? ? Hb Hch].
  rewrite preorder_eq. constructor; [exists b'; by rewrite (sb_content _ _ _ Hb)|].
  apply list.Forall_forall. intros ob (n & Hn & Hob)%elem_of_preorder_list.
  rewrite list.Forall_forall in IH.
  apply list_elem_of_lookup in Hn as [i Hn].
  destruct (Forall2_lookup_l _ _ _ _ _ Hch Hn) as (e' & _ & He).
  specialize (IH n ltac:(by eapply list_elem_of_lookup_2) _ _ He).
  rewrite list.Forall_forall in IH. auto.
Qed.

(** The ids of an editor tree, in document order. *)
Fixpoint eblock_ids (e : EditorBlock) : list string :=
  match e with EBlock i _ _ _ l => i :: concat (eblock_ids <$> l) end.

Lemma converted_ids n level e :
  converted level n e → eblock_ids e = (λ ob, default "" (b_id <$> ob)) <$> preorder n.
Proof.
  revert level e. induction n as [b c IH] using node_tree_ind. intros level e H.
  inversion_clear H as [? b' ? ? [Hi _ _ _ _ _] Hch]. destruct e as [i ty p ct l].
  rewrite preorder_eq. cbn [e_id e_children eblock_ids fmap list_fmap] in *. subst i. f_equal. unfold preorder_list. clear -IH Hch.
  induction Hch as [|n e ns es Hn _ IH']; [done|]. cbn.
  apply list.Forall_cons in IH as [IHn IH]. rewrite fmap_app, (IHn _ _ Hn), IH' by done. done.
Qed.

(** ** From the editor *)

(** The server type of an editor type, and whether its content is extracted. *)
Definition server_type (ty : string) : option string :=
  if String.eqb ty "paragraph" then Some "paragraph"
  else if String.eqb ty "heading" then Some "heading"
  else if String.eqb ty "math" || String.eqb ty "equation" then Some "math"
  else if String.eqb ty "image" then Some "image"
  else if String.eqb ty "imagePlaceholder" then Some "image"
  else if String.eqb ty "file" then Some "file"
  else if String.eqb ty "nostr" then Some "file"
  else if String.eqb ty "web-embed" then Some "web-embed"
  else if String.eqb ty "video" then Some "video"
  else if String.eqb ty "embed" then Some "embed"
  else if String.eqb ty "codeBlock" then Some "codeBlock"
  else None.
Definition extracts_content (ty : string) : bool :=
  negb (String.eqb ty "file" || String.eqb ty "nostr" || String.eqb ty "web-embed"
        || String.eqb ty "video" || String.eqb ty "embed").

(** The [ref] that is sent. *)
Definition server_ref (e : EditorBlock) : option string :=
  let ty := e_type e in
  if String.eqb ty "image" || String.eqb ty "file" || String.eqb ty "nostr" || String.eqb ty "video"
  then ipfs_ref (p_url (e_props e))
  else if String.eqb ty "web-embed" || String.eqb ty "embed" then p_url (e_props e)
  else None.

(** One proof step for one value of the block type. *)
Ltac type_case e ty :=
  let E := fresh "E" in
  destruct (String.eqb_spec (e_type e) ty) as [E|_];
  [rewrite ?E; eexists; split; [reflexivity | intros v; set_solver] |].

Lemma fromHMBlockRes_spec e :
  match server_type (e_type e) with
  | None => fromHMBlockRes e = Ok None
  | Some ty' => ∃ attrs,
      fromHMBlockRes e =
        (let* c := if extracts_content (e_type e) then extractContent (e_content e)
                   else Ok no_content in
         Ok (Some (new_ServerBlock (e_id e) ty' attrs (server_ref e) c))) ∧
      ∀ v, ("childrenType", v) ∉ attrs
  end.
Proof.
  unfold fromHMBlockRes, server_type, extracts_content, server_ref.
  type_case e "paragraph". type_case e "heading".
  destruct (String.eqb_spec (e_type e) "math") as [E|_];
    [rewrite ?E; eexists; split; [reflexivity | intros v; set_solver]|].
  destruct (String.eqb_spec (e_type e) "equation") as [E|_];
    [rewrite ?E; eexists; split; [reflexivity | intros v; set_solver]|].
  cbn [orb].
  type_case e "image". type_case e "imagePlaceholder". type_case e "file". type_case e "nostr".
  type_case e "web-embed". type_case e "video". type_case e "embed". type_case e "codeBlock".
  done.
Qed.

Lemma oget_omap_None (attrs : list (string * option string)) k :
  (∀ v, (k, v) ∉ attrs) →
  oget (omap (λ e, (λ v, (e.1, v)) <$> e.2) attrs) k = None.
Proof.
  intros H. apply oget_None. intros Hk. apply list_elem_of_fmap in Hk as ([k' w] & -> & Hk).
  apply list_elem_of_omap in Hk as ([k2 [v|]] & Hin & Hv); [|done]. cbn in Hv. simplify_eq.
  by eapply H.
Qed.

Lemma oget_set_attr o k v : oget (set_attr o k v) k = v.
Proof. destruct v; [apply oget_oset_eq | apply oget_odelete_eq]. Qed.
Lemma oget_set_attr_ne o k k' v : k ≠ k' → oget (set_attr o k v) k' = oget o k'.
Proof. intros ?. destruct v; [by apply oget_oset_ne | by apply oget_odelete_ne]. Qed.

Lemma childrenType_attr b e :
  block_attr b "childrenType" = None →
  block_attr (extractChildrenTypeAttr b e) "childrenType" = or_null (p_childrenType (e_props e)).
Proof.
  intros Hb. assert (oget (default [] (b_attributes b)) "childrenType" = None) as Hb'.
  { unfold block_attr in Hb. by destruct (b_attributes b). }
  unfold block_attr, extractChildrenTypeAttr. cbn.
  assert (∀ o v, oget (set_attr o "start" v) "childrenType" = oget o "childrenType") as Hs
    by (intros; by apply oget_set_attr_ne).
  unfold or_null, js_or.
  destruct (otruthy (p_start (e_props e))); rewrite ?Hs;
    destruct (otruthy (p_childrenType (e_props e))); try done;
    rewrite oget_set_attr_ne, oget_set_attr by done; done.
Qed.

(** ** Round trip *)

Lemma ipfs_ref_kept r :
  r = "" ∨ js_startsWith "http" r = true ∨ js_startsWith "ipfs://" r = true →
  ipfs_ref (Some r) = Some r.
Proof.
  unfold ipfs_ref. intros [->|[->| ->]]; [done|by rewrite andb_false_r|by rewrite andb_false_r].
Qed.

(** A reference that a round trip keeps: an http or ipfs URL; for a nostr note,
    the ipfs URL of a CID. *)
Definition ref_kept (b : HMBlock) : Prop :=
  let r := default "" (b_ref b) in
  if String.eqb (b_type b) "file" && is_nostr b then
    r = "" ∨ ∃ cid, r = "ipfs://" +:+ cid ∧ cid ≠ "" ∧ take_line cid = cid ∧
                    js_startsWith "http" cid = false ∧ js_startsWith "ipfs://" cid = false
  else
    r = "" ∨ js_startsWith "http" r = true ∨ js_startsWith "ipfs://" r = true.

Lemma match_ipfs_cid cid :
  cid ≠ "" → take_line cid = cid → match_ipfs ("ipfs://" +:+ cid) = Some cid.
Proof.
  intros Hne Hl. change ("ipfs://" +:+ cid) with (String "i" ("pfs://" +:+ cid)).
  cbn [match_ipfs]. change (String "i" ("pfs://" +:+ cid)) with ("ipfs://" +:+ cid).
  assert (String.substring 7 (len ("ipfs://" +:+ cid) - 7) ("ipfs://" +:+ cid) = cid) as ->.
  { rewrite len_app. change 7 with (len "ipfs://") at 1. rewrite Nat.add_comm.
    rewrite Nat.add_sub. apply substring_skip. }
  unfold js_startsWith. rewrite prefix_app, Hl. apply truthy_spec in Hne. by rewrite Hne.
Qed.

(** The reference after a round trip. *)
Definition keeps_ref (b : HMBlock) : bool :=
  let ty := b_type b in
  String.eqb ty "image" || String.eqb ty "file" || String.eqb ty "video"
  || String.eqb ty "web-embed" || String.eqb ty "embed".

Lemma server_ref_kept level b e :
  same_block level b e → ref_kept b →
  default "" (server_ref e) = if keeps_ref b then default "" (b_ref b) else "".
Proof.
  intros Hb Hr. unfold server_ref, keeps_ref. rewrite (sb_type _ _ _ Hb), (sb_url _ _ _ Hb).
  unfold ref_kept in Hr. unfold editor_type, editor_url.
  assert (∀ r, r = "" ∨ js_startsWith "http" r = true ∨ js_startsWith "ipfs://" r = true →
               default "" (ipfs_ref (Some r)) = r) as Hk by (intros; by rewrite ipfs_ref_kept).
  destruct (String.eqb_spec (b_type b) "image") as [E|_].
  { rewrite E in Hr. cbn. destruct (b_ref b); [by apply Hk | done]. }
  destruct (String.eqb_spec (b_type b) "file") as [E|_].
  { cbn [andb] in Hr. destruct (is_nostr b); cbn; [|destruct (b_ref b); [by apply Hk | done]].
    destruct (b_ref b) as [r|]; [|done]. change (default "" (Some r)) with r in *. destruct Hr as [->|(cid & -> & Hne & Hl & Hh & Hi)]; [done|].
    unfold getCIDFromIPFSUrl. change (truthy ("ipfs://" +:+ cid)) with true. cbn [default]. rewrite match_ipfs_cid by done.
    unfold ipfs_ref. apply truthy_spec in Hne. by rewrite Hne, Hh, Hi. }
  cbn [andb] in Hr.
  destruct (String.eqb (b_type b) "video"); [cbn; destruct (b_ref b); [by apply Hk | done]|].
  destruct (String.eqb (b_type b) "web-embed"); [done|].
  destruct (String.eqb (b_type b) "embed"); [done|].
  destruct (String.eqb (b_type b) "codeBlock"); [done|].
  destruct (String.eqb (b_type b) "heading"); [done|]. 
  by destruct (String.eqb (b_type b) "math"), (String.eqb (b_type b) "equation").
Qed.

(** The type after a round trip, and whether the text comes back. *)
Definition canonical_type (b : HMBlock) : string :=
  default "" (server_type (editor_type b)).

Lemma editor_type_known b : server_type (editor_type b) = Some (canonical_type b).
Proof. unfold canonical_type, editor_type. by repeat case_match. Qed.

Lemma extracts_renders b : extracts_content (editor_type b) = true → block_content b = toHMInlineContent b.
Proof.
  unfold editor_type, block_content.
  destruct (String.eqb_spec (b_type b) "image") as [E|_]; [by rewrite ?E|].
  destruct (String.eqb_spec (b_type b) "file") as [_|_]; [by destruct (is_nostr b)|].
  destruct (String.eqb_spec (b_type b) "video") as [_|_]; [done|].
  destruct (String.eqb_spec (b_type b) "web-embed") as [_|_]; [done|].
  by destruct (String.eqb_spec (b_type b) "embed") as [_|_].
Qed.

(** Annotations that survive: no range annotation, one range per link and embed,
    in the text, not overlapping. *)
Record annotations_kept (b : HMBlock) (text : string) : Prop := {
  ak_single : forallb singleRange
                (List.filter isLinkEmbedOrRange (default [] (b_annotations b))) = true;
  ak_disjoint : disjoint_ranges text 0
                  (js_sort (λ x y, first_start x - first_start y)%Z
                     (List.filter isLinkEmbedOrRange (default [] (b_annotations b))));
  ak_no_range : Forall (λ a, a_type a ≠ "range") (default [] (b_annotations b));
}.

Lemma kept_content b text content :
  b_text b = Some text → annotations_kept b text → toHMInlineContent b = Ok content →
  ∃ anns, extractContent content = Ok (anns, text).
Proof.
  intros Ht [Hs Hd Hr] Hc.
  destruct (toHMInlineContent_rendered b text Ht Hs Hd) as (content' & Hc' & Hlen & Hren).
  rewrite Hc in Hc'. injection Hc' as <-.
  destruct (toHMInlineContent_plain b content Hc) as [Hp Hx].
  destruct (extractContent_facts content) as [Hok Hspec].
  destruct (extractContent content) as [[anns t]|] eqn:E; [|discriminate (proj2 Hok (Hx Hr))].
  exists anns. destruct (Hspec _ _ eq_refl) as [-> _]. do 2 f_equal.
  by eapply rendered_text.
Qed.

(** ** The properties *)

(** C27. [toHMBlock] converts a forest exactly when every node has a block whose
    content renders, and then keeps the shape of the forest: each editor block
    has the id, the type, the content, the url and the children type of its
    server block, a heading's level is its depth (starting at 1), and the ids in
    document order are the same. *)
Theorem toHMBlock_spec children opts :
  let nodes := default [] children in
  let level := default 1%N opts in
  (is_ok (toHMBlock children opts) = true ↔ Forall renderable (preorder_list nodes)) ∧
  ∀ blocks, toHMBlock children opts = Ok blocks →
    Forall2 (converted level) nodes blocks ∧
    concat (eblock_ids <$> blocks) = (λ ob, default "" (b_id <$> ob)) <$> preorder_list nodes.
Proof.
  intros nodes level. unfold toHMBlock. fold nodes. fold level.
  assert (∀ blocks, map_result (toHMBlockNode level) nodes = Ok blocks →
            Forall2 (converted level) nodes blocks) as Hconv.
  { intros blocks H%map_result_ok. eapply Forall2_impl; [exact H|].
    intros n e. apply toHMBlockNode_converted. }
  split; [split|].
  - intros Hok. destruct (map_result _ nodes) as [blocks|]; [|done].
    specialize (Hconv blocks eq_refl). apply list.Forall_forall.
    intros ob (n & Hn & Hob)%elem_of_preorder_list.
    apply list_elem_of_lookup in Hn as [i Hn].
    destruct (Forall2_lookup_l _ _ _ _ _ Hconv Hn) as (e & _ & He).
    apply converted_renderable in He. rewrite list.Forall_forall in He. auto.
  - intros Hr. destruct (map_result_total (toHMBlockNode level) nodes) as [es ->]; [|done].
    intros n Hn. apply toHMBlockNode_total, list.Forall_forall. intros ob Hob.
    rewrite list.Forall_forall in Hr. apply Hr, elem_of_preorder_list. eauto.
  - intros blocks H. specialize (Hconv blocks H). split; [done|]. clear H.
    unfold preorder_list. induction Hconv as [|n e ns es Hn _ IH]; [done|]. cbn.
    by rewrite fmap_app, IH, (converted_ids _ _ _ Hn).
Qed.
Lemma toHMBlock_spec_witness :
  let blk id ty text :=
    {| b_id := id; b_type := ty; b_text := Some text; b_ref := None; b_annotations := None;
       b_attributes := None |} in
  let nodes := [BlockNode (Some (blk "h" "heading" "Title"))
                  (Some [BlockNode (Some (blk "i" "heading" "Sub")) None;
                         BlockNode (Some (blk "p" "paragraph" "text")) None])] in
  ∃ blocks, toHMBlock (Some nodes) None = Ok blocks ∧
    Forall2 (converted 1) nodes blocks ∧ concat (eblock_ids <$> blocks) = ["h"; "i"; "p"].
Proof.
  eexists. split; [vm_compute; reflexivity|].
  exact (proj2 (toHMBlock_spec (Some
    [BlockNode (Some {| b_id := "h"; b_type := "heading"; b_text := Some "Title"; b_ref := None;
                        b_annotations := None; b_attributes := None |})
       (Some [BlockNode (Some {| b_id := "i"; b_type := "heading"; b_text := Some "Sub";
                b_ref := None; b_annotations := None; b_attributes := None |}) None;
              BlockNode (Some {| b_id := "p"; b_type := "paragraph"; b_text := Some "text";
                b_ref := None; b_annotations := None; b_attributes := None |}) None])]) None)
    _ eq_refl).
Defined.

(** [fromHMBlock] fails exactly on a block with no id, on a type it does not
    implement, and on content it cannot extract; the first two with their own
    messages. *)
Theorem fromHMBlock_errors e :
  (e_id e = "" → fromHMBlock e = Err "this block has no id") ∧
  (e_id e ≠ "" → server_type (e_type e) = None → fromHMBlock e = Err "not implemented") ∧
  (is_ok (fromHMBlock e) = true ↔
     e_id e ≠ "" ∧ is_Some (server_type (e_type e)) ∧
     (extracts_content (e_type e) = true → forallb extractable (e_content e) = true)).
Proof.
  assert (∀ c, is_ok (extractContent c) = true ↔ forallb extractable c = true) as Hx
    by (intros; apply extractContent_facts).
  pose proof (fromHMBlockRes_spec e) as Hs. unfold fromHMBlock, truthy.
  destruct (String.eqb_spec (e_id e) "") as [Hid|Hid]; cbn [negb]; [naive_solver|].
  destruct (server_type (e_type e)) as [ty|].
  - destruct Hs as (attrs & -> & _). specialize (Hx (e_content e)).
    destruct (extracts_content (e_type e)); cbn; [|naive_solver].
    destruct (extractContent (e_content e)); cbn in *; naive_solver.
  - rewrite Hs. cbn. split; [naive_solver|]. split; [done|]. split; [done|]. by intros (_ & [? ?] & _).
Qed.
Lemma fromHMBlock_errors_witness :
  let e := EBlock "b" "heading" no_props [InlineText "x" [Bold]] [] in
  is_ok (fromHMBlock e) = true ∧
  fromHMBlock (EBlock "" "heading" no_props [] []) = Err "this block has no id" ∧
  fromHMBlock (EBlock "b" "table" no_props [] []) = Err "not implemented".
Proof.
  split; [|split].
  - apply (fromHMBlock_errors (EBlock "b" "heading" no_props [InlineText "x" [Bold]] [])).
    split; [discriminate|]. split; [by eexists | reflexivity].
  - by apply (fromHMBlock_errors (EBlock "" "heading" no_props [] [])).
  - by apply (fromHMBlock_errors (EBlock "b" "table" no_props [] [])).
Defined.

(** The characters of a text with their styles, as the annotations paint them. *)
Definition shown (b : HMBlock) : list (ascii * HMStyles) :=
  styled_chars (partialBlockToStyledText (b_text b) (b_annotations b)).
Lemma kept_styles b text content anns :
  b_text b = Some text → List.filter isLinkEmbedOrRange (default [] (b_annotations b)) = [] →
  toHMInlineContent b = Ok content → extractContent content = Ok (anns, text) →
  Forall2 same_char (styled_chars (partialBlockToStyledText (Some text) (Some anns))) (shown b).
Proof.
  intros Ht Hs Hc Hx. unfold toHMInlineContent in Hc. rewrite Hs in Hc. injection Hc as <-.
  apply extracted_text_styles; [|done]. apply forallb_forall. intros x Hx'%list_elem_of_In.
  pose proof (partial_texts (b_text b) (b_annotations b)) as H. rewrite list.Forall_forall in H.
  by destruct (H x Hx') as (t & st & -> & _).
Qed.

