(* ===== verification/DraftDiff.v ===== *)
(** * Saving a draft: the diff against the last known blocks

    [packages/app/models/documents.ts]: [createBlocksMap], [compareBlocksWithMap],
    [compareDraftWithMap], [extractDeletes], [isBlocksEqual], [updateDraft] and
    [restoreDraft]; and [packages/app/models/editor-utils.ts]: [getBlockGroup].
    A save compares the editor's blocks with the map of the last loaded draft and
    sends the moves, replacements and deletions to the server. *)
From S2P Require Import Prelude.
From S2P Require Import JsString.
From S2P Require Import JsObject.
From S2P Require Import BlockTypes.
From S2P Require Import StyledText.
From S2P Require Import BlockConvert.

(** ** Data *)

Record BlocksMapItem : Type := {
  m_parent : string;
  m_left : string;
  m_block : HMBlock;
}.
Abbreviation BlocksMap := (obj BlocksMapItem).

(** [new DocumentChange({op: {case, value}})] *)
Inductive DocumentChange : Type :=
| MoveBlock (blockId leftSibling parent : string)
| ReplaceBlock (block : HMBlock)
| DeleteBlock (blockId : string)
| SetTitle (title : string).

(** lodash's [_.isEqual] on annotations, and what is relied on: on plain data it
    is structural equality. *)
Class Lodash : Type := {
  isEqual : option (list Annotation) → option (list Annotation) → bool;
}.
Class LodashLaws `{Lodash} : Prop := {
  isEqual_spec a b : isEqual a b = true ↔ a = b;
}.

(** ** The block group of an editor block *)

(** The parts of a ProseMirror node that [getBlockGroup] reads. *)
Inductive PMNode : Type :=
| PM (name : string) (id listType listLevel : option string) (start : option N)
    (content : list PMNode).
Definition pm_id (n : PMNode) : option string := match n with PM _ i _ _ _ _ => i end.

Record BlockGroup : Type := {
  g_type : string;
  g_start : option N;
  g_listLevel : option string;
}.

Definition group_of_node (n : PMNode) : option BlockGroup :=
  match n with
  | PM name _ listType listLevel start _ =>
      if otruthy listType && String.eqb name "blockGroup"
      then Some {| g_type := default "" listType; g_start := start; g_listLevel := listLevel |}
      else None
  end.

(** [node.descendants(..)] of the inner callback: it does not descend into a
    group it takes, and a later group replaces an earlier one. *)
Fixpoint find_group (n : PMNode) (group : option BlockGroup) : option BlockGroup :=
  match n with
  | PM _ _ _ _ _ content =>
      foldl (λ g c,
        match group_of_node c with
        | Some g' => Some g'
        | None => find_group c g
        end) group content
  end.

(** The outer [descendants]: nothing is visited once a group is found. *)
Fixpoint block_group_go (id : string) (n : PMNode) (group : option BlockGroup) :
    option BlockGroup :=
  match n with
  | PM _ _ _ _ _ content =>
      foldl (λ g c,
        match g with
        | Some _ => g
        | None =>
            block_group_go id c
              (if bool_decide (pm_id c = Some id) then find_group c None else None)
        end) group content
  end.

(** [editor] is [tiptap.state.doc.firstChild], absent without a tiptap editor. *)
Definition getBlockGroup (editor : option PMNode) (id : string) : option BlockGroup :=
  editor ≫= λ doc, block_group_go id doc None.

(** ** The map of the last known blocks *)

Definition node_id (n : HMBlockNode) : string :=
  match node_block n with
  | Some b => b_id b
  | None => ""
  end.
Definition prev_node_id (prev : option HMBlockNode) : string :=
  match prev with
  | Some n => node_id n
  | None => ""
  end.

(** One step of the [forEach]: [result] after the block and its children. *)
Fixpoint blocksMap_node (parentId left : string) (n : HMBlockNode) (res : BlocksMap) {struct n} :
    BlocksMap :=
  match n with
  | BlockNode (Some b) children =>
      if truthy (b_id b) then
        let res := oset res (b_id b) {| m_parent := parentId; m_left := left; m_block := b |} in
        match children with
        | Some (c :: cs) =>
            ospread res
              (fold_prev (λ prev n' s, blocksMap_node (b_id b) (prev_node_id prev) n' s)
                 None (c :: cs) [])
        | _ => res
        end
      else res
  | BlockNode None _ => res
  end.

Definition createBlocksMap (blockNodes : list HMBlockNode) (parentId : string) : BlocksMap :=
  fold_prev (λ prev n s, blocksMap_node parentId (prev_node_id prev) n s) None blockNodes [].

(** ** Equality of blocks *)

Definition attr_eq (k : string) (a1 a2 : obj string) : bool := bool_decide (oget a1 k = oget a2 k).

(** The attributes that are compared; [name], [listLevel] and [text] are not. *)
Definition compared_attributes : list string :=
  ["childrenType"; "start"; "level"; "url"; "size"; "ref"; "language"; "view"; "width"].

Definition isBlockAttributesEqual (b1 b2 : HMBlock) : bool :=
  match b_attributes b1, b_attributes b2 with
  | None, None => true
  | Some a1, Some a2 => forallb (λ k, attr_eq k a1 a2) compared_attributes
  | _, _ => false
  end.

Definition isBlocksEqual `{Lodash} (b1 b2 : HMBlock) : bool :=
  bool_decide (b_text b1 = b_text b2) && bool_decide (b_ref b1 = b_ref b2)
  && isEqual (b_annotations b1) (b_annotations b2)
  && isBlockAttributesEqual b1 b2 && String.eqb (b_type b1) (b_type b2).

(** ** The changes of one block *)

Definition move_changes (prev : BlocksMapItem) (id left parentId : string) : list DocumentChange :=
  if negb (String.eqb (m_left prev) left) || negb (String.eqb (m_parent prev) parentId)
  then [MoveBlock id left parentId] else [].

Definition replace_changes `{Lodash} (prev : BlocksMapItem) (current : HMBlock) :
    list DocumentChange :=
  if isBlocksEqual (m_block prev) current then [] else [ReplaceBlock current].

(** [prev.block.attributes?.listLevel !== current.attributes.listLevel] *)
Definition listLevel_changed (prev : BlocksMapItem) (current : HMBlock) : bool :=
  negb (bool_decide (block_attr (m_block prev) "listLevel" = block_attr current "listLevel")).

Section diff.
Context `{Lodash}.

(** [checkLevel] is set for the editor's comparison only. *)
Definition block_changes (checkLevel : bool) (prev : option BlocksMapItem)
    (id left parentId : string) (current : HMBlock) : list DocumentChange :=
  match prev with
  | Some p =>
      if checkLevel && listLevel_changed p current
      then [MoveBlock id left parentId; ReplaceBlock current]
      else move_changes p id left parentId ++ replace_changes p current
  | None => [MoveBlock id left parentId; ReplaceBlock current]
  end.

(** ** Comparing the editor's blocks *)

(** The assignments to [block.props] from the block's group. *)
Definition with_group (block : EditorBlock) (group : option BlockGroup) : EditorBlock :=
  match group with
  | None => block
  | Some g =>
      let p := e_props block in
      with_props block
        {| p_url := p_url p; p_name := p_name p; p_width := p_width p; p_size := p_size p;
           p_view := p_view p; p_text := p_text p; p_language := p_language p;
           p_textAlignment := p_textAlignment p; p_level := p_level p;
           p_childrenType := Some (if truthy (g_type g) then g_type g else "group");
           p_listLevel := g_listLevel g;
           p_start := match g_start g with
                      | Some n => if (n =? 0)%N then p_start p else Some (num_to_str n)
                      | None => p_start p
                      end |}
  end.

Definition prev_block_id (prev : option EditorBlock) : string :=
  match prev with
  | Some b => e_id b
  | None => ""
  end.

Fixpoint compare_block (editor : option PMNode) (blocksMap : BlocksMap) (parentId : string)
    (prev : option EditorBlock) (block : EditorBlock) {struct block} :
    result (list DocumentChange * list string) :=
  match block with
  | EBlock id _ _ _ children =>
      let* current := fromHMBlock (with_group block (getBlockGroup editor id)) in
      let changes :=
        block_changes true (oget blocksMap id) id (prev_block_id prev) parentId current in
      let* nested :=
        collect_prev (λ prev' b, compare_block editor blocksMap id prev' b) None children in
      Ok (changes ++ nested.1, id :: nested.2)
  end.

Definition compareBlocksWithMap (editor : option PMNode) (blocksMap : BlocksMap)
    (blocks : list EditorBlock) (parentId : string) :
    result (list DocumentChange * list string) :=
  collect_prev (λ prev b, compare_block editor blocksMap parentId prev b) None blocks.

(** ** Comparing two server trees *)

(** [blockNodes[idx - 1].block!.id] *)
Definition prev_node_left (prev : option HMBlockNode) : result string :=
  match prev with
  | None => Ok ""
  | Some n =>
      match node_block n with
      | Some b => Ok (b_id b)
      | None => Err "TypeError"
      end
  end.

Fixpoint compare_node (blocksMap : BlocksMap) (parentId : string) (prev : option HMBlockNode)
    (bn : HMBlockNode) {struct bn} : result (list DocumentChange * list string) :=
  match bn with
  | BlockNode None _ => Ok ([], [])
  | BlockNode (Some b) children =>
      let* l := prev_node_left prev in
      let changes := block_changes false (oget blocksMap (b_id b)) (b_id b) l parentId b in
      let* nested :=
        match children with
        | Some cs => collect_prev (λ prev' n, compare_node blocksMap (b_id b) prev' n) None cs
        | None => Ok ([], [])
        end in
      Ok (changes ++ nested.1, b_id b :: nested.2)
  end.

Definition compareDraftWithMap (blocksMap : BlocksMap) (blockNodes : list HMBlockNode)
    (parentId : string) : result (list DocumentChange * list string) :=
  collect_prev (λ prev n, compare_node blocksMap parentId prev n) None blockNodes.

(** ** Deletions and the whole save *)

Definition extractDeletes (blocksMap : BlocksMap) (touchedBlocks : list string) :
    list DocumentChange :=
  DeleteBlock <$> List.filter (λ id, negb (bool_decide (id ∈ touchedBlocks))) (okeys blocksMap).

(** [capturedChanges] of [updateDraft]. *)
Definition captured_changes (editor : option PMNode) (blocksMap : BlocksMap)
    (blocks : list EditorBlock) (draftTitle title : option string) : result (list DocumentChange) :=
  let* r := compareBlocksWithMap editor blocksMap blocks "" in
  let changes :=
    if bool_decide (draftTitle = title) then r.1
    else SetTitle (default "" title) :: r.1 in
  Ok (changes ++ extractDeletes blocksMap r.2).

(** [updateDraft]: [send] is the server's [updateDraft] call, whose response has the
    updated document.  The result is the resolved value, a response or a message; when
    [send] fails, the rejection is its error printed as JSON. *)
Definition updateDraft {Response} (send : list DocumentChange → result Response)
    (editor : option PMNode) (blocksMap : BlocksMap) (blocks : list EditorBlock)
    (draftTitle title : option string) : result (Response + string) :=
  let* captured := captured_changes editor blocksMap blocks draftTitle title in
  match captured with
  | [] => Ok (inr "No changes applied.")
  | _ => rmap inl (send captured)
  end.

(** [restoreDraft]: delete the draft, create a fresh one, and send what turns it
    into the previous draft.  [None] is the resolved [undefined] of no changes. *)
Definition restore_changes (newDraft : option (list HMBlockNode)) (prevChildren : list HMBlockNode) :
    result (list DocumentChange) :=
  let newBlocksMap := match newDraft with Some c => createBlocksMap c "" | None => [] end in
  let* r := compareDraftWithMap newBlocksMap prevChildren "" in
  Ok (r.1 ++ extractDeletes newBlocksMap r.2).

Definition restoreDraft {Response} (deleteDraft : result unit) (createDraft : result (option HMDocument))
    (send : list DocumentChange → result Response) (prevDraft : option HMDocument) :
    result (option Response) :=
  match prevDraft with
  | None => Err "Expecting previous draft to restore"
  | Some d =>
      match d_children d with
      | None => Err "Expecting previous draft with children to restore"
      | Some prevChildren =>
          let* _ := deleteDraft in
          let* newDraft := createDraft in
          let* captured := restore_changes (newDraft ≫= d_children) prevChildren in
          match captured with
          | [] => Ok None
          | _ => rmap Some (send captured)
          end
      end
  end.
End diff.
