(* ===== verification/DocModel.v ===== *)
(** * What a list of changes means

    An abstract document on which the [DocumentChange]s of a save act: the
    contract of [updateDraft] as proto/documents/v1alpha/documents.proto states
    it (a move places an existing or new block under a parent, right after a left
    sibling, first without one; a replacement sets a block's content; a deletion
    takes a block out).  The rejections follow [treeMutation.move] of
    backend/daemon/api/documents/v1alpha/docmodel/moves.go.  It is a
    specification, not a model of that package: fractional indices, the CRDT log
    of published moves and the restoring of redundant moves are left out.

    A tree is the list of its placements [(block, parent)]; only the order among
    the entries of one parent is meaningful. *)
From S2P Require Import Prelude.
From S2P Require Import JsString.
From S2P Require Import JsObject.
From S2P Require Import BlockTypes.
From S2P Require Import DraftDiff.

Definition TrashNodeID : string := "◊".

Abbreviation DocTree := (list (string * string)).

(** The visible children of [parent], in order. *)
Definition children_in (t : DocTree) (parent : string) : list string :=
  (List.filter (λ e, String.eqb e.2 parent) t).*1.

(** The parent of a block, the root for an unknown one. *)
Definition parent_in (t : DocTree) (b : string) : string := default "" (oget t b).

(** Whether climbing from [c] meets [a]; [fuel] bounds the depth of the tree. *)
Fixpoint ancestor_loop (fuel : nat) (t : DocTree) (a c : string) : bool :=
  match fuel with
  | O => false
  | S fuel' =>
      if String.eqb c "" || String.eqb c TrashNodeID then false
      else if String.eqb c a then true
      else ancestor_loop fuel' t a (parent_in t c)
  end.
Definition isAncestor (t : DocTree) (a b : string) : bool :=
  ancestor_loop (S (length t)) t a (parent_in t b).

(** A new placement right after the one of [x]. *)
Fixpoint insert_after (x : string) (e : string * string) (t : DocTree) : DocTree :=
  match t with
  | [] => []
  | e' :: t' => if String.eqb e'.1 x then e' :: e :: t' else e' :: insert_after x e t'
  end.

(** A move of [block] under [parent], to the right of [left_]. *)
Definition move (t : DocTree) (block parent left_ : string) : result DocTree :=
  if String.eqb block "" then Err "block must not be empty"
  else if String.eqb block left_ then Err "block and left must not be the same"
  else if truthy parent && truthy left_ && String.eqb parent left_ then
    Err "parent and left must not be the same"
  else if truthy parent && negb (String.eqb parent TrashNodeID)
          && negb (bool_decide (is_Some (oget t parent))) then
    Err "desired parent block is not in the tree"
  else if isAncestor t block parent then Err "cycle detected"
  else if truthy left_ && negb (bool_decide (is_Some (oget t left_))) then
    Err "left block is not in the tree"
  else if truthy left_ && negb (bool_decide (oget t left_ = Some parent)) then
    Err "left block is not a child of parent"
  else if bool_decide (oget t block = Some TrashNodeID) && String.eqb parent TrashNodeID then Ok t
  else
    let t' := odelete t block in
    if truthy left_ then Ok (insert_after left_ (block, parent) t')
    else Ok ((block, parent) :: t').

(** A document. *)
Record ServerDoc : Type := {
  s_tree : DocTree;
  s_blocks : obj HMBlock;
  s_title : string;
}.

(** One change of a draft update. *)
Definition apply_change (d : ServerDoc) (c : DocumentChange) : result ServerDoc :=
  match c with
  | MoveBlock id l p =>
      let* t := move (s_tree d) id p l in
      Ok {| s_tree := t; s_blocks := s_blocks d; s_title := s_title d |}
  | DeleteBlock id =>
      let* t := move (s_tree d) id TrashNodeID "" in
      Ok {| s_tree := t; s_blocks := s_blocks d; s_title := s_title d |}
  | ReplaceBlock b =>
      if truthy (b_id b) then
        Ok {| s_tree := s_tree d; s_blocks := oset (s_blocks d) (b_id b) b; s_title := s_title d |}
      else Err "blocks must have ID"
  | SetTitle t => Ok {| s_tree := s_tree d; s_blocks := s_blocks d; s_title := t |}
  end.

Definition apply_changes (d : ServerDoc) (l : list DocumentChange) : result ServerDoc :=
  fold_result apply_change d l.

(** ** Block trees and their placements *)

(** A server block tree with every block present. *)
Inductive BlockTree : Type :=
| Node (block : HMBlock) (kids : list BlockTree).

Definition root_id (t : BlockTree) : string := match t with Node b _ => b_id b end.
Definition prev_root (prev : option BlockTree) : string :=
  match prev with
  | Some t => root_id t
  | None => ""
  end.

Fixpoint to_node (t : BlockTree) : HMBlockNode :=
  match t with Node b kids => BlockNode (Some b) (Some (to_node <$> kids)) end.

(** Where a block is: its parent and its left sibling. *)
Record Place : Type := { pl_block : HMBlock; pl_parent : string; pl_left : string }.
Definition pl_id (p : Place) : string := b_id (pl_block p).

(** The places of a tree, in document order. *)
Fixpoint tree_places (parent left_ : string) (t : BlockTree) : list Place :=
  match t with
  | Node b kids =>
      {| pl_block := b; pl_parent := parent; pl_left := left_ |}
      :: flat_prev (λ prev k, tree_places (b_id b) (prev_root prev) k) None kids
  end.
Definition forest_places (parent : string) (prev : option BlockTree) (l : list BlockTree) :
    list Place :=
  flat_prev (λ prev k, tree_places parent (prev_root prev) k) prev l.
Definition doc_places (l : list BlockTree) : list Place := forest_places "" None l.

(** The children of [parent] among some places. *)
Definition placed_children (pls : list Place) (parent : string) : list string :=
  pl_id <$> List.filter (λ pl, String.eqb (pl_parent pl) parent) pls.

(** The server document that holds a forest. *)
Definition load_doc (title : string) (l : list BlockTree) : ServerDoc :=
  {| s_tree := (λ pl, (pl_id pl, pl_parent pl)) <$> doc_places l;
     s_blocks := (λ pl, (pl_id pl, pl_block pl)) <$> doc_places l;
     s_title := title |}.

Section tree_ind.
Variable P : BlockTree → Prop.
Hypothesis Hnode : ∀ b kids, Forall P kids → P (Node b kids).

Fixpoint block_tree_ind (t : BlockTree) : P t :=
  match t with
  | Node b kids =>
      Hnode b kids
        ((fix go (l : list BlockTree) : Forall P l :=
            match l with
            | [] => list.Forall_nil_2 P
            | x :: l' => list.Forall_cons_2 P x l' (block_tree_ind x) (go l')
            end) kids)
  end.
End tree_ind.
