(* ===== verification/DraftDiffFacts.v ===== *)
(** * Theorems about saving a draft

    The comparison functions list the changes of the places of the new tree; the
    blocks map lists the places of the old one; and the server, applying the
    changes to the old document, ends with the blocks of the new tree below their parents,
    in its order if the old order of the surviving siblings is that of the new tree. *)
From S2P Require Import Prelude.
From S2P Require Import JsString.
From S2P Require Import JsObject.
From S2P Require Import BlockTypes.
From S2P Require Import StyledText.
From S2P Require Import BlockConvert.
From S2P Require Import BlockConvertFacts.
From S2P Require Import DraftDiff.
From S2P Require Import DocModel.

(** ** The comparison as a list over places *)

(** The server tree that an editor block stands for. *)
Fixpoint editor_tree (editor : option PMNode) (block : EditorBlock) : result BlockTree :=
  match block with
  | EBlock id _ _ _ children =>
      let* current := fromHMBlock (with_group block (getBlockGroup editor id)) in
      let* kids := map_result (editor_tree editor) children in
      Ok (Node current kids)
  end.

Section with_lodash.
Context `{LodashLaws}.

(** The changes of the blocks at some places. *)
Definition place_changes (checkLevel : bool) (map : BlocksMap) (pl : Place) : list DocumentChange :=
  block_changes checkLevel (oget map (pl_id pl)) (pl_id pl) (pl_left pl) (pl_parent pl) (pl_block pl).
Definition places_changes (checkLevel : bool) (map : BlocksMap) (pls : list Place) :
    list DocumentChange :=
  concat (place_changes checkLevel map <$> pls).

Lemma places_changes_app cl map l k :
  places_changes cl map (l ++ k) = places_changes cl map l ++ places_changes cl map k.
Proof. unfold places_changes. by rewrite fmap_app, concat_app. Qed.

Lemma fromHMBlock_id e b : fromHMBlock e = Ok b → b_id b = e_id e.
Proof.
  unfold fromHMBlock. destruct (truthy (e_id e)); [|done]. cbn [negb].
  pose proof (fromHMBlockRes_spec e) as Hs. destruct (server_type (e_type e)) as [ty|].
  - destruct Hs as (attrs & -> & _). intros H1. inv_result. done.
  - rewrite Hs. intros H1. inv_result.
Qed.

Lemma with_group_id b g : e_id (with_group b g) = e_id b.
Proof. by destruct b, g. Qed.

Lemma editor_tree_id editor b t : editor_tree editor b = Ok t → root_id t = e_id b.
Proof.
  destruct b as [i ty p c l]. cbn [editor_tree]. intros H1.
  apply rbind_ok_inv in H1 as (cur & Hc & H1). apply rbind_ok_inv in H1 as (kids & _ & H1).
  injection H1 as <-. apply fromHMBlock_id in Hc. by rewrite with_group_id in Hc.
Qed.

(** Lists of trees: the same fold over siblings on both sides. *)
Lemma collect_editor_trees editor map parent bs ts prev ptree :
  Forall2 (λ b t, editor_tree editor b = Ok t) bs ts →
  prev_block_id prev = prev_root ptree →
  Forall (λ b, ∀ t p prev left, editor_tree editor b = Ok t → prev_block_id prev = left →
    compare_block editor map p prev b =
      Ok (places_changes true map (tree_places p left t), pl_id <$> tree_places p left t)) bs →
  collect_prev (λ prev b, compare_block editor map parent prev b) prev bs =
    Ok (places_changes true map (forest_places parent ptree ts),
        pl_id <$> forest_places parent ptree ts).
Proof.
  intros Ht. revert prev ptree. induction Ht as [|b t bs ts Hb _ IH]; intros prev ptree Hp Hall; [done|].
  apply list.Forall_cons in Hall as [Hhd Hall].
  cbn [collect_prev]. rewrite (Hhd _ _ _ _ Hb Hp). cbn [rbind].
  rewrite (IH (Some b) (Some t)); [|by cbn; rewrite (editor_tree_id _ _ _ Hb)|done].
  cbn [rbind fst snd]. unfold forest_places. cbn [flat_prev].
  by rewrite places_changes_app, fmap_app.
Qed.

Lemma compare_block_places editor map b t p prev left :
  editor_tree editor b = Ok t → prev_block_id prev = left →
  compare_block editor map p prev b =
    Ok (places_changes true map (tree_places p left t), pl_id <$> tree_places p left t).
Proof.
  revert t p prev left. induction b as [i ty pr c l IH] using eblock_tree_ind.
  intros t p prev left Ht Hl. cbn [editor_tree] in Ht. cbn [compare_block].
  apply rbind_ok_inv in Ht as (cur & Hc & Ht). apply rbind_ok_inv in Ht as (kids & Hk & Ht).
  injection Ht as <-. apply map_result_ok in Hk.
  assert (b_id cur = i) as Hi by (apply fromHMBlock_id in Hc; by rewrite with_group_id in Hc).
  rewrite Hc. cbn [rbind].
  rewrite (collect_editor_trees editor map i l kids None None Hk eq_refl IH).
  cbn [rbind tree_places]. subst left. rewrite Hi. fold (forest_places i None kids).
  cbn. unfold places_changes. cbn [fmap list_fmap concat]. unfold place_changes at 2.
  unfold pl_id at 2 3 4. cbn. by rewrite Hi.
Qed.

Lemma compare_block_error editor map b m :
  editor_tree editor b = Err m → ∀ p prev, compare_block editor map p prev b = Err m.
Proof.
  revert m. induction b as [i ty pr c l IH] using eblock_tree_ind. intros m Ht p prev.
  cbn [editor_tree] in Ht. cbn [compare_block].
  destruct (fromHMBlock _) as [cur|]; cbn [rbind] in *; [|congruence].
  assert (∀ prev, collect_prev (λ prev b, compare_block editor map i prev b) prev l = Err m) as E.
  { destruct (map_result _ l) as [kids|m'] eqn:E; [done|]. cbn in Ht. injection Ht as ->. clear -IH E.
    induction l as [|b l IHl]; [done|]. intros prev. apply list.Forall_cons in IH as [Hb IH].
    rewrite map_result_cons in E. cbn [collect_prev].
    destruct (editor_tree editor b) as [t|] eqn:Eb.
    - rewrite (compare_block_places _ _ _ _ _ _ _ Eb eq_refl). cbn [rbind] in *.
      destruct (map_result _ l) as [|m'']; [done|]. cbn in E. injection E as ->.
      by rewrite IHl.
    - cbn in E. injection E as ->. by rewrite (Hb _ eq_refl). }
  by rewrite E.
Qed.

(** [compareBlocksWithMap] compares the places of the editor's trees. *)
Lemma compareBlocksWithMap_places editor map blocks parent :
  compareBlocksWithMap editor map blocks parent =
    (let* ts := map_result (editor_tree editor) blocks in
     let pls := forest_places parent None ts in
     Ok (places_changes true map pls, pl_id <$> pls)).
Proof.
  unfold compareBlocksWithMap. destruct (map_result _ blocks) as [ts|m] eqn:E.
  - apply map_result_ok in E. apply collect_editor_trees; [done..|].
    apply list.Forall_forall. intros b _ t p prev left. apply compare_block_places.
  - generalize (@None EditorBlock) as prev. induction blocks as [|b bs IH]; [done|]. intros prev.
    rewrite map_result_cons in E. cbn [collect_prev].
    destruct (editor_tree editor b) as [t|] eqn:Eb.
    + rewrite (compare_block_places _ _ _ _ _ _ _ Eb eq_refl). cbn [rbind] in *.
      destruct (map_result _ bs) as [|m']; [done|]. cbn in E. injection E as ->. by rewrite IH.
    + cbn in E. injection E as ->. by rewrite (compare_block_error _ _ _ _ Eb).
Qed.

(** [compareDraftWithMap] compares the places of the server tree. *)
Lemma compare_node_places map t p prev :
  compare_node map p (to_node <$> prev) (to_node t) =
    Ok (places_changes false map (tree_places p (prev_root prev) t),
        pl_id <$> tree_places p (prev_root prev) t).
Proof.
  revert p prev. induction t as [b kids IH] using block_tree_ind. intros p prev.
  cbn [to_node compare_node].
  assert (prev_node_left (to_node <$> prev) = Ok (prev_root prev)) as ->
    by by destruct prev as [[]|].
  cbn [rbind].
  assert (∀ q, collect_prev (λ prev' n, compare_node map (b_id b) prev' n) (to_node <$> q)
                 (to_node <$> kids) =
               Ok (places_changes false map (forest_places (b_id b) q kids),
                   pl_id <$> forest_places (b_id b) q kids)) as E.
  { clear prev. induction IH as [|k kids Hk _ IH]; intros q; [done|].
    cbn [fmap list_fmap collect_prev]. rewrite Hk. cbn [rbind].
    change (Some (to_node k)) with (to_node <$> Some k). rewrite IH. cbn [rbind fst snd].
    unfold forest_places. cbn [flat_prev]. by rewrite places_changes_app, fmap_app. }
  specialize (E None). change (to_node <$> @None BlockTree) with (@None HMBlockNode) in E.
  by rewrite E.
Qed.

Lemma compareDraftWithMap_places map ts parent :
  compareDraftWithMap map (to_node <$> ts) parent =
    (let pls := forest_places parent None ts in
     Ok (places_changes false map pls, pl_id <$> pls)).
Proof.
  unfold compareDraftWithMap. cbn. change (@None HMBlockNode) with (to_node <$> (@None BlockTree)).
  generalize (@None BlockTree) as q. induction ts as [|t ts IH]; intros q; [done|].
  cbn [fmap list_fmap collect_prev]. rewrite compare_node_places. cbn [rbind].
  change (Some (to_node t)) with (to_node <$> Some t). rewrite IH. cbn [rbind fst snd].
  unfold forest_places. cbn [flat_prev]. by rewrite places_changes_app, fmap_app.
Qed.
End with_lodash.

(** ** The blocks map lists the places *)

Definition place_entry (pl : Place) : string * BlocksMapItem :=
  (pl_id pl, {| m_parent := pl_parent pl; m_left := pl_left pl; m_block := pl_block pl |}).

Lemma ospread_new {V} (o1 o2 : obj V) :
  NoDup (okeys o2) → (∀ k, k ∈ okeys o2 → k ∉ okeys o1) → ospread o1 o2 = o1 ++ o2.
Proof.
  unfold ospread. revert o1. induction o2 as [|[k v] o2 IH]; intros o1; [by rewrite app_nil_r|].
  cbn. intros [Hk Hn]%NoDup_cons Hd. rewrite oset_new by (apply Hd; left).
  rewrite IH; [by rewrite <- (assoc_L (++))|done|].
  intros j Hj. unfold okeys. rewrite fmap_app. cbn. rewrite elem_of_app, list_elem_of_singleton.
  intros [Hj'| ->]; [by apply (Hd j); [right|] | done].
Qed.

Definition entries (pls : list Place) : BlocksMap := place_entry <$> pls.
Lemma okeys_entries pls : okeys (entries pls) = pl_id <$> pls.
Proof. unfold okeys, entries. by rewrite <- list_fmap_compose. Qed.

Lemma prev_node_root prev : prev_node_id (to_node <$> prev) = prev_root prev.
Proof. by destruct prev as [[]|]. Qed.

Lemma blocksMap_forest (parent : string) ts q res :
  Forall (λ t, ∀ p l res,
    NoDup (okeys res ++ (pl_id <$> tree_places p l t)) → "" ∉ (pl_id <$> tree_places p l t) →
    blocksMap_node p l (to_node t) res = res ++ entries (tree_places p l t)) ts →
  NoDup (okeys res ++ (pl_id <$> forest_places parent q ts)) →
  "" ∉ (pl_id <$> forest_places parent q ts) →
  fold_prev (λ prev n s, blocksMap_node parent (prev_node_id prev) n s) (to_node <$> q)
    (to_node <$> ts) res = res ++ entries (forest_places parent q ts).
Proof.
  intros Hall. revert q res. induction Hall as [|t ts Ht _ IH]; intros q res Hn He.
  { symmetry. apply app_nil_r. }
  unfold forest_places in *. cbn [flat_prev fmap list_fmap fold_prev] in *.
  rewrite fmap_app in *. rewrite not_elem_of_app in He. destruct He as [He1 He2].
  rewrite prev_node_root. rewrite Ht; [|rewrite (assoc_L (++)) in Hn; by apply NoDup_app in Hn as [? _]|done].
  change (Some (to_node t)) with (to_node <$> Some t).
  rewrite IH; [|unfold okeys in *; rewrite fmap_app; fold (okeys (entries (tree_places parent (prev_root q) t)));
    rewrite okeys_entries; by rewrite <- (assoc_L (++))|done].
  unfold entries. by rewrite fmap_app, (assoc_L (++)).
Qed.

(** The test for children does not matter: spreading no entries does nothing. *)
Lemma spread_children (f : option HMBlockNode → HMBlockNode → BlocksMap → BlocksMap)
    (cs : list HMBlockNode) (res : BlocksMap) :
  match cs with
  | [] => res
  | c :: cs' => ospread res (fold_prev f None (c :: cs') [])
  end = ospread res (fold_prev f None cs []).
Proof. by destruct cs. Qed.

Lemma pl_id_mk b p l : pl_id {| pl_block := b; pl_parent := p; pl_left := l |} = b_id b.
Proof. done. Qed.

Lemma blocksMap_tree t p l res :
  NoDup (okeys res ++ (pl_id <$> tree_places p l t)) → "" ∉ (pl_id <$> tree_places p l t) →
  blocksMap_node p l (to_node t) res = res ++ entries (tree_places p l t).
Proof.
  revert p l res. induction t as [b kids IH] using block_tree_ind. intros p l res Hn He.
  cbn [to_node blocksMap_node tree_places fmap list_fmap] in *.
  fold (forest_places (b_id b) None kids) in *. rewrite pl_id_mk in Hn, He.
  apply not_elem_of_cons in He as [Hb He]. apply not_eq_sym, truthy_spec in Hb. rewrite Hb.
  apply NoDup_app in Hn as (Hr & Hd & [Hbk Hk]%NoDup_cons).
  rewrite oset_new by (intros Hin; apply (Hd _ Hin); left).
  rewrite spread_children.
  change (@None HMBlockNode) with (to_node <$> (@None BlockTree)).
  rewrite blocksMap_forest; [|done|by cbn [okeys fmap list_fmap app]|done].
  cbn [app]. rewrite ospread_new.
  - unfold entries. cbn [fmap list_fmap]. by rewrite <- (assoc_L (++)).
  - by rewrite okeys_entries.
  - rewrite okeys_entries. intros j Hj. unfold okeys in *. rewrite fmap_app. cbn.
    rewrite elem_of_app, list_elem_of_singleton. intros [Hj'| ->]; [|done].
    apply (Hd j Hj'). by right.
Qed.

Lemma createBlocksMap_places ts :
  NoDup (pl_id <$> doc_places ts) → "" ∉ (pl_id <$> doc_places ts) →
  createBlocksMap (to_node <$> ts) "" = entries (doc_places ts).
Proof.
  intros Hn He. unfold createBlocksMap.
  change (@None HMBlockNode) with (to_node <$> (@None BlockTree)).
  rewrite blocksMap_forest; [done| |done..].
  apply list.Forall_forall. intros t _ p l res. apply blocksMap_tree.
Qed.

(** ** Well-formed places *)

(** [last_or l]: the last element, or no block. *)
Definition last_or (l : list string) : string := List.last l "".

(** Each place's id is new and usable, its parent is the root or an earlier
    block, and its left sibling is the last earlier child of its parent. *)
Fixpoint wf_from (pre pls : list Place) : Prop :=
  match pls with
  | [] => True
  | x :: rest =>
      (pl_id x ≠ "" ∧ pl_id x ≠ TrashNodeID ∧ pl_id x ∉ (pl_id <$> pre) ∧
       (pl_parent x = "" ∨ pl_parent x ∈ (pl_id <$> pre)) ∧
       pl_left x = last_or (placed_children pre (pl_parent x))) ∧
      wf_from (pre ++ [x]) rest
  end.

Lemma wf_from_app pre l k : wf_from pre (l ++ k) ↔ wf_from pre l ∧ wf_from (pre ++ l) k.
Proof.
  revert pre. induction l as [|x l IH]; intros pre; cbn; [rewrite app_nil_r; tauto|].
  rewrite IH, <- (assoc_L (++)). cbn. tauto.
Qed.

Lemma placed_children_app l k p :
  placed_children (l ++ k) p = placed_children l p ++ placed_children k p.
Proof. unfold placed_children. by rewrite List.filter_app, fmap_app. Qed.

Lemma elem_of_placed_children pls p x :
  x ∈ placed_children pls p ↔ ∃ pl, pl ∈ pls ∧ pl_id pl = x ∧ pl_parent pl = p.
Proof.
  unfold placed_children. rewrite list_elem_of_fmap. setoid_rewrite list_elem_of_In.
  setoid_rewrite List.filter_In. setoid_rewrite <- list_elem_of_In.
  setoid_rewrite String.eqb_eq. naive_solver.
Qed.

Lemma placed_children_none pls p :
  (∀ pl, pl ∈ pls → pl_parent pl ≠ p) → placed_children pls p = [].
Proof.
  intros H. apply elem_of_nil_inv. intros x (pl & Hin & _ & Hp)%elem_of_placed_children.
  by apply (H pl).
Qed.

(** What makes a forest usable: distinct ids, none empty or the trash. *)
Definition good_ids (ids : list string) : Prop := NoDup ids ∧ "" ∉ ids ∧ TrashNodeID ∉ ids.

Lemma good_ids_app l k : good_ids (l ++ k) → good_ids l ∧ good_ids k ∧ ∀ x, x ∈ l → x ∉ k.
Proof. unfold good_ids. rewrite NoDup_app, !not_elem_of_app. naive_solver. Qed.

Lemma tree_places_parents p l t pl :
  pl ∈ tree_places p l t → pl_parent pl = p ∨ pl_parent pl ∈ (pl_id <$> tree_places p l t).
Proof.
  revert p l pl. induction t as [b kids IH] using block_tree_ind. intros p l pl.
  cbn [tree_places fmap list_fmap]. rewrite pl_id_mk. intros [->|Hin]%elem_of_cons; [by left|].
  right. revert Hin. generalize (@None BlockTree) as q.
  induction IH as [|k kids Hk _ IHk]; intros q; [set_solver|]. cbn [flat_prev].
  rewrite fmap_app. intros [Hin|Hin]%elem_of_app.
  - destruct (Hk _ _ _ Hin) as [->|H]; [left | set_solver].
  - specialize (IHk _ Hin). set_solver.
Qed.

Lemma tree_places_head p l t : ∃ rest,
  tree_places p l t = {| pl_block := match t with Node b _ => b end; pl_parent := p; pl_left := l |} :: rest.
Proof. destruct t. by eexists. Qed.

(** The children that a tree adds to its own parent: its root. *)
Lemma tree_places_children p l t :
  p ∉ (pl_id <$> tree_places p l t) → placed_children (tree_places p l t) p = [root_id t].
Proof.
  revert p l. induction t as [b kids IH] using block_tree_ind. intros p l.
  cbn [tree_places fmap list_fmap]. rewrite pl_id_mk. intros [Hb Hk]%not_elem_of_cons.
  unfold placed_children. cbn [List.filter pl_parent]. rewrite String.eqb_refl. cbn.
  f_equal. apply placed_children_none. intros pl Hpl Hp.
  assert (pl_parent pl = b_id b ∨ pl_parent pl ∈ pl_id <$> flat_prev
    (λ prev k, tree_places (b_id b) (prev_root prev) k) None kids) as [?|?]; [|congruence|congruence].
  clear -Hpl. revert Hpl. generalize (@None BlockTree) as q.
  induction kids as [|k kids IH]; intros q; [set_solver|]. cbn [flat_prev]. rewrite fmap_app.
  intros [Hin|Hin]%elem_of_app.
  - apply tree_places_parents in Hin. set_solver.
  - apply IH in Hin. set_solver.
Qed.

Lemma wf_forest parent kids pre q :
  Forall (λ k, ∀ p l pre,
    good_ids (pl_id <$> tree_places p l k) →
    (∀ x, x ∈ (pl_id <$> tree_places p l k) → x ∉ (pl_id <$> pre) ∧ x ≠ p ∧ placed_children pre x = []) →
    (p = "" ∨ p ∈ (pl_id <$> pre)) → l = last_or (placed_children pre p) →
    wf_from pre (tree_places p l k)) kids →
  good_ids (pl_id <$> forest_places parent q kids) →
  (∀ x, x ∈ (pl_id <$> forest_places parent q kids) →
     x ∉ (pl_id <$> pre) ∧ x ≠ parent ∧ placed_children pre x = []) →
  (parent = "" ∨ parent ∈ (pl_id <$> pre)) → prev_root q = last_or (placed_children pre parent) →
  wf_from pre (forest_places parent q kids).
Proof.
  intros Hall. revert pre q. induction Hall as [|k kids Hk _ IH]; intros pre q Hg Hx Hp Hq; [done|].
  unfold forest_places in *. cbn [flat_prev] in *. rewrite fmap_app in *.
  apply good_ids_app in Hg as (Hg1 & Hg2 & Hd). apply wf_from_app. split.
  - apply Hk; [done| |done..]. intros x Hin. apply Hx. set_solver.
  - assert (placed_children (tree_places parent (prev_root q) k) parent = [root_id k]) as Hc.
    { apply tree_places_children. intros Hin. destruct (Hx parent) as (_ & ? & _); set_solver. }
    apply IH; [done| | |].
    + intros x Hin. destruct (Hx x) as (H1 & H2 & H3); [set_solver|].
      rewrite fmap_app, not_elem_of_app, placed_children_app, H3. split; [set_solver|].
      split; [done|]. apply placed_children_none. intros pl Hpl Hpp.
      destruct (tree_places_parents _ _ _ _ Hpl) as [?|?]; [congruence|]. rewrite Hpp in *.
      by apply (Hd x).
    + rewrite fmap_app. set_solver.
    + rewrite placed_children_app, Hc. unfold last_or. by rewrite List.last_last.
Qed.

Lemma wf_tree t p l pre :
  good_ids (pl_id <$> tree_places p l t) →
  (∀ x, x ∈ (pl_id <$> tree_places p l t) → x ∉ (pl_id <$> pre) ∧ x ≠ p ∧ placed_children pre x = []) →
  (p = "" ∨ p ∈ (pl_id <$> pre)) → l = last_or (placed_children pre p) →
  wf_from pre (tree_places p l t).
Proof.
  revert p l pre. induction t as [b kids IH] using block_tree_ind. intros p l pre Hg Hx Hp Hl.
  cbn [tree_places fmap list_fmap wf_from] in *. rewrite pl_id_mk in *.
  fold (forest_places (b_id b) None kids) in *.
  destruct Hg as ([Hb Hn]%NoDup_cons & [He1 He2]%not_elem_of_cons & [Ht1 Ht2]%not_elem_of_cons).
  destruct (Hx (b_id b)) as (Hpre & Hbp & Hbc); [left|].
  split; [by repeat split|]. apply wf_forest; try done.
  - intros x Hin. destruct (Hx x) as (H1 & H2 & H3); [by right|].
    rewrite fmap_app, not_elem_of_app, placed_children_app, H3. split; [|split].
    + split; [done|]. cbn. rewrite list_elem_of_singleton, pl_id_mk. intros ->. done.
    + intros ->. done.
    + apply placed_children_none. intros pl ->%list_elem_of_singleton. cbn. congruence.
  - rewrite fmap_app. right. apply elem_of_app. right. left.
  - rewrite placed_children_app, Hbc. cbn. unfold placed_children. cbn.
    apply not_eq_sym, String.eqb_neq in Hbp. by rewrite Hbp.
Qed.

Lemma wf_doc_places ts : good_ids (pl_id <$> doc_places ts) → wf_from [] (doc_places ts).
Proof.
  intros Hg. apply wf_forest; try done.
  - apply list.Forall_forall. intros k _ p l pre. apply wf_tree.
  - intros x Hin. split; [set_solver|]. split; [|done]. intros ->. by destruct Hg as (_ & ? & _).
  - by left.
Qed.

(** ** The server's tree *)

Lemma children_in_app t1 t2 p : children_in (t1 ++ t2) p = children_in t1 p ++ children_in t2 p.
Proof. unfold children_in. by rewrite List.filter_app, fmap_app. Qed.

Lemma children_in_cons b q t p :
  children_in ((b, q) :: t) p = if String.eqb q p then b :: children_in t p else children_in t p.
Proof. unfold children_in. cbn. by destruct (String.eqb q p). Qed.

Lemma elem_of_children_in t p x : owf t → x ∈ children_in t p ↔ oget t x = Some p.
Proof.
  intros Hwf. unfold children_in. rewrite list_elem_of_fmap. split.
  - intros ([y q] & -> & Hin). rewrite list_elem_of_In, List.filter_In, <- list_elem_of_In in Hin.
    destruct Hin as [Hin Hq]. cbn in *. apply String.eqb_eq in Hq as ->. by apply oget_elem.
  - intros Hx%oget_Some_elem. exists (x, p). split; [done|].
    rewrite list_elem_of_In, List.filter_In, <- list_elem_of_In. split; [done|].
    cbn. apply String.eqb_refl.
Qed.

Lemma children_in_odelete t b p :
  children_in (odelete t b) p = List.filter (λ x, negb (String.eqb b x)) (children_in t p).
Proof.
  induction t as [|[x q] t IH]; [done|]. rewrite odelete_cons, children_in_cons.
  destruct (String.eqb b x) eqn:E; destruct (String.eqb q p) eqn:Eq;
    rewrite ?children_in_cons, ?Eq; cbn; rewrite ?E; cbn; by rewrite IH.
Qed.

Fixpoint ins_after (x b : string) (l : list string) : list string :=
  match l with
  | [] => []
  | y :: l' => if String.eqb y x then y :: b :: l' else y :: ins_after x b l'
  end.

(** Where [insert_after] puts a child: after [x] among the children of [x]'s parent. *)
Lemma children_insert_after x b p q t :
  oget t x = Some p →
  children_in (insert_after x (b, p) t) q =
    if String.eqb p q then
      ins_after x b (children_in t q)
    else children_in t q.
Proof.
  intros Hx. destruct (String.eqb_spec p q) as [->|Hpq].
  - induction t as [|[y r] t IH]; [done|]. cbn in Hx. cbn [insert_after fst].
    destruct (String.eqb_spec x y) as [->|Hne].
    + injection Hx as ->. rewrite String.eqb_refl, !children_in_cons, String.eqb_refl.
      cbn [ins_after]. by rewrite String.eqb_refl.
    + assert (String.eqb y x = false) as Hyx by (by apply String.eqb_neq).
      rewrite Hyx, !children_in_cons, (IH Hx). destruct (String.eqb r q); [|done].
      cbn [ins_after]. by rewrite Hyx.
  - apply String.eqb_neq in Hpq. induction t as [|[y r] t IH]; [done|]. cbn in Hx.
    cbn [insert_after fst]. destruct (String.eqb_spec x y) as [->|Hne].
    + rewrite String.eqb_refl, !children_in_cons, Hpq. done.
    + assert (String.eqb y x = false) as Hyx by (by apply String.eqb_neq).
      rewrite Hyx, !children_in_cons, (IH Hx). done.
Qed.

Lemma okeys_insert_after x b p t : okeys (insert_after x (b, p) t) ⊆ b :: okeys t.
Proof.
  induction t as [|[y r] t IH]; [set_solver|]. cbn. case_match; cbn; set_solver.
Qed.
Lemma owf_insert_after x b p t : owf t → b ∉ okeys t → owf (insert_after x (b, p) t).
Proof.
  unfold owf. induction t as [|[y r] t IH]; [constructor|]. cbn [okeys fmap list_fmap insert_after fst].
  intros [Hy Ht]%NoDup_cons [Hby Hbt]%not_elem_of_cons. destruct (String.eqb y x); cbn.
  - constructor; [set_solver|]. by constructor.
  - constructor; [|by apply IH]. intros Hin.
    apply (okeys_insert_after x b p t) in Hin. set_solver.
Qed.
Lemma oget_insert_after x b p q t z :
  oget t x = Some q → b ∉ okeys t →
  oget (insert_after x (b, p) t) z = if String.eqb z b then Some p else oget t z.
Proof.
  induction t as [|[y r] t IH]; [done|]. cbn [oget insert_after fst okeys fmap list_fmap].
  intros Hx [Hby Hbt]%not_elem_of_cons. destruct (String.eqb_spec x y) as [->|Hne].
  - rewrite String.eqb_refl. cbn. destruct (String.eqb_spec z y) as [->|]; [|done].
    apply not_eq_sym, String.eqb_neq in Hby. by rewrite Hby.
  - assert (String.eqb y x = false) as -> by (by apply String.eqb_neq). cbn.
    rewrite IH by done. destruct (String.eqb_spec z y) as [->|]; [|done].
    apply not_eq_sym, String.eqb_neq in Hby. by rewrite Hby.
Qed.

(** A successful move, read through the tree's observations. *)
Record moved (t t' : DocTree) (b p : string) : Prop := {
  mv_wf : owf t';
  mv_get z : oget t' z = if String.eqb z b then Some p else oget t z;
}.

(** Climbing from a node all of whose ancestors are in [good] meets only [good]. *)
Lemma ancestor_loop_good (good : string → Prop) fuel t a c :
  (∀ x, good x → x ≠ a ∧ (parent_in t x = "" ∨ good (parent_in t x))) →
  c = "" ∨ good c → ancestor_loop fuel t a c = false.
Proof.
  intros Hg. revert c. induction fuel as [|fuel IH]; intros c Hc; [done|]. cbn.
  destruct (String.eqb_spec c ""); [done|]. destruct (String.eqb c TrashNodeID); [done|]. cbn.
  destruct Hc as [?|Hc]; [done|]. destruct (Hg c Hc) as [Ha Hp].
  apply String.eqb_neq in Ha. rewrite Ha. by apply IH.
Qed.

(** The children after a move of [b] under [p], to the right of [l]. *)
Definition children_moved (t t' : DocTree) (b p l : string) : Prop :=
  ∀ q, children_in t' q =
    let rest := List.filter (λ x, negb (String.eqb b x)) (children_in t q) in
    if String.eqb p q then if truthy l then ins_after l b rest else b :: rest else rest.

Lemma move_ok t b p l :
  owf t → b ≠ "" → p ≠ TrashNodeID → (p = "" ∨ is_Some (oget t p)) → isAncestor t b p = false →
  (l = "" ∨ (l ≠ "" ∧ l ≠ b ∧ l ≠ p ∧ oget t l = Some p)) →
  ∃ t', move t b p l = Ok t' ∧ moved t t' b p ∧ children_moved t t' b p l.
Proof.
  intros Hwf Hb Ht Hp Ha Hl. unfold move. apply String.eqb_neq in Hb as Hb'. rewrite Hb', Ha.
  assert (String.eqb b l = false) as ->.
  { apply String.eqb_neq. destruct Hl as [->|(_ & Hl & _)]; congruence. }
  assert (truthy p && truthy l && String.eqb p l = false) as ->.
  { apply andb_false_iff. destruct Hl as [->|(_ & _ & Hl & _)]; [left; apply andb_false_r|].
    right. apply String.eqb_neq. congruence. }
  assert (truthy p && negb (String.eqb p TrashNodeID) && negb (bool_decide (is_Some (oget t p))) = false) as ->.
  { destruct Hp as [->|Hp]; [done|]. rewrite (bool_decide_eq_true_2 _ Hp). apply andb_false_r. }
  assert (b ∉ okeys (odelete t b)) as Hnb by (apply oget_None, oget_odelete_eq).
  assert (String.eqb p TrashNodeID = false) as Hpt by (by apply String.eqb_neq).
  destruct Hl as [->|(Hle & Hlb & Hlp & Hl)].
  - cbn. rewrite Hpt, andb_false_r. eexists. split; [done|]. split; [split|].
    + constructor; [done|]. by apply owf_odelete.
    + intros z. cbn. destruct (String.eqb_spec z b) as [->|Hz]; [done|]. by apply oget_odelete_ne.
    + intros q. rewrite children_in_cons, children_in_odelete. done.
  - apply truthy_spec in Hle as El. rewrite El. cbn [andb].
    rewrite (bool_decide_eq_true_2 (is_Some (oget t l))) by (by eexists).
    rewrite (bool_decide_eq_true_2 _ Hl). cbn. rewrite Hpt, andb_false_r.
    assert (oget (odelete t b) l = Some p) as Hl' by (by rewrite oget_odelete_ne by congruence).
    eexists. split; [done|]. split; [split|].
    + apply owf_insert_after; [by apply owf_odelete | done].
    + intros z. rewrite (oget_insert_after _ _ _ _ _ _ Hl' Hnb).
      destruct (String.eqb_spec z b) as [->|Hz]; [done|]. by apply oget_odelete_ne.
    + intros q. rewrite (children_insert_after _ _ _ _ _ Hl'), children_in_odelete. by rewrite El.
Qed.

(** *** Filters of sibling lists *)

Lemma filter_filter_comm {A} (f g : A → bool) l :
  List.filter f (List.filter g l) = List.filter g (List.filter f l).
Proof.
  induction l as [|x l IH]; [done|]. cbn.
  destruct (f x) eqn:Ef, (g x) eqn:Eg; cbn; rewrite ?Ef, ?Eg, ?IH; done.
Qed.

Lemma filter_ins_after (f : string → bool) x b l :
  f x = true → f b = true → List.filter f (ins_after x b l) = ins_after x b (List.filter f l).
Proof.
  intros Hx Hb. induction l as [|y l IH]; [done|]. cbn. destruct (String.eqb_spec y x) as [->|Hne].
  - cbn. rewrite Hx, Hb. cbn. by rewrite String.eqb_refl.
  - cbn. destruct (f y); [|done]. cbn. apply String.eqb_neq in Hne. by rewrite Hne, IH.
Qed.

Lemma ins_after_last b l k :
  l ≠ [] → NoDup l → ins_after (last_or l) b (l ++ k) = l ++ b :: k.
Proof.
  induction l as [|x l IH]; [done|]. intros _ [Hx Hn]%NoDup_cons. unfold last_or.
  destruct l as [|y l]; [cbn; by rewrite String.eqb_refl|].
  change (List.last (x :: y :: l) "") with (last_or (y :: l)). cbn [app ins_after].
  assert (String.eqb x (last_or (y :: l)) = false) as ->.
  { apply String.eqb_neq. intros ->. apply Hx. unfold last_or. clear.
    revert y. induction l as [|z l IH]; intros y; [left|]. right. apply IH. }
  f_equal. by apply IH.
Qed.

Lemma last_or_elem l : l ≠ [] → last_or l ∈ l.
Proof.
  unfold last_or. destruct l as [|y l]; [done|]. intros _. revert y.
  induction l as [|z l IH]; intros y; [left|]. right. apply IH.
Qed.

(** ** Applying the changes *)

Definition mem (l : list string) (x : string) : bool := bool_decide (x ∈ l).

Lemma mem_true l x : x ∈ l → mem l x = true.
Proof. apply bool_decide_eq_true_2. Qed.
Lemma mem_false l x : x ∉ l → mem l x = false.
Proof. apply bool_decide_eq_false_2. Qed.

(** The blocks that stay under a parent keep their order. *)
Definition same_order (old : DocTree) (pls : list Place) : Prop :=
  ∀ p, List.filter (mem (placed_children pls p)) (children_in old p) =
       List.filter (mem (children_in old p)) (placed_children pls p).

(** The tree after the changes of [pre], with the places [post] still to come; what it
    says of the order needs the old order to be kept. *)
Record progress (old : DocTree) (pre post : list Place) (t : DocTree) : Prop := {
  pr_wf : owf t;
  pr_done pl : pl ∈ pre → oget t (pl_id pl) = Some (pl_parent pl);
  pr_rest x : x ∉ (pl_id <$> pre) → oget t x = oget old x;
  pr_order : same_order old (pre ++ post) → ∀ p,
    List.filter (mem (placed_children (pre ++ post) p)) (children_in t p) =
    placed_children pre p ++ List.filter (mem (children_in old p)) (placed_children post p);
}.

Lemma wf_from_NoDup pre pls :
  wf_from pre pls → NoDup (pl_id <$> pre) → NoDup (pl_id <$> (pre ++ pls)).
Proof.
  revert pre. induction pls as [|x pls IH]; intros pre; [by rewrite app_nil_r|].
  cbn [wf_from]. intros [(_ & _ & Hx & _) Hw] Hn.
  replace (pre ++ x :: pls) with ((pre ++ [x]) ++ pls) by by rewrite <- (assoc_L (++)).
  apply IH; [done|]. rewrite fmap_app. apply NoDup_app. split; [done|]. split.
  - intros y Hy ->%list_elem_of_singleton. done.
  - apply NoDup_singleton.
Qed.

Lemma NoDup_placed_children pls p : NoDup (pl_id <$> pls) → NoDup (placed_children pls p).
Proof.
  unfold placed_children. induction pls as [|x pls IH]; [constructor|]. cbn.
  intros [Hx Hn]%NoDup_cons. destruct (String.eqb (pl_parent x) p); cbn; [|auto].
  constructor; [|auto]. intros Hin. apply Hx. apply list_elem_of_fmap in Hin as (y & -> & Hy).
  rewrite list_elem_of_In, List.filter_In, <- list_elem_of_In in Hy.
  apply list_elem_of_fmap. exists y. tauto.
Qed.

Lemma NoDup_id_eq pls x y : NoDup (pl_id <$> pls) → x ∈ pls → y ∈ pls → pl_id x = pl_id y → x = y.
Proof.
  induction pls as [|z pls IH]; [set_solver|]. cbn. intros [Hz Hn]%NoDup_cons.
  intros [->|Hx]%elem_of_cons [->|Hy]%elem_of_cons He; [done| | |by apply IH].
  - destruct Hz. rewrite He. by apply list_elem_of_fmap_2.
  - destruct Hz. rewrite <- He. by apply list_elem_of_fmap_2.
Qed.

(** Where the blocks of well-formed places are. *)
Lemma mem_placed pls x p :
  NoDup (pl_id <$> pls) → x ∈ pls →
  mem (placed_children pls p) (pl_id x) = String.eqb (pl_parent x) p.
Proof.
  intros Hn Hx. destruct (String.eqb_spec (pl_parent x) p) as [Hp|Hp].
  - apply mem_true, elem_of_placed_children. eauto.
  - apply mem_false. intros (y & Hy & He & Hyp)%elem_of_placed_children.
    apply Hp. by rewrite <- (NoDup_id_eq pls y x).
Qed.

(** The ancestors of a placed parent are placed: no cycle is seen. *)
Lemma placed_no_cycle old pre post t x :
  progress old pre (x :: post) t → wf_from [] pre →
  pl_id x ∉ (pl_id <$> pre) → (pl_parent x = "" ∨ pl_parent x ∈ (pl_id <$> pre)) →
  oget old "" = None → "" ∉ (pl_id <$> pre) →
  isAncestor t (pl_id x) (pl_parent x) = false.
Proof.
  intros Hp Hw Hx Hpar Hroot He. unfold isAncestor.
  assert (∀ y, y ∈ (pl_id <$> pre) →
            parent_in t y = "" ∨ parent_in t y ∈ (pl_id <$> pre)) as Hup.
  { intros y (pl & -> & Hpl)%list_elem_of_fmap. unfold parent_in.
    rewrite (pr_done _ _ _ _ Hp _ Hpl). cbn. clear -Hw Hpl.
    apply list_elem_of_split in Hpl as (l1 & l2 & ->). apply wf_from_app in Hw as [_ Hw].
    cbn in Hw. destruct Hw as [(_ & _ & _ & [?|?] & _) _]; [by left|].
    right. rewrite fmap_app. apply elem_of_app. by left. }
  apply (ancestor_loop_good (λ y, y ∈ (pl_id <$> pre))).
  - intros y Hy. split; [congruence | by apply Hup].
  - destruct Hpar as [->|Hpar]; [|by apply Hup]. left. unfold parent_in.
    by rewrite (pr_rest _ _ _ _ Hp _ He), Hroot.
Qed.

Lemma progress_keep old pre x post t :
  NoDup (pl_id <$> (pre ++ x :: post)) →
  progress old pre (x :: post) t → owf old → oget old (pl_id x) = Some (pl_parent x) →
  progress old (pre ++ [x]) post t.
Proof.
  intros Hn Hp Hold Hx.
  assert (pl_id x ∉ (pl_id <$> pre)) as Hpre.
  { rewrite fmap_app in Hn. apply NoDup_app in Hn as (_ & Hd & _). intros Hin. apply (Hd _ Hin). left. }
  split.
  - apply Hp.
  - intros pl [Hpl| ->%list_elem_of_singleton]%elem_of_app; [by apply Hp|].
    by rewrite (pr_rest _ _ _ _ Hp).
  - intros y. rewrite fmap_app, not_elem_of_app. intros [Hy _]. by apply Hp.
  - rewrite <- (assoc_L (++)). cbn [app]. intros Ho p. rewrite (pr_order _ _ _ _ Hp Ho).
    rewrite placed_children_app, <- (assoc_L (++)). f_equal.
    change (x :: post) with ([x] ++ post). rewrite placed_children_app, List.filter_app. f_equal.
    apply filter_all. intros y (z & ->%list_elem_of_singleton & <- & <-)%elem_of_placed_children.
    apply mem_true. by apply elem_of_children_in.
Qed.

Lemma placed_children_cons x pls p :
  placed_children (x :: pls) p =
    if String.eqb (pl_parent x) p then pl_id x :: placed_children pls p else placed_children pls p.
Proof. unfold placed_children. cbn. by destruct (String.eqb (pl_parent x) p). Qed.

(** Taking the moved block out leaves the earlier children and the later old ones. *)
Lemma moved_rest old pre x post t p :
  NoDup (pl_id <$> (pre ++ x :: post)) → progress old pre (x :: post) t → same_order old (pre ++ x :: post) →
  List.filter (mem (placed_children (pre ++ x :: post) p))
    (List.filter (λ y, negb (String.eqb (pl_id x) y)) (children_in t p)) =
  placed_children pre p ++ List.filter (mem (children_in old p)) (placed_children post p).
Proof.
  intros Hn Hp Ho. rewrite filter_filter_comm, (pr_order _ _ _ _ Hp Ho), List.filter_app.
  rewrite fmap_app in Hn. apply NoDup_app in Hn as (_ & Hd & [Hx _]%NoDup_cons).
  assert (∀ l, pl_id x ∉ (pl_id <$> l) →
            List.filter (λ y, negb (String.eqb (pl_id x) y)) (placed_children l p) =
            placed_children l p) as Hid.
  { intros l Hl. apply filter_all. intros y (z & Hz & <- & _)%elem_of_placed_children.
    apply negb_true_iff, String.eqb_neq. intros Heq. apply Hl. rewrite Heq.
    by apply list_elem_of_fmap_2. }
  f_equal; [apply Hid; intros Hin; apply (Hd _ Hin); left|].
  rewrite filter_filter_comm. f_equal. rewrite placed_children_cons.
  destruct (String.eqb (pl_parent x) p); [|by apply Hid]. cbn. rewrite String.eqb_refl. by apply Hid.
Qed.

Lemma moved_order old pre x post t t' p :
  NoDup (pl_id <$> (pre ++ x :: post)) → "" ∉ (pl_id <$> pre) →
  pl_left x = last_or (placed_children pre (pl_parent x)) →
  progress old pre (x :: post) t → same_order old (pre ++ x :: post) →
  children_moved t t' (pl_id x) (pl_parent x) (pl_left x) →
  List.filter (mem (placed_children ((pre ++ [x]) ++ post) p)) (children_in t' p) =
  placed_children (pre ++ [x]) p ++ List.filter (mem (children_in old p)) (placed_children post p).
Proof.
  intros Hn He Hl Hp Ho Hch. rewrite <- (assoc_L (++)). cbn [app].
  pose proof (moved_rest old pre x post t p Hn Hp Ho) as Hrest.
  rewrite (Hch p). cbn zeta. rewrite (placed_children_app pre [x]), (placed_children_cons x []).
  destruct (String.eqb_spec (pl_parent x) p) as [<-|_]; [|rewrite Hrest; by rewrite app_nil_r].
  set (K := mem (placed_children (pre ++ x :: post) (pl_parent x))) in *.
  assert (K (pl_id x) = true) as HKx.
  { apply mem_true, elem_of_placed_children. exists x. split; [set_solver | done]. }
  set (A := placed_children pre (pl_parent x)) in *. rewrite <- (assoc_L (++)). cbn [app].
  destruct (decide (A = [])) as [HA|HA].
  - rewrite Hl, HA. cbn. rewrite HKx, Hrest, HA. done.
  - pose proof (last_or_elem A HA) as Hin. rewrite <- Hl in Hin.
    assert (pl_left x ≠ "") as Hne.
    { intros Heq. rewrite Heq in Hin. apply elem_of_placed_children in Hin as (z & Hz & Hid & _).
      apply He. rewrite <- Hid. by apply list_elem_of_fmap_2. }
    apply truthy_spec in Hne as ->.
    rewrite filter_ins_after; [|subst K; apply mem_true; rewrite placed_children_app;
      apply elem_of_app; by left|done].
    rewrite Hrest, Hl. apply ins_after_last; [done|].
    apply NoDup_placed_children. rewrite fmap_app in Hn. by apply NoDup_app in Hn as [? _].
Qed.

Lemma progress_move old pre x post t :
  wf_from [] (pre ++ x :: post) → progress old pre (x :: post) t → owf old →
  oget old "" = None →
  ∃ t', move t (pl_id x) (pl_parent x) (pl_left x) = Ok t' ∧ progress old (pre ++ [x]) post t'.
Proof.
  intros Hw Hp Hold Hroot. pose proof (wf_from_NoDup [] _ Hw (NoDup_nil_2)) as Hn. cbn in Hn.
  assert (Hw' := Hw). apply wf_from_app in Hw' as [Hwpre Hwx]. cbn [app wf_from] in Hwx.
  destruct Hwx as [(Hne & Htr & Hpre & Hpar & Hleft) _].
  assert (("" ∉ (pl_id <$> pre)) ∧ (TrashNodeID ∉ (pl_id <$> pre))) as [He Ht].
  { clear -Hwpre. split; intros (pl & Hid & Hpl)%list_elem_of_fmap;
      apply list_elem_of_split in Hpl as (l1 & l2 & ->); apply wf_from_app in Hwpre as [_ Hw];
      cbn in Hw; naive_solver. }
  set (A := placed_children pre (pl_parent x)) in *.
  assert (∀ y, y ∈ A → oget t y = Some (pl_parent x) ∧ y ∈ (pl_id <$> pre)) as HA.
  { intros y (pl & Hpl & <- & Hpp)%elem_of_placed_children.
    rewrite (pr_done _ _ _ _ Hp _ Hpl). split; [by f_equal | by apply list_elem_of_fmap_2]. }
  assert (∀ y, y ∈ A → y ≠ pl_parent x) as HAp.
  { intros y (pl & Hpl & <- & Hpp)%elem_of_placed_children Heq.
    clear -Hwpre Hpl Hpp Heq He. apply list_elem_of_split in Hpl as (l1 & l2 & ->).
    apply wf_from_app in Hwpre as [_ Hw]. cbn in Hw.
    destruct Hw as [(? & _ & Hl1 & [?|?] & _) _]; congruence. }
  destruct (move_ok t (pl_id x) (pl_parent x) (pl_left x)) as (t' & Hmv & [Hwf' Hget] & Hch).
  - apply Hp.
  - done.
  - destruct Hpar as [->|Hpar]; [done|]. intros Heq. by rewrite Heq in Hpar.
  - destruct Hpar as [->|Hpar]; [by left|]. right.
    apply list_elem_of_fmap in Hpar as (pl & -> & Hpl). by rewrite (pr_done _ _ _ _ Hp _ Hpl).
  - by apply (placed_no_cycle old pre post).
  - rewrite Hleft. destruct (decide (A = [])) as [->|HAne]; [by left|]. right.
    pose proof (last_or_elem A HAne) as Hin. destruct (HA _ Hin) as [Hg Hi].
    split; [congruence|]. split; [congruence|]. split; [by apply HAp | done].
  - exists t'. split; [done|]. split.
    + done.
    + intros pl [Hpl| ->%list_elem_of_singleton]%elem_of_app; rewrite Hget; [|by rewrite String.eqb_refl].
      destruct (String.eqb_spec (pl_id pl) (pl_id x)) as [Heq|_]; [|by apply Hp].
      destruct Hpre. rewrite <- Heq. by apply list_elem_of_fmap_2.
    + intros y. rewrite fmap_app, not_elem_of_app. intros [Hy Hyx]. cbn in Hyx.
      rewrite list_elem_of_singleton in Hyx. rewrite Hget.
      apply String.eqb_neq in Hyx as ->. by apply Hp.
    + rewrite <- (assoc_L (++)). cbn [app]. intros Ho p.
      pose proof (moved_order old pre x post t t' p Hn He Hleft Hp Ho Hch) as E. by rewrite <- (assoc_L (++)) in E.
Qed.

(** *** Deletions *)

Lemma delete_ok t id :
  owf t → id ≠ "" → oget t TrashNodeID = None →
  ∃ t', move t id TrashNodeID "" = Ok t' ∧ moved t t' id TrashNodeID ∧
    ∀ q, q ≠ TrashNodeID →
      children_in t' q = List.filter (λ x, negb (String.eqb id x)) (children_in t q).
Proof.
  intros Hwf Hid Ht. unfold move. apply String.eqb_neq in Hid as ->.
  assert (isAncestor t id TrashNodeID = false) as ->.
  { unfold isAncestor, parent_in. by rewrite Ht. }
  assert (truthy TrashNodeID && truthy "" && String.eqb TrashNodeID "" = false) as -> by done.
  assert (negb (String.eqb TrashNodeID TrashNodeID) = false) as -> by done.
  rewrite andb_false_r. cbn [andb truthy]. rewrite String.eqb_refl, andb_true_r.
  destruct (bool_decide (oget t id = Some TrashNodeID)) eqn:Hin; bool_simpl; cbn.
  - eexists. split; [done|]. split.
    + split; [done|]. intros z. by destruct (String.eqb_spec z id) as [->|].
    + intros q Hq. symmetry. apply filter_all. intros x Hx%elem_of_children_in; [|done].
      apply negb_true_iff, String.eqb_neq. congruence.
  - eexists. split; [done|]. split; [split|].
    + constructor; [apply oget_None, oget_odelete_eq | by apply owf_odelete].
    + intros z. cbn. destruct (String.eqb_spec z id) as [->|Hz]; [done|]. by apply oget_odelete_ne.
    + intros q Hq. rewrite children_in_cons, children_in_odelete.
      by apply not_eq_sym, String.eqb_neq in Hq as ->.
Qed.

Lemma deletes_ok d ids :
  owf (s_tree d) → oget (s_tree d) TrashNodeID = None → "" ∉ ids → TrashNodeID ∉ ids →
  ∃ t', apply_changes d (DeleteBlock <$> ids) =
          Ok {| s_tree := t'; s_blocks := s_blocks d; s_title := s_title d |} ∧
    ∀ q, q ≠ TrashNodeID →
      children_in t' q = List.filter (λ x, negb (mem ids x)) (children_in (s_tree d) q).
Proof.
  revert d. induction ids as [|id ids IH]; intros d Hwf Ht He Htr.
  - exists (s_tree d). split; [by destruct d|]. intros q _. symmetry. by apply filter_all.
  - apply not_elem_of_cons in He as [Hid He]. apply not_elem_of_cons in Htr as [Hidt Htr].
    destruct (delete_ok (s_tree d) id Hwf) as (t1 & Hm & [Hwf1 Hg1] & Hc1); [congruence|done|].
    unfold apply_changes. cbn [fmap list_fmap fold_result apply_change]. rewrite Hm. cbn [rbind].
    destruct (IH {| s_tree := t1; s_blocks := s_blocks d; s_title := s_title d |}) as (t' & Ha & Hc);
      [done| |done..|].
    { cbn. rewrite Hg1. by apply String.eqb_neq in Hidt as ->. }
    exists t'. split; [exact Ha|]. intros q Hq. rewrite (Hc q Hq). cbn [s_tree]. rewrite (Hc1 q Hq).
    clear. induction (children_in (s_tree d) q) as [|x l IHl]; [done|]. cbn.
    destruct (String.eqb_spec id x) as [->|Hne]; cbn.
    + rewrite (mem_true (x :: ids) x) by left. done.
    + assert (mem (id :: ids) x = mem ids x) as ->.
      { unfold mem. apply bool_decide_ext. set_solver. }
      by destruct (mem ids x); cbn; rewrite IHl.
Qed.

(** *** One block *)

Lemma oget_places {V} (f : Place → V) pls pl :
  NoDup (pl_id <$> pls) → pl ∈ pls → oget ((λ p, (pl_id p, f p)) <$> pls) (pl_id pl) = Some (f pl).
Proof.
  intros Hn Hin. apply oget_elem.
  - unfold owf, okeys. rewrite <- list_fmap_compose. done.
  - apply list_elem_of_fmap. by exists pl.
Qed.
Lemma oget_places_inv {V} (f : Place → V) pls id v :
  oget ((λ p, (pl_id p, f p)) <$> pls) id = Some v → ∃ pl, pl ∈ pls ∧ pl_id pl = id ∧ f pl = v.
Proof.
  intros H%oget_Some_elem. apply list_elem_of_fmap in H as (pl & [= -> ->] & Hin). eauto.
Qed.

Section refine.
Context `{LodashLaws} (olds : list Place).
Let oldt : DocTree := (λ pl, (pl_id pl, pl_parent pl)) <$> olds.
Let oldb : obj HMBlock := (λ pl, (pl_id pl, pl_block pl)) <$> olds.
Hypothesis olds_ids : NoDup (pl_id <$> olds).

(** The changes of a block: perhaps a move, perhaps a replacement; without a move
    it is already under its parent, without a replacement its content is equal. *)
Lemma place_changes_split cl x :
  ∃ mv rp, place_changes cl (entries olds) x = mv ++ rp ∧
    (mv = [MoveBlock (pl_id x) (pl_left x) (pl_parent x)] ∨
     (mv = [] ∧ oget oldt (pl_id x) = Some (pl_parent x))) ∧
    (rp = [ReplaceBlock (pl_block x)] ∨
     (rp = [] ∧ ∃ b, oget oldb (pl_id x) = Some b ∧ isBlocksEqual b (pl_block x) = true)).
Proof.
  unfold place_changes, block_changes. destruct (oget (entries olds) (pl_id x)) as [m|] eqn:E.
  - apply oget_places_inv in E as (pl & Hpl & Hid & <-).
    assert (oget oldt (pl_id x) = Some (pl_parent pl)) as Ht by (rewrite <- Hid; by apply oget_places).
    assert (oget oldb (pl_id x) = Some (pl_block pl)) as Hb by (rewrite <- Hid; by apply oget_places).
    destruct (cl && _).
    + eexists [_], [_]. split; [done|]. auto.
    + unfold move_changes, replace_changes. cbn.
      eexists _, _. split; [reflexivity|]. split.
      * destruct (String.eqb_spec (pl_left pl) (pl_left x)); [|by left].
        destruct (String.eqb_spec (pl_parent pl) (pl_parent x)) as [<-|]; [|by left]. by right.
      * destruct (isBlocksEqual (pl_block pl) (pl_block x)) eqn:Eq; [|by left]. right. eauto.
  - eexists [_], [_]. split; [done|]. auto.
Qed.

(** The content of the blocks that were processed, and of those that were not. *)
Definition content_done (pre : list Place) (blocks : obj HMBlock) : Prop :=
  (∀ pl, pl ∈ pre → ∃ b, oget blocks (pl_id pl) = Some b ∧
                        (b = pl_block pl ∨ isBlocksEqual b (pl_block pl) = true)) ∧
  (∀ id, id ∉ (pl_id <$> pre) → oget blocks id = oget oldb id).

Lemma place_applied cl pre x post d :
  wf_from [] (pre ++ x :: post) → oget oldt "" = None →
  progress oldt pre (x :: post) (s_tree d) → content_done pre (s_blocks d) →
  ∃ d', apply_changes d (place_changes cl (entries olds) x) = Ok d' ∧ s_title d' = s_title d ∧
    progress oldt (pre ++ [x]) post (s_tree d') ∧ content_done (pre ++ [x]) (s_blocks d').
Proof.
  intros Hw Hroot Hp [Hc1 Hc2].
  pose proof (wf_from_NoDup [] _ Hw NoDup_nil_2) as Hn. cbn in Hn.
  assert (owf oldt) as Hold by (unfold owf, okeys, oldt; by rewrite <- list_fmap_compose).
  assert (pl_id x ≠ "" ∧ pl_id x ∉ (pl_id <$> pre)) as [Hne Hpre].
  { apply wf_from_app in Hw as [_ [(? & _ & ? & _) _]]. done. }
  destruct (place_changes_split cl x) as (mv & rp & -> & Hmv & Hrp).
  assert (∃ t', apply_changes d mv = Ok {| s_tree := t'; s_blocks := s_blocks d; s_title := s_title d |} ∧
            progress oldt (pre ++ [x]) post t') as (t' & Hmv' & Hp').
  { destruct Hmv as [->|[-> Hx]].
    - destruct (progress_move oldt pre x post _ Hw Hp Hold Hroot) as (t' & Hm & Hp').
      exists t'. split; [|done]. cbn. by rewrite Hm.
    - exists (s_tree d). split; [by destruct d|]. by apply progress_keep. }
  assert (∃ blocks', apply_changes {| s_tree := t'; s_blocks := s_blocks d; s_title := s_title d |} rp =
            Ok {| s_tree := t'; s_blocks := blocks'; s_title := s_title d |} ∧
            content_done (pre ++ [x]) blocks') as (b' & Hrp' & Hc').
  { destruct Hrp as [->|[-> (b & Hb & Heq)]].
    - exists (oset (s_blocks d) (pl_id x) (pl_block x)). split.
      { cbn. apply truthy_spec in Hne. unfold pl_id in Hne. by rewrite Hne. }
      split.
      + intros pl [Hpl| ->%list_elem_of_singleton]%elem_of_app.
        * rewrite oget_oset_ne; [by apply Hc1|]. intros Heq. apply Hpre. rewrite Heq.
          by apply list_elem_of_fmap_2.
        * rewrite oget_oset_eq. eauto.
      + intros id. rewrite fmap_app, not_elem_of_app. intros [Hi Hix]. cbn in Hix.
        rewrite list_elem_of_singleton in Hix. rewrite oget_oset_ne by done. by apply Hc2.
    - exists (s_blocks d). split; [done|]. split.
      + intros pl [Hpl| ->%list_elem_of_singleton]%elem_of_app; [by apply Hc1|].
        exists b. rewrite (Hc2 _ Hpre). auto.
      + intros id. rewrite fmap_app, not_elem_of_app. intros [Hi _]. by apply Hc2. }
  eexists. split.
  - unfold apply_changes in *. rewrite fold_result_app, Hmv'. cbn [rbind]. exact Hrp'.
  - split; [done|]. split; [exact Hp' | exact Hc'].
Qed.

Lemma places_applied cl pre post d :
  wf_from [] (pre ++ post) → oget oldt "" = None →
  progress oldt pre post (s_tree d) → content_done pre (s_blocks d) →
  ∃ d', apply_changes d (places_changes cl (entries olds) post) = Ok d' ∧ s_title d' = s_title d ∧
    progress oldt (pre ++ post) [] (s_tree d') ∧ content_done (pre ++ post) (s_blocks d').
Proof.
  revert pre d. induction post as [|x post IH]; intros pre d Hw Hroot Hp Hc.
  - rewrite app_nil_r in *. by exists d.
  - destruct (place_applied cl pre x post d Hw Hroot Hp Hc) as (d1 & H1 & Ht1 & Hp1 & Hc1).
    assert ((pre ++ [x]) ++ post = pre ++ x :: post) as Hassoc by by rewrite <- (assoc_L (++)).
    destruct (IH (pre ++ [x]) d1) as (d2 & H2 & Ht2 & Hp2 & Hc2); [by rewrite Hassoc|done..|].
    rewrite Hassoc in *. exists d2. split; [|by rewrite Ht2].
    unfold apply_changes in *. change (places_changes cl (entries olds) (x :: post))
      with (place_changes cl (entries olds) x ++ places_changes cl (entries olds) post).
    by rewrite fold_result_app, H1.
Qed.
End refine.
