(* ===== verification/DraftSave.v ===== *)
(** * What a save achieves

    The theorems about saving and restoring a draft: the server, applying the
    captured changes to the last known document, ends with the editor's blocks below
    their parents, and in the editor's order when no parent's surviving children are
    reordered; an unchanged document sends nothing; and the cases the comparison gets
    wrong. *)
From S2P Require Import Prelude.
From S2P Require Import JsString.
From S2P Require Import JsObject.
From S2P Require Import BlockTypes.
From S2P Require Import StyledText.
From S2P Require Import BlockConvert.
From S2P Require Import DraftDiff.
From S2P Require Import DocModel.
From S2P Require Import DraftDiffFacts.

(** Lodash's deep equality, as a concrete function. *)
#[export] Instance Annotation_eq_dec : EqDecision Annotation.
Proof. solve_decision. Defined.
#[export] Instance deep_equality : Lodash := {| isEqual := λ a b, bool_decide (a = b) |}.
#[export] Instance deep_equality_laws : LodashLaws.
Proof. constructor. intros a b. apply bool_decide_eq_true. Qed.

(** Every block of the forest [ts] has the content of its place, up to the program's
    equality, which compares neither the name of a block nor its list level. *)
Definition has_content `{Lodash} (d : ServerDoc) (ts : list BlockTree) : Prop :=
  ∀ pl, pl ∈ doc_places ts →
    ∃ b, oget (s_blocks d) (pl_id pl) = Some b ∧
         (b = pl_block pl ∨ isBlocksEqual b (pl_block pl) = true).
(** The document [d] has the blocks of [ts] and no others, each below its parent; the
    children of a parent may be in another order. *)
Definition has_blocks `{Lodash} (d : ServerDoc) (ts : list BlockTree) : Prop :=
  (∀ p, p ≠ TrashNodeID → children_in (s_tree d) p ≡ₚ placed_children (doc_places ts) p) ∧
  has_content d ts.
(** The document [d] is the forest [ts]: every parent has its children in order. *)
Definition holds `{Lodash} (d : ServerDoc) (ts : list BlockTree) : Prop :=
  (∀ p, p ≠ TrashNodeID → children_in (s_tree d) p = placed_children (doc_places ts) p) ∧
  has_content d ts.

Definition good_forest (ts : list BlockTree) : Prop := good_ids (pl_id <$> doc_places ts).

(** No parent's surviving children change order. *)
Definition keeps_order (old new : list BlockTree) : Prop :=
  same_order (s_tree (load_doc "" old)) (doc_places new).

Section save.
Context `{LodashLaws}.

Lemma load_progress old new :
  good_forest old →
  progress (s_tree (load_doc "" old)) [] (doc_places new) (s_tree (load_doc "" old)).
Proof.
  intros (Hn & _). split.
  - unfold owf, okeys. cbn. by rewrite <- list_fmap_compose.
  - set_solver.
  - done.
  - intros Ho p. apply Ho.
Qed.

Lemma tree_get_in old x :
  oget (s_tree (load_doc "" old)) x ≠ None → x ∈ (pl_id <$> doc_places old).
Proof.
  cbn. intros Hx. destruct (oget _ x) as [p|] eqn:E; [|done].
  apply oget_places_inv in E as (pl & Hin & <- & _). by apply list_elem_of_fmap_2.
Qed.

(** The blocks that the deletions leave below a parent. *)
Abbreviation gone old new :=
  (List.filter (λ id, negb (mem (pl_id <$> doc_places new) id)) (pl_id <$> doc_places old)).
Lemma kept_child old new t q x :
  NoDup (pl_id <$> doc_places new) → progress (s_tree (load_doc "" old)) (doc_places new) [] t →
  x ∈ children_in t q →
  negb (mem (gone old new) x) = mem (placed_children (doc_places new) q) x.
Proof.
  intros Hn Hp Hx. apply elem_of_children_in in Hx as Hget; [|apply Hp].
  destruct (decide (x ∈ (pl_id <$> doc_places new))) as [Hin|Hin].
  - apply list_elem_of_fmap in Hin as Hpl. destruct Hpl as (pl & -> & Hpl).
    rewrite (pr_done _ _ _ _ Hp _ Hpl) in Hget. injection Hget as Hq.
    rewrite (mem_placed (doc_places new) pl q Hn Hpl), Hq, String.eqb_refl.
    apply negb_true_iff, mem_false. rewrite list_elem_of_In, List.filter_In, mem_true by done.
    by intros [_ ?].
  - rewrite (mem_false (placed_children _ _)).
    + apply negb_false_iff, mem_true. rewrite list_elem_of_In, List.filter_In, mem_false by done.
      split; [|done]. apply list_elem_of_In, tree_get_in.
      rewrite <- (pr_rest _ _ _ _ Hp _ Hin). congruence.
    + intros (pl & Hpl & <- & _)%elem_of_placed_children. by apply Hin, list_elem_of_fmap_2.
Qed.
(** After the places and the deletions, the tree is the new one up to the order of
    siblings, and the new one if their order was kept. *)
Lemma final_children old new t t' q :
  NoDup (pl_id <$> doc_places new) → progress (s_tree (load_doc "" old)) (doc_places new) [] t →
  children_in t' q = List.filter (λ x, negb (mem (gone old new) x)) (children_in t q) →
  children_in t' q ≡ₚ placed_children (doc_places new) q ∧
  (keeps_order old new → children_in t' q = placed_children (doc_places new) q).
Proof.
  intros Hn Hp E.
  rewrite E. rewrite (List.filter_ext_in _ (mem (placed_children (doc_places new) q)) (children_in t q));
    [clear E|intros x Hx%list_elem_of_In; by apply (kept_child old new t)].
  split.
  - apply NoDup_Permutation; [apply NoDup_ListNoDup, List.NoDup_filter, NoDup_ListNoDup|by apply NoDup_placed_children|].
    + unfold children_in. pose proof (pr_wf _ _ _ _ Hp) as Hwf. unfold owf, okeys in Hwf. clear -Hwf.
      induction t as [|[x r] t IH]; [apply NoDup_nil_2|]. cbn in *. apply NoDup_cons in Hwf as [Hx Hn].
      destruct (String.eqb r q); [|by apply IH]. cbn. apply NoDup_cons. split; [|by apply IH].
      intros (e & -> & He)%list_elem_of_fmap. rewrite list_elem_of_In, List.filter_In, <- list_elem_of_In in He.
      apply Hx. by apply list_elem_of_fmap_2, (proj1 He).
    + intros x. rewrite list_elem_of_In, List.filter_In, <- list_elem_of_In. unfold mem. rewrite bool_decide_eq_true.
      split; [by intros [_ ?]|]. intros Hx. split; [|done]. apply elem_of_children_in; [apply Hp|].
      apply elem_of_placed_children in Hx as (pl & Hpl & <- & <-). by apply (pr_done _ _ _ _ Hp).
  - intros Ho. pose proof (pr_order _ _ _ _ Hp) as Hord. rewrite app_nil_r in Hord. rewrite (Hord Ho q).
    cbn. by rewrite app_nil_r.
Qed.

Lemma extractDeletes_places old new :
  extractDeletes (entries old) (pl_id <$> new) =
  DeleteBlock <$> List.filter (λ id, negb (mem (pl_id <$> new) id)) (pl_id <$> old).
Proof. unfold extractDeletes. by rewrite okeys_entries. Qed.

(** The server applies the changes of a new forest and the deletions. *)
Lemma diff_applied cl old new title :
  good_forest old → good_forest new →
  ∃ d', apply_changes {| s_tree := s_tree (load_doc "" old);
                         s_blocks := s_blocks (load_doc "" old); s_title := title |}
          (places_changes cl (entries (doc_places old)) (doc_places new)
           ++ extractDeletes (entries (doc_places old)) (pl_id <$> doc_places new)) = Ok d' ∧
    s_title d' = title ∧ has_blocks d' new ∧ (keeps_order old new → holds d' new).
Proof.
  intros Hgo Hgn. pose proof Hgo as (Hno & Heo & Hto). pose proof Hgn as (Hnn & Hen & Htn).
  assert (oget (s_tree (load_doc "" old)) "" = None) as Hroot.
  { destruct (oget _ "") eqn:E; [|done]. destruct Heo. apply tree_get_in. congruence. }
  assert (oget (s_tree (load_doc "" old)) TrashNodeID = None) as Htrash.
  { destruct (oget _ TrashNodeID) eqn:E; [|done]. destruct Hto. apply tree_get_in. congruence. }
  destruct (places_applied (doc_places old) Hno cl [] (doc_places new)
    {| s_tree := s_tree (load_doc "" old); s_blocks := s_blocks (load_doc "" old); s_title := title |})
    as (d1 & H1 & Ht1 & Hp1 & Hc1 & _).
  - by apply wf_doc_places.
  - done.
  - by apply load_progress.
  - split; [set_solver | done].
  - cbn [app] in *. rewrite extractDeletes_places.
    set (D := List.filter (λ id, negb (mem (pl_id <$> doc_places new) id)) (pl_id <$> doc_places old)).
    assert (∀ y, y ∈ D → y ∈ (pl_id <$> doc_places old)) as HD.
    { intros y Hy. subst D. rewrite list_elem_of_In, List.filter_In, <- list_elem_of_In in Hy. tauto. }
    destruct (deletes_ok d1 D) as (t' & H2 & Hch).
    + apply Hp1.
    + by rewrite (pr_rest _ _ _ _ Hp1 _ Htn).
    + intros Hin. by apply Heo, HD.
    + intros Hin. by apply Hto, HD.
    + eexists. split.
      { unfold apply_changes in *. rewrite fold_result_app, H1. cbn [rbind]. exact H2. }
      assert (∀ p, p ≠ TrashNodeID → children_in t' p ≡ₚ placed_children (doc_places new) p ∧
        (keeps_order old new → children_in t' p = placed_children (doc_places new) p)) as Hfin.
      { intros p Hp. apply (final_children old new (s_tree d1) t' p Hnn Hp1). by apply Hch. }
      split; [done|]. split; [split; [by intros p Hp; apply Hfin|exact Hc1]|].
      intros Ho. split; [|exact Hc1]. intros p Hp. by apply Hfin.
Qed.
End save.

(** ** The properties *)

Section properties.
Context `{LodashLaws}.

Lemma good_map old : good_forest old → createBlocksMap (to_node <$> old) "" = entries (doc_places old).
Proof. intros (Hn & He & _). by apply createBlocksMap_places. Qed.

(** C1. A save reaches the blocks of the editor's document: the changes that
    [updateDraft] captures (against the map of the loaded draft) are all accepted by
    the server, whatever was moved, and leave it with the new title and with the
    editor's blocks and no others, each below its parent and with its content up to
    [isBlocksEqual].  The siblings are in the editor's order if the children that stay
    with a parent were not reordered; if they were, the order may be another one
    ([moved_pair_is_scrambled]).  Ids are expected to be unique, and not the empty one
    or the trash's. *)
Theorem captured_changes_reach_editor editor old blocks new title title' :
  good_forest old → map_result (editor_tree editor) blocks = Ok new → good_forest new →
  ∃ changes d', captured_changes editor (createBlocksMap (to_node <$> old) "") blocks
                  (Some title) (Some title') = Ok changes ∧
    apply_changes (load_doc title old) changes = Ok d' ∧ s_title d' = title' ∧
    has_blocks d' new ∧ (keeps_order old new → holds d' new).
Proof.
  intros Hgo Hnew Hgn. unfold captured_changes.
  rewrite (good_map old Hgo), compareBlocksWithMap_places, Hnew. cbn [rbind fst snd].
  change (forest_places "" None new) with (doc_places new).
  destruct (diff_applied true old new title' Hgo Hgn) as (d' & Ha & Ht & Hh).
  case_bool_decide as Heq.
  - injection Heq as <-. eexists _, d'. split; [done|]. split; [exact Ha|]. by split.
  - eexists _, d'. split; [done|]. split; [|by split].
    unfold apply_changes in *. cbn [app fold_result apply_change rbind default]. exact Ha.
Qed.

(** Restoring a draft reaches the blocks of the previous one, and its order when the
    fresh draft and the previous one keep the order of the children they share. *)
Theorem restore_changes_reach_previous fresh prev :
  good_forest fresh → good_forest prev →
  ∃ changes d', restore_changes (Some (to_node <$> fresh)) (to_node <$> prev) = Ok changes ∧
    apply_changes (load_doc "" fresh) changes = Ok d' ∧
    has_blocks d' prev ∧ (keeps_order fresh prev → holds d' prev).
Proof.
  intros Hgo Hgn. unfold restore_changes.
  rewrite (good_map fresh Hgo), compareDraftWithMap_places. cbn [rbind fst snd].
  change (forest_places "" None prev) with (doc_places prev).
  destruct (diff_applied false fresh prev "" Hgo Hgn) as (d' & Ha & _ & Hh).
  eexists _, d'. split; [done|]. split; [exact Ha | done].
Qed.

Lemma isBlocksEqual_refl b : isBlocksEqual b b = true.
Proof.
  unfold isBlocksEqual, isBlockAttributesEqual. rewrite !bool_decide_eq_true_2, String.eqb_refl by done.
  rewrite (proj2 (isEqual_spec _ _) eq_refl), andb_true_r. cbn [andb].
  destruct (b_attributes b) as [a|]; [|done]. apply forallb_forall. intros k _. by apply bool_decide_eq_true.
Qed.

Lemma unchanged_place olds pl :
  NoDup (pl_id <$> olds) → pl ∈ olds → place_changes true (entries olds) pl = [].
Proof.
  intros Hn Hin. unfold place_changes.
  change (entries olds) with ((λ p, (pl_id p, {| m_parent := pl_parent p; m_left := pl_left p;
                                                m_block := pl_block p |})) <$> olds).
  rewrite (oget_places _ olds pl Hn Hin). unfold block_changes, listLevel_changed, move_changes,
    replace_changes. cbn [m_parent m_left m_block].
  by rewrite bool_decide_eq_true_2, !String.eqb_refl, isBlocksEqual_refl by done.
Qed.

(** Saving a document that was not edited captures nothing, so [updateDraft]
    sends nothing and resolves with its message. *)
Theorem unchanged_document_sends_nothing {Response} (send : list DocumentChange → result Response)
    editor old blocks title :
  good_forest old → map_result (editor_tree editor) blocks = Ok old →
  captured_changes editor (createBlocksMap (to_node <$> old) "") blocks title title = Ok [] ∧
  updateDraft send editor (createBlocksMap (to_node <$> old) "") blocks title title =
    Ok (inr "No changes applied.").
Proof.
  intros Hg Hold.
  assert (captured_changes editor (createBlocksMap (to_node <$> old) "") blocks title title = Ok []) as E.
  { unfold captured_changes. rewrite (good_map old Hg), compareBlocksWithMap_places, Hold.
    cbn [rbind fst snd]. rewrite bool_decide_eq_true_2 by done.
    change (forest_places "" None old) with (doc_places old).
    rewrite extractDeletes_places. unfold places_changes. f_equal.
    apply elem_of_nil_inv. intros c [Hc|Hc]%elem_of_app.
    - apply list_elem_of_In, in_concat in Hc as (l & Hl & Hc).
      apply list_elem_of_In, list_elem_of_fmap in Hl as (pl & -> & Hpl).
      rewrite (unchanged_place _ _ (proj1 Hg) Hpl) in Hc. done.
    - apply list_elem_of_fmap in Hc as (id & _ & Hid).
      rewrite list_elem_of_In, List.filter_In, <- list_elem_of_In in Hid. destruct Hid as [Hid Hm].
      by rewrite mem_true in Hm. }
  split; [done|]. unfold updateDraft. by rewrite E.
Qed.

(** The deletions of a comparison are exactly the known blocks that the editor
    no longer has, each once. *)
Theorem extractDeletes_spec map touched :
  owf map →
  NoDup (extractDeletes map touched) ∧
  ∀ c, c ∈ extractDeletes map touched ↔
       ∃ id, c = DeleteBlock id ∧ is_Some (oget map id) ∧ id ∉ touched.
Proof.
  intros Hwf. unfold extractDeletes. split.
  - apply NoDup_fmap_2; [by intros ?? [=]|]. unfold owf in Hwf.
    induction (okeys map) as [|k l IH]; [constructor|]. apply NoDup_cons in Hwf as [Hk Hl]. cbn.
    destruct (negb _); [|auto]. constructor; [|auto].
    rewrite list_elem_of_In, List.filter_In, <- list_elem_of_In. tauto.
  - intros c. rewrite list_elem_of_fmap. setoid_rewrite list_elem_of_In.
    setoid_rewrite List.filter_In. setoid_rewrite <- list_elem_of_In.
    setoid_rewrite negb_true_iff. setoid_rewrite bool_decide_eq_false.
    setoid_rewrite elem_of_okeys. naive_solver.
Qed.
End properties.

(** Two blocks moved to the front of their siblings are not saved as such: from
    [a b c d], the editor's [c d a b] is sent as two moves, [c] to the front and
    [a] after [d], because [d] and [b] keep their left siblings; the server ends
    with [c b d a]. *)
Theorem moved_pair_is_scrambled :
  let par id := {| b_id := id; b_type := "paragraph"; b_text := Some id; b_ref := Some "";
                   b_annotations := Some []; b_attributes := Some [] |} in
  let blk id := EBlock id "paragraph" no_props [InlineText id []] [] in
  let old := [Node (par "a") []; Node (par "b") []; Node (par "c") []; Node (par "d") []] in
  let changes := [MoveBlock "c" "" ""; MoveBlock "a" "d" ""] in
  captured_changes None (createBlocksMap (to_node <$> old) "")
    [blk "c"; blk "d"; blk "a"; blk "b"] None None = Ok changes ∧
  rmap (λ d, children_in (s_tree d) "") (apply_changes (load_doc "" old) changes) =
    Ok ["c"; "b"; "d"; "a"].
Proof. split; vm_compute; reflexivity. Qed.

(** The comparison ignores the [name] attribute: whatever name a block's known
    version is given, an otherwise unchanged block sends nothing, so a new file
    or image name is not saved. *)
Theorem renamed_block_is_not_sent `{LodashLaws} b attrs name id l p :
  b_attributes b = Some attrs →
  let b' := {| b_id := b_id b; b_type := b_type b; b_text := b_text b; b_ref := b_ref b;
               b_annotations := b_annotations b; b_attributes := Some (oset attrs "name" name) |} in
  block_changes true (Some {| m_parent := p; m_left := l; m_block := b |}) id l p b' = [].
Proof.
  intros Ha b'. assert (∀ k, k ≠ "name" → oget (oset attrs "name" name) k = oget attrs k) as Hk
    by (intros; by apply oget_oset_ne).
  unfold block_changes, listLevel_changed, move_changes, replace_changes, block_attr.
  cbn [m_parent m_left m_block]. rewrite Ha. cbn [b' b_attributes mbind option_bind].
  rewrite Hk, bool_decide_eq_true_2, !String.eqb_refl by done. cbn [andb orb negb app].
  assert (isBlocksEqual b b' = true) as ->; [|done].
  unfold isBlocksEqual, isBlockAttributesEqual. rewrite Ha. cbn [b' b_attributes b_type b_text b_ref b_annotations].
  rewrite !bool_decide_eq_true_2, String.eqb_refl, (proj2 (isEqual_spec _ _) eq_refl), andb_true_r by done.
  cbn [andb]. apply forallb_forall. intros k Hin. apply bool_decide_eq_true. rewrite Hk; [done|].
  intros ->. cbn in Hin. naive_solver.
Qed.
Lemma renamed_block_is_not_sent_witness :
  let b := {| b_id := "f"; b_type := "file"; b_text := Some ""; b_ref := Some "ipfs://x";
              b_annotations := Some []; b_attributes := Some [("name", "old.txt")] |} in
  let b' := {| b_id := "f"; b_type := "file"; b_text := Some ""; b_ref := Some "ipfs://x";
               b_annotations := Some []; b_attributes := Some [("name", "new.txt")] |} in
  block_changes true (Some {| m_parent := ""; m_left := ""; m_block := b |}) "f" "" "" b' = [].
Proof.
  apply (renamed_block_is_not_sent
    {| b_id := "f"; b_type := "file"; b_text := Some ""; b_ref := Some "ipfs://x";
       b_annotations := Some []; b_attributes := Some [("name", "old.txt")] |}
    [("name", "old.txt")] "new.txt" "f" "" "").
  reflexivity.
Defined.

(** ** Concrete instances *)

Definition ex_par (id text : string) : HMBlock :=
  {| b_id := id; b_type := "paragraph"; b_text := Some text; b_ref := Some "";
     b_annotations := Some []; b_attributes := Some [] |}.
Definition ex_blk (id text : string) (kids : list EditorBlock) : EditorBlock :=
  EBlock id "paragraph" no_props [InlineText text []] kids.
Definition ex_old : list BlockTree :=
  [Node (ex_par "a" "one") [Node (ex_par "b" "two") []]; Node (ex_par "c" "three") []].
Definition ex_new : list BlockTree :=
  [Node (ex_par "a" "one") [Node (ex_par "c" "THREE") []]; Node (ex_par "x" "new") []].

Lemma ex_good : good_forest ex_old ∧ good_forest ex_new.
Proof.
  split; (split; [|split]); vm_compute; try set_solver.
  all: repeat (apply NoDup_cons; split); try apply NoDup_nil_2; set_solver.
Qed.

Lemma ex_keeps : keeps_order ex_old ex_new ∧ keeps_order ex_new ex_old.
Proof.
  split; intros p; unfold placed_children, children_in; cbn -[mem String.eqb];
    repeat match goal with
    | |- context [String.eqb ?x p] => destruct (String.eqb_spec x p) as [<-|]; cbn -[mem String.eqb]
    end; try reflexivity; try congruence.
Qed.

(** A save whose children keep their order, and one where two blocks were moved to the
    front together. *)
Definition ex_row (ids : list string) : list BlockTree := (λ id, Node (ex_par id id) []) <$> ids.
Definition ex_row_blocks (ids : list string) : list EditorBlock := (λ id, ex_blk id id []) <$> ids.
Lemma ex_row_good (ids : list string) : bool_decide (good_ids ids) = true → good_forest (ex_row ids).
Proof.
  intros H%bool_decide_eq_true. unfold good_forest. enough (pl_id <$> doc_places (ex_row ids) = ids) as -> by done.
  unfold doc_places. generalize (@None BlockTree). clear H. induction ids as [|i ids IH]; intros prev; [done|].
  cbn. f_equal. apply IH.
Qed.
Lemma captured_changes_reach_editor_witness :
  (∃ changes d',
    captured_changes None (createBlocksMap (to_node <$> ex_old) "")
      [ex_blk "a" "one" [ex_blk "c" "THREE" []]; ex_blk "x" "new" []] (Some "T") (Some "U") =
      Ok changes ∧
    apply_changes (load_doc "T" ex_old) changes = Ok d' ∧ s_title d' = "U" ∧ holds d' ex_new) ∧
  (∃ changes d',
    captured_changes None (createBlocksMap (to_node <$> ex_row ["a"; "b"; "c"; "d"]) "")
      (ex_row_blocks ["c"; "d"; "a"; "b"]) (Some "T") (Some "T") = Ok changes ∧
    apply_changes (load_doc "T" (ex_row ["a"; "b"; "c"; "d"])) changes = Ok d' ∧
    children_in (s_tree d') "" ≡ₚ ["c"; "d"; "a"; "b"]).
Proof.
  split.
  - destruct (captured_changes_reach_editor None ex_old
      [ex_blk "a" "one" [ex_blk "c" "THREE" []]; ex_blk "x" "new" []] ex_new "T" "U") as (ch & d' & H1 & H2 & H3 & _ & H4);
      [apply ex_good | vm_compute; reflexivity | apply ex_good |].
    exists ch, d'. split; [done|]. split; [done|]. split; [done|]. apply H4, ex_keeps.
  - destruct (captured_changes_reach_editor None (ex_row ["a"; "b"; "c"; "d"]) (ex_row_blocks ["c"; "d"; "a"; "b"])
      (ex_row ["c"; "d"; "a"; "b"]) "T" "T") as (ch & d' & H1 & H2 & _ & [H3 _] & _);
      [by apply ex_row_good | vm_compute; reflexivity | by apply ex_row_good |].
    exists ch, d'. split; [done|]. split; [done|]. exact (H3 "" ltac:(done)).
Defined.

Lemma restore_changes_reach_previous_witness :
  ∃ changes d', restore_changes (Some (to_node <$> ex_new)) (to_node <$> ex_old) = Ok changes ∧
    apply_changes (load_doc "" ex_new) changes = Ok d' ∧ holds d' ex_old.
Proof.
  destruct (restore_changes_reach_previous ex_new ex_old) as (ch & d' & H1 & H2 & _ & H3); [apply ex_good | apply ex_good |].
  exists ch, d'. split; [done|]. split; [done|]. apply H3, ex_keeps.
Defined.

Lemma unchanged_document_sends_nothing_witness :
  updateDraft (Response := unit) (λ _, Err "offline") None (createBlocksMap (to_node <$> ex_new) "")
    [ex_blk "a" "one" [ex_blk "c" "THREE" []]; ex_blk "x" "new" []] (Some "T") (Some "T") =
    Ok (inr "No changes applied.").
Proof.
  apply (unchanged_document_sends_nothing (λ _, Err "offline") None ex_new
    [ex_blk "a" "one" [ex_blk "c" "THREE" []]; ex_blk "x" "new" []] (Some "T"));
    [apply ex_good | vm_compute; reflexivity].
Defined.

Lemma extractDeletes_spec_witness :
  let map := createBlocksMap (to_node <$> ex_old) "" in
  NoDup (extractDeletes map ["a"; "c"]) ∧ extractDeletes map ["a"; "c"] = [DeleteBlock "b"].
Proof.
  split; [|vm_compute; reflexivity]. apply extractDeletes_spec.
  vm_compute. repeat (apply NoDup_cons; split); try apply NoDup_nil_2; set_solver.
Defined.
