(* ===== verification/DraftMachine.v ===== *)
(** * The draft state machine

    [packages/app/models/draft-machine.ts]: the machine that loads, autosaves,
    restores and resets a draft, and the save indicator's machine.  A step takes
    the machine's state and an event to the next state and the effects to run,
    in order.  The conventions of XState that matter are written out: the
    innermost state's transition is taken first and the root's last; an
    untargeted transition and a [reenter: false] self-transition run their
    actions only; entering a state runs its entry actions and then starts the
    actor it invokes; a state's timer and actor are gone once it is left.  The theorems
    follow the machine in a world that counts what is edited, typed, captured and saved. *)
From S2P Require Import Prelude.
From S2P Require Import JsString.
From S2P Require Import JsObject.
From S2P Require Import BlockTypes.
From S2P Require Import DraftDiff.
From stdpp Require Import relations.

(** ** States, context, events *)

Inductive ReadyState : Type :=
| Idle | Changed | Saving | SaveError | Restoring | Resetting.
Inductive DraftState : Type :=
| Fetching | MountingEditor | ErrorState | Ready (r : ReadyState).

Record Context : Type := {
  c_blocksMap : BlocksMap;
  c_hasChangedWhileSaving : bool;
  c_draft : option HMDocument;
  c_title : option string;
  c_errorMessage : string;
  c_restoreTries : N;
  c_changed : option bool;
}.
Definition initial_context : Context :=
  {| c_blocksMap := []; c_hasChangedWhileSaving := false; c_draft := None; c_title := Some "";
     c_errorMessage := ""; c_restoreTries := 0; c_changed := Some false |}.

(** [output] of the save actor: the response's [updatedDocument], or a message. *)
Abbreviation SaveOutput := (HMDocument + string)%type.

Inductive DraftEvent : Type :=
| CHANGE (title : option string)
| RESET_DRAFT
| RESTORE_DRAFT
| RESET_CORRUPT_DRAFT
| GET_DRAFT_ERROR
| GET_DRAFT_RETRY
| GET_DRAFT_SUCCESS (draft : HMDocument)
| SAVE_ON_EXIT
(* the 10 ms of [mountingEditor] and the [autosaveTimeout] of [changed] *)
| MountTimeout
| AutosaveTimeout
(* [onDone] and [onError] of the invoked actors *)
| UpdateDone (output : SaveOutput)
| UpdateError
| RestoreDone
| RestoreError
| ResetDone
| ResetError.

Inductive Effect : Type :=
| IndicatorChange | IndicatorSaving | IndicatorSaved | IndicatorError | IndicatorIdle
| PopulateEditor (draft : HMDocument)
| FocusEditor
| OnSaveSuccess
| Reload
| ResetDraftAndRedirectToDraftList
| StartUpdateDraft (input : Context)
| StartRestoreDraft (input : Context)
| StartResetDraft.

(** ** Actions on the context *)

Definition set_hasChanged (b : bool) (c : Context) : Context :=
  {| c_blocksMap := c_blocksMap c; c_hasChangedWhileSaving := b; c_draft := c_draft c;
     c_title := c_title c; c_errorMessage := c_errorMessage c;
     c_restoreTries := c_restoreTries c; c_changed := c_changed c |}.
Definition setHasChangedWhileSaving : Context → Context := set_hasChanged true.
Definition resetChangeWhileSaving : Context → Context := set_hasChanged false.

(** The assigner returns [undefined] when [context.changed] is already true. *)
Definition setchanged (c : Context) : Context :=
  {| c_blocksMap := c_blocksMap c; c_hasChangedWhileSaving := c_hasChangedWhileSaving c;
     c_draft := c_draft c; c_title := c_title c; c_errorMessage := c_errorMessage c;
     c_restoreTries := c_restoreTries c;
     c_changed := match c_changed c with Some true => None | _ => Some true end |}.

(** On [GET.DRAFT.SUCCESS], the only event that enters [mountingEditor]. *)
Definition setCurrentBlocksmap (draft : HMDocument) (c : Context) : Context :=
  {| c_blocksMap := createBlocksMap (default [] (d_children draft)) "";
     c_hasChangedWhileSaving := c_hasChangedWhileSaving c; c_draft := c_draft c;
     c_title := js_or (d_title draft) (Some "");
     c_errorMessage := c_errorMessage c; c_restoreTries := c_restoreTries c;
     c_changed := c_changed c |}.

Definition setTitle (title : option string) (c : Context) : Context :=
  {| c_blocksMap := c_blocksMap c; c_hasChangedWhileSaving := c_hasChangedWhileSaving c;
     c_draft := c_draft c; c_title := js_or title (c_title c);
     c_errorMessage := c_errorMessage c; c_restoreTries := c_restoreTries c;
     c_changed := c_changed c |}.

Definition updateContextAfterSave (output : SaveOutput) (c : Context) : Context :=
  match output with
  | inl updated =>
      {| c_blocksMap := createBlocksMap (default [] (d_children updated)) "";
         c_hasChangedWhileSaving := false; c_draft := Some updated; c_title := d_title updated;
         c_errorMessage := c_errorMessage c; c_restoreTries := c_restoreTries c;
         c_changed := c_changed c |}
  | inr _ => c
  end.

Definition setCurrentDraft (draft : HMDocument) (c : Context) : Context :=
  {| c_blocksMap := c_blocksMap c; c_hasChangedWhileSaving := c_hasChangedWhileSaving c;
     c_draft := Some draft; c_title := c_title c; c_errorMessage := c_errorMessage c;
     c_restoreTries := c_restoreTries c; c_changed := c_changed c |}.

Definition setError (c : Context) : Context :=
  {| c_blocksMap := c_blocksMap c; c_hasChangedWhileSaving := c_hasChangedWhileSaving c;
     c_draft := c_draft c; c_title := c_title c; c_errorMessage := "ERROR: ";
     c_restoreTries := c_restoreTries c; c_changed := c_changed c |}.

Definition incrementRestoreTries (c : Context) : Context :=
  {| c_blocksMap := c_blocksMap c; c_hasChangedWhileSaving := c_hasChangedWhileSaving c;
     c_draft := c_draft c; c_title := c_title c; c_errorMessage := c_errorMessage c;
     c_restoreTries := c_restoreTries c + 1; c_changed := c_changed c |}.

(** The [assign] of [GET.DRAFT.RETRY]. *)
Definition clear_draft (c : Context) : Context :=
  {| c_blocksMap := []; c_hasChangedWhileSaving := false; c_draft := None;
     c_title := c_title c; c_errorMessage := c_errorMessage c;
     c_restoreTries := c_restoreTries c; c_changed := c_changed c |}.

(** ** Entering states *)

Abbreviation Outcome := (DraftState * Context * list Effect)%type.

(** Effects of the transition's own actions come before the entry's. *)
Definition after_effects (l : list Effect) (o : Outcome) : Outcome := (o.1, l ++ o.2).

Definition enter_changed (c : Context) : Outcome :=
  (Ready Changed, setchanged c, [IndicatorChange]).
Definition enter_saving (c : Context) : Outcome :=
  let c' := resetChangeWhileSaving c in
  (Ready Saving, c', [IndicatorSaving; StartUpdateDraft c']).
Definition enter_mountingEditor (draft : HMDocument) (c : Context) : Outcome :=
  (MountingEditor, setCurrentBlocksmap draft c, [PopulateEditor draft]).
Definition enter_error (c : Context) : Outcome := (ErrorState, c, [IndicatorError]).

(** ** The machine *)

(** The root's transitions, for the events no active state handles. *)
Definition root_step (s : DraftState) (c : Context) (e : DraftEvent) : Outcome :=
  match e with
  | GET_DRAFT_SUCCESS draft => enter_mountingEditor draft (setCurrentDraft draft c)
  | GET_DRAFT_ERROR => enter_error (setError c)
  | SAVE_ON_EXIT => after_effects [FocusEditor] (enter_saving c)
  | _ => (s, c, [])
  end.

(** [onDone] of the save: the first transition whose guard holds. *)
Definition update_done (output : SaveOutput) (c : Context) : Outcome :=
  if c_hasChangedWhileSaving c then enter_saving (updateContextAfterSave output c)
  else
    match output with
    | inr _ => (Ready Idle, c, [IndicatorIdle])
    | inl _ => (Ready Idle, updateContextAfterSave output c, [OnSaveSuccess; IndicatorSaved])
    end.

Definition draft_step (s : DraftState) (c : Context) (e : DraftEvent) : Outcome :=
  match s, e with
  | MountingEditor, MountTimeout => (Ready Idle, c, [FocusEditor])
  | ErrorState, GET_DRAFT_RETRY => (Fetching, clear_draft c, [])
  | ErrorState, RESET_CORRUPT_DRAFT => (ErrorState, c, [ResetDraftAndRedirectToDraftList])
  | Ready Idle, CHANGE title => enter_changed (setTitle title c)
  | Ready Changed, CHANGE title => enter_changed (setTitle title c)
  | Ready Changed, AutosaveTimeout => enter_saving c
  | Ready Saving, CHANGE title => (Ready Saving, setTitle title (setHasChangedWhileSaving c), [])
  | Ready Saving, UpdateDone output => update_done output c
  | Ready Saving, UpdateError => (Ready SaveError, c, [IndicatorError])
  | Ready SaveError, RESET_DRAFT => (Ready Resetting, c, [StartResetDraft])
  | Ready SaveError, RESTORE_DRAFT =>
      let c' := incrementRestoreTries c in (Ready Restoring, c', [StartRestoreDraft c'])
  | Ready Restoring, RestoreDone => (Ready Restoring, c, [Reload])
  | Ready Restoring, RestoreError => (Ready SaveError, c, [])
  | Ready Resetting, ResetDone => (Ready Resetting, c, [Reload])
  | Ready Resetting, ResetError => (Ready SaveError, c, [])
  | _, _ => root_step s c e
  end.

(** ** The save indicator *)

Inductive SaveIndicator : Type :=
| IIdle | IChanged | ISaving | ISaved | IError.

Inductive IndicatorEvent : Type :=
| INDICATOR_CHANGE | INDICATOR_SAVING | INDICATOR_SAVED | INDICATOR_ERROR | INDICATOR_IDLE
(* the two seconds of [saved] *)
| SavedTimeout.

Definition indicator_step (i : SaveIndicator) (e : IndicatorEvent) : SaveIndicator :=
  match i, e with
  | IChanged, INDICATOR_SAVING => ISaving
  | ISaving, INDICATOR_SAVED => ISaved
  | ISaved, SavedTimeout => IIdle
  | _, INDICATOR_CHANGE => IChanged
  | _, INDICATOR_ERROR => IError
  | _, INDICATOR_IDLE => IIdle
  | _, _ => i
  end.

(** The indicator event that an effect sends. *)
Definition effect_indicator (f : Effect) : option IndicatorEvent :=
  match f with
  | IndicatorChange => Some INDICATOR_CHANGE
  | IndicatorSaving => Some INDICATOR_SAVING
  | IndicatorSaved => Some INDICATOR_SAVED
  | IndicatorError => Some INDICATOR_ERROR
  | IndicatorIdle => Some INDICATOR_IDLE
  | _ => None
  end.
Definition indicate (i : SaveIndicator) (l : list Effect) : SaveIndicator :=
  foldl indicator_step i (omap effect_indicator l).

(** * Theorems about the draft machine

    The machine runs in a world that counts the edits of the blocks in the open
    editor, those the running save captured and those the last completed save
    contains; and that knows the title that was typed last, if the machine took it,
    and the title of the last save. *)

(** ** The world *)

Record World : Type := {
  w_state : DraftState;
  w_ctx : Context;
  w_indicator : SaveIndicator;
  w_edits : nat;
  w_captured : nat;
  w_saved : nat;
  w_title : option string;
  w_title_missed : bool;
  w_sent : option string;
}.
Definition initial_world : World :=
  {| w_state := Fetching; w_ctx := initial_context; w_indicator := IIdle;
     w_edits := 0; w_captured := 0; w_saved := 0;
     w_title := None; w_title_missed := false; w_sent := None |}.

(** The editor is on screen in the [ready] states only; a [CHANGE] elsewhere is
    the editor being filled.  The editor of the blocks sends it without a title, the
    title's input with one. *)
Definition is_edit (s : DraftState) (e : DraftEvent) : bool :=
  match s, e with
  | Ready _, CHANGE None => true
  | _, _ => false
  end.
Definition typed_title (s : DraftState) (e : DraftEvent) : option string :=
  match s, e with
  | Ready _, CHANGE title => title
  | _, _ => None
  end.
(** Where a title that is typed lasts: not while a save runs, whose end puts the saved
    one in its place, and not in the states after an error. *)
Definition takes_title (s : DraftState) : bool :=
  match s with Ready Idle | Ready Changed => true | _ => false end.
Definition populated (l : list Effect) : option HMDocument :=
  last (omap (λ f, match f with PopulateEditor d => Some d | _ => None end) l).
Definition starts_save (f : Effect) : bool :=
  match f with
  | StartUpdateDraft _ => true
  | _ => false
  end.
Definition populates (f : Effect) : bool :=
  match f with
  | PopulateEditor _ => true
  | _ => false
  end.
Definition completes_save (s : DraftState) (e : DraftEvent) : bool :=
  match s, e with
  | Ready Saving, UpdateDone _ => true
  | _, _ => false
  end.

(** One event.  A save reads the editor, and the context's title, when it starts; filling
    the editor starts a new editing session. *)
Definition advance (w : World) (e : DraftEvent) : World :=
  let o := draft_step (w_state w) (w_ctx w) e in
  let edits := (w_edits w + if is_edit (w_state w) e then 1 else 0)%nat in
  let saved := if completes_save (w_state w) e then w_captured w else w_saved w in
  {| w_state := o.1.1; w_ctx := o.1.2; w_indicator := indicate (w_indicator w) o.2;
     w_edits := edits;
     w_captured := if existsb starts_save o.2 || existsb populates o.2 then edits else w_captured w;
     w_saved := if existsb populates o.2 then edits else saved;
     w_title := match populated o.2 with
                | Some d => js_or (d_title d) (Some "")
                | None => js_or (typed_title (w_state w) e) (w_title w)
                end;
     w_title_missed := match populated o.2, typed_title (w_state w) e with
                       | Some _, _ => false
                       | None, Some t => negb (takes_title (w_state w) && truthy t)
                       | None, None => w_title_missed w
                       end;
     w_sent := if existsb starts_save o.2 then c_title o.1.2 else w_sent w |}.

Definition indicator_tick (w : World) : World :=
  {| w_state := w_state w; w_ctx := w_ctx w;
     w_indicator := indicator_step (w_indicator w) SavedTimeout;
     w_edits := w_edits w; w_captured := w_captured w; w_saved := w_saved w;
     w_title := w_title w; w_title_missed := w_title_missed w; w_sent := w_sent w |}.

(** The events the application sends: it delivers a draft only while fetching,
    and never sends [GET.DRAFT.RETRY] or [SAVE.ON.EXIT].  The daemon answers a save with
    the draft as it is then, under the title that was sent. *)
Definition app_event (w : World) (e : DraftEvent) : Prop :=
  match e with
  | GET_DRAFT_SUCCESS _ => w_state w = Fetching
  | GET_DRAFT_RETRY | SAVE_ON_EXIT => False
  | UpdateDone (inl updated) => d_title updated = w_sent w
  | _ => True
  end.

Inductive world_step : World → World → Prop :=
| step_event w e : app_event w e → world_step w (advance w e)
| step_indicator w : world_step w (indicator_tick w).

Definition reachable (w : World) : Prop := rtc world_step initial_world w.

(** An invariant of every step holds in every reachable world. *)
Lemma reachable_invariant (P : World → Prop) :
  P initial_world → (∀ w w', P w → world_step w w' → P w') → ∀ w, reachable w → P w.
Proof. intros H0 Hs w Hw. revert w Hw. apply rtc_ind_r; [done|]. intros y z _ Hyz HP. eauto. Qed.

(** ** The invariant *)

(** The map that saves are compared with is the map of the known draft. *)
Definition map_in_sync (c : Context) : Prop :=
  ∃ d, c_draft c = Some d ∧ c_blocksMap c = createBlocksMap (default [] (d_children d)) "".

Definition edits_accounted (w : World) : Prop :=
  w_saved w ≤ w_captured w ≤ w_edits w ∧
  match w_state w with
  | MountingEditor | Ready Idle => w_saved w = w_edits w
  | Ready Saving => c_hasChangedWhileSaving (w_ctx w) = false → w_captured w = w_edits w
  | _ => True
  end.

(** The title that a save sends, now or next, is the one that was typed last. *)
Definition title_accounted (w : World) : Prop :=
  match w_state w with
  | MountingEditor | Ready Idle | Ready Changed =>
      w_title_missed w = false → c_title (w_ctx w) = w_title w
  | Ready Saving =>
      w_title_missed w = false → c_title (w_ctx w) = w_title w ∧ w_sent w = w_title w
  | _ => True
  end.

Definition synced (w : World) : Prop :=
  match w_state w with
  | MountingEditor | Ready _ => map_in_sync (w_ctx w)
  | _ => True
  end.

(** All cases of one event in one state. *)
Ltac step_cases :=
  match goal with
  | H : world_step _ _ |- _ => inversion H as [w0 e He|w0]; subst; clear H
  end;
  [match goal with
   | w : World, e : DraftEvent |- _ =>
       destruct w as [s c ind ed cap sv ti mi se]; cbn in *; destruct s as [| | |r]; [..|destruct r];
       destruct e; cbn in *; try contradiction; try discriminate
   end|].

Lemma edits_accounted_step w w' : edits_accounted w → world_step w w' → edits_accounted w'.
Proof.
  intros Hi Hs. step_cases; [..|exact Hi].
  all: unfold edits_accounted, advance in *; cbn in *; try (unfold update_done; cbn);
    destruct (c_hasChangedWhileSaving c) eqn:Ec; cbn in *; rewrite ?Ec; cbn;
    try (destruct output; cbn); rewrite ?Ec; cbn; try (destruct title; cbn);
    naive_solver lia.
Qed.

Lemma js_or_keep (t : string) o : truthy t = true → js_or (Some t) o = Some t.
Proof. unfold js_or. cbn. by intros ->. Qed.
Lemma title_accounted_step w w' : title_accounted w → world_step w w' → title_accounted w'.
Proof.
  intros Hi Hs. step_cases; [..|exact Hi].
  all: unfold title_accounted, advance in *; cbn in *; try (unfold update_done; cbn);
    try (destruct title as [t|]; cbn in *); try done;
    try (intros Ht%negb_false_iff; by rewrite !js_or_keep); try tauto.
  all: destruct (c_hasChangedWhileSaving c) eqn:Ec, output; cbn in *; naive_solver congruence.
Qed.

Lemma synced_step w w' : synced w → world_step w w' → synced w'.
Proof.
  intros Hi Hs. step_cases; [..|exact Hi].
  all: unfold synced, map_in_sync, advance, update_done in *; cbn in *; try done; eauto.
  all: unfold update_done; destruct (c_hasChangedWhileSaving c), output; cbn; eauto.
Qed.

(** What the indicator shows in each state. *)
Definition indicator_agrees (w : World) : Prop :=
  match w_state w with
  | Fetching | MountingEditor => w_indicator w = IIdle
  | ErrorState | Ready SaveError | Ready Restoring | Ready Resetting => w_indicator w = IError
  | Ready Idle => w_indicator w = IIdle ∨ w_indicator w = ISaved
  | Ready Changed => w_indicator w = IChanged
  | Ready Saving => w_indicator w = ISaving
  end.

Lemma indicator_agrees_step w w' : indicator_agrees w → world_step w w' → indicator_agrees w'.
Proof.
  intros Hi Hs. step_cases; [..|destruct w as [s c ind ed cap sv ti mi se]; destruct s as [| | |[]];
    unfold indicator_agrees, indicator_tick in *; cbn in *; naive_solver].
  all: unfold indicator_agrees, advance, update_done in *; cbn in *;
    try (unfold update_done; destruct (c_hasChangedWhileSaving c), output; cbn); naive_solver.
Qed.

(** ** The properties *)

(** C3. No edit of the blocks is forgotten, and no title that the machine took.  In every
    reachable world the idle machine has saved every edit of the blocks; a running save
    that noted no further change has captured every one, so that an edit made during a
    save is noted and the save is repeated.  The title that a running save sends, or that
    the next one would, is the last one typed, unless that one was typed while a save ran
    or after a failed one, or is empty: those are lost
    ([title_typed_while_saving_is_lost]) and nothing is claimed of them.  The blocks map
    of an open draft is always the map of the known draft.  After a failed save nothing
    is claimed of the edits.  The daemon is expected to answer a save with the title that
    was sent. *)
Theorem no_edit_forgotten w :
  reachable w → edits_accounted w ∧ title_accounted w ∧ synced w.
Proof.
  intros Hw. split; [|split].
  - apply (reachable_invariant edits_accounted); [done|apply edits_accounted_step|done].
  - apply (reachable_invariant title_accounted); [done|apply title_accounted_step|done].
  - apply (reachable_invariant synced); [done|apply synced_step|done].
Qed.

(** The world after a list of events. *)
Definition run (w : World) (l : list DraftEvent) : World := foldl advance w l.

Lemma run_app w l k : run w (l ++ k) = run (run w l) k.
Proof. apply foldl_app. Qed.

(** The edits of the blocks among some changes: those without a title. *)
Definition block_edits (changes : list (option string)) : nat :=
  length (List.filter (λ t, match t with None => true | Some _ => false end) changes).
(** Edits during a save keep the machine saving and are counted. *)
Lemma run_changes w titles :
  w_state w = Ready Saving →
  let w' := run w (CHANGE <$> titles) in
  w_state w' = Ready Saving ∧ w_edits w' = (w_edits w + block_edits titles)%nat ∧
  w_captured w' = w_captured w ∧ w_saved w' = w_saved w ∧
  c_hasChangedWhileSaving (w_ctx w') =
    match titles with [] => c_hasChangedWhileSaving (w_ctx w) | _ => true end.
Proof.
  revert w. induction titles as [|t titles IH]; intros w Hw; [cbn; repeat split; lia || done|].
  cbn zeta. change (run w (CHANGE <$> t :: titles))
    with (run (advance w (CHANGE t)) (CHANGE <$> titles)).
  assert (w_state (advance w (CHANGE t)) = Ready Saving ∧
          w_edits (advance w (CHANGE t)) = (w_edits w + if t then 0 else 1)%nat ∧
          w_captured (advance w (CHANGE t)) = w_captured w ∧
          w_saved (advance w (CHANGE t)) = w_saved w ∧
          c_hasChangedWhileSaving (w_ctx (advance w (CHANGE t))) = true) as (A1 & A2 & A3 & A4 & A5).
  { destruct w as [s c ind ed cap sv ti mi se]. cbn in *. subst s. by destruct t. }
  destruct (IH _ A1) as (H1 & H2 & H3 & H4 & H5).
  rewrite H1, H2, H3, H4, H5, A2, A3, A4, A5. unfold block_edits.
  repeat split; [destruct t; cbn; lia | by destruct titles].
Qed.


(** The indicator agrees with the machine: in every reachable world it shows a
    change while one waits to be saved, saving while a save runs, an error while
    the draft is in an error state, and idle or saved otherwise. *)
Theorem indicator_coherent w : reachable w → indicator_agrees w.
Proof. apply reachable_invariant; [done | apply indicator_agrees_step]. Qed.

(** A title typed while a save runs is lost: when that save completes, the title
    becomes the saved document's, so the repeated save starts with a title equal
    to its draft's and sends no title. *)
Theorem title_typed_while_saving_is_lost c title saved :
  title ≠ "" →
  let o1 := draft_step (Ready Saving) c (CHANGE (Some title)) in
  let o2 := draft_step (Ready Saving) o1.1.2 (UpdateDone (inl saved)) in
  c_title o1.1.2 = Some title ∧
  ∃ input, o2 = (Ready Saving, input, [IndicatorSaving; StartUpdateDraft input]) ∧
    c_draft input = Some saved ∧ c_title input = d_title saved.
Proof.
  intros Ht. cbn. unfold js_or. rewrite otruthy_Some by done. split; [done|].
  eexists. split; [reflexivity|]. done.
Qed.

(** ** Concrete runs *)

Definition ex_doc (title : string) : HMDocument :=
  {| d_title := Some title; d_id := None; d_author := None; d_editors := []; d_children := Some [];
     d_createTime := None; d_updateTime := None; d_publishTime := None; d_version := None;
     d_previousVersion := None |}.

(** A draft is loaded and edited. *)
Definition ex_edited : World :=
  run initial_world [GET_DRAFT_SUCCESS (ex_doc "T"); MountTimeout; CHANGE None].

Lemma ex_reachable : reachable ex_edited.
Proof.
  unfold reachable, ex_edited. cbn [run foldl].
  do 3 (eapply rtc_r; [|by apply step_event]). apply rtc_refl.
Qed.

(** The title is typed, and then the first save runs: the blocks are edited during it. *)
Definition ex_saving : World := run ex_edited [CHANGE (Some "U"); AutosaveTimeout; CHANGE None].
Lemma ex_saving_reachable : reachable ex_saving.
Proof.
  unfold ex_saving. cbn [run foldl].
  do 3 (eapply rtc_r; [|by apply step_event]). apply ex_reachable.
Qed.
Lemma no_edit_forgotten_witness :
  w_state ex_saving = Ready Saving ∧ w_captured ex_saving = 1%nat ∧ w_edits ex_saving = 2%nat ∧
  c_hasChangedWhileSaving (w_ctx ex_saving) = true ∧ w_sent ex_saving = Some "U" ∧ w_title ex_saving = Some "U".
Proof.
  destruct (no_edit_forgotten ex_saving ex_saving_reachable) as (_ & Ht & _).
  destruct (Ht eq_refl) as [_ Hsent]. do 4 (split; [reflexivity|]). split; [exact Hsent|reflexivity].
Defined.


Lemma indicator_coherent_witness : indicator_agrees ex_edited ∧ w_indicator ex_edited = IChanged.
Proof. split; [apply indicator_coherent, ex_reachable | reflexivity]. Defined.

Lemma title_typed_while_saving_is_lost_witness :
  let o1 := draft_step (Ready Saving) initial_context (CHANGE (Some "new")) in
  let o2 := draft_step (Ready Saving) o1.1.2 (UpdateDone (inl (ex_doc "old"))) in
  c_title o1.1.2 = Some "new" ∧
  ∃ input, o2 = (Ready Saving, input, [IndicatorSaving; StartUpdateDraft input]) ∧
    c_draft input = Some (ex_doc "old") ∧ c_title input = Some "old".
Proof. apply (title_typed_while_saving_is_lost initial_context "new" (ex_doc "old")). discriminate. Defined.
