(* ===== verification/Routes.v ===== *)
(** * Routes and windows types

    [packages/app/utils/routes.tsx], [route-context.ts], [route-encoding.ts],
    [window-types.ts], [useNavigate.tsx] and [open-draft.ts]: the routes of the
    desktop application, the context they carry, and the window each opens in. *)
From S2P Require Import Prelude.
From S2P Require Import JsString.
From S2P Require Import JsObject.
From S2P Require Import EntityId.

(** ** Routes *)

Inductive Accessory : Type := AVersions | ACitations | AComments.

Record RouteBlockRange : Type := {
  rb_start : option N;
  rb_end : option N;
  rb_expanded : option bool;
}.

Record BasePublicationRoute : Type := {
  rp_documentId : string;
  rp_versionId : option string;
  rp_variants : option (list PublicationVariant);
  rp_blockId : option string;
  rp_isBlockFocused : option bool;
  rp_blockRange : option RouteBlockRange;
  rp_groupVariantCategory : option string;
  rp_showFirstPublicationMessage : option bool;
  rp_immediatelyPromptPush : option bool;
  rp_accessory : option Accessory;
}.
Record BaseGroupRoute : Type := {
  rg_groupId : string;
  rg_version : option string;
  rg_blockId : option string;
  rg_isBlockFocused : option bool;
  rg_accessory : option Accessory;
}.
Record BaseAccountRoute : Type := {
  ra_accountId : string;
  ra_blockId : option string;
  ra_isBlockFocused : option bool;
  ra_accessory : option Accessory;
}.
(** A group variant: the group's id and the path name. *)
Record GroupVariantRef : Type := { gv_groupId : string; gv_pathName : option string }.
Record BaseDraftRoute : Type := {
  rd_draftId : option string;
  rd_variant : option GroupVariantRef;
  rd_isProfileDocument : option bool;
}.

Inductive BaseEntityRoute : Type :=
| BasePublication (p : BasePublicationRoute)
| BaseGroup (g : BaseGroupRoute)
| BaseAccount (a : BaseAccountRoute)
| BaseDraft (d : BaseDraftRoute).

(** The routes with a context: publications, groups and accounts. *)
Inductive EntityRoute : Type :=
| PublicationRoute (p : BasePublicationRoute) (context : option (list BaseEntityRoute))
| GroupRoute (g : BaseGroupRoute) (context : option (list BaseEntityRoute)) (tab : option string)
| AccountRoute (a : BaseAccountRoute) (context : option (list BaseEntityRoute)) (tab : option string).

Inductive NavRoute : Type :=
| FeedRoute (tab : string)
| ContactsRoute
| ExportRoute
| SettingsRoute
| EntityNav (r : EntityRoute)
| DraftRoute (d : BaseDraftRoute) (contextRoute : option EntityRoute)
| DraftRebaseRoute (documentId sourceVersion targetVersion : string)
| CommentRoute (commentId : option string) (showThread : option bool)
| CommentDraftRoute (commentId : option string) (showThread : option bool)
| ExploreRoute (tab : string)
| FavoritesRoute
| DeletedContentRoute.

Definition defaultRoute : NavRoute := FeedRoute "trusted".

(** [route.key] *)
Definition route_key (r : NavRoute) : string :=
  match r with
  | FeedRoute _ => "feed"
  | ContactsRoute => "contacts"
  | ExportRoute => "export"
  | SettingsRoute => "settings"
  | EntityNav (PublicationRoute _ _) => "publication"
  | EntityNav (GroupRoute _ _ _) => "group"
  | EntityNav (AccountRoute _ _ _) => "account"
  | DraftRoute _ _ => "draft"
  | DraftRebaseRoute _ _ _ => "draft-rebase"
  | CommentRoute _ _ => "comment"
  | CommentDraftRoute _ _ => "comment-draft"
  | ExploreRoute _ => "explore"
  | FavoritesRoute => "favorites"
  | DeletedContentRoute => "deleted-content"
  end.

Section url.
Context `{UrlApi}.

(** The entity of a route, for the recents list. *)
Definition getRecentsRouteEntityUrl (route : NavRoute) : result (option string) :=
  match route with
  | EntityNav (AccountRoute a _ _) => rmap Some (createHmId "a" (ra_accountId a) no_opts)
  | EntityNav (GroupRoute g _ _) => Ok (Some (rg_groupId g))
  | EntityNav (PublicationRoute p _) => Ok (Some (rp_documentId p))
  | _ => Ok None
  end.

Definition getRouteKey (route : NavRoute) : string :=
  match route with
  | EntityNav (AccountRoute a _ _) => "account:" +:+ ra_accountId a
  | DraftRoute d _ => "draft:" +:+ undef_str (rd_draftId d)
  | EntityNav (PublicationRoute p _) => "pub:" +:+ rp_documentId p
  | _ => route_key route
  end.

(** ** Contexts *)

Definition getRouteParentContext (route : NavRoute) : option (list BaseEntityRoute) :=
  match route with
  | EntityNav (PublicationRoute _ c) => c
  | EntityNav (GroupRoute _ c _) => c
  | EntityNav (AccountRoute _ c _) => c
  | _ => None
  end.

Definition getThisRouteContext (route : NavRoute) : option BaseEntityRoute :=
  match route with
  | EntityNav (PublicationRoute p _) => Some (BasePublication p)
  | EntityNav (GroupRoute g _ _) => Some (BaseGroup g)
  | EntityNav (AccountRoute a _ _) => Some (BaseAccount a)
  | _ => None
  end.

(** [{...contextRoute, blockId}] *)
Definition with_blockId (r : BaseEntityRoute) (blockId : string) : BaseEntityRoute :=
  match r with
  | BasePublication p =>
      BasePublication
        {| rp_documentId := rp_documentId p; rp_versionId := rp_versionId p;
           rp_variants := rp_variants p; rp_blockId := Some blockId;
           rp_isBlockFocused := rp_isBlockFocused p; rp_blockRange := rp_blockRange p;
           rp_groupVariantCategory := rp_groupVariantCategory p;
           rp_showFirstPublicationMessage := rp_showFirstPublicationMessage p;
           rp_immediatelyPromptPush := rp_immediatelyPromptPush p; rp_accessory := rp_accessory p |}
  | BaseGroup g =>
      BaseGroup
        {| rg_groupId := rg_groupId g; rg_version := rg_version g; rg_blockId := Some blockId;
           rg_isBlockFocused := rg_isBlockFocused g; rg_accessory := rg_accessory g |}
  | BaseAccount a =>
      BaseAccount
        {| ra_accountId := ra_accountId a; ra_blockId := Some blockId;
           ra_isBlockFocused := ra_isBlockFocused a; ra_accessory := ra_accessory a |}
  | BaseDraft d => BaseDraft d
  end.

Definition getRouteContext (route : NavRoute) (blockIdOfRoute : option string) :
    list BaseEntityRoute :=
  let contextRoute :=
    match getThisRouteContext route with
    | Some r => if otruthy blockIdOfRoute then Some (with_blockId r (default "" blockIdOfRoute)) else Some r
    | None => None
    end in
  default [] (getRouteParentContext route) ++ opt_list contextRoute.

Definition publication_route (documentId : string) (versionId blockId : option string)
    (variants : option (list PublicationVariant)) : BasePublicationRoute :=
  {| rp_documentId := documentId; rp_versionId := versionId; rp_variants := variants;
     rp_blockId := blockId; rp_isBlockFocused := None; rp_blockRange := None;
     rp_groupVariantCategory := None; rp_showFirstPublicationMessage := None;
     rp_immediatelyPromptPush := None; rp_accessory := None |}.
Definition group_route (groupId : string) (version : option string) : BaseGroupRoute :=
  {| rg_groupId := groupId; rg_version := version; rg_blockId := None; rg_isBlockFocused := None;
     rg_accessory := None |}.
Definition account_route (accountId : string) : BaseAccountRoute :=
  {| ra_accountId := accountId; ra_blockId := None; ra_isBlockFocused := None;
     ra_accessory := None |}.

(** [useOpenInContext]: the route it navigates to; a path with no entity id reads
    it as the text [undefined]. *)
Definition openInContext (route : NavRoute) (hmUrl : string) (parentBlockId : option string) :
    result (option NavRoute) :=
  let context := Some (getRouteContext route parentBlockId) in
  let* id := unpackHmId hmUrl in
  match id with
  | None => Ok None
  | Some id =>
      if String.eqb (u_type id) "d" then
        Ok (Some (EntityNav (PublicationRoute
          (publication_route (u_qid id) (or_null (u_version id)) None (u_variants id)) context)))
      else if String.eqb (u_type id) "g" then
        Ok (Some (EntityNav (GroupRoute (group_route (u_qid id) (or_null (u_version id))) context None)))
      else if String.eqb (u_type id) "a" then
        Ok (Some (EntityNav (AccountRoute (account_route (undef_str (u_eid id))) context None)))
      else Ok None
  end.
End url.

(** ** Windows *)

Record WindowTypeInfo : Type := {
  wt_key : string;
  wt_minWidth : Z;
  wt_minHeight : Z;
  wt_maxWidth : option Z;
  wt_maxHeight : option Z;
  wt_initWidth : option Z;
  wt_initHeight : option Z;
}.

Definition getRouteWindowType (route : NavRoute) : WindowTypeInfo :=
  match route with
  | DeletedContentRoute =>
      {| wt_key := "deleted-content"; wt_minWidth := 960; wt_minHeight := 720;
         wt_maxWidth := None; wt_maxHeight := None; wt_initWidth := None; wt_initHeight := None |}
  | SettingsRoute =>
      {| wt_key := "settings"; wt_minWidth := 960; wt_minHeight := 720;
         wt_maxWidth := None; wt_maxHeight := None; wt_initWidth := None; wt_initHeight := None |}
  | CommentRoute _ _ | CommentDraftRoute _ _ =>
      {| wt_key := "comment"; wt_minWidth := 600; wt_minHeight := 600;
         wt_maxWidth := Some 600%Z; wt_maxHeight := None; wt_initWidth := None; wt_initHeight := None |}
  | _ =>
      {| wt_key := "main"; wt_minWidth := 600; wt_minHeight := 400;
         wt_maxWidth := None; wt_maxHeight := None;
         wt_initWidth := Some 1280%Z; wt_initHeight := Some 960%Z |}
  end.

(** [windowType] is [window.windowType?.key]. *)
Definition getWindowType (windowType : option string) : string := default "main" windowType.

Inductive NavMode : Type := MPush | MReplace | MSpawn | MBackplace.

(** What [useNavigate] does with a route: a dispatch in this window, or a window of
    the route's own. *)
Definition navigate_mode (windowType : option string) (requested : NavMode) (route : NavRoute) :
    NavMode :=
  if String.eqb (wt_key (getRouteWindowType route)) (getWindowType windowType) then requested
  else MSpawn.

(** [useClickNavigate] *)
Definition click_mode (metaKey shiftKey : bool) : NavMode :=
  if metaKey || shiftKey then MSpawn else MPush.

(** The route that [useOpenDraft] opens for the new draft [docId]. *)
Definition new_draft_route (route : NavRoute) (groupVariant : option GroupVariantRef)
    (isProfileDocument : option bool) (docId : string) : NavRoute :=
  DraftRoute {| rd_draftId := Some docId; rd_variant := groupVariant;
                rd_isProfileDocument := isProfileDocument |}
    (match route with EntityNav r => Some r | _ => None end).

(** ** Routes in paths *)

(** [JSON] and [Buffer], with the facts used of them for a route: parsing undoes
    printing, decoding undoes encoding, and Base64 text has neither [-] nor [_]. *)
Class RouteCodec : Type := {
  json_stringify : NavRoute → string;
  json_parse : string → result NavRoute;
  to_base64 : string → string;
  of_base64 : string → string;
}.
Record RouteCodecLaws `{RouteCodec} (r : NavRoute) : Prop := {
  json_roundtrip : json_parse (json_stringify r) = Ok r;
  base64_roundtrip : of_base64 (to_base64 (json_stringify r)) = json_stringify r;
  base64_no_minus : lacks "-" (to_base64 (json_stringify r)) = true;
  base64_no_underscore : lacks "_" (to_base64 (json_stringify r)) = true;
}.

Definition encodeRouteToPath `{RouteCodec} (route : NavRoute) : string :=
  "/" +:+ replaceAll1 "+" "_" (replaceAll1 "=" "-" (to_base64 (json_stringify route))).

Definition decodeRouteFromPath `{RouteCodec} (initRoute : string) : result NavRoute :=
  json_parse (of_base64 (replaceAll1 "-" "=" (replaceAll1 "_" "+" initRoute))).

(** The window's page reads its route from the path it was opened with:
    [decodeRouteFromPath(path.slice(1))]. *)
Definition route_of_window_path `{RouteCodec} (path : string) : result NavRoute :=
  decodeRouteFromPath (js_slice_from path 1).

(** ** A concrete codec

    Base64 as in RFC 4648, and the JSON text of the routes that only have a key or
    a key and a tab: enough to evaluate the witnesses. *)
Definition b64_alphabet : string :=
  "ABCDEFGHIJKLMNOPQRSTUVWXYZabcdefghijklmnopqrstuvwxyz0123456789+/".
Definition b64_char (n : N) : ascii := default "="%char (String.get (N.to_nat (n mod 64)) b64_alphabet).
Definition b64_index (c : ascii) : N :=
  match String.index 0 (String c EmptyString) b64_alphabet with
  | Some i => N.of_nat i
  | None => 0
  end.
Fixpoint b64_encode (l : list ascii) : string :=
  match l with
  | a :: b :: c :: rest =>
      let n := (char_code a * 65536 + char_code b * 256 + char_code c)%N in
      String (b64_char (n / 262144)) (String (b64_char (n / 4096))
        (String (b64_char (n / 64)) (String (b64_char n) (b64_encode rest))))
  | [a; b] =>
      let n := (char_code a * 65536 + char_code b * 256)%N in
      String (b64_char (n / 262144)) (String (b64_char (n / 4096)) (String (b64_char (n / 64)) "="))
  | [a] =>
      let n := (char_code a * 65536)%N in
      String (b64_char (n / 262144)) (String (b64_char (n / 4096)) "==")
  | [] => ""
  end.
Fixpoint b64_decode (l : list ascii) : string :=
  match l with
  | a :: b :: c :: d :: rest =>
      let n := (b64_index a * 262144 + b64_index b * 4096 + b64_index c * 64 + b64_index d)%N in
      let byte k := Ascii.ascii_of_N ((n / k) mod 256) in
      if Ascii.eqb c "=" then String (byte 65536%N) ""
      else if Ascii.eqb d "=" then String (byte 65536%N) (String (byte 256%N) "")
      else String (byte 65536%N) (String (byte 256%N) (String (byte 1%N) (b64_decode rest)))
  | _ => ""
  end.
Definition key_json (k : string) : string := "{" +:+ quoted "key" +:+ ":" +:+ quoted k +:+ "}".
Definition tab_json (k tab : string) : string :=
  "{" +:+ quoted "key" +:+ ":" +:+ quoted k +:+ "," +:+ quoted "tab" +:+ ":" +:+ quoted tab +:+ "}".
#[export] Instance plain_codec : RouteCodec := {
  json_stringify r :=
    match r with
    | FeedRoute tab => tab_json "feed" tab
    | ExploreRoute tab => tab_json "explore" tab
    | r => key_json (route_key r)
    end;
  json_parse s :=
    let parts := js_split (String "034" "") s in
    match nth_error parts 3, nth_error parts 7 with
    | Some "feed", Some tab => Ok (FeedRoute tab)
    | Some "explore", Some tab => Ok (ExploreRoute tab)
    | Some "contacts", _ => Ok ContactsRoute
    | Some "settings", _ => Ok SettingsRoute
    | Some "export", _ => Ok ExportRoute
    | Some "favorites", _ => Ok FavoritesRoute
    | Some "deleted-content", _ => Ok DeletedContentRoute
    | _, _ => Err "Unexpected token"
    end;
  to_base64 s := b64_encode (chars s);
  of_base64 s := b64_decode (chars s);
}.
