(* ===== verification/Navigation.v ===== *)
(** * Navigation

    [packages/app/utils/navigation.tsx] and the dispatcher of
    [navigation-container.tsx]: the history of a window (a list of routes and the
    index of the current one), and the route that an identifier opens. *)
From S2P Require Import Prelude.
From S2P Require Import JsString.
From S2P Require Import JsObject.
From S2P Require Import EntityId.
From S2P Require Import Routes.

(** [arr.slice(a, b)] *)
Definition list_slice {A} (l : list A) (a b : Z) : list A :=
  let n := Z.of_nat (length l) in
  take (slice_index n b - slice_index n a) (drop (slice_index n a) l).

(** [arr[i]] *)
Definition list_at {A} (l : list A) (i : Z) : option A :=
  if (i <? 0)%Z then None else l !! Z.to_nat i.

(** ** The history of a window *)

Inductive NavAction : Type :=
| Push (route : NavRoute)
| Replace (route : NavRoute)
| Backplace (route : NavRoute)
| CloseBack
| Pop
| Forward
| SidebarLocked (value : bool).

Inductive NavActionType : Type :=
| TPush | TReplace | TBackplace | TCloseBack | TPop | TForward | TSidebarLocked.
Definition action_type (a : NavAction) : NavActionType :=
  match a with
  | Push _ => TPush
  | Replace _ => TReplace
  | Backplace _ => TBackplace
  | CloseBack => TCloseBack
  | Pop => TPop
  | Forward => TForward
  | SidebarLocked _ => TSidebarLocked
  end.

Record NavState : Type := {
  sidebarLocked : option bool;
  routes : list NavRoute;
  routeIndex : Z;
  lastAction : NavActionType;
}.

(** The reducer: [None] is the argument itself, which the caller recognises by
    reference; [Some s] is a new object. *)
Definition navStateReducer (state : NavState) (action : NavAction) : option NavState :=
  let n := Z.of_nat (length (routes state)) in
  let i := routeIndex state in
  match action with
  | Push route =>
      Some {| sidebarLocked := sidebarLocked state;
              routes := list_slice (routes state) 0 (i + 1) ++ [route];
              routeIndex := i + 1; lastAction := action_type action |}
  | Replace route =>
      Some {| sidebarLocked := sidebarLocked state;
              routes := list_slice (routes state) 0 i ++ [route];
              routeIndex := i; lastAction := action_type action |}
  | Backplace route =>
      if (i =? 0)%Z then
        Some {| sidebarLocked := sidebarLocked state; routes := [route];
                routeIndex := 0; lastAction := action_type action |}
      else
        Some {| sidebarLocked := sidebarLocked state;
                routes := list_slice (routes state) 0 (n - 1) ++ [route];
                routeIndex := i; lastAction := action_type action |}
  | CloseBack | Pop =>
      if (i =? 0)%Z then None
      else Some {| sidebarLocked := sidebarLocked state; routes := routes state;
                   routeIndex := i - 1; lastAction := action_type action |}
  | Forward =>
      Some {| sidebarLocked := sidebarLocked state; routes := routes state;
              routeIndex := Z.min (i + 1) (n - 1); lastAction := action_type action |}
  | SidebarLocked value =>
      Some {| sidebarLocked := Some value; routes := routes state;
              routeIndex := i; lastAction := lastAction state |}
  end.

(** The default of [NavigationContainer]'s [initialNav]. *)
Definition initialNav : NavState :=
  {| sidebarLocked := Some false; routes := [defaultRoute]; routeIndex := 0; lastAction := TReplace |}.

(** [dispatch]: the new state of the window, and whether the window is closed. *)
Definition dispatch (state : NavState) (action : NavAction) : NavState * bool :=
  match navStateReducer state action with
  | Some s => (s, false)
  | None => (state, match action with CloseBack => true | _ => false end)
  end.

(** The window events that the container turns into actions. *)
Inductive AppWindowEvent : Type := EventBack | EventForward | EventOther.
Definition on_window_event (state : NavState) (event : AppWindowEvent) : NavState :=
  match event with
  | EventBack => (dispatch state Pop).1
  | EventForward => (dispatch state Forward).1
  | EventOther => state
  end.

(** [useNavRoute] *)
Definition useNavRoute (state : NavState) : NavRoute :=
  default defaultRoute (list_at (routes state) (routeIndex state)).

(** ** Printing a route for display *)

(** The JavaScript values [simpleStringy] tells apart; an object is its own
    enumerable entries in order, and every other value (a function, [undefined],
    a symbol, a bigint) is [JOther]. *)
Inductive JsValue : Type :=
| JNull
| JString (s : string)
| JNumber (n : N)
| JBool (b : bool)
| JArray (l : list JsValue)
| JObject (entries : list (string * JsValue))
| JOther.

Fixpoint simpleStringy (obj : JsValue) : string :=
  match obj with
  | JArray l => js_join ", " (simpleStringy <$> l)
  | JNull => "null"
  | JString s => s
  | JNumber n => num_to_str n
  | JBool b => if b then "true" else "false"
  | JObject entries =>
      js_join ", " ((λ e : string * JsValue, e.1 +:+ ": " +:+ simpleStringy e.2) <$> entries)
  | JOther => "?"
  end.

(** ** Routes of identifiers *)

(** [/^https?:\/\//] *)
Definition isHttpUrl (url : string) : bool :=
  js_startsWith "http://" url || js_startsWith "https://" url.

Definition comment_route (commentId : string) : NavRoute := CommentRoute (Some commentId) None.

Section routes_of_ids.
Context `{UrlApi}.

(** As in [openInContext], an account path with no entity id is read as the text
    [undefined]. *)
Definition appRouteOfId (id : UnpackedHypermediaId) : result (option NavRoute) :=
  if String.eqb (u_type id) "d" then
    let* docId := createHmId "d" (undef_str (u_eid id)) no_opts in
    Ok (Some (EntityNav (PublicationRoute
      (publication_route docId (or_null (u_version id)) (or_null (u_blockRef id)) (u_variants id))
      None)))
  else if String.eqb (u_type id) "g" then
    let* groupId := createHmId "g" (undef_str (u_eid id)) no_opts in
    Ok (Some (EntityNav (GroupRoute (group_route groupId None) None None)))
  else if String.eqb (u_type id) "a" then
    Ok (Some (EntityNav (AccountRoute (account_route (undef_str (u_eid id))) None None)))
  else if String.eqb (u_type id) "c" then
    let* commentId := createHmId "c" (undef_str (u_eid id)) no_opts in
    Ok (Some (comment_route commentId))
  else Ok None.

(** The two calls to the daemon: the content of a group at a version (the latest
    when [None]), a map from path names to document ids, and the publication of a
    document, of which only the author is read; [None] is a publication with no
    document.  Either may fail. *)
Record NavApi : Type := {
  listContent : string → option string → result (obj string);
  getPublication : string → result (option string);
}.

(** [content.content[name]] on an object: an inherited member is a function, on
    which [unpackDocId] throws. *)
Definition content_at (content : obj string) (name : string) : result (option string) :=
  match oget content name with
  | Some v => Ok (Some v)
  | None =>
      if bool_decide (name ∈ object_prototype_keys) then Err "url.split is not a function"
      else Ok None
  end.

Definition unpackDocOf (v : option string) : result (option UnpackedHypermediaId) :=
  rmap (fmap fst) (unpackDocId (default "" v)).

(** Whether the version in a group link is the group's latest one for the path. *)
Definition group_version_latest (api : NavApi) (groupId contentPathName : string)
    (version : option string) (doc : option UnpackedHypermediaId) : result bool :=
  if otruthy version then
    let* latestContent := listContent api groupId None in
    let* resolvedLatest := content_at latestContent contentPathName in
    let* latestDoc := unpackDocOf resolvedLatest in
    let latestVersion := latestDoc ≫= u_version in
    Ok (otruthy latestVersion && bool_decide ((doc ≫= u_version) = latestVersion))
  else Ok false.

(** The first branch of [resolveHmIdToAppRoute]: a path in a group; [None] falls
    through to the later branches. *)
Definition resolve_group_path (api : NavApi) (hmIds : UnpackedHypermediaId) :
    result (option NavRoute) :=
  let* groupId := createHmId "g" (undef_str (u_eid hmIds)) no_opts in
  let groupPathName := default "" (u_groupPathName hmIds) in
  let contentPathName := if String.eqb groupPathName "-" then "/" else groupPathName in
  let* content := listContent api groupId (Some (default "" (u_version hmIds))) in
  let* resolvedDocIdWithVersion := content_at content contentPathName in
  let* doc := unpackDocOf resolvedDocIdWithVersion in
  let* isVersionLatest :=
    group_version_latest api groupId contentPathName (u_version hmIds) doc in
  match doc with
  | Some d =>
      if otruthy resolvedDocIdWithVersion && otruthy (u_eid d) then
        let* docId := createHmId "d" (undef_str (u_eid d)) no_opts in
        let* g := createHmId "g" (undef_str (u_eid hmIds)) no_opts in
        Ok (Some (EntityNav (PublicationRoute
          (publication_route docId (if isVersionLatest then None else or_null (u_version d)) None
             (Some [GroupVariant g (Some contentPathName)])) None)))
      else Ok None
  | None => Ok None
  end.

(** The second branch: a document, shown in its author's variant unless the link
    names variants. *)
Definition resolve_document (api : NavApi) (hmIds : UnpackedHypermediaId) :
    result (option NavRoute) :=
  let* docId := createHmId "d" (undef_str (u_eid hmIds)) no_opts in
  let* pub := getPublication api docId in
  match pub with
  | None => Ok None
  | Some author =>
      Ok (Some (EntityNav (PublicationRoute
        (publication_route docId
           (match u_latest hmIds with Some true => None | _ => or_null (u_version hmIds) end)
           (or_null (u_blockRef hmIds))
           (Some (default [AuthorVariant (Some author)] (u_variants hmIds)))) None)))
  end.

Definition resolveHmIdToAppRoute (api : NavApi) (hmId : string) :
    result (option (UnpackedHypermediaId * NavRoute)) :=
  let* hmIds := unpackHmId hmId in
  match hmIds with
  | None => Ok None
  | Some ids =>
      let* grouped :=
        if String.eqb (u_type ids) "g" && otruthy (u_eid ids) && otruthy (u_groupPathName ids)
        then resolve_group_path api ids else Ok None in
      match grouped with
      | Some r => Ok (Some (ids, r))
      | None =>
          let* route :=
            if String.eqb (u_type ids) "d" then resolve_document api ids else appRouteOfId ids in
          Ok (pair ids <$> route)
      end
  end.
End routes_of_ids.

(** * Navigation: theorems

    The abstract specification of a window's history (a current route between the
    routes behind it and ahead of it), the refinement between it and
    [navStateReducer], the route that a link opens, and the round trip of a route
    through a window's URL. *)

(** ** The specification: a zipper *)

Record History : Type := { behind : list NavRoute; here : NavRoute; ahead : list NavRoute }.

(** What an action does: the new history, and whether the window closes.  [shown] is
    whether [backplace] replaces the route that is shown, as it is meant to; the window's
    replaces the last route ahead instead, if there are routes behind and ahead. *)
Definition step_of (shown : bool) (h : History) (a : NavAction) : History * bool :=
  match a with
  | Push r => ({| behind := behind h ++ [here h]; here := r; ahead := [] |}, false)
  | Replace r => ({| behind := behind h; here := r; ahead := [] |}, false)
  | Backplace r =>
      if shown || bool_decide (behind h = []) || bool_decide (ahead h = [])
      then ({| behind := behind h; here := r; ahead := [] |}, false)
      else ({| behind := behind h; here := here h; ahead := removelast (ahead h) ++ [r] |}, false)
  | Pop =>
      match last (behind h) with
      | Some r => ({| behind := removelast (behind h); here := r; ahead := here h :: ahead h |}, false)
      | None => (h, false)
      end
  | CloseBack =>
      match last (behind h) with
      | Some r => ({| behind := removelast (behind h); here := r; ahead := here h :: ahead h |}, false)
      | None => (h, true)
      end
  | Forward =>
      match ahead h with
      | r :: rs => ({| behind := behind h ++ [here h]; here := r; ahead := rs |}, false)
      | [] => (h, false)
      end
  | SidebarLocked _ => (h, false)
  end.

Fixpoint run_of (shown : bool) (h : History) (actions : list NavAction) : History * list bool :=
  match actions with
  | [] => (h, [])
  | a :: rest =>
      let '(h', closed) := step_of shown h a in
      let '(h'', log) := run_of shown h' rest in (h'', closed :: log)
  end.
(** The history of the window, and that of a browser. *)
Abbreviation history_step := (step_of false).
Abbreviation history_run := (run_of false).
Abbreviation browser_run := (run_of true).

(** The window's side: the states after a sequence of actions, and for each action
    whether it closed the window. *)
Fixpoint dispatch_run (s : NavState) (actions : list NavAction) : NavState * list bool :=
  match actions with
  | [] => (s, [])
  | a :: rest =>
      let '(s', closed) := dispatch s a in
      let '(s'', log) := dispatch_run s' rest in (s'', closed :: log)
  end.

Definition represents (s : NavState) (h : History) : Prop :=
  routes s = behind h ++ here h :: ahead h ∧ routeIndex s = Z.of_nat (length (behind h)).

(** [backplace] only where nothing is ahead, or nothing behind. *)
Definition backplace_safe (h : History) (a : NavAction) : bool :=
  match a with
  | Backplace _ => bool_decide (ahead h = []) || bool_decide (behind h = [])
  | _ => true
  end.
Fixpoint backplaces_safe (h : History) (actions : list NavAction) : bool :=
  match actions with
  | [] => true
  | a :: rest => backplace_safe h a && backplaces_safe (history_step h a).1 rest
  end.

(** The index points at a route. *)
Definition nav_wf (s : NavState) : Prop :=
  (0 <= routeIndex s < Z.of_nat (length (routes s)))%Z.

(** ** Slices *)

Lemma list_slice_take {A} (l : list A) (n : Z) :
  (0 <= n <= Z.of_nat (length l))%Z → list_slice l 0 n = take (Z.to_nat n) l.
Proof.
  intros. unfold list_slice. rewrite !slice_index_id by lia.
  change (Z.to_nat 0) with 0. rewrite drop_0. f_equal. lia.
Qed.

Lemma list_slice_prefix {A} (l k : list A) (n : Z) :
  n = Z.of_nat (length l) → list_slice (l ++ k) 0 n = l.
Proof.
  intros ->. rewrite list_slice_take by (rewrite length_app; lia).
  rewrite Nat2Z.id. apply take_app_length.
Qed.

Lemma length_list_slice {A} (l : list A) (n : Z) :
  (0 <= n <= Z.of_nat (length l))%Z → Z.of_nat (length (list_slice l 0 n)) = n.
Proof. intros. rewrite list_slice_take, length_take by done. lia. Qed.

Lemma last_removelast {A} (l : list A) x : last l = Some x → l = removelast l ++ [x].
Proof.
  induction l as [|y l IH] using rev_ind; [done|].
  rewrite last_snoc, removelast_last. by intros [= ->].
Qed.

Lemma last_None_nil {A} (l : list A) : last l = None → l = [].
Proof. apply last_None. Qed.

(** ** The invariant *)

Lemma navStateReducer_wf s a s' : nav_wf s → navStateReducer s a = Some s' → nav_wf s'.
Proof.
  unfold nav_wf. intros Hwf H.
  destruct a as [r|r|r| | | |v]; cbn in H; repeat case_match; try discriminate;
    injection H as <-; cbn; rewrite ?length_app; cbn [length]; rewrite ?Nat2Z.inj_add;
    rewrite ?length_list_slice by lia; lia.
Qed.

Lemma dispatch_wf s a : nav_wf s → nav_wf (dispatch s a).1.
Proof.
  intros Hwf. unfold dispatch. destruct (navStateReducer s a) eqn:E; [|done].
  by eapply navStateReducer_wf.
Qed.

Lemma dispatch_run_wf s actions : nav_wf s → nav_wf (dispatch_run s actions).1.
Proof.
  revert s. induction actions as [|a rest IH]; intros s Hwf; [done|]. cbn.
  pose proof (dispatch_wf s a Hwf) as Hwf'. destruct (dispatch s a) as [s' c].
  specialize (IH s' Hwf'). by destruct (dispatch_run s' rest).
Qed.

(** ** The refinement *)

Lemma represents_wf s h : represents s h → nav_wf s.
Proof. intros [Hr Hi]. unfold nav_wf. rewrite Hr, Hi, length_app. cbn. lia. Qed.

Lemma represents_current s h : represents s h → useNavRoute s = here h.
Proof.
  intros [Hr Hi]. unfold useNavRoute, list_at. rewrite Hr, Hi.
  destruct (Z.ltb_spec (Z.of_nat (length (behind h))) 0); [lia|].
  by rewrite Nat2Z.id, list_lookup_middle.
Qed.

Lemma represents_back s h r :
  represents s h → last (behind h) = Some r →
  (routeIndex s =? 0)%Z = false ∧
  ∀ b t, represents {| sidebarLocked := b; routes := routes s; routeIndex := routeIndex s - 1;
                       lastAction := t |}
           {| behind := removelast (behind h); here := r; ahead := here h :: ahead h |}.
Proof.
  intros [Hr Hi] Hlast. pose proof (last_removelast _ _ Hlast) as Hb.
  assert (length (behind h) = S (length (removelast (behind h)))) as Hl
    by (rewrite Hb at 1; rewrite length_app; cbn; lia).
  split; [apply Z.eqb_neq; lia|]. intros b t. split; cbn.
  - rewrite Hr. rewrite Hb at 1. by rewrite <- app_assoc.
  - lia.
Qed.

Lemma represents_first s h :
  represents s h → last (behind h) = None → (routeIndex s =? 0)%Z = true.
Proof. intros [_ Hi] Hb%last_None_nil. rewrite Hb in Hi. by apply Z.eqb_eq. Qed.

Lemma step_safe h a : backplace_safe h a = true → step_of false h a = step_of true h a.
Proof. destruct a; try done. cbn. by intros ->%orb_true_iff%or_comm%orb_true_iff. Qed.
Lemma dispatch_refines s h a :
  represents s h →
  represents (dispatch s a).1 (history_step h a).1 ∧ (dispatch s a).2 = (history_step h a).2.
Proof.
  intros Hrep. pose proof Hrep as [Hr Hi]. unfold dispatch.
  destruct a as [r|r|r| | | |v]; cbn [navStateReducer step_of].
  - split; [|done]. split; cbn; [|rewrite length_app; cbn; lia].
    rewrite Hr, (cons_middle (here h)), app_assoc, list_slice_prefix; [done|].
    rewrite length_app. cbn. lia.
  - split; [|done]. split; cbn; [|done]. by rewrite Hr, list_slice_prefix.
  - rewrite orb_false_l. destruct (behind h) as [|b bs] eqn:Eb.
    + cbn in Hi. rewrite Hi. by split.
    + rewrite <- Eb in *. assert ((routeIndex s =? 0)%Z = false) as ->
        by (apply Z.eqb_neq; rewrite Hi, Eb; cbn; lia).
      rewrite bool_decide_eq_false_2 by (by rewrite Eb). cbn [orb].
      case_bool_decide as Ha; (split; [|done]); (split; cbn; [|done]); rewrite Hr.
      * rewrite Ha, list_slice_prefix; [done|]. rewrite length_app. cbn. lia.
      * destruct (ahead h) as [|a0 as0] eqn:Ea using rev_ind; [done|]. rewrite removelast_last.
        rewrite app_comm_cons, app_assoc, list_slice_prefix; [by rewrite <- app_assoc|].
        rewrite !length_app. cbn. lia.
  - destruct (last (behind h)) as [r|] eqn:Hl.
    + destruct (represents_back _ _ _ Hrep Hl) as [-> Hback]. by split; [apply Hback|].
    + by rewrite (represents_first _ _ Hrep Hl).
  - destruct (last (behind h)) as [r|] eqn:Hl.
    + destruct (represents_back _ _ _ Hrep Hl) as [-> Hback]. by split; [apply Hback|].
    + by rewrite (represents_first _ _ Hrep Hl).
  - destruct (ahead h) as [|r rs] eqn:Ha; (split; [|done]); split; cbn; rewrite Hr, ?Ha; try done.
    + rewrite Hi, length_app. cbn. lia.
    + by rewrite <- app_assoc.
    + rewrite Hi, !length_app. cbn. lia.
  - split; [|done]. split; cbn; done.
Qed.

(** ** Text of a route *)

Lemma replaceAll1_inverse a b s :
  lacks b s = true → replaceAll1 b a (replaceAll1 a b s) = s.
Proof.
  unfold replaceAll1. induction s as [|c s IH]; [done|].
  rewrite lacks_cons. intros [Hc Hs]%andb_prop. cbn. rewrite (IH Hs). f_equal.
  destruct (Ascii.eqb_spec c a) as [->|Hne]; [by rewrite Ascii.eqb_refl|].
  apply negb_true_iff in Hc. by rewrite Ascii.eqb_sym, Hc.
Qed.

Lemma lacks_replaceAll1 a b c s :
  c ≠ b → lacks c s = true → lacks c (replaceAll1 a b s) = true.
Proof.
  intros Hcb. unfold replaceAll1. induction s as [|d s IH]; [done|].
  rewrite !lacks_cons. intros [Hd Hs]%andb_prop. cbn [str_map]. rewrite lacks_cons, (IH Hs).
  destruct (Ascii.eqb d a); [|by rewrite Hd].
  apply Ascii.eqb_neq in Hcb. by rewrite Hcb.
Qed.

Lemma js_slice_tail c s : js_slice_from (String c s) 1 = s.
Proof.
  apply chars_inj. unfold js_slice_from.
  rewrite chars_slice by (unfold len; cbn [String.length]; lia). rewrite Nat2Z.id.
  change (Z.to_nat 1) with 1. change (drop 1 (chars (String c s))) with (chars s).
  change (len (String c s)) with (S (len s)). rewrite <- length_chars. apply take_ge. lia.
Qed.

(** ** Identifiers *)

Section ids.
Context `{UrlApiLaws}.

Lemma createHmId_bare t e :
  is_entity_type t = true → clean_ne e = true →
  createHmId t e no_opts = Ok ("hm://" +:+ t +:+ "/" +:+ e).
Proof.
  intros Ht He. rewrite (createHmId_parts t e no_opts None); try done; [|constructor].
  unfold url_of. cbn [no_opts o_groupPathName]. rewrite path_join. cbn.
  by rewrite !str_app_nil_r.
Qed.

Lemma unpackDocOf_created e o url :
  clean_ne e = true → clean_opts o → createHmId "d" e o = Ok url →
  unpackDocOf (Some url) = Ok (Some (unpacked_of url "d" e o)) ∧ otruthy (Some url) = true.
Proof.
  intros He Ho Hc. destruct (createHmId_unpack "d" e o eq_refl He Ho) as (b & Hc' & Hu).
  rewrite Hc in Hc'. injection Hc' as ->. split; [|done].
  unfold unpackDocOf, unpackDocId. cbn [from_option id]. rewrite Hu.
  cbn [rbind unpacked_of u_eid u_type undef_str from_option id].
  pose proof He as [_ Hne]%clean_ne_spec. rewrite otruthy_Some by done.
  cbn -[createHmId]. by rewrite createHmId_bare.
Qed.

Lemma version_ne o v : clean_opts o → o_version o = Some v → v ≠ "".
Proof. intros (_ & Hv & _) E. rewrite E in Hv. by destruct Hv. Qed.

(** The version a group link leads to: none when it is the group's latest. *)
Definition route_version (v latest : string) : option string :=
  if String.eqb v latest then None else Some v.

(** A versioned link to a path of a group opens the document that the group
    lists there at that version, in that group's variant; the route carries the
    document's version unless the group's latest content lists the same version,
    and then the route follows the latest one.  The path [-] of a link is the
    group's front page. *)
Theorem resolve_group_link (api : NavApi) g o p v e od dv e' od' dv' content latest url docUrl docUrl' :
  clean_ne g = true → clean_opts o → o_groupPathName o = Some p → o_version o = Some v →
  clean_ne e = true → clean_opts od → o_version od = Some dv →
  clean_ne e' = true → clean_opts od' → o_version od' = Some dv' →
  createHmId "g" g o = Ok url → createHmId "d" e od = Ok docUrl → createHmId "d" e' od' = Ok docUrl' →
  let gid := "hm://g/" +:+ g in
  let path := if String.eqb p "-" then "/" else p in
  listContent api gid (Some v) = Ok content → oget content path = Some docUrl →
  listContent api gid None = Ok latest → oget latest path = Some docUrl' →
  resolveHmIdToAppRoute api url =
  Ok (Some (unpacked_of url "g" g o,
    EntityNav (PublicationRoute
      (publication_route ("hm://d/" +:+ e) (route_version dv dv') None
         (Some [GroupVariant gid (Some path)])) None))).
Proof.
  intros Hg Ho Hp Hv He Hod Hdv He' Hod' Hdv' Hurl Hdoc Hdoc' gid path Hlist Hget Hlatest Hget'.
  destruct (createHmId_unpack "g" g o eq_refl Hg Ho) as (b & Hc & Hu).
  rewrite Hurl in Hc. injection Hc as ->.
  pose proof Ho as (Hop & Hov & _). rewrite Hp in Hop. rewrite Hv in Hov.
  pose proof Hg as [_ Hgne]%clean_ne_spec. pose proof Hop as [_ Hpne]%clean_ne_spec.
  pose proof He as [_ Hene]%clean_ne_spec. destruct Hov as [_ Hvne].
  pose proof (version_ne _ _ Hod Hdv) as Hdvne. pose proof (version_ne _ _ Hod' Hdv') as Hdvne'.
  unfold resolveHmIdToAppRoute. rewrite Hu. cbn [rbind unpacked_of u_type u_eid u_groupPathName].
  rewrite Hp, !otruthy_Some by done. change (String.eqb "g" "g") with true. cbn [andb].
  unfold resolve_group_path, group_version_latest.
  cbn [unpacked_of u_type u_eid u_groupPathName u_version undef_str from_option id].
  rewrite !createHmId_bare by done. cbn [rbind]. rewrite Hp. cbn [from_option id].
  change ("hm://" +:+ "g" +:+ "/" +:+ g) with gid. fold path. rewrite Hv. cbn [from_option id].
  rewrite Hlist. cbn [rbind]. unfold content_at. rewrite Hget. cbn [rbind].
  destruct (unpackDocOf_created e od docUrl He Hod Hdoc) as [-> ->].
  destruct (unpackDocOf_created e' od' docUrl' He' Hod' Hdoc') as [Hu' _].
  cbn [rbind]. rewrite (otruthy_Some v) by done.
  rewrite Hlatest. cbn [rbind]. rewrite Hget'. cbn [rbind]. rewrite Hu'.
  cbn [rbind mbind option_bind unpacked_of u_version u_eid]. rewrite Hdv, Hdv'.
  rewrite !otruthy_Some by done. cbn [andb undef_str from_option id].
  rewrite createHmId_bare by done. cbn [rbind fmap option_fmap option_map].
  unfold route_version, or_null, js_or. rewrite otruthy_Some by done.
  do 7 f_equal. destruct (String.eqb_spec dv dv') as [->|Hne].
  - by rewrite bool_decide_eq_true_2.
  - by rewrite bool_decide_eq_false_2 by congruence.
Qed.

Lemma or_null_nonempty (x : option string) : (∀ v, x = Some v → v ≠ "") → or_null x = x.
Proof.
  intros Hx. destruct x as [v|]; [|done]. unfold or_null, js_or. by rewrite otruthy_Some by auto.
Qed.

Lemma block_ref_ne o v : clean_opts o → o_blockRef o = Some v → v ≠ "".
Proof. intros (_ & _ & Hv & _) E. rewrite E in Hv. by destruct Hv as [? _]; intros ->. Qed.

(** A link to a document opens the document of that id at the version and the
    block of the link, following the latest version when the link says so, in the
    variants of the link or else in its author's variant; a publication without a
    document opens nothing, and a failed lookup is a failure. *)
Theorem resolve_document_link (api : NavApi) e o url :
  clean_ne e = true → clean_opts o → createHmId "d" e o = Ok url →
  resolveHmIdToAppRoute api url =
  rmap (fmap (λ author, (unpacked_of url "d" e o,
    EntityNav (PublicationRoute
      (publication_route ("hm://d/" +:+ e)
         (match o_latest o with Some true => None | _ => o_version o end) (o_blockRef o)
         (Some (default [AuthorVariant (Some author)] (o_variants o)))) None))))
    (getPublication api ("hm://d/" +:+ e)).
Proof.
  intros He Ho Hurl. destruct (createHmId_unpack "d" e o eq_refl He Ho) as (b & Hc & Hu).
  rewrite Hurl in Hc. injection Hc as ->.
  unfold resolveHmIdToAppRoute. rewrite Hu. cbn [rbind unpacked_of u_type u_eid u_groupPathName].
  change (String.eqb "d" "g") with false. change (String.eqb "d" "d") with true.
  cbn [andb rbind]. unfold resolve_document.
  cbn [unpacked_of u_eid u_latest u_version u_blockRef u_variants undef_str from_option id].
  rewrite createHmId_bare by done. cbn [rbind].
  change ("hm://" +:+ "d" +:+ "/" +:+ e) with ("hm://d/" +:+ e).
  destruct (getPublication api ("hm://d/" +:+ e)) as [[author|]|]; cbn [rbind rmap]; [|done..].
  rewrite !or_null_nonempty; [| by intros; eapply block_ref_ne | by intros; eapply version_ne].
  by destruct (o_latest o) as [[|]|].
Qed.
End ids.

(** ** Theorems on the history *)

(** Whatever the actions, from a window whose index points at a route, the
    index points at a route again, so that the window always shows one of its
    routes and never falls back to the default. *)
Theorem navigation_shows_a_route s actions :
  nav_wf s →
  let s' := (dispatch_run s actions).1 in
  nav_wf s' ∧ list_at (routes s') (routeIndex s') = Some (useNavRoute s').
Proof.
  intros Hwf%(dispatch_run_wf s actions) s'. split; [done|]. fold s' in Hwf. destruct Hwf as [Hlo Hhi].
  unfold useNavRoute, list_at. destruct (Z.ltb_spec (routeIndex s') 0); [lia|].
  destruct (routes s' !! Z.to_nat (routeIndex s')) eqn:E; [done|].
  apply lookup_ge_None in E. lia.
Qed.

(** C9. The list of routes with an index implements the history of a window: after any
    actions, the routes are those behind, the current one and those ahead as the
    specification says, the window shows the current route, and it has been closed
    exactly by the [closeBack]s done at the first route.  The specification is the
    history of a browser except for [backplace]: with routes behind and ahead it leaves
    the current route and replaces the last one ahead.  If that case does not occur
    ([backplaces_safe]), it is the history of a browser. *)
Theorem navigation_refines_history s h actions :
  represents s h →
  let '(s', closed) := dispatch_run s actions in
  let '(h', closed') := history_run h actions in
  represents s' h' ∧ useNavRoute s' = here h' ∧ closed = closed' ∧
  (backplaces_safe h actions = true → browser_run h actions = (h', closed')).
Proof.
  revert s h. induction actions as [|a rest IH]; intros s h Hrep; cbn.
  - by pose proof (represents_current s h Hrep).
  - destruct (dispatch_refines s h a Hrep) as [Hrep' Hclosed].
    pose proof (step_safe h a) as Hsafe.
    destruct (dispatch s a) as [s' c], (step_of false h a) as [h' c']. cbn in *.
    specialize (IH s' h' Hrep').
    destruct (dispatch_run s' rest) as [s2 l], (run_of false h' rest) as [h2 l'].
    destruct IH as (H1 & H2 & -> & H4). split; [done|]. split; [done|]. split; [by rewrite Hclosed|].
    intros [Ha Hrest]%andb_prop. rewrite <- (Hsafe Ha), (H4 Hrest). done.
Qed.

(** After going back, [backplace] does not replace the route the window shows:
    it replaces the last route ahead, and the window goes on showing the same
    route. *)
Theorem backplace_after_back s h r :
  represents s h → behind h ≠ [] → ahead h ≠ [] →
  let s' := (dispatch s (Backplace r)).1 in
  useNavRoute s' = useNavRoute s ∧
  represents s' {| behind := behind h; here := here h; ahead := removelast (ahead h) ++ [r] |}.
Proof.
  intros Hrep Hb Ha s'.
  assert (represents s' {| behind := behind h; here := here h; ahead := removelast (ahead h) ++ [r] |})
    as Hrep'.
  { destruct Hrep as [Hr Hi]. unfold s', dispatch. cbn [navStateReducer].
    destruct (behind h) as [|b bs] eqn:Eb; [done|]. rewrite <- Eb in *.
    assert ((routeIndex s =? 0)%Z = false) as ->
      by (apply Z.eqb_neq; rewrite Hi, Eb; cbn; lia).
    split; cbn; [|done]. rewrite Hr.
    destruct (ahead h) as [|a0 as0] eqn:Ea using rev_ind; [done|]. rewrite removelast_last.
    rewrite app_comm_cons, app_assoc, list_slice_prefix; [by rewrite <- app_assoc|].
    rewrite !length_app. cbn. lia. }
  split; [|done]. rewrite (represents_current _ _ Hrep'). cbn.
  by rewrite (represents_current _ _ Hrep).
Qed.

(** A route survives the trip through a window's URL: the page that is opened
    at the encoded path decodes the same route. *)
Theorem route_path_roundtrip `{RouteCodec} r :
  RouteCodecLaws r → route_of_window_path (encodeRouteToPath r) = Ok r.
Proof.
  intros [Hjson Hb64 Hminus Hunder].
  unfold route_of_window_path, encodeRouteToPath, decodeRouteFromPath.
  change ("/" +:+ ?x) with (String "/" x). rewrite js_slice_tail.
  rewrite replaceAll1_inverse by (by apply lacks_replaceAll1).
  rewrite replaceAll1_inverse by done. by rewrite Hb64.
Qed.

(** ** Witnesses *)

Lemma initialNav_represents :
  represents initialNav {| behind := []; here := defaultRoute; ahead := [] |}.
Proof. split; reflexivity. Qed.

Definition ex_actions : list NavAction :=
  [Push ContactsRoute; Backplace SettingsRoute; Push FavoritesRoute; Pop; Pop; Forward;
   SidebarLocked true; CloseBack; CloseBack; Replace DeletedContentRoute].

Lemma navigation_shows_a_route_witness :
  let s' := (dispatch_run initialNav ex_actions).1 in
  nav_wf s' ∧ list_at (routes s') (routeIndex s') = Some DeletedContentRoute.
Proof. apply (navigation_shows_a_route initialNav ex_actions). split; cbn; lia. Defined.

(** A run with a browser's history, and one with a [backplace] after going back. *)
Lemma navigation_refines_history_witness :
  (let '(s', closed) := dispatch_run initialNav ex_actions in
   represents s' {| behind := []; here := DeletedContentRoute; ahead := [] |} ∧
   useNavRoute s' = DeletedContentRoute ∧
   closed = [false; false; false; false; false; false; false; false; true; false]) ∧
  (let '(s', closed) := dispatch_run initialNav
     [Push ContactsRoute; Push SettingsRoute; Pop; Backplace FavoritesRoute; CloseBack; CloseBack] in
   represents s' {| behind := []; here := defaultRoute; ahead := [ContactsRoute; FavoritesRoute] |} ∧
   closed = [false; false; false; false; false; true]).
Proof.
  split.
  - destruct (navigation_refines_history initialNav {| behind := []; here := defaultRoute; ahead := [] |} ex_actions
      initialNav_represents) as (H1 & H2 & H3 & _). exact (conj H1 (conj H2 H3)).
  - destruct (navigation_refines_history initialNav {| behind := []; here := defaultRoute; ahead := [] |}
      [Push ContactsRoute; Push SettingsRoute; Pop; Backplace FavoritesRoute; CloseBack; CloseBack]
      initialNav_represents) as (H1 & _ & H3 & _). exact (conj H1 H3).
Defined.

Definition ex_nav : NavState :=
  {| sidebarLocked := None; routes := [ContactsRoute; SettingsRoute; FavoritesRoute];
     routeIndex := 1; lastAction := TPop |}.

Lemma backplace_after_back_witness :
  useNavRoute (dispatch ex_nav (Backplace ExportRoute)).1 = SettingsRoute.
Proof.
  refine (proj1 (backplace_after_back ex_nav
    {| behind := [ContactsRoute]; here := SettingsRoute; ahead := [FavoritesRoute] |}
    ExportRoute _ _ _)); [split; reflexivity | discriminate | discriminate].
Defined.

Lemma route_path_roundtrip_witness :
  route_of_window_path (encodeRouteToPath (FeedRoute "all")) = Ok (FeedRoute "all").
Proof. apply route_path_roundtrip. split; vm_compute; reflexivity. Defined.

Definition ex_group_link : HmIdOpts :=
  {| o_version := Some "gv1"; o_blockRef := None; o_blockRange := None;
     o_groupPathName := Some "-"; o_variants := None; o_latest := None; o_hostname := None |}.
Definition ex_doc_version (v : string) : HmIdOpts :=
  {| o_version := Some v; o_blockRef := None; o_blockRange := None;
     o_groupPathName := None; o_variants := None; o_latest := None; o_hostname := None |}.
Definition ex_api : NavApi := {|
  listContent gid v :=
    match v with
    | Some _ => Ok [("/", "hm://d/doc1?v=dv1")]
    | None => Ok [("/", "hm://d/doc1?v=dv2")]
    end;
  getPublication _ := Ok (Some "alice");
|}.

Lemma resolve_group_link_witness :
  resolveHmIdToAppRoute ex_api "hm://g/grp1/-?v=gv1" =
  Ok (Some (unpacked_of "hm://g/grp1/-?v=gv1" "g" "grp1" ex_group_link,
    EntityNav (PublicationRoute
      (publication_route "hm://d/doc1" (Some "dv1") None
         (Some [GroupVariant "hm://g/grp1" (Some "/")])) None))).
Proof.
  apply (resolve_group_link ex_api "grp1" ex_group_link "-" "gv1" "doc1" (ex_doc_version "dv1") "dv1"
    "doc1" (ex_doc_version "dv2") "dv2" [("/", "hm://d/doc1?v=dv1")] [("/", "hm://d/doc1?v=dv2")]
    "hm://g/grp1/-?v=gv1" "hm://d/doc1?v=dv1" "hm://d/doc1?v=dv2");
    try reflexivity; repeat split; discriminate.
Defined.

Lemma resolve_document_link_witness :
  resolveHmIdToAppRoute ex_api "hm://d/doc1?v=dv1" =
  Ok (Some (unpacked_of "hm://d/doc1?v=dv1" "d" "doc1" (ex_doc_version "dv1"),
    EntityNav (PublicationRoute
      (publication_route "hm://d/doc1" (Some "dv1") None
         (Some [AuthorVariant (Some "alice")])) None))).
Proof.
  apply (resolve_document_link ex_api "doc1" (ex_doc_version "dv1") "hm://d/doc1?v=dv1");
    [reflexivity | repeat split; discriminate | reflexivity].
Defined.
