(* ===== verification/ContentTree.v ===== *)
(** * Content of documents

    Functions over block trees and titles: [packages/shared/src/content.ts], and
    [extractRefs], [useDocumentEmbeds], [useDocTextContent], [sortDocuments] and
    [getDefaultShortname] of [packages/app/models/documents.ts] with
    [packages/app/utils/path.ts]. *)
From S2P Require Import Prelude.
From S2P Require Import JsString.
From S2P Require Import JsObject.
From S2P Require Import EntityId.
From S2P Require Import BlockTypes.

(** ** Clipping *)

(** [for (let child of nodes) walk(child, out)]: the counter is threaded through
    the calls and their output nodes are collected.  The recursion is on the list
    only. *)
Definition walk_all {S A B} (f : S → A → S * list B) : S → list A → S * list B :=
  fix go (s : S) (l : list A) : S * list B :=
    match l with
    | [] => (s, [])
    | x :: l' =>
        let '(s1, o1) := f s x in
        let '(s2, o2) := go s1 l' in (s2, o1 ++ o2)
    end.

(** [walk]: [blocksRemaining] before and after, and the nodes pushed. *)
Fixpoint clip_walk (blocksRemaining : Z) (currentNode : HMBlockNode) : Z * list HMBlockNode :=
  if (blocksRemaining <=? 0)%Z then (blocksRemaining, [])
  else
    match currentNode with
    | BlockNode block None => ((blocksRemaining - 1)%Z, [BlockNode block None])
    | BlockNode block (Some children) =>
        let '(rest, kids) := walk_all clip_walk (blocksRemaining - 1)%Z children in
        (rest, [BlockNode block (Some kids)])
    end.

Definition clipContentBlocks (content : option (list HMBlockNode)) (totalBlocks : Z) :
    option (list HMBlockNode) :=
  match content with
  | None => None
  | Some roots => Some (walk_all clip_walk totalBlocks roots).2
  end.

Definition getDocumentTitle (document : option HMDocument) : string :=
  default "Untitled Document" (or_null (document ≫= d_title)).

(** ** Embeds *)

Record ListedEmbed : Type := {
  le_blockId : string;
  le_ref : string;
  le_refId : UnpackedHypermediaId;
}.

Section embeds.
Context `{UrlApi}.

(** The first part of [extractRefsFromBlock]: [None] is the early return at a card,
    which skips the children; a failed [unpackHmId] throws. *)
Definition block_refs (skipCards : bool) (b : option HMBlock) : result (option (list ListedEmbed)) :=
  match b with
  | None => Ok (Some [])
  | Some b =>
      if String.eqb (b_type b) "embed" && otruthy (b_ref b) then
        if bool_decide (block_attr b "view" = Some "card") && skipCards then Ok None
        else
          let ref := default "" (b_ref b) in
          let* refId := unpackHmId ref in
          Ok (Some (opt_list ((λ u, {| le_blockId := b_id b; le_ref := ref; le_refId := u |}) <$> refId)))
      else Ok (Some [])
  end.

Fixpoint extractRefsFromBlock (skipCards : bool) (n : HMBlockNode) : result (list ListedEmbed) :=
  match n with
  | BlockNode b children =>
      let* own := block_refs skipCards b in
      match own with
      | None => Ok []
      | Some refs =>
          let* nested :=
            match children with
            | None => Ok []
            | Some l => rmap (@concat _) (map_result (extractRefsFromBlock skipCards) l)
            end in
          Ok (refs ++ nested)
      end
  end.

Definition extractRefs (children : list HMBlockNode) (skipCards : bool) : result (list ListedEmbed) :=
  rmap (@concat _) (map_result (extractRefsFromBlock skipCards) children).

(** The data that the queries for publications, groups and accounts have loaded so
    far; [None] while a query has none. *)
Record EmbedQueries (P G A : Type) : Type := {
  publication_data : string → option string → option P;
  group_data : string → option string → option G;
  account_data : option string → option A;
}.
Arguments publication_data {P G A} _ _ _.
Arguments group_data {P G A} _ _ _.
Arguments account_data {P G A} _ _.

Inductive EmbedContent (P G A : Type) : Type :=
| EmbedD (data : option P) (query : ListedEmbed)
| EmbedG (data : option G) (query : ListedEmbed)
| EmbedA (data : option A) (query : ListedEmbed).
Arguments EmbedD {P G A}.
Arguments EmbedG {P G A}.
Arguments EmbedA {P G A}.

Definition refs_of_type (t : string) (refs : list ListedEmbed) : list ListedEmbed :=
  List.filter (λ r, String.eqb (u_type (le_refId r)) t) refs.

(** The entry of one reference. *)
Definition embed_content {P G A} (q : EmbedQueries P G A) (r : ListedEmbed) : EmbedContent P G A :=
  let u := le_refId r in
  if String.eqb (u_type u) "d" then EmbedD (publication_data q (u_qid u) (or_null (u_version u))) r
  else if String.eqb (u_type u) "g" then EmbedG (group_data q (u_qid u) (or_null (u_version u))) r
  else EmbedA (account_data q (u_eid u)) r.

Definition useDocumentEmbeds {P G A} (q : EmbedQueries P G A) (doc : option HMDocument)
    (enabled skipCards : bool) : result (obj (EmbedContent P G A)) :=
  if negb enabled then Ok []
  else
    let* refs := extractRefs (default [] (doc ≫= d_children)) skipCards in
    Ok (ofromEntries
      ((λ r, (le_blockId r, embed_content q r)) <$>
        (refs_of_type "d" refs ++ refs_of_type "g" refs ++ refs_of_type "a" refs))).
End embeds.

(** ** The text of a document *)

(** [extractContent] and [extractBlockText] share the accumulator [res].  The
    statement [res += extractBlockText(bn)] reads [res] before the call, so what
    the call itself appends to [res] is overwritten; but the call returns the
    whole accumulator that the children extended, not their text only. *)
Fixpoint extractBlockText (res : string) (n : HMBlockNode) : string :=
  match n with
  | BlockNode None _ => ""
  | BlockNode (Some b) children =>
      default "" (b_text b) +:+
      match children with
      | Some ((_ :: _) as l) =>
          (fix go (res : string) (l : list HMBlockNode) : string :=
             match l with
             | [] => res
             | x :: l' => go (if len res <? 300 then res +:+ extractBlockText res x else res) l'
             end) res l
      | _ => ""
      end
  end.

Definition extract_step (res : string) (n : HMBlockNode) : string :=
  if len res <? 300 then res +:+ extractBlockText res n else res.
Definition extractTextContent (res : string) (blocks : list HMBlockNode) : string :=
  foldl extract_step res blocks.

Definition useDocTextContent (pub : option HMPublication) : string :=
  match (pub ≫= p_document) ≫= d_children with
  | Some ((_ :: _) as l) => extractTextContent "" l
  | _ => ""
  end.

(** ** Names and order *)

(** Dates are epoch milliseconds, as [Date]s coerce in a subtraction. *)
Definition sortDocuments (a b : option Z) : Z := (default 1 b - default 0 a)%Z.

(** [.replace(/\s+/g, '-')]: [inrun] is set inside a run of white space. *)
Fixpoint collapse_spaces (inrun : bool) (s : string) : string :=
  match s with
  | EmptyString => EmptyString
  | String c s' =>
      if is_space c then
        if inrun then collapse_spaces true s' else String "-" (collapse_spaces true s')
      else String c (collapse_spaces false s')
  end.
(** The complement of [/[^a-z0-9-_]/]. *)
Definition is_path_char (c : ascii) : bool :=
  is_lower c || is_digit c || Ascii.eqb c "-" || Ascii.eqb c "_".
(** [.replace(/-{2,}/g, '-')] *)
Fixpoint collapse_dashes (inrun : bool) (s : string) : string :=
  match s with
  | EmptyString => EmptyString
  | String c s' =>
      if Ascii.eqb c "-" then
        if inrun then collapse_dashes true s' else String "-" (collapse_dashes true s')
      else String c (collapse_dashes false s')
  end.
Definition pathNameify (name : string) : string :=
  collapse_dashes false (str_filter is_path_char (collapse_spaces false (js_toLowerCase (js_trim name)))).

Definition getDefaultShortname `{UrlApi} (docTitle : option string) (docId : string) : result string :=
  let* unpackedId := unpackDocId docId in
  let idShortname :=
    match unpackedId with
    | Some (u, _) => js_toLowerCase (js_slice (default "" (u_eid u)) 0 5)
    | None => ""
    end in
  let kebabName :=
    if otruthy docTitle then pathNameify (default "" docTitle) else idShortname in
  Ok (if 40 <? len kebabName then js_substring0 kebabName 40 else kebabName).

(** * Content of documents: theorems

    Clipping keeps the first blocks of a tree in document order; every embed of a
    document finds its content; the excerpt of a flat document is its text and
    that of a nested one repeats itself; path names are normal forms. *)

(** ** Clipping *)

(** [node_prefix n' n]: [n'] is [n] with the last parts of some lists of children
    cut off; a node without children stays so. *)
Inductive node_prefix : HMBlockNode → HMBlockNode → Prop :=
| prefix_leaf b : node_prefix (BlockNode b None) (BlockNode b None)
| prefix_node b kids' kids :
    forest_prefix kids' kids → node_prefix (BlockNode b (Some kids')) (BlockNode b (Some kids))
with forest_prefix : list HMBlockNode → list HMBlockNode → Prop :=
| prefix_nil l : forest_prefix [] l
| prefix_cons n' n l' l :
    node_prefix n' n → forest_prefix l' l → forest_prefix (n' :: l') (n :: l).

Lemma walk_all_cons {S A B} (f : S → A → S * list B) s x l :
  walk_all f s (x :: l) =
  let '(s1, o1) := f s x in let '(s2, o2) := walk_all f s1 l in (s2, o1 ++ o2).
Proof. done. Qed.

Lemma preorder_list_cons n l : preorder_list (n :: l) = preorder n ++ preorder_list l.
Proof. done. Qed.

Lemma clip_walk_done r n : (r <= 0)%Z → clip_walk r n = (r, []).
Proof. intros Hr%Z.leb_le. destruct n. cbn [clip_walk]. by rewrite Hr. Qed.

Lemma walk_done r l : (r <= 0)%Z → walk_all clip_walk r l = (r, []).
Proof.
  intros Hr. induction l as [|n l IH]; [done|].
  rewrite walk_all_cons, clip_walk_done by done. by rewrite IH.
Qed.

(** What the walk guarantees over a list of nodes, and over one node. *)
Definition clip_forest_ok (l : list HMBlockNode) : Prop := ∀ r, (0 <= r)%Z →
  ∃ out, walk_all clip_walk r l = (Z.max 0 (r - Z.of_nat (length (preorder_list l))), out) ∧
    preorder_list out = take (Z.to_nat r) (preorder_list l) ∧ forest_prefix out l ∧
    ((Z.of_nat (length (preorder_list l)) <= r)%Z → out = l).
Definition clip_node_ok (n : HMBlockNode) : Prop := ∀ r, (0 < r)%Z →
  ∃ n', clip_walk r n = (Z.max 0 (r - Z.of_nat (length (preorder n))), [n']) ∧
    preorder n' = take (Z.to_nat r) (preorder n) ∧ node_prefix n' n ∧
    ((Z.of_nat (length (preorder n)) <= r)%Z → n' = n).

Lemma clip_forest l : Forall clip_node_ok l → clip_forest_ok l.
Proof.
  induction 1 as [|n l Hn _ IH]; intros r Hr.
  - exists []. cbn. rewrite take_nil. split_and!; [f_equal; lia|done|constructor|done].
  - destruct (Z.eq_dec r 0%Z) as [->|Hne].
    + exists []. rewrite walk_done by done. split_and!; [f_equal; lia|done|constructor|].
      rewrite preorder_list_cons, length_app. destruct n. rewrite preorder_eq. cbn. lia.
    + destruct (Hn r ltac:(lia)) as (n' & Hw & Hp & Hpre & Hall).
      rewrite walk_all_cons, Hw.
      destruct (IH (Z.max 0 (r - Z.of_nat (length (preorder n))))) as (out & Ho & Hpo & Hfo & Hao);
        [lia|]. rewrite Ho. exists (n' :: out).
      rewrite !preorder_list_cons, !length_app, Hp, Hpo, take_app. split_and!.
      * f_equal. lia.
      * do 2 f_equal. lia.
      * by constructor.
      * intros Hle. rewrite Hall, Hao by lia. done.
Qed.

Lemma clip_node n : clip_node_ok n.
Proof.
  induction n as [b c IH] using node_tree_ind. intros r Hr.
  assert ((r <=? 0)%Z = false) as E by lia.
  destruct c as [kids|]; cbn [clip_walk]; rewrite E.
  - destruct (clip_forest kids IH (r - 1)%Z ltac:(lia)) as (out & Ho & Hp & Hf & Ha).
    rewrite Ho. exists (BlockNode b (Some out)). rewrite !preorder_eq. cbn [from_option default id].
    cbn [length]. split_and!.
    + f_equal. cbn. lia.
    + rewrite Hp. replace (Z.to_nat r) with (S (Z.to_nat (r - 1))) by lia. done.
    + by constructor.
    + intros Hle. cbn in Ha. rewrite Ha by (cbn in Hle; lia). done.
  - exists (BlockNode b None). rewrite preorder_eq. cbn. split_and!; [f_equal; lia| |constructor|done].
    replace (Z.to_nat r) with (S (Z.to_nat (r - 1))) by lia. cbn. by rewrite take_nil.
Qed.

(** C28. [clipContentBlocks] keeps the first [totalBlocks] blocks of a tree: in
    document order its blocks are exactly those, the result is the tree with the
    ends of lists of children cut off, and nothing is cut when the tree has no more
    blocks than that.  A negative limit keeps nothing. *)
Theorem clipContentBlocks_spec content totalBlocks :
  ∃ out, clipContentBlocks (Some content) totalBlocks = Some out ∧
    preorder_list out = take (Z.to_nat totalBlocks) (preorder_list content) ∧
    forest_prefix out content ∧
    ((Z.of_nat (length (preorder_list content)) <= totalBlocks)%Z → out = content).
Proof.
  unfold clipContentBlocks. destruct (Z.le_gt_cases 0 totalBlocks) as [Hle|Hlt].
  - destruct (clip_forest content (Forall_true _ _ clip_node) totalBlocks Hle) as (out & -> & ?).
    by exists out.
  - exists []. rewrite walk_done by lia. split_and!; [done| |constructor|lia].
    by replace (Z.to_nat totalBlocks) with 0 by lia.
Qed.

(** ** Embeds *)

(** The blocks of a tree in document order, without the card embeds (and what is
    under them) when [skipCards]. *)
Definition is_skipped (skipCards : bool) (b : option HMBlock) : bool :=
  match b with
  | Some b =>
      String.eqb (b_type b) "embed" && otruthy (b_ref b) &&
      (bool_decide (block_attr b "view" = Some "card") && skipCards)
  | None => false
  end.
Fixpoint visible (skipCards : bool) (n : HMBlockNode) : list HMBlock :=
  match n with
  | BlockNode b c =>
      if is_skipped skipCards b then []
      else opt_list b ++ match c with None => [] | Some l => concat (visible skipCards <$> l) end
  end.
Definition visible_list (skipCards : bool) (l : list HMBlockNode) : list HMBlock :=
  concat (visible skipCards <$> l).

Definition is_embed (b : HMBlock) : bool := String.eqb (b_type b) "embed" && otruthy (b_ref b).

Section embeds.
Context `{UrlApi}.

(** The reference of one block. *)
Definition own_ref (b : HMBlock) : result (list ListedEmbed) :=
  if is_embed b then
    rmap (λ refId, opt_list ((λ u, {| le_blockId := b_id b; le_ref := default "" (b_ref b);
                                      le_refId := u |}) <$> refId))
      (unpackHmId (default "" (b_ref b)))
  else Ok [].

Lemma block_refs_own skipCards b :
  block_refs skipCards b =
  if is_skipped skipCards b then Ok None
  else rmap (λ l, Some (concat l)) (map_result own_ref (opt_list b)).
Proof.
  destruct b as [b|]; [|done]. cbn [block_refs is_skipped opt_list].
  change (String.eqb (b_type b) "embed" && otruthy (b_ref b)) with (is_embed b).
  unfold own_ref, rmap. rewrite map_result_cons. cbn [map_result]. unfold own_ref, rmap.
  destruct (is_embed b); cbn [andb]; [|done].
  destruct (bool_decide _ && skipCards); [done|].
  destruct (unpackHmId _) as [[u|]|]; done.
Qed.

Lemma concat_map_result_app {A B} (f : A → result (list B)) l k :
  rmap (@concat _) (map_result f (l ++ k)) =
  let* a := rmap (@concat _) (map_result f l) in
  let* b := rmap (@concat _) (map_result f k) in Ok (a ++ b).
Proof.
  induction l as [|x l IH]; cbn [app].
  - cbn. by destruct (rmap _ _).
  - rewrite !map_result_cons. destruct (f x) as [y|]; cbn; [|done]. unfold rmap in *.
    destruct (map_result f (l ++ k)), (map_result f l), (map_result f k); cbn in *;
      try done; try congruence.
    injection IH as ->. by rewrite app_assoc.
Qed.

Lemma concat_map_result_concat {A B C} (f : A → result (list C)) (g : B → list A) l :
  rmap (@concat _) (map_result (λ x, rmap (@concat _) (map_result f (g x))) l) =
  rmap (@concat _) (map_result f (concat (g <$> l))).
Proof.
  induction l as [|x l IH]; [done|]. cbn [fmap list_fmap concat].
  rewrite map_result_cons, concat_map_result_app, <- IH.
  destruct (rmap _ (map_result f (g x))); cbn; [|done].
  by destruct (map_result _ l).
Qed.

Lemma map_result_ext {A B} (f g : A → result B) l :
  Forall (λ x, f x = g x) l → map_result f l = map_result g l.
Proof. induction 1 as [|x l Hx _ IH]; [done|]. by rewrite !map_result_cons, Hx, IH. Qed.

Lemma extractRefsFromBlock_visible skipCards n :
  extractRefsFromBlock skipCards n = rmap (@concat _) (map_result own_ref (visible skipCards n)).
Proof.
  induction n as [b c IH] using node_tree_ind. cbn [extractRefsFromBlock visible].
  rewrite block_refs_own. destruct (is_skipped skipCards b); [done|].
  rewrite concat_map_result_app. unfold rmap at 1.
  assert (match c with
          | None => Ok []
          | Some l => rmap (@concat _) (map_result (extractRefsFromBlock skipCards) l)
          end = rmap (@concat _) (map_result own_ref
            match c with None => [] | Some l => concat (visible skipCards <$> l) end)) as ->.
  { destruct c as [l|]; [|done]. cbn [from_option default id] in IH.
    rewrite (map_result_ext _ _ _ IH). apply concat_map_result_concat. }
  destruct (map_result own_ref (opt_list b)); cbn; [|done]. done.
Qed.

Lemma extractRefs_visible l skipCards :
  extractRefs l skipCards = rmap (@concat _) (map_result own_ref (visible_list skipCards l)).
Proof.
  unfold extractRefs, visible_list. rewrite <- concat_map_result_concat. f_equal.
  apply map_result_ext, Forall_true, extractRefsFromBlock_visible.
Qed.

(** What [own_ref] lists. *)
Lemma own_ref_elem b refs r :
  own_ref b = Ok refs → r ∈ refs →
  is_embed b = true ∧ le_blockId r = b_id b ∧ le_ref r = default "" (b_ref b) ∧
  unpackHmId (default "" (b_ref b)) = Ok (Some (le_refId r)).
Proof.
  unfold own_ref, rmap. destruct (is_embed b); [|intros [= <-] ?%elem_of_nil; done].
  destruct (unpackHmId _) as [[u|]|]; intros [= <-]; cbn.
  - intros ->%list_elem_of_singleton. done.
  - by intros ?%elem_of_nil.
Qed.

Lemma own_ref_embed b u :
  is_embed b = true → unpackHmId (default "" (b_ref b)) = Ok (Some u) →
  own_ref b = Ok [{| le_blockId := b_id b; le_ref := default "" (b_ref b); le_refId := u |}].
Proof. unfold own_ref. by intros -> ->. Qed.

Lemma own_ref_ids b refs : own_ref b = Ok refs → (le_blockId <$> refs) `sublist_of` [b_id b].
Proof.
  unfold own_ref, rmap. destruct (is_embed b); [|intros [= <-]; apply sublist_nil_l].
  destruct (unpackHmId _) as [[u|]|]; intros [= <-]; cbn; [done|apply sublist_nil_l].
Qed.

Lemma own_refs_ids blocks refs :
  rmap (@concat _) (map_result own_ref blocks) = Ok refs →
  (le_blockId <$> refs) `sublist_of` (b_id <$> blocks).
Proof.
  unfold rmap. destruct (map_result own_ref blocks) as [ys|] eqn:E; [|done].
  cbn. intros [= <-]. apply map_result_ok in E.
  induction E as [|b y l ys Hb _ IH]; [done|]. cbn. rewrite fmap_app.
  apply (sublist_app (le_blockId <$> y) [b_id b]); [by apply own_ref_ids|done].
Qed.

Lemma own_refs_elem blocks refs r :
  rmap (@concat _) (map_result own_ref blocks) = Ok refs →
  r ∈ refs ↔ ∃ b u, b ∈ blocks ∧ is_embed b = true ∧
    unpackHmId (default "" (b_ref b)) = Ok (Some u) ∧
    r = {| le_blockId := b_id b; le_ref := default "" (b_ref b); le_refId := u |}.
Proof.
  unfold rmap. destruct (map_result own_ref blocks) as [ys|] eqn:E; [|done].
  cbn. intros [= <-]. apply map_result_ok in E.
  induction E as [|b y l ys Hb _ IH]; cbn.
  - rewrite elem_of_nil. split; [done|]. intros (?&?&?%elem_of_nil&_). done.
  - rewrite elem_of_app, IH. clear IH. split.
    + intros [Hr|(b'&u&?&?&?&?)]; [|by exists b', u; split; [right|]].
      destruct (own_ref_elem _ _ _ Hb Hr) as (?&?&?&?). exists b, (le_refId r).
      split; [left|]. split; [done|]. split; [done|]. destruct r; cbn in *; congruence.
    + intros (b'&u&[->|Hb']%elem_of_cons&He&Hu&->).
      * left. rewrite (own_ref_embed _ _ He Hu) in Hb. injection Hb as <-. by left.
      * right. by exists b', u.
Qed.
End embeds.

(** Partition by type. *)
Definition linked_type (t : string) : bool :=
  String.eqb t "d" || String.eqb t "g" || String.eqb t "a".

Lemma refs_by_type refs :
  refs_of_type "d" refs ++ refs_of_type "g" refs ++ refs_of_type "a" refs ≡ₚ
  List.filter (λ r, linked_type (u_type (le_refId r))) refs.
Proof.
  unfold refs_of_type, linked_type. induction refs as [|r refs IH]; [done|]. cbn [List.filter].
  generalize (u_type (le_refId r)). intros t.
  destruct (String.eqb_spec t "d") as [Hd|_];
    [|destruct (String.eqb_spec t "g") as [Hg|_];
      [|destruct (String.eqb_spec t "a") as [Ha|_]]]; cbn [orb app].
  - subst t. cbn. by rewrite IH.
  - subst t. cbn. rewrite <- IH. symmetry. apply Permutation_middle.
  - rewrite <- IH, app_assoc, <- Permutation_middle. by rewrite <- app_assoc.
  - done.
Qed.

Lemma sublist_filter {A} (f : A → bool) l : List.filter f l `sublist_of` l.
Proof.
  induction l as [|x l IH]; [done|]. cbn. destruct (f x); by constructor.
Qed.

Lemma sublist_map {A B} (f : A → B) l k : l `sublist_of` k → (f <$> l) `sublist_of` (f <$> k).
Proof. induction 1; cbn; by constructor. Qed.

Lemma oget_ofromEntries {V} (l : obj V) k v :
  owf l → oget (ofromEntries l) k = Some v ↔ (k, v) ∈ l.
Proof.
  intros Hl. unfold ofromEntries. rewrite oget_ospread by done. split.
  - destruct (oget l k) eqn:E; [|done]. intros [= <-]. by apply oget_Some_elem.
  - intros Hin. by rewrite (oget_elem _ _ _ Hl Hin).
Qed.

(** When the references of a document's visible embeds can be parsed, the
    content map has exactly one entry per visible embed of a document, a group or
    an account, under the embed's block id, with the data loaded for its own
    reference at its own version. *)
Theorem useDocumentEmbeds_spec `{UrlApi} {P G A} (q : EmbedQueries P G A) doc skipCards :
  let blocks := visible_list skipCards (default [] (d_children doc)) in
  NoDup (b_id <$> blocks) →
  (∀ b, b ∈ blocks → is_embed b = true → is_ok (unpackHmId (default "" (b_ref b))) = true) →
  ∃ embeds, useDocumentEmbeds q (Some doc) true skipCards = Ok embeds ∧
    ∀ id c, oget embeds id = Some c ↔
      ∃ b u, b ∈ blocks ∧ is_embed b = true ∧ b_id b = id ∧
        unpackHmId (default "" (b_ref b)) = Ok (Some u) ∧ linked_type (u_type u) = true ∧
        c = embed_content q {| le_blockId := b_id b; le_ref := default "" (b_ref b); le_refId := u |}.
Proof.
  intros blocks Hids Hok. unfold useDocumentEmbeds. cbn [negb].
  change (default [] (Some doc ≫= d_children)) with (default [] (d_children doc)).
  rewrite extractRefs_visible. fold blocks.
  destruct (map_result_total own_ref blocks) as [ys Hys].
  { intros b Hb. specialize (Hok b Hb). unfold own_ref.
    destruct (is_embed b); [|done]. specialize (Hok eq_refl).
    by destruct (unpackHmId _). }
  destruct (rmap (@concat _) (map_result own_ref blocks)) as [refs|] eqn:E;
    [|by rewrite Hys in E].
  cbn [rbind]. eexists. split; [done|]. intros id c.
  set (byType := refs_of_type "d" refs ++ refs_of_type "g" refs ++ refs_of_type "a" refs).
  assert (owf ((λ r, (le_blockId r, embed_content q r)) <$> byType)) as Hwf.
  { unfold owf, okeys. rewrite <- list_fmap_compose.
    change (NoDup (le_blockId <$> byType)). unfold byType. rewrite refs_by_type.
    eapply sublist_NoDup; [exact Hids|]. etrans; [|by apply own_refs_ids].
    apply sublist_map, sublist_filter. }
  rewrite oget_ofromEntries, list_elem_of_fmap by done. unfold byType.
  setoid_rewrite refs_by_type.
  setoid_rewrite list_elem_of_In. setoid_rewrite List.filter_In. setoid_rewrite <- list_elem_of_In.
  split.
  - intros (r & [= -> ->] & Hr & Ht). apply (own_refs_elem _ _ _ E) in Hr as (b & u & Hb & He & Hu & ->).
    exists b, u. cbn in Ht. naive_solver.
  - intros (b & u & Hb & He & <- & Hu & Ht & ->).
    exists {| le_blockId := b_id b; le_ref := default "" (b_ref b); le_refId := u |}.
    split; [done|]. split; [|done]. apply (own_refs_elem _ _ _ E). by exists b, u.
Qed.

(** ** The text of a document *)

Definition node_text (n : HMBlockNode) : string :=
  match node_block n with Some b => default "" (b_text b) | None => "" end.
Definition is_leaf (n : HMBlockNode) : bool :=
  match node_kids n with [] => true | _ => false end.

Lemma extractBlockText_node res b c :
  extractBlockText res (BlockNode (Some b) c) =
  default "" (b_text b) +:+ match c with Some ((_ :: _) as l) => extractTextContent res l | _ => "" end.
Proof.
  by destruct c as [[|x l]|].
Qed.

Lemma extractBlockText_leaf res n : is_leaf n = true → extractBlockText res n = node_text n.
Proof.
  destruct n as [[b|] c]; [|done]. intros Hleaf. rewrite extractBlockText_node. cbn.
  destruct c as [[|x l]|]; cbn in Hleaf; try done; apply str_app_nil_r.
Qed.

Definition concat_text (l : list HMBlockNode) : string := js_join "" (node_text <$> l).

Lemma js_join_nil_cons x l : js_join "" (x :: l) = x +:+ js_join "" l.
Proof. destruct l; [by rewrite str_app_nil_r|]. done. Qed.

(** The excerpt of a document without nested blocks is the text of its first
    blocks, and it stops only after the last block or once it has 300 characters:
    before each block but the last it has fewer. *)
Theorem useDocTextContent_flat pub doc blocks :
  p_document pub = Some doc → d_children doc = Some blocks →
  Forall (λ n, is_leaf n = true) blocks →
  ∃ k, k <= length blocks ∧ useDocTextContent (Some pub) = concat_text (take k blocks) ∧
    (∀ j, j < k → len (concat_text (take j blocks)) < 300) ∧
    (k = length blocks ∨ 300 <= len (concat_text (take k blocks))).
Proof.
  intros Hdoc Hkids Hleaf. unfold useDocTextContent. cbn. rewrite Hdoc. cbn. rewrite Hkids.
  assert (match blocks with [] => "" | _ => extractTextContent "" blocks end =
          extractTextContent "" blocks) as -> by (by destruct blocks).
  assert (∀ res, ∃ k, k <= length blocks ∧
    extractTextContent res blocks = res +:+ concat_text (take k blocks) ∧
    (∀ j, j < k → len (res +:+ concat_text (take j blocks)) < 300) ∧
    (k = length blocks ∨ 300 <= len (res +:+ concat_text (take k blocks)))) as Hgen;
    [|apply (Hgen "")].
  clear Hkids Hdoc. induction Hleaf as [|n blocks Hn Hleaf IH]; intros res.
  - exists 0. cbn. rewrite str_app_nil_r. split_and!; [lia|done|lia|by left].
  - unfold extractTextContent. cbn [foldl]. fold (extractTextContent (extract_step res n) blocks).
    unfold extract_step. destruct (len res <? 300) eqn:E.
    + rewrite extractBlockText_leaf by done. apply Nat.ltb_lt in E.
      destruct (IH (res +:+ node_text n)) as (k & Hk & -> & Hj & Hstop).
      exists (S k). cbn [take length]. unfold concat_text in *. cbn [fmap list_fmap].
      setoid_rewrite str_app_assoc in Hj. setoid_rewrite str_app_assoc in Hstop.
      rewrite js_join_nil_cons, str_app_assoc. split_and!; [lia|done| |].
      * intros [|j] Hlt; [cbn; by rewrite str_app_nil_r|]. cbn [take fmap list_fmap].
        rewrite js_join_nil_cons. apply Hj. lia.
      * destruct Hstop as [->|]; [by left|by right].
    + apply Nat.ltb_ge in E. exists 0. cbn [take]. unfold concat_text. cbn.
      rewrite str_app_nil_r.
      split_and!; [lia| |lia|by right].
      clear -E. induction blocks as [|m blocks IHb]; [done|]. unfold extractTextContent in *. cbn [foldl].
      unfold extract_step at 2. by apply Nat.ltb_ge in E as ->.
Qed.

(** The excerpt of a document with a nested block repeats what came before it:
    the text of the block before the parent appears a second time between the
    parent's text and the child's. *)
Theorem useDocTextContent_repeats pub doc x a b n :
  p_document pub = Some doc → d_children doc = Some [x; BlockNode (Some a) (Some [b])] →
  is_leaf x = true → is_leaf b = true → n = len (node_text x) → n < 300 →
  useDocTextContent (Some pub) =
  node_text x +:+ default "" (b_text a) +:+ node_text x +:+ node_text b.
Proof.
  intros Hdoc Hkids Hx Hb -> Hlen. unfold useDocTextContent. cbn [mbind option_bind].
  rewrite Hdoc. cbn [mbind option_bind]. rewrite Hkids.
  unfold extractTextContent. cbn [foldl]. unfold extract_step at 2. cbn [len String.length Nat.ltb Nat.leb].
  rewrite extractBlockText_leaf by done. change ("" +:+ node_text x) with (node_text x).
  unfold extract_step. apply Nat.ltb_lt in Hlen. rewrite Hlen, extractBlockText_node.
  unfold extractTextContent. cbn [foldl]. unfold extract_step. rewrite Hlen.
  by rewrite extractBlockText_leaf.
Qed.

(** ** Path names *)

Lemma str_rev_app s acc : str_rev s acc = str_rev s "" +:+ acc.
Proof.
  revert acc. induction s as [|c s IH]; intros acc; [done|]. cbn.
  rewrite IH, (IH (String c "")), str_app_assoc. done.
Qed.

Lemma str_rev_rev s acc : str_rev (str_rev s acc) "" = str_rev acc "" +:+ s.
Proof.
  revert acc. induction s as [|c s IH]; intros acc; cbn; [by rewrite str_app_nil_r|].
  rewrite IH. cbn. by rewrite (str_rev_app acc), str_app_assoc.
Qed.

Lemma str_all_rev p s acc : str_all p (str_rev s acc) = str_all p s && str_all p acc.
Proof.
  revert acc. induction s as [|c s IH]; intros acc; [done|]. cbn. rewrite IH. cbn.
  by destruct (p c), (str_all p s).
Qed.

Definition no_space (s : string) : bool := str_all (λ c, negb (is_space c)) s.

Lemma trim_start_id s : no_space s = true → trim_start s = s.
Proof. destruct s as [|c s]; [done|]. cbn. intros [Hc _]%andb_prop. by apply negb_true_iff in Hc as ->. Qed.

Lemma js_trim_id s : no_space s = true → js_trim s = s.
Proof.
  intros Hs. unfold js_trim. rewrite (trim_start_id s Hs), trim_start_id, str_rev_rev; [done|].
  unfold no_space in *. by rewrite str_all_rev, Hs.
Qed.

Lemma path_char_spec c : is_path_char c = true → is_space c = false ∧ lower_char c = c.
Proof. destruct c as [[|] [|] [|] [|] [|] [|] [|] [|]]; vm_compute; done. Qed.

Lemma path_chars_no_space s : str_all is_path_char s = true → no_space s = true.
Proof. apply str_all_impl. intros c Hc. by destruct (path_char_spec c Hc) as [-> _]. Qed.

Lemma path_chars_fixed s b :
  str_all is_path_char s = true →
  js_toLowerCase s = s ∧ collapse_spaces b s = s ∧ str_filter is_path_char s = s.
Proof.
  unfold js_toLowerCase. revert b. induction s as [|c s IH]; intros b; [done|]. cbn.
  intros [Hc Hs]%andb_prop. destruct (path_char_spec c Hc) as [-> ->].
  destruct (IH false Hs) as (-> & -> & ->). by rewrite Hc.
Qed.

Lemma str_all_filter p s : str_all p (str_filter p s) = true.
Proof. induction s as [|c s IH]; [done|]. cbn. destruct (p c) eqn:E; [|done]. cbn. by rewrite E. Qed.

Lemma collapse_dashes_all p b s : str_all p s = true → str_all p (collapse_dashes b s) = true.
Proof.
  revert b. induction s as [|c s IH]; intros b; [done|]. cbn. intros [Hc Hs]%andb_prop.
  destruct (Ascii.eqb_spec c "-") as [->|]; [destruct b|]; cbn; rewrite ?Hc; cbn; auto.
Qed.

(** No two dashes in a row, and none first when [b]. *)
Fixpoint single_dashes (b : bool) (s : string) : bool :=
  match s with
  | EmptyString => true
  | String c s' => negb (Ascii.eqb c "-" && b) && single_dashes (Ascii.eqb c "-") s'
  end.

Lemma collapse_dashes_single b s : single_dashes b (collapse_dashes b s) = true.
Proof.
  revert b. induction s as [|c s IH]; intros b; [done|]. cbn.
  destruct (Ascii.eqb c "-") eqn:E; [destruct b|]; cbn; rewrite ?E; cbn; auto.
Qed.

Lemma collapse_dashes_id b s : single_dashes b s = true → collapse_dashes b s = s.
Proof.
  revert b. induction s as [|c s IH]; intros b; [done|]. cbn. intros [Hc Hs]%andb_prop.
  destruct (Ascii.eqb_spec c "-") as [->|]; cbn in *; [destruct b; [done|]|]; by rewrite IH.
Qed.

Lemma pathNameify_chars name : str_all is_path_char (pathNameify name) = true.
Proof. apply collapse_dashes_all, str_all_filter. Qed.

Lemma pathNameify_id s :
  str_all is_path_char s = true → single_dashes false s = true → pathNameify s = s.
Proof.
  intros Hs Hd. unfold pathNameify. rewrite js_trim_id by by apply path_chars_no_space.
  destruct (path_chars_fixed s false Hs) as (-> & -> & ->). by apply collapse_dashes_id.
Qed.

(** Path names are normal forms: [pathNameify] only leaves lower-case letters,
    digits, dashes and underscores with no two dashes in a row, such names are
    exactly the ones it leaves alone, and so normalising twice changes nothing. *)
Theorem pathNameify_normal name :
  (str_all is_path_char (pathNameify name) = true ∧
   single_dashes false (pathNameify name) = true) ∧
  pathNameify (pathNameify name) = pathNameify name ∧
  (pathNameify name = name ↔ str_all is_path_char name = true ∧ single_dashes false name = true).
Proof.
  assert (str_all is_path_char (pathNameify name) = true) as Hc by apply pathNameify_chars.
  assert (single_dashes false (pathNameify name) = true) as Hd by apply collapse_dashes_single.
  split_and!; [done|done|by apply pathNameify_id|]. split.
  - intros E. by rewrite E in *.
  - intros [??]. by apply pathNameify_id.
Qed.

(** ** Witnesses *)

Definition ex_leaf (id text : string) : HMBlockNode :=
  BlockNode (Some {| b_id := id; b_type := "paragraph"; b_text := Some text; b_ref := None;
                     b_annotations := None; b_attributes := None |}) None.
Definition ex_embed (id ref : string) : HMBlockNode :=
  BlockNode (Some {| b_id := id; b_type := "embed"; b_text := Some ""; b_ref := Some ref;
                     b_annotations := None; b_attributes := Some [("view", "card")] |}) (Some []).
Definition ex_document (kids : list HMBlockNode) : HMDocument :=
  {| d_title := Some "Doc"; d_id := Some "hm://d/doc1"; d_author := None; d_editors := [];
     d_children := Some kids; d_createTime := None; d_updateTime := None; d_publishTime := None;
     d_version := None; d_previousVersion := None |}.
Definition ex_pub (kids : list HMBlockNode) : HMPublication :=
  {| p_document := Some (ex_document kids); p_version := Some "v1" |}.

Definition ex_queries : EmbedQueries string string string :=
  {| publication_data i v := Some ("pub " +:+ i); group_data i v := Some ("group " +:+ i);
     account_data _ := None |}.

Lemma useDocumentEmbeds_spec_witness :
  ∃ embeds,
    useDocumentEmbeds ex_queries (Some (ex_document [ex_leaf "p1" "Hi";
      ex_embed "e1" "hm://d/abc"; ex_embed "e2" "hm://g/grp"])) true false = Ok embeds ∧
    is_Some (oget embeds "e1") ∧ is_Some (oget embeds "e2") ∧ oget embeds "p1" = None.
Proof.
  destruct (useDocumentEmbeds_spec ex_queries (ex_document [ex_leaf "p1" "Hi";
    ex_embed "e1" "hm://d/abc"; ex_embed "e2" "hm://g/grp"]) false) as (embeds & He & _).
  - by apply (bool_decide_unpack _).
  - intros b Hb. cbn in Hb. repeat (apply elem_of_cons in Hb as [->|Hb]; [done|]). by apply elem_of_nil in Hb.
  - exists embeds. split; [exact He|]. vm_compute in He. injection He as <-.
    vm_compute. eauto.
Defined.

Definition ex_flat : list HMBlockNode := [ex_leaf "a" "Hello "; ex_leaf "b" "world"].

Lemma useDocTextContent_flat_witness :
  ∃ k, k <= length ex_flat ∧
    useDocTextContent (Some (ex_pub ex_flat)) = concat_text (take k ex_flat) ∧
    (∀ j, j < k → len (concat_text (take j ex_flat)) < 300) ∧
    (k = length ex_flat ∨ 300 <= len (concat_text (take k ex_flat))).
Proof.
  apply (useDocTextContent_flat (ex_pub ex_flat) (ex_document ex_flat) ex_flat);
    [reflexivity | reflexivity | repeat constructor].
Defined.

Definition ex_parent : HMBlock :=
  {| b_id := "a"; b_type := "paragraph"; b_text := Some "two "; b_ref := None;
     b_annotations := None; b_attributes := None |}.
Definition ex_nested : list HMBlockNode :=
  [ex_leaf "x" "one "; BlockNode (Some ex_parent) (Some [ex_leaf "b" "three"])].

Lemma useDocTextContent_repeats_witness :
  useDocTextContent (Some (ex_pub ex_nested)) = "one two one three".
Proof.
  apply (useDocTextContent_repeats (ex_pub ex_nested) (ex_document ex_nested)
    (ex_leaf "x" "one ") ex_parent (ex_leaf "b" "three") 4); try reflexivity. lia.
Defined.
