(* ===== verification/Variants.v ===== *)
(** * Publication variants

    [packages/shared/src/variants.ts]: comparing variants, and choosing the version
    of a document that a group or author variant stands for. *)
From S2P Require Import Prelude.
From S2P Require Import JsString.
From S2P Require Import JsObject.
From S2P Require Import EntityId.

(** ** Comparisons *)

Record GroupEntry : Type := { ge_groupId : string; ge_pathName : option string }.
#[export] Instance GroupEntry_eq_dec : EqDecision GroupEntry.
Proof. solve_decision. Defined.

Definition groupsVariantsMatch (a b : option (list GroupEntry)) : bool :=
  match a, b with
  | None, None => true
  | Some a, Some b =>
      (length a =? length b)
      && forallb (λ aEntry, existsb (λ bEntry,
           String.eqb (ge_groupId aEntry) (ge_groupId bEntry) &&
           bool_decide (ge_pathName aEntry = ge_pathName bEntry)) b) a
  | _, _ => false
  end.

(** [sort()] without a comparator: by code units. *)
Definition str_order (a b : string) : Z :=
  match String.compare a b with Lt => -1 | Eq => 0 | Gt => 1 end.
Definition sort_strings (l : list string) : list string := js_sort str_order l.

Definition stringArrayMatch (a b : list string) : bool :=
  let sortedB := sort_strings b in
  (length a =? length b)
  && forallb (λ e : nat * string, bool_decide (sortedB !! e.1 = Some e.2))
       (imap pair (sort_strings a)).

(** ** Choosing a version *)

(** An item of [listDocumentGroups], with the seconds of its change time. *)
Record DocumentGroup : Type := {
  dg_groupId : string;
  dg_path : string;
  dg_changeTime : option N;
  dg_rawUrl : option string;
}.
Record AuthorVersion : Type := { av_author : string; av_version : string }.

(** The daemon's calls; [variant_publication] is [getPublication] with [localOnly],
    whose failure is caught. *)
Record VariantApi (P : Type) : Type := {
  listDocumentGroups : string → result (list DocumentGroup);
  getEntityTimeline : string → result (list AuthorVersion);
  variant_publication : string → string → result P;
}.
Arguments listDocumentGroups {P}.
Arguments getEntityTimeline {P}.
Arguments variant_publication {P}.

(** What the function returns, less the [variants] argument. *)
Record ResolvedVariant (P : Type) : Type := {
  rv_publication : option P;
  rv_variantVersion : option string;
  rv_requestedVersion : option string;
}.
Arguments rv_publication {P}.
Arguments rv_variantVersion {P}.
Arguments rv_requestedVersion {P}.

Definition group_variants (l : list PublicationVariant) : list (string * option string) :=
  omap (λ v, match v with GroupVariant g p => Some (g, p) | AuthorVariant _ => None end) l.
Definition author_variants (l : list PublicationVariant) : list (option string) :=
  omap (λ v, match v with AuthorVariant a => Some a | GroupVariant _ _ => None end) l.

(** The comparator of the group entries: newest first, a missing or zero time equal
    to everything. *)
Definition newest_first (a b : DocumentGroup) : Z :=
  match dg_changeTime a, dg_changeTime b with
  | Some ta, Some tb =>
      if (ta =? 0)%N || (tb =? 0)%N then 0 else (Z.of_N tb - Z.of_N ta)%Z
  | _, _ => 0
  end.

Section variants.
Context `{UrlApi} {P : Type} (api : VariantApi P).

(** The version a group lists a document at, if its entry is about this document. *)
Definition group_version (documentId groupId : string) (pathName : option string) :
    result (option string) :=
  let* items := listDocumentGroups api documentId in
  let entries := List.filter (λ d, String.eqb (dg_groupId d) groupId &&
                                   bool_decide (Some (dg_path d) = pathName)) items in
  let docGroupEntry := head (js_sort newest_first entries) in
  let* groupEntryId :=
    match docGroupEntry ≫= dg_rawUrl with
    | Some url => unpackHmId url
    | None => Ok None
    end in
  match groupEntryId with
  | Some id =>
      if String.eqb (u_qid id) documentId && otruthy (u_version id)
      then Ok (u_version id) else Ok None
  | None => Ok None
  end.

(** The version made of the latest changes of some authors. *)
Definition author_version (documentId : string) (authors : list (option string)) :
    result string :=
  let* authorVersions := getEntityTimeline api documentId in
  let chosen := List.filter (λ v, bool_decide (Some (av_author v) ∈ authors)) authorVersions in
  let activeChanges := dedup (concat ((λ v, js_split "." (av_version v)) <$> chosen)) in
  match activeChanges with
  | [] => Err ("Could not find active changes for authors " +:+
               js_join ", " (default "" <$> dedup authors))
  | _ => Ok (js_join "." activeChanges)
  end.

Definition variant_version (documentId : string) (variants : option (list PublicationVariant)) :
    result (option string) :=
  match default [] (group_variants <$> variants), default [] (author_variants <$> variants) with
  | _ :: _ :: _, _ => Err "Only one group variant is currently allowed"
  | [_], _ :: _ => Err "Cannot currently specify multiple variant types"
  | [(groupId, pathName)], [] => group_version documentId groupId pathName
  | [], [] => Ok None
  | [], authors => rmap Some (author_version documentId authors)
  end.

Definition getPublicationVariant (documentId : string)
    (variants : option (list PublicationVariant)) (versionId : option string) (latest : bool) :
    result (ResolvedVariant P) :=
  let requestedVersion := if latest then None else versionId in
  let* variantVersion := variant_version documentId variants in
  let version := default "" (js_or requestedVersion (or_null variantVersion)) in
  Ok {| rv_publication :=
          match variant_publication api documentId version with Ok p => Some p | Err _ => None end;
        rv_variantVersion := variantVersion;
        rv_requestedVersion := requestedVersion |}.
End variants.

(** * Publication variants: theorems

    The comparisons are equality up to order; a group variant stands for the newest
    entry of the group, an author variant for the latest changes of its authors. *)

(** ** Comparisons *)

Lemma str_order_le a b : (str_order a b <= 0)%Z ↔ String.compare a b ≠ Gt.
Proof. unfold str_order. destruct (String.compare a b); split; (lia || done). Qed.

Lemma ascii_compare_nat a b : Ascii.compare a b = N.compare (char_code a) (char_code b).
Proof. done. Qed.

Lemma string_compare_trans a b c :
  String.compare a b ≠ Gt → String.compare b c ≠ Gt → String.compare a c ≠ Gt.
Proof.
  revert b c. induction a as [|x a IH]; intros [|y b] [|z c]; cbn; try done.
  rewrite !ascii_compare_nat.
  destruct (N.compare_spec (char_code x) (char_code y)) as [Exy|Exy|Exy]; [rewrite Exy| |done];
    destruct (N.compare_spec (char_code y) (char_code z)) as [Eyz|Eyz|Eyz]; try done.
  - apply IH.
  - rewrite <- Eyz. destruct (N.compare_spec (char_code x) (char_code y)); (lia || done).
  - destruct (N.compare_spec (char_code x) (char_code z)); (lia || done).
Qed.

Lemma str_order_total a b : (str_order a b <= 0)%Z ∨ (str_order b a <= 0)%Z.
Proof.
  rewrite !str_order_le, (String.compare_antisym a b).
  destruct (String.compare b a); cbn; (by left) || (by right).
Qed.

Lemma str_order_trans a b c :
  (str_order a b <= 0)%Z → (str_order b c <= 0)%Z → (str_order a c <= 0)%Z.
Proof. rewrite !str_order_le. apply string_compare_trans. Qed.

Lemma str_order_antisym a b : (str_order a b <= 0)%Z → (str_order b a <= 0)%Z → a = b.
Proof.
  rewrite !str_order_le, (String.compare_antisym a b).
  destruct (String.compare b a) eqn:E; try done. intros _ _. symmetry. by apply String.compare_eq_iff.
Qed.

Lemma sort_strings_eq a b : sort_strings a = sort_strings b ↔ a ≡ₚ b.
Proof.
  split.
  - intros E. rewrite <- (js_sort_Permutation str_order a), <- (js_sort_Permutation str_order b).
    by fold (sort_strings a) (sort_strings b); rewrite E.
  - intros HP. apply (StronglySorted_unique_strong (λ a b, (str_order a b <= 0)%Z)).
    + intros ?? _ _. apply str_order_antisym.
    + apply js_sort_sorted; [apply str_order_total | apply str_order_trans].
    + apply js_sort_sorted; [apply str_order_total | apply str_order_trans].
    + unfold sort_strings. by rewrite !js_sort_Permutation.
Qed.

Lemma forallb_imap_lookup (a b : list string) k :
  length a + k = length b →
  forallb (λ e : nat * string, bool_decide (b !! e.1 = Some e.2))
    (imap (λ i x, (k + i, x)) a) = true ↔ a = drop k b.
Proof.
  revert k. induction a as [|x a IH]; intros k Hl; cbn.
  - split; [|done]. intros _. symmetry. apply drop_ge. cbn in Hl. lia.
  - cbn in Hl. rewrite andb_true_iff, bool_decide_eq_true, Nat.add_0_r.
    rewrite (imap_ext _ (λ i x, (S k + i, x))) by (intros; cbn; f_equal; lia).
    rewrite IH by lia. split.
    + intros [Hx ->]. symmetry. by apply drop_S.
    + intros E. assert (b !! k = Some x) as Hx.
      { rewrite <- (Nat.add_0_r k), <- lookup_drop, <- E. done. }
      split; [done|]. rewrite (drop_S _ _ _ Hx) in E. by injection E.
Qed.

(** [stringArrayMatch] is equality up to order. *)
Lemma stringArrayMatch_Permutation a b : stringArrayMatch a b = true ↔ a ≡ₚ b.
Proof.
  unfold stringArrayMatch. rewrite andb_true_iff, Nat.eqb_eq, <- sort_strings_eq.
  pose proof (Permutation_length (js_sort_Permutation str_order a)) as Ha.
  pose proof (Permutation_length (js_sort_Permutation str_order b)) as Hb.
  fold (sort_strings a) in Ha. fold (sort_strings b) in Hb. split.
  - intros [Hl H]. apply (forallb_imap_lookup _ _ 0) in H; [done|lia].
  - intros E. split; [rewrite <- Ha, <- Hb; by rewrite E|].
    apply (forallb_imap_lookup _ _ 0); [rewrite E; lia|done].
Qed.

Lemma group_entry_eqb a b :
  String.eqb (ge_groupId a) (ge_groupId b) && bool_decide (ge_pathName a = ge_pathName b) = true
  ↔ a = b.
Proof.
  rewrite andb_true_iff, String.eqb_eq, bool_decide_eq_true.
  destruct a, b; cbn. naive_solver.
Qed.

Lemma groups_included (a b : list GroupEntry) :
  forallb (λ x, existsb (λ y, String.eqb (ge_groupId x) (ge_groupId y) &&
    bool_decide (ge_pathName x = ge_pathName y)) b) a = true ↔ a ⊆ b.
Proof.
  rewrite forallb_forall. split.
  - intros H x Hx. apply list_elem_of_In in Hx. apply H, existsb_exists in Hx as (y & Hy & E).
    apply group_entry_eqb in E as ->. by apply list_elem_of_In.
  - intros H x Hx%list_elem_of_In. apply existsb_exists. exists x.
    split; [by apply list_elem_of_In, H|]. by apply group_entry_eqb.
Qed.

(** Without repeated entries, [groupsVariantsMatch] is equality up to order. *)
Theorem groupsVariantsMatch_Permutation a b :
  NoDup a → groupsVariantsMatch (Some a) (Some b) = true ↔ a ≡ₚ b.
Proof.
  intros Ha. unfold groupsVariantsMatch. rewrite andb_true_iff, Nat.eqb_eq, groups_included.
  split.
  - intros [Hl Hin]. apply submseteq_length_Permutation; [|lia].
    by apply NoDup_submseteq.
  - intros HP. split; [by apply Permutation_length|]. intros x Hx. by rewrite <- HP.
Qed.

(** With repeated entries it is not even symmetric. *)
Lemma groupsVariantsMatch_asymmetric g p q :
  p ≠ q →
  groupsVariantsMatch (Some [Build_GroupEntry g p; Build_GroupEntry g p])
                      (Some [Build_GroupEntry g p; Build_GroupEntry g q]) = true ∧
  groupsVariantsMatch (Some [Build_GroupEntry g p; Build_GroupEntry g q])
                      (Some [Build_GroupEntry g p; Build_GroupEntry g p]) = false.
Proof.
  intros Hne. unfold groupsVariantsMatch. cbn.
  rewrite !str_eqb_refl, !(bool_decide_eq_true_2 (p = p)), (bool_decide_eq_false_2 (q = p)) by done.
  done.
Qed.

(** ** Sorting by time *)

Definition entry_time (d : DocumentGroup) : Z := Z.of_N (default 0%N (dg_changeTime d)).

(** Every entry has a time, as the daemon's entries do. *)
Definition timed (d : DocumentGroup) : Prop := (0 < entry_time d)%Z.

Lemma newest_first_timed a b : timed a → timed b → newest_first a b = (entry_time b - entry_time a)%Z.
Proof.
  unfold timed, entry_time, newest_first.
  destruct (dg_changeTime a) as [ta|], (dg_changeTime b) as [tb|]; cbn; try lia. intros.
  destruct (N.eqb_spec ta 0), (N.eqb_spec tb 0); cbn; lia.
Qed.

Lemma newest_head l d :
  Forall timed l → head (js_sort newest_first l) = Some d →
  d ∈ l ∧ ∀ d', d' ∈ l → (entry_time d' <= entry_time d)%Z.
Proof.
  intros Hl. rewrite (js_sort_agree (λ a b, entry_time b - entry_time a)%Z newest_first).
  2: { intros x y Hx Hy. rewrite Forall_forall in Hl. by apply newest_first_timed; apply Hl. }
  set (cmp := λ a b, (entry_time b - entry_time a)%Z). intros Hhead.
  pose proof (js_sort_Permutation cmp l) as HP.
  pose proof (js_sort_sorted cmp ltac:(unfold cmp; lia) ltac:(unfold cmp; lia) l) as Hs.
  destruct (js_sort cmp l) as [|e l'] eqn:E; [done|]. injection Hhead as ->.
  inversion_clear Hs as [|?? _ Hall]. split; [rewrite <- HP; left|].
  intros d' Hd'. rewrite <- HP in Hd'. apply elem_of_cons in Hd' as [->|Hd']; [lia|].
  rewrite list.Forall_forall in Hall. specialize (Hall d' Hd'). unfold cmp in Hall. lia.
Qed.

(** ** Choosing a version *)

Section variants.
Context `{UrlApi} {P : Type} (api : VariantApi P).

(** The entries of a group for a path name. *)
Definition group_entries (items : list DocumentGroup) (g : string) (p : option string) :
    list DocumentGroup :=
  List.filter (λ d, String.eqb (dg_groupId d) g && bool_decide (Some (dg_path d) = p)) items.

(** The version of a group variant is the one that the newest entry of the
    group for that path names, and only if that entry is about this document: the
    chosen version comes from an entry no other entry is newer than.  No entry
    means no version, and the request then goes to the asked or the latest one. *)
Theorem group_variant_newest documentId g p items v r versionId latest :
  listDocumentGroups api documentId = Ok items → Forall timed (group_entries items g p) →
  getPublicationVariant api documentId (Some [GroupVariant g p]) versionId latest = Ok r →
  (group_entries items g p = [] → rv_variantVersion r = None) ∧
  (rv_variantVersion r = Some v →
   ∃ d url u, d ∈ group_entries items g p ∧
     (∀ d', d' ∈ group_entries items g p → (entry_time d' <= entry_time d)%Z) ∧
     dg_rawUrl d = Some url ∧ unpackHmId url = Ok (Some u) ∧
     u_qid u = documentId ∧ u_version u = Some v).
Proof.
  intros Hitems Htimed. unfold getPublicationVariant.
  change (variant_version api documentId (Some [GroupVariant g p])) with
    (group_version api documentId g p).
  unfold group_version. rewrite Hitems. cbn [rbind].
  fold (group_entries items g p).
  intros Hr. split.
  - intros E. rewrite E in Hr. cbn in Hr. injection Hr as <-. done.
  - intros Hv. destruct (head (js_sort newest_first (group_entries items g p))) as [d|] eqn:Ed;
      cbn [mbind option_bind rbind] in Hr; [|injection Hr as <-; done].
    destruct (newest_head _ _ Htimed Ed) as [Hd Hnewest].
    destruct (dg_rawUrl d) as [url|] eqn:Eurl; cbn in Hr; [|injection Hr as <-; done].
    destruct (unpackHmId url) as [[u|]|] eqn:Eu; cbn in Hr; try done; [|injection Hr as <-; done].
    destruct (String.eqb_spec (u_qid u) documentId); cbn in Hr; [|injection Hr as <-; done].
    destruct (otruthy (u_version u)); injection Hr as <-; [|done]. cbn in Hv.
    exists d, url, u. done.
Qed.

(** The changes that the latest versions of some authors are made of. *)
Definition is_author_change (versions : list AuthorVersion) (authors : list (option string))
    (c : string) : Prop :=
  ∃ a, a ∈ versions ∧ Some (av_author a) ∈ authors ∧ c ∈ js_split "." (av_version a).

(** The version of author variants names exactly the latest changes of the
    requested authors, each once; when no requested author has any, the call fails
    and says for whom. *)
Theorem author_variant_changes documentId a authors versions versionId latest :
  getEntityTimeline api documentId = Ok versions →
  let vs := AuthorVariant <$> (a :: authors) in
  match getPublicationVariant api documentId (Some vs) versionId latest with
  | Ok r =>
      ∃ cs, rv_variantVersion r = Some (js_join "." cs) ∧ NoDup cs ∧ cs ≠ [] ∧
        ∀ c, c ∈ cs ↔ is_author_change versions (a :: authors) c
  | Err m =>
      m = "Could not find active changes for authors " +:+
          js_join ", " (default "" <$> dedup (a :: authors)) ∧
      ∀ c, ¬ is_author_change versions (a :: authors) c
  end.
Proof.
  intros Hv vs. unfold getPublicationVariant, variant_version.
  assert (group_variants vs = []) as Hg by (unfold vs; clear; induction (a :: authors); done).
  assert (author_variants vs = a :: authors) as Ha.
  { unfold vs, author_variants. clear. induction (a :: authors) as [|x l IH]; [done|].
    cbn in *. by rewrite IH. }
  cbn [fmap option_fmap option_map default from_option id]. rewrite Hg, Ha.
  unfold rmap, author_version. rewrite Hv. cbn [rbind].
  set (cs := dedup _).
  assert (∀ c, c ∈ cs ↔ is_author_change versions (a :: authors) c) as Hcs.
  { intros c. unfold cs. rewrite elem_of_dedup, list_elem_of_In, in_concat. unfold is_author_change. split.
    - intros (l & Hl & Hc). apply list_elem_of_In, list_elem_of_fmap in Hl as (x & -> & Hx).
      apply list_elem_of_In, List.filter_In in Hx as [Hx Hin]. bool_simpl.
      exists x. split; [by apply list_elem_of_In|]. split; [done|]. by apply list_elem_of_In.
    - intros (x & Hx & Hin & Hc). exists (js_split "." (av_version x)). split; [|by apply list_elem_of_In].
      apply list_elem_of_In, list_elem_of_fmap. exists x. split; [done|].
      apply list_elem_of_In, List.filter_In. split; [by apply list_elem_of_In|].
      by apply bool_decide_eq_true. }
  destruct cs as [|c cs'] eqn:E.
  - cbn [rbind]. split; [done|]. intros c Hc%Hcs. by apply elem_of_nil in Hc.
  - cbn [rbind rv_variantVersion]. exists (c :: cs'). split; [done|]. split; [|done].
    rewrite <- E. apply NoDup_dedup.
Qed.
End variants.

(** ** Witnesses *)

Lemma groupsVariantsMatch_Permutation_witness :
  groupsVariantsMatch (Some [Build_GroupEntry "g1" None; Build_GroupEntry "g1" (Some "p")])
    (Some [Build_GroupEntry "g1" (Some "p"); Build_GroupEntry "g1" None]) = true.
Proof.
  refine (proj2 (groupsVariantsMatch_Permutation
    [Build_GroupEntry "g1" None; Build_GroupEntry "g1" (Some "p")]
    [Build_GroupEntry "g1" (Some "p"); Build_GroupEntry "g1" None] _) _).
  - apply (bool_decide_unpack _). reflexivity.
  - apply Permutation_swap.
Defined.

Definition ex_variant_api : VariantApi string := {|
  listDocumentGroups _ := Ok
    [{| dg_groupId := "g1"; dg_path := "p"; dg_changeTime := Some 5%N;
        dg_rawUrl := Some "hm://d/doc1?v=old" |};
     {| dg_groupId := "g1"; dg_path := "p"; dg_changeTime := Some 9%N;
        dg_rawUrl := Some "hm://d/doc1?v=new" |}];
  getEntityTimeline _ := Ok
    [{| av_author := "alice"; av_version := "c1.c2" |}; {| av_author := "bob"; av_version := "c2" |}];
  variant_publication d v := Ok (d +:+ "@" +:+ v);
|}.

Lemma group_variant_newest_witness :
  ∃ r, getPublicationVariant ex_variant_api "hm://d/doc1" (Some [GroupVariant "g1" (Some "p")])
         None false = Ok r ∧
       rv_publication r = Some "hm://d/doc1@new" ∧
       (rv_variantVersion r = Some "new" → ∃ d url u,
          dg_rawUrl d = Some url ∧ unpackHmId url = Ok (Some u) ∧ u_version u = Some "new").
Proof.
  eexists. split; [reflexivity|]. split; [reflexivity|]. intros Hv.
  destruct (group_variant_newest ex_variant_api "hm://d/doc1" "g1" (Some "p") _ "new" _ None false
    eq_refl ltac:(repeat constructor) eq_refl) as [_ Hnew].
  destruct (Hnew Hv) as (d & url & u & _ & _ & ? & ? & _ & ?). by exists d, url, u.
Defined.

Lemma author_variant_changes_witness :
  match getPublicationVariant ex_variant_api "hm://d/doc1"
          (Some [AuthorVariant (Some "alice"); AuthorVariant (Some "bob")]) None false with
  | Ok r => ∃ cs, rv_variantVersion r = Some (js_join "." cs) ∧ NoDup cs ∧ cs ≠ []
  | Err m => False
  end.
Proof.
  pose proof (author_variant_changes ex_variant_api "hm://d/doc1" (Some "alice") [Some "bob"] _ None
    false eq_refl) as Hw.
  vm_compute getPublicationVariant in *. cbn beta iota zeta in Hw.
  destruct Hw as (cs & Hv & Hnd & Hne & _). by exists cs.
Defined.
