(* ===== verification/Stores.v ===== *)
(** * The desktop application's stores

    [apps/desktop/src]: [app-recents.ts], [app-favorites.ts], [app-comments.ts],
    [app-settings.ts], [app-experiments.ts], [app-welcoming.ts] and
    [app-gateway-settings.ts].  Each keeps its state in memory or in an
    [electron-store] file and exposes queries and mutations; a mutation is a
    function from the state to the new one.  Reading a store file back gives what
    was last written, so a state stands for both the variable and the file. *)
From S2P Require Import Prelude.
From S2P Require Import JsString.
From S2P Require Import JsObject.
From S2P Require Import EntityId.
From S2P Require Import BlockTypes.
From S2P Require Import Routes.

(** ** Recents *)
Module Recents.

Inductive RecentType : Type := REntity | RDraft.
#[export] Instance RecentType_eq_dec : EqDecision RecentType.
Proof. solve_decision. Defined.

Record RecentEntry : Type := {
  r_type : RecentType;
  r_url : string;
  r_title : string;
  r_subtitle : option string;
  r_time : Z;
  r_variants : option (list PublicationVariant);
}.

Record RecentsState : Type := {
  recents : list RecentEntry;
  docVariants : option (obj (list PublicationVariant));
}.

(** The initial state when nothing is stored. *)
Definition initial : RecentsState := {| recents := []; docVariants := None |}.

Definition MAX_RECENTS : nat := 20.

Definition route_type (route : NavRoute) : RecentType :=
  match route with DraftRoute _ _ => RDraft | _ => REntity end.
Definition route_variants (route : NavRoute) : option (list PublicationVariant) :=
  match route with EntityNav (PublicationRoute p _) => rp_variants p | _ => None end.

(** The calls behind [getRouteTitles]: an account's alias and id, a group's title,
    a publication's title in its variant. *)
Record TitleApi : Type := {
  account_alias : string → result (option string * string);
  group_title : string → result string;
  publication_title : BasePublicationRoute → result (option string);
}.

Definition getRouteTitles (api : TitleApi) (route : NavRoute) : result (string * option string) :=
  match route with
  | EntityNav (AccountRoute a _ _) =>
      let* account := account_alias api (ra_accountId a) in
      Ok (default "" (js_or account.1 (Some account.2)), Some "Account")
  | EntityNav (GroupRoute g _ _) =>
      let* title := group_title api (rg_groupId g) in
      Ok (if truthy title then title else rg_groupId g, Some "Group")
  | EntityNav (PublicationRoute p _) =>
      let* title := publication_title api p in
      Ok (default "?" (or_null title), Some "Publication")
  | _ => Ok ("?", None)
  end.

(** The updater that [updateRecentRoute] applies once it has the titles. *)
Definition add_recent (type : RecentType) (url : option string) (time : Z)
    (route : NavRoute) (titles : string * option string) (state : RecentsState) : RecentsState :=
  {| recents :=
       if otruthy url then
         let url := default "" url in
         {| r_type := type; r_url := url; r_title := titles.1; r_subtitle := titles.2;
            r_time := time; r_variants := route_variants route |}
         :: take MAX_RECENTS
              (List.filter (λ item, negb (String.eqb (r_url item) url)
                                    || negb (bool_decide (r_type item = type))) (recents state))
       else recents state;
     docVariants :=
       match route with
       | EntityNav (PublicationRoute p _) =>
           match rp_variants p with
           | Some vs =>
               if truthy (rp_documentId p)
               then Some (oset (default [] (docVariants state)) (rp_documentId p) vs)
               else docVariants state
           | None => docVariants state
           end
       | _ => docVariants state
       end |}.

Definition updateRecentRoute `{UrlApi} (api : TitleApi) (time : Z) (route : NavRoute)
    (state : RecentsState) : result RecentsState :=
  let* url := getRecentsRouteEntityUrl route in
  let* titles := getRouteTitles api route in
  Ok (add_recent (route_type route) url time route titles state).

Definition deleteRecent (input : string) (state : RecentsState) : RecentsState :=
  {| recents := List.filter (λ item, negb (String.eqb (r_url item) input)) (recents state);
     docVariants := docVariants state |}.
End Recents.

(** ** Favorites *)
Module Favorites.

(** The legacy pins. *)
Record PinnedDocument : Type := { pd_docId : string; pd_authors : list string }.
Record PinnedGroup : Type := { pg_groupId : string; pg_documents : list (option string) }.
Record PinsState : Type := {
  pin_accounts : list string;
  pin_documents : list PinnedDocument;
  pin_groups : list PinnedGroup;
}.

Section migration.
Context `{UrlApi}.

Definition pinned_document (doc : PinnedDocument) : result (list string) :=
  let* id := unpackHmId (pd_docId doc) in
  match id with
  | None => Ok []
  | Some id =>
      let* url := createHmId "d" (undef_str (u_eid id))
        {| o_version := None; o_blockRef := None; o_blockRange := None; o_groupPathName := None;
           o_variants := Some ((λ a, AuthorVariant (Some a)) <$> pd_authors doc);
           o_latest := None; o_hostname := None |} in
      Ok [url]
  end.

Definition pinned_group_document (id : option UnpackedHypermediaId) (pathName : option string) :
    result (list string) :=
  match id with
  | Some id =>
      if otruthy pathName then
        let* url := createHmId "g" (undef_str (u_eid id))
          {| o_version := None; o_blockRef := None; o_blockRange := None;
             o_groupPathName := pathName; o_variants := None; o_latest := None;
             o_hostname := None |} in
        Ok [url]
      else Ok []
  | None => Ok []
  end.

Definition pinned_group (group : PinnedGroup) : result (list string) :=
  let* id := unpackHmId (pg_groupId group) in
  let* docs := map_result (pinned_group_document id) (pg_documents group) in
  Ok (pg_groupId group :: concat docs).

Definition getDefaultOrLegacyFavorites (pins : option PinsState) : result (list string) :=
  match pins with
  | None => Ok []
  | Some pins =>
      let* documents := map_result pinned_document (pin_documents pins) in
      let* groups := map_result pinned_group (pin_groups pins) in
      let* accounts := map_result (λ accountId, createHmId "a" accountId no_opts) (pin_accounts pins) in
      Ok (concat documents ++ concat groups ++ accounts)
  end.
End migration.

(** The favorites, by their urls. *)
Definition setFavorite (url : string) (isFavorite : bool) (favorites : list string) : list string :=
  let newFavorites := List.filter (λ f, negb (String.eqb f url)) favorites in
  if isFavorite then newFavorites ++ [url] else newFavorites.
Definition addFavorite (input : string) (favorites : list string) : list string :=
  List.filter (λ f, negb (String.eqb f input)) favorites ++ [input].
Definition removeFavorite (input : string) (favorites : list string) : list string :=
  List.filter (λ f, negb (String.eqb f input)) favorites.
End Favorites.

(** ** Comment drafts *)
Module CommentDrafts.

Record CommentDraft : Type := {
  cd_blocks : list HMBlockNode;
  cd_targetDocEid : string;
  cd_targetDocVersion : string;
  cd_targetCommentId : option string;
}.

(** [commentDraftStore]: the values under the keys [Comment-..], and those under the
    keys [Doc-..], each an object whose keys are draft ids.  Setting a draft id to
    [undefined] in an index drops it when the store is written. *)
Record Store : Type := {
  comment_entries : obj CommentDraft;
  doc_index : obj (obj bool);
}.
Definition empty_store : Store := {| comment_entries := []; doc_index := [] |}.

Definition getCommentDraft (commentDraftId : option string) (s : Store) :
    option (CommentDraft * string) :=
  if otruthy commentDraftId then
    let id := default "" commentDraftId in
    (λ d, (d, id)) <$> oget (comment_entries s) id
  else None.

Definition getCommentDrafts (docEid : string) (s : Store) : list (CommentDraft * string) :=
  match oget (doc_index s) docEid with
  | None => []
  | Some index => omap (λ id, (λ d, (d, id)) <$> oget (comment_entries s) id) (okeys index)
  end.

(** [draftId] is the random id that the call draws and returns. *)
Definition createCommentDraft (draftId targetDocEid targetDocVersion : string)
    (targetCommentId : option string) (blocks : option (list HMBlockNode)) (s : Store) : Store :=
  let prevIndex := default [] (oget (doc_index s) targetDocEid) in
  {| doc_index := oset (doc_index s) targetDocEid (oset prevIndex draftId true);
     comment_entries := oset (comment_entries s) draftId
       {| cd_blocks := default [] blocks; cd_targetDocEid := targetDocEid;
          cd_targetDocVersion := targetDocVersion; cd_targetCommentId := targetCommentId |} |}.

Definition writeCommentDraft (commentId : string) (blocks : list HMBlockNode) (s : Store) :
    result Store :=
  match oget (comment_entries s) commentId with
  | None => Err "Comment with this commentId not found"
  | Some comment =>
      Ok {| doc_index := doc_index s;
            comment_entries := oset (comment_entries s) commentId
              {| cd_blocks := blocks; cd_targetDocEid := cd_targetDocEid comment;
                 cd_targetDocVersion := cd_targetDocVersion comment;
                 cd_targetCommentId := cd_targetCommentId comment |} |}
  end.

(** The entry is deleted before the index is read, so a failure for a missing index
    has deleted it already: the store is returned with the outcome. *)
Definition removeCommentDraft (commentId : string) (s : Store) : Store * result string :=
  match oget (comment_entries s) commentId with
  | None => (s, Err "Comment with this commentId not found")
  | Some comment =>
      let entries := odelete (comment_entries s) commentId in
      match oget (doc_index s) (cd_targetDocEid comment) with
      | None => ({| comment_entries := entries; doc_index := doc_index s |},
                 Err "Comment index not found")
      | Some index =>
          ({| comment_entries := entries;
              doc_index := oset (doc_index s) (cd_targetDocEid comment) (odelete index commentId) |},
           Ok commentId)
      end
  end.
End CommentDrafts.

(** ** Settings *)
Module Settings.

(** [app-settings.ts]: the stored text, which the type limits to [true] and [false]. *)
Definition getAutoUpdatePreference (stored : option string) : string :=
  default "true" (or_null stored).
Definition setAutoUpdatePreference (input : string) (stored : option string) : option string :=
  Some input.

Record Experiments : Type := {
  webImporting : option bool;
  nostr : option bool;
  developerTools : option bool;
  pubContentDevMenu : option bool;
}.
Definition no_experiments : Experiments :=
  {| webImporting := None; nostr := None; developerTools := None; pubContentDevMenu := None |}.
(** [{...prev, ...input}]: the keys of [input] win. *)
Definition experiments_write (input : Experiments) (prev : option Experiments) : Experiments :=
  let prev := default no_experiments prev in
  let pick {A} (a b : option A) := match a with Some x => Some x | None => b end in
  {| webImporting := pick (webImporting input) (webImporting prev);
     nostr := pick (nostr input) (nostr prev);
     developerTools := pick (developerTools input) (developerTools prev);
     pubContentDevMenu := pick (pubContentDevMenu input) (pubContentDevMenu prev) |}.

(** [app-welcoming.ts] *)
Record Welcoming : Type := { hasPublished : bool; isProbablyNewAccount : bool }.
(** The first publication of a new account: [true] once at most. *)
Definition markDocPublish (s : Welcoming) : Welcoming * bool :=
  if hasPublished s then (s, false)
  else ({| hasPublished := true; isProbablyNewAccount := isProbablyNewAccount s |},
        isProbablyNewAccount s).
Definition writeIsProbablyNewAccount (input : bool) (s : Welcoming) : Welcoming :=
  {| hasPublished := hasPublished s; isProbablyNewAccount := input |}.

(** [app-gateway-settings.ts] *)
Inductive Depends : Type := Always | Never | Ask.
Record GatewaySettings : Type := {
  gatewayUrl : string;
  pushOnCopy : Depends;
  pushOnPublish : Depends;
}.
Definition DEFAULT_GATEWAY_URL (testnet : option string) : string :=
  if bool_decide (testnet = Some "dev") then "https://test.hyper.media" else "https://hyper.media".
Definition load_gateway (testnet storedUrl : option string) (storedCopy storedPublish : option Depends) :
    GatewaySettings :=
  {| gatewayUrl := default (DEFAULT_GATEWAY_URL testnet) (or_null storedUrl);
     pushOnCopy := default Ask storedCopy; pushOnPublish := default Ask storedPublish |}.
Definition writeGatewayUrl (url : string) (s : GatewaySettings) : GatewaySettings :=
  {| gatewayUrl := url; pushOnCopy := pushOnCopy s; pushOnPublish := pushOnPublish s |}.
Definition writePushOnCopy (v : Depends) (s : GatewaySettings) : GatewaySettings :=
  {| gatewayUrl := gatewayUrl s; pushOnCopy := v; pushOnPublish := pushOnPublish s |}.
Definition writePushOnPublish (v : Depends) (s : GatewaySettings) : GatewaySettings :=
  {| gatewayUrl := gatewayUrl s; pushOnCopy := pushOnCopy s; pushOnPublish := v |}.
End Settings.
