(* ===== verification/StoresFacts.v ===== *)
(** * The desktop application's stores: theorems

    Recents: an invariant of every history of visits.  Favorites: a set, newest
    last.  Comment drafts: a refinement of a finite map from ids to drafts, with the
    per-document listing as its index. *)
From S2P Require Import Prelude.
From S2P Require Import JsString.
From S2P Require Import JsObject.
From S2P Require Import EntityId.
From S2P Require Import BlockTypes.
From S2P Require Import Routes.
From S2P Require Import Stores.

(** ** Filters *)

Lemma elem_of_filter_bool {A} (f : A → bool) l x : x ∈ List.filter f l ↔ x ∈ l ∧ f x = true.
Proof. rewrite !list_elem_of_In. apply List.filter_In. Qed.

Lemma NoDup_filter_map {A B} (f : A → bool) (g : A → B) l :
  NoDup (g <$> l) → NoDup (g <$> List.filter f l).
Proof.
  induction l as [|x l IH]; [done|]. cbn. intros [Hx Hl]%NoDup_cons.
  destruct (f x); cbn; [|auto]. constructor; [|auto]. contradict Hx.
  apply list_elem_of_fmap in Hx as (y & -> & Hy%elem_of_filter_bool).
  apply list_elem_of_fmap. naive_solver.
Qed.

Lemma StronglySorted_filter {A} (R : A → A → Prop) (f : A → bool) l :
  StronglySorted R l → StronglySorted R (List.filter f l).
Proof.
  induction 1 as [|x l Hl IH Hx]; [constructor|]. cbn. destruct (f x); [|done].
  constructor; [done|]. rewrite Forall_forall in Hx |- *.
  intros y [Hy _]%elem_of_filter_bool. auto.
Qed.

Lemma StronglySorted_take {A} (R : A → A → Prop) n l :
  StronglySorted R l → StronglySorted R (take n l).
Proof.
  intros H. revert n. induction H as [|x l Hl IH Hx]; intros [|n]; cbn; try constructor; auto.
  rewrite Forall_forall in Hx |- *. intros y Hy. apply Hx. by eapply elem_of_take in Hy as (?&?%list_elem_of_lookup_2&_).
Qed.

(** ** Recents *)
Module RecentsFacts.
Import Recents.

(** One change of the recents: a visit at a time, or a deletion. *)
Inductive recents_step (now : Z) : RecentsState → Z → RecentsState → Prop :=
| step_visit type url time route titles s :
    (now <= time)%Z →
    recents_step now s time (add_recent type url time route titles s)
| step_delete input s : recents_step now s now (deleteRecent input s).

(** The states reachable from the initial one, with the clock. *)
Inductive recents_reachable : Z → RecentsState → Prop :=
| reach_initial now : recents_reachable now initial
| reach_step now now' s s' :
    recents_reachable now s → recents_step now s now' s' → recents_reachable now' s'.

Definition entry_key (e : RecentEntry) : string * RecentType := (r_url e, r_type e).
Definition newer (a b : RecentEntry) : Prop := (r_time b <= r_time a)%Z.

Record recents_ok (now : Z) (s : RecentsState) : Prop := {
  ok_length : length (recents s) <= S MAX_RECENTS;
  ok_keys : NoDup (entry_key <$> recents s);
  ok_sorted : StronglySorted newer (recents s);
  ok_past : Forall (λ e, (r_time e <= now)%Z) (recents s);
}.

Lemma recents_filter_ok now s f :
  recents_ok now s →
  recents_ok now {| recents := List.filter f (recents s); docVariants := docVariants s |}.
Proof.
  intros [Hl Hk Hs Hp]. split; cbn.
  - pose proof (List.filter_length_le f (recents s)). lia.
  - by apply NoDup_filter_map.
  - by apply StronglySorted_filter.
  - rewrite Forall_forall in Hp |- *. intros e [He _]%elem_of_filter_bool. auto.
Qed.

Lemma add_recent_ok now time type url route titles s :
  recents_ok now s → (now <= time)%Z → recents_ok time (add_recent type url time route titles s).
Proof.
  intros Hok Hle. destruct (otruthy url) eqn:Hurl.
  2: { unfold add_recent. rewrite Hurl. destruct Hok as [Hl Hk Hs Hp]. split; cbn; try done.
       eapply list.Forall_impl; [exact Hp|]. cbn. lia. }
  set (f := λ item, negb (String.eqb (r_url item) (default "" url)) ||
                    negb (bool_decide (r_type item = type))).
  pose proof (recents_filter_ok now s f Hok) as [Hl Hk Hs Hp]. cbn in *.
  unfold add_recent. rewrite Hurl. fold f. split; cbn.
  - rewrite length_take. unfold MAX_RECENTS. lia.
  - constructor.
    + intros Hin. apply list_elem_of_fmap in Hin as (e & [=Eu Et] & He).
      apply elem_of_take in He as (i & He%list_elem_of_lookup_2 & _).
      apply elem_of_filter_bool in He as [_ He]. unfold f in He.
      rewrite <- Eu, <- Et, str_eqb_refl, bool_decide_eq_true_2 in He by done. done.
    + rewrite fmap_take. eapply sublist_NoDup; [exact Hk|apply sublist_take].
  - constructor; [by apply StronglySorted_take|].
    apply Forall_take. eapply list.Forall_impl; [exact Hp|]. unfold newer. cbn. lia.
  - constructor; [done|]. apply Forall_take. eapply list.Forall_impl; [exact Hp|]. cbn. lia.
Qed.

(** Whatever is visited and deleted, the recents hold each entity once, from the
    latest visit to the oldest, and at most one entry more than [MAX_RECENTS]; and a
    visit puts its entity first. *)
Theorem recents_invariant now s :
  recents_reachable now s →
  recents_ok now s ∧
  ∀ type url time route titles, (now <= time)%Z → url ≠ "" →
    entry_key <$> head (recents (add_recent type (Some url) time route titles s)) = Some (url, type).
Proof.
  intros Hr. split.
  - induction Hr as [now|now now' s s' Hr IH Hstep]; [by repeat constructor|].
    destruct Hstep; [by apply (add_recent_ok now)|]. by apply recents_filter_ok.
  - intros type url time route titles _ Hne. unfold add_recent. by rewrite otruthy_Some.
Qed.

(** The limit is exceeded by one: visiting 21 groups keeps all 21. *)
Definition visit (s : RecentsState) (n : nat) : RecentsState :=
  add_recent REntity (Some (num_to_str (N.of_nat n))) (Z.of_nat n) FavoritesRoute ("?", None) s.
Lemma recents_exceed_limit :
  length (recents (foldl visit initial (seq 0 30))) = S MAX_RECENTS.
Proof. vm_compute. done. Qed.

Lemma recents_invariant_witness :
  recents_ok 5 (visit (visit initial 3) 5) ∧
  entry_key <$> head (recents (add_recent REntity (Some "g") 7 ContactsRoute ("?", None)
    (visit (visit initial 3) 5))) = Some ("g", REntity).
Proof.
  destruct (recents_invariant 5 (visit (visit initial 3) 5)) as [Hok Hhead].
  - apply (reach_step 3 5 (visit initial 3)); [|apply step_visit; lia].
    apply (reach_step 0 3 initial); [apply reach_initial | apply step_visit; lia].
  - split; [exact Hok|]. apply Hhead; [lia|discriminate].
Defined.
End RecentsFacts.

(** ** Favorites *)
Module FavoritesFacts.
Import Favorites.

(** The favorites stay a list without repetitions whose members are as asked. *)
Lemma setFavorite_spec url b favorites :
  NoDup favorites →
  NoDup (setFavorite url b favorites) ∧
  ∀ u, u ∈ setFavorite url b favorites ↔ if decide (u = url) then b = true else u ∈ favorites.
Proof.
  intros Hnd. unfold setFavorite.
  assert (∀ u, u ∈ List.filter (λ f, negb (String.eqb f url)) favorites ↔ u ∈ favorites ∧ u ≠ url)
    as Hf by (intros u; by rewrite elem_of_filter_bool, negb_true_iff, String.eqb_neq).
  assert (NoDup (List.filter (λ f, negb (String.eqb f url)) favorites)) as Hnd'.
  { rewrite <- (list_fmap_id favorites) in Hnd. apply (NoDup_filter_map (λ f, negb (String.eqb f url))) in Hnd.
    by rewrite list_fmap_id in Hnd. }
  destruct b; split; try done.
  - apply NoDup_app. split; [done|]. split; [|apply NoDup_singleton].
    intros u [_ Hu]%Hf ->%list_elem_of_singleton. done.
  - intros u. rewrite elem_of_app, Hf, list_elem_of_singleton. destruct (decide (u = url)); naive_solver.
  - intros u. rewrite Hf. destruct (decide (u = url)); naive_solver.
Qed.
End FavoritesFacts.

(** ** Comment drafts *)
Module CommentDraftsFacts.
Import CommentDrafts.

(** The specification: a map from draft ids to drafts. *)
Abbreviation Drafts := (gmap string CommentDraft).

Inductive DraftOp : Type :=
| Create (draftId docEid docVersion : string) (targetCommentId : option string)
    (blocks : option (list HMBlockNode))
| Write (commentId : string) (blocks : list HMBlockNode)
| Remove (commentId : string).

Definition new_draft (docEid docVersion : string) (targetCommentId : option string)
    (blocks : option (list HMBlockNode)) : CommentDraft :=
  {| cd_blocks := default [] blocks; cd_targetDocEid := docEid;
     cd_targetDocVersion := docVersion; cd_targetCommentId := targetCommentId |}.
Definition with_blocks (blocks : list HMBlockNode) (d : CommentDraft) : CommentDraft :=
  {| cd_blocks := blocks; cd_targetDocEid := cd_targetDocEid d;
     cd_targetDocVersion := cd_targetDocVersion d; cd_targetCommentId := cd_targetCommentId d |}.

(** An operation on the map, and whether it succeeds. *)
Definition map_step (m : Drafts) (op : DraftOp) : Drafts * bool :=
  match op with
  | Create id doc ver target blocks => (<[id := new_draft doc ver target blocks]> m, true)
  | Write id blocks => (alter (with_blocks blocks) id m, bool_decide (is_Some (m !! id)))
  | Remove id => (delete id m, bool_decide (is_Some (m !! id)))
  end.

(** The same on the store. *)
Definition store_step (s : Store) (op : DraftOp) : Store * bool :=
  match op with
  | Create id doc ver target blocks => (createCommentDraft id doc ver target blocks s, true)
  | Write id blocks =>
      match writeCommentDraft id blocks s with Ok s' => (s', true) | Err _ => (s, false) end
  | Remove id => let r := removeCommentDraft id s in (r.1, is_ok r.2)
  end.

(** Random ids are new. *)
Definition op_fresh (m : Drafts) (op : DraftOp) : bool :=
  match op with
  | Create id _ _ _ _ => bool_decide (m !! id = None)
  | _ => true
  end.

Record represents (s : Store) (m : Drafts) : Prop := {
  rep_entries id : oget (comment_entries s) id = m !! id;
  rep_index doc index : oget (doc_index s) doc = Some index →
    owf index ∧ ∀ id, id ∈ okeys index ↔ ∃ d, m !! id = Some d ∧ cd_targetDocEid d = doc;
  rep_indexed id d : m !! id = Some d → is_Some (oget (doc_index s) (cd_targetDocEid d));
}.

Lemma represents_empty : represents empty_store ∅.
Proof. split; [done|done|]. intros id d. by rewrite lookup_empty. Qed.

Lemma elem_of_okeys_oset {V} (o : obj V) k v j : j ∈ okeys (oset o k v) ↔ j = k ∨ j ∈ okeys o.
Proof.
  rewrite !elem_of_okeys, oget_oset. destruct (String.eqb_spec k j) as [->|Hne]; naive_solver.
Qed.

Lemma elem_of_okeys_odelete {V} (o : obj V) k j : j ∈ okeys (odelete o k) ↔ j ≠ k ∧ j ∈ okeys o.
Proof.
  rewrite !elem_of_okeys. destruct (decide (j = k)) as [->|Hne].
  - rewrite oget_odelete_eq. split; [by intros []|naive_solver].
  - rewrite oget_odelete_ne by done. naive_solver.
Qed.

Lemma create_represents s m id doc ver target blocks :
  represents s m → m !! id = None →
  represents (createCommentDraft id doc ver target blocks s)
    (<[id := new_draft doc ver target blocks]> m).
Proof.
  intros [He Hi Hx] Hfresh. split; cbn.
  - intros j. rewrite oget_oset, lookup_insert, <- He.
    destruct (String.eqb_spec id j); [by rewrite decide_True|by rewrite decide_False].
  - intros doc' index'. rewrite oget_oset.
    assert (∀ j, (∃ d, <[id := new_draft doc ver target blocks]> m !! j = Some d ∧ cd_targetDocEid d = doc')
              ↔ (j = id ∧ doc' = doc) ∨ ∃ d, m !! j = Some d ∧ cd_targetDocEid d = doc') as Hm.
    { intros j. rewrite lookup_insert. destruct (decide (id = j)) as [->|Hne].
      - rewrite Hfresh. cbn. naive_solver.
      - naive_solver. }
    destruct (String.eqb_spec doc doc') as [<-|Hne].
    + intros [= <-]. destruct (oget (doc_index s) doc) as [index|] eqn:E.
      * change (default [] (Some index)) with index.
        destruct (Hi _ _ E) as [Hwf Hin]. split; [by apply owf_oset|].
        intros j. rewrite elem_of_okeys_oset, Hm, Hin. naive_solver.
      * split; [by apply owf_oset, owf_nil|]. intros j. rewrite elem_of_okeys_oset, Hm.
        change (okeys (default [] None)) with (@nil string). rewrite elem_of_nil.
        split; [naive_solver|]. intros [[-> _]|(d & Hd & <-)]; [by left|].
        destruct (Hx _ _ Hd) as [? ?]. congruence.
    + intros E. destruct (Hi _ _ E) as [Hwf Hin]. split; [done|].
      intros j. rewrite Hm, Hin. naive_solver.
  - intros j d. rewrite lookup_insert, oget_oset. destruct (decide (id = j)) as [->|Hne].
    + intros [= <-]. cbn. by rewrite String.eqb_refl.
    + intros Hd. destruct (String.eqb _ _); [done|by eapply Hx].
Qed.

Lemma write_represents s m id d blocks :
  represents s m → m !! id = Some d →
  ∃ s', writeCommentDraft id blocks s = Ok s' ∧ represents s' (alter (with_blocks blocks) id m).
Proof.
  intros [He Hi Hx] Hd. unfold writeCommentDraft. rewrite He, Hd. eexists. split; [done|].
  assert (∀ j doc, (∃ d, alter (with_blocks blocks) id m !! j = Some d ∧ cd_targetDocEid d = doc)
            ↔ ∃ d, m !! j = Some d ∧ cd_targetDocEid d = doc) as Hm.
  { intros j doc. destruct (decide (j = id)) as [->|Hne].
    - rewrite lookup_alter_eq, Hd. cbn. naive_solver.
    - by rewrite lookup_alter_ne by done. }
  split; cbn.
  - intros j. rewrite oget_oset. destruct (String.eqb_spec id j) as [<-|Hne].
    + by rewrite lookup_alter_eq, Hd.
    + by rewrite lookup_alter_ne, He.
  - intros doc index E. destruct (Hi _ _ E) as [Hwf Hin]. split; [done|].
    intros j. by rewrite Hm, Hin.
  - intros j d' Hj. destruct (proj1 (Hm j (cd_targetDocEid d'))) as (d0 & Hd0 & <-); [by eauto|].
    by eapply Hx.
Qed.

Lemma remove_represents s m id d :
  represents s m → m !! id = Some d →
  ∃ s', removeCommentDraft id s = (s', Ok id) ∧ represents s' (delete id m).
Proof.
  intros [He Hi Hx] Hd. unfold removeCommentDraft. rewrite He, Hd.
  destruct (Hx _ _ Hd) as [index Eindex]. rewrite Eindex. eexists. split; [done|].
  split; cbn.
  - intros j. destruct (decide (j = id)) as [->|Hne].
    + by rewrite oget_odelete_eq, lookup_delete_eq.
    + by rewrite oget_odelete_ne, lookup_delete_ne, He.
  - intros doc index'. rewrite oget_oset.
    assert (∀ j, (∃ d, delete id m !! j = Some d ∧ cd_targetDocEid d = doc)
              ↔ j ≠ id ∧ ∃ d, m !! j = Some d ∧ cd_targetDocEid d = doc) as Hm.
    { intros j. rewrite lookup_delete. destruct (decide (id = j)) as [->|]; naive_solver. }
    destruct (String.eqb_spec (cd_targetDocEid d) doc) as [<-|Hne].
    + intros [= <-]. destruct (Hi _ _ Eindex) as [Hwf Hin]. split; [by apply owf_odelete|].
      intros j. rewrite elem_of_okeys_odelete, Hm, Hin. done.
    + intros E. destruct (Hi _ _ E) as [Hwf Hin]. split; [done|].
      intros j. rewrite Hm, Hin. split; [|naive_solver]. intros (d' & Hd' & Hdoc).
      split; [|eauto]. intros ->. congruence.
  - intros j d'. rewrite lookup_delete, oget_oset. destruct (decide (id = j)); [done|].
    intros Hj. destruct (String.eqb _ _); [done|by eapply Hx].
Qed.

Lemma store_step_represents s m op :
  represents s m → op_fresh m op = true →
  represents (store_step s op).1 (map_step m op).1 ∧ (store_step s op).2 = (map_step m op).2.
Proof.
  intros Hr Hf. destruct op as [id doc ver target blocks|id blocks|id]; cbn in *.
  - bool_simpl. split; [|done]. by apply create_represents.
  - destruct (m !! id) as [d|] eqn:E.
    + destruct (write_represents s m id d blocks Hr E) as (s' & -> & Hr'). split; [done|].
      symmetry. by apply bool_decide_eq_true.
    + unfold writeCommentDraft. rewrite (rep_entries _ _ Hr), E. cbn. split; [|done].
      by rewrite alter_id by (intros ?; congruence).
  - destruct (m !! id) as [d|] eqn:E.
    + destruct (remove_represents s m id d Hr E) as (s' & -> & Hr'). split; [done|].
      symmetry. by apply bool_decide_eq_true.
    + unfold removeCommentDraft. rewrite (rep_entries _ _ Hr), E. cbn. split; [|done].
      by rewrite delete_id.
Qed.

(** Sequences of operations, with the outcomes. *)
Fixpoint drafts_run (m : Drafts) (ops : list DraftOp) : Drafts * list bool :=
  match ops with
  | [] => (m, [])
  | op :: rest =>
      let '(m', b) := map_step m op in
      let '(m'', bs) := drafts_run m' rest in (m'', b :: bs)
  end.
Fixpoint store_run (s : Store) (ops : list DraftOp) : Store * list bool :=
  match ops with
  | [] => (s, [])
  | op :: rest =>
      let '(s', b) := store_step s op in
      let '(s'', bs) := store_run s' rest in (s'', b :: bs)
  end.
Fixpoint ops_fresh (m : Drafts) (ops : list DraftOp) : bool :=
  match ops with
  | [] => true
  | op :: rest => op_fresh m op && ops_fresh (map_step m op).1 rest
  end.

Lemma store_run_represents s m ops :
  represents s m → ops_fresh m ops = true →
  represents (store_run s ops).1 (drafts_run m ops).1 ∧
  (store_run s ops).2 = (drafts_run m ops).2.
Proof.
  revert s m. induction ops as [|op rest IH]; intros s m Hr; cbn; [done|].
  intros [Hf Hrest]%andb_prop. destruct (store_step_represents s m op Hr Hf) as [Hr' Hb].
  destruct (store_step s op) as [s' b], (map_step m op) as [m' b']. cbn in *.
  destruct (IH s' m' Hr' Hrest) as [Hr'' Hbs].
  destruct (store_run s' rest), (drafts_run m' rest). cbn in *. by subst.
Qed.

Lemma getCommentDrafts_spec s m doc :
  represents s m →
  NoDup (getCommentDrafts doc s).*2 ∧
  ∀ d id, (d, id) ∈ getCommentDrafts doc s ↔ m !! id = Some d ∧ cd_targetDocEid d = doc.
Proof.
  intros [He Hi Hx]. unfold getCommentDrafts.
  destruct (oget (doc_index s) doc) as [index|] eqn:E.
  - destruct (Hi _ _ E) as [Hwf Hin]. split.
    + assert (∀ l, NoDup l → NoDup (omap (λ id, (λ d, (d, id)) <$> oget (comment_entries s) id) l).*2 ∧
        ∀ d id, (d, id) ∈ omap (λ id, (λ d, (d, id)) <$> oget (comment_entries s) id) l → id ∈ l) as H.
      { induction l as [|x l IH]; cbn.
        - split; [constructor|]. by intros ?? ?%elem_of_nil.
        - intros [Hxl Hl]%NoDup_cons. destruct (IH Hl) as [IH1 IH2].
          destruct (oget (comment_entries s) x) as [d|]; cbn.
          + split.
            * constructor; [|done]. intros ([d' id'] & -> & Hd')%list_elem_of_fmap. by apply IH2 in Hd'.
            * intros d' id [[= _ ->]|Hd']%elem_of_cons; [left|right; eauto].
          + split; [done|]. intros d' id Hd'. right. eauto. }
      by apply H.
    + intros d id. rewrite list_elem_of_omap. split.
      * intros (j & Hj & Hsome). rewrite He in Hsome. apply Hin in Hj as (d' & Hd' & <-).
        rewrite Hd' in Hsome. cbn in Hsome. by injection Hsome as -> ->.
      * intros [Hd <-]. exists id. rewrite He, Hd. split; [|done]. apply Hin. eauto.
  - split; [constructor|]. intros d id. rewrite elem_of_nil. split; [done|].
    intros [Hd <-]. destruct (Hx _ _ Hd). congruence.
Qed.

(** C22. The two kinds of entries of the comment store implement a map from ids to
    drafts: after any operations with new random ids, every operation has succeeded
    exactly when its draft existed, reading a draft reads the map, and the drafts
    listed for a document are exactly those that target it, each once. *)
Theorem comment_store_refines_map ops :
  ops_fresh ∅ ops = true →
  let '(s, outcomes) := store_run empty_store ops in
  let '(m, expected) := drafts_run ∅ ops in
  outcomes = expected ∧
  (∀ id, id ≠ "" → getCommentDraft (Some id) s = (λ d, (d, id)) <$> m !! id) ∧
  ∀ doc, NoDup (getCommentDrafts doc s).*2 ∧
    ∀ d id, (d, id) ∈ getCommentDrafts doc s ↔ m !! id = Some d ∧ cd_targetDocEid d = doc.
Proof.
  intros Hf. destruct (store_run_represents _ _ ops represents_empty Hf) as [Hr Hb].
  destruct (store_run empty_store ops) as [s outcomes], (drafts_run ∅ ops) as [m expected].
  cbn in *. split; [done|]. split.
  - intros id Hid. unfold getCommentDraft. rewrite otruthy_Some by done. cbn.
    by rewrite (rep_entries _ _ Hr).
  - intros doc. by apply getCommentDrafts_spec.
Qed.

Definition ex_ops : list DraftOp :=
  [Create "a1" "doc1" "v1" None None; Create "a2" "doc1" "v1" (Some "hm://c/1") None;
   Create "a3" "doc2" "v1" None None; Remove "a1"; Write "a1" []; Write "a2" []].

Lemma comment_store_refines_map_witness :
  let '(s, outcomes) := store_run empty_store ex_ops in
  outcomes = [true; true; true; true; false; true] ∧ (getCommentDrafts "doc1" s).*2 = ["a2"].
Proof.
  pose proof (comment_store_refines_map ex_ops eq_refl) as Hw.
  destruct Hw as [Ho _]. split; [exact Ho | reflexivity].
Defined.
End CommentDraftsFacts.
