(* ===== verification/Windows.v ===== *)
(** * The windows of the desktop application

    The main process's part: [apps/desktop/src/app-windows.ts] (creating windows,
    their persisted state, focus and closing) and, of [app-api.ts], the refocusing of
    windows, the windows opened at startup and the opening of deep links.  Electron's
    windows are their ids and the bounds they are asked for; what a window shows and
    the find-in-page views are left out. *)
From S2P Require Import Prelude.
From S2P Require Import JsString.
From S2P Require Import JsObject.
From S2P Require Import EntityId.
From S2P Require Import Routes.
From S2P Require Import Navigation.

(** ** Bounds *)

(** A number, or NaN: what [Math.min] and [Math.max] give on [undefined]. *)
Inductive JsNum : Type := Num (n : Z) | NaN.

Definition to_num (o : option Z) : JsNum := match o with Some n => Num n | None => NaN end.
Definition math_min (a b : JsNum) : JsNum :=
  match a, b with Num x, Num y => Num (Z.min x y) | _, _ => NaN end.
Definition math_max (a b : JsNum) : JsNum :=
  match a, b with Num x, Num y => Num (Z.max x y) | _, _ => NaN end.
(** [a || b] on optional numbers. *)
Definition or_num (a b : option Z) : option Z :=
  match a with Some n => if (n =? 0)%Z then b else a | None => b end.

(** The rectangle a window is created with; no position when absent. *)
Record Bounds : Type := {
  bx : option Z;
  by_ : option Z;
  bwidth : JsNum;
  bheight : JsNum;
}.

(** A rectangle as electron reports and the store keeps it. *)
Record Rect : Type := { rx : Z; ry : Z; rwidth : Z; rheight : Z }.
Definition bounds_of_rect (r : Rect) : Bounds :=
  {| bx := Some (rx r); by_ := Some (ry r); bwidth := Num (rwidth r); bheight := Num (rheight r) |}.

(** The bounds of a new window: those asked for, or near the previous window's, or
    the initial ones of its type. *)
Definition window_bounds (windowType : WindowTypeInfo) (input prevWindowBounds : option Rect) : Bounds :=
  match input, prevWindowBounds with
  | Some b, _ => bounds_of_rect b
  | None, Some prev =>
      {| bx := Some (rx prev + 60)%Z; by_ := Some (ry prev + 60)%Z;
         bwidth :=
           math_max (Num (wt_minWidth windowType))
             (math_min (Num (rwidth prev))
                (to_num (or_num (wt_maxWidth windowType) (wt_initWidth windowType))));
         bheight :=
           math_max (Num (wt_minHeight windowType))
             (math_min (Num (rheight prev))
                (to_num (or_num (wt_maxHeight windowType) (wt_initHeight windowType)))) |}
  | None, None =>
      {| bx := None; by_ := None;
         bwidth := to_num (or_num (wt_initWidth windowType) (Some (wt_minWidth windowType)));
         bheight := to_num (or_num (wt_initHeight windowType) (Some (wt_minHeight windowType))) |}
  end.

(** ** State *)

Record AppWindow : Type := {
  aw_routes : list NavRoute;
  aw_routeIndex : Z;
  aw_bounds : option Rect;
  aw_sidebarLocked : bool;
}.
Record WindowNav : Type := {
  wn_routes : list NavRoute;
  wn_routeIndex : Z;
  wn_sidebarLocked : bool;
}.

(** The module's variables; [windowsState] is also what the store holds.
    [allWindows] is the map's keys in insertion order. *)
Record MainState : Type := {
  windowIdCount : N;
  allWindows : list string;
  windowsState : obj AppWindow;
  windowNavState : obj WindowNav;
  focusedWindowKey : option string;
  isExpectingQuit : bool;
}.

(** The module when the application starts, with the stored windows. *)
Definition startup (stored : option (obj AppWindow)) : MainState :=
  {| windowIdCount := 1; allWindows := []; windowsState := default [] stored;
     windowNavState := []; focusedWindowKey := None; isExpectingQuit := false |}.

Definition with_windows (s : MainState) (w : obj AppWindow) : MainState :=
  {| windowIdCount := windowIdCount s; allWindows := allWindows s; windowsState := w;
     windowNavState := windowNavState s; focusedWindowKey := focusedWindowKey s;
     isExpectingQuit := isExpectingQuit s |}.
Definition with_all (s : MainState) (l : list string) : MainState :=
  {| windowIdCount := windowIdCount s; allWindows := l; windowsState := windowsState s;
     windowNavState := windowNavState s; focusedWindowKey := focusedWindowKey s;
     isExpectingQuit := isExpectingQuit s |}.
Definition with_focus (s : MainState) (f : option string) : MainState :=
  {| windowIdCount := windowIdCount s; allWindows := allWindows s; windowsState := windowsState s;
     windowNavState := windowNavState s; focusedWindowKey := f;
     isExpectingQuit := isExpectingQuit s |}.
Definition with_nav (s : MainState) (n : obj WindowNav) : MainState :=
  {| windowIdCount := windowIdCount s; allWindows := allWindows s; windowsState := windowsState s;
     windowNavState := n; focusedWindowKey := focusedWindowKey s;
     isExpectingQuit := isExpectingQuit s |}.

Definition deleteWindowState (windowId : string) (s : MainState) : MainState :=
  with_windows s (odelete (windowsState s) windowId).
Definition setWindowState (windowId : string) (window : AppWindow) (s : MainState) : MainState :=
  with_windows s (oset (windowsState s) windowId window).
Definition updateWindowState (windowId : string) (updater : AppWindow → AppWindow) (s : MainState) :
    MainState :=
  match oget (windowsState s) windowId with
  | Some winState => with_windows s (oset (windowsState s) windowId (updater winState))
  | None => s
  end.
Definition windowFocused (windowId : string) (s : MainState) : MainState :=
  with_focus s (Some windowId).
Definition windowBlurred (windowId : string) (s : MainState) : MainState :=
  if bool_decide (focusedWindowKey s = Some windowId) then with_focus s None else s.
Definition beforeQuit (s : MainState) : MainState :=
  {| windowIdCount := windowIdCount s; allWindows := allWindows s; windowsState := windowsState s;
     windowNavState := windowNavState s; focusedWindowKey := focusedWindowKey s;
     isExpectingQuit := true |}.

(** [allWindows.delete(id)] and [allWindows.set(id, ..)] *)
Definition map_delete (id : string) (l : list string) : list string :=
  List.filter (λ x, negb (String.eqb x id)) l.
Definition map_set (id : string) (l : list string) : list string :=
  if bool_decide (id ∈ l) then l else l ++ [id].

(** ** Creating windows *)

Record WindowInput : Type := {
  in_routes : list NavRoute;
  in_routeIndex : Z;
  in_sidebarLocked : bool;
  in_id : option string;
  in_bounds : option Rect;
}.
Definition route_window (route : NavRoute) : WindowInput :=
  {| in_routes := [route]; in_routeIndex := 0; in_sidebarLocked := false; in_id := None;
     in_bounds := None |}.

(** What the call depends on besides its input: the clock, and the bounds of the
    window [getAWindow] returns.  That is the focused window: the fallback takes
    [Object.values] of a [Map], which is always empty. *)
Record Environment : Type := { env_now : N; env_focused : option Rect }.

Record CreatedWindow : Type := {
  cw_id : string;
  cw_type : WindowTypeInfo;
  cw_bounds : Bounds;
}.

Definition fresh_window_id (now : N) (count : N) : string :=
  "window." +:+ num_to_str count +:+ "." +:+ num_to_str now.

Definition createAppWindow (env : Environment) (input : WindowInput) (s : MainState) :
    result (MainState * CreatedWindow) :=
  let given := otruthy (in_id input) in
  let windowId :=
    if given then default "" (in_id input)
    else fresh_window_id (env_now env) (windowIdCount s) in
  match list_at (in_routes input) (in_routeIndex input) with
  | None => Err "TypeError"
  | Some initActiveRoute =>
      let windowType := getRouteWindowType initActiveRoute in
      let s1 :=
        {| windowIdCount := if given then windowIdCount s else (windowIdCount s + 1)%N;
           allWindows := map_set windowId (allWindows s);
           windowsState := windowsState s;
           windowNavState := oset (windowNavState s) windowId
             {| wn_routes := in_routes input; wn_routeIndex := in_routeIndex input;
                wn_sidebarLocked := in_sidebarLocked input |};
           focusedWindowKey := focusedWindowKey s;
           isExpectingQuit := isExpectingQuit s |} in
      let s2 := setWindowState windowId
        {| aw_routes := in_routes input; aw_routeIndex := in_routeIndex input;
           aw_sidebarLocked := in_sidebarLocked input; aw_bounds := None |} s1 in
      Ok (windowFocused windowId s2,
          {| cw_id := windowId; cw_type := windowType;
             cw_bounds := window_bounds windowType (in_bounds input) (env_focused env) |})
  end.

(** ** Events of a window *)

(** The [windowNavState] message of a window's page. *)
Definition onWindowNavState (windowId : string) (nav : WindowNav) (s : MainState) : MainState :=
  let s1 := with_nav s (oset (windowNavState s) windowId nav) in
  updateWindowState windowId
    (λ window, {| aw_routes := wn_routes nav; aw_routeIndex := wn_routeIndex nav;
                  aw_bounds := aw_bounds window; aw_sidebarLocked := wn_sidebarLocked nav |}) s1.

(** [saveWindowPosition], on show and after a resize or a move. *)
Definition saveWindowPosition (windowId : string) (bounds : Rect) (s : MainState) : MainState :=
  updateWindowState windowId
    (λ window, {| aw_routes := aw_routes window; aw_routeIndex := aw_routeIndex window;
                  aw_bounds := Some bounds; aw_sidebarLocked := aw_sidebarLocked window |}) s.

(** The [close] listener. *)
Definition onClose (windowId : string) (s : MainState) : MainState :=
  let s1 := with_all s (map_delete windowId (allWindows s)) in
  if isExpectingQuit s then s1 else deleteWindowState windowId s1.

(** The route that a focus or a navigation adds to the recents. *)
Definition activeRoute (windowId : string) (s : MainState) : option NavRoute :=
  oget (windowNavState s) windowId ≫= λ n, list_at (wn_routes n) (wn_routeIndex n).

(** [closeAppWindow]: [window.close()] runs the [close] listener. *)
Definition closeAppWindow (env : Environment) (windowId : string) (s : MainState) : result MainState :=
  if bool_decide (windowId ∈ allWindows s) then
    let s1 := onClose windowId s in
    let s2 := with_all s1 (map_delete windowId (allWindows s1)) in
    match allWindows s2 with
    | [] =>
        rmap fst (createAppWindow env
          {| in_routes := [defaultRoute]; in_routeIndex := 0; in_sidebarLocked := true;
             in_id := None; in_bounds := None |} s2)
    | _ => Ok s2
    end
  else Ok s.

(** ** Opening routes *)

Definition getRouteRefocusKey (route : NavRoute) : option string :=
  match route with
  | EntityNav _ | CommentRoute _ _ | CommentDraftRoute _ _ | DraftRoute _ _ => None
  | _ => Some (route_key route)
  end.

(** The key of a window's active route; reading a route that is not there throws. *)
Definition active_refocus_key (routes : list NavRoute) (routeIndex : Z) : result (option string) :=
  match list_at routes routeIndex with
  | Some r => Ok (getRouteRefocusKey r)
  | None => Err "TypeError"
  end.

(** [Object.entries(allWindows).find(..)]: the first window whose active route has
    the key. *)
Fixpoint find_refocus (destRouteKey : option string) (windows : obj AppWindow) :
    result (option string) :=
  match windows with
  | [] => Ok None
  | (id, w) :: rest =>
      let* key := active_refocus_key (aw_routes w) (aw_routeIndex w) in
      if otruthy key && bool_decide (key = destRouteKey) then Ok (Some id)
      else find_refocus destRouteKey rest
  end.

Inductive OpenOutcome : Type :=
| Refocused (windowId : string)
| Created (window : CreatedWindow).

(** The [createAppWindow] procedure. *)
Definition openWindow (env : Environment) (input : WindowInput) (s : MainState) :
    result (MainState * OpenOutcome) :=
  let* destRouteKey := active_refocus_key (in_routes input) (in_routeIndex input) in
  let* matchedWindow := find_refocus destRouteKey (windowsState s) in
  let refocus :=
    match matchedWindow with
    | Some id =>
        if (length (in_routes input) =? 1) && bool_decide (id ∈ allWindows s) then Some id else None
    | None => None
    end in
  match refocus with
  | Some id => Ok (s, Refocused id)
  | None =>
      let* r := createAppWindow env input s in
      Ok (r.1, Created r.2)
  end.

(** [navRouteSchema]: what the types of the model do not already say. *)
Definition tab_in (tabs : list string) (tab : option string) : bool :=
  match tab with Some t => bool_decide (t ∈ tabs) | None => true end.
Definition navRouteSchema_ok (route : NavRoute) : bool :=
  match route with
  | FeedRoute tab => bool_decide (tab ∈ ["all"; "trusted"])
  | ExploreRoute tab => bool_decide (tab ∈ ["docs"; "groups"])
  | EntityNav (AccountRoute _ _ tab) => tab_in ["profile"; "documents"; "groups"; "activity"] tab
  | EntityNav (GroupRoute _ _ tab) => tab_in ["front"; "documents"; "activity"] tab
  | DraftRoute _ (Some (AccountRoute _ _ tab)) => tab_in ["profile"; "documents"; "groups"; "activity"] tab
  | DraftRoute _ (Some (GroupRoute _ _ tab)) => tab_in ["front"; "documents"; "activity"] tab
  | _ => true
  end.

Definition window_valid (w : AppWindow) : bool :=
  match aw_routes w with
  | [] => false
  | l => forallb navRouteSchema_ok l
  end.

Definition restored_input (id : string) (w : AppWindow) : WindowInput :=
  {| in_routes := aw_routes w; in_routeIndex := aw_routeIndex w;
     in_sidebarLocked := aw_sidebarLocked w; in_id := Some id; in_bounds := aw_bounds w |}.

(** One call to the procedure whose failure is a rejected promise: nobody awaits
    it, so the others go on. *)
Definition open_detached (env : Environment) (input : WindowInput) (s : MainState) : MainState :=
  match openWindow env input s with
  | Ok (s', _) => s'
  | Err _ => s
  end.

Definition openInitialWindows (env : Environment) (s : MainState) : MainState :=
  match List.filter (λ e, window_valid e.2) (windowsState s) with
  | [] => open_detached env (route_window defaultRoute) s
  | entries => foldl (λ s e, open_detached env (restored_input e.1 e.2) s) s entries
  end.

(** [openRoute]: sent to the focused window, or a window of its own. *)
Definition openRoute (env : Environment) (route : NavRoute) (s : MainState) : MainState :=
  match env_focused env with
  | Some _ => s
  | None => open_detached env (route_window route) s
  end.

(** ** Deep links *)

Inductive DeepLink : Type :=
| OpenedRoute (route : NavRoute)
| ConnectPeer (deviceId : string)
| ConnectInfo (encoded : string)
| InvalidUrl.

(** The word characters of [\w]. *)
Definition is_word (c : ascii) : bool := is_digit c || is_lower c || is_upper c || Ascii.eqb c "_".
Fixpoint take_while (p : ascii → bool) (s : string) : string :=
  match s with
  | String c s' => if p c then String c (take_while p s') else EmptyString
  | EmptyString => EmptyString
  end.
(** [url.match(/prefix([class]+)/)]: the capture at the first place where the prefix
    is followed by a character of the class. *)
Fixpoint match_after (prefix : string) (p : ascii → bool) (s : string) : option string :=
  let here :=
    if String.prefix prefix s then
      let m := take_while p (String.substring (len prefix) (len s - len prefix) s) in
      if truthy m then Some m else None
    else None in
  match here with
  | Some m => Some m
  | None => match s with String _ s' => match_after prefix p s' | EmptyString => None end
  end.

(** [handleUrlOpen] up to the action it takes. *)
Definition handleUrlOpen `{UrlApi} (api : NavApi) (url : string) : result DeepLink :=
  let* hmId := resolveHmIdToAppRoute api url in
  match hmId with
  | Some (_, route) => Ok (OpenedRoute route)
  | None =>
      match match_after "connect-peer/" is_word url with
      | Some deviceId => Ok (ConnectPeer deviceId)
      | None =>
          match match_after "connect/" (λ c, is_word c || Ascii.eqb c "-" || Ascii.eqb c "+") url with
          | Some encoded => Ok (ConnectInfo encoded)
          | None => Ok InvalidUrl
          end
      end
  end.

(** * The windows of the desktop application: theorems

    The persisted windows are the open ones with what they show, through every event
    of a session; after a quit, the next start opens the same windows; and the bounds
    of a window opened next to another one. *)

#[local] Arguments okeys {V} o : simpl never.
#[local] Arguments odelete {V} o k : simpl never.

(** ** The invariant of a session *)

Definition window_ok (w : AppWindow) : Prop :=
  window_valid w = true ∧ is_Some (list_at (aw_routes w) (aw_routeIndex w)).

(** The persisted entry of a window says what its page last reported. *)
Definition agrees (w : AppWindow) (n : WindowNav) : Prop :=
  aw_routes w = wn_routes n ∧ aw_routeIndex w = wn_routeIndex n ∧
  aw_sidebarLocked w = wn_sidebarLocked n.

Record session_ok (s : MainState) : Prop := {
  ses_running : isExpectingQuit s = false;
  ses_nodup : NoDup (allWindows s);
  ses_keys : okeys (windowsState s) = allWindows s;
  ses_windows id w : oget (windowsState s) id = Some w →
    window_ok w ∧ ∃ n, oget (windowNavState s) id = Some n ∧ agrees w n;
}.

Lemma session_start : session_ok (startup None).
Proof. split; cbn; try done. constructor. Qed.

(** The events of a session before it quits. *)
Inductive MainEvent : Type :=
| Open (env : Environment) (input : WindowInput)
| NavChanged (windowId : string) (nav : WindowNav)
| Moved (windowId : string) (bounds : Rect)
| Closed (windowId : string)
| CloseRequested (env : Environment) (windowId : string)
| Focused (windowId : string)
| Blurred (windowId : string).

Definition main_step (s : MainState) (e : MainEvent) : MainState :=
  match e with
  | Open env input => open_detached env input s
  | NavChanged id nav => onWindowNavState id nav s
  | Moved id bounds => saveWindowPosition id bounds s
  | Closed id => onClose id s
  | CloseRequested env id => match closeAppWindow env id s with Ok s' => s' | Err _ => s end
  | Focused id => windowFocused id s
  | Blurred id => windowBlurred id s
  end.

(** New windows draw an id that no window has; pages of open windows report valid
    routes with an index among them, which [navigation_shows_a_route] guarantees. *)
Definition fresh_id (env : Environment) (s : MainState) : Prop :=
  fresh_window_id (env_now env) (windowIdCount s) ∉ allWindows s.
Definition event_ok (s : MainState) (e : MainEvent) : Prop :=
  match e with
  | Open env input =>
      in_id input = None ∧ fresh_id env s ∧ in_routes input ≠ [] ∧
      forallb navRouteSchema_ok (in_routes input) = true
  | NavChanged id nav =>
      id ∈ allWindows s ∧ wn_routes nav ≠ [] ∧ forallb navRouteSchema_ok (wn_routes nav) = true ∧
      is_Some (list_at (wn_routes nav) (wn_routeIndex nav))
  | CloseRequested env id => fresh_id env (onClose id s)
  | _ => True
  end.

Inductive session : MainState → Prop :=
| session_first : session (startup None)
| session_restored s : session_ok s → session s
| session_event s e : session s → event_ok s e → session (main_step s e).

(** *** Preservation *)

Lemma okeys_oset_new {V} (o : obj V) k v : k ∉ okeys o → okeys (oset o k v) = okeys o ++ [k].
Proof. intros. rewrite okeys_oset. by rewrite bool_decide_eq_false_2. Qed.
Lemma okeys_oset_old {V} (o : obj V) k v : k ∈ okeys o → okeys (oset o k v) = okeys o.
Proof. intros. rewrite okeys_oset. by rewrite bool_decide_eq_true_2. Qed.
Lemma okeys_odelete {V} (o : obj V) k : okeys (odelete o k) = map_delete k (okeys o).
Proof.
  unfold okeys. induction o as [|[j v] o IH]; [done|]. rewrite odelete_cons. cbn.
  rewrite String.eqb_sym. destruct (String.eqb j k); cbn; [done|]. by f_equal.
Qed.

Lemma elem_of_map_delete id j l : j ∈ map_delete id l ↔ j ∈ l ∧ j ≠ id.
Proof.
  unfold map_delete. rewrite !list_elem_of_In, List.filter_In, negb_true_iff, String.eqb_neq. done.
Qed.
Lemma NoDup_map_delete id l : NoDup l → NoDup (map_delete id l).
Proof. intros. by apply NoDup_ListNoDup, List.NoDup_filter, NoDup_ListNoDup. Qed.
Lemma map_delete_absent id l : id ∉ l → map_delete id l = l.
Proof.
  unfold map_delete. induction l as [|x l IH]; [done|]. intros [Hx Hl]%not_elem_of_cons. cbn.
  destruct (String.eqb_spec x id) as [->|]; [done|]. cbn. by rewrite IH.
Qed.

#[local] Arguments map_delete id l : simpl never.

Lemma valid_routes routes i b l :
  routes ≠ [] → forallb navRouteSchema_ok routes = true →
  window_valid {| aw_routes := routes; aw_routeIndex := i; aw_bounds := b; aw_sidebarLocked := l |} = true.
Proof. by destruct routes. Qed.

(** A window that is not there yet, created from valid input. *)
Lemma createAppWindow_ok env input s s' cw id :
  session_ok s →
  id = (if otruthy (in_id input) then default "" (in_id input)
        else fresh_window_id (env_now env) (windowIdCount s)) →
  id ∉ allWindows s → in_routes input ≠ [] → forallb navRouteSchema_ok (in_routes input) = true →
  createAppWindow env input s = Ok (s', cw) → session_ok s'.
Proof.
  intros [Hq Hnd Hk Hw] Hid Hfresh Hne Hvalid. unfold createAppWindow. rewrite <- Hid.
  destruct (list_at (in_routes input) (in_routeIndex input)) as [r|] eqn:Hr; [|done].
  intros [= <- _]. assert (id ∉ okeys (windowsState s)) as Hfresh' by by rewrite Hk.
  split; cbn; [done| | |].
  - unfold map_set. rewrite bool_decide_eq_false_2 by done.
    apply NoDup_app. split; [done|]. split; [set_solver|apply NoDup_singleton].
  - rewrite okeys_oset_new, Hk by done. unfold map_set. by rewrite bool_decide_eq_false_2.
  - intros j w. rewrite !oget_oset. destruct (String.eqb_spec id j) as [<-|Hne'].
    + intros [= <-]. split; [split; [by apply valid_routes|]|eexists; split; done].
      cbn. by rewrite Hr.
    + apply Hw.
Qed.

Lemma updateWindowState_keys id f s :
  okeys (windowsState (updateWindowState id f s)) = okeys (windowsState s) ∧
  allWindows (updateWindowState id f s) = allWindows s ∧
  isExpectingQuit (updateWindowState id f s) = isExpectingQuit s ∧
  windowNavState (updateWindowState id f s) = windowNavState s.
Proof.
  unfold updateWindowState. destruct (oget (windowsState s) id) eqn:E; [|done]. cbn.
  rewrite okeys_oset_old by (apply elem_of_okeys; by rewrite E). done.
Qed.

Lemma updateWindowState_get id f s j :
  oget (windowsState (updateWindowState id f s)) j =
  (if String.eqb id j then f <$> oget (windowsState s) j else oget (windowsState s) j).
Proof.
  unfold updateWindowState. destruct (oget (windowsState s) id) as [w|] eqn:E; cbn.
  - rewrite oget_oset. destruct (String.eqb_spec id j) as [<-|]; [by rewrite E|done].
  - destruct (String.eqb_spec id j) as [<-|]; [by rewrite E|done].
Qed.

Lemma onClose_ok id s : session_ok s → session_ok (onClose id s).
Proof.
  intros [Hq Hnd Hk Hw]. unfold onClose. rewrite Hq. split; cbn; [done| | |].
  - by apply NoDup_map_delete.
  - by rewrite okeys_odelete, Hk.
  - intros j w. destruct (decide (j = id)) as [->|Hne]; [by rewrite oget_odelete_eq|].
    rewrite oget_odelete_ne by done. apply Hw.
Qed.

Lemma main_step_ok s e : session_ok s → event_ok s e → session_ok (main_step s e).
Proof.
  intros Hok He. pose proof Hok as [Hq Hnd Hk Hw].
  destruct e as [env input|id nav|id bounds|id|env id|id|id]; cbn [main_step event_ok] in *.
  - destruct He as (Hid & Hfresh & Hne & Hvalid). unfold open_detached, openWindow.
    destruct (active_refocus_key _ _); cbn [rbind]; [|done].
    destruct (find_refocus _ _) as [matched|]; cbn [rbind]; [|done].
    destruct (match matched with Some i => _ | None => None end); [done|].
    destruct (createAppWindow env input s) as [[s' cw]|] eqn:Ec; cbn; [|done].
    eapply createAppWindow_ok; [done|reflexivity| |done|done|exact Ec]. by rewrite Hid.
  - destruct He as (Hin & Hne & Hvalid & Hidx). unfold onWindowNavState.
    set (s1 := with_nav s _). set (f := λ window, _).
    destruct (updateWindowState_keys id f s1) as (Ek & Ea & Eq & En).
    split; rewrite ?Eq, ?Ea, ?Ek, ?En; try done.
    intros j w. rewrite updateWindowState_get. cbn. rewrite oget_oset.
    destruct (String.eqb_spec id j) as [<-|Hne']; [|apply Hw].
    destruct (oget (windowsState s) id); [|done]. intros [= <-]. split; [split; [by apply valid_routes|done]|].
    by eexists.
  - unfold saveWindowPosition. set (f := λ window, _).
    destruct (updateWindowState_keys id f s) as (Ek & Ea & Eq & En).
    split; rewrite ?Eq, ?Ea, ?Ek, ?En; try done.
    intros j w. rewrite updateWindowState_get.
    destruct (String.eqb_spec id j) as [<-|Hne']; [|apply Hw].
    destruct (oget (windowsState s) id) as [w0|] eqn:E; [|done]. intros [= <-].
    destruct (Hw id w0 E) as [[Hv Hi] (n & Hn & Ha)]. split; [by split|]. by exists n.
  - by apply onClose_ok.
  - unfold closeAppWindow. case_bool_decide as Hin; [|done].
    pose proof (onClose_ok id s Hok) as Hclosed.
    assert (with_all (onClose id s) (map_delete id (allWindows (onClose id s))) = onClose id s) as ->.
    { unfold onClose. rewrite Hq. cbn. rewrite (map_delete_absent id (map_delete _ _)); [done|].
      rewrite elem_of_map_delete. naive_solver. }
    destruct (allWindows (onClose id s)) as [|x l] eqn:El; [|done].
    destruct (createAppWindow env _ (onClose id s)) as [[s' cw]|] eqn:Ec; cbn; [|done].
    eapply createAppWindow_ok in Ec; [exact Ec|exact Hclosed|reflexivity|exact He|done|done].
  - by split.
  - unfold windowBlurred. case_bool_decide; by split.
Qed.

Lemma session_session_ok s : session s → session_ok s.
Proof.
  induction 1; [apply session_start|done|by apply main_step_ok].
Qed.

(** ** Restoring the stored windows *)

(** What a restored window's entry is before it is shown. *)
Definition unplaced (w : AppWindow) : AppWindow :=
  {| aw_routes := aw_routes w; aw_routeIndex := aw_routeIndex w; aw_bounds := None;
     aw_sidebarLocked := aw_sidebarLocked w |}.
Definition unplaced_entry (e : string * AppWindow) : string * AppWindow := (e.1, unplaced e.2).

Definition active_key (w : AppWindow) : option string :=
  list_at (aw_routes w) (aw_routeIndex w) ≫= getRouteRefocusKey.

(** If a stored window is opened again after those of [p]: not if it has a single route
    whose page one of those shows. *)
Definition reopened (p : obj AppWindow) (w : AppWindow) : bool :=
  negb (length (aw_routes w) =? 1) || bool_decide (active_key w = None)
  || negb (bool_decide (active_key w ∈ active_key <$> p.*2)).
(** The windows that are open after a restart, and what is stored of all of them: an entry
    that is not opened stays as it is. *)
Fixpoint restored_windows (p l : obj AppWindow) : list string :=
  match l with
  | [] => []
  | e :: rest => (if reopened p e.2 then [e.1] else []) ++ restored_windows (p ++ [e]) rest
  end.
Fixpoint restored_state (p l : obj AppWindow) : obj AppWindow :=
  match l with
  | [] => []
  | e :: rest => (e.1, if reopened p e.2 then unplaced e.2 else e.2) :: restored_state (p ++ [e]) rest
  end.
(** No window that only has one route shows the page of an earlier one. *)
Fixpoint refocus_distinct (p l : obj AppWindow) : bool :=
  match l with
  | [] => true
  | e :: rest => reopened p e.2 && refocus_distinct (p ++ [e]) rest
  end.

Lemma active_refocus_key_ok w :
  window_ok w → active_refocus_key (aw_routes w) (aw_routeIndex w) = Ok (active_key w).
Proof.
  intros [_ [r Hr]]. unfold active_refocus_key, active_key. by rewrite Hr.
Qed.

Lemma refocus_key_truthy r k : getRouteRefocusKey r = Some k → truthy k = true.
Proof. destruct r; cbn; intros; simplify_eq; done. Qed.

Lemma find_refocus_none l :
  Forall (λ e, window_ok e.2) l → find_refocus None l = Ok None.
Proof.
  induction 1 as [|[id w] l Hw _ IH]; [done|]. cbn [find_refocus].
  rewrite active_refocus_key_ok by done. cbn [rbind].
  destruct (active_key w); [|done]. cbn. by rewrite andb_false_r.
Qed.

(** A page that no window of a prefix shows is found after the prefix, if at all. *)
Lemma find_refocus_after k p q :
  Forall (λ e, window_ok e.2) (p ++ q) → k ∉ active_key <$> p.*2 →
  ∃ m, find_refocus k (p ++ q) = Ok m ∧ ∀ id, m = Some id → id ∈ okeys q.
Proof.
  intros Hok Hk. induction p as [|[id w] p IH]; cbn [app] in *.
  - clear Hk. induction Hok as [|[id w] q Hw _ IH]; [by exists None|]. cbn [find_refocus].
    rewrite active_refocus_key_ok by done. cbn [rbind].
    destruct (otruthy _ && _).
    + exists (Some id). split; [done|]. intros ? [= <-]. left.
    + destruct IH as (m & Hm & Hin). exists m. split; [done|]. intros j Hj. right. auto.
  - apply Forall_cons in Hok as [Hw Hok]. cbn in Hk. apply not_elem_of_cons in Hk as [Hne Hk].
    cbn [find_refocus]. rewrite active_refocus_key_ok by done. cbn [rbind].
    rewrite (bool_decide_eq_false_2 (active_key w = k)) by congruence. rewrite andb_false_r. auto.
Qed.

Lemma oset_middle {V} (p q : obj V) id v v' :
  id ∉ okeys p → oset (p ++ (id, v) :: q) id v' = p ++ (id, v') :: q.
Proof.
  induction p as [|[j w] p IH]; cbn; [by rewrite String.eqb_refl|].
  intros [Hne Hp]%not_elem_of_cons. cbn in Hne. apply String.eqb_neq in Hne. by rewrite Hne, IH.
Qed.

Lemma window_ok_unplaced w : window_ok w → window_ok (unplaced w).
Proof. done. Qed.

(** *** What is restored of some windows *)

Lemma restored_windows_snoc p l e :
  restored_windows p (l ++ [e]) = restored_windows p l ++ (if reopened (p ++ l) e.2 then [e.1] else []).
Proof.
  revert p. induction l as [|x l IH]; intros p; cbn [restored_windows app]; [by rewrite !app_nil_r|].
  by rewrite IH, <- !app_assoc.
Qed.
Lemma restored_state_snoc p l e :
  restored_state p (l ++ [e]) = restored_state p l ++ [(e.1, if reopened (p ++ l) e.2 then unplaced e.2 else e.2)].
Proof.
  revert p. induction l as [|x l IH]; intros p; cbn [restored_state app]; [by rewrite !app_nil_r|].
  by rewrite IH, <- !app_assoc.
Qed.
Lemma okeys_restored p l : okeys (restored_state p l) = okeys l.
Proof. revert p. induction l as [|e l IH]; intros p; [done|]. unfold okeys in *. cbn. f_equal. apply IH. Qed.
Lemma restored_open p l : restored_windows p l ⊆ okeys l.
Proof.
  revert p. induction l as [|e l IH]; intros p; [done|]. cbn. intros i [Hi|Hi]%elem_of_app.
  - destruct (reopened p e.2); [|by apply elem_of_nil in Hi]. apply list_elem_of_singleton in Hi as ->. by left.
  - right. by apply (IH (p ++ [e])).
Qed.
Lemma restored_keys p l : active_key <$> (restored_state p l).*2 = active_key <$> l.*2.
Proof. revert p. induction l as [|e l IH]; intros p; [done|]. cbn. rewrite IH. by destruct (reopened p e.2). Qed.
Lemma restored_ok p l : Forall (λ e, window_ok e.2) l → Forall (λ e, window_ok e.2) (restored_state p l).
Proof. intros H. revert p. induction H as [|e l He _ IH]; intros p; constructor; [by destruct (reopened p e.2)|apply IH]. Qed.
Lemma restored_distinct p l : refocus_distinct p l = true →
  restored_windows p l = okeys l ∧ restored_state p l = unplaced_entry <$> l.
Proof.
  revert p. induction l as [|[i w] l IH]; intros p; [done|]. cbn. intros [-> H]%andb_true_iff.
  destruct (IH _ H) as [-> ->]. done.
Qed.
(** The page of a window that is not opened again is found in one that is. *)
Lemma find_restored k p l r :
  Forall (λ e, window_ok e.2) l → otruthy k = true →
  k ∉ active_key <$> p.*2 → k ∈ active_key <$> l.*2 →
  ∃ i, find_refocus k (restored_state p l ++ r) = Ok (Some i) ∧ i ∈ restored_windows p l.
Proof.
  intros Hok Hk. revert p. induction Hok as [|[i w] l Hw _ IH]; intros p Hp Hl; [by apply elem_of_nil in Hl|].
  cbn [restored_state restored_windows app find_refocus fst snd].
  set (w' := if reopened p w then unplaced w else w).
  assert (aw_routes w' = aw_routes w ∧ aw_routeIndex w' = aw_routeIndex w) as [-> ->] by (unfold w'; by destruct (reopened p w)).
  rewrite active_refocus_key_ok by done. cbn [rbind]. destruct (decide (active_key w = k)) as [E|E].
  - rewrite (bool_decide_eq_true_2 _ E), E, Hk. exists i. split; [done|]. apply elem_of_app. left.
    unfold reopened. rewrite E, (bool_decide_eq_false_2 _ Hp), orb_true_r. by left.
  - rewrite (bool_decide_eq_false_2 _ E), andb_false_r. destruct (IH (p ++ [(i, w)])) as (j & Hj & Hin).
    + rewrite !fmap_app, elem_of_app. intros [?|Hx]; [done|]. apply list_elem_of_singleton in Hx. by apply E.
    + cbn in Hl. apply elem_of_cons in Hl as [->|Hl]; [done|exact Hl].
    + exists j. split; [exact Hj|]. apply elem_of_app. by right.
Qed.

(** The state when it was tried to open the windows of [p] again and not yet those of
    [q]. *)
Record restoring (p q : obj AppWindow) (s : MainState) : Prop := {
  rs_running : isExpectingQuit s = false;
  rs_all : allWindows s = restored_windows [] p;
  rs_state : windowsState s = restored_state [] p ++ q;
  rs_nav id w : (id, w) ∈ p → id ∈ restored_windows [] p → ∃ n, oget (windowNavState s) id = Some n ∧ agrees w n;
}.

(** The middle entry of a well-formed object. *)
Lemma owf_middle {V} (p q : obj V) id v :
  owf (p ++ (id, v) :: q) → id ∉ okeys p ∧ (∀ j, j ∈ okeys ((id, v) :: q) → j ∉ okeys p).
Proof.
  unfold owf, okeys. rewrite fmap_app. intros (_ & Hd & _)%NoDup_app.
  split; [intros Hin; by apply (Hd _ Hin); left|]. intros j Hj Hin. by apply (Hd _ Hin).
Qed.

(** The page of a stored window that is opened again is not found in an open window. *)
Lemma restore_no_refocus p q id w :
  owf (p ++ (id, w) :: q) → Forall (λ e, window_ok e.2) (p ++ (id, w) :: q) → reopened p w = true →
  ∃ m, find_refocus (active_key w) (restored_state [] p ++ (id, w) :: q) = Ok m ∧
    match m with
    | Some i => if (length (aw_routes w) =? 1) && bool_decide (i ∈ restored_windows [] p) then Some i else None
    | None => None
    end = None.
Proof.
  intros [_ Hq]%owf_middle Hok Hre.
  assert (Forall (λ e, window_ok e.2) (restored_state [] p ++ (id, w) :: q)) as Hok'.
  { apply Forall_app in Hok as [Hp Hr]. apply Forall_app. split; [|done]. by apply restored_ok. }
  destruct (decide (active_key w = None)) as [En|En]; [exists None; by rewrite En, find_refocus_none|].
  unfold reopened in Hre. rewrite (bool_decide_eq_false_2 _ En), orb_false_r in Hre.
  destruct (length (aw_routes w) =? 1) eqn:El; cbn [andb negb orb] in *.
  - apply negb_true_iff, bool_decide_eq_false in Hre. rewrite <- (restored_keys [] p) in Hre.
    destruct (find_refocus_after (active_key w) _ _ Hok' Hre) as (m & Hm & Hin).
    exists m. split; [done|]. destruct m as [i|]; [|done].
    rewrite bool_decide_eq_false_2; [done|]. intros Hi%restored_open. by apply (Hq i); [apply Hin|].
  - destruct (find_refocus_after (active_key w) [] _ Hok') as (m & Hm & _); [apply not_elem_of_nil|].
    exists m. split; [exact Hm|]. by destruct m.
Qed.

Lemma restore_opened env p q id w s :
  owf (p ++ (id, w) :: q) → Forall (λ e, window_ok e.2) (p ++ (id, w) :: q) → truthy id = true →
  reopened p w = true → restoring p ((id, w) :: q) s →
  restoring (p ++ [(id, w)]) q (open_detached env (restored_input id w) s).
Proof.
  intros Hwf Hok Hid Hre [Hq Hall Hst Hnav].
  pose proof (owf_middle _ _ _ _ Hwf) as [Hfresh _].
  assert (window_ok w) as Hw.
  { apply Forall_app in Hok as [_ Hok]. by apply Forall_cons in Hok as [? _]. }
  destruct (restore_no_refocus p q id w Hwf Hok Hre) as (m & Hm & Hnone).
  unfold open_detached, openWindow. cbn [restored_input in_routes in_routeIndex].
  rewrite active_refocus_key_ok by done. cbn [rbind]. rewrite Hst, Hm. cbn [rbind].
  rewrite Hall, Hnone. unfold createAppWindow. cbn [restored_input in_id otruthy].
  rewrite Hid. destruct Hw as [_ [r Hr]]. cbn [restored_input in_routes in_routeIndex]. rewrite Hr.
  cbn [rbind fst]. split; cbn [windowFocused with_focus setWindowState with_windows isExpectingQuit
    allWindows windowsState windowNavState in_id in_routes in_routeIndex
    in_sidebarLocked restored_input].
  - done.
  - unfold map_set. rewrite Hall, bool_decide_eq_false_2 by (intros Hi; by apply Hfresh, (restored_open [] p)).
    rewrite restored_windows_snoc. cbn [app fst snd]. by rewrite Hre.
  - rewrite Hst, oset_middle by by rewrite okeys_restored.
    rewrite restored_state_snoc, <- app_assoc. cbn [app fst snd]. by rewrite Hre.
  - intros j w' Hin Hopen. rewrite oget_oset. rewrite restored_windows_snoc in Hopen. apply elem_of_app in Hin as [Hin|Hin].
    + destruct (String.eqb_spec (default "" (Some id)) j) as [<-|Hne].
      { destruct Hfresh. apply list_elem_of_fmap. by exists (id, w'). }
      apply Hnav; [done|]. apply elem_of_app in Hopen as [?|Hopen]; [done|].
      cbn [fst snd app] in Hopen. rewrite Hre in Hopen. by apply list_elem_of_singleton in Hopen.
    + apply list_elem_of_singleton in Hin as [= -> ->]. cbn. rewrite String.eqb_refl.
      by eexists.
Qed.
(** A window that is not opened again: the open one with its page is shown. *)
Lemma restore_refocused env p q id w s :
  owf (p ++ (id, w) :: q) → Forall (λ e, window_ok e.2) (p ++ (id, w) :: q) →
  reopened p w = false → restoring p ((id, w) :: q) s →
  restoring (p ++ [(id, w)]) q (open_detached env (restored_input id w) s).
Proof.
  intros Hwf Hok Hre [Hq Hall Hst Hnav]. pose proof (owf_middle _ _ _ _ Hwf) as [Hfresh _].
  apply Forall_app in Hok as [Hp Hr]. apply Forall_cons in Hr as [Hw _].
  unfold reopened in Hre. apply orb_false_iff in Hre as [[El%negb_false_iff En]%orb_false_iff Hk%negb_false_iff].
  apply bool_decide_eq_true in Hk. apply bool_decide_eq_false in En.
  assert (otruthy (active_key w) = true) as Ht.
  { unfold active_key in *. destruct (list_at _ _) as [r|]; [|done]. cbn in *.
    destruct (getRouteRefocusKey r) as [k|] eqn:E; [|done]. by apply refocus_key_truthy in E. }
  destruct (find_restored (active_key w) [] p ((id, w) :: q) Hp Ht (not_elem_of_nil _) Hk) as (i & Hi & Hin).
  unfold open_detached, openWindow. cbn [restored_input in_routes in_routeIndex].
  rewrite active_refocus_key_ok by done. cbn [rbind]. rewrite Hst, Hi. cbn [rbind].
  rewrite Hall, El, (bool_decide_eq_true_2 _ Hin). cbn [andb].
  assert (reopened p w = false) as Hre.
  { unfold reopened. by rewrite El, (bool_decide_eq_false_2 _ En), (bool_decide_eq_true_2 _ Hk). }
  split; [done| | |].
  - rewrite restored_windows_snoc. cbn [app fst snd]. by rewrite Hre, app_nil_r.
  - rewrite restored_state_snoc, <- app_assoc. cbn [app fst snd]. by rewrite Hre.
  - intros j w'. rewrite restored_windows_snoc. cbn [app fst snd]. rewrite Hre, app_nil_r. intros Hj Hopen.
    apply elem_of_app in Hj as [Hj|Hj]; [by apply Hnav|]. apply list_elem_of_singleton in Hj as [= -> ->].
    destruct Hfresh. by apply (restored_open [] p).
Qed.

Lemma restore_all env p q s :
  owf (p ++ q) → Forall (λ e, window_ok e.2) (p ++ q) →
  Forall (λ e, truthy e.1 = true) q → restoring p q s →
  restoring (p ++ q) []
    (foldl (λ s e, open_detached env (restored_input e.1 e.2) s) s q).
Proof.
  revert p s. induction q as [|[id w] q IH]; intros p s Hwf Hok Hids Hs.
  - by rewrite app_nil_r.
  - apply Forall_cons in Hids as [Hid Hids]. cbn [foldl fst snd].
    rewrite cons_middle, app_assoc. apply IH; [by rewrite <- app_assoc|by rewrite <- app_assoc|done|].
    destruct (reopened p w) eqn:Hre; [by apply restore_opened|by apply restore_refocused].
Qed.

(** Closing windows while quitting leaves what is stored alone. *)
Lemma closing_keeps_windows s ids :
  isExpectingQuit s = true →
  windowsState (foldl (λ s id, onClose id s) s ids) = windowsState s.
Proof.
  revert s. induction ids as [|id ids IH]; intros s Hq; [done|]. cbn. rewrite IH.
  - unfold onClose. by rewrite Hq.
  - unfold onClose. by rewrite Hq.
Qed.

(** C10. What a quit stores, the next start restores.  After any session, quit and close
    the windows in any order: the next start opens, in the same order, every window with
    its routes, its place among them and its sidebar, except one with a single route
    whose page an earlier one of them shows ([reopened]); that one is not opened, and
    only its entry is kept.  Without such a window the open windows are the same as
    before, and the restored state is the beginning of a session again.  There is
    expected to be a window, and the windows to have ids; new windows draw an id that none
    has, and pages report routes of the schema. *)
Theorem quit_and_restart_restores env s ids :
  session s → windowsState s ≠ [] →
  Forall (λ id, truthy id = true) (allWindows s) →
  let quitting := foldl (λ s id, onClose id s) (beforeQuit s) ids in
  let restored := openInitialWindows env (startup (Some (windowsState quitting))) in
  allWindows restored = restored_windows [] (windowsState s) ∧
  windowsState restored = restored_state [] (windowsState s) ∧
  (∀ id w, (id, w) ∈ windowsState s → id ∈ allWindows restored →
     ∃ n, oget (windowNavState restored) id = Some n ∧ agrees w n) ∧
  (refocus_distinct [] (windowsState s) = true →
     allWindows restored = allWindows s ∧ windowsState restored = unplaced_entry <$> windowsState s ∧
     session_ok restored).
Proof.
  intros Hs Hne Hids quitting restored.
  apply session_session_ok in Hs as [Hq Hnd Hk Hw].
  assert (windowsState quitting = windowsState s) as Hstored
    by (unfold quitting; by rewrite closing_keeps_windows).
  assert (owf (windowsState s)) as Hwf by (unfold owf; by rewrite Hk).
  assert (Forall (λ e, window_ok e.2) (windowsState s)) as Hok.
  { apply Forall_forall. intros [id w] Hin. by apply (Hw id w), oget_elem. }
  assert (Forall (λ e : string * AppWindow, truthy e.1 = true) (windowsState s)) as Hids'.
  { rewrite <- Hk in Hids. by apply Forall_fmap in Hids. }
  assert (restoring (windowsState s) [] restored) as [Rq Ra Rs Rn].
  { unfold restored, openInitialWindows, startup. rewrite Hstored. cbn [default from_option id windowsState].
    rewrite filter_all by (intros e He; by destruct (proj1 (Forall_forall _ _) Hok e He)).
    destruct (windowsState s) as [|e l] eqn:E; [done|]. rewrite <- E in *.
    apply (restore_all env [] (windowsState s)); try done.
    split; try done. intros id w Hin. by apply elem_of_nil in Hin. }
  rewrite app_nil_r in Rs. split; [done|]. split; [done|]. split; [intros id w Hin; rewrite Ra; by apply Rn|].
  intros Hdist. destruct (restored_distinct _ _ Hdist) as [Ea Es]. rewrite Ea in Ra, Rn. rewrite Es in Rs.
  split; [by rewrite Ra, Hk|]. split; [done|].
  split; [done|by rewrite Ra, Hk|rewrite Rs, Ra; unfold okeys; by rewrite <- list_fmap_compose|].
  intros id w Hget. rewrite Rs in Hget. apply oget_Some_elem, list_elem_of_fmap in Hget.
  destruct Hget as ([id' w'] & [= -> ->] & Hin). destruct (Hw id' w') as [Hw' _]; [by apply oget_elem|].
  split; [by apply window_ok_unplaced|]. destruct (Rn id' w' Hin) as (n & Hn & Ha); [apply list_elem_of_fmap; by exists (id', w')|]. by exists n.
Qed.

(** ** Bounds *)

(** The bounds of a window opened beside another: a main window takes the other's
    size cut to at least its minimum and at most its initial size; a comment window
    has the exact width of its type but a height that is not a number; and both
    sizes of a settings or deleted-content window are not numbers. *)
Theorem spawned_window_bounds route prev :
  let t := getRouteWindowType route in
  let b := window_bounds t None (Some prev) in
  (wt_key t = "main" → ∃ w h, bwidth b = Num w ∧ bheight b = Num h ∧
     (wt_minWidth t <= w <= 1280)%Z ∧ (wt_minHeight t <= h <= 960)%Z ∧
     (600 <= rwidth prev <= 1280 → w = rwidth prev)%Z ∧
     (400 <= rheight prev <= 960 → h = rheight prev)%Z) ∧
  (wt_key t = "comment" → bwidth b = Num 600 ∧ bheight b = NaN) ∧
  (wt_key t = "settings" ∨ wt_key t = "deleted-content" → bwidth b = NaN ∧ bheight b = NaN).
Proof.
  assert (∀ t : WindowTypeInfo, t = getRouteWindowType FavoritesRoute →
    ∃ w h, bwidth (window_bounds t None (Some prev)) = Num w ∧
      bheight (window_bounds t None (Some prev)) = Num h ∧
     (wt_minWidth t <= w <= 1280)%Z ∧ (wt_minHeight t <= h <= 960)%Z ∧
     (600 <= rwidth prev <= 1280 → w = rwidth prev)%Z ∧
     (400 <= rheight prev <= 960 → h = rheight prev)%Z) as Hmain.
  { intros t ->. cbn. do 2 eexists. split; [done|]. split; [done|]. lia. }
  assert (∀ w : Z, Z.max 600 (Z.min w 600) = 600%Z) as Hc by lia.
  destruct route as [| | | |[]| | | | | | |]; cbn [getRouteWindowType wt_key];
    (split_and!; [intros E; try discriminate E; by apply Hmain
                 |intros E; try discriminate E; cbn; by rewrite ?Hc
                 |intros [E|E]; try discriminate E; done]).
Qed.

(** ** Witness *)

Definition ex_env (now : N) : Environment := {| env_now := now; env_focused := None |}.
Definition ex_first : MainState := main_step (startup None) (Open (ex_env 7) (route_window ContactsRoute)).
Definition ex_nav2 : WindowNav :=
  {| wn_routes := [ContactsRoute; FeedRoute "all"]; wn_routeIndex := 1; wn_sidebarLocked := true |}.
Definition ex_second : MainState := main_step ex_first (NavChanged "window.1.7" ex_nav2).
Definition ex_third : MainState := main_step ex_second (Open (ex_env 9) (route_window FavoritesRoute)).

Lemma ex_session : session ex_third.
Proof.
  apply session_event; [apply session_event; [apply session_event; [apply session_first|]|]|].
  - split; [done|]. split; [apply not_elem_of_nil|]. done.
  - split; [left|]. split; [done|]. split; [done|]. by eexists.
  - split; [done|]. split; [|done]. by apply (bool_decide_unpack _).
Qed.

(** One more window, that comes to the page of an earlier one with a single route of its
    own: the page navigates by replacing its route. *)
Definition ex_fourth : MainState :=
  main_step (main_step ex_third (Open (ex_env 11) (route_window ContactsRoute)))
    (NavChanged "window.3.11" {| wn_routes := [FavoritesRoute]; wn_routeIndex := 0; wn_sidebarLocked := false |}).
Lemma ex_session_fourth : session ex_fourth.
Proof.
  apply session_event; [apply session_event; [apply ex_session|]|].
  - split; [done|]. split; [|done]. by apply (bool_decide_unpack _).
  - split; [by apply (bool_decide_unpack _)|]. split; [done|]. split; [done|]. by eexists.
Qed.

Lemma quit_and_restart_restores_witness :
  (let quitting := foldl (λ s id, onClose id s) (beforeQuit ex_third) ["window.2.9"; "window.1.7"] in
   let restored := openInitialWindows (ex_env 20) (startup (Some (windowsState quitting))) in
   allWindows restored = ["window.1.7"; "window.2.9"] ∧
   oget (windowsState restored) "window.1.7" =
     Some {| aw_routes := [ContactsRoute; FeedRoute "all"]; aw_routeIndex := 1; aw_bounds := None;
             aw_sidebarLocked := true |}) ∧
  (let quitting := foldl (λ s id, onClose id s) (beforeQuit ex_fourth) ["window.2.9"] in
   let restored := openInitialWindows (ex_env 20) (startup (Some (windowsState quitting))) in
   allWindows ex_fourth = ["window.1.7"; "window.2.9"; "window.3.11"] ∧
   allWindows restored = ["window.1.7"; "window.2.9"]).
Proof.
  split.
  - destruct (quit_and_restart_restores (ex_env 20) ex_third ["window.2.9"; "window.1.7"]
      ex_session ltac:(discriminate) ltac:(repeat constructor)) as (_ & _ & _ & H).
    destruct (H eq_refl) as (Ha & Hw & _). split; [exact Ha|]. cbn zeta. rewrite Hw. reflexivity.
  - destruct (quit_and_restart_restores (ex_env 20) ex_fourth ["window.2.9"]
      ex_session_fourth ltac:(discriminate) ltac:(repeat constructor)) as (Ha & _).
    split; [reflexivity|]. exact Ha.
Defined.
