(* ===== verification/Walk.v ===== *)
(** * Level-by-level walks

    The program walks the replies of a comment and the ancestors of a change level
    by level: while the level is not empty, note its members and go to the next one.
    It keeps no record of what it has seen, so it ends only because the relation it
    follows has no cycles.  The fuel makes it a total function; [walk_total] says how
    much is enough. *)
From S2P Require Import Prelude.

Section walk.
Context {A B : Type} `{EqDecision B}.
Variable next : list A → list A.
Variable contrib : list A → list B.

(** [set.add] of the members, in order. *)
Definition add_all (acc l : list B) : list B := dedup (acc ++ l).

(** [None] when the fuel runs out. *)
Fixpoint walk (fuel : nat) (acc : list B) (level : list A) : option (list B) :=
  match level with
  | [] => Some acc
  | _ =>
      match fuel with
      | O => None
      | S fuel' => walk fuel' (add_all acc (contrib level)) (next level)
      end
  end.

Lemma elem_of_add_all acc l x : x ∈ add_all acc l ↔ x ∈ acc ∨ x ∈ l.
Proof. unfold add_all. by rewrite elem_of_dedup, elem_of_app. Qed.

(** ** The relation that is followed *)
Variable R : A → A → Prop.
Variable C : A → B → Prop.
Hypothesis next_spec : ∀ l y, y ∈ next l ↔ ∃ x, x ∈ l ∧ R x y.
Hypothesis contrib_spec : ∀ l b, b ∈ contrib l ↔ ∃ x, x ∈ l ∧ C x b.

(** With a measure that decreases along the relation, from members with a property
    that it keeps, the walk ends. *)
Lemma walk_total (P : A → Prop) (measure : A → nat) level :
  (∀ x y, P x → R x y → P y ∧ measure y < measure x) → (∀ x, x ∈ level → P x) →
  ∀ n fuel acc, (∀ x, x ∈ level → measure x < n) → n <= fuel → is_Some (walk fuel acc level).
Proof.
  intros Hm HP n. revert level HP.
  induction n as [|n IH]; intros level HP fuel acc Hlevel Hfuel.
  - destruct level as [|x l]; [by destruct fuel|]. specialize (Hlevel x ltac:(left)). lia.
  - destruct level as [|x l]; [by destruct fuel|]. destruct fuel as [|fuel]; [lia|]. cbn [walk].
    apply IH; [| |lia]; intros y (z & Hz & HR)%next_spec;
      destruct (Hm z y (HP z Hz) HR) as [? ?]; [done|]. specialize (Hlevel z Hz). lia.
Qed.

(** The result: what was there, and what everything reachable contributes. *)
Lemma walk_elem fuel acc level out :
  walk fuel acc level = Some out →
  ∀ b, b ∈ out ↔ b ∈ acc ∨ ∃ x y, x ∈ level ∧ rtc R x y ∧ C y b.
Proof.
  revert acc level. induction fuel as [|fuel IH]; intros acc level H b.
  - destruct level; [|done]. injection H as <-.
    split; [by left|]. intros [?|(x & y & Hx & _)]; [done|]. by apply elem_of_nil in Hx.
  - destruct level as [|x0 l]; [injection H as <-|].
    { split; [by left|]. intros [?|(x & y & Hx & _)]; [done|]. by apply elem_of_nil in Hx. }
    cbn [walk] in H. rewrite (IH _ _ H), elem_of_add_all, contrib_spec. split.
    + intros [[?|(x & Hx & Hb)]|(x & y & (z & Hz & HR)%next_spec & Hxy & Hb)].
      * by left.
      * right. exists x, x. split; [done|]. split; [apply rtc_refl|done].
      * right. exists z, y. split; [done|]. split; [by eapply rtc_l|done].
    + intros [?|(x & y & Hx & Hxy & Hb)]; [by left; left|].
      apply rtc_inv in Hxy as [<-|(z & HR & Hzy)]; [left; right; eauto|].
      right. exists z, y. split; [|done]. apply next_spec. eauto.
Qed.

Lemma walk_NoDup fuel acc level out : NoDup acc → walk fuel acc level = Some out → NoDup out.
Proof.
  revert acc level. induction fuel as [|fuel IH]; intros acc level Hacc H.
  - destruct level; [|done]. by injection H as <-.
  - destruct level; [by injection H as <-|]. cbn [walk] in H. eapply IH; [|exact H].
    apply NoDup_dedup.
Qed.
End walk.
