(* ===== verification/Comments.v ===== *)
(** * Comments

    [packages/app/models/comments.ts]: grouping the comments of a document into
    threads, the thread above a comment, and the content of a comment draft. *)
From S2P Require Import Prelude.
From S2P Require Import JsString.
From S2P Require Import JsObject.
From S2P Require Import EntityId.
From S2P Require Import BlockTypes.
From S2P Require Import StyledText.
From S2P Require Import BlockConvert.
From S2P Require Import DraftDiff.
From S2P Require Import Walk.

(** A comment as the functions read it: its id and the id it replies to, which the
    daemon leaves empty for a comment on the document itself. *)
Record HMComment : Type := {
  c_id : string;
  c_repliedComment : option string;
  c_author : option string;
  c_content : list HMBlockNode;
}.

Record CommentGroup : Type := {
  cg_comments : list HMComment;
  cg_moreCommentsCount : Z;
  cg_id : string;
}.

(** ** Groups *)

(** The comments that start a group. *)
Definition starts_group (targetCommentId : option string) (comment : HMComment) : bool :=
  match targetCommentId with
  | Some t => bool_decide (c_repliedComment comment = Some t)
  | None => false
  end || (negb (otruthy targetCommentId) && bool_decide (c_repliedComment comment = Some "")).

(** [comments.filter((c) => c.repliedComment === comment.id)] *)
Definition replies (comments : list HMComment) (comment : HMComment) : list HMComment :=
  List.filter (λ c, bool_decide (c_repliedComment c = Some (c_id comment))) comments.

(** The first [while]: follow the only reply; [None] when the fuel runs out. *)
Fixpoint follow_single (fuel : nat) (comments : list HMComment) (comment : HMComment) :
    option (list HMComment) :=
  match replies comments comment with
  | [next] =>
      match fuel with
      | O => None
      | S fuel' => cons next <$> follow_single fuel' comments next
      end
  | _ => Some []
  end.

(** One round of the second [while]: the ids of the replies to a set of ids. *)
Definition next_comment_ids (comments : list HMComment) (ids : list string) : list string :=
  dedup (c_id <$> List.filter (λ c,
    otruthy (c_repliedComment c) && bool_decide (default "" (c_repliedComment c) ∈ ids)) comments).

Definition more_comments (fuel : nat) (comments : list HMComment) (last : HMComment) :
    option (list string) :=
  walk (next_comment_ids comments) id fuel [] [c_id last].

Definition comment_group (fuel : nat) (comments : list HMComment) (comment : HMComment) :
    option CommentGroup :=
  match follow_single fuel comments comment with
  | None => None
  | Some rest =>
      let lastGroupComment := List.last rest comment in
      (λ more, {| cg_comments := comment :: rest;
                  cg_moreCommentsCount := (Z.of_nat (length more) - 1)%Z;
                  cg_id := c_id comment |})
        <$> more_comments fuel comments lastGroupComment
  end.

(** [None] means that a loop has not ended within the fuel. *)
Definition useCommentGroups (fuel : nat) (comments : option (list HMComment))
    (targetCommentId : option string) : option (list CommentGroup) :=
  let cs := default [] comments in
  mapM (comment_group fuel cs) (List.filter (starts_group targetCommentId) cs).

(** ** The thread above a comment *)

Definition find_comment (comments : list HMComment) (id : option string) : option HMComment :=
  List.find (λ c, bool_decide (Some (c_id c) = id)) comments.

(** The [while]: each step puts the parent, or the [undefined] of no parent, first. *)
Fixpoint thread_loop (fuel : nat) (comments : list HMComment) (comment : option HMComment)
    (thread : list (option HMComment)) : option (list (option HMComment)) :=
  match comment with
  | None => Some thread
  | Some c =>
      match fuel with
      | O => None
      | S fuel' =>
          let parent := find_comment comments (c_repliedComment c) in
          thread_loop fuel' comments parent (parent :: thread)
      end
  end.
Definition useCommentReplies (fuel : nat) (comments : list HMComment) (targetCommentId : string) :
    option (list (option HMComment)) :=
  let comment := find_comment comments (Some targetCommentId) in
  thread_loop fuel comments comment [comment].

(** ** Comment drafts *)

(** The attributes that [serverBlockNodesFromEditorBlocks] sets from the block's
    group; an [undefined] list level removes the one that was there. *)
Definition group_attributes (group : option BlockGroup) (attributes : obj string) : obj string :=
  let type := match group with Some g => if truthy (g_type g) then g_type g else "group" | None => "group" end in
  let a1 := oset attributes "childrenType" type in
  let a2 :=
    match group ≫= g_listLevel with
    | Some l => oset a1 "listLevel" l
    | None => odelete a1 "listLevel"
    end in
  match group ≫= g_start with
  | Some n => if (n =? 0)%N then a2 else oset a2 "start" (num_to_str n)
  | None => a2
  end.

Fixpoint serverBlockNode (editor : option PMNode) (block : EditorBlock) : result HMBlockNode :=
  match block with
  | EBlock id _ _ _ children =>
      let childGroup := getBlockGroup editor id in
      let* serverBlock := fromHMBlock block in
      let* kids := map_result (serverBlockNode editor) children in
      Ok (BlockNode
        (Some {| b_id := b_id serverBlock; b_type := b_type serverBlock; b_text := b_text serverBlock;
                 b_ref := b_ref serverBlock; b_annotations := b_annotations serverBlock;
                 b_attributes :=
                   Some (group_attributes childGroup (default [] (b_attributes serverBlock))) |})
        (Some kids))
  end.
Definition serverBlockNodesFromEditorBlocks (editor : option PMNode) (blocks : list EditorBlock) :
    result (list HMBlockNode) :=
  map_result (serverBlockNode editor) blocks.

(** The filter of [onSubmit], which reads [type] and [text] from the block node; a
    node has neither, its block does. *)
Definition node_field_type (n : HMBlockNode) : option string := None.
Definition node_field_text (n : HMBlockNode) : option string := None.
Definition contentWithoutLastEmptyBlock (content : list HMBlockNode) : list HMBlockNode :=
  (imap pair content ≫= λ '(index, block),
    if negb (index =? length content - 1) then [block]
    else if bool_decide (node_field_type block = Some "paragraph") &&
            bool_decide (node_field_text block = Some "") &&
            (length (node_kids block) =? 0)
    then [] else [block]).

(** The comment that [onSubmit] creates. *)
Record NewComment : Type := {
  nc_content : list HMBlockNode;
  nc_target : string;
  nc_repliedComment : option string;
}.
Definition submit_comment `{UrlApi} (editor : option PMNode) (blocks : list EditorBlock)
    (targetDocEid targetDocVersion : string) (targetCommentId : option string) : result NewComment :=
  let* content := serverBlockNodesFromEditorBlocks editor blocks in
  let* target := createHmId "d" targetDocEid
    {| o_version := Some targetDocVersion; o_blockRef := None; o_blockRange := None;
       o_groupPathName := None; o_variants := None; o_latest := None; o_hostname := None |} in
  Ok {| nc_content := contentWithoutLastEmptyBlock content; nc_target := target;
        nc_repliedComment := or_null targetCommentId |}.

(** * Comments: theorems

    Grouping ends on comments whose replies come after what they reply to, and every
    comment of a thread is shown in its group or counted as one more. *)

(** [j] is the id of a reply to the comment [i]. *)
Definition reply_of (comments : list HMComment) (i j : string) : Prop :=
  ∃ c, c ∈ comments ∧ c_repliedComment c = Some i ∧ i ≠ "" ∧ c_id c = j.

(** The comments of a document: distinct ids, and a rank below [n] (such as the
    order of creation) that grows from a comment to its replies. *)
Record comments_ok (comments : list HMComment) (rank : string → nat) (n : nat) : Prop := {
  co_ids : NoDup (c_id <$> comments);
  co_named c : c ∈ comments → c_id c ≠ "";
  co_rank i j : reply_of comments i j → rank i < rank j;
  co_bound c : c ∈ comments → rank (c_id c) < n;
}.

(** A chain of only replies, to its end. *)
Fixpoint only_replies (comments : list HMComment) (c : HMComment) (rest : list HMComment) : Prop :=
  match rest with
  | [] => ∀ d, replies comments c ≠ [d]
  | d :: rest' => replies comments c = [d] ∧ only_replies comments d rest'
  end.

(** A group: its chain, and with the count, as many comments as the thread has. *)
Definition group_ok (comments : list HMComment) (g : CommentGroup) : Prop :=
  ∃ c rest below,
    cg_comments g = c :: rest ∧ cg_id g = c_id c ∧ only_replies comments c rest ∧
    NoDup below ∧ (∀ i, i ∈ below ↔ tc (reply_of comments) (c_id c) i) ∧
    (Z.of_nat (length (cg_comments g)) + cg_moreCommentsCount g = 1 + Z.of_nat (length below))%Z.

Section facts.
Context (comments : list HMComment) (rank : string → nat) (n : nat).
Hypothesis Hok : comments_ok comments rank n.

Lemma elem_of_replies c d :
  d ∈ replies comments c ↔ d ∈ comments ∧ c_repliedComment d = Some (c_id c).
Proof.
  unfold replies. rewrite !list_elem_of_In, List.filter_In, bool_decide_eq_true. done.
Qed.

Lemma reply_of_replies c j :
  c ∈ comments → reply_of comments (c_id c) j ↔ ∃ d, d ∈ replies comments c ∧ c_id d = j.
Proof.
  intros Hc. setoid_rewrite elem_of_replies. unfold reply_of. split.
  - intros (d & ? & ? & _ & ?). eauto.
  - intros (d & [? ?] & ?). exists d. by pose proof (co_named _ _ _ Hok c Hc).
Qed.

Lemma reply_bound i j : reply_of comments i j → rank i < rank j < n.
Proof.
  intros H. split; [by apply (co_rank _ _ _ Hok)|].
  destruct H as (c & Hc & _ & _ & <-). by apply (co_bound _ _ _ Hok).
Qed.

Lemma rank_rtc i j : rtc (reply_of comments) i j → rank i <= rank j.
Proof. induction 1 as [|i k j Hik _ IH]; [done|]. apply reply_bound in Hik. lia. Qed.

Lemma tc_rtc_ne i j : tc (reply_of comments) i j ↔ rtc (reply_of comments) i j ∧ j ≠ i.
Proof.
  split.
  - intros Ht. split; [by apply tc_rtc|]. intros ->.
    inversion Ht as [?? Hr|?? ? Hr Hk]; subst; apply reply_bound in Hr; [lia|].
    apply tc_rtc, rank_rtc in Hk. lia.
  - intros [[->|Ht]%rtc_tc Hne]; done.
Qed.

(** ** Ending *)

Lemma follow_single_total fuel c :
  c ∈ comments → n - rank (c_id c) <= fuel →
  ∃ rest, follow_single fuel comments c = Some rest ∧ only_replies comments c rest ∧
    Forall (λ d, d ∈ comments) rest.
Proof.
  revert c. induction fuel as [|fuel IH]; intros c Hc Hfuel.
  - pose proof (co_bound _ _ _ Hok c Hc). lia.
  - cbn [follow_single]. destruct (replies comments c) as [|d [|e l]] eqn:E.
    + exists []. split_and!; [done| |constructor]. intros d. by rewrite E.
    + assert (d ∈ comments ∧ c_repliedComment d = Some (c_id c)) as [Hd Hrd].
      { apply elem_of_replies. rewrite E. left. }
      assert (reply_of comments (c_id c) (c_id d)) as Hr.
      { apply reply_of_replies; [done|]. exists d. rewrite E. split; [left|done]. }
      apply reply_bound in Hr. destruct (IH d Hd ltac:(lia)) as (rest & -> & Ho & Hf).
      exists (d :: rest). split_and!; [done|by split|by constructor].
    + exists []. split_and!; [done| |constructor]. intros f. by rewrite E.
Qed.

Lemma next_ids_spec l j :
  j ∈ next_comment_ids comments l ↔ ∃ i, i ∈ l ∧ reply_of comments i j.
Proof.
  unfold next_comment_ids, reply_of. rewrite elem_of_dedup, list_elem_of_fmap.
  setoid_rewrite list_elem_of_In at 1. setoid_rewrite List.filter_In.
  setoid_rewrite <- list_elem_of_In. setoid_rewrite andb_true_iff.
  setoid_rewrite bool_decide_eq_true. split.
  - intros (c & -> & Hc & Ht & Hin). destruct (c_repliedComment c) as [i|] eqn:E; [|done].
    apply truthy_spec in Ht. cbn in Hin. exists i. split; [done|]. by exists c.
  - intros (i & Hi & c & Hc & E & Hne & <-). exists c. rewrite E. cbn.
    split; [done|]. split; [done|]. split; [by apply truthy_spec|done].
Qed.

Lemma more_comments_spec fuel c :
  c ∈ comments → n - rank (c_id c) < fuel →
  ∃ ids, more_comments fuel comments c = Some ids ∧ NoDup ids ∧
    ∀ i, i ∈ ids ↔ rtc (reply_of comments) (c_id c) i.
Proof.
  intros Hc Hfuel.
  assert (∀ (l : list string) (b : string), b ∈ id l ↔ ∃ x, x ∈ l ∧ x = b) as Hcontrib by naive_solver.
  destruct (walk_total (next_comment_ids comments) id (reply_of comments) next_ids_spec
    (λ _, True) (λ i, n - rank i) [c_id c]) with (n := fuel) (fuel := fuel) (acc := @nil string) as [ids Hids].
  - intros i j _ H%reply_bound. split; [done|lia].
  - done.
  - intros i ->%list_elem_of_singleton. done.
  - lia.
  - exists ids. split; [exact Hids|]. split; [by eapply walk_NoDup; [constructor|exact Hids]|].
    intros i. rewrite (walk_elem _ _ _ _ next_ids_spec Hcontrib _ _ _ _ Hids). split.
    + intros [?%elem_of_nil|(x & y & ->%list_elem_of_singleton & Hxy & ->)]; done.
    + intros Hr. right. exists (c_id c), i. split; [left|]. done.
Qed.

(** ** Counting *)

Lemma last_cons_default {A} (x d : A) l : List.last (x :: l) d = List.last l x.
Proof.
  revert x d. induction l as [|y l IH]; intros x d; [done|].
  change (List.last (x :: y :: l) d) with (List.last (y :: l) d). by rewrite !IH.
Qed.

(** The thread of the head of a chain: the chain before its last comment, and the
    thread of the last. *)
Lemma chain_thread c rest ids :
  c ∈ comments → only_replies comments c rest → Forall (λ d, d ∈ comments) rest →
  NoDup ids → (∀ i, i ∈ ids ↔ rtc (reply_of comments) (c_id (List.last rest c)) i) →
  ∃ all, NoDup all ∧ (∀ i, i ∈ all ↔ rtc (reply_of comments) (c_id c) i) ∧
    length all = length rest + length ids.
Proof.
  intros Hc Ho Hin Hnd Hids. revert c Hc Ho Hids.
  induction Hin as [|d rest Hd Hin IH]; intros c Hc Ho Hids; [by exists ids|].
  destruct Ho as [Hr Ho].
  rewrite last_cons_default in Hids. destruct (IH d Hd Ho Hids) as (all & Hall & Hel & Hlen).
  assert (∀ j, reply_of comments (c_id c) j ↔ j = c_id d) as Hone.
  { intros j. rewrite reply_of_replies by done. setoid_rewrite Hr.
    setoid_rewrite list_elem_of_singleton. naive_solver. }
  exists (c_id c :: all). split_and!.
  - constructor; [|done]. rewrite Hel. intros Hrt%rank_rtc.
    pose proof (reply_bound (c_id c) (c_id d) ltac:(by apply Hone)). lia.
  - intros i. rewrite elem_of_cons, Hel. split.
    + intros [->|Hi]; [apply rtc_refl|]. eapply rtc_l; [by apply Hone|done].
    + intros [<-|(j & Hj & Hi)]%rtc_inv; [by left|]. apply Hone in Hj as ->. by right.
  - cbn. lia.
Qed.

Lemma last_in c rest :
  c ∈ comments → Forall (λ d, d ∈ comments) rest → List.last rest c ∈ comments.
Proof.
  intros Hc. induction 1 as [|d rest Hd Hr IH]; [done|].
  destruct rest; [done|]. cbn in *. done.
Qed.

Lemma comment_group_ok fuel c :
  c ∈ comments → n < fuel → ∃ g, comment_group fuel comments c = Some g ∧ cg_id g = c_id c ∧
    group_ok comments g.
Proof.
  intros Hc Hfuel. unfold comment_group.
  destruct (follow_single_total fuel c Hc ltac:(lia)) as (rest & -> & Ho & Hin).
  destruct (more_comments_spec fuel (List.last rest c) ltac:(by apply last_in) ltac:(lia))
    as (ids & -> & Hnd & Hids).
  eexists. split; [done|]. split; [done|].
  destruct (chain_thread c rest ids Hc Ho Hin Hnd Hids) as (all & Hall & Hel & Hlen).
  destruct (list_elem_of_split all (c_id c)) as (l1 & l2 & ->); [apply Hel, rtc_refl|].
  exists c, rest, (l1 ++ l2). cbn [cg_comments cg_id cg_moreCommentsCount].
  assert (NoDup (c_id c :: l1 ++ l2)) as [Hne Hnd']%NoDup_cons
    by by rewrite Permutation_middle.
  split_and!; try done.
  - intros i. rewrite tc_rtc_ne, <- Hel. set_solver.
  - rewrite length_app in *. cbn in *. lia.
Qed.
End facts.

(** C23. Grouping the comments of a document ends, and nothing is lost: there is one
    group for each comment on the target, in order; a group shows its comment and
    then the chain of only replies below it; and the comments it shows with the
    count of further ones are exactly the whole thread under its comment. *)
Theorem useCommentGroups_complete comments rank n target fuel :
  comments_ok comments rank n → n < fuel →
  ∃ groups, useCommentGroups fuel (Some comments) target = Some groups ∧
    cg_id <$> groups = c_id <$> List.filter (starts_group target) comments ∧
    Forall (group_ok comments) groups.
Proof.
  intros Hok Hfuel. unfold useCommentGroups. cbn [default from_option id].
  assert (∀ l, Forall (λ c, c ∈ comments) l →
    ∃ groups, mapM (comment_group fuel comments) l = Some groups ∧
      cg_id <$> groups = c_id <$> l ∧ Forall (group_ok comments) groups) as H.
  { induction 1 as [|c l Hc _ (groups & IH & Hids & Hgs)]; [by exists []|].
    destruct (comment_group_ok comments rank n Hok fuel c Hc Hfuel) as (g & Hg & Hid & Hgok).
    exists (g :: groups). cbn. rewrite Hg. cbn. rewrite IH. cbn.
    split_and!; [done| |by constructor]. by rewrite Hid, Hids. }
  apply H, Forall_forall. intros c Hc. apply list_elem_of_In, List.filter_In in Hc as [Hc _].
  by apply list_elem_of_In.
Qed.

(** A draft is submitted as it is: the trailing empty block is never dropped. *)
Lemma nothing_is_trimmed content : contentWithoutLastEmptyBlock content = content.
Proof.
  unfold contentWithoutLastEmptyBlock. cbn [node_field_type].
  assert (∀ (l : list HMBlockNode) (f : nat → nat),
    (imap (λ i b, (f i, b)) l ≫= λ '(index, block),
      if negb (index =? length content - 1) then [block]
      else if bool_decide (@None string = Some "paragraph") && bool_decide (@None string = Some "")
              && (length (node_kids block) =? 0) then [] else [block]) = l) as H.
  { induction l as [|b l IH]; intros f; [done|]. cbn.
    replace (if negb (f 0 =? length content - 1) then [b] else [b]) with [b]
      by (by destruct (negb (f 0 =? length content - 1))).
    cbn. f_equal. apply (IH (f ∘ S)). }
  apply (H content id).
Qed.

(** ** Witness *)

Definition ex_comment (id parent : string) : HMComment :=
  {| c_id := id; c_repliedComment := Some parent; c_author := None; c_content := [] |}.
Definition ex_thread : list HMComment :=
  [ex_comment "c1" ""; ex_comment "c2" "c1"; ex_comment "c3" "c2"; ex_comment "c4" "c2";
   ex_comment "c5" "c4"; ex_comment "c6" ""].
Definition ex_rank (id : string) : nat :=
  match id with
  | "c1" => 1 | "c2" => 2 | "c3" => 3 | "c4" => 4 | "c5" => 5 | "c6" => 6 | _ => 0
  end.

Lemma ex_thread_ok : comments_ok ex_thread ex_rank 7.
Proof.
  split.
  - by apply (bool_decide_unpack _).
  - intros c Hc. repeat (apply elem_of_cons in Hc as [->|Hc]; [done|]). by apply elem_of_nil in Hc.
  - intros i j (c & Hc & Hi & Hne & <-).
    repeat (apply elem_of_cons in Hc as [->|Hc];
      [cbn in Hi; injection Hi as <-; first [done | cbn; lia]|]).
    by apply elem_of_nil in Hc.
  - intros c Hc. repeat (apply elem_of_cons in Hc as [->|Hc]; [cbn; lia|]). by apply elem_of_nil in Hc.
Qed.

Lemma useCommentGroups_complete_witness :
  ∃ groups, useCommentGroups 8 (Some ex_thread) None = Some groups ∧ cg_id <$> groups = ["c1"; "c6"] ∧
    cg_moreCommentsCount <$> groups = [3%Z; 0%Z].
Proof.
  destruct (useCommentGroups_complete ex_thread ex_rank 7 None 8 ex_thread_ok ltac:(lia))
    as (groups & Hg & Hids & _).
  exists groups. split; [exact Hg|]. split; [exact Hids|].
  vm_compute in Hg. injection Hg as <-. reflexivity.
Defined.
