(* ===== verification/Timeline.v ===== *)
(** * The timeline of an entity

    [packages/app/models/changes.ts]: the changes of an entity with the changes that
    build on each, and the history of a version of a document. *)
From S2P Require Import Prelude.
From S2P Require Import JsString.
From S2P Require Import JsObject.
From S2P Require Import BlockTypes.
From S2P Require Import EntityId.
From S2P Require Import ContentTree.
From S2P Require Import Walk.

(** A change of the daemon's timeline: its id, the changes it depends on, and its
    time in milliseconds. *)
Record Change : Type := {
  ch_id : string;
  ch_deps : list string;
  ch_createTime : option Z;
}.

Record TimelineChange : Type := {
  tc_change : Change;
  tc_deps : list string;
  tc_citations : list string;
  tc_id : string;
}.

(** ** The timeline *)

Definition timeline_entry (change : Change) : TimelineChange :=
  {| tc_change := change; tc_deps := ch_deps change; tc_citations := []; tc_id := ch_id change |}.

Definition cite (changeId : string) (c : TimelineChange) : TimelineChange :=
  {| tc_change := tc_change c; tc_deps := tc_deps c; tc_citations := tc_citations c ++ [changeId];
     tc_id := tc_id c |}.

(** [allChanges[depId]?.citations.push(changeId)] *)
Definition push_citation (changeId : string) (all : obj TimelineChange) (depId : string) :
    obj TimelineChange :=
  match oget all depId with
  | Some c => oset all depId (cite changeId c)
  | None => all
  end.

Definition allChanges (changes : obj Change) : obj TimelineChange :=
  let start := foldl (λ all e, oset all e.1 (timeline_entry e.2)) [] changes in
  foldl (λ all e, foldl (push_citation e.1) all (ch_deps e.2)) start changes.

(** ** The history of a version *)

(** The changes of a version that the timeline has. *)
Definition version_changes (all : obj TimelineChange) (variantVersion : option string) :
    list TimelineChange :=
  match variantVersion with
  | Some v => omap (oget all) (js_split "." v)
  | None => []
  end.

Definition dep_ids (level : list TimelineChange) : list string :=
  concat ((λ c, ch_deps (tc_change c)) <$> level).
Definition next_leaves (all : obj TimelineChange) (level : list TimelineChange) :
    list TimelineChange :=
  omap (oget all) (dep_ids level).

(** The comparator of the last step. *)
Definition newest_change_first (a b : TimelineChange) : Z :=
  sortDocuments (ch_createTime (tc_change a)) (ch_createTime (tc_change b)).

(** [None] when the walk has not ended within the fuel. *)
Definition useDocHistory (fuel : nat) (all : obj TimelineChange) (variantVersion : option string) :
    option (list TimelineChange) :=
  let leaves := version_changes all variantVersion in
  (λ allVariantChanges, js_sort newest_change_first (omap (oget all) allVariantChanges))
    <$> walk (next_leaves all) dep_ids fuel (dedup (tc_id <$> leaves)) leaves.

(** * The timeline of an entity: theorems

    The citations of a change are the changes that depend on it; the history of a
    version is its changes and everything they build on. *)

(** ** Citations *)

Lemma push_citation_get id all dep k :
  oget (push_citation id all dep) k =
  (if String.eqb dep k then cite id <$> oget all k else oget all k).
Proof.
  unfold push_citation. destruct (oget all dep) as [c|] eqn:E.
  - rewrite oget_oset. destruct (String.eqb_spec dep k) as [<-|]; [by rewrite E|done].
  - destruct (String.eqb_spec dep k) as [<-|]; [by rewrite E|done].
Qed.

(** What is not touched by citing. *)
Definition same_change (a b : TimelineChange) : Prop :=
  tc_change a = tc_change b ∧ tc_deps a = tc_deps b ∧ tc_id a = tc_id b.

Lemma cite_deps_get id deps all k c :
  oget all k = Some c →
  ∃ c', oget (foldl (push_citation id) all deps) k = Some c' ∧ same_change c' c ∧
    ∀ i, i ∈ tc_citations c' ↔ i ∈ tc_citations c ∨ (i = id ∧ k ∈ deps).
Proof.
  revert all c. induction deps as [|d deps IH]; intros all c Hc; cbn [foldl].
  - exists c. split; [done|]. split; [done|]. intros i. rewrite elem_of_nil. naive_solver.
  - pose proof (push_citation_get id all d k) as Hp. rewrite Hc in Hp.
    destruct (String.eqb_spec d k) as [->|Hne].
    + destruct (IH _ _ Hp) as (c' & Hc' & Hs & Hi). exists c'. split; [done|]. split; [done|].
      intros i. rewrite Hi. cbn [cite tc_citations]. rewrite elem_of_app, !elem_of_cons, elem_of_nil.
      naive_solver.
    + destruct (IH _ _ Hp) as (c' & Hc' & Hs & Hi). exists c'. split; [done|]. split; [done|].
      intros i. rewrite Hi, elem_of_cons. naive_solver.
Qed.

Lemma cite_all_get changes all k c :
  oget all k = Some c →
  ∃ c', oget (foldl (λ all e, foldl (push_citation e.1) all (ch_deps e.2)) all changes) k = Some c' ∧
    same_change c' c ∧
    ∀ i, i ∈ tc_citations c' ↔
      i ∈ tc_citations c ∨ ∃ ch, (i, ch) ∈ changes ∧ k ∈ ch_deps ch.
Proof.
  revert all c. induction changes as [|[id ch] changes IH]; intros all c Hc; cbn [foldl fst snd].
  - exists c. split; [done|]. split; [done|]. intros i. setoid_rewrite elem_of_nil. naive_solver.
  - destruct (cite_deps_get id (ch_deps ch) all k c Hc) as (c1 & Hc1 & Hs1 & Hi1).
    destruct (IH _ _ Hc1) as (c' & Hc' & Hs & Hi). exists c'. split; [done|].
    split; [unfold same_change in *; naive_solver congruence|].
    intros i. rewrite Hi, Hi1. setoid_rewrite elem_of_cons. split.
    + intros [[?|[-> ?]]|(ch' & ? & ?)]; [by left|right; exists ch; auto|right; exists ch'; auto].
    + intros [?|(ch' & [[= -> ->]|?] & ?)]; [by left; left|left; right; auto|right; exists ch'; auto].
Qed.

Lemma timeline_start changes k :
  owf changes →
  oget (foldl (λ all e, oset all e.1 (timeline_entry e.2)) [] changes) k =
  timeline_entry <$> oget changes k.
Proof.
  intros Hwf. assert (∀ all : obj TimelineChange,
    oget (foldl (λ all e, oset all e.1 (timeline_entry e.2)) all changes) k =
    match oget changes k with Some ch => Some (timeline_entry ch) | None => oget all k end) as H.
  { unfold owf in Hwf. induction changes as [|[j ch] changes IH]; intros all; [done|].
    cbn in Hwf. apply NoDup_cons in Hwf as [Hj Hwf]. cbn [foldl fst snd oget]. rewrite IH by done.
    rewrite oget_oset. rewrite (String.eqb_sym k j). destruct (String.eqb_spec j k) as [->|]; [|done].
    apply oget_None in Hj. by rewrite Hj. }
  rewrite H. by destruct (oget changes k).
Qed.

(** The timeline has an entry per change of the daemon's answer, and the
    citations of a change are exactly the changes that depend on it. *)
Theorem timeline_citations changes k ch :
  owf changes → oget changes k = Some ch →
  ∃ c, oget (allChanges changes) k = Some c ∧ tc_change c = ch ∧ tc_deps c = ch_deps ch ∧
    tc_id c = ch_id ch ∧
    ∀ i, i ∈ tc_citations c ↔ ∃ ch', oget changes i = Some ch' ∧ k ∈ ch_deps ch'.
Proof.
  intros Hwf Hk. unfold allChanges.
  destruct (cite_all_get changes (foldl (λ all e, oset all e.1 (timeline_entry e.2)) [] changes) k
    (timeline_entry ch)) as (c & Hc & (Hch & Hd & Hid) & Hi).
  { by rewrite timeline_start, Hk. }
  exists c. split; [done|]. cbn in Hch, Hd, Hid. split_and!; [done..|].
  intros i. rewrite Hi. cbn [timeline_entry tc_citations]. rewrite elem_of_nil.
  split.
  - intros [[]|(ch' & Hin & ?)]. exists ch'. split; [by apply oget_elem|done].
  - intros (ch' & ? & ?). right. exists ch'. split; [by apply oget_Some_elem|done].
Qed.

(** ** History *)

(** [d] is a change that [c] builds on directly. *)
Definition builds_on (all : obj TimelineChange) (c d : TimelineChange) : Prop :=
  ∃ dep, dep ∈ ch_deps (tc_change c) ∧ oget all dep = Some d.

(** A timeline: entries under their ids, and every change later than what it builds
    on by some measure below [n]. *)
Record timeline_ok (all : obj TimelineChange) (age : TimelineChange → nat) (n : nat) : Prop := {
  to_keys k c : oget all k = Some c → tc_id c = k;
  to_age k c dep d :
    oget all k = Some c → dep ∈ ch_deps (tc_change c) → oget all dep = Some d → age d < age c;
  to_bound k c : oget all k = Some c → age c < n;
}.

Section history.
Context (all : obj TimelineChange) (age : TimelineChange → nat) (n : nat).
Hypothesis Hok : timeline_ok all age n.

Lemma elem_of_dep_ids level dep :
  dep ∈ dep_ids level ↔ ∃ c, c ∈ level ∧ dep ∈ ch_deps (tc_change c).
Proof.
  unfold dep_ids. rewrite list_elem_of_In, in_concat. split.
  - intros (l & Hl & Hd). apply list_elem_of_In, list_elem_of_fmap in Hl as (c & -> & Hc).
    exists c. split; [done|]. by apply list_elem_of_In.
  - intros (c & Hc & Hd). exists (ch_deps (tc_change c)). split; [|by apply list_elem_of_In].
    apply list_elem_of_In, list_elem_of_fmap. eauto.
Qed.

Lemma elem_of_next_leaves level d :
  d ∈ next_leaves all level ↔ ∃ c, c ∈ level ∧ builds_on all c d.
Proof.
  unfold next_leaves, builds_on. rewrite list_elem_of_omap. setoid_rewrite elem_of_dep_ids. naive_solver.
Qed.

Lemma elem_of_version v c :
  c ∈ version_changes all (Some v) ↔ ∃ id, id ∈ js_split "." v ∧ oget all id = Some c.
Proof. unfold version_changes. rewrite list_elem_of_omap. naive_solver. Qed.

Lemma history_ids v fuel :
  n <= fuel →
  ∃ ids, walk (next_leaves all) dep_ids fuel (dedup (tc_id <$> version_changes all (Some v)))
           (version_changes all (Some v)) = Some ids ∧ NoDup ids ∧
    ∀ k c, oget all k = Some c →
      k ∈ ids ↔ ∃ c0, c0 ∈ version_changes all (Some v) ∧ rtc (builds_on all) c0 c.
Proof.
  intros Hfuel. set (leaves := version_changes all (Some v)).
  destruct (walk_total (next_leaves all) dep_ids (builds_on all) elem_of_next_leaves
    (λ c, ∃ k, oget all k = Some c) age leaves)
    with (n := n) (fuel := fuel) (acc := dedup (tc_id <$> leaves)) as [ids Hids].
  - intros c d [k Hk] (dep & Hdep & Hd). split; [by exists dep|]. by apply (to_age _ _ _ Hok k c dep).
  - intros c (id & _ & Hc)%elem_of_version. by exists id.
  - intros c (id & _ & Hc)%elem_of_version. by apply (to_bound _ _ _ Hok id).
  - done.
  - exists ids. split; [exact Hids|]. split; [eapply walk_NoDup; [apply NoDup_dedup|exact Hids]|].
    intros k c Hk.
    rewrite (walk_elem _ _ _ (λ c b, b ∈ ch_deps (tc_change c)) elem_of_next_leaves elem_of_dep_ids
      _ _ _ _ Hids), elem_of_dedup, list_elem_of_fmap. split.
    + intros [(c0 & -> & Hc0)|(c0 & d & Hc0 & Hr & Hd)].
      * exists c0. split; [done|]. apply elem_of_version in Hc0 as (id & _ & Hid).
        rewrite (to_keys _ _ _ Hok _ _ Hid) in Hk. rewrite Hid in Hk. injection Hk as ->. apply rtc_refl.
      * exists c0. split; [done|]. eapply rtc_r; [done|]. by exists k.
    + intros (c0 & Hc0 & Hr). apply rtc_inv_r in Hr as [<-|(d & Hr & dep & Hdep & Hd)].
      * left. exists c0. split; [|done]. symmetry. by apply (to_keys _ _ _ Hok).
      * right. exists c0, d. split; [done|]. split; [done|].
        apply (to_keys _ _ _ Hok) in Hd. apply (to_keys _ _ _ Hok) in Hk. congruence.
Qed.

(** The last step keeps every entry once. *)
Lemma omap_oget_NoDup ids : NoDup ids → NoDup (omap (oget all) ids).
Proof.
  induction 1 as [|k ids Hk _ IH]; [constructor|]. cbn.
  destruct (oget all k) as [c|] eqn:E; [|done]. constructor; [|done].
  intros (j & Hj & Hjc)%list_elem_of_omap.
  apply (to_keys _ _ _ Hok) in E as E1. apply (to_keys _ _ _ Hok) in Hjc as E2. congruence.
Qed.
End history.

(** C24. The history of a version ends on a timeline without cycles, and it is the
    version's changes with everything they build on, directly or not, as far as the
    timeline has it: each change once, and newest first when every change has its
    time. *)
Theorem useDocHistory_complete all age n v fuel :
  timeline_ok all age n → n <= fuel →
  ∃ history, useDocHistory fuel all (Some v) = Some history ∧ NoDup history ∧
    (∀ c, c ∈ history ↔ ∃ id c0, id ∈ js_split "." v ∧ oget all id = Some c0 ∧
       rtc (builds_on all) c0 c) ∧
    ((∀ k c, oget all k = Some c → is_Some (ch_createTime (tc_change c))) →
     StronglySorted (λ a b, (default 0 (ch_createTime (tc_change b)) <=
                             default 0 (ch_createTime (tc_change a)))%Z) history).
Proof.
  intros Hok Hfuel. destruct (history_ids all age n Hok v fuel Hfuel) as (ids & Hids & Hnd & Hel).
  unfold useDocHistory. rewrite Hids. cbn [fmap option_fmap option_map].
  eexists. split; [done|]. split; [|split].
  - rewrite js_sort_Permutation. by apply (omap_oget_NoDup all age n Hok).
  - intros c. rewrite js_sort_Permutation, list_elem_of_omap. split.
    + intros (k & Hk & Hc). apply (Hel _ _ Hc) in Hk as (c0 & (id & ? & ?)%elem_of_version & ?). eauto.
    + intros (id & c0 & Hid & Hc0 & Hr).
      assert (∃ k, oget all k = Some c) as [k Hk].
      { apply rtc_inv_r in Hr as [<-|(d & _ & dep & _ & Hd)]; eauto. }
      exists k. split; [|done]. apply (Hel _ _ Hk). exists c0. split; [|done].
      apply elem_of_version. eauto.
  - intros Htimes. set (cmp := λ a b, (default 0 (ch_createTime (tc_change b)) -
                                       default 0 (ch_createTime (tc_change a)))%Z).
    assert (js_sort newest_change_first (omap (oget all) ids) = js_sort cmp (omap (oget all) ids)) as ->.
    { apply js_sort_agree. intros a b (i & _ & Ha)%list_elem_of_omap (j & _ & Hb)%list_elem_of_omap.
      unfold newest_change_first, sortDocuments, cmp.
      destruct (Htimes _ _ Ha) as [ta ->], (Htimes _ _ Hb) as [tb ->]. done. }
    eapply StronglySorted_weaken; [|apply (js_sort_sorted cmp)]; unfold cmp; lia.
Qed.

(** ** Witnesses *)

Definition ex_change (id : string) (deps : list string) (time : Z) : Change :=
  {| ch_id := id; ch_deps := deps; ch_createTime := Some time |}.
Definition ex_changes : obj Change :=
  [("a", ex_change "a" [] 1); ("b", ex_change "b" ["a"] 2); ("c", ex_change "c" ["a"] 3);
   ("d", ex_change "d" ["b"; "c"] 4); ("e", ex_change "e" ["c"] 5)].

Lemma timeline_citations_witness :
  ∃ c, oget (allChanges ex_changes) "c" = Some c ∧ "d" ∈ tc_citations c ∧ "e" ∈ tc_citations c.
Proof.
  destruct (timeline_citations ex_changes "c" (ex_change "c" ["a"] 3)
    ltac:(by apply (bool_decide_unpack _)) eq_refl) as (c & Hc & _ & _ & _ & Hi).
  exists c. split; [exact Hc|]. rewrite !Hi.
  split; eexists; (split; [reflexivity|]); by apply (bool_decide_unpack _).
Defined.

Definition ex_age (c : TimelineChange) : nat := Z.to_nat (default 0%Z (ch_createTime (tc_change c))).

Lemma ex_timeline_ok : timeline_ok (allChanges ex_changes) ex_age 6.
Proof.
  assert (∀ P : string → TimelineChange → Prop,
    Forall (λ e, P e.1 e.2) (allChanges ex_changes) →
    ∀ k c, oget (allChanges ex_changes) k = Some c → P k c) as Hall.
  { intros P HP k c Hc%oget_Some_elem. rewrite list.Forall_forall in HP. apply (HP (k, c) Hc). }
  split.
  - apply (Hall (λ k c, tc_id c = k)). vm_compute. repeat constructor.
  - intros k c dep d Hk Hdep Hd.
    assert (Forall (λ i, default 0 (ex_age <$> oget (allChanges ex_changes) i) < ex_age c)
      (ch_deps (tc_change c))) as Hlt.
    { apply (Hall (λ _ c, Forall (λ i, default 0 (ex_age <$> oget (allChanges ex_changes) i) < ex_age c)
        (ch_deps (tc_change c)))) with (k := k); [|done].
      repeat constructor; vm_compute; lia. }
    rewrite list.Forall_forall in Hlt. specialize (Hlt dep Hdep). by rewrite Hd in Hlt.
  - apply (Hall (λ _ c, ex_age c < 6)). repeat constructor; vm_compute; lia.
Qed.

Lemma useDocHistory_complete_witness :
  ∃ history, useDocHistory 6 (allChanges ex_changes) (Some "d.e") = Some history ∧
    NoDup history ∧ tc_id <$> history = ["e"; "d"; "c"; "b"; "a"].
Proof.
  destruct (useDocHistory_complete (allChanges ex_changes) ex_age 6 "d.e" 6 ex_timeline_ok ltac:(lia))
    as (history & Hh & Hnd & _).
  exists history. split; [exact Hh|]. split; [exact Hnd|].
  vm_compute in Hh. injection Hh as <-. reflexivity.
Defined.
