(* ===== verification/DaemonApi.v ===== *)
(** * The daemon's calls

    The front end reaches the daemon (backend/daemon, a Go program) over gRPC.  A
    [call] takes the daemon's state to the next one and resolves or rejects; awaiting
    calls is the bind of [call], so what happened before a rejection stays.  [Daemon]
    lists the calls that the modelled mutations make, and [DaemonLaws] is what they
    rely on, as documented in proto/groups/v1alpha/groups.proto and
    proto/documents/v1alpha/documents.proto. *)
From S2P Require Import Prelude.
From S2P Require Import JsString.
From S2P Require Import JsObject.
From S2P Require Import BlockTypes.
From S2P Require Import DraftDiff.
From S2P Require Import DocModel.

(** ** Calls *)

Definition call (S A : Type) : Type := S → S * result A.

Definition c_ret {S A} (a : A) : call S A := λ s, (s, Ok a).
Definition c_throw {S A} (msg : string) : call S A := λ s, (s, Err msg).
Definition c_bind {S A B} (c : call S A) (k : A → call S B) : call S B :=
  λ s, match c s with
       | (s', Ok a) => k a s'
       | (s', Err m) => (s', Err m)
       end.
(** [try { .. } catch (e) { .. }] *)
Definition c_catch {S A} (c : call S A) (h : string → call S A) : call S A :=
  λ s, match c s with
       | (s', Ok a) => (s', Ok a)
       | (s', Err m) => h m s'
       end.
(** Synchronous code that may throw. *)
Definition c_lift {S A} (r : result A) : call S A := λ s, (s, r).

Notation "'await*' x ':=' c 'in' k" := (c_bind c (λ x, k))
  (at level 10, x binder, c at level 100, k at level 200) : js_scope.

Lemma c_bind_ok {S A B} (c : call S A) (k : A → call S B) s s' a :
  c s = (s', Ok a) → c_bind c k s = k a s'.
Proof. unfold c_bind. by intros ->. Qed.
Lemma c_bind_err {S A B} (c : call S A) (k : A → call S B) s s' m :
  c s = (s', Err m) → c_bind c k s = (s', Err m).
Proof. unfold c_bind. by intros ->. Qed.
Lemma c_bind_inv {S A B} (c : call S A) (k : A → call S B) s s' b :
  c_bind c k s = (s', Ok b) → ∃ s1 a, c s = (s1, Ok a) ∧ k a s1 = (s', Ok b).
Proof. unfold c_bind. destruct (c s) as [s1 [a|m]]; [eauto|discriminate]. Qed.
Lemma c_bind_lift {S A B} (r : result A) (k : A → call S B) s a :
  r = Ok a → c_bind (c_lift r) k s = k a s.
Proof. by intros ->. Qed.

(** What a call keeps, whether it resolves or rejects. *)
Section keeps.
Context {S : Type} (R : S → S → Prop) `{!PreOrder R}.

Definition keeps {A} (c : call S A) : Prop := ∀ s, R s (c s).1.

Lemma keeps_pure {A} (r : result A) : keeps (c_lift r).
Proof. intros s. cbn. reflexivity. Qed.
Lemma keeps_bind {A B} (c : call S A) (k : A → call S B) :
  keeps c → (∀ a, keeps (k a)) → keeps (c_bind c k).
Proof.
  intros Hc Hk s. unfold c_bind. specialize (Hc s). destruct (c s) as [s' [a|m]]; cbn in *; [|done].
  etrans; [exact Hc | apply Hk].
Qed.
Lemma keeps_catch {A} (c : call S A) h :
  keeps c → (∀ m, keeps (h m)) → keeps (c_catch c h).
Proof.
  intros Hc Hk s. unfold c_catch. specialize (Hc s). destruct (c s) as [s' [a|m]]; cbn in *; [done|].
  etrans; [exact Hc | apply Hk].
Qed.
End keeps.

(** ** Requests *)

Inductive Role : Type := ROLE_UNSPECIFIED | OWNER | EDITOR.

(** [UpdateGroupRequest]; an absent field is left unchanged. *)
Record GroupUpdate : Type := {
  gu_id : string;
  gu_title : option string;
  gu_description : option string;
  gu_updatedMembers : option (obj Role);
  gu_updatedContent : option (obj string);
  gu_siteSetupUrl : option string;
}.
(** An update of a group's content only. *)
Definition content_update (groupId : string) (content : obj string) : GroupUpdate :=
  {| gu_id := groupId; gu_title := None; gu_description := None; gu_updatedMembers := None;
     gu_updatedContent := Some content; gu_siteSetupUrl := None |}.

Class Daemon (S : Type) : Type := {
  createGroup : option string → string → call S string;
  updateGroup : GroupUpdate → call S unit;
  listContent : string → call S (obj string);
  deleteDraft : option string → call S unit;
  createDraft : option string → option string → call S HMDocument;
  sendUpdate : string → list DocumentChange → call S unit;       (* drafts.updateDraft *)
  publishDraft : string → call S HMPublication;
}.

(** ** What the calls promise *)

(** The published path: an empty string unpublishes. *)
Definition published_at (content : obj string) (path : string) : option string :=
  or_null (oget content path).

(** The nodes are the visible tree of a document below [parent]. *)
Inductive shows (d : ServerDoc) : string → list HMBlockNode → Prop :=
| Shows parent nodes :
    node_id <$> nodes = children_in (s_tree d) parent →
    (∀ n, n ∈ nodes → ∃ b, node_block n = Some b ∧ oget (s_blocks d) (b_id b) = Some b ∧
                           shows d (b_id b) (node_kids n)) →
    shows d parent nodes.

(** Every visible block has its content, and no block is above itself. *)
Definition shown (d : ServerDoc) : Prop := ∃ nodes, shows d "" nodes.

Class DaemonLaws (S : Type) `{Daemon S} : Type := {
  (** What can be observed of the daemon's state: a group's content, the draft of a
      document, and its published versions. *)
  content_of : S → string → option (obj string);
  draft_of : S → string → option ServerDoc;
  version_of : S → string → option string → option ServerDoc;

  (** An update of content only changes the given paths of the given group. *)
  updateGroup_law s g upd c :
    content_of s g = Some c →
    (∃ p v, oget upd p = Some v ∧ published_at c p ≠ or_null (Some v)) →
    ∃ s' c', updateGroup (content_update g upd) s = (s', Ok tt) ∧ content_of s' g = Some c' ∧
      (∀ p, published_at c' p = match oget upd p with
                                | Some v => or_null (Some v)
                                | None => published_at c p end) ∧
      (∀ g', g' ≠ g → content_of s' g' = content_of s g') ∧
      (∀ i, draft_of s' i = draft_of s i) ∧ (∀ i v, version_of s' i v = version_of s i v);

  (** A rejected update changes no content. *)
  updateGroup_err s u s' m :
    updateGroup u s = (s', Err m) → ∀ g, content_of s' g = content_of s g;

  listContent_law s g c :
    content_of s g = Some c → listContent g s = (s, Ok c);

  (** Listing content and working on drafts never changes the content of a group. *)
  listContent_content s g : ∀ g', content_of (listContent g s).1 g' = content_of s g';
  createDraft_content s i v : ∀ g, content_of (createDraft i v s).1 g = content_of s g;
  sendUpdate_content s i l : ∀ g, content_of (sendUpdate i l s).1 g = content_of s g;
  publishDraft_content s i : ∀ g, content_of (publishDraft i s).1 g = content_of s g;

  (** After a deletion there is no draft of the document; nothing else changes. *)
  deleteDraft_law s i :
    let s' := (deleteDraft i s).1 in
    (∀ g, content_of s' g = content_of s g) ∧ (∀ j v, version_of s' j v = version_of s j v) ∧
    (∀ j, draft_of s' j = if bool_decide (i = Some j) then None else draft_of s j);
  deleteDraft_ok s i : is_Some (draft_of s i) → (deleteDraft (Some i) s).2 = Ok tt;

  (** A draft of a published version has its content, and is shown as it is. *)
  createDraft_law s i v d :
    version_of s i v = Some d → shown d → draft_of s i = None →
    ∃ s' doc, createDraft (Some i) v s = (s', Ok doc) ∧ d_id doc = Some i ∧
      shows d "" (default [] (d_children doc)) ∧ draft_of s' i = Some d ∧
      (∀ g, content_of s' g = content_of s g) ∧ (∀ j v, version_of s' j v = version_of s j v) ∧
      (∀ j, j ≠ i → draft_of s' j = draft_of s j);
  (** A draft of a new document is empty; its id is one that nothing else has. *)
  createDraft_new s :
    ∃ s' doc i, createDraft None None s = (s', Ok doc) ∧ d_id doc = Some ("hm://d/" +:+ i) ∧
      clean i = true ∧ i ≠ "" ∧ default [] (d_children doc) = [] ∧
      draft_of s' ("hm://d/" +:+ i) = Some {| s_tree := []; s_blocks := []; s_title := "" |} ∧
      (∀ v, version_of s ("hm://d/" +:+ i) v = None) ∧
      (∀ g, content_of s' g = content_of s g) ∧ (∀ j v, version_of s' j v = version_of s j v) ∧
      (∀ j, j ≠ "hm://d/" +:+ i → draft_of s' j = draft_of s j);

  (** An update applies its changes in order, all or none. *)
  sendUpdate_law s i d changes :
    draft_of s i = Some d →
    match apply_changes d changes with
    | Ok d' =>
        ∃ s', sendUpdate i changes s = (s', Ok tt) ∧ draft_of s' i = Some d' ∧
          (∀ g, content_of s' g = content_of s g) ∧
          (∀ j v, version_of s' j v = version_of s j v) ∧
          (∀ j, j ≠ i → draft_of s' j = draft_of s j)
    | Err _ => ∃ m, sendUpdate i changes s = (s, Err m)
    end;

  (** Publishing makes the draft a version, without touching the earlier ones.  A
      version is made of change ids. *)
  publishDraft_law s i d :
    draft_of s i = Some d →
    ∃ s' doc v, publishDraft i s = (s', Ok {| p_document := Some doc; p_version := Some v |}) ∧
      d_id doc = Some i ∧ clean v = true ∧ v ≠ "" ∧
      version_of s' i (Some v) = Some d ∧ draft_of s' i = None ∧
      (∀ g, content_of s' g = content_of s g) ∧
      (∀ v' d', version_of s i (Some v') = Some d' → version_of s' i (Some v') = Some d') ∧
      (∀ j v, j ≠ i → version_of s' j v = version_of s j v) ∧
      (∀ j, j ≠ i → draft_of s' j = draft_of s j);
}.
