(* ===== verification/Groups.v ===== *)
(** * Groups

    [packages/app/models/groups.ts]: publishing a document to a path of a group,
    renaming and removing it, the navigation document of a group (its categories and
    their items) edited through drafts, and the listings of a group's content.  The
    daemon's calls are [DaemonApi.Daemon]; queries are given as functions to the data
    they have loaded. *)
From S2P Require Import Prelude.
From S2P Require Import JsString.
From S2P Require Import JsObject.
From S2P Require Import EntityId.
From S2P Require Import BlockTypes.
From S2P Require Import DraftDiff.
From S2P Require Import DaemonApi.
From S2P Require Import Variants.

(** ** Blocks of a document *)

(** The property of a block node whose block is missing. *)
Definition no_block : string := "Cannot read properties of undefined".

(** [forEachBlockNode]: the callback's accumulated changes, in document order. *)
Section forEach.
Context {A : Type} (callback : A → HMBlockNode → result A).

Fixpoint visitBlockNode (n : HMBlockNode) (acc : A) {struct n} : result A :=
  let* acc1 := callback acc n in
  match n with
  | BlockNode _ None => Ok acc1
  | BlockNode _ (Some children) =>
      (fix go (l : list HMBlockNode) (acc : A) : result A :=
         match l with
         | [] => Ok acc
         | x :: l' => let* acc' := visitBlockNode x acc in go l' acc'
         end) children acc1
  end.
Definition forEachBlockNode (children : option (list HMBlockNode)) (acc : A) : result A :=
  fold_result (λ acc n, visitBlockNode n acc) acc (default [] children).
End forEach.

(** [getBlockNode]: the first node with the id, in document order. *)
Fixpoint find_block_node (blockId : string) (n : HMBlockNode) : result (option HMBlockNode) :=
  match n with
  | BlockNode None _ => Err no_block
  | BlockNode (Some b) children =>
      if String.eqb (b_id b) blockId then Ok (Some n)
      else
        match children with
        | None => Ok None
        | Some l =>
            (fix go (l : list HMBlockNode) : result (option HMBlockNode) :=
               match l with
               | [] => Ok None
               | x :: l' =>
                   let* found := find_block_node blockId x in
                   match found with
                   | Some y => Ok (Some y)
                   | None => go l'
                   end
               end) l
        end
  end.
Fixpoint find_in_nodes (blockId : string) (l : list HMBlockNode) : result (option HMBlockNode) :=
  match l with
  | [] => Ok None
  | x :: l' =>
      let* found := find_block_node blockId x in
      match found with
      | Some y => Ok (Some y)
      | None => find_in_nodes blockId l'
      end
  end.
Definition getBlockNode (blockNodes : option (list HMBlockNode)) (blockId : string) :
    result (option HMBlockNode) :=
  match blockNodes with
  | None => Ok None
  | Some l => find_in_nodes blockId l
  end.

(** [{...block, ref}] and [{...block, text}] *)
Definition with_ref (b : HMBlock) (ref : string) : HMBlock :=
  {| b_id := b_id b; b_type := b_type b; b_text := b_text b; b_ref := Some ref;
     b_annotations := b_annotations b; b_attributes := b_attributes b |}.
Definition with_text (b : HMBlock) (text : string) : HMBlock :=
  {| b_id := b_id b; b_type := b_type b; b_text := Some text; b_ref := b_ref b;
     b_annotations := b_annotations b; b_attributes := b_attributes b |}.

(** The options of an id with one group variant. *)
Definition group_variant_opts (groupId pathName : string) : HmIdOpts :=
  {| o_version := None; o_blockRef := None; o_blockRange := None; o_groupPathName := None;
     o_variants := Some [GroupVariant groupId (Some pathName)]; o_latest := None;
     o_hostname := None |}.

(** [leftSibling: undefined] and [parent: undefined] are sent as empty strings. *)
Definition proto_str (o : option string) : string := default "" o.

(** [children?.at(-1)?.block?.id] *)
Definition last_block_id (children : option (list HMBlockNode)) : option string :=
  (last (default [] children) ≫= node_block) ≫= λ b, Some (b_id b).

(** [createBlockID()], given the number drawn (0 to 100000). *)
Definition createBlockID (drawn : N) : string := num_to_str drawn.

Definition NAVIGATION_TITLE : string := "(HIDDEN) Group Navigation".

Section mutators.
Context `{UrlApi}.

(** The callback of [useRenameGroupDoc]: an embed of the document's old path in the
    group gets a reference to the new path. *)
Definition rename_block (groupId pathName newPathName : string)
    (changes : list DocumentChange) (n : HMBlockNode) : result (list DocumentChange) :=
  match node_block n with
  | None => Err no_block
  | Some b =>
      if negb (String.eqb (b_type b) "embed") then Ok changes
      else
        let* hmId := match b_ref b with Some ref => unpackHmId ref | None => Ok None end in
        match hmId with
        | None => Ok changes
        | Some u =>
            if negb (String.eqb (u_type u) "d") then Ok changes
            else
              match u_variants u with
              | Some [GroupVariant g p] =>
                  if negb (String.eqb g groupId) then Ok changes
                  else if negb (bool_decide (p = Some pathName)) then Ok changes
                  else
                    let* ref := createHmId "d" (undef_str (u_eid u))
                                  (group_variant_opts groupId newPathName) in
                    Ok (changes ++ [ReplaceBlock (with_ref b ref)])
              | _ => Ok changes
              end
        end
  end.
Definition rename_changes (groupId pathName newPathName : string) (doc : HMDocument) :
    result (list DocumentChange) :=
  forEachBlockNode (rename_block groupId pathName newPathName) (d_children doc) [].

(** The mutators of the categories. *)
Definition create_category_changes (blockId title : string) (doc : HMDocument) :
    result (list DocumentChange) :=
  Ok [SetTitle NAVIGATION_TITLE;
      MoveBlock blockId (proto_str (last_block_id (d_children doc))) "";
      ReplaceBlock {| b_id := blockId; b_type := "heading"; b_text := Some title; b_ref := None;
                      b_annotations := Some []; b_attributes := Some [] |}].

Definition rename_category_changes (categoryId title : string) (doc : HMDocument) :
    result (list DocumentChange) :=
  let* categoryBlockNode := getBlockNode (d_children doc) categoryId in
  match categoryBlockNode with
  | None => Err "Could not find category block"
  | Some n =>
      match node_block n with
      | None => Err no_block
      | Some b => Ok [ReplaceBlock (with_text b title)]
      end
  end.

Definition move_category_changes (categoryId : string) (leftSibling : option string)
    (doc : HMDocument) : result (list DocumentChange) :=
  Ok [MoveBlock categoryId (proto_str leftSibling) ""].
Definition move_category_item_changes (category itemId : string) (leftSibling : option string)
    (doc : HMDocument) : result (list DocumentChange) :=
  Ok [MoveBlock itemId (proto_str leftSibling) category].
Definition delete_category_changes (categoryId : string) (doc : HMDocument) :
    result (list DocumentChange) :=
  Ok [DeleteBlock categoryId].

Definition add_to_category_changes (blockId groupId pathName docId categoryId : string)
    (doc : HMDocument) : result (list DocumentChange) :=
  let* categoryBlockNode := getBlockNode (d_children doc) categoryId in
  match categoryBlockNode with
  | None => Err "Could not find category block"
  | Some n =>
      let lastItemBlockId := last_block_id (node_children n) in
      let* fullDocId := unpackHmId docId in
      match fullDocId, node_block n with
      | None, _ => Err "Could not unpack docId"
      | _, None => Err no_block
      | Some u, Some b =>
          let* ref := createHmId "d" (undef_str (u_eid u)) (group_variant_opts groupId pathName) in
          Ok [SetTitle NAVIGATION_TITLE;
              MoveBlock blockId (proto_str lastItemBlockId) (b_id b);
              ReplaceBlock {| b_id := blockId; b_type := "embed"; b_text := Some "";
                              b_ref := Some ref; b_annotations := Some [];
                              b_attributes := Some [("view", "card")] |}]
      end
  end.
End mutators.

(** ** Mutations *)

Section mutations.
Context `{UrlApi} {S : Type} `{Daemon S}.

(** A failure is returned, not thrown. *)
Definition useCreateGroup (description : option string) (title : string)
    (members : option (list string)) (content : option (obj string)) : call S (string + string) :=
  c_catch
    (await* id := createGroup description title in
     await* _ :=
       match content, members with
       | None, None => c_ret tt
       | _, _ =>
           updateGroup
             {| gu_id := id; gu_title := None; gu_description := None;
                gu_updatedContent := content; gu_siteSetupUrl := None;
                gu_updatedMembers :=
                  (λ l, ofromEntries ((λ m, (m, EDITOR)) <$> l)) <$> members |}
       end in
     c_ret (inl id))
    (λ error, c_ret (inr error)).

Definition useUpdateGroup (id title description : string) : call S unit :=
  updateGroup {| gu_id := id; gu_title := Some title; gu_description := Some description;
                 gu_updatedMembers := None; gu_updatedContent := None; gu_siteSetupUrl := None |}.
Definition usePublishGroupToSite (groupId setupUrl : string) : call S unit :=
  updateGroup {| gu_id := groupId; gu_title := None; gu_description := None;
                 gu_updatedMembers := None; gu_updatedContent := None;
                 gu_siteSetupUrl := Some setupUrl |}.

(** [false] when the group has exactly this version at the path. *)
Definition usePublishDocToGroup (groupId docId version pathName : string) : call S bool :=
  c_catch
    (await* _ := updateGroup (content_update groupId [(pathName, docId +:+ "?v=" +:+ version)]) in
     c_ret true)
    (λ message, if negb (no_occ "nothing to update" message) then c_ret false else c_throw message).

Definition useRemoveDocFromGroup (groupId pathName : string) : call S unit :=
  updateGroup (content_update groupId [(pathName, "")]).

Definition useAddGroupMember (groupId : string) (members : list string) : call S unit :=
  updateGroup {| gu_id := groupId; gu_title := None; gu_description := None;
                 gu_updatedMembers := Some (ofromEntries ((λ id, (id, EDITOR)) <$> members));
                 gu_updatedContent := None; gu_siteSetupUrl := None |}.
Definition useRemoveGroupMember (groupId newMemberAccount : string) : call S unit :=
  updateGroup {| gu_id := groupId; gu_title := None; gu_description := None;
                 gu_updatedMembers := Some [(newMemberAccount, ROLE_UNSPECIFIED)];
                 gu_updatedContent := None; gu_siteSetupUrl := None |}.

(** *** The navigation document *)

Definition getGroupNavigationDocument (groupId : string) : call S (option string) :=
  await* content := listContent groupId in
  c_ret (or_null (oget content "_navigation")).

(** Edits the navigation document through a fresh draft, which replaces any draft
    there was, and publishes it.  [None] when the mutator has nothing to change. *)
Definition mutateGroupNavigationDoc (groupId : string)
    (mutator : HMDocument → result (list DocumentChange)) : call S (option string) :=
  await* navEntry := getGroupNavigationDocument groupId in
  await* navDocId := c_lift (match navEntry with Some e => unpackHmId e | None => Ok None end) in
  await* _ := c_catch (deleteDraft (u_qid <$> navDocId)) (λ _, c_ret tt) in
  await* draft := createDraft (u_qid <$> navDocId) (or_null (navDocId ≫= u_version)) in
  await* changes := c_lift (mutator draft) in
  match changes with
  | [] =>
      await* _ := deleteDraft (d_id draft) in
      c_ret None
  | _ =>
      await* _ := sendUpdate (proto_str (d_id draft)) changes in
      await* published := publishDraft (proto_str (d_id draft)) in
      match p_document published with
      | None => c_throw "No document returned from publish"
      | Some d =>
          await* newNavDoc := c_lift (hmIdWithVersion (d_id d) (p_version published) None None) in
          if otruthy newNavDoc then c_ret newNavDoc
          else c_throw "Could not determine new nav doc id"
      end
  end.

Definition mutateGroupNavigation (groupId : string)
    (mutator : HMDocument → result (list DocumentChange)) : call S unit :=
  await* newNavDoc := mutateGroupNavigationDoc groupId mutator in
  match newNavDoc with
  | None => c_ret tt
  | Some nav => updateGroup (content_update groupId [("_navigation", nav)])
  end.

(** The new path holds what the old one held; the object literal's later keys win. *)
Definition useRenameGroupDoc (groupId pathName newPathName : string) : call S string :=
  await* content := listContent groupId in
  match or_null (oget content pathName) with
  | None => c_throw ("Could not find previous path at " +:+ pathName)
  | Some prevPathValue =>
      await* newNavDoc :=
        mutateGroupNavigationDoc groupId (rename_changes groupId pathName newPathName) in
      let renamed := oset [(pathName, "")] newPathName prevPathValue in
      let updatedContent :=
        match newNavDoc with
        | Some nav => oset renamed "_navigation" nav
        | None => renamed
        end in
      await* _ := updateGroup (content_update groupId updatedContent) in
      c_ret prevPathValue
  end.

Definition useCreateGroupCategory (drawn : N) (groupId title : string) : call S unit :=
  mutateGroupNavigation groupId (create_category_changes (createBlockID drawn) title).
Definition useRenameGroupCateogry (groupId categoryId title : string) : call S unit :=
  mutateGroupNavigation groupId (rename_category_changes categoryId title).
Definition useMoveCategory (groupId categoryId : string) (leftSibling : option string) :
    call S unit :=
  mutateGroupNavigation groupId (move_category_changes categoryId leftSibling).
Definition useMoveCategoryItem (groupId category itemId : string) (leftSibling : option string) :
    call S unit :=
  mutateGroupNavigation groupId (move_category_item_changes category itemId leftSibling).
Definition useDeleteCategory (groupId categoryId : string) : call S unit :=
  mutateGroupNavigation groupId (delete_category_changes categoryId).
Definition useDeleteCategoryItem (groupId itemId : string) : call S unit :=
  mutateGroupNavigation groupId (delete_category_changes itemId).
Definition useAddToCategory (drawn : N) (groupId pathName docId categoryId : string) :
    call S unit :=
  mutateGroupNavigation groupId
    (add_to_category_changes (createBlockID drawn) groupId pathName docId categoryId).
End mutations.

(** ** Listings *)

(** The account's groups as far as they are loaded, by the id of each item's group. *)
Definition useCanEditGroup (myGroups : option (list (option string))) (groupId : option string) :
    bool :=
  match groupId with
  | None => false
  | Some "" => false
  | Some g => existsb (λ id, otruthy id && bool_decide (id = Some g)) (default [] myGroups)
  end.

(** [useDocumentGroups]: one item per group and path, kept in a [Map] under this key. *)
Definition group_item_key (item : DocumentGroup) : string :=
  dg_groupId item +:+ "-" +:+ dg_path item.

Definition keep_newest (resultMap : obj DocumentGroup) (item : DocumentGroup) : obj DocumentGroup :=
  match dg_changeTime item with
  | None => resultMap
  | Some t =>
      let itemKey := group_item_key item in
      match oget resultMap itemKey with
      | None => oset resultMap itemKey item
      | Some prevItem =>
          match dg_changeTime prevItem with
          | None => resultMap
          | Some tp =>
              if (tp =? 0)%N then resultMap
              else if (t <? tp)%N then resultMap
              else oset resultMap itemKey item
          end
      end
  end.
Definition useDocumentGroups (items : list DocumentGroup) : list DocumentGroup :=
  ovalues (foldl keep_newest [] items).

Section listings.
Context `{UrlApi}.

(** The content of a group as far as its query has loaded it. *)
Variable group_content : string → option (obj string).

(** The items whose path still holds the document. *)
Definition holds_document (documentId : option string) (groupsToQuery : list string)
    (item : DocumentGroup) : result bool :=
  let groupContent := find (String.eqb (dg_groupId item)) groupsToQuery ≫= group_content in
  match or_null (groupContent ≫= λ c, oget c (dg_path item)) with
  | None => Ok false
  | Some pathURL =>
      let* currentPathDocId := unpackDocId pathURL in
      match currentPathDocId with
      | None => Ok false
      | Some (_, docId) => Ok (truthy docId && bool_decide (Some docId = documentId))
      end
  end.
Definition filter_result {A} (f : A → result bool) : list A → result (list A) :=
  fix go (l : list A) : result (list A) :=
    match l with
    | [] => Ok []
    | x :: l' =>
        let* b := f x in
        let* rest := go l' in
        Ok (if b then x :: rest else rest)
    end.
Definition useCurrentDocumentGroups (documentId : option string) (items : list DocumentGroup) :
    result (list DocumentGroup) :=
  filter_result (holds_document documentId (dedup (dg_groupId <$> items))) items.
End listings.

(** *** The content of a group *)

Section content.
Context `{UrlApi}.

(** [contentEntries] of [useFullGroupContent]. *)
Definition content_entries (content : obj string) :
    result (list (string * UnpackedHypermediaId)) :=
  let* l := map_result (λ e : string * string, rmap (pair e.1) (unpackHmId e.2)) content in
  Ok (omap (λ e : string * option UnpackedHypermediaId, pair e.1 <$> e.2) l).

(** An author or editor: the account when it is known, otherwise its id. *)
Definition lookupAccount {A} (accounts : option (list (string * A))) (accountId : option string) :
    option (A + string) :=
  match accountId with
  | None => None
  | Some id =>
      match (if truthy id then find (λ acc, String.eqb acc.1 id) (default [] accounts) else None) with
      | Some acc => Some (inl acc.2)
      | None => Some (inr id)
      end
  end.

Record GroupItem (A : Type) : Type := {
  gi_key : string;
  gi_pub : option HMPublication;
  gi_author : option (A + string);
  gi_editors : list (option (A + string));
  gi_id : UnpackedHypermediaId;
}.
Arguments gi_key {A}.
Arguments gi_pub {A}.
Arguments gi_author {A}.
Arguments gi_editors {A}.
Arguments gi_id {A}.

(** The query of one entry. *)
Definition content_query (e : string * UnpackedHypermediaId) : result (string * option string) :=
  let* docId := createHmId "d" (undef_str (u_eid e.2)) no_opts in
  Ok (docId, or_null (u_version e.2)).

(** The publication of an entry among those loaded. *)
Definition is_entry_pub (u : UnpackedHypermediaId) (data : option HMPublication) : bool :=
  bool_decide ((data ≫= p_document) ≫= d_id = Some (u_qid u)) &&
  bool_decide (is_Some (data ≫= p_version)) && bool_decide (data ≫= p_version = u_version u).
Definition entry_pub (pubs : list (option HMPublication)) (u : UnpackedHypermediaId) :
    option HMPublication :=
  mjoin (find (is_entry_pub u) pubs).

(** Newest first; an item without a time is equal to every other.  [date_ms] is
    [new Date(s).getTime()], [None] for an invalid date. *)
Definition publish_ms (date_ms : string → option Z) (p : option HMPublication) : Z :=
  match ((p ≫= p_document) ≫= d_publishTime) with
  | Some t => if truthy t then default 0%Z (date_ms t) else 0%Z
  | None => 0%Z
  end.
Definition item_order {A} (date_ms : string → option Z) (a b : GroupItem A) : Z :=
  let aTime := publish_ms date_ms (gi_pub a) in
  let bTime := publish_ms date_ms (gi_pub b) in
  if (aTime =? 0)%Z || (bTime =? 0)%Z then 0%Z else (bTime - aTime)%Z.

Definition useFullGroupContent {A} (date_ms : string → option Z)
    (publication_data : string → option string → option HMPublication)
    (accounts : option (list (string * A))) (content : option (obj string)) :
    result (list (GroupItem A)) :=
  let* entries := content_entries (default [] content) in
  let* queries := map_result content_query entries in
  let pubs := (λ q, publication_data q.1 q.2) <$> queries in
  Ok (js_sort (item_order date_ms)
    ((λ e : string * UnpackedHypermediaId,
        let pub := entry_pub pubs e.2 in
        let doc := pub ≫= p_document in
        {| gi_key := e.1; gi_pub := pub;
           gi_author := lookupAccount accounts (doc ≫= d_author);
           gi_editors := (λ i, lookupAccount accounts (Some i)) <$> default [] (d_editors <$> doc);
           gi_id := e.2 |}) <$> entries)).

(** [useInvertedGroupContent]: entity id, then version, to the path. *)
Definition invert_entry (inverted : obj (obj string)) (e : string * string) :
    result (obj (obj string)) :=
  if negb (truthy e.2) then Ok inverted
  else
    let* unpackedId := unpackHmId e.2 in
    match unpackedId with
    | None => Ok inverted
    | Some u =>
        if otruthy (u_version u) then
          let eid := undef_str (u_eid u) in
          let versions := default [] (oget inverted eid) in
          Ok (oset inverted eid (oset versions (default "" (u_version u)) e.1))
        else Ok inverted
    end.
Definition useInvertedGroupContent (content : option (obj string)) : result (obj (obj string)) :=
  fold_result invert_entry [] (default [] content).

(** The publication that a path of a group shows: [useGroupFrontPub] at [/] and
    [useGroupNavigation] at [_navigation]. *)
Definition group_path_pub (content : option (obj string)) (path : string) :
    result (option string * option string) :=
  let* id := match content ≫= λ c, oget c path with Some e => unpackHmId e | None => Ok None end in
  Ok (u_qid <$> id, or_null (id ≫= u_version)).
Definition useGroupFrontPub (content : option (obj string)) := group_path_pub content "/".
Definition useGroupNavigation (content : option (obj string)) := group_path_pub content "_navigation".

(** [useGroupFrontpage] *)
Definition useGroupFrontpage (content : option (obj string)) :
    result (option UnpackedHypermediaId) :=
  match or_null (content ≫= λ c, oget c "/") with
  | Some frontpage => unpackHmId frontpage
  | None => Ok None
  end.

(** [useGroupCategories]: the top-level headings; the navigation's blocks are there. *)
Definition useGroupCategories (children : option (list HMBlockNode)) :
    option (list (string * option string)) :=
  (λ l, (λ b, (b_id b, b_text b)) <$>
          List.filter (λ b, String.eqb (b_type b) "heading") (omap node_block l)) <$> children.
End content.
Arguments gi_key {A}.
Arguments gi_pub {A}.
Arguments gi_author {A}.
Arguments gi_editors {A}.
Arguments gi_id {A}.
