(* ===== verification/GroupsFacts.v ===== *)
(** * Groups: theorems

    Renaming a document in a group moves its entry and redirects every embed of the
    navigation document, and nothing else; the category commands edit the navigation
    document as they say; the listings of groups keep the newest items.  Everything is
    proved from [DaemonApi.DaemonLaws]. *)
From S2P Require Import Prelude.
From S2P Require Import JsString.
From S2P Require Import JsObject.
From S2P Require Import EntityId.
From S2P Require Import BlockTypes.
From S2P Require Import DraftDiff.
From S2P Require Import DocModel.
From S2P Require Import DraftDiffFacts.
From S2P Require Import Variants.
From S2P Require Import DaemonApi.
From S2P Require Import Groups.

(** ** Visible blocks *)

(** The blocks below the root of a document. *)
Inductive visible (d : ServerDoc) : string → Prop :=
| visible_root id : id ∈ children_in (s_tree d) "" → visible d id
| visible_child p id : visible d p → id ∈ children_in (s_tree d) p → visible d id.

Lemma shows_blocks d n : ∀ p nodes,
  shows d p nodes → n ∈ nodes →
  ∀ ob, ob ∈ preorder n → ∃ b, ob = Some b ∧ oget (s_blocks d) (b_id b) = Some b ∧
                               b_id b ∈ okeys (s_tree d).
Proof.
  induction n as [blk c IH] using node_tree_ind. intros p nodes [p' nodes' Hids Hn] Hin ob Hob.
  destruct (Hn _ Hin) as (b & Hb & Hget & Hs). cbn in Hb. subst blk.
  rewrite preorder_eq in Hob. apply elem_of_cons in Hob as [->|Hob].
  - exists b. split; [done|]. split; [done|].
    assert (b_id b ∈ children_in (s_tree d) p') as Hc.
    { rewrite <- Hids. apply list_elem_of_fmap. by exists (BlockNode (Some b) c). }
    unfold children_in in Hc. apply list_elem_of_fmap in Hc as (e & -> & He).
    apply list_elem_of_fmap. exists e. split; [done|].
    rewrite list_elem_of_In, List.filter_In, <- list_elem_of_In in He. tauto.
  - unfold preorder_list in Hob. apply list_elem_of_In, in_concat in Hob as (l & Hl & Hob).
    apply list_elem_of_In, list_elem_of_fmap in Hl as (k & -> & Hk).
    rewrite Forall_forall in IH. apply (IH k Hk _ _ Hs Hk). by apply list_elem_of_In.
Qed.

Lemma shows_list_blocks d p nodes ob :
  shows d p nodes → ob ∈ preorder_list nodes →
  ∃ b, ob = Some b ∧ oget (s_blocks d) (b_id b) = Some b ∧ b_id b ∈ okeys (s_tree d).
Proof.
  intros Hs Hob. unfold preorder_list in Hob. apply list_elem_of_In, in_concat in Hob as (l & Hl & Hob).
  apply list_elem_of_In, list_elem_of_fmap in Hl as (n & -> & Hn). apply list_elem_of_In in Hob.
  by apply (shows_blocks d n p nodes).
Qed.

Lemma elem_of_preorder_child n nodes ob :
  n ∈ nodes → ob ∈ preorder n → ob ∈ preorder_list nodes.
Proof.
  intros Hn Hob. unfold preorder_list. apply list_elem_of_In, in_concat. exists (preorder n).
  split; apply list_elem_of_In; [by apply list_elem_of_fmap_2 | done].
Qed.

(** Every visible block is one of the nodes, with what is below it shown. *)
Lemma visible_node d nodes id :
  shows d "" nodes → visible d id →
  ∃ b c, b_id b = id ∧ oget (s_blocks d) id = Some b ∧ Some b ∈ preorder_list nodes ∧
    shows d id (default [] c) ∧
    (∀ ob, ob ∈ preorder_list (default [] c) → ob ∈ preorder_list nodes).
Proof.
  intros Hs. assert (∀ p l, shows d p l → ∀ i, i ∈ children_in (s_tree d) p →
    ∃ b c, b_id b = i ∧ oget (s_blocks d) i = Some b ∧ Some b ∈ preorder_list l ∧
      shows d i (default [] c) ∧
      (∀ ob, ob ∈ preorder_list (default [] c) → ob ∈ preorder_list l)) as Hstep.
  { intros p l [p' l' Hids Hn] i Hi. rewrite <- Hids in Hi.
    apply list_elem_of_fmap in Hi as ([blk c] & -> & Hin). destruct (Hn _ Hin) as (b & Hb & Hget & Hk).
    cbn in Hb. subst blk. unfold node_id. cbn. exists b, c. split_and!; try done.
    - apply (elem_of_preorder_child _ _ _ Hin). rewrite preorder_eq. left.
    - intros ob Hob. apply (elem_of_preorder_child _ _ _ Hin). rewrite preorder_eq. by right. }
  induction 1 as [i Hi|p i Hp IH Hi].
  - by apply (Hstep "" nodes).
  - destruct IH as (b & c & _ & _ & _ & Hk & Hsub).
    destruct (Hstep p (default [] c) Hk i Hi) as (b' & c' & ? & ? & ? & ? & ?).
    exists b', c'. split_and!; auto.
Qed.

(** ** The walk over the blocks *)

Lemma visit_node_children {A} (f : A → HMBlockNode → result A) b c acc :
  visitBlockNode f (BlockNode b c) acc =
  let* acc1 := f acc (BlockNode b c) in
  fold_result (λ acc n, visitBlockNode f n acc) acc1 (default [] c).
Proof.
  cbn. destruct (f acc (BlockNode b c)) as [acc1|]; [|done]. cbn. destruct c as [l|]; [|done]. cbn.
  revert acc1. induction l as [|x l IH]; intros acc1; [done|]. cbn.
  destruct (visitBlockNode f x acc1); [|done]. apply IH.
Qed.

Lemma fold_result_concat {A B} (f : A → B → result A) (ls : list (list B)) acc :
  fold_result f acc (concat ls) = fold_result (λ a l, fold_result f a l) acc ls.
Proof.
  revert acc. induction ls as [|l ls IH]; intros acc; [done|]. cbn. rewrite fold_result_app.
  destruct (fold_result f acc l); [|done]. apply IH.
Qed.
Lemma fold_result_map {A B C} (f : A → C → result A) (g : B → C) l acc :
  fold_result f acc (g <$> l) = fold_result (λ a x, f a (g x)) acc l.
Proof.
  revert acc. induction l as [|x l IH]; intros acc; [done|]. cbn.
  destruct (f acc (g x)); [|done]. apply IH.
Qed.
Lemma fold_result_ext {A B} (f g : A → B → result A) l acc :
  (∀ x, x ∈ l → ∀ a, f a x = g a x) → fold_result f acc l = fold_result g acc l.
Proof.
  revert acc. induction l as [|x l IH]; intros acc H; [done|]. cbn. rewrite (H x) by left.
  destruct (g acc x); [|done]. apply IH. intros y Hy. apply H. by right.
Qed.

(** A callback that only looks at the block visits the blocks in document order. *)
Lemma forEachBlockNode_preorder {A} (f : A → HMBlockNode → result A) (h : A → option HMBlock → result A)
    children acc :
  (∀ a n, f a n = h a (node_block n)) →
  forEachBlockNode f children acc = fold_result h acc (preorder_list (default [] children)).
Proof.
  intros Hf. unfold forEachBlockNode, preorder_list. rewrite fold_result_concat, fold_result_map.
  apply fold_result_ext. intros n _. induction n as [b c IH] using node_tree_ind. intros a.
  rewrite visit_node_children, Hf, preorder_eq. cbn [node_block fold_result].
  destruct (h a b) as [a1|]; [|done]. cbn [rbind].
  unfold preorder_list. rewrite fold_result_concat, fold_result_map.
  apply fold_result_ext. intros x Hx. by apply (proj1 (Forall_forall _ _) IH x Hx).
Qed.

(** ** References to a path of a group *)

Section refs.
Context `{UrlApi} `{!UrlApiLaws}.

(** The block is an embed of a document at a path of the group. *)
Definition points_to (groupId path : string) (b : HMBlock) (eid : option string) : Prop :=
  b_type b = "embed" ∧
  ∃ ref u, b_ref b = Some ref ∧ unpackHmId ref = Ok (Some u) ∧ u_type u = "d" ∧
           u_eid u = eid ∧ u_variants u = Some [GroupVariant groupId (Some path)].

(** [b'] is [b], pointing to the new path for the same document. *)
Definition redirected (groupId newPath : string) (eid : option string) (b b' : HMBlock) : Prop :=
  points_to groupId newPath b' eid ∧
  b_id b' = b_id b ∧ b_type b' = b_type b ∧ b_text b' = b_text b ∧
  b_annotations b' = b_annotations b ∧ b_attributes b' = b_attributes b.

(** A reference that can be read, and names a document by a clean id if it names one. *)
Definition ref_ok (b : HMBlock) : Prop :=
  ∀ ref, b_ref b = Some ref →
    ∃ r, unpackHmId ref = Ok r ∧
         ∀ u, r = Some u → u_type u = "d" → ∃ e, u_eid u = Some e ∧ clean_ne e = true.

(** A group id and a path name. *)
Definition group_id (g : string) : Prop := ∃ e, g = "hm://g/" +:+ e ∧ clean_ne e = true.

Lemma group_variant_clean g p :
  group_id g → clean_ne p = true → clean_opts (group_variant_opts g p).
Proof.
  intros (e & -> & He) Hp. split; [done|]. split; [done|]. split; [done|].
  intros vs [= <-]. split; [done|]. repeat constructor; cbn; [done|]. eauto.
Qed.

Lemma group_ref g p e :
  group_id g → clean_ne p = true → clean_ne e = true →
  ∃ ref u, createHmId "d" e (group_variant_opts g p) = Ok ref ∧ unpackHmId ref = Ok (Some u) ∧
    u_type u = "d" ∧ u_eid u = Some e ∧ u_variants u = Some [GroupVariant g (Some p)].
Proof.
  intros Hg Hp He.
  destruct (createHmId_unpack "d" e (group_variant_opts g p)) as (b & Hc & Hu);
    [done|done|by apply group_variant_clean|]. eauto 10.
Qed.

(** What the callback of a renaming does with one block. *)
Lemma rename_block_spec g p p' b :
  group_id g → clean_ne p' = true → ref_ok b →
  (∃ e b', points_to g p b e ∧ redirected g p' e b b' ∧
     ∀ changes c, rename_block g p p' changes (BlockNode (Some b) c) = Ok (changes ++ [ReplaceBlock b'])) ∨
  ((∀ e, ¬ points_to g p b e) ∧
   ∀ changes c, rename_block g p p' changes (BlockNode (Some b) c) = Ok changes).
Proof.
  intros Hg Hp Hok. unfold rename_block. cbn [node_block].
  destruct (String.eqb_spec (b_type b) "embed") as [Ht|Ht]; cbn [negb];
    [|right; split; [by intros e [? _]|done]].
  destruct (b_ref b) as [ref|] eqn:Hr; [|right; split; [intros e (_ & r & u & ? & _); congruence|done]].
  destruct (Hok ref Hr) as (r & Hu & Hcl). rewrite Hu. cbn [rbind].
  destruct r as [u|];
    [|right; split; [intros e (_ & r & u & ? & ? & _); congruence|done]].
  assert (∀ P : Prop, (u_type u = "d" → u_variants u = Some [GroupVariant g (Some p)] → P) →
            ∀ e, points_to g p b e → P) as Hinv.
  { intros P HP e (_ & r' & u' & Hr' & Hu' & ? & ? & ?). simplify_eq. apply HP; congruence. }
  destruct (String.eqb_spec (u_type u) "d") as [Hd|Hd]; cbn [negb];
    [|right; split; [intros e Hpt; apply (λ f, Hinv False f e Hpt); congruence|done]].
  destruct (u_variants u) as [[|[g0 p0|a] [|v2 vs]]|] eqn:Hv;
    try (right; split; [intros e Hpt; apply (λ f, Hinv False f e Hpt); congruence|done]).
  destruct (String.eqb_spec g0 g) as [->|Hgne]; cbn [negb];
    [|right; split; [intros e Hpt; apply (λ f, Hinv False f e Hpt); congruence|done]].
  case_bool_decide as Hpe; cbn [negb];
    [|right; split; [intros e Hpt; apply (λ f, Hinv False f e Hpt); congruence|done]].
  subst p0. left. destruct (Hcl u eq_refl Hd) as (e & He & Hce). rewrite He.
  destruct (group_ref g p' e Hg Hp Hce) as (ref' & u' & Hc & Hu' & Ht' & He' & Hv').
  cbn [undef_str from_option id]. rewrite Hc. cbn [rbind].
  exists (Some e), (with_ref b ref'). split; [|split; [|done]].
  - split; [done|]. exists ref, u. split_and!; done.
  - split; [|done]. split; [done|]. exists ref', u'. split_and!; done.
Qed.

(** The changes of a renaming: one replacement per embed of the old path. *)
Lemma rename_changes_spec g p p' doc (bs : list HMBlock) :
  group_id g → clean_ne p' = true →
  preorder_list (default [] (d_children doc)) = Some <$> bs → (∀ b, b ∈ bs → ref_ok b) →
  ∃ reps : list (HMBlock * HMBlock),
    rename_changes g p p' doc = Ok (ReplaceBlock <$> reps.*2) ∧
    (∀ b b', (b, b') ∈ reps → b ∈ bs ∧ ∃ e, points_to g p b e ∧ redirected g p' e b b') ∧
    (∀ b e, b ∈ bs → points_to g p b e → b ∈ reps.*1).
Proof.
  intros Hg Hp Hbs Hok. unfold rename_changes.
  rewrite (forEachBlockNode_preorder _ (λ a ob, rename_block g p p' a (BlockNode ob None)))
    by (by intros a [ob c]).
  rewrite Hbs, fold_result_map. clear Hbs doc.
  assert (∀ acc, ∃ reps : list (HMBlock * HMBlock),
    fold_result (λ a b, rename_block g p p' a (BlockNode (Some b) None)) acc bs =
      Ok (acc ++ (ReplaceBlock <$> reps.*2)) ∧
    (∀ b b', (b, b') ∈ reps → b ∈ bs ∧ ∃ e, points_to g p b e ∧ redirected g p' e b b') ∧
    (∀ b e, b ∈ bs → points_to g p b e → b ∈ reps.*1)) as Hgen; [|apply (Hgen [])].
  induction bs as [|b bs IH]; intros acc.
  - exists []. cbn. rewrite app_nil_r. split; [done|]. set_solver.
  - cbn [fold_result].
    destruct (rename_block_spec g p p' b Hg Hp (Hok b ltac:(left))) as [(e & b' & Hpt & Hrd & Hf)|[Hno Hf]];
      rewrite Hf; cbn [rbind].
    + destruct (IH ltac:(intros x Hx; apply Hok; by right) (acc ++ [ReplaceBlock b']))
        as (reps & Hr & Hin & Hall).
      exists ((b, b') :: reps). split; [rewrite Hr; cbn; by rewrite <- (assoc_L (++))|]. split.
      * intros x x' [[= -> ->]|Hx]%elem_of_cons; [split; [left | eauto]|].
        destruct (Hin _ _ Hx) as [? ?]. split; [by right | done].
      * intros x e' [->|Hx]%elem_of_cons Hpx; [left|]. right. by apply (Hall x e').
    + destruct (IH ltac:(intros x Hx; apply Hok; by right) acc) as (reps & Hr & Hin & Hall).
      exists reps. split; [done|]. split.
      * intros x x' Hx. destruct (Hin _ _ Hx). split; [by right | done].
      * intros x e' [->|Hx]%elem_of_cons Hpx; [by destruct (Hno e')|]. by apply (Hall x e').
Qed.
End refs.

(** ** Ids of versions *)

Section ids.
Context `{UrlApi} `{!UrlApiLaws}.

Lemma unpack_qid x u e :
  unpackHmId x = Ok (Some u) → u_type u = "d" → u_eid u = Some e → clean_ne e = true →
  u_qid u = "hm://d/" +:+ e.
Proof.
  intros Hu Ht He Hc. unfold unpackHmId in Hu. destruct (parseCustomURL x) as [p|]; [|done].
  assert (∀ off h, unpackParsed x p off h = Ok (Some u) → u_qid u = "hm://d/" +:+ e) as Hp.
  { intros off h Hup. unfold unpackParsed in Hup.
    destruct (parseVariantsQuery _) as [vs|]; [|done]. cbn [rbind] in Hup.
    destruct (inKeys _) as [t|]; [|done].
    destruct (createHmId0 t (undef_str _)) as [qid|] eqn:Hq; [|done]. cbn [rbind] in Hup.
    injection Hup as <-. cbn in Ht, He |- *. subst t. rewrite He in Hq. cbn in Hq.
    rewrite createHmId0_clean in Hq by done. by injection Hq as <-. }
  destruct (String.eqb _ _); [by eapply Hp|]. destruct (_ || _); [by eapply Hp | done].
Qed.

(** The id of a version of a document: it names the document and the version. *)
Lemma versioned_id e v :
  clean_ne e = true → clean v = true → v ≠ "" →
  ∃ nav u, hmIdWithVersion (Some ("hm://d/" +:+ e)) (Some v) None None = Ok (Some nav) ∧
    otruthy (Some nav) = true ∧ unpackHmId nav = Ok (Some u) ∧ u_type u = "d" ∧
    u_eid u = Some e ∧ u_qid u = "hm://d/" +:+ e ∧ u_version u = Some v.
Proof.
  intros He Hv Hne.
  destruct (createHmId_unpack "d" e no_opts) as (b & Hc & Hu); [done|done|by repeat split|].
  pose proof (createHmId_unpack "d" e
    {| o_groupPathName := None; o_version := Some v; o_blockRef := None; o_blockRange := None;
       o_variants := None; o_latest := None; o_hostname := None |}) as Hcv.
  destruct Hcv as (b' & Hc' & Hu'); [done|done| |].
  { split; [done|]. split; [split; [|done]|by split].
    apply (str_all_impl is_clean); [|done]. intros c Hcc. unfold is_version_char. by rewrite Hcc. }
  unfold hmIdWithVersion. change (default "" (Some ("hm://d/" +:+ e))) with ("hm://d/" +:+ e).
  assert (unpackHmId ("hm://d/" +:+ e) = Ok (Some (unpacked_of ("hm://d/" +:+ e) "d" e no_opts))) as ->.
  { replace (url_of "hm" (path_segs "d" e (o_groupPathName no_opts)) (entries_of no_opts b)
      (o_blockRef no_opts) (o_blockRange no_opts)) with ("hm://d/" +:+ e) in Hu; [done|].
    pose proof (createHmId_no_opts "d" e eq_refl He) as Hid. rewrite Hc in Hid.
    apply Ok_inj in Hid. first [exact Hid | symmetry; exact Hid]. }
  assert (otruthy (Some ("hm://d/" +:+ e)) = true) as -> by done.
  cbn [negb rbind unpacked_of u_type u_eid undef_str from_option id u_groupPathName no_opts
    o_groupPathName u_version o_version].
  unfold js_or at 1. rewrite otruthy_Some by done.
  cbn [no_opts o_groupPathName o_version o_blockRef o_blockRange] in *. rewrite Hc'. cbn [rbind].
  eexists _, _. split; [done|]. split; [done|]. split; [exact Hu'|]. done.
Qed.
End ids.

(** ** Navigation documents *)

Section navigation.
Context `{UrlApi} `{!UrlApiLaws} {S : Type} `{D : Daemon S} `{!DaemonLaws S}.

Definition empty_doc : ServerDoc := {| s_tree := []; s_blocks := []; s_title := "" |}.

(** [d] is the navigation document of a group with content [c]: the listed version,
    or the empty document when nothing is listed. *)
Inductive navigation (s : S) (c : obj string) (d : ServerDoc) : Prop :=
| Navigation nav u e :
    published_at c "_navigation" = Some nav → unpackHmId nav = Ok (Some u) → u_type u = "d" →
    u_eid u = Some e → clean_ne e = true →
    version_of s (u_qid u) (or_null (u_version u)) = Some d → navigation s c d
| NoNavigation : published_at c "_navigation" = None → d = empty_doc → navigation s c d.

(** The published path [nav] lists a version with content [d]. *)
Definition lists_version (s : S) (nav : string) (d : ServerDoc) : Prop :=
  ∃ u e, unpackHmId nav = Ok (Some u) ∧ u_type u = "d" ∧ u_eid u = Some e ∧ clean_ne e = true ∧
         version_of s (u_qid u) (or_null (u_version u)) = Some d.

Lemma catch_unit (c : call S unit) s : c_catch c (λ _, c_ret tt) s = ((c s).1, Ok tt).
Proof. unfold c_catch, c_ret. by destruct (c s) as [s' [[]|]]. Qed.

Definition same_content (s s' : S) : Prop := ∀ g, content_of s' g = content_of s g.
#[export] Instance same_content_preorder : PreOrder same_content.
Proof. split; [by intros s g | intros s1 s2 s3 H1 H2 g; by rewrite H2]. Qed.

(** The outcome of editing the navigation document. *)
Definition edited (s : S) (c : obj string) (d : ServerDoc) (P : ServerDoc → Prop)
    (r : S * result (option string)) : Prop :=
  (r.2 = Ok None ∧ P d ∧ same_content s r.1 ∧ ∀ i v, version_of r.1 i v = version_of s i v) ∨
  ∃ nav d', r.2 = Ok (Some nav) ∧ lists_version r.1 nav d' ∧ P d' ∧ same_content s r.1 ∧
    (published_at c "_navigation" = Some nav → d' = d).

(** From the draft on: the changes are applied and published, or the draft goes. *)
Lemma mutate_from_draft s0 s c d e doc mutator P :
  (∃ changes d', mutator doc = Ok changes ∧ apply_changes d changes = Ok d' ∧ P d') →
  d_id doc = Some ("hm://d/" +:+ e) → clean_ne e = true →
  draft_of s ("hm://d/" +:+ e) = Some d →
  (∀ nav u, published_at c "_navigation" = Some nav → unpackHmId nav = Ok (Some u) →
     u_qid u = "hm://d/" +:+ e → version_of s (u_qid u) (or_null (u_version u)) = Some d) →
  same_content s0 s → (∀ i v, version_of s i v = version_of s0 i v) →
  edited s0 c d P
    ((await* changes := c_lift (mutator doc) in
      match changes with
      | [] => await* _ := deleteDraft (d_id doc) in c_ret None
      | _ =>
          await* _ := sendUpdate (proto_str (d_id doc)) changes in
          await* published := publishDraft (proto_str (d_id doc)) in
          match p_document published with
          | None => c_throw "No document returned from publish"
          | Some d =>
              await* newNavDoc := c_lift (hmIdWithVersion (d_id d) (p_version published) None None) in
              if otruthy newNavDoc then c_ret newNavDoc
              else c_throw "Could not determine new nav doc id"
          end
      end) s).
Proof.
  intros (changes & d' & Hm & Ha & HP) Hid He Hdraft Hold Hc Hv. rewrite Hid.
  rewrite (c_bind_lift _ _ _ _ Hm). destruct changes as [|ch changes].
  - injection Ha as <-. left.
    destruct (deleteDraft_law s (Some ("hm://d/" +:+ e))) as (Hdc & Hdv & _).
    pose proof (deleteDraft_ok s ("hm://d/" +:+ e) ltac:(by eexists)) as Hok.
    destruct (deleteDraft _ s) as [s' r] eqn:Hd. cbn in Hok, Hdc, Hdv. subst r.
    rewrite (c_bind_ok _ _ _ _ _ Hd). cbn. split; [done|]. split; [done|]. split.
    + intros g. by rewrite Hdc.
    + intros i v. by rewrite Hdv.
  - right. cbn [proto_str from_option id default].
    pose proof (sendUpdate_law s _ _ (ch :: changes) Hdraft) as Hs. rewrite Ha in Hs.
    destruct Hs as (s1 & Hs1 & Hd1 & Hc1 & Hv1 & _).
    rewrite (c_bind_ok _ _ _ _ _ Hs1).
    destruct (publishDraft_law s1 _ _ Hd1) as (s2 & pd & v & Hp & Hpid & Hvc & Hvn & Hpub & _ & Hc2 & Hv2 & _).
    rewrite (c_bind_ok _ _ _ _ _ Hp). cbn [p_document p_version]. rewrite Hpid.
    destruct (versioned_id e v He Hvc Hvn) as (nav & u & Hn & Hnt & Hu & Ht & Heid & Hq & Hver).
    rewrite (c_bind_lift _ _ _ _ Hn), Hnt. cbn [c_ret fst snd].
    assert (or_null (Some v) = Some v) as Hov by (unfold or_null, js_or; by rewrite otruthy_Some).
    exists nav, d'. split; [done|]. split; [|split; [done|]; split].
    + exists u, e. rewrite Hq, Hver, Hov. done.
    + intros g. by rewrite Hc2, Hc1, Hc.
    + intros Hpn. pose proof (Hold nav u Hpn Hu Hq) as Hov'. rewrite Hq, Hver, Hov, <- Hv1 in Hov'.
      apply Hv2 in Hov'. congruence.
Qed.

Lemma mutate_navigation s g c d mutator P :
  content_of s g = Some c → navigation s c d → shown d →
  (∀ doc, shows d "" (default [] (d_children doc)) →
     ∃ changes d', mutator doc = Ok changes ∧ apply_changes d changes = Ok d' ∧ P d') →
  edited s c d P (mutateGroupNavigationDoc g mutator s).
Proof.
  intros Hcont Hnav Hshown Hmut. unfold mutateGroupNavigationDoc, getGroupNavigationDocument.
  assert ((await* content := listContent g in c_ret (or_null (oget content "_navigation"))) s =
          (s, Ok (published_at c "_navigation"))) as Hlist.
  { by rewrite (c_bind_ok _ _ _ _ _ (listContent_law s g c Hcont)). }
  rewrite (c_bind_ok _ _ _ _ _ Hlist).
  destruct Hnav as [nav u e Hn Hu Ht He Hcl Hver | Hn Hd]; rewrite Hn.
  - pose proof (unpack_qid _ _ _ Hu Ht He Hcl) as Hq.
    rewrite (c_bind_lift _ _ _ _ Hu). cbn [fmap option_fmap option_map mbind option_bind].
    rewrite (c_bind_ok _ _ _ _ _ (catch_unit _ s)).
    destruct (deleteDraft_law s (Some (u_qid u))) as (Hc1 & Hv1 & Hd1).
    set (s1 := (deleteDraft (Some (u_qid u)) s).1) in *.
    destruct (createDraft_law s1 (u_qid u) (or_null (u_version u)) d) as
      (s2 & doc & Hcd & Hid & Hsh & Hdr & Hc2 & Hv2 & _).
    + by rewrite Hv1.
    + done.
    + rewrite Hd1. by rewrite bool_decide_eq_true_2.
    + rewrite (c_bind_ok _ _ _ _ _ Hcd). rewrite Hq in *.
      apply (mutate_from_draft s s2 c d e doc); try done.
      * by apply Hmut.
      * intros nav' u' Hn' Hu' Hq'. rewrite Hn in Hn'. injection Hn' as <-.
        rewrite Hu in Hu'. injection Hu' as <-. rewrite Hv2, Hv1, Hq. done.
      * intros g'. by rewrite Hc2, Hc1.
      * intros i v. by rewrite Hv2, Hv1.
  - rewrite (c_bind_lift _ _ _ None eq_refl). cbn [fmap option_fmap option_map mbind option_bind].
    rewrite (c_bind_ok _ _ _ _ _ (catch_unit _ s)).
    destruct (deleteDraft_law s None) as (Hc1 & Hv1 & _).
    set (s1 := (deleteDraft None s).1) in *. cbn [or_null js_or otruthy].
    destruct (createDraft_new s1) as (s2 & doc & i & Hcd & Hid & Hic & Hin & Hch & Hdr & _ & Hc2 & Hv2 & _).
    change (or_null None) with (@None string).
    rewrite (c_bind_ok _ _ _ _ _ Hcd).
    apply (mutate_from_draft s s2 c d i doc); try done.
    + apply Hmut. rewrite Hch. subst d. constructor; [done|]. set_solver.
    + unfold clean_ne. rewrite Hic. by apply truthy_spec.
    + by subst d.
    + congruence.
    + intros g'. by rewrite Hc2, Hc1.
    + intros j v. by rewrite Hv2, Hv1.
Qed.
End navigation.

(** ** Replacing blocks *)

Definition set_blocks (o : obj HMBlock) (bs : list HMBlock) : obj HMBlock :=
  foldl (λ o b, oset o (b_id b) b) o bs.

Lemma replaces_ok d bs :
  Forall (λ b, b_id b ≠ "") bs →
  apply_changes d (ReplaceBlock <$> bs) =
  Ok {| s_tree := s_tree d; s_blocks := set_blocks (s_blocks d) bs; s_title := s_title d |}.
Proof.
  revert d. induction bs as [|b bs IH]; intros d; [by destruct d|]. intros [Hb Hbs]%Forall_cons.
  unfold apply_changes. cbn [fmap list_fmap fold_result apply_change].
  apply truthy_spec in Hb as ->. cbn [rbind]. unfold apply_changes in IH. by rewrite IH.
Qed.

Lemma oget_set_blocks o bs id :
  (id ∉ (b_id <$> bs) ∧ oget (set_blocks o bs) id = oget o id) ∨
  (∃ b, b ∈ bs ∧ b_id b = id ∧ oget (set_blocks o bs) id = Some b).
Proof.
  revert o. induction bs as [|b bs IH]; intros o; [left; split; [set_solver|done]|].
  cbn [set_blocks foldl]. destruct (IH (oset o (b_id b) b)) as [[Hn Hg]|(x & Hx & Hid & Hg)].
  - fold (set_blocks (oset o (b_id b) b) bs). rewrite Hg, oget_oset.
    destruct (String.eqb_spec (b_id b) id) as [He|He].
    + right. exists b. split; [left|]. done.
    + left. split; [set_solver | done].
  - right. exists x. split; [by right|]. done.
Qed.

Lemma all_some {A} (l : list (option A)) : (∀ x, x ∈ l → is_Some x) → ∃ bs, l = Some <$> bs.
Proof.
  induction l as [|x l IH]; intros Hl; [by exists []|].
  destruct (Hl x ltac:(left)) as [b ->]. destruct IH as [bs ->]; [intros; apply Hl; by right|].
  by exists (b :: bs).
Qed.

Section rename.
Context `{UrlApi} `{!UrlApiLaws}.

(** [d'] is [d] with the embeds of the old path redirected to the new one. *)
Record renamed_doc (g old new : string) (d d' : ServerDoc) : Prop := {
  rn_tree : s_tree d' = s_tree d;
  rn_title : s_title d' = s_title d;
  rn_blocks id b :
    visible d id → oget (s_blocks d) id = Some b →
    (∃ e b', points_to g old b e ∧ redirected g new e b b' ∧ oget (s_blocks d') id = Some b') ∨
    ((∀ e, ¬ points_to g old b e) ∧ oget (s_blocks d') id = Some b);
}.

Lemma rename_mutator g old new d doc :
  group_id g → clean_ne new = true → oget (s_tree d) "" = None →
  (∀ id b, visible d id → oget (s_blocks d) id = Some b → ref_ok b) →
  (∀ b, Some b ∈ preorder_list (default [] (d_children doc)) → visible d (b_id b)) →
  shows d "" (default [] (d_children doc)) →
  ∃ changes d', rename_changes g old new doc = Ok changes ∧ apply_changes d changes = Ok d' ∧
    renamed_doc g old new d d'.
Proof.
  intros Hg Hnew Hroot Hok Hvis Hs.
  pose proof (λ ob, shows_list_blocks d "" _ ob Hs) as Hbl.
  destruct (all_some (preorder_list (default [] (d_children doc)))) as [bs Hbs].
  { intros ob Hob. destruct (Hbl ob Hob) as (b & -> & _). by eexists. }
  assert (∀ b, b ∈ bs → oget (s_blocks d) (b_id b) = Some b ∧ b_id b ∈ okeys (s_tree d)) as Hin.
  { intros b Hb. destruct (Hbl (Some b)) as (x & [= <-] & ?); [|done].
    rewrite Hbs. by apply list_elem_of_fmap_2. }
  destruct (rename_changes_spec g old new doc bs Hg Hnew Hbs) as (reps & Hr & Hreps & Hall).
  { intros b Hb. apply (Hok (b_id b)); [|by apply Hin]. apply Hvis. rewrite Hbs.
    by apply list_elem_of_fmap_2. }
  assert (∀ b b', (b, b') ∈ reps → oget (s_blocks d) (b_id b') = Some b ∧ b_id b' ≠ "" ∧ b_id b' = b_id b) as Hpair.
  { intros b b' Hbb. destruct (Hreps _ _ Hbb) as [Hb (e & _ & _ & Hid & _)]. rewrite Hid.
    destruct (Hin b Hb) as [Hget Hk]. split; [done|]. split; [|done].
    intros He. rewrite He in Hk. apply elem_of_okeys in Hk as [? ?]. congruence. }
  exists (ReplaceBlock <$> reps.*2), {| s_tree := s_tree d; s_blocks := set_blocks (s_blocks d) reps.*2; s_title := s_title d |}.
  split; [done|]. split.
  { apply replaces_ok, Forall_forall. intros b' Hb'.
    apply list_elem_of_fmap in Hb' as ([b x] & -> & Hbx).
    destruct (Hpair _ _ Hbx) as (_ & Hne & _). exact Hne. }
  split; [done..|]. intros id b Hv Hget. cbn [s_blocks].
  destruct (oget_set_blocks (s_blocks d) reps.*2 id) as [[Hn Hg']|(b' & Hb' & Hid & Hg')]; rewrite Hg'.
  - right. split; [|done]. intros e Hpt.
    destruct (visible_node d _ id Hs Hv) as (b0 & _ & Hid0 & Hget0 & Hpre & _).
    assert (b0 = b) as -> by congruence. rewrite Hbs in Hpre.
    apply list_elem_of_fmap in Hpre as (b1 & [= <-] & Hb). pose proof (Hall b e Hb Hpt) as Hin1.
    apply list_elem_of_fmap in Hin1 as ([x b'] & Hx & Hbb). cbn in Hx. subst x. apply Hn.
    destruct (Hpair _ _ Hbb) as (_ & _ & Hid'). apply list_elem_of_fmap. exists b'. split; [congruence|].
    apply list_elem_of_fmap. by exists (b, b').
  - left. apply list_elem_of_fmap in Hb' as ([b0 x] & Hx & Hbb). cbn in Hx. subst x.
    destruct (Hpair _ _ Hbb) as (Hget0 & _ & _). assert (b0 = b) as -> by congruence.
    destruct (Hreps _ _ Hbb) as [_ (e & Hpt & Hrd)]. by exists e, b'.
Qed.
End rename.

Lemma shown_visible d n : ∀ p nodes,
  shows d p nodes → n ∈ nodes → (p = "" ∨ visible d p) →
  ∀ b, Some b ∈ preorder n → visible d (b_id b).
Proof.
  induction n as [blk c IH] using node_tree_ind. intros p nodes [p' nodes' Hids Hn] Hin Hp b Hob.
  destruct (Hn _ Hin) as (b0 & Hb & Hget & Hs). cbn in Hb. subst blk.
  assert (visible d (b_id b0)) as Hv.
  { assert (b_id b0 ∈ children_in (s_tree d) p') as Hc.
    { rewrite <- Hids. apply list_elem_of_fmap. by exists (BlockNode (Some b0) c). }
    destruct Hp as [->|Hp]; [by apply visible_root | by eapply visible_child]. }
  rewrite preorder_eq in Hob. apply elem_of_cons in Hob as [[= ->]|Hob]; [done|].
  unfold preorder_list in Hob. apply list_elem_of_In, in_concat in Hob as (l & Hl & Hob).
  apply list_elem_of_In, list_elem_of_fmap in Hl as (k & -> & Hk).
  apply (proj1 (Forall_forall _ _) IH k Hk _ _ Hs Hk); [by right | by apply list_elem_of_In].
Qed.
Lemma shown_list_visible d nodes b :
  shows d "" nodes → Some b ∈ preorder_list nodes → visible d (b_id b).
Proof.
  intros Hs Hob. unfold preorder_list in Hob. apply list_elem_of_In, in_concat in Hob as (l & Hl & Hob).
  apply list_elem_of_In, list_elem_of_fmap in Hl as (n & -> & Hn). apply list_elem_of_In in Hob.
  apply (shown_visible d n "" nodes); auto.
Qed.

(** ** The commands *)

Section commands.
Context `{UrlApi} `{!UrlApiLaws} {S : Type} `{D : Daemon S} `{!DaemonLaws S}.

Lemma lists_version_published s nav d : lists_version s nav d → or_null (Some nav) = Some nav.
Proof.
  intros (u & e & Hu & _). unfold or_null, js_or. destruct nav; [by vm_compute in Hu | done].
Qed.
Lemma lists_version_navigation s s' c nav d :
  lists_version s nav d → (∀ i v, version_of s' i v = version_of s i v) →
  published_at c "_navigation" = Some nav → navigation s' c d.
Proof.
  intros (u & e & Hu & Ht & He & Hc & Hv) Hvs Hn. eapply Navigation; try done. by rewrite Hvs.
Qed.

(** C29. Renaming a document in a group: it succeeds, and in the group's content the
    new path holds what the old one held, the old one is gone, and the other paths
    stay; the navigation document keeps its tree and title, every embed of the old
    path in the group points to the new path for the same document, and every other
    block is as it was. *)
Theorem useRenameGroupDoc_spec s g old new c prev d :
  content_of s g = Some c → published_at c old = Some prev →
  navigation s c d → shown d → oget (s_tree d) "" = None →
  (∀ id b, visible d id → oget (s_blocks d) id = Some b → ref_ok b) →
  group_id g → clean_ne new = true → old ≠ new → old ≠ "_navigation" → new ≠ "_navigation" →
  ∃ s' c' d', useRenameGroupDoc g old new s = (s', Ok prev) ∧ content_of s' g = Some c' ∧
    published_at c' old = None ∧ published_at c' new = Some prev ∧
    (∀ p, p ≠ old → p ≠ new → p ≠ "_navigation" → published_at c' p = published_at c p) ∧
    navigation s' c' d' ∧ renamed_doc g old new d d' ∧
    (∀ g', g' ≠ g → content_of s' g' = content_of s g').
Proof.
  intros Hc Hprev Hnav Hsh Hroot Hok Hg Hnew Hne Hon Hnn. unfold useRenameGroupDoc.
  rewrite (c_bind_ok _ _ _ _ _ (listContent_law s g c Hc)).
  fold (published_at c old). rewrite Hprev.
  assert (or_null (Some prev) = Some prev) as Hpv.
  { unfold published_at, or_null, js_or in Hprev |- *. destruct (oget c old) as [[]|]; try done.
    by injection Hprev as <-. }
  pose proof (mutate_navigation s g c d (rename_changes g old new) (renamed_doc g old new d) Hc Hnav Hsh) as Hm.
  unfold edited in Hm.
  destruct (mutateGroupNavigationDoc g (rename_changes g old new) s) as [s1 r] eqn:Hrun.
  cbn [fst snd] in Hm.
  destruct Hm as [(-> & Hd & Hc1 & Hv1)|(nav & d' & -> & Hlv & Hd & Hc1 & _)].
  { intros doc Hdoc. apply rename_mutator; try done. intros b Hb. by eapply shown_list_visible. }
  all: rewrite (c_bind_ok _ _ _ _ _ Hrun); cbn zeta; cbn [oset].
  all: apply not_eq_sym, String.eqb_neq in Hne as Hne'; rewrite Hne'.
  - edestruct (updateGroup_law s1 g [(old, ""); (new, prev)] c) as (s' & c' & Hu & Hc' & Hp & Hoth & _ & Hvv).
    { by rewrite Hc1. }
    { exists old, "". cbn. rewrite String.eqb_refl, Hprev. split; [done|]. discriminate. }
    rewrite (c_bind_ok _ _ _ _ _ Hu). exists s', c', d. split; [done|]. split; [done|]. cbn [oget] in Hp.
    split; [by rewrite Hp, String.eqb_refl|]. split; [by rewrite Hp, Hne', String.eqb_refl|].
    split. { intros p H1%String.eqb_neq H2%String.eqb_neq _. by rewrite Hp, H1, H2. }
    split; [|split; [done|by intros g' Hg'; rewrite Hoth, Hc1]].
    assert (published_at c' "_navigation" = published_at c "_navigation") as Hn'.
    { rewrite Hp. apply not_eq_sym, String.eqb_neq in Hon as ->.
      apply not_eq_sym, String.eqb_neq in Hnn as ->. done. }
    destruct Hnav as [nav u e Hn ? ? ? ? Hver|Hn ?].
    + eapply Navigation; try done; [by rewrite Hn', Hn|]. by rewrite Hvv, Hv1.
    + apply NoNavigation; [by rewrite Hn'|done].
  - apply not_eq_sym, String.eqb_neq in Hon as Hon'. apply not_eq_sym, String.eqb_neq in Hnn as Hnn'.
    cbn [oset]. rewrite Hon'. cbn [oset]. rewrite Hnn'.
    edestruct (updateGroup_law s1 g [(old, ""); (new, prev); ("_navigation", nav)] c)
      as (s' & c' & Hu & Hc' & Hp & Hoth & _ & Hvv).
    { by rewrite Hc1. }
    { exists old, "". cbn. rewrite String.eqb_refl, Hprev. split; [done|]. discriminate. }
    rewrite (c_bind_ok _ _ _ _ _ Hu). exists s', c', d'. split; [done|]. split; [done|]. cbn [oget] in Hp.
    split; [by rewrite Hp, String.eqb_refl|]. split; [by rewrite Hp, Hne', String.eqb_refl|].
    split. { intros p H1%String.eqb_neq H2%String.eqb_neq H3%String.eqb_neq. by rewrite Hp, H1, H2, H3. }
    split; [|split; [done|by intros g' Hg'; rewrite Hoth, Hc1]].
    eapply lists_version_navigation; [exact Hlv|exact Hvv|].
    rewrite Hp, Hon', Hnn', String.eqb_refl. by eapply lists_version_published.
Qed.

(** An edit of the navigation document that changes it ends with its new version
    listed in the group, and nothing else of any group changed. *)
Definition navigation_published (s : S) (g : string) (c : obj string) (P : ServerDoc → Prop)
    (r : S * result unit) : Prop :=
  r.2 = Ok tt ∧
  ∃ c' d', content_of r.1 g = Some c' ∧ navigation r.1 c' d' ∧ P d' ∧
    (∀ p, p ≠ "_navigation" → published_at c' p = published_at c p) ∧
    (∀ g', g' ≠ g → content_of r.1 g' = content_of s g').

Lemma navigation_command s g c d mutator P :
  content_of s g = Some c → navigation s c d → shown d → ¬ P d →
  (∀ doc, shows d "" (default [] (d_children doc)) →
     ∃ changes d', mutator doc = Ok changes ∧ apply_changes d changes = Ok d' ∧ P d') →
  navigation_published s g c P (mutateGroupNavigation g mutator s).
Proof.
  intros Hc Hnav Hsh HnP Hm.
  pose proof (mutate_navigation s g c d mutator P Hc Hnav Hsh Hm) as He.
  unfold edited in He. unfold mutateGroupNavigation.
  destruct (mutateGroupNavigationDoc g mutator s) as [s1 r] eqn:Hrun. cbn [fst snd] in He.
  destruct He as [(_ & ? & _)|(nav & d' & -> & Hlv & Hd & Hc1 & Hfresh)]; [done|].
  rewrite (c_bind_ok _ _ _ _ _ Hrun). pose proof (lists_version_published _ _ _ Hlv) as Hnn.
  edestruct (updateGroup_law s1 g [("_navigation", nav)] c) as (s' & c' & Hu & Hc' & Hp & Hoth & _ & Hvv).
  { by rewrite Hc1. }
  { exists "_navigation", nav. split; [done|]. rewrite Hnn. intros Heq%Hfresh. by subst. }
  split; [by rewrite Hu|]. rewrite Hu. cbn [fst]. exists c', d'. split; [done|]. cbn [oget] in Hp.
  split; [eapply lists_version_navigation; [exact Hlv|exact Hvv|by rewrite Hp, String.eqb_refl]|].
  split; [done|]. split.
  - intros p Hpn%String.eqb_neq. by rewrite Hp, Hpn.
  - intros g' Hg'. by rewrite Hoth, Hc1.
Qed.

(** *** Failures *)

Lemma mutate_keeps_content g mutator : keeps same_content (mutateGroupNavigationDoc g mutator).
Proof.
  unfold mutateGroupNavigationDoc, getGroupNavigationDocument.
  assert (∀ i, keeps same_content (deleteDraft i)) as Hdel
    by (intros i s; exact (proj1 (deleteDraft_law s i))).
  repeat first
    [ apply keeps_bind; [exact _| |intros ?] | apply keeps_catch; [exact _| |intros ?]
    | apply keeps_pure; exact _
    | apply Hdel | intros s g0; apply listContent_content | intros s g0; apply createDraft_content
    | intros s g0; apply sendUpdate_content | intros s g0; apply publishDraft_content | case_match ].
Qed.

(** C30. A command on a group is atomic for what is published: when renaming a
    document or editing the navigation fails, for whatever reason, the content of
    every group is as before. *)
Theorem failed_command_keeps_content s g s' m :
  (∀ old new, useRenameGroupDoc g old new s = (s', Err m) →
     ∀ g', content_of s' g' = content_of s g') ∧
  (∀ mutator, mutateGroupNavigation g mutator s = (s', Err m) →
     ∀ g', content_of s' g' = content_of s g').
Proof.
  split.
  - intros old new. unfold useRenameGroupDoc. unfold c_bind at 1.
    pose proof (listContent_content s g) as Hl. destruct (listContent g s) as [s1 [c|m1]]; cbn in Hl;
      [|by intros [= <- <-]].
    destruct (or_null (oget c old)) as [prev|]; [|by intros [= <- <-]].
    unfold c_bind at 1. pose proof (mutate_keeps_content g (rename_changes g old new) s1) as Hm.
    destruct (mutateGroupNavigationDoc _ _ s1) as [s2 [nav|m2]]; cbn in Hm;
      [|intros [= <- <-] g'; by rewrite Hm, Hl].
    unfold c_bind. destruct (updateGroup _ s2) as [s3 [[]|m3]] eqn:Hu; [done|].
    intros [= <- <-] g'. rewrite (updateGroup_err _ _ _ _ Hu). by rewrite Hm, Hl.
  - intros mutator. unfold mutateGroupNavigation, c_bind.
    pose proof (mutate_keeps_content g mutator s) as Hm.
    destruct (mutateGroupNavigationDoc _ _ s) as [s2 [[nav|]|m2]]; cbn in Hm;
      [|done|by intros [= <- <-]].
    intros Hu g'. rewrite (updateGroup_err _ _ _ _ Hu). by rewrite Hm.
Qed.
End commands.
