(* ===== verification/GroupNavFacts.v ===== *)
(** * The categories of a group: theorems

    What the category commands of [Groups] do to the navigation document of a group:
    new categories and items go last, moves and deletions rearrange, renamings change
    one text. *)
From S2P Require Import Prelude.
From S2P Require Import JsString.
From S2P Require Import JsObject.
From S2P Require Import EntityId.
From S2P Require Import BlockTypes.
From S2P Require Import DraftDiff.
From S2P Require Import DocModel.
From S2P Require Import DraftDiffFacts.
From S2P Require Import DaemonApi.
From S2P Require Import Groups.
From S2P Require Import GroupsFacts.

(** ** Trees *)

(** A tree as a document has it: every block once, none of them the root or the
    trash. *)
Record tree_ok (t : DocTree) : Prop := {
  tk_wf : owf t;
  tk_root : oget t "" = None;
  tk_trash : oget t TrashNodeID = None;
}.

(** An id that nothing in the tree uses. *)
Definition fresh_in (t : DocTree) (id : string) : Prop :=
  id ≠ "" ∧ id ≠ TrashNodeID ∧ oget t id = None ∧ ∀ x, oget t x ≠ Some id.

Lemma NoDup_children_in t p : owf t → NoDup (children_in t p).
Proof.
  unfold owf, children_in, okeys. induction t as [|[x q] t IH]; [constructor|].
  cbn. intros [Hx Hn]%NoDup_cons. destruct (String.eqb q p); cbn; [|auto].
  constructor; [|auto]. intros Hin. apply Hx.
  apply list_elem_of_fmap in Hin as (e & -> & He). apply list_elem_of_fmap_2.
  rewrite list_elem_of_In, List.filter_In, <- list_elem_of_In in He. tauto.
Qed.

Lemma last_or_default l : default "" (last l) = last_or l.
Proof.
  unfold last_or. induction l as [|x l IH]; [done|]. destruct l as [|y l]; [done|]. exact IH.
Qed.

Lemma fresh_no_ancestor t id p : fresh_in t id → p ≠ id → isAncestor t id p = false.
Proof.
  intros (_ & _ & _ & Hno) Hp. unfold isAncestor.
  assert (∀ x, parent_in t x ≠ id ∨ parent_in t x = "") as Hpar.
  { intros x. unfold parent_in. destruct (oget t x) as [q|] eqn:E; [|by right].
    left. cbn. intros ->. by apply (Hno x). }
  apply (ancestor_loop_good (λ x, x ≠ id)).
  - intros x Hx. split; [done|]. destruct (Hpar x); [by right | by left].
  - destruct (Hpar p); [by right | by left].
Qed.

(** A new block moved after the last child of [p] is the last child. *)
Lemma append_block t id p :
  tree_ok t → fresh_in t id → (p = "" ∨ oget t p = Some "") →
  ∃ t', move t id p (last_or (children_in t p)) = Ok t' ∧
    ∀ q, children_in t' q = if String.eqb p q then children_in t q ++ [id] else children_in t q.
Proof.
  intros [Hwf Hroot Htr] Hf Hp. pose proof Hf as (Hid & Hidt & Hnone & Hno).
  assert (p ≠ id) as Hpid by (intros ->; destruct Hp; congruence).
  assert (∀ q, List.filter (λ x, negb (String.eqb id x)) (children_in t q) = children_in t q) as Hrest.
  { intros q. apply filter_all. intros x Hx%elem_of_children_in; [|done].
    apply negb_true_iff, String.eqb_neq. congruence. }
  destruct (move_ok t id p (last_or (children_in t p))) as (t' & Hm & _ & Hch).
  - done.
  - done.
  - intros ->. destruct Hp; [done | congruence].
  - destruct Hp as [?|Hp]; [by left | right; by eexists].
  - by apply fresh_no_ancestor.
  - destruct (decide (children_in t p = [])) as [->|Hne]; [by left|]. right.
    pose proof (last_or_elem _ Hne) as Hin. apply elem_of_children_in in Hin; [|done].
    split; [congruence|]. split; [congruence|]. split; [|done].
    intros He. destruct Hp as [->|Hp]; congruence.
  - exists t'. split; [done|]. intros q. rewrite (Hch q). cbn zeta. rewrite Hrest.
    destruct (String.eqb_spec p q) as [<-|]; [|done].
    destruct (decide (children_in t p = [])) as [->|Hne]; [done|].
    pose proof (last_or_elem _ Hne) as Hin. apply elem_of_children_in in Hin; [|done].
    assert (truthy (last_or (children_in t p)) = true) as -> by (apply truthy_spec; congruence).
    rewrite <- (app_nil_r (children_in t p)) at 2. apply ins_after_last; [done|].
    by apply NoDup_children_in.
Qed.

Lemma last_block_shown d p children :
  shows d p (default [] children) →
  proto_str (last_block_id children) = last_or (children_in (s_tree d) p).
Proof.
  unfold proto_str, last_block_id. generalize (default [] children). intros l.
  intros [p' nodes Hids Hn]. rewrite <- Hids, <- last_or_default.
  rewrite fmap_last. destruct (last nodes) as [n|] eqn:El; [|done].
  destruct (Hn n) as (b & Hb & _).
  { apply last_Some in El as [l0 ->]. apply elem_of_app. right. left. }
  cbn. unfold node_id. by rewrite Hb.
Qed.

(** ** Finding a block *)

Lemma find_go_eq id l :
  (fix go (l : list HMBlockNode) : result (option HMBlockNode) :=
     match l with
     | [] => Ok None
     | x :: l' =>
         let* found := find_block_node id x in
         match found with Some y => Ok (Some y) | None => go l' end
     end) l = find_in_nodes id l.
Proof. induction l as [|x l IH]; [done|]. cbn. destruct (find_block_node id x) as [[y|]|]; try done. Qed.

Definition found_spec (d : ServerDoc) (id : string) (obs : list (option HMBlock))
    (r : result (option HMBlockNode)) : Prop :=
  match r with
  | Ok (Some n) => ∃ b, node_block n = Some b ∧ b_id b = id ∧ oget (s_blocks d) id = Some b ∧
                        shows d id (default [] (node_children n))
  | Ok None => ∀ b, Some b ∈ obs → b_id b ≠ id
  | Err _ => False
  end.

Lemma find_block_node_spec d id n : ∀ p nodes,
  shows d p nodes → n ∈ nodes → found_spec d id (preorder n) (find_block_node id n).
Proof.
  induction n as [blk c IH] using node_tree_ind. intros p nodes [p' nodes' _ Hn] Hin.
  destruct (Hn _ Hin) as (b & Hb & Hget & Hs). cbn in Hb. subst blk.
  cbn [find_block_node]. destruct (String.eqb_spec (b_id b) id) as [<-|Hne].
  { exists b. done. }
  rewrite preorder_eq. destruct c as [l|].
  - rewrite find_go_eq.
    assert (found_spec d id (preorder_list l) (find_in_nodes id l)) as Hl.
    { assert (∀ l', (∀ x, x ∈ l' → x ∈ l) →
                found_spec d id (preorder_list l') (find_in_nodes id l')) as Hgen; [|by apply Hgen].
      induction l' as [|x l' IHl]; intros Hsub; [by intros b' Hb'%elem_of_nil|].
      cbn [find_in_nodes].
      pose proof (proj1 (Forall_forall _ _) IH x (Hsub x ltac:(left)) _ _ Hs (Hsub x ltac:(left))) as Hx.
      destruct (find_block_node id x) as [[y|]|]; [done| |done]. cbn [rbind].
      specialize (IHl ltac:(intros z Hz; apply Hsub; by right)).
      destruct (find_in_nodes id l') as [[y|]|]; [done| |done].
      intros b' Hb'. unfold preorder_list in Hb'. cbn in Hb'. apply elem_of_app in Hb' as [Hb'|Hb'].
      - by apply Hx.
      - by apply IHl. }
    destruct (find_in_nodes id l) as [[y|]|]; [done| |done].
    intros b' [[= ->]|Hb']%elem_of_cons; [done|]. by apply Hl.
  - intros b' [[= ->]|Hb']%elem_of_cons; [done|]. by apply elem_of_nil in Hb'.
Qed.

Lemma getBlockNode_shown d children id :
  shows d "" (default [] children) →
  found_spec d id (preorder_list (default [] children)) (getBlockNode children id).
Proof.
  intros Hs. destruct children as [l|]; [|by intros b Hb%elem_of_nil]. cbn in *.
  assert (∀ l', (∀ x, x ∈ l' → x ∈ l) →
            found_spec d id (preorder_list l') (find_in_nodes id l')) as Hgen; [|by apply Hgen].
  induction l' as [|x l' IHl]; intros Hsub; [by intros b' Hb'%elem_of_nil|]. cbn [find_in_nodes].
  pose proof (find_block_node_spec d id x _ _ Hs (Hsub x ltac:(left))) as Hx.
  destruct (find_block_node id x) as [[y|]|]; [done| |done]. cbn [rbind].
  specialize (IHl ltac:(intros z Hz; apply Hsub; by right)).
  destruct (find_in_nodes id l') as [[y|]|]; [done| |done].
  intros b' Hb'. unfold preorder_list in Hb'. cbn in Hb'. apply elem_of_app in Hb' as [Hb'|Hb']; auto.
Qed.

(** A visible block is found. *)
Lemma getBlockNode_visible d children id :
  shows d "" (default [] children) → visible d id →
  ∃ n b, getBlockNode children id = Ok (Some n) ∧ node_block n = Some b ∧ b_id b = id ∧
    oget (s_blocks d) id = Some b ∧ shows d id (default [] (node_children n)).
Proof.
  intros Hs Hv. pose proof (getBlockNode_shown d children id Hs) as Hf.
  destruct (visible_node d _ id Hs Hv) as (b & _ & Hid & _ & Hin & _).
  destruct (getBlockNode children id) as [[n|]|]; cbn in Hf; [|by destruct (Hf b)|done].
  destruct Hf as (b' & ? & ? & ? & ?). by exists n, b'.
Qed.

(** ** The commands *)

(** [d'] is [d] with a new last child of [p]. *)
Record block_added (p id : string) (content : HMBlock → Prop) (d d' : ServerDoc) : Prop := {
  ba_title : s_title d' = NAVIGATION_TITLE;
  ba_children q :
    children_in (s_tree d') q =
      if String.eqb p q then children_in (s_tree d) q ++ [id] else children_in (s_tree d) q;
  ba_block : ∃ b, oget (s_blocks d') id = Some b ∧ content b;
  ba_others i : i ≠ id → oget (s_blocks d') i = oget (s_blocks d) i;
}.

Lemma not_block_added p id content d : ¬ block_added p id content d d.
Proof.
  intros [_ Hc _ _]. specialize (Hc p). rewrite String.eqb_refl in Hc.
  apply (f_equal length) in Hc. rewrite length_app in Hc. cbn in Hc. lia.
Qed.

Lemma add_block_applied d p b (content : HMBlock → Prop) :
  tree_ok (s_tree d) → fresh_in (s_tree d) (b_id b) → (p = "" ∨ oget (s_tree d) p = Some "") →
  content b →
  ∃ d', apply_changes d [SetTitle NAVIGATION_TITLE;
                         MoveBlock (b_id b) (last_or (children_in (s_tree d) p)) p;
                         ReplaceBlock b] = Ok d' ∧ block_added p (b_id b) content d d'.
Proof.
  intros Ht Hf Hp Hb. destruct (append_block _ _ _ Ht Hf Hp) as (t' & Hm & Hc).
  unfold apply_changes. cbn [fold_result apply_change rbind s_tree s_blocks s_title]. rewrite Hm. cbn [rbind].
  destruct Hf as (Hne & _). apply truthy_spec in Hne as ->. cbn [rbind].
  eexists. split; [done|]. split; cbn [s_tree s_blocks s_title].
  - done.
  - exact Hc.
  - exists b. split; [apply oget_oset_eq | done].
  - intros i Hi. by apply oget_oset_ne, not_eq_sym.
Qed.

Lemma drawn_fresh t drawn :
  oget t (createBlockID drawn) = None → (∀ x, oget t x ≠ Some (createBlockID drawn)) →
  fresh_in t (createBlockID drawn).
Proof.
  intros H1 H2. split; [apply num_to_str_ne|]. split; [|done]. intros He.
  pose proof (num_to_str_digits drawn) as Hd. unfold createBlockID in He. rewrite He in Hd.
  by vm_compute in Hd.
Qed.

Section categories.
Context `{UrlApi} `{!UrlApiLaws} {S : Type} `{D : Daemon S} `{!DaemonLaws S}.

(** What the commands need: the group's listing and its navigation document. *)
Definition navigable (s : S) (g : string) (c : obj string) (d : ServerDoc) : Prop :=
  content_of s g = Some c ∧ navigation s c d ∧ shown d ∧ tree_ok (s_tree d).

(** A new category: when the drawn number is not the id of a block of the
    navigation document, creating a category succeeds, and the group then lists a
    navigation document with the heading after all other top-level blocks, everything
    else in place. *)
Theorem useCreateGroupCategory_spec s g c d drawn title :
  navigable s g c d →
  oget (s_tree d) (createBlockID drawn) = None →
  (∀ x, oget (s_tree d) x ≠ Some (createBlockID drawn)) →
  navigation_published s g c
    (block_added "" (createBlockID drawn) (λ b, b_type b = "heading" ∧ b_text b = Some title) d)
    (useCreateGroupCategory drawn g title s).
Proof.
  intros (Hc & Hn & Hsh & Ht) Hf1 Hf2. pose proof (drawn_fresh _ _ Hf1 Hf2) as Hf.
  apply (navigation_command s g c d); [done..|apply not_block_added|].
  intros doc Hdoc. unfold create_category_changes. rewrite (last_block_shown d "" _ Hdoc).
  eexists.
  destruct (add_block_applied d ""
    {| b_id := createBlockID drawn; b_type := "heading"; b_text := Some title; b_ref := None;
       b_annotations := Some []; b_attributes := Some [] |}
    (λ b, b_type b = "heading" ∧ b_text b = Some title) Ht Hf) as (d' & Ha & Hd'); [by left|done|].
  exists d'. split; [done|]. split; [exact Ha | exact Hd'].
Qed.

(** Adding a document to a category: with a fresh number, the category gets a last
    item, an embed of the document at its path in the group, everything else in
    place. *)
Theorem useAddToCategory_spec s g c d drawn pathName docId u e categoryId :
  navigable s g c d →
  oget (s_tree d) (createBlockID drawn) = None →
  (∀ x, oget (s_tree d) x ≠ Some (createBlockID drawn)) →
  group_id g → clean_ne pathName = true →
  unpackHmId docId = Ok (Some u) → u_eid u = Some e → clean_ne e = true →
  categoryId ∈ children_in (s_tree d) "" →
  navigation_published s g c
    (block_added categoryId (createBlockID drawn)
       (λ b, points_to g pathName b (Some e) ∧ block_attr b "view" = Some "card") d)
    (useAddToCategory drawn g pathName docId categoryId s).
Proof.
  intros (Hc & Hn & Hsh & Ht) Hf1 Hf2 Hg Hp Hu He Hce Hcat.
  pose proof (drawn_fresh _ _ Hf1 Hf2) as Hf.
  apply (navigation_command s g c d); [done..|apply not_block_added|].
  intros doc Hdoc. unfold add_to_category_changes.
  destruct (getBlockNode_visible d _ categoryId Hdoc (visible_root _ _ Hcat)) as
    (n & b & Hget & Hb & Hid & _ & Hkids).
  rewrite Hget. cbn [rbind]. rewrite Hu. cbn [rbind]. rewrite Hb, He. cbn [undef_str from_option id default].
  destruct (group_ref g pathName e Hg Hp Hce) as (ref & u' & Hc' & Hu' & Ht' & He' & Hv').
  rewrite Hc'. cbn [rbind]. rewrite Hid, (last_block_shown d categoryId _ Hkids).
  destruct (add_block_applied d categoryId
    {| b_id := createBlockID drawn; b_type := "embed"; b_text := Some ""; b_ref := Some ref;
       b_annotations := Some []; b_attributes := Some [("view", "card")] |}
    (λ b, points_to g pathName b (Some e) ∧ block_attr b "view" = Some "card") Ht Hf)
    as (d' & Ha & Hd').
  - right. apply elem_of_children_in in Hcat; [done|]. apply Ht.
  - split; [|done]. split; [done|]. exists ref, u'. done.
  - eexists _, d'. split; [done|]. split; [exact Ha | exact Hd'].
Qed.

(** [d'] is [d] with the blocks rearranged, contents and title unchanged. *)
Definition rearranged (children : string → list string) (d d' : ServerDoc) : Prop :=
  (∀ q, q ≠ TrashNodeID → children_in (s_tree d') q = children q) ∧
  s_blocks d' = s_blocks d ∧ s_title d' = s_title d.

(** The top level after moving a block to the right of another, or first. *)
Definition top_moved (t : DocTree) (id : string) (left_ : option string) (q : string) :
    list string :=
  let rest := List.filter (λ x, negb (String.eqb id x)) (children_in t q) in
  if String.eqb "" q then
    match left_ with Some l => ins_after l id rest | None => id :: rest end
  else rest.

(** Rearranging the navigation: deleting a category or an item takes it out of
    the document, and moving a category puts it right after the given top-level block
    or first; a move that would change nothing is rejected by the group. *)
Theorem category_rearranged s g c d id :
  navigable s g c d → visible d id →
  navigation_published s g c
    (rearranged (λ q, List.filter (λ x, negb (String.eqb id x)) (children_in (s_tree d) q)) d)
    (useDeleteCategory g id s) ∧
  (∀ left_, (∀ l, left_ = Some l → l ∈ children_in (s_tree d) "" ∧ l ≠ id) →
     top_moved (s_tree d) id left_ "" ≠ children_in (s_tree d) "" →
     navigation_published s g c (rearranged (top_moved (s_tree d) id left_) d)
       (useMoveCategory g id left_ s)).
Proof.
  intros (Hc & Hn & Hsh & Ht) Hv. pose proof Ht as [Hwf Hroot Htr].
  assert (∃ p, oget (s_tree d) id = Some p ∧ id ∈ children_in (s_tree d) p ∧ p ≠ TrashNodeID) as (p & Hp & Hin & Hpt).
  { destruct Hv as [i Hi|q i Hq Hi]; pose proof Hi as Hg; apply elem_of_children_in in Hg; try done.
    - by exists "".
    - exists q. split_and!; [done..|]. intros ->.
      destruct Hq as [j Hj|q j Hq Hj]; apply elem_of_children_in in Hj; congruence. }
  assert (id ≠ "" ∧ id ≠ TrashNodeID) as [Hid Hidt] by (split; intros ->; congruence).
  split.
  - apply (navigation_command s g c d); [done..| |].
    + intros [Hch _]. specialize (Hch p Hpt). rewrite Hch in Hin.
      apply list_elem_of_In, List.filter_In in Hin as [_ Hf].
      by rewrite String.eqb_refl in Hf.
    + intros doc _. destruct (delete_ok (s_tree d) id Hwf Hid Htr) as (t' & Hm & _ & Hch).
      eexists _, {| s_tree := t'; s_blocks := s_blocks d; s_title := s_title d |}.
      split; [done|]. unfold apply_changes. cbn [fold_result apply_change]. rewrite Hm. cbn [rbind].
      split; [done|]. split; [|done]. exact Hch.
  - intros left_ Hl Hne.
    apply (navigation_command s g c d); [done..| |].
    + intros [Hch _]. apply Hne. symmetry. by apply Hch.
    + intros doc _.
      destruct (move_ok (s_tree d) id "" (proto_str left_) Hwf Hid) as (t' & Hm & _ & Hch).
      * done.
      * by left.
      * unfold isAncestor, parent_in. by rewrite Hroot.
      * destruct left_ as [l|]; [|by left]. right. destruct (Hl l eq_refl) as [Hlc Hli].
        apply elem_of_children_in in Hlc; [|done]. cbn. split; [congruence|]. split; [done|].
        split; [congruence | done].
      * eexists _, {| s_tree := t'; s_blocks := s_blocks d; s_title := s_title d |}.
        split; [done|]. unfold apply_changes. cbn [fold_result apply_change]. rewrite Hm. cbn [rbind].
        split; [done|]. split; [|done]. intros q _. cbn [s_tree]. rewrite (Hch q). unfold top_moved.
        destruct left_ as [l|]; [|done]. destruct (Hl l eq_refl) as [Hlc _].
        apply elem_of_children_in in Hlc; [|done]. change (proto_str (Some l)) with l.
        assert (truthy l = true) as Htl by (apply truthy_spec; congruence).
        cbn. by rewrite Htl.
Qed.

(** Renaming a category changes the text of its block and nothing else. *)
Theorem useRenameGroupCateogry_spec s g c d id b title :
  navigable s g c d → visible d id → oget (s_blocks d) id = Some b → b_text b ≠ Some title →
  navigation_published s g c
    (λ d', s_tree d' = s_tree d ∧ s_title d' = s_title d ∧
           oget (s_blocks d') id = Some (with_text b title) ∧
           ∀ i, i ≠ id → oget (s_blocks d') i = oget (s_blocks d) i)
    (useRenameGroupCateogry g id title s).
Proof.
  intros (Hc & Hn & Hsh & Ht) Hv Hb Hne.
  apply (navigation_command s g c d); [done..| |].
  - intros (_ & _ & Hb' & _). apply Hne. rewrite Hb in Hb'. injection Hb' as Hb'. by rewrite Hb'.
  - intros doc Hdoc. unfold rename_category_changes.
    destruct (getBlockNode_visible d _ id Hdoc Hv) as (n & b' & Hget & Hb' & Hid & Hgb & _).
    rewrite Hget. cbn [rbind]. rewrite Hb'. assert (b' = b) as -> by congruence.
    eexists _, _. split; [done|]. split.
    { apply (replaces_ok d [with_text b title]). repeat constructor. cbn. rewrite Hid. intros ->.
      destruct (visible_node d _ "" Hdoc Hv) as (b0 & _ & _ & _ & Hin & _).
      destruct (shows_list_blocks d "" _ (Some b0) Hdoc Hin) as (b1 & [= <-] & _ & Hk).
      apply elem_of_okeys in Hk as [? Hk].
      assert (oget (s_tree d) "" = None) as Hr by apply Ht.
      destruct Hv as [i Hi|q i _ Hi]; apply elem_of_children_in in Hi; try congruence; apply Ht. }
    cbn [s_tree s_blocks s_title set_blocks foldl]. split; [done|]. split; [done|].
    cbn [with_text b_id]. rewrite Hid. split; [apply oget_oset_eq|].
    intros i Hi. by apply oget_oset_ne, not_eq_sym.
Qed.
End categories.
