(* ===== verification/DaemonModel.v ===== *)
(** * A daemon that keeps its promises

    An executable daemon in memory: groups as their content, drafts and published
    versions as documents.  It satisfies [DaemonApi.DaemonLaws], so the theorems about
    groups apply to it, and it evaluates their examples.  It is not a model of the Go
    daemon: no network, no keys, no CRDT. *)
From S2P Require Import Prelude.
From S2P Require Import JsString.
From S2P Require Import JsObject.
From S2P Require Import BlockTypes.
From S2P Require Import DraftDiff.
From S2P Require Import DocModel.
From S2P Require Import DraftDiffFacts.
From S2P Require Import DaemonApi.
From S2P Require Import GroupsFacts.

(** ** Rendering a document *)

(** The nodes below a parent, down to [fuel] levels. *)
Fixpoint render (fuel : nat) (d : ServerDoc) (p : string) : option (list HMBlockNode) :=
  match fuel with
  | O => None
  | S fuel' =>
      mapM (λ id,
        b ← oget (s_blocks d) id;
        kids ← render fuel' d id;
        if String.eqb (b_id b) id then Some (BlockNode (Some b) (Some kids)) else None)
        (children_in (s_tree d) p)
  end.

Lemma render_shows fuel d p nodes : render fuel d p = Some nodes → shows d p nodes.
Proof.
  revert p nodes. induction fuel as [|fuel IH]; intros p nodes; [done|]. cbn.
  intros Hm%mapM_Some. constructor.
  - induction Hm as [|id n ids ns Hn _ IHm]; [done|]. cbn. f_equal; [|done].
    apply bind_Some in Hn as (b & _ & Hn). apply bind_Some in Hn as (kids & _ & Hn).
    destruct (String.eqb_spec (b_id b) id) as [<-|]; [|done]. by injection Hn as <-.
  - intros n Hin. apply list_elem_of_lookup in Hin as [i Hi].
    destruct (Forall2_lookup_r _ _ _ _ _ Hm Hi) as (id & _ & Hn).
    apply bind_Some in Hn as (b & Hb & Hn). apply bind_Some in Hn as (kids & Hk & Hn).
    destruct (String.eqb_spec (b_id b) id) as [<-|]; [|done]. injection Hn as <-.
    exists b. split; [done|]. split; [done|]. by apply IH.
Qed.

Definition below (d : ServerDoc) (c p : string) : Prop := c ∈ children_in (s_tree d) p.

Lemma shows_acc_node d n : ∀ p nodes, shows d p nodes → n ∈ nodes → Acc (below d) (node_id n).
Proof.
  induction n as [blk c IH] using node_tree_ind. intros p nodes [p' nodes' _ Hn] Hin.
  destruct (Hn _ Hin) as (b & Hb & _ & Hs). cbn in Hb. subst blk. cbn [node_id node_block].
  constructor. intros x Hx. unfold below in Hx. change (node_id (BlockNode (Some b) c)) with (b_id b) in Hx.
  assert (∃ k, k ∈ default [] c ∧ x = node_id k) as (k & Hk & ->).
  { inversion Hs as [q l' Hids _]; subst. rewrite <- Hids in Hx. apply list_elem_of_fmap in Hx as (k & -> & Hk). eauto. }
  by apply (proj1 (Forall_forall _ _) IH k Hk _ _ Hs Hk).
Qed.
Lemma shows_acc d p nodes : shows d p nodes → Acc (below d) p.
Proof.
  intros Hs. constructor. intros x Hx. assert (∃ n, n ∈ nodes ∧ x = node_id n) as (n & Hn & ->).
  { destruct Hs as [q l Hids _]. unfold below in Hx. rewrite <- Hids in Hx.
    apply list_elem_of_fmap in Hx as (n & -> & Hn). eauto. }
  by apply (shows_acc_node d n p nodes).
Qed.

Lemma acc_no_loop {A} (R : A → A → Prop) x : Acc R x → ¬ tc R x x.
Proof.
  induction 1 as [x _ IH]. intros Hx.
  assert (∃ y, rtc R x y ∧ R y x) as (y & Hxy & Hyx).
  { clear IH. revert Hx. generalize x at 2 4 as z. intros z. induction 1 as [a b Hab|a b z Hab _ IHt].
    - by exists a.
    - destruct IHt as (y & Hby & Hyz). exists y. split; [by eapply rtc_l | done]. }
  apply (IH y Hyx). apply tc_rtc_r with x; [by apply tc_once | done].
Qed.

Lemma children_in_keys t p x : x ∈ children_in t p → x ∈ okeys t.
Proof.
  intros Hx. apply list_elem_of_fmap in Hx as (e & -> & He). apply list_elem_of_fmap_2.
  rewrite list_elem_of_In, List.filter_In, <- list_elem_of_In in He. tauto.
Qed.

(** Every shown document renders within one level per block and one for the root. *)
Lemma render_total_below d fuel : ∀ p nodes above,
  shows d p nodes → NoDup (p :: above) → (∀ x, x ∈ p :: above → x ∈ "" :: okeys (s_tree d)) →
  (∀ x, x ∈ above → tc (below d) p x) →
  S (length (s_tree d)) <= length above + fuel → is_Some (render fuel d p).
Proof.
  induction fuel as [|fuel IH]; intros p nodes above Hs Hnd Hsub Habove Hlen.
  - assert (length (p :: above) <= length ("" :: okeys (s_tree d))) as Hle.
    { apply submseteq_length, NoDup_submseteq; [done | exact Hsub]. }
    unfold okeys in Hle. cbn in Hle. rewrite length_fmap in Hle. lia.
  - cbn. apply mapM_is_Some. apply Forall_forall. intros id Hid.
    pose proof (shows_acc _ _ _ Hs) as Hacc.
    assert (∃ b c, b_id b = id ∧ oget (s_blocks d) id = Some b ∧ shows d id c) as (b & c & Hb & Hget & Hc).
    { destruct Hs as [q l Hids Hn]. rewrite <- Hids in Hid.
      apply list_elem_of_fmap in Hid as (n & -> & Hin). destruct (Hn n Hin) as (b & Hb & ? & ?).
      assert (node_id n = b_id b) as -> by (unfold node_id; by rewrite Hb). by exists b, (node_kids n). }
    destruct (IH id c (p :: above) Hc) as [kids Hk].
    + constructor; [|done].
      assert (Acc (below d) id) as Hai by (by apply (Acc_inv Hacc)).
      intros [->|Hin]%elem_of_cons; [by apply (acc_no_loop _ _ Hai), tc_once|].
      apply (acc_no_loop _ _ Hai). eapply tc_l; [exact Hid | by apply Habove].
    + intros x [->|Hx]%elem_of_cons; [right; by eapply children_in_keys | by apply Hsub].
    + intros x [->|Hx]%elem_of_cons; [by apply tc_once|]. eapply tc_l; [exact Hid | by apply Habove].
    + cbn. lia.
    + exists (BlockNode (Some b) (Some kids)). rewrite Hget. cbn. rewrite Hk. cbn.
      by rewrite Hb, String.eqb_refl.
Qed.

Definition rendered (d : ServerDoc) : option (list HMBlockNode) :=
  render (S (length (s_tree d))) d "".
#[local] Arguments rendered : simpl never.

Lemma rendered_shown d : shown d → ∃ nodes, rendered d = Some nodes ∧ shows d "" nodes.
Proof.
  intros [nodes Hs]. destruct (render_total_below d (S (length (s_tree d))) "" nodes []) as [l Hl].
  - done.
  - apply NoDup_singleton.
  - intros x ->%list_elem_of_singleton. left.
  - by intros x ?%elem_of_nil.
  - done.
  - exists l. split; [done|]. by eapply render_shows.
Qed.

(** ** The state and the calls *)

Record Net : Type := {
  n_groups : obj (obj string);
  n_drafts : obj ServerDoc;
  n_versions : obj (obj ServerDoc);
}.
Definition with_groups (s : Net) (g : obj (obj string)) : Net :=
  {| n_groups := g; n_drafts := n_drafts s; n_versions := n_versions s |}.
Definition with_drafts (s : Net) (d : obj ServerDoc) : Net :=
  {| n_groups := n_groups s; n_drafts := d; n_versions := n_versions s |}.

(** A string longer than some others. *)
Fixpoint letters (n : nat) : string :=
  match n with O => "" | S n' => String "n" (letters n') end.
Definition longest (l : list string) : nat := foldr (λ x n, Nat.max (len x) n) 0 l.
Definition fresh_name (l : list string) : string := letters (S (longest l)).

Lemma len_letters n : len (letters n) = n.
Proof. induction n as [|n IH]; [done|]. cbn. f_equal. exact IH. Qed.
Lemma letters_clean n : clean (letters n) = true.
Proof. by induction n. Qed.
Lemma longest_le l x : x ∈ l → len x <= longest l.
Proof.
  induction l as [|y l IH]; [by intros ?%elem_of_nil|]. cbn. fold (longest l).
  intros [->|Hx]%elem_of_cons; [lia|]. specialize (IH Hx). lia.
Qed.
Lemma fresh_name_prefix p l : (p +:+ fresh_name l) ∉ l.
Proof.
  intros Hin%longest_le. rewrite len_app in Hin. unfold fresh_name in Hin.
  rewrite len_letters in Hin. lia.
Qed.
Lemma fresh_name_spec l : clean (fresh_name l) = true ∧ fresh_name l ≠ "" ∧ fresh_name l ∉ l.
Proof.
  split; [apply letters_clean|]. split; [done|].
  change (fresh_name l) with ("" +:+ fresh_name l). apply fresh_name_prefix.
Qed.

(** The earlier entries of an update win. *)
Definition put_all (c upd : obj string) : obj string := foldr (λ e o, oset o e.1 e.2) c upd.
Lemma oget_put_all c upd p :
  oget (put_all c upd) p = match oget upd p with Some v => Some v | None => oget c p end.
Proof.
  induction upd as [|[k v] upd IH]; [done|].
  cbn [put_all foldr oget fst snd]. fold (put_all c upd). rewrite oget_oset, IH.
  rewrite (String.eqb_sym p k). by destruct (String.eqb k p).
Qed.

Definition changes_content (c upd : obj string) : bool :=
  existsb (λ e, negb (bool_decide (published_at c e.1 = or_null (Some e.2)))) upd.

Definition newest_version (vs : obj ServerDoc) : option ServerDoc := snd <$> last vs.
Definition find_version (s : Net) (i : string) (v : option string) : option ServerDoc :=
  oget (n_versions s) i ≫= λ vs, match v with Some v => oget vs v | None => newest_version vs end.

Definition empty_draft : ServerDoc := {| s_tree := []; s_blocks := []; s_title := "" |}.
Definition document (i : string) (nodes : list HMBlockNode) : HMDocument :=
  {| d_title := None; d_id := Some i; d_author := None; d_editors := []; d_children := Some nodes;
     d_createTime := None; d_updateTime := None; d_publishTime := None; d_version := None;
     d_previousVersion := None |}.

Definition net_updateGroup (u : GroupUpdate) : call Net unit := λ s,
  match oget (n_groups s) (gu_id u) with
  | None => (s, Err "group not found")
  | Some c =>
      let upd := default [] (gu_updatedContent u) in
      if changes_content c upd
      then (with_groups s (oset (n_groups s) (gu_id u) (put_all c upd)), Ok tt)
      else (s, Err "new changes must have a patch: nothing to update")
  end.
Definition net_createDraft (i v : option string) : call Net HMDocument := λ s,
  match i with
  | None =>
      let name := "hm://d/" +:+ fresh_name (okeys (n_drafts s) ++ okeys (n_versions s)) in
      (with_drafts s (oset (n_drafts s) name empty_draft), Ok (document name []))
  | Some i =>
      match oget (n_drafts s) i, find_version s i v with
      | Some _, _ => (s, Err "draft already exists")
      | None, None => (s, Err "document not found")
      | None, Some d =>
          match rendered d with
          | None => (s, Err "cannot render")
          | Some nodes => (with_drafts s (oset (n_drafts s) i d), Ok (document i nodes))
          end
      end
  end.
Definition net_deleteDraft (i : option string) : call Net unit := λ s,
  match i with
  | None => (s, Err "must specify draft ID to delete")
  | Some i =>
      match oget (n_drafts s) i with
      | None => (s, Err "no draft")
      | Some _ => (with_drafts s (odelete (n_drafts s) i), Ok tt)
      end
  end.
Definition net_sendUpdate (i : string) (changes : list DocumentChange) : call Net unit := λ s,
  match oget (n_drafts s) i with
  | None => (s, Err "no draft")
  | Some d =>
      match apply_changes d changes with
      | Ok d' => (with_drafts s (oset (n_drafts s) i d'), Ok tt)
      | Err m => (s, Err m)
      end
  end.
Definition net_publishDraft (i : string) : call Net HMPublication := λ s,
  match oget (n_drafts s) i with
  | None => (s, Err "no draft")
  | Some d =>
      let vs := default [] (oget (n_versions s) i) in
      let v := fresh_name (okeys vs) in
      ({| n_groups := n_groups s; n_drafts := odelete (n_drafts s) i;
          n_versions := oset (n_versions s) i (oset vs v d) |},
       Ok {| p_document := Some (document i []); p_version := Some v |})
  end.

#[export] Instance net_daemon : Daemon Net := {
  createGroup _ title := λ s,
    let name := "hm://g/" +:+ fresh_name (okeys (n_groups s)) in
    (with_groups s (oset (n_groups s) name []), Ok name);
  updateGroup := net_updateGroup;
  listContent g := λ s, (s, match oget (n_groups s) g with Some c => Ok c | None => Err "group not found" end);
  deleteDraft := net_deleteDraft;
  createDraft := net_createDraft;
  sendUpdate := net_sendUpdate;
  publishDraft := net_publishDraft;
}.

(** ** Its promises *)

Lemma net_updateGroup_law (s : Net) g upd c :
  oget (n_groups s) g = Some c →
  (∃ p v, oget upd p = Some v ∧ published_at c p ≠ or_null (Some v)) →
  net_updateGroup (content_update g upd) s =
    (with_groups s (oset (n_groups s) g (put_all c upd)), Ok tt).
Proof.
  intros Hc (p & v & Hp & Hne). unfold net_updateGroup.
  change (gu_id (content_update g upd)) with g.
  change (default [] (gu_updatedContent (content_update g upd))) with upd.
  rewrite Hc. assert (changes_content c upd = true) as ->; [|done].
  apply existsb_exists. exists (p, v). split; [by apply list_elem_of_In, oget_Some_elem|].
  apply negb_true_iff, bool_decide_eq_false. exact Hne.
Qed.

#[export] Instance net_laws : DaemonLaws Net.
Proof.
  refine {| content_of := λ s, oget (n_groups s); draft_of := λ s, oget (n_drafts s);
            version_of := find_version |}.
  - intros s g upd c Hc Hch. eexists _, _. split; [by apply net_updateGroup_law|].
    cbn [n_groups n_drafts with_groups]. rewrite oget_oset_eq. split; [done|]. split.
    + intros p. unfold published_at. rewrite oget_put_all. by destruct (oget upd p).
    + split; [|done]. intros g' Hg'. by apply oget_oset_ne, not_eq_sym.
  - intros s u s' m Hu g. cbn in Hu. unfold net_updateGroup in Hu.
    destruct (oget (n_groups s) (gu_id u)); [|by injection Hu as <- _].
    destruct (changes_content _ _); [done|]. by injection Hu as <- _.
  - intros s g c Hc. cbn. by rewrite Hc.
  - done.
  - intros s [i|] v g; cbn; unfold net_createDraft; [|done]. destruct (oget (n_drafts s) i), (find_version s i v) as [d|]; try done.
    by destruct (rendered d).
  - intros s i l g. cbn. unfold net_sendUpdate. destruct (oget (n_drafts s) i) as [d|]; [|done].
    by destruct (apply_changes d l).
  - intros s i g. cbn. unfold net_publishDraft. by destruct (oget (n_drafts s) i).
  - intros s [i|]; cbn; unfold net_deleteDraft; [|done]. destruct (oget (n_drafts s) i) eqn:E; cbn; (split; [done|]; split; [done|]); intros j.
    + case_bool_decide as Hij; [injection Hij as ->; apply oget_odelete_eq|].
      apply oget_odelete_ne. congruence.
    + case_bool_decide as Hij; [by injection Hij as <-|done].
  - intros s i [d Hd]. cbn. unfold net_deleteDraft. by rewrite Hd.
  - intros s i v d Hv Hs Hd. destruct (rendered_shown d Hs) as (nodes & Hr & Hsh).
    cbn. unfold net_createDraft. rewrite Hd, Hv, Hr. eexists _, _. split; [done|]. split; [done|]. split; [done|]. cbn.
    split; [apply oget_oset_eq|]. split; [done|]. split; [done|].
    intros j Hj. by apply oget_oset_ne, not_eq_sym.
  - intros s. cbn [createDraft net_daemon]. unfold net_createDraft. set (l := okeys (n_drafts s) ++ okeys (n_versions s)).
    eexists _, _, (fresh_name l). split; [done|]. destruct (fresh_name_spec l) as (? & ? & _).
    pose proof (fresh_name_prefix "hm://d/" l) as Hfresh.
    cbn [n_drafts n_versions n_groups with_drafts d_id document d_children].
    split_and!; try done.
    + apply oget_oset_eq.
    + intros v. unfold find_version.
      assert (oget (n_versions s) ("hm://d/" +:+ fresh_name l) = None) as ->; [|done].
      apply oget_None. intros Hin. apply Hfresh. subst l. apply elem_of_app. by right.
    + intros j Hj. by apply oget_oset_ne, not_eq_sym.
  - intros s i d changes Hd. destruct (apply_changes d changes) as [d'|m] eqn:Ha; cbn;
      unfold net_sendUpdate; rewrite Hd, Ha.
    + eexists. split; [done|]. cbn. split; [apply oget_oset_eq|]. split; [done|]. split; [done|].
      intros j Hj. by apply oget_oset_ne, not_eq_sym.
    + by exists m.
  - intros s i d Hd. cbn. unfold net_publishDraft. rewrite Hd.
    set (vs := default [] (oget (n_versions s) i)).
    destruct (fresh_name_spec (okeys vs)) as (Hcl & Hne & Hf).
    eexists _, _, _. split; [done|]. cbn. split; [done|]. split; [done|]. split; [done|].
    unfold find_version. cbn [n_versions n_drafts n_groups].
    split; [by rewrite oget_oset_eq; cbn; rewrite oget_oset_eq|].
    split; [apply oget_odelete_eq|]. split; [done|]. split; [|split].
    + intros v' d' Hv'. apply bind_Some in Hv' as (vs' & Hvs & Hv').
      rewrite oget_oset_eq. cbn. subst vs. rewrite Hvs in *. cbn in *.
      rewrite oget_oset_ne; [done|]. intros <-. apply Hf, elem_of_okeys. eauto.
    + intros j v Hj. by rewrite oget_oset_ne by by apply not_eq_sym.
    + intros j Hj. by apply oget_odelete_ne, not_eq_sym.
Defined.
