(* ===== verification/GroupsExamples.v ===== *)
(** * Groups: a group with a navigation document

    The theorems about groups applied to one group of the daemon of [DaemonModel]. *)
From S2P Require Import Prelude.
From S2P Require Import JsString.
From S2P Require Import JsObject.
From S2P Require Import EntityId.
From S2P Require Import BlockTypes.
From S2P Require Import DraftDiff.
From S2P Require Import DocModel.
From S2P Require Import DraftDiffFacts.
From S2P Require Import DaemonApi.
From S2P Require Import DaemonModel.
From S2P Require Import Groups.
From S2P Require Import GroupsFacts.
From S2P Require Import GroupNavFacts.

Definition ex_embed : HMBlock :=
  {| b_id := "22"; b_type := "embed"; b_text := Some "";
     b_ref := Some "hm://d/welcome?b=g/team/intro"; b_annotations := Some [];
     b_attributes := Some [("view", "card")] |}.
Definition ex_heading : HMBlock :=
  {| b_id := "11"; b_type := "heading"; b_text := Some "Start"; b_ref := None;
     b_annotations := Some []; b_attributes := Some [] |}.
Definition ex_nav : ServerDoc :=
  {| s_tree := [("11", ""); ("22", "11")]; s_blocks := [("11", ex_heading); ("22", ex_embed)];
     s_title := "(HIDDEN) Group Navigation" |}.
Definition ex_content : obj string :=
  [("intro", "hm://d/welcome?v=w1"); ("_navigation", "hm://d/nav?v=n1")].
Definition ex_net : Net :=
  {| n_groups := [("hm://g/team", ex_content)]; n_drafts := [];
     n_versions := [("hm://d/nav", [("n1", ex_nav)])] |}.

Lemma ex_shown : shown ex_nav.
Proof. eexists. apply (render_shows 3). vm_compute. reflexivity. Qed.

Lemma ex_navigation : navigation ex_net ex_content ex_nav.
Proof. eapply Navigation; try (vm_compute; reflexivity). Qed.

Lemma ex_tree_ok : tree_ok (s_tree ex_nav).
Proof.
  split; try reflexivity. unfold owf. cbn. repeat (apply NoDup_cons; split); [set_solver..|].
  apply NoDup_nil_2.
Qed.

Lemma ex_navigable : navigable ex_net "hm://g/team" ex_content ex_nav.
Proof. split; [reflexivity|]. split; [apply ex_navigation|]. split; [apply ex_shown | apply ex_tree_ok]. Qed.

Lemma ex_refs id b : oget (s_blocks ex_nav) id = Some b → ref_ok b.
Proof.
  intros Hb%oget_Some_elem. cbn in Hb.
  apply elem_of_cons in Hb as [[= -> ->]|Hb]; [by intros ref|].
  apply list_elem_of_singleton in Hb. injection Hb as -> ->. intros ref [= <-].
  eexists. split; [vm_compute; reflexivity|]. intros u [= <-] _. eexists. by split.
Qed.

Lemma ex_group_id : group_id "hm://g/team".
Proof. by exists "team". Qed.

Lemma useRenameGroupDoc_spec_witness :
  ∃ s' c' d', useRenameGroupDoc "hm://g/team" "intro" "start" ex_net = (s', Ok "hm://d/welcome?v=w1") ∧
    content_of s' "hm://g/team" = Some c' ∧
    published_at c' "intro" = None ∧ published_at c' "start" = Some "hm://d/welcome?v=w1" ∧
    (∀ p, p ≠ "intro" → p ≠ "start" → p ≠ "_navigation" →
       published_at c' p = published_at ex_content p) ∧
    navigation s' c' d' ∧ renamed_doc "hm://g/team" "intro" "start" ex_nav d' ∧
    (∀ g', g' ≠ "hm://g/team" → content_of s' g' = content_of ex_net g').
Proof.
  apply (useRenameGroupDoc_spec ex_net "hm://g/team" "intro" "start" ex_content "hm://d/welcome?v=w1" ex_nav);
    try reflexivity; try discriminate.
  - exact ex_navigation.
  - exact ex_shown.
  - intros id b _. apply ex_refs.
  - exact ex_group_id.
Defined.

Lemma failed_command_keeps_content_witness :
  let r := useRenameGroupDoc "hm://g/team" "missing" "start" ex_net in
  r.2 = Err "Could not find previous path at missing" ∧
  ∀ g', content_of r.1 g' = content_of ex_net g'.
Proof.
  split; [vm_compute; reflexivity|].
  apply (proj1 (failed_command_keeps_content ex_net "hm://g/team" _
    "Could not find previous path at missing") "missing" "start"). vm_compute. reflexivity.
Defined.

Lemma ex_unused drawn : drawn = 7%N →
  oget (s_tree ex_nav) (createBlockID drawn) = None ∧
  (∀ x, oget (s_tree ex_nav) x ≠ Some (createBlockID drawn)).
Proof.
  intros ->. split; [reflexivity|]. intros x Hx%oget_Some_elem. cbn in Hx.
  apply elem_of_cons in Hx as [[=]|Hx]. apply list_elem_of_singleton in Hx. discriminate.
Qed.

Lemma useCreateGroupCategory_spec_witness :
  navigation_published ex_net "hm://g/team" ex_content
    (block_added "" "7" (λ b, b_type b = "heading" ∧ b_text b = Some "More") ex_nav)
    (useCreateGroupCategory 7 "hm://g/team" "More" ex_net).
Proof.
  apply (useCreateGroupCategory_spec ex_net "hm://g/team" ex_content ex_nav 7 "More").
  - exact ex_navigable.
  - exact (proj1 (ex_unused 7 eq_refl)).
  - exact (proj2 (ex_unused 7 eq_refl)).
Defined.

Lemma useAddToCategory_spec_witness :
  navigation_published ex_net "hm://g/team" ex_content
    (block_added "11" "7"
       (λ b, points_to "hm://g/team" "about" b (Some "story") ∧ block_attr b "view" = Some "card") ex_nav)
    (useAddToCategory 7 "hm://g/team" "about" "hm://d/story?v=s1" "11" ex_net).
Proof.
  eapply (useAddToCategory_spec ex_net "hm://g/team" ex_content ex_nav 7 "about" "hm://d/story?v=s1"
    _ "story" "11").
  - exact ex_navigable.
  - exact (proj1 (ex_unused 7 eq_refl)).
  - exact (proj2 (ex_unused 7 eq_refl)).
  - exact ex_group_id.
  - reflexivity.
  - vm_compute; reflexivity.
  - reflexivity.
  - reflexivity.
  - left.
Defined.

Lemma category_rearranged_witness :
  navigation_published ex_net "hm://g/team" ex_content
    (rearranged (λ q, List.filter (λ x, negb (String.eqb "22" x)) (children_in (s_tree ex_nav) q)) ex_nav)
    (useDeleteCategory "hm://g/team" "22" ex_net).
Proof.
  apply (category_rearranged ex_net "hm://g/team" ex_content ex_nav "22").
  - exact ex_navigable.
  - eapply visible_child; [apply visible_root; left | left].
Defined.

Lemma useRenameGroupCateogry_spec_witness :
  navigation_published ex_net "hm://g/team" ex_content
    (λ d', s_tree d' = s_tree ex_nav ∧ s_title d' = s_title ex_nav ∧
           oget (s_blocks d') "11" = Some (with_text ex_heading "Begin") ∧
           ∀ i, i ≠ "11" → oget (s_blocks d') i = oget (s_blocks ex_nav) i)
    (useRenameGroupCateogry "hm://g/team" "11" "Begin" ex_net).
Proof.
  apply (useRenameGroupCateogry_spec ex_net "hm://g/team" ex_content ex_nav "11" ex_heading).
  - exact ex_navigable.
  - apply visible_root. left.
  - reflexivity.
  - discriminate.
Defined.

(** A drawn number that is already a block of the document: that block is moved and
    its content replaced.  Creating a category with the number 22 loses the item 22. *)
Theorem drawn_id_collision :
  let r := useCreateGroupCategory 22 "hm://g/team" "More" ex_net in
  r.2 = Ok tt ∧
  option_map (λ d, (children_in (s_tree d) "", children_in (s_tree d) "11",
                    option_map b_type (oget (s_blocks d) "22")))
    (find_version r.1 "hm://d/nav" None) =
  Some (["11"; "22"], [], Some "heading").
Proof. split; vm_compute; reflexivity. Qed.
