(* ===== verification/GroupListFacts.v ===== *)
(** * The listings of groups: theorems

    The groups of a document are its newest placements, one per path; a group's content
    lists every entry once, newest first, with the publication of its version; and the
    inverted content answers where a version is published. *)
From S2P Require Import Prelude.
From S2P Require Import JsString.
From S2P Require Import JsObject.
From S2P Require Import EntityId.
From S2P Require Import BlockTypes.
From S2P Require Import Variants.
From S2P Require Import Groups.

(** ** The groups of a document *)

Lemma lacks_app_inj c a b x y :
  lacks c a = true → lacks c b = true → a +:+ String c x = b +:+ String c y → a = b ∧ x = y.
Proof.
  revert b. induction a as [|d a IH]; intros [|e b].
  - cbn. intros _ _ [= ->]. done.
  - rewrite lacks_cons. cbn. intros _ [He _]%andb_prop [= <- _].
    by rewrite Ascii.eqb_refl in He.
  - rewrite lacks_cons. cbn. intros [Hd _]%andb_prop _ [= -> _].
    by rewrite Ascii.eqb_refl in Hd.
  - rewrite !lacks_cons. cbn. intros [_ Ha]%andb_prop [_ Hb]%andb_prop [= -> He].
    destruct (IH b Ha Hb He) as [-> ->]. done.
Qed.

(** Where an item is: its group and its path. *)
Definition item_place (i : DocumentGroup) : string * string := (dg_groupId i, dg_path i).

Lemma group_item_key_inj i j :
  lacks "-" (dg_groupId i) = true → lacks "-" (dg_groupId j) = true →
  group_item_key i = group_item_key j ↔ item_place i = item_place j.
Proof.
  intros Hi Hj. unfold group_item_key, item_place. split.
  - intros He. apply lacks_app_inj in He as [-> ->]; done.
  - by intros [= -> ->].
Qed.

(** What the map holds after some items: for each key the newest. *)
Record newest_map (seen : list DocumentGroup) (m : obj DocumentGroup) : Prop := {
  nm_wf : owf m;
  nm_in k x : oget m k = Some x → x ∈ seen ∧ k = group_item_key x ∧ is_Some (dg_changeTime x);
  nm_newest y t : y ∈ seen → dg_changeTime y = Some t →
    ∃ x tx, oget m (group_item_key y) = Some x ∧ dg_changeTime x = Some tx ∧ (t <= tx)%N;
}.

Lemma newest_map_set seen m item t :
  newest_map seen m → dg_changeTime item = Some t →
  (∀ x tx, oget m (group_item_key item) = Some x → dg_changeTime x = Some tx → (tx <= t)%N) →
  newest_map (seen ++ [item]) (oset m (group_item_key item) item).
Proof.
  intros [Hwf Hin Hnew] Ht Hmax. split.
  - by apply owf_oset.
  - intros k x. rewrite oget_oset. destruct (String.eqb_spec (group_item_key item) k) as [<-|].
    + intros [= <-]. split; [set_solver|]. split; [done|]. by exists t.
    + intros (Hx & ? & ?)%Hin. split; [set_solver | done].
  - intros y ty Hy Hty. rewrite oget_oset.
    destruct (String.eqb_spec (group_item_key item) (group_item_key y)) as [He|He].
    + exists item, t. split; [done|]. split; [done|].
      apply elem_of_app in Hy as [Hy|Hy].
      * destruct (Hnew y ty Hy Hty) as (x & tx & Hx & Htx & Hle). rewrite <- He in Hx.
        specialize (Hmax x tx Hx Htx). lia.
      * apply list_elem_of_singleton in Hy as ->. simplify_eq. lia.
    + apply elem_of_app in Hy as [Hy|Hy]; [by apply Hnew|].
      by apply list_elem_of_singleton in Hy as ->.
Qed.

Lemma newest_map_keep seen m item t :
  newest_map seen m →
  (∀ t', dg_changeTime item = Some t' → ∃ x, oget m (group_item_key item) = Some x ∧
     dg_changeTime x = Some t ∧ (t' <= t)%N) →
  newest_map (seen ++ [item]) m.
Proof.
  intros [Hwf Hin Hnew] Hk. split; [done| |].
  - intros k x (Hx & ? & ?)%Hin. split; [set_solver | done].
  - intros y ty [Hy|Hy]%elem_of_app Hty; [by apply Hnew|]. apply list_elem_of_singleton in Hy as ->.
    destruct (Hk ty Hty) as (x & Hx & Htx & Hle). by exists x, t.
Qed.

Lemma keep_newest_ok seen m item :
  newest_map seen m → (∀ x, x ∈ seen → dg_changeTime x ≠ Some 0%N) →
  newest_map (seen ++ [item]) (keep_newest m item).
Proof.
  intros Hm Hz. unfold keep_newest. destruct (dg_changeTime item) as [t|] eqn:Ht.
  2: { apply (newest_map_keep _ _ _ 0%N); [done|]. congruence. }
  destruct (oget m (group_item_key item)) as [prev|] eqn:Hp.
  2: { apply (newest_map_set _ _ _ t); [done..|]. congruence. }
  destruct (nm_in _ _ Hm _ _ Hp) as (Hps & _ & [tp Htp]). rewrite Htp.
  destruct (N.eqb_spec tp 0) as [->|_]; [by destruct (Hz prev Hps)|].
  destruct (N.ltb_spec t tp) as [Hlt|Hle].
  - apply (newest_map_keep _ _ _ tp); [done|]. intros t' Ht'. exists prev. simplify_eq.
    split; [done|]. split; [done|]. lia.
  - apply (newest_map_set _ _ _ t); [done..|]. intros x tx Hx Htx. simplify_eq. lia.
Qed.

Lemma keep_newest_all items : (∀ x, x ∈ items → dg_changeTime x ≠ Some 0%N) →
  newest_map items (foldl keep_newest [] items).
Proof.
  induction items as [|x l IH] using rev_ind; intros Hz.
  - split; [constructor|done|]. by intros y t ?%elem_of_nil.
  - rewrite foldl_app. cbn. apply keep_newest_ok.
    + apply IH. intros y Hy. apply Hz. set_solver.
    + intros y Hy. apply Hz. set_solver.
Qed.

(** The groups of a document: for every group and path where the document has been
    published at a known time, [useDocumentGroups] returns exactly one item, the
    newest there, and nothing else. *)
Theorem useDocumentGroups_newest items :
  (∀ x, x ∈ items → dg_changeTime x ≠ Some 0%N ∧ lacks "-" (dg_groupId x) = true) →
  let out := useDocumentGroups items in
  NoDup (item_place <$> out) ∧
  (∀ x, x ∈ out → x ∈ items ∧ ∃ t, dg_changeTime x = Some t ∧
     ∀ y t', y ∈ items → item_place y = item_place x → dg_changeTime y = Some t' → (t' <= t)%N) ∧
  (∀ y, y ∈ items → is_Some (dg_changeTime y) → item_place y ∈ (item_place <$> out)).
Proof.
  intros Hok out.
  pose proof (keep_newest_all items (λ x Hx, proj1 (Hok x Hx))) as Hm.
  subst out. unfold useDocumentGroups. set (m := foldl keep_newest [] items) in *.
  destruct Hm as [Hwf Hin Hnew].
  assert (∀ k x, (k, x) ∈ m → k = group_item_key x ∧ x ∈ items ∧ is_Some (dg_changeTime x)) as Hent.
  { intros k x Hx. apply oget_elem in Hx; [|done]. destruct (Hin k x Hx) as (? & ? & ?). done. }
  assert (∀ x y, x ∈ items → y ∈ items →
            group_item_key x = group_item_key y ↔ item_place x = item_place y) as Hinj.
  { intros x y Hx Hy. apply group_item_key_inj; by apply Hok. }
  split; [|split].
  - unfold ovalues. rewrite <- list_fmap_compose. unfold owf, okeys in Hwf.
    assert (∀ l : obj DocumentGroup, (∀ e, e ∈ l → e ∈ m) → NoDup (l.*1) → NoDup ((item_place ∘ snd) <$> l)) as Hgen;
      [|by apply Hgen].
    induction l as [|[k x] l IH]; intros Hsub Hn; [constructor|]. cbn in *.
    apply NoDup_cons in Hn as [Hk Hn]. apply NoDup_cons. split; [|apply IH; [|done]; intros; apply Hsub; by right].
    intros Hx. apply list_elem_of_fmap in Hx as ([k' y] & He & Hy). cbn in He.
    destruct (Hent k x (Hsub _ ltac:(left))) as (-> & Hxi & _).
    destruct (Hent k' y (Hsub _ ltac:(by right))) as (-> & Hyi & _).
    apply Hinj in He; [|done..]. apply Hk. rewrite He.
    apply list_elem_of_fmap. by exists (group_item_key y, y).
  - intros x Hx. apply list_elem_of_fmap in Hx as ([k x'] & -> & Hx). cbn.
    destruct (Hent k x' Hx) as (-> & Hxi & [t Ht]). split; [done|]. exists t. split; [done|].
    intros y t' Hy He Hty. destruct (Hnew y t' Hy Hty) as (z & tz & Hz & Htz & Hle).
    apply Hinj in He; [|done..]. rewrite He in Hz. apply oget_elem in Hx; [|done].
    simplify_eq. done.
  - intros y Hy [t Ht]. destruct (Hnew y t Hy Ht) as (x & tx & Hx & _ & _).
    destruct (Hin _ _ Hx) as (Hxi & Hk & _). apply Hinj in Hk as ->; [|done..].
    apply list_elem_of_fmap. exists x. split; [done|].
    apply oget_Some_elem in Hx. apply list_elem_of_fmap. by exists (group_item_key y, x).
Qed.

Lemma useDocumentGroups_newest_witness :
  let item t path := {| dg_groupId := "hm://g/a"; dg_path := path; dg_changeTime := t;
                        dg_rawUrl := Some "hm://d/x?v=1" |} in
  let items := [item (Some 5%N) "p"; item None "q"; item (Some 9%N) "p"; item (Some 2%N) "r"] in
  useDocumentGroups items = [item (Some 9%N) "p"; item (Some 2%N) "r"] ∧
  NoDup (item_place <$> useDocumentGroups items).
Proof.
  split; [reflexivity|]. apply useDocumentGroups_newest.
  intros x Hx. repeat (apply elem_of_cons in Hx as [->|Hx]; [done|]). by apply elem_of_nil in Hx.
Defined.

(** ** The content of a group *)

Section content.
Context `{UrlApi}.

(** What an entry contributes to the inverted content: entity id and version. *)
Definition versioned_entry (e : string * string) (eid version : string) : Prop :=
  ∃ u, unpackHmId e.2 = Ok (Some u) ∧ undef_str (u_eid u) = eid ∧ u_version u = Some version ∧
       version ≠ "" ∧ e.2 ≠ "".

Definition path_of (inv : obj (obj string)) (eid version : string) : option string :=
  oget inv eid ≫= λ vs, oget vs version.

Lemma path_of_set inv eid version path eid' version' :
  path_of (oset inv eid (oset (default [] (oget inv eid)) version path)) eid' version' =
  if String.eqb eid eid' && String.eqb version version' then Some path else path_of inv eid' version'.
Proof.
  unfold path_of. rewrite oget_oset. destruct (String.eqb_spec eid eid') as [->|]; [|done]. cbn.
  rewrite oget_oset. destruct (String.eqb version version'); [done|]. by destruct (oget inv eid').
Qed.

Lemma invert_entry_spec inv e inv' :
  invert_entry inv e = Ok inv' →
  (∃ eid version, versioned_entry e eid version ∧
     ∀ i v, path_of inv' i v = if String.eqb eid i && String.eqb version v then Some e.1
                               else path_of inv i v) ∨
  ((∀ i v, ¬ versioned_entry e i v) ∧ inv' = inv).
Proof.
  unfold invert_entry. destruct (truthy e.2) eqn:Et; cbn [negb].
  2: { intros [= <-]. right. split; [|done]. intros i v (u & _ & _ & _ & _ & He).
       apply truthy_spec in He. congruence. }
  destruct (unpackHmId e.2) as [[u|]|] eqn:Eu; cbn [rbind]; [| |done].
  2: { intros [= <-]. right. split; [|done]. intros i v (u & Hu & _). congruence. }
  destruct (otruthy (u_version u)) eqn:Ev.
  - intros [= <-]. left. destruct (u_version u) as [v|] eqn:Euv; [|done].
    cbn [otruthy] in Ev. apply truthy_spec in Ev, Et. exists (undef_str (u_eid u)), v. split.
    + exists u. done.
    + intros i v'. cbn [default from_option id]. apply path_of_set.
  - intros [= <-]. right. split; [|done]. intros i v (u' & Hu & _ & Hv & Hne & _).
    assert (u' = u) as -> by congruence. rewrite Hv in Ev. apply truthy_spec in Hne.
    cbn in Ev. congruence.
Qed.

(** The last entry of the content that names an entity's version. *)
Definition last_entry (content : obj string) (eid version : string) (r : option string) : Prop :=
  match r with
  | Some path => ∃ before after e, content = before ++ e :: after ∧ e.1 = path ∧
      versioned_entry e eid version ∧ ∀ e', e' ∈ after → ¬ versioned_entry e' eid version
  | None => ∀ e, e ∈ content → ¬ versioned_entry e eid version
  end.

Lemma last_entry_skip content e eid version r :
  last_entry content eid version r → ¬ versioned_entry e eid version →
  last_entry (content ++ [e]) eid version r.
Proof.
  intros Hl Hn. destruct r as [path|].
  - destruct Hl as (b & a & e0 & -> & ? & ? & Ha). exists b, (a ++ [e]), e0.
    split; [by rewrite <- (assoc_L (++))|]. split; [done|]. split; [done|].
    intros e' [?|?%list_elem_of_singleton]%elem_of_app; [by apply Ha | by subst].
  - intros e' [?|?%list_elem_of_singleton]%elem_of_app; [by apply Hl | by subst].
Qed.
Lemma last_entry_take content e eid version :
  versioned_entry e eid version → last_entry (content ++ [e]) eid version (Some e.1).
Proof. intros He. exists content, [], e. split_and!; [done..|]. by intros e' ?%elem_of_nil. Qed.

(** The inverted content of a group answers where a version of a document is
    published: looking up its entity id and version finds the last path whose entry
    names them, and finds nothing when none does. *)
Theorem useInvertedGroupContent_spec content inv eid version :
  useInvertedGroupContent (Some content) = Ok inv →
  last_entry content eid version (path_of inv eid version).
Proof.
  unfold useInvertedGroupContent. cbn [default from_option id]. revert inv.
  induction content as [|e content IH] using rev_ind; intros inv.
  { cbn. intros [= <-]. cbn. by intros e ?%elem_of_nil. }
  rewrite fold_result_app. destruct (fold_result invert_entry [] content) as [inv0|] eqn:E0; [|done].
  cbn [rbind fold_result]. destruct (invert_entry inv0 e) as [inv1|] eqn:E1; cbn [rbind]; [|done].
  intros [= ->]. specialize (IH inv0 eq_refl).
  destruct (invert_entry_spec _ _ _ E1) as [(i & v & Hve & Hp)|[Hno ->]];
    [rewrite Hp | by apply last_entry_skip].
  destruct (String.eqb_spec i eid) as [->|Hi]; destruct (String.eqb_spec v version) as [->|Hv]; cbn [andb];
    [by apply last_entry_take | apply last_entry_skip..]; try done.
  all: intros (u & Hu & ? & ? & _); destruct Hve as (u' & Hu' & ? & ? & _); congruence.
Qed.
End content.

Lemma useInvertedGroupContent_spec_witness :
  let content := [("a", "hm://d/x?v=1"); ("b", "hm://d/y"); ("c", "hm://d/x?v=1"); ("d", "hm://d/x?v=2")] in
  ∃ inv, useInvertedGroupContent (Some content) = Ok inv ∧ path_of inv "x" "1" = Some "c" ∧
         last_entry content "x" "1" (path_of inv "x" "1").
Proof.
  eexists. split; [vm_compute; reflexivity|]. split; [reflexivity|].
  apply useInvertedGroupContent_spec. vm_compute. reflexivity.
Defined.

(** ** Every entry of the content *)

Section items.
Context `{UrlApi} `{!UrlApiLaws} {A : Type} (date_ms : string → option Z).
Context (publication_data : string → option string → option HMPublication).
Context (accounts : option (list (string * A))).

(** The daemon answers a query with the document and version it asks for. *)
Definition honest : Prop :=
  ∀ q v p, publication_data q v = Some p →
    p_document p ≫= d_id = Some q ∧ (∀ v', v = Some v' → p_version p = Some v').

(** An entry for a version of a document. *)
Definition document_entry (u : UnpackedHypermediaId) : Prop :=
  ∃ e, u_type u = "d" ∧ u_eid u = Some e ∧ clean_ne e = true ∧ u_qid u = "hm://d/" +:+ e.

Lemma content_query_document k u :
  document_entry u → content_query (k, u) = Ok (u_qid u, or_null (u_version u)).
Proof.
  intros (e & _ & He & Hc & ->). unfold content_query. cbn [snd]. rewrite He. cbn [undef_str from_option id default].
  by rewrite createHmId_no_opts.
Qed.

Lemma entry_pub_some pubs u p :
  entry_pub pubs u = Some p → p_document p ≫= d_id = Some (u_qid u) ∧ p_version p = u_version u ∧
                              is_Some (u_version u).
Proof.
  unfold entry_pub. destruct (find (is_entry_pub u) pubs) as [o|] eqn:Ef; [|done].
  apply find_some in Ef as [_ Hf]. cbn. intros ->. unfold is_entry_pub in Hf. cbn in Hf.
  bool_simpl. split; [done|]. split; [done|].
  match goal with H1 : is_Some _, H2 : p_version p = _ |- _ => by rewrite <- H2 end.
Qed.

Lemma entry_pub_loaded pubs u p :
  Some p ∈ pubs → p_document p ≫= d_id = Some (u_qid u) → p_version p = u_version u →
  is_Some (u_version u) → is_Some (entry_pub pubs u).
Proof.
  intros Hin Hid Hv Hs. unfold entry_pub. destruct (find (is_entry_pub u) pubs) as [o|] eqn:Ef.
  - apply find_some in Ef as [_ Hf]. destruct o as [q|]; [by eexists|].
    unfold is_entry_pub in Hf. cbn in Hf. by bool_simpl.
  - apply list_elem_of_In in Hin. pose proof (find_none _ _ Ef _ Hin) as Hf.
    unfold is_entry_pub in Hf. cbn in Hf. rewrite Hid, Hv in Hf.
    rewrite !bool_decide_eq_true_2 in Hf by done. done.
Qed.

(** The items of a group: every entry of the content once; newest first when all the
    publication times are known; and an entry for a version carries that version's
    publication exactly when it has been loaded, while an entry without a version
    never carries one. *)
Theorem useFullGroupContent_spec content entries items :
  honest → content_entries content = Ok entries →
  (∀ e, e ∈ entries → document_entry e.2 ∧ u_version e.2 ≠ Some "") →
  useFullGroupContent date_ms publication_data accounts (Some content) = Ok items →
  ((λ i, (gi_key i, gi_id i)) <$> items) ≡ₚ entries ∧
  ((∀ i, i ∈ items → publish_ms date_ms (gi_pub i) ≠ 0%Z) →
   StronglySorted (λ a b, (publish_ms date_ms (gi_pub b) <= publish_ms date_ms (gi_pub a))%Z) items) ∧
  ∀ i, i ∈ items →
    match u_version (gi_id i) with
    | None => gi_pub i = None
    | Some v =>
        match gi_pub i with
        | Some p => p_document p ≫= d_id = Some (u_qid (gi_id i)) ∧ p_version p = Some v
        | None => publication_data (u_qid (gi_id i)) (Some v) = None
        end
    end.
Proof.
  intros Hh He Hok Hi. unfold useFullGroupContent in Hi. cbn [default from_option id] in Hi.
  rewrite He in Hi. cbn [rbind] in Hi.
  assert (map_result content_query entries = Ok ((λ e, (u_qid e.2, or_null (u_version e.2))) <$> entries)) as Hq.
  { apply map_result_ok, Forall2_fmap_r, Forall_Forall2_diag, Forall_forall.
    intros [k u] Hin. destruct (Hok _ Hin) as [Hd _]. by apply content_query_document. }
  rewrite Hq in Hi. cbn [rbind] in Hi. injection Hi as <-. rewrite <- list_fmap_compose.
  set (pubs := ((λ q, publication_data q.1 q.2) ∘ (λ e, (u_qid e.2, or_null (u_version e.2)))) <$> entries).
  match goal with |- context [js_sort _ (?f <$> entries)] => set (its := f <$> entries) end.
  assert (∀ i, i ∈ js_sort (item_order date_ms) its ↔ i ∈ its) as Hel
    by (intros i; by rewrite (js_sort_Permutation (item_order date_ms) its)).
  split; [|split].
  - rewrite (js_sort_Permutation (item_order date_ms) its). subst its. rewrite <- list_fmap_compose.
    apply reflexive_eq. rewrite <- (list_fmap_id entries) at 2. apply list_fmap_ext. by intros i [k u] _.
  - intros Hne. apply js_sort_desc. intros x y Hx Hy. unfold item_order.
    apply Hel, Hne, Z.eqb_neq in Hx as ->. by apply Hel, Hne, Z.eqb_neq in Hy as ->.
  - intros i Hin%Hel. apply list_elem_of_fmap in Hin as ([k u] & -> & Hin). cbn [gi_id gi_pub snd].
    destruct (Hok _ Hin) as [_ Hne]. cbn [snd] in Hne.
    destruct (entry_pub pubs u) as [p|] eqn:Ep.
    + apply entry_pub_some in Ep as (Hid & Hv & [v Hs]). rewrite Hs in Hv |- *. done.
    + destruct (u_version u) as [v|] eqn:Ev; [|done].
      destruct (publication_data (u_qid u) (Some v)) as [p|] eqn:Ed; [|done].
      destruct (Hh _ _ _ Ed) as [Hid Hv]. specialize (Hv v eq_refl).
      destruct (entry_pub_loaded pubs u p) as [? ?]; [|done|congruence|by eexists|congruence].
      subst pubs. apply list_elem_of_fmap. exists (k, u). split; [|done]. cbn. rewrite Ev.
      unfold or_null, js_or. rewrite otruthy_Some by congruence. done.
Qed.
End items.

Definition ex_pub (q v t : string) : HMPublication :=
  {| p_document := Some {| d_title := None; d_id := Some q; d_author := Some "ann"; d_editors := [];
       d_children := None; d_createTime := None; d_updateTime := None; d_publishTime := Some t;
       d_version := None; d_previousVersion := None |};
     p_version := Some v |}.
(** A daemon with version [1] of [x] and version [2] of [y], and dates read as numbers. *)
Definition ex_data (q : string) (v : option string) : option HMPublication :=
  if String.eqb q "hm://d/x" && bool_decide (v = Some "1") then Some (ex_pub q "1" "10")
  else if String.eqb q "hm://d/y" && bool_decide (v = Some "2") then Some (ex_pub q "2" "20")
  else None.
Definition ex_date (s : string) : option Z := Z.of_N <$> digits_value s.

Lemma useFullGroupContent_spec_witness :
  let content := [("a", "hm://d/x?v=1"); ("b", "hm://d/y?v=2"); ("c", "hm://d/y")] in
  ∃ entries (items : list (GroupItem string)),
    content_entries content = Ok entries ∧
    useFullGroupContent ex_date ex_data None (Some content) = Ok items ∧
    (gi_key <$> items) = ["b"; "a"; "c"] ∧
    ((λ i, (gi_key i, gi_id i)) <$> items) ≡ₚ entries.
Proof.
  eexists _, _. split; [vm_compute; reflexivity|]. split; [vm_compute; reflexivity|].
  split; [reflexivity|].
  apply (useFullGroupContent_spec (A := string) ex_date ex_data None
    [("a", "hm://d/x?v=1"); ("b", "hm://d/y?v=2"); ("c", "hm://d/y")]).
  - intros q v p. unfold ex_data. destruct (String.eqb_spec q "hm://d/x") as [->|]; cbn [andb].
    + case_bool_decide as Hv; [|done]. intros [= <-]. subst v. split; [done|]. by intros v' [= <-].
    + destruct (String.eqb_spec q "hm://d/y") as [->|]; cbn [andb]; [|done].
      case_bool_decide as Hv; [|done]. intros [= <-]. subst v. split; [done|]. by intros v' [= <-].
  - vm_compute. reflexivity.
  - intros e He. repeat (apply elem_of_cons in He as [->|He];
      [split; [eexists; repeat split; reflexivity | discriminate]|]). by apply elem_of_nil in He.
  - vm_compute. reflexivity.
Defined.
