(* ===== verification/Publishing.v ===== *)
(** * Publishing a draft

    [usePublishDraft] of [packages/app/models/documents.ts]: publishing, and putting the
    new version in the account's profile or at a path of a group.  The state is the
    daemon's and the application's record of first publications
    ([app-welcoming.ts], [Stores.Settings]). *)
From S2P Require Import Prelude.
From S2P Require Import JsString.
From S2P Require Import JsObject.
From S2P Require Import EntityId.
From S2P Require Import BlockTypes.
From S2P Require Import Routes.
From S2P Require Import ContentTree.
From S2P Require Import Stores.
From S2P Require Import DaemonApi.
From S2P Require Import Groups.
From S2P Require Import DocModel.
From S2P Require Import GroupsFacts.
From S2P Require Import DaemonModel.
From S2P Require Import GroupsExamples.

Import Settings.

Record PublishResult : Type := {
  pr_pub : HMPublication;
  pr_groupVariant : option GroupVariantRef;
  pr_isFirstPublish : bool;
  pr_isProfileDocument : bool;
}.

(** What the component has loaded when the mutation runs: the route of the window, the
    root document of the account, the content of the variant's group, and the title of
    the draft in the query cache. *)
Record PublishContext : Type := {
  pc_route : option BaseDraftRoute;
  pc_rootDocument : option string;
  pc_groupContent : option (obj string);
  pc_draftTitle : option string;
}.

Definition pc_variant (x : PublishContext) : option GroupVariantRef := pc_route x ≫= rd_variant.

(** [===] of two missing values is true. *)
Definition isProfileDocument (x : PublishContext) : bool :=
  default false (pc_route x ≫= rd_isProfileDocument)
  || bool_decide (pc_rootDocument x = pc_route x ≫= rd_draftId).

Section publish.
Context `{UrlApi} {S : Type} `{Daemon S}.
(** [grpcClient.accounts.updateProfile] with a root document, and the diagnosis log. *)
Variable updateProfile : string → call S unit.
Variable diagnosis_complete : string → result unit.

(** [prevGroupVariantId]: what the path held, as far as the listing is loaded.  It is
    computed when the component renders; a failure there means that the mutation does
    not run. *)
Definition prevGroupVariantId (x : PublishContext) :
    result (option (UnpackedHypermediaId * string)) :=
  let url :=
    pc_variant x ≫= λ v, or_null (gv_pathName v) ≫= λ p, pc_groupContent x ≫= λ c, oget c p in
  if otruthy url then unpackDocId (default "" url) else Ok None.

Definition on_daemon {A} (c : call S A) : call (S * Welcoming) A := λ s,
  let '(s', r) := c s.1 in ((s', s.2), r).
Definition mark_published : call (S * Welcoming) bool := λ s,
  let '(w, first) := markDocPublish s.2 in ((s.1, w), Ok first).

Definition usePublishDraft (x : PublishContext) (draftId : string) :
    call (S * Welcoming) PublishResult :=
  await* prev := c_lift (prevGroupVariantId x) in
  await* pub := on_daemon (publishDraft draftId) in
  await* _ := c_lift (diagnosis_complete draftId) in
  await* isFirstPublish := mark_published in
  let publishedId := p_document pub ≫= d_id in
  if negb (otruthy publishedId) then c_throw "Could not get ID of published document"
  else
    let version := default "" (p_version pub) in
    let groupVariantChanged :=
      negb (bool_decide (publishedId = snd <$> prev)) ||
      negb (bool_decide (Some version = (prev ≫= λ p, u_version p.1))) in
    let id := default "" publishedId in
    let publishedDocId := id +:+ "?v=" +:+ version in
    let done variant :=
      c_ret {| pr_pub := pub; pr_groupVariant := variant; pr_isFirstPublish := isFirstPublish;
               pr_isProfileDocument := isProfileDocument x |} in
    if isProfileDocument x then
      if bool_decide (pc_rootDocument x = publishedId) then done (pc_variant x)
      else
        await* _ := on_daemon (updateProfile id) in
        done (pc_variant x)
    else
      match pc_variant x, groupVariantChanged with
      | Some v, true =>
          await* publishPathName :=
            if otruthy (gv_pathName v) then c_ret (default "" (gv_pathName v))
            else c_lift (getDefaultShortname (pc_draftTitle x) id) in
          if truthy publishPathName then
            await* _ := on_daemon (updateGroup
              (content_update (gv_groupId v) [(publishPathName, publishedDocId)])) in
            done (Some {| gv_groupId := gv_groupId v; gv_pathName := Some publishPathName |})
          else done (Some v)
      | variant, _ => done variant
      end.
End publish.

(** * Publishing a draft: theorems

    Publishing a draft of a group variant makes it a version and lists that version at
    the variant's path, unless the path already lists it; and the title of a document
    may leave it without a path. *)

Import Settings.

Section publishing.
Context `{UrlApi} `{!UrlApiLaws} {S : Type} `{D : Daemon S} `{!DaemonLaws S}.

(** The id of a version as the program writes it. *)
Lemma version_url e v :
  clean_ne e = true → clean v = true → v ≠ "" →
  ∃ u, unpackHmId (("hm://d/" +:+ e) +:+ "?v=" +:+ v) = Ok (Some u) ∧ u_type u = "d" ∧
    u_eid u = Some e ∧ u_qid u = "hm://d/" +:+ e ∧ u_version u = Some v.
Proof.
  intros He Hv Hne.
  pose proof (unpackHmId_parts "d" e None [("v", Some v)] None None) as Hu. cbn zeta in Hu.
  assert (url_of "hm" (path_segs "d" e None) [("v", Some v)] None None =
          ("hm://d/" +:+ e) +:+ "?v=" +:+ v) as Heq.
  { unfold url_of, path_segs. cbn. by rewrite ?str_app_nil_r, ?str_app_assoc. }
  rewrite Heq in Hu. rewrite Hu; clear Hu; try done.
  - cbn. eexists. split; [done|]. done.
  - constructor; [|constructor]. split; [done|]. split; [done|]. cbn.
    unfold query_clean. apply (str_all_impl is_clean); [|done].
    intros c Hc. unfold is_query_char. by rewrite Hc.
  - change (lacks ":" ("v=" +:+ v) = true). rewrite lacks_app. by rewrite (clean_lacks ":" v).
Qed.

(** The id of a version of a document, as a listed path holds it. *)
Definition names_version (url i v : string) : Prop :=
  ∃ u, unpackHmId url = Ok (Some u) ∧ u_type u = "d" ∧ u_qid u = i ∧ u_version u = Some v.

(** What the path held before, when it held something: the id of a document. *)
Definition previous_ok (c : obj string) (path : string) : Prop :=
  ∀ url, published_at c path = Some url →
    ∃ u e, unpackHmId url = Ok (Some u) ∧ u_type u = "d" ∧ u_eid u = Some e ∧ clean_ne e = true.

Lemma unpackDocId_document url u e :
  unpackHmId url = Ok (Some u) → u_type u = "d" → u_eid u = Some e → clean_ne e = true →
  unpackDocId url = Ok (Some (u, "hm://d/" +:+ e)).
Proof.
  intros Hu Ht He Hc. unfold unpackDocId. rewrite Hu. cbn [rbind]. rewrite Ht, He.
  pose proof Hc as [_ Hne]%clean_ne_spec. rewrite otruthy_Some by done.
  change (String.eqb "d" "d") with true. cbn [negb].
  change (undef_str (Some e)) with e. by rewrite createHmId_no_opts.
Qed.

Context (updateProfile : string → call S unit) (diagnosis_complete : string → result unit).
Abbreviation publish := (usePublishDraft updateProfile diagnosis_complete).

Lemma on_daemon_ok {A} (c : call S A) s w s' a :
  c s = (s', Ok a) → on_daemon c (s, w) = ((s', w), Ok a).
Proof. unfold on_daemon. cbn. by intros ->. Qed.
Lemma mark_published_ok (s : S) w :
  mark_published (s, w) = ((s, (markDocPublish w).1), Ok (markDocPublish w).2).
Proof. unfold mark_published. cbn. by destruct (markDocPublish w). Qed.

Lemma prevGroupVariantId_ok x g path c :
  pc_variant x = Some {| gv_groupId := g; gv_pathName := Some path |} → path ≠ "" →
  pc_groupContent x = Some c → previous_ok c path →
  ∃ prev, prevGroupVariantId x = Ok prev ∧
    match published_at c path, prev with
    | Some url, Some (u, docId) => unpackHmId url = Ok (Some u) ∧ u_type u = "d" ∧ docId = u_qid u
    | None, None => True
    | _, _ => False
    end.
Proof.
  intros Hv Hp Hc Hprev. unfold prevGroupVariantId. rewrite Hv. cbn [mbind option_bind gv_pathName].
  assert (or_null (Some path) = Some path) as -> by (unfold or_null, js_or; by rewrite otruthy_Some).
  cbn [mbind option_bind]. rewrite Hc. cbn [mbind option_bind].
  unfold previous_ok, published_at, or_null, js_or in *.
  destruct (oget c path) as [url|]; [|by exists None]. cbn [otruthy] in *.
  destruct (truthy url) eqn:Et; [|by exists None].
  destruct (Hprev url eq_refl) as (u & e & Hu & Ht & He & Hcl).
  exists (Some (u, "hm://d/" +:+ e)). split; [by apply unpackDocId_document|].
  split; [done|]. split; [done|]. symmetry. by apply (unpack_qid url).
Qed.

(** C31. Publishing a draft that belongs to a path of a group: the draft becomes a
    version with its content and is gone; afterwards the path lists exactly that
    version of the document, whether or not it already did, and no other path of any
    group changes; the result says whether this was the first publication. *)
Theorem usePublishDraft_spec s w x e d g path c :
  clean_ne e = true → draft_of s ("hm://d/" +:+ e) = Some d →
  pc_variant x = Some {| gv_groupId := g; gv_pathName := Some path |} → path ≠ "" →
  isProfileDocument x = false →
  content_of s g = Some c → pc_groupContent x = Some c → previous_ok c path →
  diagnosis_complete ("hm://d/" +:+ e) = Ok tt →
  ∃ s' r v c' url,
    publish x ("hm://d/" +:+ e) (s, w) = ((s', (markDocPublish w).1), Ok r) ∧
    pr_isFirstPublish r = (markDocPublish w).2 ∧
    pr_groupVariant r = Some {| gv_groupId := g; gv_pathName := Some path |} ∧
    p_version (pr_pub r) = Some v ∧ version_of s' ("hm://d/" +:+ e) (Some v) = Some d ∧
    draft_of s' ("hm://d/" +:+ e) = None ∧
    content_of s' g = Some c' ∧ published_at c' path = Some url ∧
    names_version url ("hm://d/" +:+ e) v ∧
    (∀ p, p ≠ path → published_at c' p = published_at c p) ∧
    (∀ g', g' ≠ g → content_of s' g' = content_of s g').
Proof.
  intros He Hd Hvar Hpath Hprof Hc Hgc Hprev Hdiag. unfold usePublishDraft.
  destruct (prevGroupVariantId_ok x g path c Hvar Hpath Hgc Hprev) as (prev & Hp & Hpp).
  rewrite (c_bind_lift _ _ _ _ Hp).
  destruct (publishDraft_law s _ d Hd) as
    (s1 & pd & v & Hpub & Hpid & Hvc & Hvn & Hver & Hgone & Hc1 & _).
  rewrite (c_bind_ok _ _ _ _ _ (on_daemon_ok _ _ _ _ _ Hpub)), (c_bind_lift _ _ _ _ Hdiag).
  rewrite (c_bind_ok _ _ _ _ _ (mark_published_ok s1 w)). cbn [p_document p_version mbind option_bind].
  rewrite Hpid. change (otruthy (Some ("hm://d/" +:+ e))) with true. cbn [negb].
  change (default "" (Some ?z)) with z. rewrite Hprof, Hvar. cbn [gv_pathName gv_groupId].
  assert (or_null (Some (("hm://d/" +:+ e) +:+ "?v=" +:+ v)) = Some (("hm://d/" +:+ e) +:+ "?v=" +:+ v))
    as Hor by done.
  destruct (version_url e v He Hvc Hvn) as (u & Hu & Hut & Hue & Huq & Huv).
  destruct (negb (bool_decide (Some ("hm://d/" +:+ e) = snd <$> prev)) || _) eqn:Hchanged.
  - rewrite otruthy_Some by done. change (default "" (Some path)) with path.
    rewrite (c_bind_ok (c_ret path) _ _ _ _ eq_refl). apply truthy_spec in Hpath as Htp. rewrite Htp.
    destruct (updateGroup_law s1 g [(path, ("hm://d/" +:+ e) +:+ "?v=" +:+ v)] c) as
      (s2 & c' & Hup & Hc' & Hpc & Hoth & Hdr & Hvv).
    + by rewrite Hc1.
    + eexists path, _. split; [cbn; by rewrite String.eqb_refl|]. rewrite Hor. intros Heq.
      rewrite Heq in Hpp. destruct prev as [[u' i]|]; [|done].
      destruct Hpp as (Hu' & _ & ->). rewrite Hu in Hu'. injection Hu' as <-.
      cbn [fmap option_fmap option_map snd mbind option_bind fst] in Hchanged.
      rewrite Huq, Huv, !bool_decide_eq_true_2 in Hchanged by done. done.
    + rewrite (c_bind_ok _ _ _ _ _ (on_daemon_ok _ _ _ _ _ Hup)). cbn [c_ret].
      eexists s2, _, v, c', _. split; [done|]. cbn [pr_isFirstPublish pr_groupVariant pr_pub p_version].
      split; [done|]. split; [done|]. split; [done|]. split; [by rewrite Hvv|]. split; [by rewrite Hdr|].
      split; [done|]. cbn [oget] in Hpc. split; [by rewrite Hpc, String.eqb_refl|].
      split; [by exists u|]. split.
      * intros p Hpne%String.eqb_neq. by rewrite Hpc, Hpne.
      * intros g' Hg'. by rewrite Hoth.
  - apply orb_false_iff in Hchanged as [Hi Hv]. bool_simpl.
    destruct prev as [[u' i]|]; [|done]. cbn [fmap option_fmap option_map snd fst mbind option_bind] in Hi, Hv.
    assert (i = "hm://d/" +:+ e) as -> by congruence.
    destruct (published_at c path) as [url|] eqn:Epub; [|done]. destruct Hpp as (Hu' & Ht' & Hiq).
    eexists s1, _, v, c, url. split; [done|]. cbn [pr_isFirstPublish pr_groupVariant pr_pub p_version].
    split_and!; try done.
    + by rewrite Hc1.
    + exists u'. split_and!; try done.
Qed.

(** A document without a title that makes a path is published without being listed:
    when the variant has no path and the title has no character of a path, nothing of
    any group changes. *)
Theorem publish_without_path s w x e d g :
  clean_ne e = true → draft_of s ("hm://d/" +:+ e) = Some d →
  pc_variant x = Some {| gv_groupId := g; gv_pathName := None |} →
  isProfileDocument x = false → otruthy (pc_draftTitle x) = true →
  pathNameify (default "" (pc_draftTitle x)) = "" →
  diagnosis_complete ("hm://d/" +:+ e) = Ok tt →
  ∃ s' r, publish x ("hm://d/" +:+ e) (s, w) = ((s', (markDocPublish w).1), Ok r) ∧
    ∀ g', content_of s' g' = content_of s g'.
Proof.
  intros He Hd Hvar Hprof Ht Hpn Hdiag. unfold usePublishDraft.
  assert (prevGroupVariantId x = Ok None) as Hp by (unfold prevGroupVariantId; by rewrite Hvar).
  rewrite (c_bind_lift _ _ _ _ Hp).
  destruct (publishDraft_law s _ d Hd) as (s1 & pd & v & Hpub & Hpid & _ & _ & _ & _ & Hc1 & _).
  rewrite (c_bind_ok _ _ _ _ _ (on_daemon_ok _ _ _ _ _ Hpub)), (c_bind_lift _ _ _ _ Hdiag).
  rewrite (c_bind_ok _ _ _ _ _ (mark_published_ok s1 w)). cbn [p_document p_version mbind option_bind].
  rewrite Hpid. change (otruthy (Some ("hm://d/" +:+ e))) with true. cbn [negb].
  change (default "" (Some ?z)) with z. rewrite Hprof, Hvar. cbn [gv_pathName gv_groupId otruthy].
  cbn [fmap option_fmap option_map]. rewrite bool_decide_eq_false_2 by done. cbn [negb orb].
  assert (getDefaultShortname (pc_draftTitle x) ("hm://d/" +:+ e) = Ok "") as Hs.
  { unfold getDefaultShortname.
    destruct (createHmId_unpack "d" e no_opts) as (b & Hcr & Hu); [done|done|by repeat split|].
    rewrite (createHmId_no_opts "d" e eq_refl He) in Hcr. apply Ok_inj in Hcr. rewrite <- Hcr in Hu.
    change ("hm://" +:+ "d" +:+ "/" +:+ e) with ("hm://d/" +:+ e) in Hu.
    rewrite (unpackDocId_document _ _ e Hu) by done. cbn [rbind]. rewrite Ht, Hpn. done. }
  rewrite (c_bind_lift _ _ _ _ Hs). cbn [truthy]. eexists s1, _. split; [done|]. exact Hc1.
Qed.
End publishing.

(** ** An instance *)

Definition pub_context (title : option string) (path : option string) : PublishContext :=
  {| pc_route := Some {| rd_draftId := Some "hm://d/welcome";
                         rd_variant := Some {| gv_groupId := "hm://g/team"; gv_pathName := path |};
                         rd_isProfileDocument := None |};
     pc_rootDocument := None; pc_groupContent := Some ex_content; pc_draftTitle := title |}.
Definition pub_net : Net :=
  {| n_groups := n_groups ex_net; n_drafts := [("hm://d/welcome", ex_nav)];
     n_versions := n_versions ex_net |}.
Definition new_account : Welcoming := {| hasPublished := false; isProbablyNewAccount := true |}.

Lemma usePublishDraft_spec_witness :
  ∃ s' r v c' url,
    usePublishDraft (S := Net) (λ _, c_ret tt) (λ _, Ok tt) (pub_context None (Some "intro"))
      "hm://d/welcome" (pub_net, new_account) =
      ((s', (markDocPublish new_account).1), Ok r) ∧
    pr_isFirstPublish r = true ∧
    pr_groupVariant r = Some {| gv_groupId := "hm://g/team"; gv_pathName := Some "intro" |} ∧
    p_version (pr_pub r) = Some v ∧ version_of s' "hm://d/welcome" (Some v) = Some ex_nav ∧
    draft_of s' "hm://d/welcome" = None ∧
    content_of s' "hm://g/team" = Some c' ∧ published_at c' "intro" = Some url ∧
    names_version url "hm://d/welcome" v ∧
    (∀ p, p ≠ "intro" → published_at c' p = published_at ex_content p) ∧
    (∀ g', g' ≠ "hm://g/team" → content_of s' g' = content_of pub_net g').
Proof.
  apply (usePublishDraft_spec (S := Net) (λ _, c_ret tt) (λ _, Ok tt) pub_net new_account
    (pub_context None (Some "intro")) "welcome" ex_nav "hm://g/team" "intro" ex_content);
    try reflexivity; try discriminate.
  intros url [= <-]. eexists _, "welcome". split; [vm_compute; reflexivity|]. split_and!; reflexivity.
Defined.

Lemma publish_without_path_witness :
  ∃ s' r, usePublishDraft (S := Net) (λ _, c_ret tt) (λ _, Ok tt) (pub_context (Some "!?") None)
      "hm://d/welcome" (pub_net, new_account) = ((s', (markDocPublish new_account).1), Ok r) ∧
    ∀ g', content_of s' g' = content_of pub_net g'.
Proof.
  apply (publish_without_path (S := Net) (λ _, c_ret tt) (λ _, Ok tt) pub_net new_account
    (pub_context (Some "!?") None) "welcome" ex_nav "hm://g/team"); reflexivity.
Defined.
