(* ===== verification/NodeConvert.v ===== *)
(** * Editor blocks to ProseMirror nodes and back

    [packages/editor/src/blocknote/core/api/nodeConversions/nodeConversions.ts] and
    [getBlockInfo] of extensions/Blocks/helpers/getBlockInfoFromPos.ts.  The editor
    holds a document as a tree of ProseMirror nodes; the rest of the program sees
    blocks with inline content.  ProseMirror is a library: its nodes are the data
    [PNode], and the operations of a schema are the class [Schema]. *)
From S2P Require Import Prelude.
From S2P Require Import JsString.
From S2P Require Import JsObject.
From S2P Require Import DaemonApi.

(** ** Values, marks and nodes *)

(** The values of attributes, style entries and props. *)
Inductive AttrVal : Type :=
| VUndef
| VNull
| VTrue
| VStr (s : string)
| VNum (n : Z).
#[export] Instance AttrVal_eq_dec : EqDecision AttrVal.
Proof. solve_decision. Defined.
Abbreviation Attrs := (obj AttrVal).

(** [o.key] *)
Definition attr (o : Attrs) (key : string) : AttrVal := default VUndef (oget o key).

(** [if (v)]; the number 0 and the empty string are falsy. *)
Definition val_truthy (v : AttrVal) : bool :=
  match v with
  | VUndef | VNull => false
  | VTrue => true
  | VStr s => truthy s
  | VNum n => negb (n =? 0)%Z
  end.

Record Mark : Type := { m_type : string; m_attrs : Attrs }.
#[export] Instance Mark_eq_dec : EqDecision Mark.
Proof. solve_decision. Defined.

(** A text node, or a node with its type's name, attributes, content and marks. *)
Inductive PNode : Type :=
| PText (text : string) (marks : list Mark)
| PElem (type : string) (attrs : Attrs) (content : list PNode) (marks : list Mark).

(** [node.type.name], [node.attrs], [node.marks] and [node.content]. *)
Definition n_type (n : PNode) : string :=
  match n with PText _ _ => "text" | PElem t _ _ _ => t end.
Definition n_attrs (n : PNode) : Attrs :=
  match n with PText _ _ => [] | PElem _ a _ _ => a end.
Definition n_marks (n : PNode) : list Mark :=
  match n with PText _ m => m | PElem _ _ _ m => m end.
Definition n_content (n : PNode) : list PNode :=
  match n with PText _ _ => [] | PElem _ _ c _ => c end.

(** What the conversions call: [schema.mark] (and [schema.marks[t].create]),
    [schema.text], [schema.nodes[t].create], [node.mark] and [node.textContent]. *)
Class Schema : Type := {
  schema_mark : string → Attrs → result Mark;
  schema_text : string → list Mark → result PNode;
  schema_create : string → option Attrs → list PNode → result PNode;
  node_mark : PNode → list Mark → PNode;
  textContent : PNode → string;
}.

(** What they rely on, as ProseMirror documents it.  [mark_set] is [Mark.setFrom], which
    sorts marks by their rank in the schema; [fragment] is [Fragment.from], which joins
    adjacent text nodes with the same marks; [node_spec] gives the attributes of a node
    type with their defaults (in this schema every attribute has one). *)
Inductive joined : list PNode → list PNode → Prop :=
| joined_refl l : joined l l
| joined_merge l s t ms k l' :
    joined (l ++ PText (s +:+ t) ms :: k) l' →
    joined (l ++ PText s ms :: PText t ms :: k) l'.

Definition compute_attrs (defaults : Attrs) (given : Attrs) : Attrs :=
  (λ e, (e.1, if bool_decide (attr given e.1 = VUndef) then e.2 else attr given e.1)) <$> defaults.

Definition is_elem (n : PNode) : bool := match n with PElem _ _ _ _ => true | _ => false end.

(** ** Inline content *)

Abbreviation Styles := Attrs.

Record StyledText : Type := { st_text : string; st_styles : Styles }.
#[export] Instance StyledText_eq_dec : EqDecision StyledText.
Proof. solve_decision. Defined.

Inductive InlineContent : Type :=
| IText (t : StyledText)
| ILink (href : AttrVal) (content : list StyledText)
| IEmbed (ref : AttrVal).

(** The content of a [PartialLink]. *)
Inductive LinkContent : Type :=
| LinkString (s : string)
| LinkTexts (l : list StyledText).

Inductive PartialInlineContent : Type :=
| PIText (t : StyledText)
| PILink (href : AttrVal) (content : LinkContent)
| PIEmbed (ref : AttrVal).

Definition toggleStyles : list string := ["bold"; "italic"; "underline"; "strike"; "code"].
Definition colorStyles : list string := ["textColor"; "backgroundColor"].
Definition is_toggle (k : string) : bool := existsb (String.eqb k) toggleStyles.
Definition is_color (k : string) : bool := existsb (String.eqb k) colorStyles.

Class SchemaLaws `{Schema} : Type := {
  mark_rank : string → Z;
  mark_set : list Mark → list Mark;
  fragment : list PNode → list PNode;
  node_spec : string → option Attrs;
  mark_toggle k : is_toggle k = true → ∃ a, schema_mark k [] = Ok {| m_type := k; m_attrs := a |};
  mark_color k v : is_color k = true → v ≠ VUndef →
    ∃ a, schema_mark k [("color", v)] = Ok {| m_type := k; m_attrs := a |} ∧ attr a "color" = v;
  mark_href_ok v : v ≠ VUndef →
    ∃ a, schema_mark "link" [("href", v)] = Ok {| m_type := "link"; m_attrs := a |} ∧
         attr a "href" = v;
  mark_set_perm ms : NoDup (m_type <$> ms) → mark_set ms ≡ₚ ms;
  mark_set_sorted ms :
    StronglySorted (λ a b, mark_rank (m_type a) < mark_rank (m_type b))%Z ms → mark_set ms = ms;
  text_ok s ms : s ≠ "" → schema_text s ms = Ok (PText s (mark_set ms));
  text_empty ms : is_ok (schema_text "" ms) = false;
  fragment_joined l : joined l (fragment l);
  create_ok t ds given content : node_spec t = Some ds →
    schema_create t given content =
    Ok (PElem t (compute_attrs ds (default [] given)) (fragment content) []);
  create_unknown t given content : node_spec t = None → is_ok (schema_create t given content) = false;
  node_spec_wf t ds : node_spec t = Some ds → owf ds;
  has_break : is_Some (node_spec "hardBreak");
  has_embed : ∃ ds, node_spec "inline-embed" = Some ds ∧ is_Some (oget ds "ref");
  has_group : is_Some (node_spec "blockGroup");
  has_container : ∃ ds, node_spec "blockContainer" = Some ds ∧ is_Some (oget ds "id");
  node_mark_text s ms ms' : node_mark (PText s ms) ms' = PText s ms';
  text_content s ms : textContent (PText s ms) = s;
  embed_content a ms : textContent (PElem "inline-embed" a [] ms) = "";
}.

(** [JSON.stringify(a) === JSON.stringify(b)]: entries with an undefined value are left
    out, and the order of the keys matters. *)
Definition json_entries (styles : Styles) : Styles :=
  List.filter (λ e, negb (bool_decide (e.2 = VUndef))) styles.
Definition same_json (a b : Styles) : bool := bool_decide (json_entries a = json_entries b).

(** [text.split(/(\n)/g)]: the pieces between line feeds and the line feeds. *)
Definition LF : ascii := "010"%char.
Fixpoint split_breaks (s : string) : list string :=
  match s with
  | EmptyString => [""]
  | String c s' =>
      if Ascii.eqb c LF then "" :: String LF "" :: split_breaks s'
      else cons_head c (split_breaks s')
  end.

Section convert.
Context `{Schema}.

(** *** To nodes *)

(** The loop of [styledTextToNodes] over [Object.entries(styledText.styles)]. *)
Definition push_style (marks : list Mark) (e : string * AttrVal) : result (list Mark) :=
  if is_toggle e.1 then let* m := schema_mark e.1 [] in Ok (marks ++ [m])
  else if is_color e.1 then let* m := schema_mark e.1 [("color", e.2)] in Ok (marks ++ [m])
  else Ok marks.
Definition style_marks (styles : Styles) : result (list Mark) := fold_result push_style [] styles.

Definition styledTextToNodes (styledText : StyledText) : result (list PNode) :=
  let* marks := style_marks (st_styles styledText) in
  map_result (λ text,
      if String.eqb text (String LF "") then schema_create "hardBreak" None []
      else schema_text text marks)
    (List.filter truthy (split_breaks (st_text styledText))).

Definition styledTextArrayToNodes (content : LinkContent) : result (list PNode) :=
  match content with
  | LinkString s => styledTextToNodes {| st_text := s; st_styles := [] |}
  | LinkTexts l =>
      fold_result (λ nodes t, let* ns := styledTextToNodes t in Ok (nodes ++ ns)) [] l
  end.

(** The callback of [linkToNodes]. *)
Definition mark_link (linkMark : Mark) (node : PNode) : result PNode :=
  if String.eqb (n_type node) "text" then Ok (node_mark node (n_marks node ++ [linkMark]))
  else if String.eqb (n_type node) "hardBreak" then Ok node
  else Err "unexpected node type".

Definition linkToNodes (href : AttrVal) (content : LinkContent) : result (list PNode) :=
  let* linkMark := schema_mark "link" [("href", href)] in
  let* nodes := styledTextArrayToNodes content in
  map_result (mark_link linkMark) nodes.

Definition inlineToNodes (content : PartialInlineContent) : result (list PNode) :=
  match content with
  | PILink href c => linkToNodes href c
  | PIText t => styledTextArrayToNodes (LinkTexts [t])
  | PIEmbed ref =>
      let* n := schema_create "inline-embed" (Some [("ref", ref)]) [] in Ok [n]
  end.

Definition inlineContentToNodes (blockContent : list PartialInlineContent) :
    result (list PNode) :=
  fold_result (λ nodes c, let* ns := inlineToNodes c in Ok (nodes ++ ns)) [] blockContent.

(** *** From nodes *)

Definition mark_href (m : Mark) : AttrVal := attr (m_attrs m) "href".

(** The loop over [node.marks]: the styles and the last link mark. *)
Definition read_mark (acc : Styles * option Mark) (mark : Mark) : result (Styles * option Mark) :=
  if String.eqb (m_type mark) "link" then Ok (acc.1, Some mark)
  else if is_toggle (m_type mark) then Ok (oset acc.1 (m_type mark) VTrue, acc.2)
  else if is_color (m_type mark) then
    Ok (oset acc.1 (m_type mark) (attr (m_attrs mark) "color"), acc.2)
  else Err ("Mark is of an unrecognized type: " +:+ m_type mark).
Definition read_marks (marks : list Mark) : result (Styles * option Mark) :=
  fold_result read_mark ([], None) marks.

(** [content] and [currentContent] of [contentNodeToInlineContent]. *)
Abbreviation ReadState := (list InlineContent * option InlineContent)%type.

(** The text of the last styled text grows by [s], as [content[length - 1].text += s]. *)
Fixpoint append_last (l : list StyledText) (s : string) : list StyledText :=
  match l with
  | [] => []
  | [t] => [{| st_text := st_text t +:+ s; st_styles := st_styles t |}]
  | t :: l' => t :: append_last l' s
  end.

Definition read_break (st : ReadState) : ReadState :=
  match st.2 with
  | Some (IText t) =>
      (st.1, Some (IText {| st_text := st_text t +:+ String LF ""; st_styles := st_styles t |}))
  | Some (ILink href c) => (st.1, Some (ILink href (append_last c (String LF ""))))
  | Some (IEmbed _) => st
  | None => (st.1, Some (IText {| st_text := String LF ""; st_styles := [] |}))
  end.

(** What the [inline-embed] branch leaves; the code then goes on as for text. *)
Definition read_embed (ref : AttrVal) (st : ReadState) : ReadState :=
  (st.1 ++ opt_list st.2 ++ [IEmbed ref], None).

(** The code for links and text, for a node with the text [s]; [link] is
    [linkMark.attrs.href] of its link mark, if it has one. *)
Definition new_content (link : option AttrVal) (t : StyledText) : InlineContent :=
  match link with
  | None => IText t
  | Some href => ILink href [t]
  end.
Definition read_text (s : string) (styles : Styles) (link : option AttrVal) (st : ReadState) : ReadState :=
  let node := {| st_text := s; st_styles := styles |} in
  match st.2 with
  | Some (IText t) =>
      match link with
      | None =>
          if same_json (st_styles t) styles then
            (st.1, Some (IText {| st_text := st_text t +:+ s; st_styles := st_styles t |}))
          else (st.1 ++ [IText t], Some (IText node))
      | Some _ => (st.1 ++ [IText t], Some (new_content link node))
      end
  | Some (ILink href c) =>
      match link with
      | Some href' =>
          if bool_decide (href = href') then
            if from_option (λ t, same_json (st_styles t) styles) false (last c) then
              (st.1, Some (ILink href (append_last c s)))
            else (st.1, Some (ILink href (c ++ [node])))
          else (st.1 ++ [ILink href c], Some (new_content link node))
      | None => (st.1 ++ [ILink href c], Some (IText node))
      end
  | Some (IEmbed _) => st
  | None => (st.1, Some (new_content link node))
  end.

Definition read_node (st : ReadState) (node : PNode) : result ReadState :=
  if String.eqb (n_type node) "hardBreak" then Ok (read_break st)
  else
    let st :=
      if String.eqb (n_type node) "inline-embed" then read_embed (attr (n_attrs node) "ref") st
      else st in
    let* marks := read_marks (n_marks node) in
    Ok (read_text (textContent node) marks.1 (mark_href <$> marks.2) st).

Definition contentNodeToInlineContent (contentNode : PNode) : result (list InlineContent) :=
  let* st := fold_result read_node ([], None) (n_content contentNode) in
  Ok (st.1 ++ opt_list st.2).
End convert.

(** ** Blocks *)

(** [PartialBlock]: every field may be absent. *)
Inductive BlockContent : Type :=
| ContentString (s : string)
| ContentInlines (l : list PartialInlineContent).

Inductive PartialBlock : Type :=
| PBlock (id type : option string) (props : option Attrs) (content : option BlockContent)
    (children : option (list PartialBlock)).

(** [Block]; [id] is whatever the node's attribute holds. *)
Inductive Block : Type :=
| Blk (id : AttrVal) (type : string) (props : Attrs) (content : list InlineContent)
    (children : list Block).

Definition bk_id (b : Block) : AttrVal := match b with Blk i _ _ _ _ => i end.
Definition bk_type (b : Block) : string := match b with Blk _ t _ _ _ => t end.
Definition bk_props (b : Block) : Attrs := match b with Blk _ _ p _ _ => p end.
Definition bk_content (b : Block) : list InlineContent := match b with Blk _ _ _ c _ => c end.
Definition bk_children (b : Block) : list Block := match b with Blk _ _ _ _ l => l end.

(** [BlockInfoWithoutPositions], less the node itself; the content's type is
    [n_type] of the content node. *)
Record BlockInfo : Type := { bi_id : AttrVal; bi_contentNode : PNode; bi_numChildBlocks : nat }.

Definition getBlockInfo (blockContainer : PNode) : result BlockInfo :=
  match n_content blockContainer with
  | [] => Err "TypeError"
  | contentNode :: _ =>
      Ok {| bi_id := attr (n_attrs blockContainer) "id";
            bi_contentNode := contentNode;
            bi_numChildBlocks :=
              match n_content blockContainer with
              | [_; group] => length (n_content group)
              | _ => 0
              end |}
  end.

Section blocks.
Context `{Schema}.
(** [UniqueID.options.generateID], with the state it draws from. *)
Context {G : Type} (generateID : call G string).

(** *** [blockToNode] *)

(** [schema.text(block.content[0].text)]; a link has no [text], which
    [schema.text] treats as the empty one. *)
Definition first_text (c : PartialInlineContent) : string :=
  match c with PIText t => st_text t | _ => "" end.

Definition content_nodes (type : string) (content : BlockContent) : result (list PNode) :=
  match content with
  | ContentString s => let* t := schema_text s [] in Ok [t]
  | ContentInlines l =>
      match l with
      | c :: _ =>
          if String.eqb type "codeBlock" then let* t := schema_text (first_text c) [] in Ok [t]
          else inlineContentToNodes l
      | [] => inlineContentToNodes []
      end
  end.

(** [!block.content]: absent, or the empty string. *)
Definition given_content (content : option BlockContent) : option BlockContent :=
  match content with
  | Some (ContentString s) => if truthy s then content else None
  | _ => content
  end.

Definition content_node (type : string) (props : option Attrs) (content : option BlockContent) :
    result PNode :=
  let* nodes :=
    match given_content content with
    | None => Ok []
    | Some c => content_nodes type c
    end in
  schema_create type props nodes.

(** [arr.map(f)] whose callback makes calls. *)
Definition c_map {S A B} (f : A → call S B) : list A → call S (list B) :=
  fix go (l : list A) : call S (list B) :=
    match l with
    | [] => c_ret []
    | x :: l' =>
        await* y := f x in
        await* ys := go l' in
        c_ret (y :: ys)
    end.

Fixpoint blockToNode (block : PartialBlock) : call G PNode :=
  match block with
  | PBlock id type props content children =>
      await* id := match id with Some i => c_ret i | None => generateID end in
      let type := default "paragraph" type in
      await* contentNode := c_lift (content_node type props content) in
      await* children :=
        match children with
        | None => c_ret []
        | Some l => c_map blockToNode l
        end in
      await* groupNode := c_lift (schema_create "blockGroup" (Some []) children) in
      c_lift (schema_create "blockContainer"
        (Some (ospread [("id", VStr id)] (default [] props)))
        (match children with [] => [contentNode] | _ => [contentNode; groupNode] end))
  end.

(** *** [nodeToBlock] *)

Record PropSpec : Type := { ps_default : string; ps_values : option (list string) }.
(** A block schema: the prop schema of each block type. *)
Abbreviation BlockSchema := (obj (obj PropSpec)).

Definition unrecognized (type : string) : string :=
  "Block is of an unrecognized type: " +:+ type.

(** The loop over the attributes. *)
Definition read_props (blockSchema : BlockSchema) (type : string) (attrs : Attrs) : result Attrs :=
  match attrs with
  | [] => Ok []
  | _ =>
      match oget blockSchema type with
      | None => if String.eqb type "codeBlock" then Ok [] else Err (unrecognized type)
      | Some propSchema =>
          Ok (foldl (λ props e,
                match oget propSchema e.1 with
                | Some _ => oset props e.1 e.2
                | None => props
                end) [] attrs)
      end
  end.

(** [node.lastChild.attrs] *)
Definition last_attrs (n : PNode) : Attrs := from_option n_attrs [] (last (n_content n)).

Definition group_props (node : PNode) (props : Attrs) : Attrs :=
  let a := last_attrs node in
  if val_truthy (attr a "listType") then
    oset (oset (oset props "childrenType" (attr a "listType")) "listLevel" (attr a "listLevel"))
      "start" (attr a "start")
  else props.

(** The blocks are objects that are handed out by reference and stay in the cache, so that
    what is written to one of them shows at every later read.  [objs] has them with the
    newest first: an object's address is the number of older ones.  [cached] is the
    [WeakMap] from nodes to the addresses of the blocks made of them; [same] is identity
    of nodes. *)
Record BlockObj : Type := {
  bo_id : AttrVal;
  bo_type : string;
  bo_props : Attrs;
  bo_content : list InlineContent;
  bo_children : list nat;
}.
Record Cache : Type := { cached : list (PNode * nat); objs : list BlockObj }.
Definition no_cache : Cache := {| cached := []; objs := [] |}.
Context (same : PNode → PNode → bool).
Definition cache_get (cache : Cache) (n : PNode) : option nat :=
  snd <$> List.find (λ e, same n e.1) (cached cache).
(** What an object shows; its children are older than it is. *)
Fixpoint block_at (heap : list BlockObj) (address : nat) : option Block :=
  match heap with
  | [] => None
  | o :: heap' =>
      if Nat.eqb address (length heap')
      then Some (Blk (bo_id o) (bo_type o) (bo_props o) (bo_content o) (omap (block_at heap') (bo_children o)))
      else block_at heap' address
  end.
(** Writing to the object at an address. *)
Fixpoint write_at (f : BlockObj → BlockObj) (heap : list BlockObj) (address : nat) : list BlockObj :=
  match heap with
  | [] => []
  | o :: heap' => if Nat.eqb address (length heap') then f o :: heap' else o :: write_at f heap' address
  end.
(** [compareBlocksWithMap] writes the list of a block's group to [block.props]; an empty
    start is not written. *)
Definition write_group (childrenType listLevel : AttrVal) (start : option AttrVal) (o : BlockObj) : BlockObj :=
  let props := oset (oset (bo_props o) "childrenType" childrenType) "listLevel" listLevel in
  {| bo_id := bo_id o; bo_type := bo_type o;
     bo_props := match start with Some n => oset props "start" n | None => props end;
     bo_content := bo_content o; bo_children := bo_children o |}.

Definition not_container (n : PNode) : string :=
  "Node must be of type blockContainer, but is of type" +:+ n_type n +:+ ".".

(** What [nodeToBlock] makes of a node without its children: the id, type, props
    and content. *)
Definition block_head (blockSchema : BlockSchema) (node : PNode) (info : BlockInfo) :
    result (Attrs * list InlineContent) :=
  let contentNode := bi_contentNode info in
  let* props :=
    read_props blockSchema (n_type contentNode) (ospread (n_attrs node) (n_attrs contentNode)) in
  let* content := contentNodeToInlineContent contentNode in
  Ok (group_props node props, content).

(** [nodeToBlock(node, blockSchema, blockCache)], the address of the block; the state of
    the calls is the id generator's and the cache.  The children are those of the last child when there
    are two, so that the recursion is on the node. *)
Definition on_ids {A} (c : call G A) : call (G * Cache) A :=
  λ s, let (g, r) := c s.1 in ((g, s.2), r).
(** A new object, put in the cache. *)
Definition cache_set (n : PNode) (o : BlockObj) : call (G * Cache) nat :=
  λ s, let address := length (objs s.2) in
       ((s.1, {| cached := (n, address) :: cached s.2; objs := o :: objs s.2 |}), Ok address).

Fixpoint nodeToBlock (blockSchema : BlockSchema) (node : PNode) : call (G * Cache) nat :=
  if negb (String.eqb (n_type node) "blockContainer") then c_throw (not_container node)
  else λ s,
    match cache_get s.2 node with
    | Some address => (s, Ok address)
    | None =>
        (await* info := c_lift (getBlockInfo node) in
         await* id :=
           match bi_id info with
           | VNull => await* i := on_ids generateID in c_ret (VStr i)
           | i => c_ret i
           end in
         await* head := c_lift (block_head blockSchema node info) in
         await* children :=
           match node with
           | PElem _ _ [_; PElem _ _ kids _] _ => c_map (nodeToBlock blockSchema) kids
           | _ => c_ret []
           end in
         cache_set node {| bo_id := id; bo_type := n_type (bi_contentNode info); bo_props := head.1;
                           bo_content := head.2; bo_children := children |}) s
    end.
(** The block as its reader finds it. *)
Definition seen_block (address : nat) : call (G * Cache) Block := λ s,
  (s, match block_at (objs s.2) address with Some b => Ok b | None => Err "no such block" end).
Definition readNode (blockSchema : BlockSchema) (node : PNode) : call (G * Cache) Block :=
  await* address := nodeToBlock blockSchema node in seen_block address.
End blocks.
