(* ===== verification/NodeConvertFacts.v ===== *)
(** * Correctness of the conversion of inline content

    A content node is read character by character by the reference definition
    [regroup]; the code reads it node by node.  Both agree, no character, style, link
    or embed is lost, and inline content that was written to nodes is read back. *)
From S2P Require Import Prelude.
From S2P Require Import JsString.
From S2P Require Import JsObject.
From S2P Require Import DaemonApi.
From S2P Require Import NodeConvert.

(** ** Units of inline content *)

(** What a reader sees one by one: a character with its styles and the target of its
    link, a line break, an embed. *)
Inductive Unit : Type :=
| UChar (c : ascii) (styles : Styles) (link : option AttrVal)
| UBreak
| UEmbed (ref : AttrVal) (styles : Styles) (link : option AttrVal).

(** A line feed is a break whatever its styles, and an embed has none. *)
Definition plain (u : Unit) : Unit :=
  match u with
  | UChar c s l => if Ascii.eqb c LF then UBreak else u
  | UBreak => UBreak
  | UEmbed r _ _ => UEmbed r [] None
  end.

Definition text_units (link : option AttrVal) (t : StyledText) : list Unit :=
  (λ c, plain (UChar c (st_styles t) link)) <$> chars (st_text t).
Definition inline_units (i : InlineContent) : list Unit :=
  match i with
  | IText t => text_units None t
  | ILink href c => concat (text_units (Some href) <$> c)
  | IEmbed ref => [UEmbed ref [] None]
  end.
Definition content_units (l : list InlineContent) : list Unit := concat (inline_units <$> l).

(** The reference: units are added to the content one at a time. *)
Definition add_unit (st : list InlineContent * option InlineContent) (u : Unit) :
    list InlineContent * option InlineContent :=
  match u with
  | UChar c styles link => read_text (String c "") styles link st
  | UBreak => read_break st
  | UEmbed ref styles link => read_text "" styles link (read_embed ref st)
  end.
Definition regroup (us : list Unit) : list InlineContent :=
  let st := foldl add_unit ([], None) us in st.1 ++ opt_list st.2.

(** The units of nodes. *)
Definition marks_styles (ms : list Mark) : Styles :=
  match read_marks ms with Ok r => r.1 | Err _ => [] end.
Definition marks_link (ms : list Mark) : option AttrVal :=
  match read_marks ms with Ok r => mark_href <$> r.2 | Err _ => None end.
Definition node_units (n : PNode) : list Unit :=
  match n with
  | PText s ms => (λ c, UChar c (marks_styles ms) (marks_link ms)) <$> chars s
  | PElem t a _ ms =>
      if String.eqb t "hardBreak" then [UBreak]
      else [UEmbed (attr a "ref") (marks_styles ms) (marks_link ms)]
  end.
Definition nodes_units (l : list PNode) : list Unit := concat (node_units <$> l).

(** The nodes that a content node of the editor holds: text with marks of the
    editor, hard breaks and embeds. *)
Definition known_mark (m : Mark) : bool :=
  String.eqb (m_type m) "link" || is_toggle (m_type m)
  || (is_color (m_type m) && negb (bool_decide (attr (m_attrs m) "color" = VUndef))).
Definition inline_node (n : PNode) : bool :=
  match n with
  | PText s ms => truthy s && forallb known_mark ms
  | PElem t _ c ms =>
      String.eqb t "hardBreak"
      || (String.eqb t "inline-embed" && forallb known_mark ms
          && match c with [] => true | _ => false end)
  end.

Lemma same_json_refl s : same_json s s = true.
Proof. by apply bool_decide_eq_true. Qed.

(** ** Reading text in pieces *)

Lemma append_last_snoc l t s :
  append_last (l ++ [t]) s = l ++ [{| st_text := st_text t +:+ s; st_styles := st_styles t |}].
Proof.
  induction l as [|x l IH]; [done|]. cbn [app append_last]. rewrite IH.
  destruct l; done.
Qed.

Lemma read_text_same d href l u styles s :
  same_json (st_styles u) styles = true →
  read_text s styles (Some href) (d, Some (ILink href (l ++ [u]))) =
  (d, Some (ILink href (l ++ [{| st_text := st_text u +:+ s; st_styles := st_styles u |}]))).
Proof.
  intros E. unfold read_text. cbn [fst snd]. rewrite bool_decide_true by done.
  rewrite last_snoc. cbn. by rewrite E, append_last_snoc.
Qed.

Lemma read_text_app s t styles link st :
  read_text (s +:+ t) styles link st = read_text t styles link (read_text s styles link st).
Proof.
  destruct st as [done_ cur]. unfold read_text at 1 3. cbn [fst snd].
  destruct cur as [[u|href c|ref]|].
  - destruct link as [h|].
    + cbn. rewrite bool_decide_true by done. cbn. by rewrite same_json_refl.
    + destruct (same_json (st_styles u) styles) eqn:E; cbn; rewrite ?E, ?same_json_refl; cbn.
      * by rewrite str_app_assoc.
      * done.
  - destruct link as [h|].
    + case_bool_decide as Hh; cbn; [|by rewrite bool_decide_true, same_json_refl by done].
      destruct (from_option (λ t0, same_json (st_styles t0) styles) false (last c)) eqn:E.
      * destruct c as [|c' u _] using rev_ind; [done|].
        rewrite last_snoc in E. cbn in E. rewrite !append_last_snoc. subst h.
        rewrite read_text_same by done. cbn. by rewrite str_app_assoc.
      * subst h. rewrite read_text_same by apply same_json_refl. done.
    + cbn. by rewrite same_json_refl.
  - done.
  - destruct link as [h|]; cbn; rewrite ?bool_decide_true by done; by rewrite same_json_refl.
Qed.

Lemma read_text_chars s styles link st :
  s ≠ "" →
  read_text s styles link st = foldl add_unit st ((λ c, UChar c styles link) <$> chars s).
Proof.
  intros Hs. destruct s as [|c s]; [done|]. clear Hs. revert c st.
  induction s as [|d s IH]; intros c st; [done|].
  change (String c (String d s)) with (String c "" +:+ String d s).
  rewrite read_text_app, IH. done.
Qed.

(** ** No unit is lost *)

Definition defined (styles : Styles) : Prop := json_entries styles = styles.
Definition unit_ok (u : Unit) : Prop :=
  match u with
  | UChar _ s _ | UEmbed _ s _ => defined s
  | UBreak => True
  end.

(** The current content is text, or a link with at least one text. *)
Definition current_ok (cur : option InlineContent) : Prop :=
  match cur with
  | None => True
  | Some (IText t) => defined (st_styles t)
  | Some (ILink _ c) => ∃ l t, c = l ++ [t] ∧ defined (st_styles t)
  | Some (IEmbed _) => False
  end.
Definition state_units (st : list InlineContent * option InlineContent) : list Unit :=
  content_units (st.1 ++ opt_list st.2).

Lemma defined_nil : defined [].
Proof. done. Qed.
#[local] Hint Resolve defined_nil : core.

Lemma same_json_eq a b : defined a → defined b → same_json a b = true → a = b.
Proof. intros Ha Hb H%bool_decide_eq_true. unfold defined in *. congruence. Qed.

Lemma content_units_app l k : content_units (l ++ k) = content_units l ++ content_units k.
Proof. unfold content_units. by rewrite fmap_app, concat_app. Qed.
Lemma content_units_one i : content_units [i] = inline_units i.
Proof. unfold content_units. cbn. by rewrite app_nil_r. Qed.

Lemma text_units_snoc link s c styles :
  text_units link {| st_text := s +:+ String c ""; st_styles := styles |} =
  text_units link {| st_text := s; st_styles := styles |} ++ [plain (UChar c styles link)].
Proof. unfold text_units. cbn [st_text st_styles]. by rewrite chars_app, fmap_app. Qed.
Lemma text_units_nil link styles : text_units link {| st_text := ""; st_styles := styles |} = [].
Proof. done. Qed.
Lemma text_units_one link styles c :
  text_units link {| st_text := String c ""; st_styles := styles |} = [plain (UChar c styles link)].
Proof. done. Qed.
Lemma link_units_snoc href l t :
  inline_units (ILink href (l ++ [t])) = inline_units (ILink href l) ++ text_units (Some href) t.
Proof. cbn. by rewrite fmap_app, concat_app; cbn; rewrite app_nil_r. Qed.

Create Rewrite HintDb js_units.
#[local] Hint Rewrite content_units_app content_units_one link_units_snoc app_nil_r : js_units.
Ltac units_simpl := autorewrite with js_units; cbn [inline_units]; autorewrite with js_units.

(** Reading a character appends its unit, whichever branch is taken. *)
Lemma add_char_units st c styles link :
  current_ok st.2 → defined styles →
  state_units (add_unit st (UChar c styles link)) =
    state_units st ++ [plain (UChar c styles link)] ∧
  current_ok (add_unit st (UChar c styles link)).2.
Proof.
  destruct st as [d cur]. unfold state_units. cbn [fst snd]. intros Hcur Hs.
  cbn [add_unit]. unfold read_text. cbn [fst snd].
  destruct cur as [[[t s]|href cs|ref]|]; cbn [current_ok st_styles st_text] in *; [| |done|].
  - destruct link as [h|]; [|destruct (same_json s styles) eqn:E]; cbn [fst snd opt_list new_content].
    + split; [|by eexists [], _]. units_simpl. done.
    + apply same_json_eq in E as <-; [|done..]. split; [|done]. units_simpl.
      by rewrite text_units_snoc, app_assoc.
    + split; [|done]. by units_simpl.
  - destruct Hcur as (l & u & -> & Hu).
    destruct link as [h|]; [case_bool_decide as Hh|]; cbn [fst snd opt_list new_content].
    + subst h. rewrite last_snoc. cbn [from_option]. destruct u as [t s]. cbn [st_styles] in *.
      destruct (same_json s styles) eqn:E; cbn [fst snd opt_list].
      * apply same_json_eq in E as <-; [|done..]. rewrite append_last_snoc. cbn [st_styles st_text].
        split; [|by eexists l, _]. units_simpl. by rewrite text_units_snoc, !app_assoc.
      * split; [|by eexists (l ++ [_]), _]. units_simpl. by rewrite !app_assoc.
    + split; [|by eexists [], _]. by units_simpl.
    + split; [|done]. by units_simpl.
  - split; [|destruct link; [by eexists [], _|done]]. destruct link; by units_simpl.
Qed.

Lemma add_unit_units st u :
  current_ok st.2 → unit_ok u →
  state_units (add_unit st u) = state_units st ++ [plain u] ∧ current_ok (add_unit st u).2.
Proof.
  destruct u as [c styles link| |ref styles link]; intros Hst Hu.
  - by apply add_char_units.
  - destruct st as [d cur]. unfold state_units. cbn [add_unit]. unfold read_break. cbn [fst snd] in *.
    destruct cur as [[[t s]|href cs|ref]|]; [| |done|]; cbn [fst snd opt_list st_styles st_text].
    + split; [|done]. units_simpl. by rewrite text_units_snoc, app_assoc.
    + destruct Hst as (l & [t s] & -> & Ht). rewrite append_last_snoc. cbn [st_styles st_text].
      split; [|by eexists l, _]. units_simpl. by rewrite text_units_snoc, !app_assoc.
    + split; [|done]. by units_simpl.
  - destruct st as [d cur]. unfold state_units. cbn [add_unit]. unfold read_text, read_embed.
    cbn [fst snd] in *. split; [|destruct link; [by eexists [], _|done]].
    destruct link; cbn [new_content opt_list]; units_simpl; by rewrite <- ?app_assoc.
Qed.

Lemma regroup_units us :
  Forall unit_ok us → content_units (regroup us) = plain <$> us.
Proof.
  intros Hus. unfold regroup. change (state_units (foldl add_unit ([], None) us) = plain <$> us).
  assert (∀ st, current_ok st.2 →
    state_units (foldl add_unit st us) = state_units st ++ (plain <$> us)) as H.
  { induction Hus as [|u us Hu _ IH]; intros st Hst; cbn; [by rewrite app_nil_r|].
    destruct (add_unit_units st u Hst Hu) as [E Hst'].
    rewrite IH by done. rewrite E, <- app_assoc. done. }
  rewrite H by done. done.
Qed.

(** ** Nodes are read unit by unit *)

Lemma defined_oset styles k v : defined styles → v ≠ VUndef → defined (oset styles k v).
Proof.
  unfold defined, json_entries. intros Hs Hv.
  induction styles as [|[j w] styles IH]; cbn.
  { by rewrite bool_decide_false. }
  cbn in Hs. case_bool_decide as Hw; cbn in Hs.
  - exfalso. pose proof (List.filter_length_le (λ e : string * AttrVal, negb (bool_decide (e.2 = VUndef))) styles) as Hl.
    rewrite Hs in Hl. cbn in Hl. lia.
  - injection Hs as Hs. destruct (String.eqb k j); cbn.
    + by rewrite bool_decide_false, Hs.
    + rewrite bool_decide_false by done. cbn. by rewrite IH.
Qed.

Lemma read_mark_known acc m :
  known_mark m = true → defined acc.1 → ∃ acc', read_mark acc m = Ok acc' ∧ defined acc'.1.
Proof.
  unfold known_mark, read_mark. intros Hm Hacc.
  destruct (String.eqb (m_type m) "link"); [by eexists|].
  destruct (is_toggle (m_type m)); [by eexists; split; [done|apply defined_oset]|].
  destruct (is_color (m_type m)); cbn in Hm; [|done]. bool_simpl.
  by eexists; split; [done|apply defined_oset].
Qed.

Lemma read_marks_known ms :
  forallb known_mark ms = true → ∃ r, read_marks ms = Ok r ∧ defined r.1.
Proof.
  unfold read_marks. assert (defined (@fst Styles (option Mark) ([], None))) as Hst by done.
  revert Hst. generalize (@nil (string * AttrVal), @None Mark) as acc.
  induction ms as [|m ms IH]; intros acc Hacc Hms; [by eexists|].
  cbn in Hms. bool_simpl. destruct (read_mark_known acc m) as (acc' & E & Hacc'); [done..|].
  cbn [fold_result]. rewrite E. by apply IH.
Qed.

Lemma known_marks ms : forallb known_mark ms = true →
  defined (marks_styles ms) ∧
  ∃ r, read_marks ms = Ok r ∧ r.1 = marks_styles ms ∧ mark_href <$> r.2 = marks_link ms.
Proof.
  intros (r & E & Hs)%read_marks_known. unfold marks_styles, marks_link. rewrite E.
  split; [done|]. by eexists.
Qed.

Lemma node_units_ok n : inline_node n = true → Forall unit_ok (node_units n).
Proof.
  destruct n as [s ms|t a c ms]; cbn [inline_node node_units]; intros H.
  - bool_simpl. apply Forall_fmap, Forall_true. intros x. cbn. by apply known_marks.
  - destruct (String.eqb t "hardBreak"); cbn in H; [by repeat constructor|].
    bool_simpl. constructor; [by apply known_marks | constructor].
Qed.
Lemma nodes_units_ok l : forallb inline_node l = true → Forall unit_ok (nodes_units l).
Proof.
  intros H. unfold nodes_units. apply Forall_concat, Forall_fmap.
  apply Forall_forall. intros n Hn. apply node_units_ok.
  rewrite forallb_forall in H. by apply H, list_elem_of_In.
Qed.

Section read.
Context `{SchemaLaws}.

Lemma read_node_units st n :
  inline_node n = true → read_node st n = Ok (foldl add_unit st (node_units n)).
Proof.
  destruct n as [s ms|t a c ms]; cbn [inline_node node_units]; intros Hn; unfold read_node;
    cbn [n_type n_marks n_attrs].
  - bool_simpl. cbn [String.eqb Ascii.eqb Bool.eqb].
    destruct (known_marks ms) as (_ & [styles link] & -> & <- & <-); [done|]. cbn [rbind fst snd].
    rewrite text_content. f_equal. apply read_text_chars. by apply truthy_spec.
  - destruct (String.eqb_spec t "hardBreak") as [->|]; [done|]. cbn in Hn. bool_simpl. subst t.
    rewrite String.eqb_refl. destruct (known_marks ms) as (_ & [styles link] & -> & <- & <-); [done|].
    destruct c; [|done]. cbn [rbind fst snd]. by rewrite embed_content.
Qed.

Lemma read_nodes_units l st :
  forallb inline_node l = true → fold_result read_node st l = Ok (foldl add_unit st (nodes_units l)).
Proof.
  revert st. induction l as [|n l IH]; intros st Hl; [done|]. cbn in Hl. bool_simpl.
  cbn [fold_result]. rewrite read_node_units by done. cbn [rbind]. rewrite IH by done.
  unfold nodes_units. cbn. by rewrite foldl_app.
Qed.

(** The conversion as a function of the units only. *)
Lemma read_content n :
  forallb inline_node (n_content n) = true →
  contentNodeToInlineContent n = Ok (regroup (nodes_units (n_content n))).
Proof.
  intros H1. unfold contentNodeToInlineContent. by rewrite read_nodes_units.
Qed.
End read.

(** ** The content is grouped as far as possible *)

Definition mergeable (a b : InlineContent) : bool :=
  match a, b with
  | IText t, IText u => same_json (st_styles t) (st_styles u)
  | ILink h _, ILink h' _ => bool_decide (h = h')
  | _, _ => false
  end.

(** No element of a list may be merged with the next. *)
Definition apart {A} (f : A → A → bool) : list A → bool :=
  fix go (l : list A) : bool :=
    match l with
    | a :: k => match k with b :: _ => negb (f a b) | [] => true end && go k
    | [] => true
    end.
Definition mergeable_texts (t u : StyledText) : bool := same_json (st_styles t) (st_styles u).
Definition inside_apart (i : InlineContent) : bool :=
  match i with ILink _ c => apart mergeable_texts c | _ => true end.
Definition grouped (l : list InlineContent) : bool := apart mergeable l && forallb inside_apart l.

Lemma apart_snoc {A} (f : A → A → bool) l a :
  apart f (l ++ [a]) = apart f l && from_option (λ x, negb (f x a)) true (last l).
Proof.
  induction l as [|x l IH]; [done|]. cbn [app apart]. rewrite IH.
  destruct l as [|y l]; cbn [app]; [by rewrite andb_comm|].
  by rewrite andb_assoc.
Qed.
Lemma apart_last {A} (f : A → A → bool) l a b :
  (∀ x, f x a = f x b) → apart f (l ++ [a]) = apart f (l ++ [b]).
Proof. intros H. rewrite !apart_snoc. destruct (last l); cbn; by rewrite ?H. Qed.

Lemma grouped_snoc l a :
  grouped (l ++ [a]) = grouped l && inside_apart a && from_option (λ x, negb (mergeable x a)) true (last l).
Proof.
  unfold grouped. rewrite apart_snoc, forallb_app. cbn.
  destruct (apart mergeable l), (forallb inside_apart l), (inside_apart a),
    (from_option _ _ _); done.
Qed.
Lemma grouped_push l a b :
  grouped (l ++ [a]) = true → mergeable a b = false → inside_apart b = true →
  grouped ((l ++ [a]) ++ [b]) = true.
Proof. intros Hl Hab Hb. rewrite grouped_snoc, Hl, Hb, last_snoc. cbn. by rewrite Hab. Qed.
Lemma grouped_replace l a b :
  grouped (l ++ [a]) = true → inside_apart b = true → (∀ x, mergeable x a = mergeable x b) →
  grouped (l ++ [b]) = true.
Proof.
  rewrite !grouped_snoc. intros H Hb Hab. bool_simpl.
  rewrite H, Hb. destruct (last l); cbn in *; [by rewrite <- Hab | done].
Qed.

(** Without a current content, the content is empty or ends with an embed. *)
Definition state_grouped (st : list InlineContent * option InlineContent) : Prop :=
  grouped (st.1 ++ opt_list st.2) = true ∧
  (st.2 = None → ∀ a, from_option (λ x, negb (mergeable x a)) true (last st.1) = true).

Lemma read_break_grouped st : state_grouped st → state_grouped (read_break st).
Proof.
  destruct st as [d [[t|href c|ref]|]]; unfold read_break, state_grouped; cbn [fst snd opt_list];
    intros [Hg Hn]; try done.
  - split; [|done]. by eapply grouped_replace; [exact Hg| |intros []].
  - split; [|done]. eapply grouped_replace; [exact Hg| |by intros []].
    rewrite grouped_snoc in Hg. bool_simpl. destruct c as [|c' t _] using rev_ind; [done|].
    rewrite append_last_snoc. cbn [inside_apart] in *. by erewrite <- apart_last.
  - split; [|done]. rewrite app_nil_r in Hg. rewrite grouped_snoc, Hg. cbn. by apply Hn.
Qed.

Lemma read_embed_grouped ref st : state_grouped st → state_grouped (read_embed ref st).
Proof.
  destruct st as [d cur]. unfold read_embed, state_grouped. cbn [fst snd]. intros [Hg _].
  split; [|by rewrite app_assoc, last_snoc]. rewrite app_nil_r, app_assoc.
  rewrite grouped_snoc, Hg. cbn. by destruct (last _) as [[]|].
Qed.

Lemma new_content_inside link t : inside_apart (new_content link t) = true.
Proof. by destruct link. Qed.

Lemma read_text_grouped s styles link st : state_grouped st → state_grouped (read_text s styles link st).
Proof.
  destruct st as [d [[t|href c|ref]|]]; unfold read_text, state_grouped; cbn [fst snd opt_list];
    intros [Hg Hn]; try done.
  - destruct link as [h|]; [|destruct (same_json (st_styles t) styles) eqn:E]; (split; [|done]).
    + by apply grouped_push.
    + by eapply grouped_replace; [exact Hg| |intros []].
    + by apply grouped_push.
  - destruct link as [h|]; [case_bool_decide as Hh|]; [|(split; [|done])..].
    + destruct (from_option _ _ (last c)) eqn:E; (split; [|done]); cbn [fst opt_list snd];
        (eapply grouped_replace; [exact Hg| |by intros []]);
        rewrite grouped_snoc in Hg; bool_simpl; cbn [inside_apart] in *.
      * destruct c as [|c' u _] using rev_ind; [done|]. rewrite append_last_snoc.
        by erewrite <- apart_last.
      * rewrite apart_snoc. destruct (last c) as [u|] eqn:El; cbn in *; [|by rewrite andb_true_r].
        unfold mergeable_texts. cbn. rewrite E. by rewrite andb_true_r.
    + apply grouped_push; [done|by apply bool_decide_eq_false|done].
    + by apply grouped_push.
  - split; [|done]. rewrite app_nil_r in Hg. cbn [fst snd opt_list].
    rewrite grouped_snoc, Hg, new_content_inside. cbn. by apply Hn.
Qed.

Lemma regroup_grouped us : grouped (regroup us) = true.
Proof.
  unfold regroup. assert (∀ st, state_grouped st → state_grouped (foldl add_unit st us)) as H.
  { induction us as [|u us IH]; intros st Hst; [done|]. cbn. apply IH.
    destruct u; cbn [add_unit]; auto using read_text_grouped, read_break_grouped, read_embed_grouped. }
  apply H. split; done.
Qed.

(** C11. The content of a block of the editor, read node by node, is the grouping of its
    characters one at a time.  It shows the same characters, line breaks, links and
    embeds with the same styles, and nothing in it could be merged any more. *)
Theorem contentNodeToInlineContent_spec `{SchemaLaws} n :
  forallb inline_node (n_content n) = true →
  contentNodeToInlineContent n = Ok (regroup (nodes_units (n_content n))) ∧
  content_units (regroup (nodes_units (n_content n))) = plain <$> nodes_units (n_content n) ∧
  grouped (regroup (nodes_units (n_content n))) = true.
Proof.
  intros Hn. split; [by apply read_content|].
  split; [by apply regroup_units, nodes_units_ok | apply regroup_grouped].
Qed.
