(* ===== verification/NodeRoundtrip.v ===== *)
(** * Inline content written to nodes and read back

    [inlineContentToNodes] keeps every character with its styles and link, every break
    and every embed; with [NodeConvertFacts] the conversions are inverse to each other
    on what the editor holds. *)
From S2P Require Import Prelude.
From S2P Require Import JsString.
From S2P Require Import JsObject.
From S2P Require Import DaemonApi.
From S2P Require Import NodeConvert.
From S2P Require Import NodeConvertFacts.

(** ** Content that can be written *)

Definition known_style (e : string * AttrVal) : bool :=
  if is_toggle e.1 then bool_decide (e.2 = VTrue)
  else is_color e.1 && negb (bool_decide (e.2 = VUndef)).
Definition styles_ok (styles : Styles) : Prop :=
  forallb known_style styles = true ∧ owf styles.
Definition inline_ok (i : InlineContent) : Prop :=
  match i with
  | IText t => styles_ok (st_styles t)
  | ILink href c => href ≠ VUndef ∧ Forall (λ t, styles_ok (st_styles t)) c
  | IEmbed ref => ref ≠ VUndef
  end.

Definition as_partial (i : InlineContent) : PartialInlineContent :=
  match i with
  | IText t => PIText t
  | ILink href c => PILink href (LinkTexts c)
  | IEmbed ref => PIEmbed ref
  end.

(** ** Splitting at line feeds *)

Definition piece_units (styles : Styles) (link : option AttrVal) (p : string) : list Unit :=
  if String.eqb p (String LF "") then [UBreak] else (λ c, UChar c styles link) <$> chars p.

Lemma split_breaks_head s : ∃ p rest, split_breaks s = p :: rest ∧ lacks LF p = true.
Proof.
  induction s as [|c s (p & rest & E & Hp)]; [by eexists "", []|]. cbn.
  destruct (Ascii.eqb_spec c LF) as [->|Hc]; [by eexists "", _|].
  rewrite E. cbn. eexists _, _. split; [done|]. rewrite lacks_cons, Hp, andb_true_r.
  by apply negb_true_iff, Ascii.eqb_neq.
Qed.

Lemma piece_units_cons styles link c p :
  c ≠ LF → lacks LF p = true →
  piece_units styles link (String c p) = UChar c styles link :: ((λ c, UChar c styles link) <$> chars p).
Proof.
  intros Hc Hp. unfold piece_units. destruct (String.eqb_spec (String c p) (String LF "")); [|done].
  congruence.
Qed.
Lemma piece_units_lacks styles link p :
  lacks LF p = true → piece_units styles link p = (λ c, UChar c styles link) <$> chars p.
Proof.
  intros Hp. unfold piece_units. destruct (String.eqb_spec p (String LF "")); [|done].
  by subst p.
Qed.

Lemma filter_truthy_units styles link l :
  concat (piece_units styles link <$> List.filter truthy l) = concat (piece_units styles link <$> l).
Proof. induction l as [|p l IH]; [done|]. destruct p; cbn; [done|]. by rewrite IH. Qed.

Lemma split_breaks_units styles link s :
  concat (piece_units styles link <$> List.filter truthy (split_breaks s)) =
  (λ c, plain (UChar c styles link)) <$> chars s.
Proof.
  rewrite filter_truthy_units.
  induction s as [|c s IH]; [done|]. unfold chars in *. cbn [split_breaks String.list_ascii_of_string].
  rewrite fmap_cons, <- IH. clear IH. cbn [plain]. destruct (Ascii.eqb_spec c LF) as [->|Hc]; [done|].
  destruct (split_breaks_head s) as (p & rest & -> & Hp). cbn [cons_head].
  rewrite !fmap_cons. cbn [concat]. by rewrite piece_units_cons, piece_units_lacks.
Qed.

Lemma split_breaks_pieces s p :
  p ∈ List.filter truthy (split_breaks s) → p ≠ "".
Proof. intros [_ H]%list_elem_of_In%List.filter_In. by apply truthy_spec. Qed.

(** ** Marks and styles *)

Definition style_mark (m : Mark) : bool :=
  negb (String.eqb (m_type m) "link") && known_mark m.
Definition mark_entry (m : Mark) : string * AttrVal :=
  (m_type m, if is_toggle (m_type m) then VTrue else attr (m_attrs m) "color").

Lemma mark_entry_types ms : (mark_entry <$> ms).*1 = m_type <$> ms.
Proof. induction ms as [|m ms IH]; [done|]. cbn. by rewrite <- IH. Qed.

Lemma read_mark_style st link m :
  style_mark m = true → m_type m ∉ okeys st →
  read_mark (st, link) m = Ok (st ++ [mark_entry m], link).
Proof.
  unfold style_mark, known_mark, read_mark, mark_entry. intros Hm Hst.
  destruct (String.eqb (m_type m) "link"); [done|]. cbn [negb andb orb fst snd] in *.
  rewrite !oset_new by done. destruct (is_toggle (m_type m)); [done|]. cbn [orb andb] in *.
  by destruct (is_color (m_type m)).
Qed.

(** Marks of different types are read as the entries of the style marks. *)
Lemma read_marks_entries ms acc :
  forallb known_mark ms = true → NoDup (m_type <$> ms) →
  (∀ k, k ∈ m_type <$> ms → k ∉ okeys acc.1) →
  fold_result read_mark acc ms =
  Ok (acc.1 ++ (mark_entry <$> List.filter style_mark ms),
      foldl (λ link m, if String.eqb (m_type m) "link" then Some m else link) acc.2 ms).
Proof.
  revert acc. induction ms as [|m ms IH]; intros [st link] Hms Hnd Hst;
    cbn [fst snd] in *; [by rewrite app_nil_r|].
  cbn in Hms. rewrite fmap_cons in Hnd. apply NoDup_cons in Hnd as [Hm Hnd]. bool_simpl.
  cbn [fold_result foldl List.filter].
  destruct (String.eqb (m_type m) "link") eqn:El.
  - assert (style_mark m = false) as -> by (unfold style_mark; by rewrite El).
    unfold read_mark at 1. rewrite El. cbn [rbind]. apply IH; [done..|].
    intros k Hk. apply Hst. by right.
  - assert (style_mark m = true) as Es by (unfold style_mark; by rewrite El).
    rewrite Es, read_mark_style; [|done|by apply Hst; left]. cbn [rbind].
    rewrite IH; [cbn [fst snd]; by rewrite <- app_assoc|done..|].
    intros k Hk. cbn [fst]. unfold okeys. rewrite fmap_app.
    intros [Hin|Hin]%elem_of_app; [by apply (Hst k); [right|]|].
    apply list_elem_of_singleton in Hin. cbn in Hin. by subst k.
Qed.

(** The marks of styles, with or without a link mark at the end. *)
Lemma read_style_marks ms link :
  forallb style_mark ms = true → NoDup (m_type <$> ms) →
  (∀ m, link = Some m → m_type m = "link") →
  read_marks (ms ++ opt_list link) = Ok (mark_entry <$> ms, link).
Proof.
  intros Hms Hnd Hlink. unfold read_marks. rewrite fold_result_app, forallb_forall in *.
  rewrite read_marks_entries; [|by apply forallb_forall; intros m Hm; apply Hms, andb_prop in Hm as []
    |done|intros; apply not_elem_of_nil].
  cbn [rbind fst snd app]. rewrite filter_all by by intros m Hm%list_elem_of_In; auto.
  assert (foldl (λ link m, if String.eqb (m_type m) "link" then Some m else link) None ms = None) as ->.
  { clear Hlink Hnd. induction ms as [|m ms IH]; [done|]. cbn [foldl].
    destruct (String.eqb (m_type m) "link") eqn:El; [|apply IH; intros; apply Hms; by right].
    specialize (Hms m ltac:(by left)). unfold style_mark in Hms. by rewrite El in Hms. }
  destruct link as [m|]; [|done]. cbn. unfold read_mark. cbn [fst snd]. by rewrite Hlink.
Qed.

(** ** Writing *)

Section write.
Context `{SchemaLaws}.

Lemma push_style_ok marks e :
  known_style e = true →
  ∃ m, push_style marks e = Ok (marks ++ [m]) ∧ mark_entry m = e ∧ style_mark m = true.
Proof.
  destruct e as [k v]. unfold known_style, push_style, mark_entry, style_mark, known_mark. cbn [fst snd].
  intros Hk. destruct (is_toggle k) eqn:Et; bool_simpl.
  - destruct (mark_toggle k Et) as (a & ->). eexists. split; [done|]. cbn [m_type].
    rewrite Et. destruct (String.eqb_spec k "link") as [->|]; [done|]. by subst v.
  - destruct (mark_color k v) as (a & -> & Ha); [done..|].
    destruct (is_color k) eqn:Ec; [|done]. eexists. split; [done|]. cbn [m_type m_attrs].
    rewrite Et, Ha, Ec. split; [done|]. destruct (String.eqb_spec k "link") as [->|]; [done|].
    by rewrite bool_decide_false.
Qed.

Lemma style_marks_ok styles :
  forallb known_style styles = true →
  ∃ ms, style_marks styles = Ok ms ∧ mark_entry <$> ms = styles ∧ forallb style_mark ms = true.
Proof.
  unfold style_marks. intros Hs.
  assert (∀ marks, ∃ ms, fold_result push_style marks styles = Ok (marks ++ ms) ∧
    mark_entry <$> ms = styles ∧ forallb style_mark ms = true) as Hg; [|by apply Hg].
  induction styles as [|e styles IH]; intros marks; [exists []; by rewrite app_nil_r|].
  cbn [forallb] in Hs. bool_simpl. destruct (push_style_ok marks e) as (m & E & He & Hm); [done|].
  cbn [fold_result]. rewrite E. cbn [rbind]. destruct (IH ltac:(done) (marks ++ [m])) as (ms & -> & <- & Hms).
  exists (m :: ms). rewrite <- app_assoc. cbn. by rewrite He, Hm, Hms.
Qed.

(** The styles as they come back from the marks made of them. *)
Definition marks_of (styles : Styles) : list Mark :=
  match style_marks styles with Ok ms => ms | Err _ => [] end.
Definition stored_styles (styles : Styles) : Styles := mark_entry <$> mark_set (marks_of styles).
Definition in_order (styles : Styles) : Prop :=
  StronglySorted (λ a b, (mark_rank a < mark_rank b)%Z) (okeys styles).

Lemma marks_of_ok styles :
  forallb known_style styles = true →
  style_marks styles = Ok (marks_of styles) ∧ mark_entry <$> marks_of styles = styles ∧
  forallb style_mark (marks_of styles) = true ∧ m_type <$> marks_of styles = okeys styles.
Proof.
  intros (ms & E & Hms & Hs)%style_marks_ok. unfold marks_of. rewrite E.
  split; [done|]. split; [done|]. split; [done|]. by rewrite <- mark_entry_types, Hms.
Qed.

Lemma StronglySorted_fmap {A B} (f : A → B) (R : B → B → Prop) l :
  StronglySorted R (f <$> l) → StronglySorted (λ x y, R (f x) (f y)) l.
Proof.
  induction l as [|x l IH]; [constructor|]. inversion_clear 1 as [|?? Hl Hx].
  constructor; [by apply IH|].
  apply (proj1 (Forall_fmap f (R (f x)) l)). exact Hx.
Qed.

Lemma stored_styles_perm styles : styles_ok styles → stored_styles styles ≡ₚ styles.
Proof.
  intros [Hs Hw]. destruct (marks_of_ok styles Hs) as (_ & He & _ & Ht).
  unfold stored_styles. rewrite mark_set_perm; [by rewrite He|]. by rewrite Ht.
Qed.
Lemma stored_styles_in_order styles :
  forallb known_style styles = true → in_order styles → stored_styles styles = styles.
Proof.
  intros Hs Ho. destruct (marks_of_ok styles Hs) as (_ & He & _ & Ht).
  unfold stored_styles. rewrite mark_set_sorted; [done|].
  apply (StronglySorted_fmap m_type (λ a b, (mark_rank a < mark_rank b)%Z)). by rewrite Ht.
Qed.

(** The marks of a written text, as they are read. *)
Lemma read_stored_marks styles link :
  styles_ok styles → (∀ m, link = Some m → m_type m = "link") →
  read_marks (mark_set (marks_of styles) ++ opt_list link) = Ok (stored_styles styles, link).
Proof.
  intros [Hs Hw] Hl. destruct (marks_of_ok styles Hs) as (_ & _ & Hm & Ht).
  assert (NoDup (m_type <$> marks_of styles)) as Hnd by by rewrite Ht.
  apply read_style_marks; [| |done].
  - apply forallb_forall. intros m Hin. rewrite forallb_forall in Hm. apply Hm.
    apply list_elem_of_In. rewrite <- mark_set_perm by done. by apply list_elem_of_In.
  - by rewrite mark_set_perm.
Qed.

(** *** The nodes of a text *)

Definition break_node : PNode :=
  PElem "hardBreak" (compute_attrs (default [] (node_spec "hardBreak")) []) (fragment []) [].
Definition piece_node (ms : list Mark) (p : string) : PNode :=
  if String.eqb p (String LF "") then break_node else PText p ms.
Definition text_nodes (link : option Mark) (t : StyledText) : list PNode :=
  piece_node (mark_set (marks_of (st_styles t)) ++ opt_list link) <$>
  List.filter truthy (split_breaks (st_text t)).

Lemma create_break : schema_create "hardBreak" None [] = Ok break_node.
Proof.
  unfold break_node. destruct has_break as [ds E]. rewrite E. by rewrite (create_ok _ ds).
Qed.

Lemma map_result_fmap {A B} (f : A → result B) (g : A → B) l :
  (∀ x, x ∈ l → f x = Ok (g x)) → map_result f l = Ok (g <$> l).
Proof.
  intros Hf. apply map_result_ok. rewrite Forall2_fmap_r. apply Forall_Forall2_diag.
  by apply Forall_forall.
Qed.

Lemma styledTextToNodes_ok t :
  styles_ok (st_styles t) → styledTextToNodes t = Ok (text_nodes None t).
Proof.
  intros [Hs _]. unfold styledTextToNodes, text_nodes.
  destruct (marks_of_ok _ Hs) as (-> & _). cbn [rbind opt_list]. rewrite app_nil_r.
  apply map_result_fmap. intros p Hp. unfold piece_node.
  destruct (String.eqb p (String LF "")); [apply create_break|].
  apply text_ok. by eapply split_breaks_pieces.
Qed.

Lemma fold_push_ok {A B} (f : A → result (list B)) (g : A → list B) l acc :
  (∀ x, x ∈ l → f x = Ok (g x)) →
  fold_result (λ nodes t, let* ns := f t in Ok (nodes ++ ns)) acc l = Ok (acc ++ concat (g <$> l)).
Proof.
  revert acc. induction l as [|x l IH]; intros acc Hf; [by rewrite app_nil_r|].
  cbn [fold_result]. rewrite Hf by left. cbn [rbind]. rewrite IH by (intros; apply Hf; by right).
  by rewrite <- app_assoc.
Qed.

Lemma styledTextArrayToNodes_ok l :
  Forall (λ t, styles_ok (st_styles t)) l →
  styledTextArrayToNodes (LinkTexts l) = Ok (concat (text_nodes None <$> l)).
Proof.
  intros Hl. cbn [styledTextArrayToNodes]. rewrite (fold_push_ok _ (text_nodes None)); [done|].
  intros t Ht. apply styledTextToNodes_ok. rewrite Forall_forall in Hl. auto.
Qed.

Lemma mark_link_piece lk ms p :
  mark_link lk (piece_node ms p) = Ok (piece_node (ms ++ [lk]) p).
Proof.
  unfold piece_node. destruct (String.eqb p (String LF "")); [done|].
  unfold mark_link. cbn [n_type n_marks]. by rewrite node_mark_text.
Qed.

Lemma linkToNodes_ok href l :
  href ≠ VUndef → Forall (λ t, styles_ok (st_styles t)) l →
  ∃ lk, m_type lk = "link" ∧ mark_href lk = href ∧
    linkToNodes href (LinkTexts l) = Ok (concat (text_nodes (Some lk) <$> l)).
Proof.
  intros (a & E & Ha)%mark_href_ok Hl. exists {| m_type := "link"; m_attrs := a |}.
  split; [done|]. split; [done|]. unfold linkToNodes. rewrite E. cbn [rbind].
  rewrite styledTextArrayToNodes_ok by done. cbn [rbind]. clear Hl.
  apply map_result_ok. induction l as [|t l IH]; [constructor|]. rewrite !fmap_cons. cbn [concat].
  apply Forall2_app; [|done]. unfold text_nodes. rewrite Forall2_fmap. apply Forall_Forall2_diag.
  apply Forall_true. intros p. rewrite mark_link_piece. cbn [opt_list]. by rewrite app_nil_r.
Qed.

(** *** Their units *)

Lemma mark_type_link m : style_mark m = true → m_type m ≠ "link".
Proof. unfold style_mark. intros ?. by bool_simpl. Qed.
Lemma style_mark_known m : style_mark m = true → known_mark m = true.
Proof. unfold style_mark. intros ?. by bool_simpl. Qed.

Lemma piece_node_units ms p :
  node_units (piece_node ms p) = piece_units (marks_styles ms) (marks_link ms) p.
Proof. unfold piece_node, piece_units. by destruct (String.eqb p (String LF "")). Qed.

Lemma text_nodes_units t link :
  styles_ok (st_styles t) → (∀ m, link = Some m → m_type m = "link") →
  nodes_units (text_nodes link t) =
  text_units (mark_href <$> link)
    {| st_text := st_text t; st_styles := stored_styles (st_styles t) |}.
Proof.
  intros Ht Hl. pose proof (read_stored_marks _ link Ht Hl) as E.
  unfold text_nodes, nodes_units. rewrite <- list_fmap_compose.
  erewrite list_fmap_ext by (intros; apply piece_node_units).
  unfold marks_styles, marks_link. rewrite E. cbn [fst snd].
  by rewrite split_breaks_units.
Qed.

Lemma text_nodes_inline t link :
  styles_ok (st_styles t) → (∀ m, link = Some m → m_type m = "link") →
  forallb inline_node (text_nodes link t) = true.
Proof.
  intros [Hs Hw] Hl. destruct (marks_of_ok _ Hs) as (_ & _ & Hm & Ht).
  apply forallb_forall. intros n (p & -> & Hp)%list_elem_of_In%list_elem_of_fmap.
  apply split_breaks_pieces in Hp. unfold piece_node.
  destruct (String.eqb p (String LF "")); [done|]. cbn [inline_node].
  apply truthy_spec in Hp as ->. cbn [andb]. rewrite forallb_app. apply andb_true_iff. split.
  - apply forallb_forall. intros m Hin. apply style_mark_known.
    rewrite forallb_forall in Hm. apply Hm, list_elem_of_In.
    rewrite <- mark_set_perm by by rewrite Ht. by apply list_elem_of_In.
  - destruct link as [m|]; [|done]. cbn. unfold known_mark. by rewrite Hl.
Qed.

(** *** Whole contents *)

(** A unit that was written: its styles may have been put in the order of the schema. *)
Inductive written : Unit → Unit → Prop :=
| written_char c s' s link :
    s' ≡ₚ s → (in_order s → s' = s) → written (UChar c s' link) (UChar c s link)
| written_break : written UBreak UBreak
| written_embed ref : written (UEmbed ref [] None) (UEmbed ref [] None).

Lemma text_units_written link t :
  styles_ok (st_styles t) →
  Forall2 written
    (text_units link {| st_text := st_text t; st_styles := stored_styles (st_styles t) |})
    (text_units link t).
Proof.
  intros Ht. unfold text_units. cbn [st_text st_styles]. rewrite Forall2_fmap.
  apply Forall_Forall2_diag, Forall_true. intros c. cbn [plain].
  destruct (Ascii.eqb c LF); constructor; [by apply stored_styles_perm|].
  apply stored_styles_in_order. apply Ht.
Qed.

Lemma texts_written link l :
  Forall (λ t, styles_ok (st_styles t)) l → (∀ m, link = Some m → m_type m = "link") →
  forallb inline_node (concat (text_nodes link <$> l)) = true ∧
  Forall2 written (nodes_units (concat (text_nodes link <$> l)))
    (concat (text_units (mark_href <$> link) <$> l)).
Proof.
  intros Hl Hm. induction Hl as [|t l Ht _ [IH1 IH2]]; [by repeat constructor|].
  rewrite !fmap_cons. cbn [concat]. rewrite forallb_app, text_nodes_inline by done.
  split; [done|]. unfold nodes_units. rewrite fmap_app, concat_app.
  apply Forall2_app; [|exact IH2]. change (concat _) with (nodes_units (text_nodes link t)).
  rewrite text_nodes_units by done. by apply text_units_written.
Qed.

Lemma fragment_nil : fragment [] = [].
Proof.
  pose proof (fragment_joined []) as Hj. inversion Hj as [|l s t ms k l' _ E]; [done|].
  by destruct l.
Qed.

Lemma attr_compute_attrs ds given k d :
  oget ds k = Some d →
  attr (compute_attrs ds given) k = if bool_decide (attr given k = VUndef) then d else attr given k.
Proof.
  unfold attr at 1, compute_attrs. induction ds as [|[j w] ds IH]; [done|]. cbn.
  destruct (String.eqb_spec k j) as [->|]; [by intros [= ->]|exact IH].
Qed.
Lemma compute_attrs_given ds given k d :
  oget ds k = Some d → attr given k ≠ VUndef → attr (compute_attrs ds given) k = attr given k.
Proof. intros Hd Hg. rewrite (attr_compute_attrs _ _ _ d) by done. by rewrite bool_decide_false. Qed.

Lemma inlineToNodes_ok i :
  inline_ok i →
  ∃ ns, inlineToNodes (as_partial i) = Ok ns ∧ forallb inline_node ns = true ∧
        Forall2 written (nodes_units ns) (inline_units i).
Proof.
  destruct i as [t|href c|ref]; cbn [inline_ok as_partial inlineToNodes].
  - intros Ht. assert (Forall (λ t, styles_ok (st_styles t)) [t]) as Hl by by apply list.Forall_singleton.
    rewrite styledTextArrayToNodes_ok by done.
    eexists. split; [done|]. cbn [inline_units].
    destruct (texts_written None [t] Hl) as [H1 H2]; [done|].
    split; [exact H1|]. rewrite <- (app_nil_r (text_units None t)). exact H2.
  - intros [Hh Hc]. destruct (linkToNodes_ok href c Hh Hc) as (lk & Hlk & <- & ->).
    eexists. split; [done|]. apply (texts_written (Some lk)); [done|]. by intros ? [= <-].
  - intros Hr. destruct has_embed as (ds & E & [d Hd]). rewrite (create_ok _ ds) by done.
    cbn [rbind]. eexists. split; [done|]. cbn [forallb inline_node default]. rewrite fragment_nil.
    split; [done|]. unfold nodes_units. cbn.
    assert (attr (compute_attrs ds [("ref", ref)]) "ref" = ref) as ->; [|repeat constructor].
    by rewrite (compute_attrs_given _ _ _ d).
Qed.

Lemma inlineContentToNodes_ok c :
  Forall inline_ok c →
  ∃ ns, inlineContentToNodes (as_partial <$> c) = Ok ns ∧ forallb inline_node ns = true ∧
        Forall2 written (nodes_units ns) (content_units c).
Proof.
  intros Hc. unfold inlineContentToNodes.
  assert (∀ acc, ∃ ns,
    fold_result (λ nodes i, let* ns := inlineToNodes i in Ok (nodes ++ ns)) acc (as_partial <$> c) =
      Ok (acc ++ ns) ∧ forallb inline_node ns = true ∧
    Forall2 written (nodes_units ns) (content_units c)) as Hg; [|by apply Hg].
  induction Hc as [|i c Hi _ IH]; intros acc.
  { exists []. by rewrite app_nil_r. }
  destruct (inlineToNodes_ok i Hi) as (ns & E & Hn & Hw).
  rewrite fmap_cons. cbn [fold_result]. rewrite E. cbn [rbind].
  destruct (IH (acc ++ ns)) as (ns' & -> & Hn' & Hw'). exists (ns ++ ns').
  rewrite app_assoc, forallb_app, Hn, Hn'. split; [done|]. split; [done|].
  unfold nodes_units, content_units. rewrite fmap_app, concat_app. by apply Forall2_app.
Qed.

(** *** Through [Fragment.from] *)

Lemma joined_units l l' :
  joined l l' → nodes_units l' = nodes_units l ∧
                (forallb inline_node l = true → forallb inline_node l' = true).
Proof.
  induction 1 as [l|l s t ms k l' _ [IH1 IH2]]; [done|]. split.
  - rewrite IH1. unfold nodes_units. rewrite !fmap_app, !fmap_cons, !concat_app. cbn [concat node_units].
    by rewrite chars_app, fmap_app, <- app_assoc.
  - intros Hl. apply IH2. rewrite forallb_app in *. cbn [forallb inline_node] in *. bool_simpl.
    repeat (apply andb_true_iff; split); try done. by destruct s.
Qed.

Lemma plain_idem u : plain (plain u) = plain u.
Proof. destruct u as [c s l| |]; [|done..]. cbn. by destruct (Ascii.eqb c LF) eqn:E; cbn; rewrite ?E. Qed.

Lemma content_units_plain c : plain <$> content_units c = content_units c.
Proof.
  assert (Forall (λ u, plain u = u) (content_units c)) as Hc.
  { apply Forall_concat, Forall_fmap, Forall_true. intros [t|href l|ref]; cbn; [| |by repeat constructor].
    - apply Forall_fmap, Forall_true. intros x. apply plain_idem.
    - apply Forall_concat, Forall_fmap, Forall_true. intros t.
      apply Forall_fmap, Forall_true. intros x. apply plain_idem. }
  induction Hc as [|u us Hu _ IH]; [done|]. by rewrite fmap_cons, Hu, IH.
Qed.

Lemma written_plain us c :
  Forall2 written us (content_units c) → Forall2 written (plain <$> us) (content_units c).
Proof.
  intros Hw. rewrite <- content_units_plain, Forall2_fmap. eapply Forall2_impl; [exact Hw|].
  intros ?? [d s' s link| |]; cbn; [destruct (Ascii.eqb d LF)|..]; by constructor.
Qed.

(** What [inlineContentToNodes] writes is read back by [contentNodeToInlineContent]
    with the same characters, line breaks, links and embeds in the same places; the
    styles of a character are the same too, up to the order of their keys, which stays
    if it is that of the schema. *)
Theorem inline_content_roundtrip c n ns :
  Forall inline_ok c →
  inlineContentToNodes (as_partial <$> c) = Ok ns → n_content n = fragment ns →
  ∃ c', contentNodeToInlineContent n = Ok c' ∧ Forall2 written (content_units c') (content_units c).
Proof.
  intros Hc E Hn. destruct (inlineContentToNodes_ok c Hc) as (ns' & E' & Hi & Hw).
  rewrite E in E'. apply Ok_inj in E' as <-.
  destruct (joined_units _ _ (fragment_joined ns)) as [Hu Hin]. specialize (Hin Hi).
  eexists. split; [apply read_content; by rewrite Hn|]. rewrite Hn, Hu.
  rewrite regroup_units by by apply nodes_units_ok. by apply written_plain.
Qed.

(** ** What the editor holds *)

(** A content node as the editor keeps it: text without line feeds, marks in the order
    of the schema, embeds without marks and with their reference. *)
Definition marks_in_order (ms : list Mark) : Prop :=
  StronglySorted (λ a b, mark_rank (m_type a) < mark_rank (m_type b))%Z ms.
Definition held_node (n : PNode) : Prop :=
  inline_node n = true ∧
  match n with
  | PText s ms => lacks LF s = true ∧ marks_in_order ms ∧ marks_link ms ≠ Some VUndef
  | PElem t a _ ms => ms = [] ∧ (t = "inline-embed" → attr a "ref" ≠ VUndef)
  end.

(** The unit of a held node: a character that is no line feed, with styles in order. *)
Definition held_unit (u : Unit) : Prop :=
  plain u = u ∧
  match u with
  | UChar _ s l => styles_ok s ∧ in_order s ∧ l ≠ Some VUndef
  | UBreak => True
  | UEmbed ref _ _ => ref ≠ VUndef
  end.

(** Held units make content that can be written. *)
Lemma inlines_snoc l i : Forall inline_ok l → inline_ok i → Forall inline_ok (l ++ [i]).
Proof. intros Hl Hi. apply Forall_app. split; [done|by constructor]. Qed.
Lemma inlines_snoc_inv l i : Forall inline_ok (l ++ [i]) → Forall inline_ok l ∧ inline_ok i.
Proof. intros [Hl Hi]%Forall_app. split; [done|]. by inversion Hi. Qed.

Lemma append_last_ok c s :
  Forall (λ t, styles_ok (st_styles t)) c → Forall (λ t, styles_ok (st_styles t)) (append_last c s).
Proof.
  destruct c as [|c t _] using rev_ind; [done|]. rewrite append_last_snoc, !Forall_app.
  intros [Hc Ht]. split; [done|]. inversion_clear Ht. by constructor.
Qed.

Lemma new_content_ok s styles link :
  styles_ok styles → link ≠ Some VUndef →
  inline_ok (new_content link {| st_text := s; st_styles := styles |}).
Proof.
  intros Hs Hl. destruct link as [h|]; cbn; [|done]. split; [congruence|].
  by apply list.Forall_singleton.
Qed.

Lemma read_text_ok s styles link d cur :
  styles_ok styles → link ≠ Some VUndef → Forall inline_ok (d ++ opt_list cur) →
  let st := read_text s styles link (d, cur) in Forall inline_ok (st.1 ++ opt_list st.2).
Proof.
  intros Hs Hl Hd. pose proof (new_content_ok s styles link Hs Hl) as Hnew.
  unfold read_text. cbn [fst snd].
  destruct cur as [[t|href c|ref]|]; cbn [opt_list] in *; [| |done|].
  - apply inlines_snoc_inv in Hd as [Hd Ht].
    destruct link as [h|]; [|destruct (same_json _ _)]; cbn [fst snd opt_list];
      repeat apply inlines_snoc; done.
  - apply inlines_snoc_inv in Hd as [Hd [Hh Hc]].
    destruct link as [h|]; [case_bool_decide; [destruct (from_option _ _ _)|]|];
      cbn [fst snd opt_list]; repeat apply inlines_snoc; try done; (split; [done|]).
    + by apply append_last_ok.
    + apply Forall_app. split; [done|]. by apply list.Forall_singleton.
  - rewrite app_nil_r in Hd. cbn [fst snd opt_list]. by apply inlines_snoc.
Qed.

Lemma styles_ok_nil : styles_ok [].
Proof. split; [done|constructor]. Qed.

Lemma add_unit_ok u d cur :
  held_unit u → Forall inline_ok (d ++ opt_list cur) →
  let st := add_unit (d, cur) u in Forall inline_ok (st.1 ++ opt_list st.2).
Proof.
  destruct u as [c s l| |ref s l]; intros [Hp Hu] Hd; cbn [add_unit].
  - destruct Hu as (Hs & _ & Hl). by apply read_text_ok.
  - unfold read_break. cbn [fst snd]. destruct cur as [[t|href c|r]|]; cbn [opt_list] in *; [| |done|].
    + apply inlines_snoc_inv in Hd as [Hd Ht]. by apply inlines_snoc.
    + apply inlines_snoc_inv in Hd as [Hd [Hh Hc]]. apply inlines_snoc; [done|]. split; [done|].
      by apply append_last_ok.
    + rewrite app_nil_r in Hd. apply inlines_snoc; [done|]. apply styles_ok_nil.
  - cbn in Hp. injection Hp as <- <-. apply read_text_ok; [apply styles_ok_nil|done|].
    unfold read_embed. cbn [fst snd opt_list]. rewrite app_nil_r, app_assoc. by apply inlines_snoc.
Qed.

Lemma regroup_ok us : Forall held_unit us → Forall inline_ok (regroup us).
Proof.
  intros Hus. unfold regroup.
  assert (∀ d cur, Forall inline_ok (d ++ opt_list cur) →
    let st := foldl add_unit (d, cur) us in Forall inline_ok (st.1 ++ opt_list st.2)) as Hg; [|by apply Hg].
  induction Hus as [|u us Hu _ IH]; intros d cur Hd; [done|]. cbn [foldl].
  pose proof (add_unit_ok u d cur Hu Hd) as Ha. destruct (add_unit (d, cur) u). by apply IH.
Qed.

Lemma in_order_NoDup ms : marks_in_order ms → NoDup (m_type <$> ms).
Proof.
  induction 1 as [|m ms _ IH Hm]; [constructor|]. rewrite fmap_cons. constructor; [|done].
  intros (m' & E & Hin)%list_elem_of_fmap. rewrite Forall_forall in Hm.
  specialize (Hm m' Hin). rewrite E in Hm. lia.
Qed.

Lemma marks_styles_entries ms :
  forallb known_mark ms = true → marks_in_order ms →
  marks_styles ms = mark_entry <$> List.filter style_mark ms.
Proof.
  intros Hms Ho. unfold marks_styles, read_marks.
  rewrite read_marks_entries; [done|done|by apply in_order_NoDup|intros; apply not_elem_of_nil].
Qed.

Lemma filter_sorted {A} (R : A → A → Prop) f l :
  StronglySorted R l → StronglySorted R (List.filter f l).
Proof.
  induction 1 as [|x l _ IH Hx]; [constructor|]. cbn. destruct (f x); [|done].
  constructor; [done|]. apply Forall_forall. intros y Hy.
  apply list_elem_of_In, List.filter_In in Hy as [Hy%list_elem_of_In _].
  rewrite Forall_forall in Hx. auto.
Qed.

Lemma fmap_sorted {A B} (f : A → B) (R : B → B → Prop) l :
  StronglySorted (λ x y, R (f x) (f y)) l → StronglySorted R (f <$> l).
Proof.
  induction 1 as [|x l _ IH Hx]; [constructor|]. rewrite fmap_cons. constructor; [done|].
  by apply Forall_fmap.
Qed.

Lemma mark_entry_known m : style_mark m = true → known_style (mark_entry m) = true.
Proof.
  unfold style_mark, known_mark, known_style, mark_entry. cbn [fst snd].
  destruct (String.eqb (m_type m) "link"); [done|]. destruct (is_toggle (m_type m)); done.
Qed.

Lemma marks_styles_held ms :
  forallb known_mark ms = true → marks_in_order ms →
  styles_ok (marks_styles ms) ∧ in_order (marks_styles ms).
Proof.
  intros Hms Ho. rewrite marks_styles_entries by done. pose proof (filter_sorted _ style_mark _ Ho) as Hf.
  unfold styles_ok, in_order, owf, okeys. rewrite mark_entry_types. split; [split|].
  - apply forallb_forall. intros e (m & -> & Hm)%list_elem_of_In%list_elem_of_fmap.
    apply mark_entry_known. by apply list_elem_of_In, List.filter_In in Hm as [_ Hm].
  - by apply in_order_NoDup.
  - by apply fmap_sorted.
Qed.

Lemma held_node_units n : held_node n → Forall held_unit (node_units n).
Proof.
  destruct n as [s ms|t a c ms]; intros [Hi Hn]; cbn [node_units inline_node] in *.
  - destruct Hn as (Hs & Ho & Hl). bool_simpl. destruct (marks_styles_held ms) as [Hk1 Hk2]; [done..|].
    apply Forall_fmap, Forall_forall. intros c Hc. split; [|by split_and!]. cbn.
    destruct (Ascii.eqb_spec c LF) as [->|]; [|done]. exfalso.
    clear -Hs Hc. unfold chars in Hc. induction s as [|d s IH]; [by apply elem_of_nil in Hc|].
    rewrite lacks_cons in Hs. bool_simpl.
    apply elem_of_cons in Hc as [<-|Hc]; [by rewrite Ascii.eqb_refl in *|auto].
  - destruct Hn as [-> Ht]. destruct (String.eqb_spec t "hardBreak"); [by repeat constructor|].
    cbn in Hi. bool_simpl. repeat constructor. cbn. auto.
Qed.

Lemma held_nodes_units l : Forall held_node l → Forall held_unit (nodes_units l).
Proof.
  intros Hl. apply Forall_concat, Forall_fmap. eapply list.Forall_impl; [exact Hl|].
  apply held_node_units.
Qed.

Lemma held_inline l : Forall held_node l → forallb inline_node l = true.
Proof.
  intros Hl. apply forallb_forall. intros n Hn%list_elem_of_In. rewrite Forall_forall in Hl.
  by apply Hl.
Qed.

Lemma written_held us vs : Forall held_unit vs → Forall2 written us vs → us = vs.
Proof.
  intros Hv Hw. revert Hv. induction Hw as [|u v us vs Hu _ IH]; [done|].
  inversion_clear 1 as [|?? Hh Hvs]. rewrite IH by done. f_equal.
  destruct Hu as [c s' s link Hp Ho| |]; [|done..]. destruct Hh as [_ (_ & Hs & _)].
  by rewrite Ho.
Qed.

Lemma held_plain us : Forall held_unit us → plain <$> us = us.
Proof. induction 1 as [|u us [Hu _] _ IH]; [done|]. by rewrite fmap_cons, Hu, IH. Qed.

Lemma styles_ok_defined styles : styles_ok styles → defined styles.
Proof.
  intros [Hs _]. apply filter_all. intros [k v] He. rewrite forallb_forall in Hs.
  specialize (Hs (k, v)). apply list_elem_of_In in He. specialize (Hs He). unfold known_style in Hs.
  cbn [fst snd] in *. destruct (is_toggle k); bool_simpl;
    [subst v; by rewrite bool_decide_false|].
  apply negb_true_iff. by apply bool_decide_eq_false.
Qed.
Lemma held_unit_ok u : held_unit u → unit_ok u.
Proof.
  destruct u as [c s l| |ref s l]; intros [Hp Hu]; [apply styles_ok_defined, Hu|done|].
  cbn in Hp. by injection Hp as <- <-.
Qed.

(** The content of a block of the editor, read as inline content, written to nodes
    again and read once more, is the same inline content: nothing is merged, split,
    moved or restyled on the way. *)
Theorem editor_content_stable n n' c :
  Forall held_node (n_content n) →
  contentNodeToInlineContent n = Ok c →
  ∃ ns, inlineContentToNodes (as_partial <$> c) = Ok ns ∧
        nodes_units ns = nodes_units (n_content n) ∧
        (n_content n' = fragment ns → contentNodeToInlineContent n' = Ok c).
Proof.
  intros Hn E. rewrite read_content in E by by apply held_inline. apply Ok_inj in E as <-.
  set (us := nodes_units (n_content n)) in *.
  assert (Forall held_unit us) as Hus by by apply held_nodes_units.
  destruct (inlineContentToNodes_ok (regroup us)) as (ns & -> & Hi & Hw); [by apply regroup_ok|].
  rewrite regroup_units in Hw.
  2:{ eapply list.Forall_impl; [exact Hus|]. apply held_unit_ok. }
  rewrite held_plain in Hw by done. apply written_held in Hw; [|done].
  exists ns. split; [done|]. split; [done|]. intros Hn'.
  destruct (joined_units _ _ (fragment_joined ns)) as [Hu Hin].
  rewrite read_content by (rewrite Hn'; auto). by rewrite Hn', Hu, Hw.
Qed.
End write.
