(* ===== verification/BlockNodes.v ===== *)
(** * Blocks and their nodes as trees

    [nodeToBlock] with its cache, a store of shared objects that saves write to, gives
    what it would give without but for the list props that were written; and a block
    that was made into a node is read back with its id, type, content and children, and
    with the attributes of its node as props. *)
From S2P Require Import Prelude.
From S2P Require Import JsString.
From S2P Require Import JsObject.
From S2P Require Import DaemonApi.
From S2P Require Import NodeConvert.
From S2P Require Import NodeConvertFacts.
From S2P Require Import NodeRoundtrip.

(** ** Induction over nodes and partial blocks *)

Section pnode_ind.
Variable P : PNode → Prop.
Hypothesis Htext : ∀ s ms, P (PText s ms).
Hypothesis Helem : ∀ t a c ms, Forall P c → P (PElem t a c ms).

Fixpoint pnode_tree_ind (n : PNode) : P n :=
  match n with
  | PText s ms => Htext s ms
  | PElem t a c ms =>
      Helem t a c ms
        ((fix go (l : list PNode) : Forall P l :=
            match l with
            | [] => list.Forall_nil_2 P
            | x :: l' => list.Forall_cons_2 P x l' (pnode_tree_ind x) (go l')
            end) c)
  end.
End pnode_ind.

Section pblock_ind.
Variable P : PartialBlock → Prop.
Hypothesis Hblock : ∀ i t p c l, Forall P (default [] l) → P (PBlock i t p c l).

Fixpoint pblock_tree_ind (b : PartialBlock) : P b :=
  match b with
  | PBlock i t p c l =>
      Hblock i t p c l
        (match l as l' return Forall P (default [] l') with
         | None => list.Forall_nil_2 P
         | Some k =>
             (fix go (k : list PartialBlock) : Forall P k :=
                match k with
                | [] => list.Forall_nil_2 P
                | x :: k' => list.Forall_cons_2 P x k' (pblock_tree_ind x) (go k')
                end) k
         end)
  end.
End pblock_ind.

(** ** Blocks that differ in their props *)

Section block_ind.
Variable P : Block → Prop.
Hypothesis Hblk : ∀ i t p c l, Forall P l → P (Blk i t p c l).

Fixpoint read_block_ind (b : Block) : P b :=
  match b with
  | Blk i t p c l =>
      Hblk i t p c l
        ((fix go (l : list Block) : Forall P l :=
            match l with
            | [] => list.Forall_nil_2 P
            | x :: l' => list.Forall_cons_2 P x l' (read_block_ind x) (go l')
            end) l)
  end.
End block_ind.

(** The same blocks, but for the props, which are in a relation. *)
Inductive alike (R : Attrs → Attrs → Prop) : Block → Block → Prop :=
| Alike i t p p' c l l' : R p p' → Forall2 (alike R) l l' → alike R (Blk i t p c l) (Blk i t p' c l').

Lemma alike_refl R b : (∀ p, R p p) → alike R b b.
Proof.
  intros HR. induction b as [i t p c l IH] using read_block_ind. constructor; [done|].
  induction IH; by constructor.
Qed.
Lemma alike_eq b b' : alike eq b b' → b = b'.
Proof.
  revert b'. induction b as [i t p c l IH] using read_block_ind. intros b' H. inversion H as [? ? ? ? ? ? l' <- Hl]; subst.
  f_equal. clear H. induction Hl as [|x y l l' Hx _ IHl]; [done|]. inversion_clear IH. f_equal; auto.
Qed.
Lemma alike_trans R b1 b2 b3 : (∀ p q r, R p q → R q r → R p r) → alike R b1 b2 → alike R b2 b3 → alike R b1 b3.
Proof.
  intros HR. revert b2 b3. induction b1 as [i t p c l IH] using read_block_ind. intros b2 b3 H1 H2.
  inversion H1 as [? ? ? ? ? ? l' ? Hl]; subst. inversion H2 as [? ? ? ? ? ? l'' ? Hl']; subst.
  constructor; [by eapply HR|]. clear H1 H2. revert l'' Hl'. induction Hl as [|x y l l' Hx _ IHl]; intros l'' Hl'.
  - by inversion Hl'.
  - inversion_clear Hl'. inversion_clear IH. constructor; [eauto|]. auto.
Qed.

(** The props of the list that a block's children are in. *)
Definition list_prop (k : string) : bool := existsb (String.eqb k) ["childrenType"; "listLevel"; "start"].
Definition but_list (p q : Attrs) : Prop := ∀ k, list_prop k = false → oget p k = oget q k.

(** ** The objects of the blocks *)

Lemma block_at_lt h a b : block_at h a = Some b → a < length h.
Proof.
  induction h as [|o h IH]; [done|]. cbn. destruct (Nat.eqb_spec a (length h)); [lia|]. intros E%IH. lia.
Qed.
Lemma block_at_older o h a b : block_at h a = Some b → block_at (o :: h) a = Some b.
Proof.
  intros E. pose proof (block_at_lt h a b E). cbn. destruct (Nat.eqb_spec a (length h)); [lia|done].
Qed.
Lemma block_at_new o h : block_at (o :: h) (length h) =
  Some (Blk (bo_id o) (bo_type o) (bo_props o) (bo_content o) (omap (block_at h) (bo_children o))).
Proof. cbn. by rewrite Nat.eqb_refl. Qed.
Lemma length_write_at f h a : length (write_at f h a) = length h.
Proof. induction h as [|o h IH]; [done|]. cbn. destruct (Nat.eqb a (length h)); cbn; by rewrite ?IH. Qed.
Lemma omap_alike R (f g : nat → option Block) l :
  (∀ a, option_Forall2 (alike R) (f a) (g a)) → Forall2 (alike R) (omap f l) (omap g l).
Proof.
  intros H. induction l as [|a l IH]; [constructor|]. cbn. destruct (H a); [by constructor|exact IH].
Qed.
(** A write to the props of one block is seen wherever that block is. *)
Lemma write_at_alike R f h a :
  (∀ p, R p p) →
  (∀ o, bo_id (f o) = bo_id o ∧ bo_type (f o) = bo_type o ∧ bo_content (f o) = bo_content o ∧
        bo_children (f o) = bo_children o ∧ R (bo_props (f o)) (bo_props o)) →
  ∀ x, option_Forall2 (alike R) (block_at (write_at f h a) x) (block_at h x).
Proof.
  intros HR Hf. induction h as [|o h IH]; intros x; [constructor|]. cbn [write_at block_at].
  destruct (Nat.eqb_spec a (length h)) as [->|Ha]; cbn [block_at]; rewrite ?length_write_at.
  - destruct (Nat.eqb_spec x (length h)) as [->|Hx].
    + destruct (Hf o) as (E1 & E2 & E3 & E4 & E5). rewrite E1, E2, E3, E4. constructor. constructor; [done|].
      apply omap_alike. intros y. destruct (block_at h y); constructor. by apply alike_refl.
    + destruct (block_at h x); constructor. by apply alike_refl.
  - destruct (Nat.eqb_spec x (length h)) as [->|Hx]; [|exact (IH x)]. constructor. constructor; [done|]. by apply omap_alike.
Qed.
Lemma write_group_keeps ct ll st o :
  let o' := write_group ct ll st o in
  bo_id o' = bo_id o ∧ bo_type o' = bo_type o ∧ bo_content o' = bo_content o ∧
  bo_children o' = bo_children o ∧ but_list (bo_props o') (bo_props o).
Proof.
  split_and!; try done. intros k Hk. unfold list_prop in Hk. cbn in Hk. rewrite !orb_false_iff in Hk.
  destruct Hk as (H1 & H2 & H3 & _). apply String.eqb_neq in H1, H2, H3. cbn [write_group bo_props].
  destruct st; by rewrite !oget_oset_ne.
Qed.

(** ** Reading without a cache *)

(** The children of a block container's group. *)
Definition group_kids (n : PNode) : list PNode :=
  match n with PElem _ _ [_; PElem _ _ kids _] _ => kids | _ => [] end.

Section cache.
Context `{Schema} {G : Type} (generateID : call G string).
Context (bs : obj (obj PropSpec)).

(** The block of a node whose containers all have an id: the reference. *)
Fixpoint readBlock (node : PNode) : result Block :=
  if negb (String.eqb (n_type node) "blockContainer") then Err (not_container node)
  else
    let* info := getBlockInfo node in
    let* head := block_head bs node info in
    let* children :=
      match node with
      | PElem _ _ [_; PElem _ _ kids _] _ => map_result readBlock kids
      | _ => Ok []
      end in
    Ok (Blk (bi_id info) (n_type (bi_contentNode info)) head.1 head.2 children).

Fixpoint ids_given (node : PNode) : Prop :=
  match node with
  | PText _ _ => True
  | PElem _ a c _ =>
      attr a "id" ≠ VNull ∧
      match c with
      | [_; PElem _ _ kids _] => fold_right (λ k P, ids_given k ∧ P) True kids
      | _ => True
      end
  end.

Context (same : PNode → PNode → bool).
Hypothesis same_node : ∀ n m, same n m = true → n = m.

(** Every cached block is that of its node, up to a relation of the props. *)
Definition coherent_up (R : Attrs → Attrs → Prop) (cache : Cache) : Prop :=
  ∀ n a, (n, a) ∈ cached cache →
  ∃ b b', readBlock n = Ok b ∧ block_at (objs cache) a = Some b' ∧ alike R b' b.
Definition coherent : Cache → Prop := coherent_up eq.

Lemma no_cache_coherent R : coherent_up R no_cache.
Proof. intros n a Hin. by apply elem_of_nil in Hin. Qed.

(** Blocks that can be read stay as they are. *)
Definition kept (c c' : Cache) : Prop := ∀ a b, block_at (objs c) a = Some b → block_at (objs c') a = Some b.

Section up_to.
Variable R : Attrs → Attrs → Prop.
Hypothesis R_refl : ∀ p, R p p.
Abbreviation coherent := (coherent_up R).

Definition shows (c : Cache) (r : result nat) (b : result Block) : Prop :=
  match r, b with
  | Ok a, Ok b => ∃ b', block_at (objs c) a = Some b' ∧ alike R b' b
  | Err e, Err e' => e = e'
  | _, _ => False
  end.
Definition reads_up (node : PNode) : Prop :=
  ∀ g cache, coherent cache →
  ∃ cache' r, nodeToBlock generateID same bs node (g, cache) = ((g, cache'), r) ∧
    shows cache' r (readBlock node) ∧ coherent cache' ∧ kept cache cache'.

Lemma cache_get_coherent cache n a :
  coherent cache → cache_get same cache n = Some a → shows cache (Ok a) (readBlock n).
Proof.
  unfold cache_get. intros Hc. destruct (List.find _ (cached cache)) as [[m a']|] eqn:E; [|done].
  intros [= <-]. apply List.find_some in E as [Hin Hs]. cbn in Hs. apply same_node in Hs as ->.
  destruct (Hc m a') as (b & b' & -> & Hb & Hl); [by apply list_elem_of_In|]. by exists b'.
Qed.

Lemma coherent_add cache n o b b' :
  coherent cache → readBlock n = Ok b → block_at (o :: objs cache) (length (objs cache)) = Some b' → alike R b' b →
  coherent {| cached := (n, length (objs cache)) :: cached cache; objs := o :: objs cache |}.
Proof.
  intros Hc Hb Hb' Hl m a [[= -> ->]|Hin]%elem_of_cons; [by exists b, b'|].
  destruct (Hc m a Hin) as (x & x' & Hx & Hx' & Hxl). exists x, x'. split; [done|]. split; [|done].
  by apply block_at_older.
Qed.
Lemma kept_refl c : kept c c. Proof. by intros a b. Qed.
Lemma kept_trans c1 c2 c3 : kept c1 c2 → kept c2 c3 → kept c1 c3.
Proof. intros H1 H2 a b Hb. by apply H2, H1. Qed.

(** The objects of some children. *)
Definition show_all (c : Cache) (r : result (list nat)) (bs : result (list Block)) : Prop :=
  match r, bs with
  | Ok l, Ok k => Forall2 (alike R) (omap (block_at (objs c)) l) k
  | Err e, Err e' => e = e'
  | _, _ => False
  end.
Lemma c_map_reads kids :
  Forall reads_up kids → ∀ g cache, coherent cache →
  ∃ cache' r, c_map (nodeToBlock generateID same bs) kids (g, cache) = ((g, cache'), r) ∧
    show_all cache' r (map_result readBlock kids) ∧ coherent cache' ∧ kept cache cache'.
Proof.
  induction 1 as [|n kids Hn _ IH]; intros g cache Hc.
  { exists cache, (Ok []). split; [done|]. split; [constructor|]. split; [done|apply kept_refl]. }
  destruct (Hn g cache Hc) as (c1 & r1 & E1 & H1 & Hc1 & Hk1). cbn [c_map].
  rewrite map_result_cons. unfold c_bind at 1. rewrite E1.
  destruct r1 as [a|e], (readBlock n) as [b|m]; cbn [rbind]; try done.
  2:{ exists c1, (Err e). split; [done|]. by split. }
  destruct (IH g c1 Hc1) as (c2 & r2 & E2 & H2 & Hc2 & Hk2).
  change ((fix go (l : list PNode) : call (G * Cache) (list nat) := _) kids)
    with (c_map (nodeToBlock generateID same bs) kids).
  unfold c_bind. rewrite E2. destruct H1 as (b' & Hb' & Hl).
  destruct r2 as [l|e], (map_result readBlock kids) as [k|e']; cbn [rbind]; try done.
  - exists c2, (Ok (a :: l)). split; [done|]. split; [|split; [done|by apply (kept_trans _ c1)]].
    cbn. rewrite (Hk2 a b' Hb'). by constructor.
  - exists c2, (Err e). split; [done|]. split; [done|]. split; [done|by apply (kept_trans _ c1)].
Qed.

Lemma ids_given_kids (kids : list PNode) :
  fold_right (λ k P, ids_given k ∧ P) True kids ↔ Forall ids_given kids.
Proof.
  induction kids as [|k kids IH]; cbn; [split; constructor|].
  rewrite IH. split; [by intros []; constructor|by inversion 1].
Qed.

(** One step of each, for a node of any shape. *)
Lemma nodeToBlock_eq node g cache :
  nodeToBlock generateID same bs node (g, cache) =
  if negb (String.eqb (n_type node) "blockContainer") then ((g, cache), Err (not_container node))
  else match cache_get same cache node with
  | Some a => ((g, cache), Ok a)
  | None =>
      (await* info := c_lift (getBlockInfo node) in
       await* id := match bi_id info with
                    | VNull => await* i := on_ids generateID in c_ret (VStr i)
                    | i => c_ret i
                    end in
       await* head := c_lift (block_head bs node info) in
       await* children := c_map (nodeToBlock generateID same bs) (group_kids node) in
       cache_set node {| bo_id := id; bo_type := n_type (bi_contentNode info); bo_props := head.1;
                         bo_content := head.2; bo_children := children |}) (g, cache)
  end.
Proof.
  destruct node as [s ms|t a c ms]; [done|].
  cbn [nodeToBlock n_type]. destruct (negb (String.eqb t "blockContainer")); [done|]. cbn [fst snd].
  destruct (cache_get same cache _); [done|].
  by destruct c as [|c0 [|[|t1 a1 k1 m1] [|]]].
Qed.

Lemma readBlock_eq node :
  readBlock node =
  if negb (String.eqb (n_type node) "blockContainer") then Err (not_container node)
  else let* info := getBlockInfo node in
       let* head := block_head bs node info in
       let* children := map_result readBlock (group_kids node) in
       Ok (Blk (bi_id info) (n_type (bi_contentNode info)) head.1 head.2 children).
Proof.
  destruct node as [s ms|t a c ms]; [done|].
  cbn [readBlock n_type]. destruct (negb (String.eqb t "blockContainer")); [done|].
  by destruct c as [|c0 [|[|t1 a1 k1 m1] [|]]].
Qed.

Lemma getBlockInfo_id node info : getBlockInfo node = Ok info → bi_id info = attr (n_attrs node) "id".
Proof. unfold getBlockInfo. destruct (n_content node); [done|]. by intros [= <-]. Qed.

(** A container whose children are read is read. *)
Lemma container_reads node :
  attr (n_attrs node) "id" ≠ VNull → Forall reads_up (group_kids node) → reads_up node.
Proof.
  intros Hid Hkids g cache Hc. rewrite nodeToBlock_eq. pose proof (readBlock_eq node) as Er.
  assert (∀ e, readBlock node = Err e → shows cache (Err e) (readBlock node)) as Herr by (by intros e ->).
  destruct (negb (String.eqb (n_type node) "blockContainer")).
  { exists cache, (Err (not_container node)). auto using kept_refl. }
  destruct (cache_get same cache node) as [a|] eqn:Eg.
  { exists cache, (Ok a). split; [done|]. split; [by apply cache_get_coherent|]. auto using kept_refl. }
  destruct (getBlockInfo node) as [info|m] eqn:Ei; cbn [rbind] in Er.
  2:{ exists cache, (Err m). auto using kept_refl. }
  rewrite (c_bind_lift _ _ _ info) by done. rewrite (getBlockInfo_id _ _ Ei) in *.
  rewrite (c_bind_ok _ _ _ (g, cache) (attr (n_attrs node) "id")) by by destruct (attr _ "id").
  destruct (block_head bs node info) as [head|m] eqn:Eh; cbn [rbind] in Er.
  2:{ exists cache, (Err m). auto using kept_refl. }
  rewrite (c_bind_lift _ _ _ head) by done.
  destruct (c_map_reads _ Hkids g cache Hc) as (c1 & r1 & E1 & H1 & Hc1 & Hk1).
  destruct r1 as [l|e], (map_result readBlock (group_kids node)) as [bl|m]; cbn [rbind] in Er; try done.
  - rewrite (c_bind_ok _ _ _ _ _ E1). unfold cache_set. cbn [fst snd].
    set (o := {| bo_id := _; bo_type := _; bo_props := _; bo_content := _; bo_children := _ |}).
    pose proof (block_at_new o (objs c1)) as Ho. eexists _, (Ok (length (objs c1))). split; [done|].
    assert (alike R (Blk (bo_id o) (bo_type o) (bo_props o) (bo_content o) (omap (block_at (objs c1)) (bo_children o)))
      (Blk (attr (n_attrs node) "id") (n_type (bi_contentNode info)) head.1 head.2 bl)) as Hl by by constructor.
    split; [rewrite Er; by eexists|]. split; [by eapply coherent_add|].
    apply (kept_trans _ c1); [done|]. intros a b. apply block_at_older.
  - rewrite (c_bind_err _ _ _ _ _ E1). exists c1, (Err e). split; [done|]. split; [rewrite Er; by rewrite H1|]. by split.
Qed.

Lemma nodes_read_up node :
  (ids_given node → reads_up node) ∧
  Forall (λ k, ids_given k → reads_up k) (n_content node).
Proof.
  induction node as [s ms|t a c ms Hc] using pnode_tree_ind.
  - split; [|constructor]. intros _. intros g cache Hcc. exists cache, (Err (not_container (PText s ms))).
    split; [done|]. split; [done|]. auto using kept_refl.
  - split; [|by eapply list.Forall_impl; [exact Hc|]; intros ? []]. intros Hids. cbn in Hids.
    destruct Hids as [Hid Hk]. apply container_reads; [done|]. cbn [group_kids].
    destruct c as [|c0 [|[|t1 a1 k1 m1] [|]]]; try constructor.
    apply ids_given_kids in Hk. inversion_clear Hc as [|?? _ Hc1].
    inversion_clear Hc1 as [|?? [_ Hkids] _]. cbn in Hkids.
    rewrite !Forall_forall in *. auto.
Qed.
End up_to.

(** What a reader sees, as long as nothing was written to a block. *)
Lemma nodes_read node g cache : ids_given node → coherent cache →
  ∃ cache', readNode generateID same bs node (g, cache) = ((g, cache'), readBlock node) ∧ coherent cache'.
Proof.
  intros Hn Hc. destruct (proj1 (nodes_read_up eq (λ p, eq_refl) node) Hn g cache Hc) as (c' & r & E & Hs & Hc' & _).
  exists c'. split; [|done]. unfold readNode, c_bind. rewrite E.
  destruct r as [a|e], (readBlock node) as [b|e']; try done; [|by rewrite Hs].
  destruct Hs as (b' & Hb & ->%alike_eq). unfold seen_block. cbn [snd]. by rewrite Hb.
Qed.

(** *** Reads and saves *)

(** What happens to the cache: a node is read, or a save writes the list of a block's
    group to the block at an address. *)
Inductive CacheEvent : Type :=
| ReadNode (node : PNode)
| WriteGroup (address : nat) (childrenType listLevel : AttrVal) (start : option AttrVal).
Definition cache_event (s : G * Cache) (e : CacheEvent) : G * Cache :=
  match e with
  | ReadNode node => (nodeToBlock generateID same bs node s).1
  | WriteGroup a ct ll st => (s.1, {| cached := cached s.2; objs := write_at (write_group ct ll st) (objs s.2) a |})
  end.
Definition cache_run (s : G * Cache) (events : list CacheEvent) : G * Cache := fold_left cache_event events s.
Definition reads_ids (e : CacheEvent) : Prop := match e with ReadNode n => ids_given n | WriteGroup _ _ _ _ => True end.
Definition is_write (e : CacheEvent) : bool := match e with WriteGroup _ _ _ _ => true | ReadNode _ => false end.

Lemma but_list_trans p q r : but_list p q → but_list q r → but_list p r.
Proof. intros H1 H2 k Hk. by rewrite H1, H2. Qed.
Lemma write_coherent cache a ct ll st : coherent_up but_list cache →
  coherent_up but_list {| cached := cached cache; objs := write_at (write_group ct ll st) (objs cache) a |}.
Proof.
  intros Hc n x Hin. destruct (Hc n x Hin) as (b & b' & Hb & Hb' & Hl). cbn [objs].
  pose proof (write_at_alike but_list (write_group ct ll st) (objs cache) a ltac:(done) (write_group_keeps ct ll st) x) as Hw.
  rewrite Hb' in Hw. inversion Hw as [y ? Hy E|]; subst. exists b, y. split; [done|]. split; [done|].
  by apply (alike_trans _ _ b'); [apply but_list_trans|..].
Qed.
Lemma run_coherent events s :
  Forall reads_ids events → coherent_up but_list s.2 →
  coherent_up but_list (cache_run s events).2 ∧
  (existsb is_write events = false → coherent s.2 → coherent (cache_run s events).2).
Proof.
  intros He. revert s. induction He as [|e events He _ IH]; intros s Hs; [done|].
  change (cache_run s (e :: events)) with (cache_run (cache_event s e) events).
  destruct e as [n|a ct ll st]; cbn [cache_event existsb is_write orb].
  - destruct s as [g c]. destruct (proj1 (nodes_read_up but_list ltac:(done) n) He g c Hs) as (c1 & r & E & _ & Hc1 & _).
    rewrite E. destruct (IH (g, c1) Hc1) as [H1 H2]. split; [done|]. intros Hw Hc. apply H2; [done|].
    destruct (proj1 (nodes_read_up eq ltac:(done) n) He g c Hc) as (c2 & r2 & E2 & _ & Hc2 & _).
    rewrite E in E2. by injection E2 as <- <-.
  - split; [|done]. apply IH. by apply write_coherent.
Qed.

(** C35. Reading a node with the cache gives what reading it without gives, or the same
    exception, whatever was read before and whatever saves wrote to the cached blocks:
    the block has the id, the type, the content, the children and the props of the
    reference, except that the list props of a block ([childrenType], [listLevel] and
    [start]), which saves write to the cached objects, may be those that were written.
    As long as nothing was written the block is exactly the reference's.  The nodes are
    expected to have ids, and the same node, being immutable, the same content. *)
Theorem nodeToBlock_cached events node g :
  Forall reads_ids events → ids_given node →
  let r := nodeToBlock generateID same bs node (cache_run (g, no_cache) events) in
  match r.2, readBlock node with
  | Ok address, Ok b => ∃ b', block_at (objs r.1.2) address = Some b' ∧ alike but_list b' b ∧
                              (existsb is_write events = false → b' = b)
  | Err e, Err e' => e = e'
  | _, _ => False
  end.
Proof.
  intros He Hn. destruct (run_coherent events (g, no_cache) He (no_cache_coherent _)) as [H1 H2].
  destruct (cache_run (g, no_cache) events) as [g1 c1]. cbn [snd] in H1, H2.
  destruct (proj1 (nodes_read_up but_list ltac:(done) node) Hn g1 c1 H1) as (c2 & r & E & Hs & _ & _).
  rewrite E. cbn [fst snd]. destruct r as [a|e], (readBlock node) as [b|e'] eqn:Eb; try done.
  destruct Hs as (b' & Hb & Hl). exists b'. split; [done|]. split; [done|]. intros Hw.
  destruct (proj1 (nodes_read_up eq ltac:(done) node) Hn g1 c1 (H2 Hw (no_cache_coherent _))) as (c3 & r3 & E3 & Hs3 & _ & _).
  rewrite E in E3. injection E3 as <- <-. rewrite Eb in Hs3. destruct Hs3 as (b3 & Hb3 & ->%alike_eq). congruence.
Qed.
End cache.

(** ** Blocks made into nodes and read back *)

Section tree.
Context `{SchemaLaws} {G : Type} (generateID : call G string).
Context (bs : obj (obj PropSpec)).

(** A block as the program passes them to the editor: with an id, of a type that has a
    node and a prop schema, with inline content (a code block's is a case of its own). *)
Inductive block_ok : PartialBlock → Prop :=
| BlockOk id type props content children :
    is_Some (node_spec (default "paragraph" type)) →
    is_Some (oget bs (default "paragraph" type)) →
    default "paragraph" type ≠ "codeBlock" →
    owf (default [] props) → oget (default [] props) "id" = None →
    (content = None ∨ ∃ c, content = Some (ContentInlines (as_partial <$> c)) ∧ Forall inline_ok c) →
    Forall block_ok (default [] children) →
    block_ok (PBlock (Some id) type props content children).

(** The prop that comes back: the one given, or the default, of an attribute that the
    block's node or its container has. *)
Definition stored_prop (type : string) (props : Attrs) (k : string) : option AttrVal :=
  let given d := if bool_decide (attr props k = VUndef) then d else attr props k in
  match node_spec type ≫= λ ds, oget ds k with
  | Some d => Some (given d)
  | None => given <$> (node_spec "blockContainer" ≫= λ ds, oget ds k)
  end.
(** The props that are the group's: see [group_props]. *)
Definition group_prop (k : string) : bool :=
  existsb (String.eqb k) ["childrenType"; "listLevel"; "start"; "id"].

Definition inlines_of (content : option BlockContent) (c : list InlineContent) : Prop :=
  match content with
  | Some (ContentInlines l) => l = as_partial <$> c
  | _ => c = []
  end.

(** An attribute of the group that is made for the children. *)
Definition group_default (k : string) : AttrVal :=
  default VUndef (node_spec "blockGroup" ≫= λ ds, oget ds k).

Inductive read_back : PartialBlock → Block → Prop :=
| ReadBack id type props content c children props' content' children' :
    inlines_of content c → Forall2 written (content_units content') (content_units c) →
    (∀ propSchema k, oget bs (default "paragraph" type) = Some propSchema →
      is_Some (oget propSchema k) → group_prop k = false →
      oget props' k = stored_prop (default "paragraph" type) (default [] props) k) →
    (default [] children ≠ [] → val_truthy (group_default "listType") = true →
      oget props' "childrenType" = Some (group_default "listType") ∧
      oget props' "listLevel" = Some (group_default "listLevel") ∧
      oget props' "start" = Some (group_default "start")) →
    Forall2 read_back (default [] children) children' →
    read_back (PBlock (Some id) type props content children)
      (Blk (VStr id) (default "paragraph" type) props' content' children').

Lemma fragment_elems l : forallb is_elem l = true → fragment l = l.
Proof.
  pose proof (fragment_joined l) as Hj. remember (fragment l) as l' eqn:El. clear El.
  destruct Hj as [k|k s t ms r l' Hr]; [done|].
  intros Hl. exfalso. rewrite forallb_app in Hl. cbn in Hl.
  by rewrite andb_false_r in Hl.
Qed.

Lemma content_node_ok type ds props content :
  node_spec type = Some ds → type ≠ "codeBlock" →
  (content = None ∨ ∃ c, content = Some (ContentInlines (as_partial <$> c)) ∧ Forall inline_ok c) →
  ∃ ns c, content_node type props content =
        Ok (PElem type (compute_attrs ds (default [] props)) (fragment ns) []) ∧
      inlines_of content c ∧ Forall2 written (nodes_units ns) (content_units c) ∧
      forallb inline_node ns = true.
Proof.
  intros Hds Ht [->|(c & -> & Hc)]; unfold content_node.
  - exists [], []. cbn [given_content rbind]. rewrite (create_ok _ ds) by done. by repeat constructor.
  - cbn [given_content]. destruct (inlineContentToNodes_ok c Hc) as (ns & E & Hi & Hw).
    assert (content_nodes type (ContentInlines (as_partial <$> c)) = Ok ns) as ->.
    { rewrite <- E. destruct c as [|i c]; [done|]. cbn [content_nodes fmap list_fmap].
      by rewrite (proj2 (String.eqb_neq _ _) Ht). }
    cbn [rbind]. rewrite (create_ok _ ds) by done. by exists ns, c.
Qed.

Lemma oget_compute_attrs ds given k :
  oget (compute_attrs ds given) k =
  (λ d, if bool_decide (attr given k = VUndef) then d else attr given k) <$> oget ds k.
Proof.
  unfold compute_attrs. induction ds as [|[j w] ds IH]; [done|]. cbn.
  destruct (String.eqb_spec k j) as [->|]; [done|exact IH].
Qed.
Lemma owf_compute_attrs ds given : owf ds → owf (compute_attrs ds given).
Proof. unfold owf, okeys, compute_attrs. rewrite <- list_fmap_compose. done. Qed.

(** The loop over the attributes keeps those of the prop schema. *)
Lemma read_props_spec type attrs propSchema k :
  owf attrs → oget bs type = Some propSchema → is_Some (oget propSchema k) →
  ∃ props, read_props bs type attrs = Ok props ∧ oget props k = oget attrs k.
Proof.
  intros Hw Hb Hk. unfold read_props. rewrite Hb. destruct attrs as [|e attrs]; [by exists []|].
  eexists. split; [done|]. revert Hw. generalize (e :: attrs) as l. clear e attrs. intros l Hw.
  assert (∀ acc, oget (foldl (λ props e, match oget propSchema e.1 with
      | Some _ => oset props e.1 e.2 | None => props end) acc l) k =
    match oget l k with Some v => Some v | None => oget acc k end) as Hg; [|by rewrite Hg; destruct (oget l k)].
  induction l as [|[j v] l IH]; intros acc; [done|]. cbn [foldl oget fst snd].
  apply NoDup_cons in Hw as [Hj Hl]. cbn [fst] in Hj. rewrite IH by done.
  destruct (String.eqb_spec k j) as [->|Hne].
  - change (l.*1) with (okeys l) in Hj. apply oget_None in Hj as ->.
    destruct Hk as [? ->]. by rewrite oget_oset_eq.
  - destruct (oget l k); [done|]. destruct (oget propSchema j); [|done].
    by rewrite oget_oset_ne.
Qed.

Lemma oget_oset3 {V} (props : obj V) k x y z :
  group_prop k = false →
  oget (oset (oset (oset props "childrenType" x) "listLevel" y) "start" z) k = oget props k.
Proof.
  unfold group_prop. cbn [existsb]. rewrite !orb_false_iff. intros (H1 & H2 & H3 & _).
  apply String.eqb_neq in H1, H2, H3. by rewrite !oget_oset_ne.
Qed.

Lemma c_map_blockToNode g l :
  Forall (λ b, block_ok b → ∃ n blk, blockToNode generateID b g = (g, Ok n) ∧ is_elem n = true ∧ ids_given n ∧
                                     readBlock bs n = Ok blk ∧ read_back b blk) l →
  Forall block_ok l →
  ∃ ns blks, c_map (blockToNode generateID) l g = (g, Ok ns) ∧ forallb is_elem ns = true ∧ Forall ids_given ns ∧
    map_result (readBlock bs) ns = Ok blks ∧ Forall2 read_back l blks ∧ (ns = [] ↔ l = []).
Proof.
  induction 1 as [|b l Hb _ IH]; intros Hl; [by exists [], []|].
  inversion_clear Hl as [|?? Hok Hl']. destruct (Hb Hok) as (n & blk & E & Hn & Hid & Hr & Hrb).
  destruct (IH Hl') as (ns & blks & E' & Hns & Hids & Hrs & Hrbs & _). exists (n :: ns), (blk :: blks).
  split; [|split_and!]; [| |by constructor|by rewrite map_result_cons, Hr; cbn [rbind]; rewrite Hrs|by constructor|done].
  - change (c_map (blockToNode generateID) (b :: l)) with
      (await* y := blockToNode generateID b in
       await* ys := c_map (blockToNode generateID) l in c_ret (y :: ys)).
    rewrite (c_bind_ok _ _ _ _ _ E). by rewrite (c_bind_ok _ _ _ _ _ E').
  - cbn. by rewrite Hn, Hns.
Qed.

Lemma contents_read t a ns c :
  forallb inline_node ns = true → Forall2 written (nodes_units ns) (content_units c) →
  ∃ c', contentNodeToInlineContent (PElem t a (fragment ns) []) = Ok c' ∧
        Forall2 written (content_units c') (content_units c).
Proof.
  intros Hi Hw. destruct (joined_units _ _ (fragment_joined ns)) as [Hu Hin]. specialize (Hin Hi).
  eexists. split; [by apply read_content|]. cbn [n_content]. rewrite Hu.
  rewrite regroup_units by by apply nodes_units_ok. by apply written_plain.
Qed.

(** The props of the container and of the content node, as they are read. *)
Lemma stored_props_ok type ds dsc id props propSchema k :
  node_spec type = Some ds → node_spec "blockContainer" = Some dsc →
  oget bs type = Some propSchema → is_Some (oget propSchema k) → group_prop k = false →
  owf props →
  ∃ p, read_props bs type
         (ospread (compute_attrs dsc (ospread [("id", VStr id)] props)) (compute_attrs ds props)) = Ok p ∧
       oget p k = stored_prop type props k.
Proof.
  intros Hds Hdsc Hb Hk Hg Hw.
  pose proof (node_spec_wf _ _ Hds). pose proof (node_spec_wf _ _ Hdsc).
  edestruct read_props_spec as (p & Hp & Ep); [|exact Hb|exact Hk|].
  2:{ exists p. split; [exact Hp|]. rewrite Ep, oget_ospread by by apply owf_compute_attrs.
      rewrite !oget_compute_attrs. unfold stored_prop. rewrite Hds, Hdsc. cbn [mbind option_bind].
      destruct (oget ds k); [done|]. cbn [fmap option_fmap option_map].
      assert (attr (ospread [("id", VStr id)] props) k = attr props k) as ->; [|done].
      unfold attr. rewrite oget_ospread by done. destruct (oget props k); [done|]. cbn.
      unfold group_prop in Hg. cbn in Hg. rewrite !orb_false_iff in Hg. by destruct Hg as (_ & _ & _ & -> & _). }
  by apply owf_ospread, owf_compute_attrs.
Qed.

Lemma block_reads b :
  block_ok b → ∀ g, ∃ n blk, blockToNode generateID b g = (g, Ok n) ∧ is_elem n = true ∧ ids_given n ∧
                             readBlock bs n = Ok blk ∧ read_back b blk.
Proof.
  induction b as [i t p c l IH] using pblock_tree_ind. intros Hb g.
  inversion Hb as [id type props content children [ds Hds] [ps Hps] Hcb Hw Hid Hc Hl]; subst.
  destruct (c_map_blockToNode g (default [] l)) as (ns & blks & Em & Hns & Hgids & Hrs & Hrb & Hnil).
  { eapply list.Forall_impl; [exact IH|]. cbn. eauto. }
  { done. }
  destruct has_group as [dsg Hg]. destruct has_container as (dsc & Hdc & [did Hdid]).
  destruct (content_node_ok _ _ p c Hds Hcb Hc) as (cns & ci & Ecn & Hin & Hwr & Hinl).
  set (T := default "paragraph" t) in *.
  set (cnode := PElem T (compute_attrs ds (default [] p)) (fragment cns) []) in *.
  set (gnode := PElem "blockGroup" (compute_attrs dsg []) ns []) in *.
  assert (blockToNode generateID (PBlock (Some id) t p c l) g =
    (g, Ok (PElem "blockContainer" (compute_attrs dsc (ospread [("id", VStr id)] (default [] p)))
              (match ns with [] => [cnode] | _ => [cnode; gnode] end) []))) as E.
  { cbn [blockToNode]. unfold c_bind at 1. cbn [c_ret]. fold T. rewrite (c_bind_lift _ _ _ cnode) by done.
    rewrite (c_bind_ok _ _ g g ns) by by destruct l.
    rewrite (c_bind_lift _ _ _ gnode).
    - unfold c_lift. rewrite (create_ok _ dsc) by done. cbn [default].
      rewrite fragment_elems by by destruct ns. by destruct ns.
    - rewrite (create_ok _ dsg) by done. by rewrite fragment_elems. }
  set (node := PElem "blockContainer" _ _ []) in E.
  assert (group_kids node = ns) as Hkids by by destruct ns.
  assert (attr (n_attrs node) "id" = VStr id) as Ha.
  { unfold node. cbn [n_attrs]. assert (attr (ospread [("id", VStr id)] (default [] p)) "id" = VStr id) as Hsp.
    { unfold attr. by rewrite oget_ospread, Hid. }
    rewrite (compute_attrs_given _ _ _ did); [done|done|by rewrite Hsp]. }
  assert (ids_given node) as Hnids.
  { split; [intros E'; cbn [n_attrs node] in Ha; congruence|]. destruct ns as [|x ns']; [done|].
    by apply (ids_given_kids (x :: ns')). }
  assert (∃ m, getBlockInfo node =
    Ok {| bi_id := VStr id; bi_contentNode := cnode; bi_numChildBlocks := m |}) as [m Hinfo].
  { unfold getBlockInfo. rewrite Ha. unfold node. cbn [n_content]. destruct ns; by eexists. }
  assert (∃ props', read_props bs T (ospread (n_attrs node) (n_attrs cnode)) = Ok props') as [props' Hpr].
  { unfold read_props. rewrite Hps. case_match; by eexists. }
  destruct (contents_read T (compute_attrs ds (default [] p)) cns ci Hinl Hwr) as (c' & Hc' & Hwc).
  exists node. eexists. split; [done|]. split; [done|]. split; [done|]. split.
  { rewrite readBlock_eq. cbn [n_type node negb String.eqb Ascii.eqb Bool.eqb]. rewrite Hinfo. cbn [rbind].
    unfold block_head. cbn [bi_contentNode]. change (n_type cnode) with T. rewrite Hpr. cbn [rbind].
    unfold cnode at 1. rewrite Hc'. cbn [rbind fst snd]. rewrite Hkids, Hrs. cbn [rbind bi_id]. done. }
  apply (ReadBack id t p c ci l); [done|done| | |done].
  2:{ intros Hne Ht. assert (ns ≠ []) as Hns' by naive_solver.
      assert (∀ k, attr (compute_attrs dsg []) k = group_default k) as Eg.
      { intros k. unfold attr, group_default. rewrite Hg, oget_compute_attrs. cbn [mbind option_bind].
        by destruct (oget dsg k). }
      assert (last_attrs node = compute_attrs dsg []) as El by (unfold last_attrs, node; cbn [n_content]; by destruct ns).
      unfold group_props. rewrite El, !Eg, Ht. split; [|split].
      - by rewrite oget_oset_ne, oget_oset_ne, oget_oset_eq.
      - by rewrite oget_oset_ne, oget_oset_eq.
      - by rewrite oget_oset_eq. }
  intros ps' k Hps' Hk Hgk.
  destruct (stored_props_ok T ds dsc id (default [] p) ps' k) as (pr & Hpr' & Epr); try done.
  cbn [n_attrs node cnode] in Hpr. rewrite Hpr in Hpr'. apply Ok_inj in Hpr' as <-.
  etrans; [|exact Epr].
  unfold group_props. destruct (val_truthy _); [by apply oget_oset3|done].
Qed.

End tree.
