(* ===== verification/NodeExamples.v ===== *)
(** * A schema with the laws, and examples

    [editor_schema] builds nodes as ProseMirror does for the marks and nodes of the
    editor; it instantiates the laws of [NodeConvert.SchemaLaws]. *)
From S2P Require Import Prelude.
From S2P Require Import JsString.
From S2P Require Import JsObject.
From S2P Require Import DaemonApi.
From S2P Require Import NodeConvert.
From S2P Require Import NodeConvertFacts.
From S2P Require Import NodeRoundtrip.
From S2P Require Import BlockNodes.

(** ** Joining text nodes *)

Fixpoint join_texts (l : list PNode) : list PNode :=
  match l with
  | [] => []
  | PText s ms :: l' =>
      match join_texts l' with
      | PText t ms' :: k =>
          if bool_decide (ms = ms') then PText (s +:+ t) ms :: k else PText s ms :: PText t ms' :: k
      | k => PText s ms :: k
      end
  | n :: l' => n :: join_texts l'
  end.

Lemma joined_cons n l l' : joined l l' → joined (n :: l) (n :: l').
Proof. induction 1 as [|l s t ms k l' _ IH]; [constructor|]. apply (joined_merge (n :: l)), IH. Qed.

Lemma joined_first l s t ms k :
  joined l (PText s ms :: PText t ms :: k) → joined l (PText (s +:+ t) ms :: k).
Proof.
  intros Hj. remember (PText s ms :: PText t ms :: k) as r eqn:Er. revert Er.
  induction Hj as [l|l s' t' ms' k' l' _ IH]; intros ->.
  - apply (joined_merge []). constructor.
  - apply joined_merge. auto.
Qed.

Lemma join_texts_joined l : joined l (join_texts l).
Proof.
  induction l as [|n l IH]; [constructor|]. pose proof (joined_cons n _ _ IH) as Hc.
  destruct n as [s ms|]; [|done]. cbn [join_texts].
  destruct (join_texts l) as [|[t ms'|] k]; [done| |done].
  case_bool_decide as E; [subst ms'|done]. by apply joined_first.
Qed.

(** ** The schema *)

Definition rank_of (type : string) : Z :=
  if String.eqb type "link" then 0
  else if String.eqb type "bold" then 1
  else if String.eqb type "italic" then 2
  else if String.eqb type "strike" then 3
  else if String.eqb type "underline" then 4
  else if String.eqb type "code" then 5
  else if String.eqb type "textColor" then 6
  else if String.eqb type "backgroundColor" then 7
  else 8.
Definition sort_marks (ms : list Mark) : list Mark :=
  js_sort (λ a b, rank_of (m_type a) - rank_of (m_type b))%Z ms.

Definition container_attrs : Attrs :=
  [("id", VNull); ("textAlignment", VStr "left"); ("childrenType", VStr "div")].
Definition editor_nodes (type : string) : option Attrs :=
  oget [("hardBreak", []); ("inline-embed", [("ref", VStr "")]);
        ("blockGroup", [("listLevel", VStr "1"); ("listType", VStr "div"); ("start", VNull)]);
        ("blockContainer", container_attrs);
        ("paragraph", [("type", VStr "p")]); ("heading", [("level", VStr "1")]);
        ("codeBlock", [("language", VStr "")]);
        ("image", [("url", VStr ""); ("name", VStr "")]); ("video", [("url", VStr ""); ("name", VStr "")]);
        ("file", [("url", VStr ""); ("name", VStr ""); ("size", VStr "")])] type.

#[export] Instance editor_schema : Schema := {
  schema_mark k a :=
    if String.eqb k "link" || is_toggle k || is_color k then Ok {| m_type := k; m_attrs := a |}
    else Err ("There is no mark type " +:+ k +:+ " in this schema");
  schema_text s ms :=
    if truthy s then Ok (PText s (sort_marks ms)) else Err "Empty text nodes are not allowed";
  schema_create t given content :=
    match editor_nodes t with
    | Some ds => Ok (PElem t (compute_attrs ds (default [] given)) (join_texts content) [])
    | None => Err "TypeError"
    end;
  node_mark n ms := match n with PText s _ => PText s ms | PElem t a c _ => PElem t a c ms end;
  textContent := fix text (n : PNode) : string :=
    match n with
    | PText s _ => s
    | PElem _ _ c _ => js_join "" (text <$> c)
    end;
}.

#[export, refine] Instance editor_schema_laws : SchemaLaws := {
  mark_rank := rank_of;
  mark_set := sort_marks;
  fragment := join_texts;
  node_spec := editor_nodes;
}.
Proof.
  - intros k Hk. exists []. cbn [schema_mark editor_schema]. by rewrite Hk, orb_true_r.
  - intros k v Hk _. exists [("color", v)]. cbn [schema_mark editor_schema].
    by rewrite Hk, orb_true_r.
  - intros v _. by exists [("href", v)].
  - intros ms _. apply js_sort_Permutation.
  - intros ms Hms. apply js_sort_sorted_id. eapply StronglySorted_weaken; [|exact Hms]. cbn. lia.
  - intros s ms Hs. cbn [schema_text editor_schema]. by rewrite (proj2 (truthy_spec s)).
  - done.
  - apply join_texts_joined.
  - intros t ds given content E. cbn [schema_create editor_schema]. by rewrite E.
  - intros t given content E. cbn [schema_create editor_schema]. by rewrite E.
  - intros t ds. unfold editor_nodes. cbn [oget].
    repeat (case_match; [intros [= <-]; by apply (bool_decide_unpack _)|]). done.
  - by eexists.
  - by eexists; split; [|eexists].
  - by eexists.
  - by eexists; split; [|eexists].
  - done.
  - done.
  - done.
Defined.

(** ** Examples *)

Definition plain_text (s : string) : StyledText := {| st_text := s; st_styles := [] |}.
Definition bold_text (s : string) : StyledText := {| st_text := s; st_styles := [("bold", VTrue)] |}.
Definition break_example : string := "b" +:+ String LF "c".

Definition sample_inlines : list InlineContent :=
  [IText (plain_text "a"); IText (bold_text break_example);
   ILink (VStr "https://x.org") [plain_text "d"; bold_text "e"]; IEmbed (VStr "hm://d/x");
   IText (plain_text "f")].
Definition sample_content : PNode :=
  PElem "paragraph" []
    [PText "a" []; PText "b" [{| m_type := "bold"; m_attrs := [] |}];
     PElem "hardBreak" [] [] []; PText "c" [{| m_type := "bold"; m_attrs := [] |}];
     PText "d" [{| m_type := "link"; m_attrs := [("href", VStr "https://x.org")] |}];
     PText "e" [{| m_type := "link"; m_attrs := [("href", VStr "https://x.org")] |};
                {| m_type := "bold"; m_attrs := [] |}];
     PElem "inline-embed" [("ref", VStr "hm://d/x")] [] []; PText "f" []] [].

Example sample_read : contentNodeToInlineContent sample_content = Ok sample_inlines.
Proof. vm_compute. reflexivity. Qed.

Lemma contentNodeToInlineContent_spec_witness :
  contentNodeToInlineContent sample_content = Ok (regroup (nodes_units (n_content sample_content))).
Proof. apply (contentNodeToInlineContent_spec sample_content). vm_compute. reflexivity. Defined.

Ltac styles_tac := split; [reflexivity | apply (bool_decide_unpack _); vm_compute; done].
Lemma inline_content_roundtrip_witness :
  ∃ ns c', inlineContentToNodes (as_partial <$> sample_inlines) = Ok ns ∧
    contentNodeToInlineContent (PElem "paragraph" [] (fragment ns) []) = Ok c' ∧
    Forall2 written (content_units c') (content_units sample_inlines).
Proof.
  destruct (inlineContentToNodes (as_partial <$> sample_inlines)) as [ns|m] eqn:E; [|vm_compute in E; discriminate].
  destruct (inline_content_roundtrip sample_inlines (PElem "paragraph" [] (fragment ns) []) ns)
    as (c' & Hc & Hw).
  - repeat apply list.Forall_cons_2; try apply list.Forall_nil_2; cbn [inline_ok]; try (by styles_tac).
    + split; [done|]. repeat apply list.Forall_cons_2; try apply list.Forall_nil_2; by styles_tac.
    + done.
  - exact E.
  - reflexivity.
  - exists ns, c'. split; [reflexivity|]. split; [exact Hc | exact Hw].
Defined.

Lemma editor_content_stable_witness :
  ∃ ns, inlineContentToNodes (as_partial <$> sample_inlines) = Ok ns ∧
        contentNodeToInlineContent (PElem "paragraph" [] (fragment ns) []) = Ok sample_inlines.
Proof.
  destruct (inlineContentToNodes (as_partial <$> sample_inlines)) as [ns|m] eqn:E; [|vm_compute in E; discriminate].
  destruct (editor_content_stable sample_content (PElem "paragraph" [] (fragment ns) []) sample_inlines)
    as (ns' & E' & _ & H).
  - repeat constructor; try (vm_compute; done).
  - vm_compute. reflexivity.
  - exists ns. split; [reflexivity|]. apply H. cbn [n_content].
    rewrite E in E'. by injection E' as <-.
Defined.

(** After an embed the code goes on as for text, so that an embed is followed by an
    empty text unless unstyled text follows. *)
Example embed_leaves_empty_text :
  contentNodeToInlineContent (PElem "paragraph" [] [PElem "inline-embed" [("ref", VStr "r")] [] []] []) =
  Ok [IEmbed (VStr "r"); IText (plain_text "")].
Proof. vm_compute. reflexivity. Qed.

(** Only the first text of a code block is put in its node. *)
Lemma code_block_keeps_first_text t rest props :
  content_node "codeBlock" props (Some (ContentInlines (PIText t :: rest))) =
  content_node "codeBlock" props (Some (ContentInlines [PIText t])).
Proof. done. Qed.

Definition no_spec : PropSpec := {| ps_default := ""; ps_values := None |}.
Definition sample_schema : obj (obj PropSpec) :=
  [("paragraph", [("type", no_spec); ("textAlignment", no_spec)]); ("heading", [("level", no_spec)])].
Definition sample_block : PartialBlock :=
  PBlock (Some "b1") (Some "heading") (Some [("level", VStr "2")])
    (Some (ContentInlines [PIText (plain_text "title")]))
    (Some [PBlock (Some "b2") None None (Some (ContentInlines [PIText (bold_text break_example)])) None]).
(** An id generator that is never asked. *)
Definition no_ids : call unit string := λ s, (s, Ok "").

(** Nodes that are equal stand for the same one. *)
Fixpoint same_node_eq (n m : PNode) {struct n} : bool :=
  match n, m with
  | PText s ms, PText t ms' => String.eqb s t && bool_decide (ms = ms')
  | PElem t a c ms, PElem t' a' c' ms' =>
      String.eqb t t' && bool_decide (a = a') && bool_decide (ms = ms') &&
      (fix all (c c' : list PNode) : bool :=
         match c, c' with
         | [], [] => true
         | x :: r, y :: r' => same_node_eq x y && all r r'
         | _, _ => false
         end) c c'
  | _, _ => false
  end.
Lemma same_node_is n m : same_node_eq n m = true → n = m.
Proof.
  revert m. induction n as [s ms|t a c ms IH] using pnode_tree_ind; intros [s' ms'|t' a' c' ms'] E; try done.
  - cbn in E. apply andb_prop in E as [E1%String.eqb_eq E2%bool_decide_eq_true]. by subst.
  - cbn in E. apply andb_prop in E as [[[E1%String.eqb_eq E2%bool_decide_eq_true]%andb_prop E3%bool_decide_eq_true]%andb_prop E].
    subst. f_equal. revert c' E. induction IH as [|x r Hx _ IHr]; intros [|y r'] E; try done.
    apply andb_prop in E as [Ex E]. f_equal; [by apply Hx|by apply IHr].
Qed.


Definition sample_node : PNode :=
  match snd (blockToNode no_ids sample_block tt) with Ok n => n | Err _ => PText "" [] end.
(** The node was read and a save has written to its block: the read hits the cache, and
    what was written shows. *)
Lemma nodeToBlock_cached_witness :
  let events := [ReadNode sample_node; WriteGroup 1 (VStr "ol") (VStr "1") (Some (VStr "3"))] in
  let s := cache_run no_ids sample_schema same_node_eq (tt, no_cache) events in
  cache_get same_node_eq s.2 sample_node = Some 1 ∧
  ∃ address b b', (nodeToBlock no_ids same_node_eq sample_schema sample_node s).2 = Ok address ∧
    readBlock sample_schema sample_node = Ok b ∧ block_at (objs s.2) address = Some b' ∧
    alike but_list b' b ∧ oget (bk_props b') "start" = Some (VStr "3").
Proof.
  intros events s. split; [by vm_compute|].
  assert (ids_given sample_node) as Hids by (vm_compute; repeat split; discriminate).
  assert (Forall reads_ids events) as He by (constructor; [exact Hids|constructor; [done|constructor]]).
  pose proof (nodeToBlock_cached no_ids sample_schema same_node_eq same_node_is events sample_node tt He Hids) as H.
  fold s in H. revert H. cbv zeta.
  destruct (nodeToBlock no_ids same_node_eq sample_schema sample_node s) as [s' r] eqn:E. cbn [fst snd].
  assert (s' = s ∧ r = Ok 1) as [-> ->].
  { unfold s, events in E. vm_compute in E. injection E as <- <-. split; [by vm_compute|done]. }
  destruct (readBlock sample_schema sample_node) as [b|] eqn:Eb; [|done]. intros (b' & Hb & Hl & _).
  exists 1, b, b'. split; [done|]. split; [done|]. split; [done|]. split; [done|].
  unfold s, events in Hb. vm_compute in Hb. injection Hb as <-. by vm_compute.
Defined.
