(* ===== verification/SiteChanges.v ===== *)
(** * The changes of a publication on the web site

    [publication.getChanges] of [apps/site/server/routers/_app.ts]: the changes of a
    version, what they depend on, and what builds on them.  A [Map] is an object in
    insertion order, and a [Set] a list without repetition. *)
From S2P Require Import Prelude.
From S2P Require Import JsString.
From S2P Require Import JsObject.
From S2P Require Import BlockTypes.
From S2P Require Import Timeline.

(** [set.add(x)] *)
Definition set_add (s : list string) (x : string) : list string :=
  if bool_decide (x ∈ s) then s else s ++ [x].
(** [if (!map.has(k)) map.set(k, new Set()); map.get(k).add(x)] *)
Definition multi_add (m : obj (list string)) (k x : string) : obj (list string) :=
  oset m k (set_add (default [] (oget m k)) x).

(** ** The indices *)

Definition changesIndex (changes : list Change) : obj Change :=
  foldl (λ m c, oset m (ch_id c) c) [] changes.

Definition changeDeps (changes : list Change) : obj (list string) :=
  foldl (λ m c,
    let m := match oget m (ch_id c) with Some _ => m | None => oset m (ch_id c) [] end in
    foldl (λ m dep, multi_add m (ch_id c) dep) m (ch_deps c)) [] changes.

Definition downstreamChanges (changes : list Change) : obj (list string) :=
  foldl (λ m c, foldl (λ m dep, multi_add m dep (ch_id c)) m (ch_deps c)) [] changes.

(** [allDeps] after [lookForDeps(changeId)]; [None] when the fuel runs out. *)
Fixpoint lookForDeps (version : string) (deps : obj (list string)) (fuel : nat)
    (allDeps : list string) (changeId : string) : option (list string) :=
  match fuel with
  | O => None
  | S fuel =>
      if bool_decide (changeId ∈ allDeps) then Some allDeps
      else
        let allDeps := if String.eqb changeId version then allDeps else allDeps ++ [changeId] in
        foldl (λ all dep, all ≫= λ a, lookForDeps version deps fuel a dep) (Some allDeps)
          (default [] (oget deps changeId))
  end.

(** ** [getChanges] *)

Record PublicationChanges : Type := {
  pc_versionChanges : list Change;
  pc_deps : list Change;
  pc_downstreamChanges : list Change;
  pc_allDeps : list Change;
  pc_pub : HMPublication;
}.

(** The mutation of [versionDownstream] while the version's changes are visited. *)
Definition versionDownstream (version : string) (versionChanges : list string)
    (down : obj (list string)) : obj (list string) :=
  foldl (λ m id,
    foldl (λ m changeId,
      match oget m version with
      | Some s => oset m version (set_add s changeId)
      | None => m
      end) m (default [] (oget m id))) down versionChanges.

Definition changes_of (fuel : nat) (changes : list Change) (version : string) (pub : HMPublication) :
    option PublicationChanges :=
  let index := changesIndex changes in
  let depsMap := changeDeps changes in
  let changeIdsToChanges (ids : list string) := omap (oget index) ids in
  let versionChanges := js_split "," version in
  let down := versionDownstream version versionChanges (downstreamChanges changes) in
  let deps := foldl (λ s id, foldl set_add s (default [] (oget depsMap id))) [] versionChanges in
  (λ allDeps,
    {| pc_versionChanges := changeIdsToChanges versionChanges;
       pc_deps := changeIdsToChanges deps;
       pc_downstreamChanges := changeIdsToChanges
         (List.filter (λ id, negb (bool_decide (id ∈ versionChanges))) (default [] (oget down version)));
       pc_allDeps := changeIdsToChanges allDeps;
       pc_pub := pub |})
    <$> foldl (λ all id, all ≫= λ a, lookForDeps version depsMap fuel a id) (Some []) versionChanges.

Definition getChanges (fuel : nat)
    (getPublication : option string → option string → result HMPublication)
    (listChanges : option string → result (list Change)) (documentId version : option string) :
    result (option PublicationChanges) :=
  let* pub := getPublication documentId version in
  if negb (otruthy (p_document pub ≫= d_id)) then Err "docId not retreived from getPublication"
  else if negb (otruthy (p_version pub)) then Err "version not retrieved from getPublication"
  else
    let* changes := listChanges documentId in
    Ok (changes_of fuel changes (default "" (p_version pub)) pub).

(** * Correctness of the changes of a publication

    [lookForDeps] is a depth-first walk: it visits the ancestors of a change, each
    once.  For a version of several changes the code looks for one change by the whole
    version's name and finds none. *)

(** ** Maps of sets *)

Definition members (m : obj (list string)) (k : string) : list string := default [] (oget m k).

Lemma elem_of_set_add s x y : y ∈ set_add s x ↔ y ∈ s ∨ y = x.
Proof. unfold set_add. case_bool_decide; set_solver. Qed.
Lemma set_add_NoDup s x : NoDup s → NoDup (set_add s x).
Proof.
  unfold set_add. case_bool_decide; [done|]. intros Hs. apply NoDup_app.
  split; [done|]. split; [set_solver|apply NoDup_singleton].
Qed.

Lemma members_multi_add m k x j y :
  y ∈ members (multi_add m k x) j ↔ y ∈ members m j ∨ (k = j ∧ y = x).
Proof.
  unfold members, multi_add. rewrite oget_oset. destruct (String.eqb_spec k j) as [->|]; cbn.
  - rewrite elem_of_set_add. naive_solver.
  - naive_solver.
Qed.

Lemma members_touch m k j :
  members (match oget m k with Some _ => m | None => oset m k [] end) j = members m j.
Proof.
  destruct (oget m k) eqn:E; [done|]. unfold members. rewrite oget_oset.
  destruct (String.eqb_spec k j) as [->|]; [by rewrite E|done].
Qed.

(** Direct dependence between changes. *)
Definition depends (changes : list Change) (x y : string) : Prop :=
  ∃ c, c ∈ changes ∧ ch_id c = x ∧ y ∈ ch_deps c.

Lemma elem_of_changeDeps changes x y : y ∈ members (changeDeps changes) x ↔ depends changes x y.
Proof.
  unfold changeDeps, depends. assert (∀ m, y ∈ members (foldl (λ m c,
    let m := match oget m (ch_id c) with Some _ => m | None => oset m (ch_id c) [] end in
    foldl (λ m dep, multi_add m (ch_id c) dep) m (ch_deps c)) m changes) x ↔
    y ∈ members m x ∨ ∃ c, c ∈ changes ∧ ch_id c = x ∧ y ∈ ch_deps c) as Hg.
  { induction changes as [|c cs IH]; intros m; cbn [foldl]; [set_solver|]. rewrite IH. clear IH.
    assert (∀ l m, y ∈ members (foldl (λ m dep, multi_add m (ch_id c) dep) m l) x ↔
      y ∈ members m x ∨ (ch_id c = x ∧ y ∈ l)) as Hl.
    { intros l. induction l as [|d l IH]; intros m'; cbn [foldl]; [set_solver|].
      rewrite IH, members_multi_add. set_solver. }
    cbn zeta. rewrite Hl, members_touch. set_solver. }
  rewrite Hg. unfold members at 1. cbn. set_solver.
Qed.

Lemma elem_of_downstream changes x y : y ∈ members (downstreamChanges changes) x ↔ depends changes y x.
Proof.
  unfold downstreamChanges, depends. assert (∀ m, y ∈ members (foldl (λ m c,
    foldl (λ m dep, multi_add m dep (ch_id c)) m (ch_deps c)) m changes) x ↔
    y ∈ members m x ∨ ∃ c, c ∈ changes ∧ ch_id c = y ∧ x ∈ ch_deps c) as Hg.
  { induction changes as [|c cs IH]; intros m; cbn [foldl]; [set_solver|]. rewrite IH. clear IH.
    assert (∀ l m, y ∈ members (foldl (λ m dep, multi_add m dep (ch_id c)) m l) x ↔
      y ∈ members m x ∨ (ch_id c = y ∧ x ∈ l)) as Hl.
    { intros l. induction l as [|d l IH]; intros m'; cbn [foldl]; [set_solver|].
      rewrite IH, members_multi_add. set_solver. }
    rewrite Hl. set_solver. }
  rewrite Hg. unfold members at 1. cbn. set_solver.
Qed.

Lemma oget_changesIndex changes k :
  is_Some (oget (changesIndex changes) k) ↔ ∃ c, c ∈ changes ∧ ch_id c = k.
Proof.
  unfold changesIndex. assert (∀ m, is_Some (oget (foldl (λ m c, oset m (ch_id c) c) m changes) k) ↔
    is_Some (oget m k) ∨ ∃ c, c ∈ changes ∧ ch_id c = k) as Hg.
  { induction changes as [|c cs IH]; intros m; cbn [foldl]; [set_solver|]. rewrite IH, oget_oset.
    destruct (String.eqb_spec (ch_id c) k); [|set_solver].
    split; [|naive_solver]. intros _. right. exists c. set_solver. }
  rewrite Hg. cbn. split; [|naive_solver]. intros [[? [=]]|?]; done.
Qed.
Lemma changesIndex_id changes k c : oget (changesIndex changes) k = Some c → ch_id c = k ∧ c ∈ changes.
Proof.
  unfold changesIndex. assert (∀ m, (∀ c, oget m k = Some c → ch_id c = k ∧ c ∈ changes) →
    ∀ l, l ⊆ changes → oget (foldl (λ m c, oset m (ch_id c) c) m l) k = Some c → ch_id c = k ∧ c ∈ changes) as Hg.
  { intros m Hm l. revert m Hm. induction l as [|d l IH]; intros m Hm Hl; cbn [foldl]; [apply Hm|].
    apply IH; [|set_solver]. intros c'. rewrite oget_oset. destruct (String.eqb_spec (ch_id d) k); [|apply Hm].
    intros [= <-]. set_solver. }
  by apply (Hg []).
Qed.

(** ** The depth-first walk *)

Section walk.
Context (version : string) (deps : obj (list string)) (rank : string → nat).
Let dep (x y : string) : Prop := y ∈ members deps x.
(** Changes are named by their content, so that no change depends on itself, directly
    or not. *)
Hypothesis acyclic : ∀ x y, dep x y → rank y < rank x.

(** A visited change with a dependency that is not visited yet. *)
Definition unfinished (all : list string) (x : string) : Prop :=
  x ∈ all ∧ ∃ y, dep x y ∧ y ∉ all ∧ y ≠ version.

(** What a visit of [ids] does to the list. *)
Record visited (ids : list string) (all all' : list string) : Prop := {
  v_incl : all ⊆ all';
  v_ids : ∀ x, x ∈ ids → x ∈ all' ∨ x = version;
  v_unfinished : ∀ x, unfinished all' x → unfinished all x;
  v_new : ∀ x, x ∈ all' → x ∈ all ∨ (x ≠ version ∧ ∃ i, i ∈ ids ∧ rtc dep i x);
  v_NoDup : NoDup all → NoDup all';
}.

Lemma visited_nil all : visited [] all all.
Proof. split; set_solver. Qed.

Lemma visited_cons i ids all all1 all' :
  visited [i] all all1 → visited ids all1 all' → visited (i :: ids) all all'.
Proof.
  intros H1 H2. destruct H1 as [A1 B1 C1 D1 E1], H2 as [A2 B2 C2 D2 E2]. split.
  - set_solver.
  - intros x [->|Hx]%elem_of_cons; [|auto]. destruct (B1 i ltac:(left)); [left; set_solver|by right].
  - auto.
  - intros x Hx. destruct (D2 x Hx) as [Hx1|(Hv & j & Hj & Hr)].
    + destruct (D1 x Hx1) as [|(Hv & j & Hj & Hr)]; [by left|]. right. split; [done|].
      exists j. set_solver.
    + right. split; [done|]. exists j. set_solver.
  - auto.
Qed.

(** The list while the dependencies of a change are visited. *)
Lemma fold_visited fuel ids all :
  (∀ i all, i ∈ ids → (∀ x, unfinished all x → rank i < rank x) →
    ∃ all', lookForDeps version deps fuel all i = Some all' ∧ visited [i] all all') →
  (∀ i x, i ∈ ids → unfinished all x → rank i < rank x) →
  ∃ all', foldl (λ a i, a ≫= λ a, lookForDeps version deps fuel a i) (Some all) ids = Some all' ∧
          visited ids all all'.
Proof.
  intros Hone. revert all. induction ids as [|i ids IH]; intros all Hu.
  { exists all. split; [done|apply visited_nil]. }
  destruct (Hone i all) as (all1 & E1 & H1); [left|by intros; apply Hu; [left|]|].
  cbn [foldl]. cbn [mbind option_bind]. rewrite E1.
  destruct (IH) with (all := all1) as (all' & E' & H').
  { intros j a Hj. apply Hone. by right. }
  { intros j x Hj Hx. apply Hu; [by right|]. by apply (v_unfinished _ _ _ H1). }
  exists all'. split; [done|]. by eapply visited_cons.
Qed.

Lemma lookForDeps_visited fuel all i :
  rank i < fuel → (∀ x, unfinished all x → rank i < rank x) →
  ∃ all', lookForDeps version deps fuel all i = Some all' ∧ visited [i] all all'.
Proof.
  revert all i. induction fuel as [|fuel IH]; intros all i Hf Hu; [lia|]. cbn [lookForDeps].
  case_bool_decide as Hi.
  { exists all. split; [done|]. split; set_solver. }
  set (all1 := if String.eqb i version then all else all ++ [i]).
  assert (∀ x, x ∈ all1 ↔ x ∈ all ∨ (x = i ∧ i ≠ version)) as Hall1.
  { intros x. unfold all1. destruct (String.eqb_spec i version) as [->|]; set_solver. }
  destruct (fold_visited fuel (members deps i) all1) as (all' & E & H).
  { intros j a Hj Hx. apply IH; [|done]. specialize (acyclic i j Hj). lia. }
  { intros j x Hj [Hx (y & Hy & Hn & Hv)]. apply acyclic in Hj as Hr. apply Hall1 in Hx as [Hx|[-> _]]; [|done].
    assert (rank i < rank x); [|lia]. apply Hu. split; [done|]. exists y. set_solver. }
  exists all'. split; [done|]. destruct H as [A B C D F]. split.
  - intros x Hx. apply A, Hall1. by left.
  - intros x ->%list_elem_of_singleton. destruct (decide (i = version)); [by right|left].
    apply A, Hall1. by right.
  - intros x Hx. assert (Hx' := C x Hx). destruct Hx' as [Hx1 (y & Hy & Hn & Hv)].
    apply Hall1 in Hx1 as [Hx1|[-> Hne]].
    + split; [done|]. exists y. set_solver.
    + destruct Hx as [_ (z & Hz & Hnz & Hvz)]. by destruct (B z Hz).
  - intros x Hx. destruct (D x Hx) as [Hx1|(Hv & j & Hj & Hr)].
    + apply Hall1 in Hx1 as [|[-> Hne]]; [by left|]. right. split; [done|].
      exists i. split; [left|apply rtc_refl].
    + right. split; [done|]. exists i. split; [left|]. by eapply rtc_l.
  - intros Hnd. apply F. unfold all1. destruct (String.eqb i version); [done|].
    apply NoDup_app. split; [done|]. split; [set_solver|apply NoDup_singleton].
Qed.

(** The walk from the version itself finds its ancestors, each once. *)
Lemma lookForDeps_ancestors fuel :
  rank version < fuel →
  ∃ all, lookForDeps version deps fuel [] version = Some all ∧ NoDup all ∧
         ∀ x, x ∈ all ↔ tc dep version x.
Proof.
  intros Hf. destruct fuel as [|fuel]; [lia|]. cbn [lookForDeps].
  rewrite bool_decide_false by apply not_elem_of_nil. rewrite String.eqb_refl.
  destruct (fold_visited fuel (members deps version) []) as (all & E & [A B C D F]).
  { intros j a Hj Hx. apply lookForDeps_visited; [|done]. apply acyclic in Hj. lia. }
  { intros j x Hj [Hx _]. by apply elem_of_nil in Hx. }
  exists all. split; [done|]. split; [apply F; constructor|]. intros x. split.
  - intros Hx. destruct (D x Hx) as [Hn|(Hv & i & Hi & Hr)]; [by apply elem_of_nil in Hn|].
    by eapply tc_rtc_r; [apply tc_once|].
  - assert (∀ i, i ∈ all → ∀ y, rtc dep i y → y ∈ all ∨ y = version) as Hclosed.
    { intros i Hi y Hr. revert Hi. induction Hr as [i|i j y Hd Hr IH]; [by left|]. intros Hi.
      destruct (decide (j ∈ all)) as [|Hn]; [auto|]. destruct (decide (j = version)) as [->|Hv].
      - exfalso. (* i is an ancestor of the version *)
        destruct (D i Hi) as [Hn'|(_ & k & Hk & Hk')]; [by apply elem_of_nil in Hn'|].
        assert (rank i < rank version).
        { apply acyclic in Hk. enough (rank i <= rank k) by lia. clear -Hk' acyclic.
          induction Hk' as [|a b c Hab _ IH]; [done|]. apply acyclic in Hab. lia. }
        apply acyclic in Hd. lia.
      - exfalso. destruct (C i) as [Hn' _]; [|by apply elem_of_nil in Hn'].
        split; [done|]. by exists j. }
    intros Ht. assert (∃ k, dep version k ∧ rtc dep k x) as (k & Hk & Hr).
    { inversion Ht as [? ? Hd|? z ? Hd Ht']; subst; [by exists x; split; [|apply rtc_refl]|].
      exists z. split; [done|]. by apply tc_rtc. }
    assert (rank x < rank version) as Hlt.
    { apply acyclic in Hk. enough (rank x <= rank k) by lia. clear -Hr acyclic.
      induction Hr as [|a b c Hab _ IH]; [done|]. apply acyclic in Hab. lia. }
    assert (x ≠ version) by (intros ->; lia).
    destruct (B k Hk) as [Hka| ->]; [|apply acyclic in Hk; lia].
    by destruct (Hclosed k Hka x Hr).
Qed.
End walk.

(** ** The lists that are returned *)

(** The change that the index has for an id. *)
Definition indexed (changes : list Change) (c : Change) : Prop :=
  oget (changesIndex changes) (ch_id c) = Some c.

Lemma elem_of_indexed changes (ids : list string) c :
  c ∈ omap (oget (changesIndex changes)) ids ↔ ch_id c ∈ ids ∧ indexed changes c.
Proof.
  rewrite list_elem_of_omap. split.
  - intros (id & Hid & E). destruct (changesIndex_id _ _ _ E) as [<- _]. done.
  - intros [Hid Hc]. by exists (ch_id c).
Qed.

Lemma omap_indexed_NoDup changes (ids : list string) :
  NoDup ids → NoDup (ch_id <$> omap (oget (changesIndex changes)) ids).
Proof.
  induction 1 as [|i ids Hi _ IH]; [constructor|]. cbn.
  destruct (oget (changesIndex changes) i) as [c|] eqn:E; [|done]. rewrite fmap_cons. constructor; [|done].
  destruct (changesIndex_id _ _ _ E) as [<- _]. intros (d & Ed & Hd)%list_elem_of_fmap.
  apply elem_of_indexed in Hd as [Hd _]. by rewrite <- Ed in Hd.
Qed.

Lemma members_versionDownstream version down x :
  x ∈ members (versionDownstream version [version] down) version ↔ x ∈ members down version.
Proof.
  unfold versionDownstream. cbn [foldl].
  assert (∀ l m, l ⊆ members down version →
    (∀ y, y ∈ members m version ↔ y ∈ members down version) →
    ∀ y, y ∈ members (foldl (λ m changeId,
      match oget m version with Some s => oset m version (set_add s changeId) | None => m end) m l) version ↔
      y ∈ members down version) as Hg; [|by apply Hg].
  induction l as [|z l IH]; intros m Hl Hm y; [apply Hm|]. cbn [foldl]. apply IH; [set_solver|].
  intros w. destruct (oget m version) as [s|] eqn:E; [|apply Hm].
  unfold members at 1. rewrite oget_oset_eq. cbn. rewrite elem_of_set_add.
  specialize (Hm w). unfold members at 1 in Hm. rewrite E in Hm. cbn in Hm. set_solver.
Qed.

Lemma elem_of_set_adds l s x : x ∈ foldl set_add s l ↔ x ∈ s ∨ x ∈ l.
Proof.
  revert s. induction l as [|y l IH]; intros s; cbn [foldl]; [set_solver|].
  rewrite IH, elem_of_set_add. set_solver.
Qed.

(** C32. For a version that is one change: the version's own change; the changes it
    depends on directly; those that depend on it; and all that it builds on, directly
    or not, each once.  The walk ends because no change depends on itself. *)
Theorem getChanges_spec fuel getPublication listChanges documentId v pub doc version changes rank :
  getPublication documentId v = Ok pub → p_document pub = Some doc → otruthy (d_id doc) = true →
  p_version pub = Some version → version ≠ "" → lacks "," version = true →
  listChanges documentId = Ok changes →
  (∀ x y, depends changes x y → rank y < rank x) → rank version < fuel →
  ∃ r, getChanges fuel getPublication listChanges documentId v = Ok (Some r) ∧
    pc_versionChanges r = opt_list (oget (changesIndex changes) version) ∧
    (∀ c, c ∈ pc_deps r ↔ depends changes version (ch_id c) ∧ indexed changes c) ∧
    (∀ c, c ∈ pc_downstreamChanges r ↔ depends changes (ch_id c) version ∧ indexed changes c) ∧
    (∀ c, c ∈ pc_allDeps r ↔ tc (depends changes) version (ch_id c) ∧ indexed changes c) ∧
    NoDup (ch_id <$> pc_allDeps r).
Proof.
  intros Hp Hd Hid Hv Hne Hc Hl Hrank Hf. unfold getChanges. rewrite Hp. cbn [rbind].
  rewrite Hd. cbn [mbind option_bind]. rewrite Hid, Hv, otruthy_Some by done. cbn [negb].
  change (default "" (Some version)) with version.
  rewrite Hl. cbn [rbind]. unfold changes_of. rewrite (js_split_none "," "" _ Hc). cbn [foldl].
  assert (∀ x y, y ∈ members (changeDeps changes) x ↔ depends changes x y) as Hdep
    by (intros; apply elem_of_changeDeps).
  destruct (lookForDeps_ancestors version (changeDeps changes) rank) with (fuel := fuel)
    as (all & E & Hnd & Hall); [by intros x y ?%Hdep; apply Hrank|done|].
  cbn [mbind option_bind]. rewrite E. cbn [fmap option_fmap option_map]. eexists. split; [done|].
  cbn [pc_versionChanges pc_deps pc_downstreamChanges pc_allDeps]. split_and!.
  - cbn. by destruct (oget _ version).
  - intros c. rewrite elem_of_indexed, elem_of_set_adds.
    change (default [] (oget (changeDeps changes) version)) with (members (changeDeps changes) version).
    rewrite Hdep. set_solver.
  - intros c. rewrite elem_of_indexed, list_elem_of_In, List.filter_In, <- list_elem_of_In.
    change (default [] (oget ?m version)) with (members m version).
    rewrite members_versionDownstream, elem_of_downstream, negb_true_iff, bool_decide_eq_false.
    rewrite list_elem_of_singleton. split; [naive_solver|]. intros [Hdc Hi]. split_and!; [done| |done].
    intros Heq. rewrite Heq in Hdc. apply Hrank in Hdc. lia.
  - intros c. rewrite elem_of_indexed, Hall. split; intros [Ht Hi]; (split; [|done]).
    + clear -Ht Hdep. induction Ht as [x y Hxy|x y z Hxy _ IH]; [by apply tc_once, Hdep|].
      eapply tc_l; [by apply Hdep|done].
    + clear -Ht Hdep. induction Ht as [x y Hxy|x y z Hxy _ IH]; [by apply tc_once, Hdep|].
      eapply tc_l; [by apply Hdep|done].
  - by apply omap_indexed_NoDup.
Qed.

(** The version of a publication that merges several changes is their ids joined by
    points; [getChanges] splits it at commas, looks for a change by the whole version
    and answers that the publication has no changes at all. *)
Theorem merged_version_has_no_changes fuel getPublication listChanges documentId v pub doc version changes :
  getPublication documentId v = Ok pub → p_document pub = Some doc → otruthy (d_id doc) = true →
  p_version pub = Some version → lacks "," version = true → lacks "." version = false →
  listChanges documentId = Ok changes →
  (∀ c, c ∈ changes → lacks "." (ch_id c) = true ∧ ∀ d, d ∈ ch_deps c → lacks "." d = true) →
  0 < fuel →
  getChanges fuel getPublication listChanges documentId v =
  Ok (Some {| pc_versionChanges := []; pc_deps := []; pc_downstreamChanges := [];
              pc_allDeps := []; pc_pub := pub |}).
Proof.
  intros Hp Hd Hid Hv Hc Hdot Hl Hids Hf. unfold getChanges. rewrite Hp. cbn [rbind].
  rewrite Hd. cbn [mbind option_bind]. rewrite Hid, Hv.
  rewrite otruthy_Some by (intros ->; discriminate). cbn [negb].
  change (default "" (Some version)) with version.
  rewrite Hl. cbn [rbind]. unfold changes_of. rewrite (js_split_none "," "" _ Hc). cbn [foldl].
  assert (∀ x, ¬ depends changes version x) as Hno1.
  { intros x (c & Hcc & Hi & _). destruct (Hids c Hcc) as [Hx _]. congruence. }
  assert (∀ x, ¬ depends changes x version) as Hno2.
  { intros x (c & Hcc & _ & Hi). destruct (Hids c Hcc) as [_ Hx]. apply Hx in Hi. congruence. }
  assert (oget (changesIndex changes) version = None) as Hno3.
  { apply eq_None_not_Some. rewrite oget_changesIndex. intros (c & Hcc & Hi).
    destruct (Hids c Hcc) as [Hx _]. congruence. }
  assert (members (changeDeps changes) version = []) as Em1.
  { apply elem_of_nil_inv. intros x. rewrite elem_of_changeDeps. apply Hno1. }
  assert (members (versionDownstream version [version] (downstreamChanges changes)) version = []) as Em2.
  { apply elem_of_nil_inv. intros x. rewrite members_versionDownstream, elem_of_downstream. apply Hno2. }
  unfold members in Em1, Em2. rewrite Em1, Em2. destruct fuel as [|fuel]; [lia|].
  cbn [mbind option_bind lookForDeps]. rewrite bool_decide_false by apply not_elem_of_nil.
  rewrite String.eqb_refl, Em1. cbn. by rewrite Hno3.
Qed.

(** *** An example: two versions that build on a first one, and a merge. *)
Definition ch (id : string) (deps : list string) : Change :=
  {| ch_id := id; ch_deps := deps; ch_createTime := None |}.
Definition site_changes : list Change :=
  [ch "a" []; ch "b" ["a"]; ch "c" ["a"]; ch "d" ["b"; "c"]].
Definition site_pub (version : string) : HMPublication :=
  {| p_document := Some {| d_title := None; d_id := Some "hm://d/x"; d_author := None; d_editors := [];
       d_children := None; d_createTime := None; d_updateTime := None; d_publishTime := None;
       d_version := None; d_previousVersion := None |};
     p_version := Some version |}.
Definition site_rank (x : string) : nat :=
  if String.eqb x "d" then 2 else if String.eqb x "b" || String.eqb x "c" then 1 else 0.

Lemma site_changes_acyclic x y : depends site_changes x y → site_rank y < site_rank x.
Proof.
  intros (c & Hc & <- & Hy).
  repeat (apply elem_of_cons in Hc as [->|Hc]; [cbn in Hy; repeat (apply elem_of_cons in Hy as [->|Hy];
    [vm_compute; lia|]); by apply elem_of_nil in Hy|]). by apply elem_of_nil in Hc.
Qed.

Lemma getChanges_spec_witness :
  ∃ r, getChanges 3 (λ _ _, Ok (site_pub "d")) (λ _, Ok site_changes) None None = Ok (Some r) ∧
       ch_id <$> pc_allDeps r = ["b"; "a"; "c"] ∧
       (∀ c, c ∈ pc_deps r ↔ depends site_changes "d" (ch_id c) ∧ indexed site_changes c).
Proof.
  destruct (getChanges_spec 3 (λ _ _, Ok (site_pub "d")) (λ _, Ok site_changes) None None (site_pub "d")
    (default {| d_title := None; d_id := None; d_author := None; d_editors := []; d_children := None;
       d_createTime := None; d_updateTime := None; d_publishTime := None; d_version := None;
       d_previousVersion := None |} (p_document (site_pub "d"))) "d" site_changes site_rank)
    as (r & E & _ & Hd & _ & _ & _); try reflexivity; try discriminate; [apply site_changes_acyclic|vm_compute; lia|].
  exists r. split; [exact E|]. split; [|exact Hd]. vm_compute in E. injection E as <-. reflexivity.
Defined.

Lemma merged_version_has_no_changes_witness :
  getChanges 3 (λ _ _, Ok (site_pub "b.c")) (λ _, Ok site_changes) None None =
  Ok (Some {| pc_versionChanges := []; pc_deps := []; pc_downstreamChanges := [];
              pc_allDeps := []; pc_pub := site_pub "b.c" |}).
Proof.
  apply (merged_version_has_no_changes 3 (λ _ _, Ok (site_pub "b.c")) (λ _, Ok site_changes) None None
    (site_pub "b.c") {| d_title := None; d_id := Some "hm://d/x"; d_author := None; d_editors := [];
       d_children := None; d_createTime := None; d_updateTime := None; d_publishTime := None;
       d_version := None; d_previousVersion := None |} "b.c" site_changes); try reflexivity; [|lia].
  intros c Hc. repeat (apply elem_of_cons in Hc as [->|Hc]; [split; [reflexivity|];
    intros d Hd; cbn in Hd; repeat (apply elem_of_cons in Hd as [->|Hd]; [reflexivity|]); by apply elem_of_nil in Hd|]).
  by apply elem_of_nil in Hc.
Defined.
