(* ===== verification/SiteApi.v ===== *)
(** * The queries of the web site

    [apps/site/server/routers/_app.ts] (except [getChanges], see [SiteChanges]) and
    [apps/site/server/group.ts].  The site's daemon answers from what it has; its
    answers are the record [SiteDaemon], whose calls may fail.  [hmPublication] and the
    like only turn messages into plain objects. *)
From S2P Require Import Prelude.
From S2P Require Import JsString.
From S2P Require Import JsObject.
From S2P Require Import EntityId.
From S2P Require Import BlockTypes.
From S2P Require Import DaemonApi.
From S2P Require Import Variants.

(** ** Data *)

Record HMGroup : Type := { hg_id : option string; hg_title : option string; hg_version : option string }.

Record LinkEnd : Type := { le_documentId : option string; le_version : option string }.
Record HMLink : Type := { hl_target : option LinkEnd; hl_source : option LinkEnd }.

Record SiteInfo : Type := {
  si_groupEid : string; si_groupId : string; si_version : string; si_p2pAddresses : list string;
}.

(** The queries of the daemon that change nothing. *)
Record SiteDaemon : Type := {
  getPublication : option string → option string → result HMPublication;
  getGroup : option string → option string → result HMGroup;
  listGroupContent : option string → option string → result (obj string);
  listGroupMembers : option string → result (option (obj Role));
  listCitations : option string → result (list HMLink);
  getSiteInfo : result string;                       (* the site's group id *)
  getDaemonInfo : result string;                     (* the device id *)
  getPeerInfo : string → result (list string);       (* its addresses *)
  siteVariantApi : VariantApi HMPublication;
}.

Definition site_errWrap {V} (failable : result V) : option V :=
  match failable with Ok v => Some v | Err _ => None end.

(** ** Publications *)

(** [{publication: null}] is [None]. *)
Definition publication_get (localPublication : string → string → result HMPublication)
    (documentId versionId : option string) : option HMPublication :=
  if negb (otruthy documentId) then None
  else site_errWrap (localPublication (default "" documentId) (default "" versionId)).

Record VariantAnswer : Type := {
  va_enableDiscovery : bool;
  va_publication : option HMPublication;
  va_variantVersion : option string;
}.

Section site.
Context `{UrlApi} (d : SiteDaemon).

Definition publication_getVariant (enableDiscovery : bool) (documentId versionId : option string)
    (latest : bool) (variants : option (list PublicationVariant)) : result VariantAnswer :=
  let nothing := {| va_enableDiscovery := enableDiscovery; va_publication := None; va_variantVersion := None |} in
  if negb (otruthy documentId) then Ok nothing
  else
    let* r := getPublicationVariant (siteVariantApi d) (default "" documentId) variants versionId latest in
    Ok (match rv_publication r with
        | None => nothing
        | Some p => {| va_enableDiscovery := enableDiscovery; va_publication := Some p;
                       va_variantVersion := rv_variantVersion r |}
        end).

(** *** Citations *)

Definition HIDDEN_NAVIGATION : string := "(HIDDEN) Group Navigation".

Definition source_doc (l : HMLink) : option string := hl_source l ≫= le_documentId.
Definition pub_doc (p : HMPublication) : option string := p_document p ≫= d_id.
(** [sourcePubs.find(..)] *)
Definition find_source (sourcePubs : list HMPublication) (l : HMLink) : option HMPublication :=
  List.find (λ p, bool_decide (pub_doc p = source_doc l)) sourcePubs.
Definition shown_citation (c : HMLink * option HMPublication) : bool :=
  negb (bool_decide ((c.2 ≫= p_document) ≫= d_title = Some HIDDEN_NAVIGATION)).

Definition publication_getCitations (documentId : option string) :
    result (list (HMLink * option HMPublication)) :=
  if negb (otruthy documentId) then Ok []
  else
    let* citationLinks := listCitations d documentId in
    let* sourcePubs :=
      map_result (λ l, getPublication d (source_doc l) (hl_source l ≫= le_version)) citationLinks in
    Ok (List.filter shown_citation ((λ l, (l, find_source sourcePubs l)) <$> citationLinks)).

(** ** Groups *)

(** [sortDocuments] of this file: [date_ms] is [new Date(..)] as a number. *)
Definition site_sortDocuments (date_ms : string → Z) (a b : option string) : Z :=
  let dateA := match a with Some s => if truthy s then date_ms s else 0%Z | None => 0%Z end in
  let dateB := match b with Some s => if truthy s then date_ms s else 1%Z | None => 1%Z end in
  (dateB - dateA)%Z.

Record GroupPath : Type := {
  gp_publication : HMPublication;
  gp_pathName : string;
  gp_documentId : string;
  gp_documentVersion : string;
  gp_groupVersion : option string;
  gp_group : HMGroup;
}.

Definition group_getGroupPath (groupId pathName : string) (version : option string) :
    result (option GroupPath) :=
  let* groupContent := listGroupContent d (Some groupId) version in
  let* group := getGroup d (Some groupId) version in
  match or_null (oget groupContent pathName) with
  | None => Ok None
  | Some item =>
      let* itemId := unpackDocId item in
      match itemId with
      | None => Ok None
      | Some (u, docId) =>
          match or_null (u_version u) with
          | None => Ok None
          | Some v =>
              let* pub := getPublication d (Some docId) (Some v) in
              Ok (Some {| gp_publication := pub; gp_pathName := pathName; gp_documentId := docId;
                          gp_documentVersion := v; gp_groupVersion := version; gp_group := group |})
          end
      end
  end.

Definition group_get (groupId version : option string) : option HMGroup :=
  site_errWrap (getGroup d groupId version).

Record ListedDoc : Type := {
  ld_pathName : string;
  ld_docId : UnpackedHypermediaId;
  ld_version : string;
  ld_publication : HMPublication;
}.

(** The callback over the entries; [null] is [None]. *)
Definition listed_doc (e : string * string) : result (option ListedDoc) :=
  let* docId := unpackDocId e.2 in
  match docId with
  | None => Ok None
  | Some (u, id) =>
      match or_null (u_version u) with
      | None => Ok None
      | Some v =>
          let* pub := getPublication d (Some id) (Some v) in
          Ok (Some {| ld_pathName := e.1; ld_docId := u; ld_version := v; ld_publication := pub |})
      end
  end.

Definition updateTime (l : option ListedDoc) : option string :=
  (l ≫= λ l, p_document (ld_publication l)) ≫= d_updateTime.

(** The requests run at the same time; the listing fails with the first to fail. *)
Definition group_listContent (date_ms : string → Z) (groupId : string) (version : option string) :
    result (list (option ListedDoc)) :=
  let* list := listGroupContent d (Some groupId) version in
  let* listedDocs := map_result listed_doc list in
  Ok (js_sort (λ a b, site_sortDocuments date_ms (updateTime a) (updateTime b)) listedDocs).

(** [a[0].localeCompare(b[0])] is [compare]. *)
Definition group_listMembers (compare : string → string → Z) (groupId : string) :
    result (list (string * Role)) :=
  let* members := listGroupMembers d (Some groupId) in
  Ok (js_sort (λ a b, compare a.1 b.1) (default [] members)).

Definition siteInfo_get : option SiteInfo :=
  site_errWrap (
    let* groupId := getSiteInfo d in
    let* u := unpackHmId groupId in
    let* deviceId := getDaemonInfo d in
    let* addrs := getPeerInfo d deviceId in
    Ok {| si_groupEid := default "" (u ≫= u_eid); si_groupId := groupId; si_version := "";
          si_p2pAddresses := addrs |}).
End site.

(** ** Accounts and discovery *)

Section discovery.
Context `{UrlApi} {S A : Type}.
Context (getAccount : string → call S A).
Context (discoverEntity : string → option string → call S unit).

(** [e.message.match('[not_found]')]: a string argument is a regular expression, here a
    class of characters. *)
Definition matches_not_found (message : string) : bool :=
  existsb (λ c, existsb (Ascii.eqb c) (chars "not_found")) (chars message).

(** [Ok (Some account)], or [Ok None] for [{account: null}]. *)
Definition account_get (accountId : option string) : call S (option A) :=
  if negb (otruthy accountId) then c_ret None
  else
    let id := default "" accountId in
    c_catch (await* a := getAccount id in c_ret (Some a))
      (λ message,
        if matches_not_found message then
          await* entityId := c_lift (createHmId "a" id no_opts) in
          await* succeeded :=
            c_catch (await* _ := discoverEntity entityId None in c_ret true) (λ _, c_ret false) in
          if succeeded then
            c_catch (await* a := getAccount id in c_ret (Some a)) (λ _, c_ret None)
          else c_ret None
        else c_ret None).

Definition contains (sub s : string) : bool := negb (no_occ sub s).
Definition entities_discover (id : string) (version : option string) : call S (bool * bool) :=
  c_catch (await* _ := discoverEntity id version in c_ret (true, true))
    (λ message, if contains "desired version" message then c_ret (false, true) else c_throw message).
End discovery.

(** [walletsRouter]: the URL that is fetched; a template prints [null] and [undefined]. *)
Definition template_str (o : nullish string) : string :=
  match o with Undefined => "undefined" | Null => "null" | Given s => s end.
Definition accounts_available_url (host : string) (editors : list (nullish string)) : string :=
  foldl (λ url e, url +:+ (if (e.1 =? 0) then "?" else "&") +:+ "user=" +:+ template_str e.2)
    (host +:+ "/v2/check") (imap pair editors).
