(* ===== verification/SiteRouting.v ===== *)
(** * Requests to the web site

    [apps/site/middleware.ts] rewrites the path of a request, the files under
    apps/site/pages decide by it which page answers and with which parameters, and
    [apps/site/server/static-props.ts] and [group.ts] load what the page shows and say
    for how long it may be kept. *)
From S2P Require Import Prelude.
From S2P Require Import JsString.
From S2P Require Import JsObject.
From S2P Require Import EntityId.
From S2P Require Import BlockTypes.
From S2P Require Import DaemonApi.
From S2P Require Import SiteApi.

(** ** The middleware *)

(** [NextResponse.next()], or a rewrite to a path (the query stays). *)
Inductive MiddlewareResponse : Type := Next | Rewrite (pathname : string).

(** [search] holds the entries of [new URLSearchParams(url.search)]. *)
Definition middleware (pathname : string) (search : list (string * string)) : MiddlewareResponse :=
  let versionParam := or_null (params_get search "v") in
  let variantsParam := or_null (params_get search "b") in
  let pathTerms := js_split "/" pathname in
  let term n := undef_str (pathTerms !! n) in
  let is_term1 s := bool_decide (pathTerms !! 1 = Some s) in
  if String.eqb pathname "/.well-known/hypermedia-site" then Rewrite "/api/well-known-hypermedia-site"
  else if is_term1 "ipfs" then Next
  else Rewrite
    (if (length pathTerms =? 2) && is_term1 "" then
       match versionParam with Some v => "/-/" +:+ v | None => "/-" end
     else if (length pathTerms =? 2) then
       match versionParam with
       | Some v => "/" +:+ term 1 +:+ "/" +:+ v
       | None => "/" +:+ term 1
       end
     else if (length pathTerms =? 3) && is_term1 "d" then
       match versionParam, variantsParam with
       | Some v, Some b => "/d/" +:+ term 2 +:+ "/" +:+ v +:+ "/" +:+ replaceAll1 "/" ":" b
       | Some v, None => "/d/" +:+ term 2 +:+ "/" +:+ v
       | None, _ => "/d/" +:+ term 2
       end
     else if is_term1 "g" then
       let pathName := default "-" (or_null (pathTerms !! 3)) in
       match versionParam with
       | Some v => "/g/" +:+ term 2 +:+ "/" +:+ pathName +:+ "/" +:+ v
       | None => "/g/" +:+ term 2 +:+ "/" +:+ pathName
       end
     else pathname).

(** ** The pages *)

(** The pages with parameters, by the directories of apps/site/pages; a page with a
    fixed name comes before them. *)
Inductive Page : Type :=
| DocumentPage (docEid : string) (versionId variants : option string)
| GroupDocPage (groupEid pathName versionId : option string)
| AccountPage (accountId : string)
| OtherPage.

Definition fixed_pages : list string :=
  ["404"; "500"; "connect-peer"; "download-mintter-hypermedia"; "hypermedia-connect"; "secret-invite"; "api"].

Definition page_of (pathname : string) : Page :=
  match js_split "/" pathname with
  | "" :: terms =>
      match terms with
      | ["d"; e] => DocumentPage e None None
      | ["d"; e; v] => DocumentPage e (Some v) None
      | ["d"; e; v; b] => DocumentPage e (Some v) (Some b)
      | ["g"; e] => GroupDocPage (Some e) None None
      | ["g"; e; p] => GroupDocPage (Some e) (Some p) None
      | ["g"; e; p; v] => GroupDocPage (Some e) (Some p) (Some v)
      | ["a"; a] => AccountPage a
      | [""] => GroupDocPage None None None
      | [p] => if bool_decide (p ∈ fixed_pages) then OtherPage else GroupDocPage None (Some p) None
      | [p; v] => if bool_decide (p ∈ fixed_pages) then OtherPage else GroupDocPage None (Some p) (Some v)
      | _ => OtherPage
      end
  | _ => OtherPage
  end.

(** ** What the pages load *)

Inductive GroupView : Type := FrontView | ListView.
Definition getGroupView (input : option (string + list string)) : option GroupView :=
  match input with
  | Some (inl s) =>
      if String.eqb s "front" then Some FrontView
      else if String.eqb s "list" then Some ListView else None
  | _ => None
  end.

(** Seconds until a page may be rendered again. *)
Definition revalidation (versionId : string) (found : bool) : Z :=
  if truthy versionId then if found then 3600%Z else 10%Z else 20%Z.

(** The input of [publication.getVariant]. *)
Record VariantRequest : Type := {
  vr_documentId : string;
  vr_versionId : string;
  vr_latest : bool;
  vr_variants : option (list PublicationVariant);
}.

Section pages.
Context `{UrlApi} (d : SiteDaemon) (date_ms : string → Z) (compare : string → string → Z).
(** [helpers.account.get.fetch], which never fails, and the site's settings. *)
Context (enableDiscovery : bool).

(** No route has a [latest] parameter, so [context.params.latest] is undefined. *)
Definition doc_request (docEid versionId variantsQuery : option string) : result VariantRequest :=
  let* documentId := createHmId0 "d" (default "" docEid) in
  let* variants := parseVariantsQuery (inl <$> or_null variantsQuery) in
  Ok {| vr_documentId := documentId; vr_versionId := default "" versionId; vr_latest := false;
        vr_variants := variants |}.

Definition has_document (p : option HMPublication) : bool :=
  match p ≫= p_document with Some _ => true | None => false end.

(** The [revalidate] of the page. *)
Definition getDocStaticProps (docEid versionId variantsQuery : option string) : result Z :=
  let* r := doc_request docEid versionId variantsQuery in
  let* loadedDoc := publication_getVariant d enableDiscovery (Some (vr_documentId r))
                      (Some (vr_versionId r)) (vr_latest r) (vr_variants r) in
  Ok (revalidation (default "" versionId) (has_document (va_publication loadedDoc))).

Record PrefetchedGroup : Type := {
  pg_group : HMGroup;
  pg_content : list (option ListedDoc);
}.

Definition prefetchGroup (groupId : string) (groupVersion : option string) :
    result (option PrefetchedGroup) :=
  if negb (truthy groupId) then Ok None
  else
    match group_get d (Some groupId) (Some (default "" (or_null groupVersion))) with
    | None => Ok None
    | Some group =>
        let* _ := group_listMembers d compare groupId in
        let* content := group_listContent d date_ms groupId (hg_version group) in
        Ok (Some {| pg_group := group; pg_content := content |})
    end.

(** The path whose entry is looked for. *)
Definition content_path (pathName : option string) : string :=
  match or_null pathName with
  | Some p => p
  | None => "/"
  end.
Definition content_item (content : list (option ListedDoc)) (path : string) : option ListedDoc :=
  List.find (λ i, bool_decide (ld_pathName <$> i = Some path)) content ≫= λ i, i.

Definition prefetchGroupContent (prefetched : option PrefetchedGroup) (pathName : option string) :
    result (option HMPublication) :=
  let groupId := prefetched ≫= λ p, hg_id (pg_group p) in
  match prefetched ≫= (λ p, content_item (pg_content p) (content_path pathName)) with
  | None => Ok None
  | Some item =>
      if negb (otruthy groupId) || negb (String.eqb (u_type (ld_docId item)) "d") then Ok None
      else
        let* documentId := createHmId0 "d" (undef_str (u_eid (ld_docId item))) in
        let* publication := publication_getVariant d enableDiscovery (Some documentId)
          (or_null (u_version (ld_docId item))) true
          (Some [GroupVariant (default "" groupId) (Some (ld_pathName item))]) in
        Ok (va_publication publication)
  end.

(** Seconds, for a group document page; [groupId] is the site's group. *)
Definition getGroupDocStaticProps (groupEid pathName versionId : option string) : result Z :=
  let path := default "-" (or_null pathName) in
  let version := default "" versionId in
  match siteInfo_get d with
  | None => Ok 1%Z
  | Some siteInfo =>
      let* requestGroupId :=
        match or_null groupEid with
        | Some e => createHmId0 "g" e
        | None => Ok (si_groupId siteInfo)
        end in
      let* prefetchedGroup := prefetchGroup requestGroupId (Some version) in
      let* pub := prefetchGroupContent prefetchedGroup (Some path) in
      Ok (revalidation version (has_document pub))
  end.
End pages.
