(* ===== verification/SiteFacts.v ===== *)
(** * Correctness of the web site's requests

    The public URL of a document leads, through the middleware's rewriting, to the page
    that asks for the document and the variants the URL was made from. *)
From S2P Require Import Prelude.
From S2P Require Import JsString.
From S2P Require Import JsObject.
From S2P Require Import EntityId.
From S2P Require Import BlockTypes.
From S2P Require Import DaemonApi.
From S2P Require Import Variants.
From S2P Require Import SiteApi.
From S2P Require Import SiteRouting.

(** ** Replacing slashes in a list of variants *)

Lemma replace_slash_back s : replaceAll1 ":" "/" (replaceAll1 "/" ":" s) = replaceAll1 ":" "/" s.
Proof.
  induction s as [|c s IH]; [done|]. unfold replaceAll1 in *. cbn. rewrite IH. f_equal.
  by destruct (Ascii.eqb_spec c "/") as [->|].
Qed.

Lemma lacks_replaced a b s : a ≠ b → lacks a (replaceAll1 a b s) = true.
Proof.
  intros Hab. induction s as [|c s IH]; [done|]. unfold replaceAll1 in *. cbn [str_map].
  rewrite lacks_cons, IH, andb_true_r. apply negb_true_iff, Ascii.eqb_neq.
  destruct (Ascii.eqb_spec c a); congruence.
Qed.

(** Cutting at a character commutes with a replacement that does not touch it. *)
Lemma str_map_split f c s :
  (∀ d, f d = c ↔ d = c) →
  js_split (String c "") (str_map f s) = str_map f <$> js_split (String c "") s.
Proof.
  intros Hf. unfold js_split. induction s as [|d s IH]; [done|]. cbn [str_map split_go].
  destruct (Ascii.eqb_spec d c) as [->|Hd].
  - assert (f c = c) as -> by by apply Hf.
    assert (∀ t, String.prefix "" t = true) as Hp by by intros [].
    rewrite !prefix_same, !Hp. cbn [len String.length Nat.sub]. by rewrite IH.
  - assert (f d ≠ c) as Hfd by by rewrite Hf.
    rewrite (prefix_head_ne c (f d)), (prefix_head_ne c d) by (by apply not_eq_sym). rewrite IH.
    by destruct (split_go (String c "") 0 s).
Qed.

Lemma parseVariant_replaced `{UrlApi} s : parseVariant (replaceAll1 "/" ":" s) = parseVariant s.
Proof.
  unfold parseVariant. rewrite replace_slash_back. by destruct s.
Qed.

Lemma map_result_fmap_eq {A B C} (f : B → result C) (h : A → B) (g : A → result C) l :
  (∀ x, f (h x) = g x) → map_result f (h <$> l) = map_result g l.
Proof.
  intros Hf. induction l as [|x l IH]; [done|]. rewrite fmap_cons, !map_result_cons, Hf, IH. done.
Qed.

Lemma parseVariantsQuery_replaced `{UrlApi} b :
  parseVariantsQuery (Some (inl (replaceAll1 "/" ":" b))) = parseVariantsQuery (Some (inl b)).
Proof.
  unfold parseVariantsQuery. destruct b as [|c b]; [done|].
  assert (replaceAll1 "/" ":" (String c b) = String (if Ascii.eqb c "/" then ":" else c)%char (replaceAll1 "/" ":" b)) as E
    by done.
  rewrite E. cbv iota. rewrite <- E. unfold replaceAll1 at 1.
  rewrite str_map_split.
  - by rewrite (map_result_fmap_eq parseVariant (str_map _) parseVariant)
      by (intros; apply parseVariant_replaced).
  - intros d. destruct (Ascii.eqb_spec d "/") as [->|]; [|done]. split; intros; discriminate.
Qed.

(** ** Paths *)

Lemma join_root l : l ≠ [] → js_join "/" ("" :: l) = "/" +:+ js_join "/" l.
Proof. by destruct l. Qed.

Lemma split_path l :
  l ≠ [] → Forall (λ x, lacks "/" x = true) l → js_split "/" ("/" +:+ js_join "/" l) = "" :: l.
Proof.
  intros Hl Hf. rewrite <- join_root by done. apply (js_split_join "/"); [done|]. by constructor.
Qed.

Lemma version_lacks_slash v : str_all is_version_char v = true → lacks "/" v = true.
Proof.
  apply str_all_impl. intros c Hc. destruct (Ascii.eqb_spec "/" c) as [<-|]; [|done].
  by vm_compute in Hc.
Qed.
Lemma clean_ne_slash s : clean_ne s = true → lacks "/" s = true ∧ s ≠ "".
Proof. intros [Hc Hn]%clean_ne_spec. split; [by apply (clean_lacks "/")|done]. Qed.

Section served.
Context `{UrlApiLaws}.

(** C33. A document's public URL, with a version, variants and the flag for the latest
    version, is rewritten to the page of the document, whose parameters are the id,
    the version and the list of variants; from them the page asks for that document and
    version with the variants the URL was made from.  Two things of the URL are lost:
    the variants when there is no version, and the flag for the latest version. *)
Theorem document_url_is_served eid o entries :
  clean_ne eid = true → clean_opts o →
  buildQuery (o_version o) (o_variants o) (o_latest o) = Ok entries →
  ∃ path b, middleware ("/d/" +:+ eid) (params_of entries) = Rewrite path ∧
    page_of path = DocumentPage eid (o_version o) b ∧
    doc_request (Some eid) (o_version o) b =
    Ok {| vr_documentId := "hm://d/" +:+ eid; vr_versionId := default "" (o_version o);
          vr_latest := false;
          vr_variants := match o_version o with Some _ => o_variants o | None => None end |}.
Proof.
  intros He Ho Hq. destruct (buildQuery_clean o Ho) as (b & Hb & Hp & _).
  rewrite Hq in Hb. apply Ok_inj in Hb as ->.
  destruct (params_of_entries o b (proj1 (proj2 Ho))) as (Ev & Eb & _).
  destruct (clean_ne_slash _ He) as [Hes Hne].
  assert (js_split "/" ("/d/" +:+ eid) = [""; "d"; eid]) as Hsplit.
  { apply (split_path ["d"; eid]); [done|]. by repeat constructor. }
  assert (middleware ("/d/" +:+ eid) (params_of (entries_of o b)) = Rewrite
    match o_version o, or_null b with
    | Some v, Some b => "/d/" +:+ eid +:+ "/" +:+ v +:+ "/" +:+ replaceAll1 "/" ":" b
    | Some v, None => "/d/" +:+ eid +:+ "/" +:+ v
    | None, _ => "/d/" +:+ eid
    end) as Hm.
  { unfold middleware. rewrite Ev, Eb, Hsplit. cbn [length lookup list_lookup Nat.eqb andb].
    assert (or_null (o_version o) = o_version o) as ->.
    { destruct (o_version o) as [v|] eqn:E; [|done]. destruct Ho as (_ & Hv & _). rewrite E in Hv.
      unfold or_null, js_or. by rewrite otruthy_Some by apply Hv. }
    destruct (String.eqb_spec ("/d/" +:+ eid) "/.well-known/hypermedia-site") as [E|_]; [discriminate|].
    rewrite !bool_decide_false by congruence. rewrite bool_decide_true by done.
    by destruct (o_version o), (or_null b). }
  assert (createHmId0 "d" eid = Ok ("hm://d/" +:+ eid)) as Hid by by apply createHmId0_clean.
  rewrite Hm. destruct (o_version o) as [v|] eqn:E.
  - assert (lacks "/" v = true ∧ v ≠ "") as [Hv Hvne].
    { destruct Ho as (_ & Hv & _). rewrite E in Hv. destruct Hv. by split; [apply version_lacks_slash|]. }
    destruct (or_null b) as [b'|] eqn:Eb'.
    + eexists _, (Some (replaceAll1 "/" ":" b')). split; [done|]. split.
      * unfold page_of. change ("/d/" +:+ eid +:+ "/" +:+ v +:+ "/" +:+ ?x)
          with ("/" +:+ js_join "/" ["d"; eid; v; x]).
        rewrite split_path; [done|done|]. repeat constructor; try done. by apply lacks_replaced.
      * unfold doc_request. change (default "" (Some eid)) with eid. rewrite Hid. cbn [rbind].
        assert (b = Some b' ∧ b' ≠ "") as [-> Hb'].
        { unfold or_null, js_or in Eb'. destruct (otruthy b) eqn:Ot; [|done]. subst b. split; [done|].
          by apply truthy_spec. }
        assert (or_null (Some (replaceAll1 "/" ":" b')) = Some (replaceAll1 "/" ":" b')) as ->.
        { by destruct b'. }
        pose proof (parseVariantsQuery_replaced b') as Hr.
        cbn [fmap option_fmap option_map] in *. rewrite Hr, Hp. done.
    + eexists _, None. split; [done|]. split.
      * unfold page_of. change ("/d/" +:+ eid +:+ "/" +:+ v) with ("/" +:+ js_join "/" ["d"; eid; v]).
        rewrite split_path; [done|done|]. by repeat constructor.
      * unfold doc_request. change (default "" (Some eid)) with eid. rewrite Hid. cbn.
        assert (o_variants o = None) as ->; [|done].
        destruct b as [b|]; [|by cbn in Hp; injection Hp as <-].
        assert (b = "") as -> by by destruct b. cbn in Hp. by injection Hp as <-.
  - eexists _, None. split; [done|]. split.
    + unfold page_of. by rewrite Hsplit.
    + unfold doc_request. change (default "" (Some eid)) with eid. by rewrite Hid.
Qed.

(** ** What pages load *)

Section loads.
Context (d : SiteDaemon) (date_ms : string → Z) (compare : string → string → Z) (discovery : bool).

(** The front page of a group is the path [-], which the middleware puts for no
    path, but the entry that it shows is listed at [/].  So its publication is never
    loaded with the page, and the page of a version of a group is rendered again every
    ten seconds instead of every hour. *)
Theorem front_page_is_not_prefetched groupEid pathName versionId siteInfo g gid :
  pathName = None ∨ pathName = Some "-" →
  siteInfo_get d = Some siteInfo →
  match or_null groupEid with Some e => createHmId0 "g" e | None => Ok (si_groupId siteInfo) end = Ok gid →
  prefetchGroup d date_ms compare gid (Some (default "" versionId)) = Ok (Some g) →
  content_item (pg_content g) "-" = None →
  getGroupDocStaticProps d date_ms compare discovery groupEid pathName versionId =
  Ok (if truthy (default "" versionId) then 10%Z else 20%Z).
Proof.
  intros Hpath Hs Hg Hp Hc. unfold getGroupDocStaticProps. rewrite Hs, Hg. cbn [rbind].
  assert (default "-" (or_null pathName) = "-") as -> by by destruct Hpath as [->| ->].
  rewrite Hp. cbn [rbind]. unfold prefetchGroupContent. cbn [mbind option_bind].
  change (content_path (Some "-")) with "-". rewrite Hc. done.
Qed.

(** A document page is kept for an hour, ten or twenty seconds. *)
Lemma revalidation_values v found :
  revalidation v found = 3600%Z ∨ revalidation v found = 10%Z ∨ revalidation v found = 20%Z.
Proof. unfold revalidation. destruct (truthy v), found; auto. Qed.

(** *** Listings *)

Definition version_opts (v : string) : HmIdOpts :=
  {| o_version := Some v; o_blockRef := None; o_blockRange := None; o_groupPathName := None;
     o_variants := None; o_latest := None; o_hostname := None |}.

(** A document that a group lists: path, entity id, version and publication. *)
Record Item : Type := { it_path : string; it_eid : string; it_version : string; it_pub : HMPublication }.
Definition item_ok (i : Item) : Prop :=
  clean_ne (it_eid i) = true ∧ str_all is_version_char (it_version i) = true ∧ it_version i ≠ "" ∧
  getPublication d (Some ("hm://d/" +:+ it_eid i)) (Some (it_version i)) = Ok (it_pub i) ∧
  otruthy (p_document (it_pub i) ≫= d_updateTime) = true.
Definition lists (e : string * string) (i : Item) : Prop :=
  e.1 = it_path i ∧ createHmId "d" (it_eid i) (version_opts (it_version i)) = Ok e.2.

Definition item_of (l : option ListedDoc) : option Item :=
  (λ l, {| it_path := ld_pathName l; it_eid := default "" (u_eid (ld_docId l));
           it_version := ld_version l; it_pub := ld_publication l |}) <$> l.
(** The time of the last update, in milliseconds. *)
Definition item_ms (l : option ListedDoc) : Z := default 0%Z (date_ms <$> updateTime l).

Lemma listed_doc_item e i :
  lists e i → item_ok i →
  ∃ l, listed_doc d e = Ok l ∧ item_of l = Some i ∧ otruthy (updateTime l) = true.
Proof.
  destruct e as [path url], i as [p eid v pub]. intros [E1 Hurl] (He & Hv & Hne & Hpub & Ht).
  cbn [fst snd it_path it_eid it_version it_pub] in *. subst path. unfold listed_doc. cbn [fst snd].
  destruct (unpackDocId_spec "d" eid (version_opts v)) as (url' & Hu & E); [done|done|by repeat split|].
  rewrite Hurl in Hu. apply Ok_inj in Hu as <-. rewrite E. cbn [String.eqb Ascii.eqb Bool.eqb rbind].
  cbn [unpacked_of u_version version_opts o_version].
  assert (or_null (Some v) = Some v) as -> by (unfold or_null, js_or; by rewrite otruthy_Some).
  rewrite Hpub. cbn [rbind]. eexists. split; [done|]. split; [done|exact Ht].
Qed.

(** The documents of a group on the site: one for each entry, with the publication
    of the version that is listed, the last updated first. *)
Theorem group_listContent_spec groupId version content items :
  listGroupContent d (Some groupId) version = Ok content →
  Forall2 lists content items → Forall item_ok items →
  ∃ l, group_listContent d date_ms groupId version = Ok l ∧
    item_of <$> l ≡ₚ Some <$> items ∧
    StronglySorted (λ a b, (item_ms b <= item_ms a)%Z) l.
Proof.
  intros Hc Hl Hok. unfold group_listContent. rewrite Hc. cbn [rbind].
  assert (∃ docs, map_result (listed_doc d) content = Ok docs ∧ item_of <$> docs = Some <$> items ∧
    ∀ x, x ∈ docs → otruthy (updateTime x) = true) as (docs & -> & Hi & Ht).
  { clear Hc. induction Hl as [|e i content items He _ IH].
    - exists []. split; [done|]. split; [done|]. intros x Hx. by apply elem_of_nil in Hx.
    - inversion_clear Hok as [|?? Hio Hok']. destruct (IH Hok') as (docs & E & Hi & Ht).
      destruct (listed_doc_item e i He Hio) as (l & El & Eli & Etl). exists (l :: docs).
      rewrite map_result_cons, El. cbn [rbind]. rewrite E. cbn [rbind]. split; [done|].
      rewrite !fmap_cons, Eli, Hi. split; [done|]. intros x [->|Hx]%elem_of_cons; auto. }
  cbn [rbind]. eexists. split; [done|]. split.
  - rewrite js_sort_Permutation. by rewrite Hi.
  - apply js_sort_desc. intros x y Hx Hy. unfold site_sortDocuments, item_ms.
    apply Ht in Hx, Hy. destruct (updateTime x) as [a|]; [|done]. destruct (updateTime y) as [b|]; [|done].
    unfold otruthy in *. cbn. by rewrite Hx, Hy.
Qed.

(** *** Citations *)

(** The citations of a document are its links except those from the navigation of a
    group; each comes with the publication that cites, provided that no document cites
    in two versions. *)
Theorem publication_getCitations_spec documentId links pubs :
  otruthy documentId = true → listCitations d documentId = Ok links →
  Forall2 (λ l p, getPublication d (source_doc l) (hl_source l ≫= le_version) = Ok p ∧
                  pub_doc p = source_doc l) links pubs →
  (∀ i j l l', links !! i = Some l → links !! j = Some l' → source_doc l = source_doc l' →
     hl_source l ≫= le_version = hl_source l' ≫= le_version) →
  publication_getCitations d documentId =
  Ok (List.filter shown_citation (zip links (Some <$> pubs))).
Proof.
  intros Hd Hl Hp Huniq. unfold publication_getCitations. rewrite Hd. cbn [negb]. rewrite Hl. cbn [rbind].
  assert (map_result (λ l, getPublication d (source_doc l) (hl_source l ≫= le_version)) links = Ok pubs) as ->.
  { apply map_result_ok. eapply Forall2_impl; [exact Hp|]. by intros ?? []. }
  cbn [rbind]. do 2 f_equal. apply list_eq. intros i. rewrite list_lookup_fmap, lookup_zip_with.
  destruct (links !! i) as [l|] eqn:El; [|done]. cbn.
  destruct (Forall2_lookup_l _ _ _ _ _ Hp El) as (p & Ep & Hg & Hdoc).
  rewrite list_lookup_fmap, Ep. cbn. do 2 f_equal. unfold find_source.
  destruct (List.find _ pubs) as [q|] eqn:Ef.
  - apply List.find_some in Ef as [Hin Hq]. apply bool_decide_eq_true in Hq.
    apply list_elem_of_In, list_elem_of_lookup in Hin as [j Ej].
    destruct (Forall2_lookup_r _ _ _ _ _ Hp Ej) as (l' & El' & Hg' & Hdoc').
    assert (hl_source l ≫= le_version = hl_source l' ≫= le_version) as Hv by (eapply Huniq; eauto; congruence).
    rewrite Hdoc' in Hq. rewrite <- Hv, Hq, Hg in Hg'. by apply Ok_inj in Hg' as ->.
  - eapply List.find_none in Ef; [|apply list_elem_of_In, list_elem_of_lookup; by exists i].
    by apply bool_decide_eq_false in Ef.
Qed.
End loads.
End served.

(** ** Accounts *)

Section accounts.
Context `{UrlApi} {S A : Type}.
Context (getAccount : string → call S A).
Context (discoverEntity : string → option string → call S unit).

(** An account that the daemon has is returned.  Any failure whose message has one
    of the letters of [not_found] (the pattern is read as a class of characters, so
    nearly every message does) makes the site look for the account in the network, and
    ask once more if it was found; the query answers in every case. *)
Theorem account_get_spec id s s1 :
  id ≠ "" → createHmId "a" id no_opts = Ok ("hm://a/" +:+ id) →
  (∀ a, getAccount id s = (s1, Ok a) →
     account_get getAccount discoverEntity (Some id) s = (s1, Ok (Some a))) ∧
  (∀ m, getAccount id s = (s1, Err m) → matches_not_found m = false →
     account_get getAccount discoverEntity (Some id) s = (s1, Ok None)) ∧
  (∀ m s2 e, getAccount id s = (s1, Err m) → matches_not_found m = true →
     discoverEntity ("hm://a/" +:+ id) None s1 = (s2, Err e) →
     account_get getAccount discoverEntity (Some id) s = (s2, Ok None)) ∧
  (∀ m s2, getAccount id s = (s1, Err m) → matches_not_found m = true →
     discoverEntity ("hm://a/" +:+ id) None s1 = (s2, Ok tt) →
     account_get getAccount discoverEntity (Some id) s =
       ((getAccount id s2).1, Ok (match (getAccount id s2).2 with Ok a => Some a | Err _ => None end))).
Proof.
  intros Hid Hc. unfold account_get. rewrite otruthy_Some by done. cbn [negb].
  change (default "" (Some id)) with id. split_and!.
  - intros a E. unfold c_catch at 1, c_bind at 1. by rewrite E.
  - intros m E Hm. unfold c_catch at 1, c_bind at 1. rewrite E, Hm. done.
  - intros m s2 e E Hm Hd. unfold c_catch at 1, c_bind at 1. rewrite E, Hm, Hc.
    unfold c_bind, c_catch, c_lift, c_ret. rewrite Hd. done.
  - intros m s2 E Hm Hd. unfold c_catch at 1, c_bind at 1. rewrite E, Hm, Hc.
    unfold c_bind, c_catch, c_lift, c_ret. rewrite Hd. by destruct (getAccount id s2) as [s3 [a|m']].
Qed.
End accounts.

(** ** Examples *)

Definition site_doc (id title time : string) : HMDocument :=
  {| d_title := Some title; d_id := Some id; d_author := None; d_editors := []; d_children := None;
     d_createTime := None; d_updateTime := Some time; d_publishTime := None; d_version := None;
     d_previousVersion := None |}.
Definition site_publication (id title time version : string) : HMPublication :=
  {| p_document := Some (site_doc id title time); p_version := Some version |}.
Definition old_pub : HMPublication := site_publication "hm://d/abc" "Old" "1" "v1".
Definition new_pub : HMPublication := site_publication "hm://d/def" "New" "2" "v2".
Definition nav_pub : HMPublication := site_publication "hm://d/nav" HIDDEN_NAVIGATION "3" "v3".
Definition site_daemon : SiteDaemon := {|
  getPublication id v :=
    if bool_decide (id = Some "hm://d/abc") then Ok old_pub
    else if bool_decide (id = Some "hm://d/def") then Ok new_pub
    else if bool_decide (id = Some "hm://d/nav") then Ok nav_pub
    else Err "not found";
  getGroup id v := Ok {| hg_id := id; hg_title := None; hg_version := Some "gv" |};
  listGroupContent id v := Ok [("/", "hm://d/abc?v=v1"); ("news", "hm://d/def?v=v2")];
  listGroupMembers id := Ok None;
  listCitations id := Ok [];
  getSiteInfo := Ok "hm://g/site";
  getDaemonInfo := Ok "device";
  getPeerInfo dev := Ok ["addr"];
  siteVariantApi := {| listDocumentGroups := λ _, Ok []; getEntityTimeline := λ _, Ok [];
                       variant_publication := λ _ _, Err "no" |};
|}.
Definition ms_of (s : string) : Z := from_option Z.of_N 0%Z (digits_value s).
Definition site_items : list Item :=
  [{| it_path := "/"; it_eid := "abc"; it_version := "v1"; it_pub := old_pub |};
   {| it_path := "news"; it_eid := "def"; it_version := "v2"; it_pub := new_pub |}].

Lemma group_listContent_spec_witness :
  ∃ l, group_listContent site_daemon ms_of "hm://g/site" None = Ok l ∧
       item_of <$> l ≡ₚ Some <$> site_items.
Proof.
  destruct (group_listContent_spec site_daemon ms_of "hm://g/site" None
    [("/", "hm://d/abc?v=v1"); ("news", "hm://d/def?v=v2")] site_items) as (l & E & Hl & _).
  - reflexivity.
  - repeat constructor; vm_compute; done.
  - repeat constructor; vm_compute; done.
  - exists l. split; [exact E|exact Hl].
Defined.

Definition site_opts : HmIdOpts :=
  {| o_version := Some "v1.v2"; o_blockRef := None; o_blockRange := None; o_groupPathName := None;
     o_variants := Some [GroupVariant "hm://g/site" (Some "news"); AuthorVariant (Some "z6M")];
     o_latest := Some true; o_hostname := None |}.
Lemma document_url_is_served_witness :
  ∃ entries path b, buildQuery (o_version site_opts) (o_variants site_opts) (o_latest site_opts) = Ok entries ∧
    middleware "/d/abc" (params_of entries) = Rewrite path ∧
    page_of path = DocumentPage "abc" (Some "v1.v2") b ∧
    rmap vr_variants (doc_request (Some "abc") (Some "v1.v2") b) = Ok (o_variants site_opts).
Proof.
  destruct (buildQuery (o_version site_opts) (o_variants site_opts) (o_latest site_opts)) as [entries|m] eqn:E;
    [|vm_compute in E; discriminate].
  destruct (document_url_is_served "abc" site_opts entries) as (path & b & Hm & Hp & Hr).
  - reflexivity.
  - split; [reflexivity|]. split; [split; [reflexivity|discriminate]|]. split; [exact I|].
    intros vs [= <-]. split; [discriminate|]. repeat constructor.
    exists "site". split; reflexivity.
  - exact E.
  - exists entries, path, b. split; [reflexivity|]. split; [exact Hm|]. split; [exact Hp|].
    change (Some "abc") with (Some "abc") in Hr. cbn [o_version site_opts] in Hr. rewrite Hr. reflexivity.
Defined.

Lemma front_page_is_not_prefetched_witness :
  getGroupDocStaticProps site_daemon ms_of (λ _ _, 0%Z) true None (Some "-") (Some "gv") = Ok 10%Z.
Proof.
  destruct (prefetchGroup site_daemon ms_of (λ _ _, 0%Z) "hm://g/site" (Some "gv")) as [[g|]|] eqn:E;
    try (vm_compute in E; discriminate).
  apply (front_page_is_not_prefetched site_daemon ms_of (λ _ _, 0%Z) true None (Some "-") (Some "gv")
    {| si_groupEid := "site"; si_groupId := "hm://g/site"; si_version := ""; si_p2pAddresses := ["addr"] |}
    g "hm://g/site").
  - right. reflexivity.
  - reflexivity.
  - reflexivity.
  - exact E.
  - vm_compute in E. injection E as <-. vm_compute. reflexivity.
Defined.

Definition cite_link (id v : string) : HMLink :=
  {| hl_target := None; hl_source := Some {| le_documentId := Some id; le_version := Some v |} |}.
Definition citing_daemon : SiteDaemon := {|
  getPublication := getPublication site_daemon; getGroup := getGroup site_daemon;
  listGroupContent := listGroupContent site_daemon; listGroupMembers := listGroupMembers site_daemon;
  listCitations id := Ok [cite_link "hm://d/abc" "v1"; cite_link "hm://d/nav" "v3"];
  getSiteInfo := getSiteInfo site_daemon; getDaemonInfo := getDaemonInfo site_daemon;
  getPeerInfo := getPeerInfo site_daemon; siteVariantApi := siteVariantApi site_daemon;
|}.
Lemma publication_getCitations_spec_witness :
  publication_getCitations citing_daemon (Some "hm://d/def") =
  Ok [(cite_link "hm://d/abc" "v1", Some old_pub)].
Proof.
  rewrite (publication_getCitations_spec citing_daemon (Some "hm://d/def")
    [cite_link "hm://d/abc" "v1"; cite_link "hm://d/nav" "v3"] [old_pub; nav_pub]).
  - reflexivity.
  - reflexivity.
  - reflexivity.
  - repeat constructor.
  - intros [|[|i]] [|[|j]] l l' E E' H; vm_compute in E, E'; try discriminate;
      injection E as <-; injection E' as <-; try reflexivity; vm_compute in H; discriminate.
Defined.

Lemma account_get_spec_witness :
  account_get (λ id s, if bool_decide (id ∈ s) then (s, Ok id) else (s, Err "no such account"))
    (λ id v s, ("z6M" :: s, Ok tt)) (Some "z6M") [] = (["z6M"], Ok (Some "z6M")).
Proof.
  destruct (account_get_spec (λ id s, if bool_decide (id ∈ s) then (s, Ok id) else (s, Err "no such account"))
    (λ id v s, ("z6M" :: s, Ok tt)) "z6M" [] []) as (_ & _ & _ & H).
  - discriminate.
  - reflexivity.
  - rewrite (H "no such account" ["z6M"]); reflexivity.
Defined.
