(* ===== verification/WebImport.v ===== *)
(** * Importing a web page as a document

    [packages/app/models/web-importer.ts]: the body of a captured page becomes blocks,
    the blocks become the changes of a new draft, and the draft is published.  The
    browser's parser is a library; what the code reads of its result is [Dom]. *)
From S2P Require Import Prelude.
From S2P Require Import JsString.
From S2P Require Import JsObject.
From S2P Require Import BlockTypes.
From S2P Require Import DraftDiff.
From S2P Require Import DaemonApi.
From S2P Require Import DocModel.
From S2P Require Import DraftDiffFacts.
From S2P Require Import DraftSave.
From S2P Require Import GroupsFacts.
From S2P Require Import GroupNavFacts.
From S2P Require Import DaemonModel.

(** ** The page *)

(** A [ChildNode]: an element with its [nodeName] in upper case, a text, or a comment. *)
Inductive DomNode : Type :=
| DomElement (nodeName : string) (childNodes : list DomNode)
| DomText (data : string)
| DomComment (data : string).

(** What is read of [parser.parseFromString(html, 'text/html')]: the children of the
    first [body], if any, and the [textContent] of the first [title] of the head. *)
Record Dom : Type := { dom_body : option (list DomNode); dom_title : option string }.

(** [node.textContent]: an element's comments do not count. *)
Fixpoint textContent (n : DomNode) : string :=
  match n with
  | DomElement _ kids =>
      (fix go (l : list DomNode) : string :=
         match l with
         | [] => ""
         | DomComment _ :: l' => go l'
         | x :: l' => textContent x +:+ go l'
         end) kids
  | DomText s => s
  | DomComment s => s
  end.

(** [textContent && !textContent?.match(..)], the pattern being only white space. *)
Definition has_text (s : string) : bool := truthy s && negb (str_all is_space s).

(** ** Extracting blocks *)

Definition mem_name (name : string) (l : list string) : bool := bool_decide (name ∈ l).

(** [createBlockID()], given the number drawn (0 to 100000). *)
Definition import_block_id (drawn : N) : string := num_to_str drawn.

(** A new [BlockNode] with a text; the fields that are not given have the defaults of
    the message. *)
Definition text_node (id type text : string) (attributes : obj string)
    (children : list HMBlockNode) : HMBlockNode :=
  BlockNode
    (Some {| b_id := id; b_type := type; b_text := Some text; b_ref := Some "";
             b_annotations := Some []; b_attributes := Some attributes |})
    (Some children).

Section extract.
(** The numbers that [Math.random] yields, one after another. *)
Variable draws : nat → N.

(** One node, given how many numbers were drawn before it; the new count is returned. *)
Fixpoint extract_node (k : nat) (n : DomNode) : list HMBlockNode * nat :=
  let many :=
    fix go (k : nat) (l : list DomNode) : list HMBlockNode * nat :=
      match l with
      | [] => ([], k)
      | x :: l' =>
          let r := extract_node k x in
          let rs := go r.2 l' in
          (r.1 ++ rs.1, rs.2)
      end in
  match n with
  | DomText s =>
      if has_text s
      then ([text_node (import_block_id (draws k)) "paragraph" s [] []], S k)
      else ([], k)
  | DomComment _ => ([], k)
  | DomElement nodeName childNodes =>
      if mem_name nodeName ["ARTICLE"; "DIV"; "MAIN"] then many k childNodes
      else if mem_name nodeName ["P"; "LI"] && has_text (textContent n) then
        ([text_node (import_block_id (draws k)) "paragraph" (textContent n) [] []], S k)
      else if mem_name nodeName ["H1"; "H2"; "H3"; "H4"; "H5"; "H6"; "H7"]
              && has_text (textContent n) then
        ([text_node (import_block_id (draws k)) "heading" (textContent n) [] []], S k)
      else if String.eqb nodeName "UL" then
        let r := many (S k) childNodes in
        ([text_node (import_block_id (draws k)) "paragraph" "" [("childrenType", "ul")] r.1], r.2)
      else ([], k)
  end.

(** [extractBlockNodes(htmlNodes)] *)
Fixpoint extract_nodes (k : nat) (l : list DomNode) : list HMBlockNode * nat :=
  match l with
  | [] => ([], k)
  | x :: l' =>
      let r := extract_node k x in
      let rs := extract_nodes r.2 l' in
      (r.1 ++ rs.1, rs.2)
  end.
Definition extractBlockNodes (htmlNodes : list DomNode) : list HMBlockNode :=
  (extract_nodes 0 htmlNodes).1.
End extract.

(** ** The changes *)

(** The operations of one block among its siblings; [undefined] is sent as an empty
    left sibling. *)
Definition node_ops (parentId : string) (prev : option HMBlockNode) (n : HMBlockNode) :
    list DocumentChange :=
  match node_block n with
  | None => []
  | Some b => [MoveBlock (b_id b) (prev_node_id prev) parentId; ReplaceBlock b]
  end.

(** What a block pushes to [childrenOps]. *)
Fixpoint children_ops (n : HMBlockNode) : list DocumentChange :=
  match n with
  | BlockNode (Some b) (Some kids) =>
      flat_prev (node_ops (b_id b)) None kids ++ concat (children_ops <$> kids)
  | _ => []
  end.

Definition produceBodyOperations (parentId : string) (blockNodes : list HMBlockNode) :
    list DocumentChange :=
  flat_prev (node_ops parentId) None blockNodes ++ concat (children_ops <$> blockNodes).

Definition import_changes (title : option string) (blockNodes : list HMBlockNode) :
    list DocumentChange :=
  produceBodyOperations "" blockNodes
  ++ (if otruthy title then [SetTitle (default "" title)] else []).

(** ** The import *)

Definition no_body : string := "Could not extract the body element for this web page".

Definition importWebCapture {S : Type} `{D : Daemon S} (draws : nat → N) (dom : Dom) : call S HMPublication :=
  match dom_body dom with
  | None => c_throw no_body
  | Some childNodes =>
      await* draft := createDraft None None in
      let docChanges := import_changes (dom_title dom) (extractBlockNodes draws childNodes) in
      await* _ := sendUpdate (default "" (d_id draft)) docChanges in
      await* published := publishDraft (default "" (d_id draft)) in
      c_ret published
  end.

(** * Correctness of the import of a web page

    The operations list each block after its parent and its left sibling, so the
    published document shows the extracted blocks, as long as no number is drawn
    twice. *)

(** ** Trees and their ids *)

Definition tree_kids (t : BlockTree) : list BlockTree := match t with Node _ kids => kids end.
Definition tree_block (t : BlockTree) : HMBlock := match t with Node b _ => b end.

Fixpoint tree_ids (t : BlockTree) : list string :=
  match t with Node b kids => b_id b :: concat (tree_ids <$> kids) end.
Definition below_ids (t : BlockTree) : list string := concat (tree_ids <$> tree_kids t).
Definition forest_ids (ts : list BlockTree) : list string := concat (tree_ids <$> ts).

Lemma tree_ids_eq t : tree_ids t = root_id t :: below_ids t.
Proof. by destruct t. Qed.
Lemma forest_ids_cons t ts : forest_ids (t :: ts) = root_id t :: below_ids t ++ forest_ids ts.
Proof. unfold forest_ids. cbn [fmap list_fmap concat]. by rewrite tree_ids_eq. Qed.

(** The places of siblings, without those below. *)
Definition level_places (parent : string) (prev : option BlockTree) (ts : list BlockTree) :
    list Place :=
  flat_prev (λ prev t, [{| pl_block := tree_block t; pl_parent := parent;
                           pl_left := prev_root prev |}]) prev ts.
Fixpoint below_places (t : BlockTree) : list Place :=
  match t with Node b kids => level_places (b_id b) None kids ++ concat (below_places <$> kids) end.
Definition level_order (ts : list BlockTree) : list Place :=
  level_places "" None ts ++ concat (below_places <$> ts).

(** *** The operations list the places *)

Lemma node_ops_places (parent : string) prev t :
  node_ops parent (to_node <$> prev) (to_node t) =
  places_changes false (entries [])
    [{| pl_block := tree_block t; pl_parent := parent; pl_left := prev_root prev |}].
Proof. destruct t as [b kids]. unfold places_changes. cbn. by rewrite prev_node_root. Qed.

Lemma level_ops_places parent prev ts :
  flat_prev (node_ops parent) (to_node <$> prev) (to_node <$> ts) =
  places_changes false (entries []) (level_places parent prev ts).
Proof.
  unfold level_places. revert prev. induction ts as [|t ts IH]; intros prev; [done|].
  cbn [fmap list_fmap flat_prev]. rewrite places_changes_app, node_ops_places.
  f_equal. exact (IH (Some t)).
Qed.

Lemma children_ops_places t :
  children_ops (to_node t) = places_changes false (entries []) (below_places t).
Proof.
  induction t as [b kids IH] using block_tree_ind. cbn [to_node children_ops below_places].
  rewrite places_changes_app. f_equal; [exact (level_ops_places (b_id b) None kids)|].
  induction IH as [|k kids Hk _ IHk]; [done|]. cbn [fmap list_fmap concat].
  by rewrite places_changes_app, Hk, IHk.
Qed.

Lemma produceBodyOperations_places ts :
  produceBodyOperations "" (to_node <$> ts) =
  places_changes false (entries []) (level_order ts).
Proof.
  unfold produceBodyOperations, level_order. rewrite places_changes_app.
  f_equal; [exact (level_ops_places "" None ts)|].
  induction ts as [|t ts IH]; [done|]. cbn [fmap list_fmap concat].
  by rewrite places_changes_app, children_ops_places, IH.
Qed.

(** ** Where the places are *)

Lemma level_ids parent prev ts : pl_id <$> level_places parent prev ts = root_id <$> ts.
Proof.
  unfold level_places. revert prev. induction ts as [|t ts IH]; intros prev; [done|].
  cbn [flat_prev app fmap list_fmap]. rewrite IH. by destruct t.
Qed.
Lemma level_parents parent prev ts pl : pl ∈ level_places parent prev ts → pl_parent pl = parent.
Proof.
  unfold level_places. revert prev. induction ts as [|t ts IH]; intros prev; [by intros ?%elem_of_nil|].
  cbn [flat_prev app]. intros [->|Hin]%elem_of_cons; [done | by eapply IH].
Qed.
Lemma level_children parent prev ts :
  placed_children (level_places parent prev ts) parent = root_id <$> ts.
Proof.
  rewrite <- (level_ids parent prev). unfold placed_children. f_equal. apply filter_all.
  intros pl Hpl. by rewrite (level_parents _ _ _ _ Hpl), String.eqb_refl.
Qed.
Lemma level_not_children parent prev ts p :
  p ≠ parent → placed_children (level_places parent prev ts) p = [].
Proof. intros Hp. apply placed_children_none. intros pl Hpl%level_parents. congruence. Qed.

Lemma elem_of_forest_ids ts x : x ∈ forest_ids ts ↔ ∃ t, t ∈ ts ∧ x ∈ tree_ids t.
Proof.
  unfold forest_ids. rewrite list_elem_of_In, in_concat. setoid_rewrite <- list_elem_of_In.
  setoid_rewrite list_elem_of_fmap. naive_solver.
Qed.
Lemma elem_of_all_below ts pl : pl ∈ concat (below_places <$> ts) ↔ ∃ t, t ∈ ts ∧ pl ∈ below_places t.
Proof.
  rewrite list_elem_of_In, in_concat. setoid_rewrite <- list_elem_of_In.
  setoid_rewrite list_elem_of_fmap. naive_solver.
Qed.
Lemma root_in_ids t : root_id t ∈ tree_ids t.
Proof. destruct t. left. Qed.

Lemma below_places_ids t pl :
  pl ∈ below_places t → pl_id pl ∈ below_ids t ∧ pl_parent pl ∈ tree_ids t.
Proof.
  induction t as [b kids IH] using block_tree_ind. cbn [below_places]. intros [Hin|Hin]%elem_of_app.
  - split; [|rewrite (level_parents _ _ _ _ Hin); left].
    assert (pl_id pl ∈ root_id <$> kids) as (k & -> & Hk)%list_elem_of_fmap.
    { rewrite <- (level_ids (b_id b) None). by apply list_elem_of_fmap_2. }
    apply elem_of_forest_ids. exists k. split; [done | apply root_in_ids].
  - apply elem_of_all_below in Hin as (k & Hk & Hin).
    destruct (proj1 (Forall_forall _ _) IH k Hk Hin) as [Hid Hp]. split.
    + apply elem_of_forest_ids. exists k. split; [done|]. rewrite tree_ids_eq. by right.
    + right. apply elem_of_forest_ids. by exists k.
Qed.

(** A place of a tree is not under an id outside of the tree. *)
Lemma below_not_children t x : x ∉ tree_ids t → placed_children (below_places t) x = [].
Proof. intros Hx. apply placed_children_none. intros pl [_ Hpl]%below_places_ids. congruence. Qed.

(** *** The order is well formed *)

Lemma wf_level parent q ts pre :
  good_ids (root_id <$> ts) → (∀ t, t ∈ ts → root_id t ∉ (pl_id <$> pre)) →
  (parent = "" ∨ parent ∈ (pl_id <$> pre)) → prev_root q = last_or (placed_children pre parent) →
  wf_from pre (level_places parent q ts).
Proof.
  unfold level_places. revert q pre. induction ts as [|t ts IH]; intros q pre Hg Hpre Hp Hq; [done|].
  cbn [flat_prev app wf_from fmap list_fmap] in *.
  destruct Hg as ([Ht Hn]%NoDup_cons & [He1 He2]%not_elem_of_cons & [Ht1 Ht2]%not_elem_of_cons).
  assert (b_id (tree_block t) = root_id t) as Hid by by destruct t.
  unfold pl_id at 1 2 3. cbn [pl_block pl_parent pl_left]. rewrite Hid. split.
  - repeat split; [by apply not_eq_sym|by apply not_eq_sym|apply Hpre; left|done|done].
  - apply IH; [by repeat split| | |].
    + intros k Hk. rewrite fmap_app, not_elem_of_app. split; [apply Hpre; by right|].
      cbn. rewrite list_elem_of_singleton. unfold pl_id. cbn. rewrite Hid. intros Heq.
      apply Ht. rewrite <- Heq. by apply list_elem_of_fmap_2.
    + rewrite fmap_app, elem_of_app. tauto.
    + rewrite placed_children_app. unfold placed_children at 2. cbn [List.filter pl_parent].
      rewrite String.eqb_refl. cbn. unfold last_or. rewrite List.last_last. unfold pl_id. cbn. by rewrite Hid.
Qed.

(** The ids of a forest whose roots are already placed, but nothing below them. *)
Record roots_placed (ts : list BlockTree) (pre : list Place) : Prop := {
  rp_ids : good_ids (forest_ids ts);
  rp_roots t : t ∈ ts → root_id t ∈ (pl_id <$> pre);
  rp_below t x : t ∈ ts → x ∈ below_ids t → x ∉ (pl_id <$> pre);
  rp_none x : x ∈ forest_ids ts → placed_children pre x = [];
}.

Lemma roots_placed_rest t ts pre :
  roots_placed (t :: ts) pre → roots_placed ts (pre ++ below_places t).
Proof.
  intros [Hg Hr Hb Hn]. rewrite forest_ids_cons in *. change (root_id t :: below_ids t ++ forest_ids ts)
    with ((root_id t :: below_ids t) ++ forest_ids ts) in *. rewrite <- tree_ids_eq in *.
  apply good_ids_app in Hg as (_ & Hg & Hd). split.
  - done.
  - intros k Hk. rewrite fmap_app. apply elem_of_app. left. apply Hr. by right.
  - intros k x Hk Hx. rewrite fmap_app, not_elem_of_app. split; [apply (Hb k); [by right|done]|].
    intros (pl & -> & Hpl)%list_elem_of_fmap. apply below_places_ids in Hpl as [Hpl _].
    apply (Hd (pl_id pl)).
    + rewrite tree_ids_eq. by right.
    + apply elem_of_forest_ids. exists k. rewrite tree_ids_eq. split; [done | by right].
  - intros x Hx. rewrite placed_children_app, Hn by (apply elem_of_app; by right).
    apply below_not_children. intros Hin. by apply (Hd x).
Qed.

Lemma root_in_forest ts t : t ∈ ts → root_id t ∈ forest_ids ts.
Proof. intros Ht. apply elem_of_forest_ids. exists t. split; [done | apply root_in_ids]. Qed.
Lemma below_in_forest ts t x : t ∈ ts → x ∈ below_ids t → x ∈ forest_ids ts.
Proof. intros Ht Hx. apply elem_of_forest_ids. exists t. rewrite tree_ids_eq. split; [done | by right]. Qed.

Lemma roots_NoDup ts : NoDup (forest_ids ts) → NoDup (root_id <$> ts).
Proof.
  induction ts as [|t ts IH]; [constructor|]. rewrite forest_ids_cons.
  intros [Ht Hnd]%NoDup_cons. apply NoDup_app in Hnd as (_ & _ & Hnd). cbn.
  constructor; [|by apply IH]. intros (j & Heq & Hj)%list_elem_of_fmap. apply Ht, elem_of_app. right.
  rewrite Heq. by apply root_in_forest.
Qed.
Lemma root_not_below ts t x :
  NoDup (forest_ids ts) → t ∈ ts → x ∈ below_ids t → x ∉ (root_id <$> ts).
Proof.
  intros Hnd Ht Hx (j & -> & Hj)%list_elem_of_fmap. induction ts as [|k ts IH]; [by apply elem_of_nil in Ht|].
  rewrite forest_ids_cons in Hnd. apply NoDup_cons in Hnd as [Hk Hnd].
  apply NoDup_app in Hnd as (_ & Hd & Hnd).
  apply elem_of_cons in Ht as [->|Ht], Hj as [->|Hj].
  - apply Hk, elem_of_app. by left.
  - apply (Hd _ Hx). by apply root_in_forest.
  - apply Hk, elem_of_app. right. by apply (below_in_forest ts t).
  - by apply IH.
Qed.

(** New siblings with everything below them: their places are well formed, and what is
    below them can follow. *)
Lemma level_placed parent ts pre :
  good_ids (forest_ids ts) →
  (∀ x, x ∈ forest_ids ts → x ∉ (pl_id <$> pre) ∧ x ≠ parent ∧ placed_children pre x = []) →
  (parent = "" ∨ parent ∈ (pl_id <$> pre)) → placed_children pre parent = [] →
  wf_from pre (level_places parent None ts) ∧ roots_placed ts (pre ++ level_places parent None ts).
Proof.
  intros Hg Hx Hp Hpn. pose proof Hg as (Hnd & He & Ht). split; [apply wf_level|split].
  - split; [by apply roots_NoDup|]. split; intros (k & Heq & Hk)%list_elem_of_fmap; [apply He|apply Ht];
      rewrite Heq; by apply root_in_forest.
  - intros k Hk. by apply Hx, root_in_forest.
  - done.
  - by rewrite Hpn.
  - done.
  - intros k Hk. rewrite fmap_app, level_ids. apply elem_of_app. right. by apply list_elem_of_fmap_2.
  - intros k x Hk Hin. rewrite fmap_app, level_ids, not_elem_of_app. split.
    + by apply Hx, (below_in_forest ts k).
    + by apply (root_not_below ts k).
  - intros x Hin. destruct (Hx x Hin) as (_ & Hne & Hno).
    rewrite placed_children_app, Hno. by apply level_not_children.
Qed.

Lemma roots_placed_kids b kids ts pre :
  roots_placed (Node b kids :: ts) pre →
  wf_from pre (level_places (b_id b) None kids) ∧
  roots_placed kids (pre ++ level_places (b_id b) None kids).
Proof.
  intros [Hg Hr Hb Hn]. rewrite forest_ids_cons in *.
  change (root_id (Node b kids)) with (b_id b) in *.
  change (below_ids (Node b kids)) with (forest_ids kids) in *.
  change (b_id b :: forest_ids kids ++ forest_ids ts)
    with ((b_id b :: forest_ids kids) ++ forest_ids ts) in Hg.
  apply good_ids_app in Hg as (([Hbk Hnd]%NoDup_cons & [_ He]%not_elem_of_cons & [_ Ht]%not_elem_of_cons) & _ & _).
  apply level_placed; [done| | |].
  - intros x Hx. split; [apply (Hb (Node b kids)); [left | exact Hx]|]. split; [congruence|].
    apply Hn. right. apply elem_of_app. by left.
  - right. apply (Hr (Node b kids)). left.
  - apply Hn. left.
Qed.

Lemma wf_below t : ∀ ts pre, roots_placed (t :: ts) pre → wf_from pre (below_places t).
Proof.
  induction t as [b kids IH] using block_tree_ind. intros ts pre Hp. cbn [below_places].
  destruct (roots_placed_kids _ _ _ _ Hp) as [Hw Hk]. apply wf_from_app. split; [done|].
  clear Hp Hw ts. revert Hk. generalize (pre ++ level_places (b_id b) None kids) as pre'.
  induction IH as [|k kids Hkid _ IHk]; intros pre' Hk; [done|]. cbn [fmap list_fmap concat].
  apply wf_from_app. split; [by apply (Hkid kids)|]. by apply IHk, roots_placed_rest.
Qed.

Lemma wf_level_order ts : good_ids (forest_ids ts) → wf_from [] (level_order ts).
Proof.
  intros Hg. unfold level_order. apply wf_from_app. cbn [app].
  destruct (level_placed "" ts []) as [Hw Hp]; [done| |by left|done|].
  { intros x Hx. split; [by apply not_elem_of_nil|]. split; [|done]. intros ->. by apply (proj1 (proj2 Hg)). }
  split; [done|]. revert Hp. cbn [app]. generalize (level_places "" None ts) as pre. clear.
  induction ts as [|t ts IH]; intros pre Hp; [done|]. cbn [fmap list_fmap concat].
  apply wf_from_app. split; [by apply (wf_below t ts)|]. by apply IH, roots_placed_rest.
Qed.

(** *** The children of every block *)

Lemma below_children t : NoDup (tree_ids t) → placed_children (below_places t) (root_id t) = root_id <$> tree_kids t.
Proof.
  destruct t as [b kids]. cbn [tree_ids below_places root_id tree_kids]. intros [Hb _]%NoDup_cons.
  rewrite placed_children_app, level_children. rewrite (placed_children_none (concat _)); [apply app_nil_r|].
  intros pl (k & Hk & [_ Hpl]%below_places_ids)%elem_of_all_below Heq. apply Hb.
  apply elem_of_forest_ids. exists k. by rewrite <- Heq.
Qed.

(** Among disjoint trees, the places under an id of one are those of that tree. *)
Lemma all_below_children ts t x :
  NoDup (forest_ids ts) → t ∈ ts → x ∈ tree_ids t →
  placed_children (concat (below_places <$> ts)) x = placed_children (below_places t) x.
Proof.
  induction ts as [|k ts IH]; intros Hnd Ht Hx; [by apply elem_of_nil in Ht|].
  cbn [fmap list_fmap concat]. rewrite placed_children_app. unfold forest_ids in Hnd.
  cbn [fmap list_fmap concat] in Hnd. apply NoDup_app in Hnd as (Hk & Hd & Hnd).
  apply elem_of_cons in Ht as [->|Ht].
  - rewrite (placed_children_none (concat _)); [apply app_nil_r|].
    intros pl (j & Hj & [_ Hpl]%below_places_ids)%elem_of_all_below <-.
    apply (Hd _ Hx). apply elem_of_forest_ids. by exists j.
  - rewrite below_not_children; [by apply IH|].
    intros Hin. apply (Hd _ Hin). apply elem_of_forest_ids. by exists t.
Qed.

(** [part_of t u]: [u] is [t] or below it. *)
Inductive part_of (t : BlockTree) : BlockTree → Prop :=
| PartSelf : part_of t t
| PartKid k u : k ∈ tree_kids t → part_of k u → part_of t u.

Lemma part_ids t u : part_of t u → ∀ x, x ∈ tree_ids u → x ∈ tree_ids t.
Proof.
  induction 1 as [|t k u Hk _ IH]; [done|]. intros x Hx. rewrite tree_ids_eq. right.
  apply elem_of_forest_ids. exists k. auto.
Qed.
Lemma kid_NoDup ts k : NoDup (forest_ids ts) → k ∈ ts → NoDup (tree_ids k).
Proof.
  unfold forest_ids. induction ts as [|t ts IH]; [set_solver|]. cbn [fmap list_fmap concat].
  intros (Ht & _ & Hn)%NoDup_app [->|Hk]%elem_of_cons; [done | by apply IH].
Qed.

Lemma part_children t u :
  part_of t u → NoDup (tree_ids t) →
  placed_children (below_places t) (root_id u) = root_id <$> tree_kids u.
Proof.
  induction 1 as [t|t k u Hk Hu IH]; [apply below_children|]. intros Hn.
  destruct t as [b kids]. cbn [tree_kids] in Hk. cbn [tree_ids] in Hn.
  apply NoDup_cons in Hn as [Hb Hn]. cbn [below_places]. rewrite placed_children_app.
  pose proof (part_ids _ _ Hu _ (root_in_ids u)) as Hin.
  rewrite level_not_children.
  - cbn [app]. rewrite (all_below_children kids k) by done. apply IH. by apply (kid_NoDup kids).
  - intros Heq. apply Hb. rewrite <- Heq. apply elem_of_forest_ids. by exists k.
Qed.

Lemma level_order_children ts t u :
  good_ids (forest_ids ts) → t ∈ ts → part_of t u →
  placed_children (level_order ts) (root_id u) = root_id <$> tree_kids u.
Proof.
  intros (Hn & He & _) Ht Hu. unfold level_order. rewrite placed_children_app.
  pose proof (part_ids _ _ Hu _ (root_in_ids u)) as Hin. rewrite level_not_children.
  - cbn [app]. rewrite (all_below_children ts t) by done.
    apply part_children; [done|]. by apply (kid_NoDup ts).
  - intros Heq. apply He. rewrite <- Heq. apply elem_of_forest_ids. by exists t.
Qed.
Lemma level_order_roots ts :
  good_ids (forest_ids ts) → placed_children (level_order ts) "" = root_id <$> ts.
Proof.
  intros (_ & He & _). unfold level_order. rewrite placed_children_app, level_children.
  rewrite (placed_children_none (concat _)); [apply app_nil_r|].
  intros pl (k & Hk & [_ Hpl]%below_places_ids)%elem_of_all_below Heq. apply He.
  apply elem_of_forest_ids. exists k. by rewrite <- Heq.
Qed.

(** Every block of the forest has a place. *)
Lemma part_placed ts t u :
  t ∈ ts → part_of t u → ∃ pl, pl ∈ level_order ts ∧ pl_block pl = tree_block u.
Proof.
  assert (∀ parent q l k, k ∈ l → ∃ pl, pl ∈ level_places parent q l ∧ pl_block pl = tree_block k) as Hl.
  { intros parent q l k. unfold level_places. revert q. induction l as [|j l IH]; intros q; [set_solver|].
    cbn [flat_prev app]. intros [->|Hk]%elem_of_cons; [by eexists; split; [left|]|].
    destruct (IH (Some j) Hk) as (pl & Hpl & Heq). exists pl. split; [by right | done]. }
  assert (∀ t u, part_of t u → t = u ∨ ∃ pl, pl ∈ below_places t ∧ pl_block pl = tree_block u) as Hb.
  { clear ts t u. induction 1 as [|t k u Hk Hu IH]; [by left|]. right. destruct t as [b kids].
    cbn [below_places tree_kids] in *. setoid_rewrite elem_of_app. destruct IH as [->|(pl & Hpl & Heq)].
    - destruct (Hl (b_id b) None kids u Hk) as (pl & ? & ?). eauto.
    - exists pl. split; [|done]. right. apply elem_of_all_below. eauto. }
  intros Ht Hu. unfold level_order. setoid_rewrite elem_of_app. destruct (Hb t u Hu) as [->|(pl & Hpl & Heq)].
  - destruct (Hl "" None ts u Ht) as (pl & ? & ?). eauto.
  - exists pl. split; [|done]. right. apply elem_of_all_below. eauto.
Qed.

(** ** What is extracted *)

Section dom_ind.
Variable P : DomNode → Prop.
Hypothesis Helem : ∀ name kids, Forall P kids → P (DomElement name kids).
Hypothesis Htext : ∀ s, P (DomText s).
Hypothesis Hcomment : ∀ s, P (DomComment s).

Fixpoint dom_node_ind (n : DomNode) : P n :=
  match n with
  | DomElement name kids =>
      Helem name kids
        ((fix go (l : list DomNode) : Forall P l :=
            match l with
            | [] => list.Forall_nil_2 P
            | x :: l' => list.Forall_cons_2 P x l' (dom_node_ind x) (go l')
            end) kids)
  | DomText s => Htext s
  | DomComment s => Hcomment s
  end.
End dom_ind.

Section extract.
Variable draws : nat → N.

Definition drawn_ids (k k' : nat) : list string :=
  (λ i, import_block_id (draws i)) <$> seq k (k' - k).
Lemma drawn_ids_none k : drawn_ids k k = [].
Proof. unfold drawn_ids. by rewrite Nat.sub_diag. Qed.
Lemma drawn_ids_first k k' : k < k' → drawn_ids k k' = import_block_id (draws k) :: drawn_ids (S k) k'.
Proof. intros Hk. unfold drawn_ids. by replace (k' - k) with (S (k' - S k)) by lia. Qed.
Lemma drawn_ids_app k k1 k2 : k <= k1 → k1 <= k2 → drawn_ids k k2 = drawn_ids k k1 ++ drawn_ids k1 k2.
Proof.
  intros H1 H2. unfold drawn_ids. rewrite <- fmap_app. replace (k2 - k) with ((k1 - k) + (k2 - k1)) by lia.
  rewrite seq_app. by replace (k + (k1 - k)) with k1 by lia.
Qed.

(** The result is complete block trees, whose ids are the numbers drawn, in document
    order. *)
Definition extracted (k : nat) (r : list HMBlockNode * nat) : Prop :=
  k <= r.2 ∧ ∃ ts, r.1 = to_node <$> ts ∧ forest_ids ts = drawn_ids k r.2.

Lemma extracted_nothing k : extracted k ([], k).
Proof. split; [done|]. exists []. by rewrite drawn_ids_none. Qed.
Lemma extracted_node k r type text attributes :
  extracted (S k) r →
  extracted k ([text_node (import_block_id (draws k)) type text attributes r.1], r.2).
Proof.
  intros (Hle & ts & Hts & Hids). cbn [fst snd] in *. split; [cbn; lia|].
  exists [Node {| b_id := import_block_id (draws k); b_type := type; b_text := Some text; b_ref := Some "";
                  b_annotations := Some []; b_attributes := Some attributes |} ts].
  rewrite drawn_ids_first by (cbn; lia). cbn [fst snd]. rewrite <- Hids, Hts. split; [done|].
  unfold forest_ids. cbn. by rewrite app_nil_r.
Qed.
Lemma extracted_text k type text :
  extracted k ([text_node (import_block_id (draws k)) type text [] []], S k).
Proof. apply (extracted_node k ([], S k)), extracted_nothing. Qed.
Lemma extracted_more k r rs : extracted k r → extracted r.2 rs → extracted k (r.1 ++ rs.1, rs.2).
Proof.
  intros (H1 & ts & Hts & Hi) (H2 & us & Hus & Hj). split; [cbn; lia|]. exists (ts ++ us).
  cbn [fst snd]. rewrite (drawn_ids_app k r.2) by lia. unfold forest_ids in *.
  by rewrite !fmap_app, concat_app, Hts, Hus, Hi, Hj.
Qed.

Lemma extract_many_eq k l :
  (fix go (k : nat) (l : list DomNode) : list HMBlockNode * nat :=
     match l with
     | [] => ([], k)
     | x :: l' => let r := extract_node draws k x in let rs := go r.2 l' in (r.1 ++ rs.1, rs.2)
     end) k l = extract_nodes draws k l.
Proof. revert k. induction l as [|x l IH]; intros k; [done|]. cbn [extract_nodes]. by rewrite IH. Qed.

Lemma extract_node_ok n : ∀ k, extracted k (extract_node draws k n).
Proof.
  induction n as [name kids IH|s|s] using dom_node_ind; intros k.
  - assert (∀ k, extracted k (extract_nodes draws k kids)) as Hmany.
    { clear k. induction IH as [|x l Hx _ IHl]; intros k; [apply extracted_nothing|].
      cbn [extract_nodes]. apply extracted_more; [apply Hx | apply IHl]. }
    cbn [extract_node]. rewrite !extract_many_eq.
    destruct (mem_name _ _); [apply Hmany|]. destruct (_ && _); [apply extracted_text|].
    destruct (_ && _); [apply extracted_text|]. destruct (String.eqb name "UL").
    + by apply extracted_node.
    + apply extracted_nothing.
  - cbn [extract_node]. destruct (has_text s); [apply extracted_text | apply extracted_nothing].
  - apply extracted_nothing.
Qed.
Lemma extract_nodes_ok l : ∀ k, extracted k (extract_nodes draws k l).
Proof.
  induction l as [|x l IH]; intros k; [apply extracted_nothing|].
  cbn [extract_nodes]. apply extracted_more; [apply extract_node_ok | apply IH].
Qed.

(** Numbers drawn once make usable ids. *)
Lemma drawn_good n :
  (∀ i j, i < n → j < n → draws i = draws j → i = j) → good_ids (drawn_ids 0 n).
Proof.
  intros Hd. unfold drawn_ids. rewrite Nat.sub_0_r. split.
  - apply NoDup_fmap_2_strong; [|apply NoDup_seq]. intros i j Hi%elem_of_seq Hj%elem_of_seq Heq.
    apply Hd; [lia..|]. apply (f_equal digits_value) in Heq. unfold import_block_id in Heq.
    rewrite !digits_value_num_to_str in Heq. by injection Heq.
  - split; intros (i & Heq & _)%list_elem_of_fmap; pose proof (num_to_str_digits (draws i)) as Hn;
      unfold import_block_id in Heq; rewrite <- Heq in Hn.
    + by apply (num_to_str_ne (draws i)).
    + by vm_compute in Hn.
Qed.
End extract.

(** ** The changes applied to an empty draft *)

Definition blank_draft : ServerDoc := {| s_tree := []; s_blocks := []; s_title := "" |}.

(** Each new place replaces its block's content, and nothing else. *)
Lemma new_places_blocks pls d d' :
  NoDup (pl_id <$> pls) → apply_changes d (places_changes false (entries []) pls) = Ok d' →
  s_title d' = s_title d ∧
  (∀ id, id ∉ (pl_id <$> pls) → oget (s_blocks d') id = oget (s_blocks d) id) ∧
  (∀ pl, pl ∈ pls → oget (s_blocks d') (pl_id pl) = Some (pl_block pl)).
Proof.
  revert d. induction pls as [|x pls IH]; intros d Hn Ha.
  { injection Ha as <-. split; [done|]. split; [done|]. by intros pl ?%elem_of_nil. }
  apply NoDup_cons in Hn as [Hx Hn]. unfold apply_changes in Ha.
  change (places_changes false (entries []) (x :: pls)) with
    (MoveBlock (pl_id x) (pl_left x) (pl_parent x) :: ReplaceBlock (pl_block x)
     :: places_changes false (entries []) pls) in Ha.
  cbn [fold_result apply_change] in Ha.
  destruct (move _ _ _ _) as [t|]; [|done]. cbn [rbind] in Ha.
  destruct (truthy (b_id (pl_block x))); [|done]. cbn [rbind s_tree s_blocks s_title] in Ha.
  destruct (IH _ Hn Ha) as (Ht & Ho & Hin). cbn [s_blocks s_title] in *. split; [done|]. split.
  - intros id [Hi Hid]%not_elem_of_cons. rewrite Ho by done. rewrite oget_oset_ne; [done|]. by apply not_eq_sym.
  - intros pl [->|Hpl]%elem_of_cons; [|by apply Hin]. rewrite Ho by done. apply oget_oset_eq.
Qed.

(** No order is lost of an empty document. *)
Lemma blank_order pls : same_order [] pls.
Proof. intros p. cbn. symmetry. by induction (placed_children pls p). Qed.

(** The operations of a forest with usable ids make an empty draft show it. *)
Lemma body_applied ts :
  good_ids (forest_ids ts) →
  ∃ d, apply_changes blank_draft (produceBodyOperations "" (to_node <$> ts)) = Ok d ∧ s_title d = "" ∧
    shows d "" (to_node <$> ts).
Proof.
  intros Hg. rewrite produceBodyOperations_places. pose proof (wf_level_order ts Hg) as Hw.
  pose proof (wf_from_NoDup [] _ Hw NoDup_nil_2) as Hn. cbn [app] in Hn.
  destruct (places_applied [] NoDup_nil_2 false [] (level_order ts) blank_draft) as (d & Ha & _ & Hp & _).
  - done.
  - done.
  - split; [constructor|by intros pl ?%elem_of_nil|done|]. intros _ p. cbn [app]. cbn.
    symmetry. by induction (placed_children (level_order ts) p).
  - split; [by intros pl ?%elem_of_nil | done].
  - cbn [app] in Hp. destruct (new_places_blocks _ _ _ Hn Ha) as (Ht & _ & Hb).
    exists d. split; [exact Ha|]. split; [exact Ht|].
    assert (∀ p, children_in (s_tree d) p = placed_children (level_order ts) p) as Hc.
    { intros p. pose proof (pr_order _ _ _ _ Hp (blank_order _) p) as Ho. rewrite app_nil_r in Ho.
      cbn [placed_children List.filter fmap list_fmap] in Ho. rewrite app_nil_r in Ho. rewrite <- Ho.
      symmetry. apply filter_all. intros x Hx%elem_of_children_in; [|apply Hp].
      apply mem_true. destruct (decide (x ∈ (pl_id <$> level_order ts))) as [Hin|Hin].
      - apply list_elem_of_fmap in Hin as (pl & -> & Hpl).
        rewrite (pr_done _ _ _ _ Hp _ Hpl) in Hx. injection Hx as <-.
        apply elem_of_placed_children. eauto.
      - by rewrite (pr_rest _ _ _ _ Hp _ Hin) in Hx. }
    assert (∀ t u, t ∈ ts → part_of t u → shows d (root_id u) (to_node <$> tree_kids u)) as Hparts.
    { intros t u Ht' Hu. revert Hu. induction u as [b kids IH] using block_tree_ind. intros Hu.
      cbn [tree_kids]. constructor.
      - rewrite Hc, (level_order_children ts t _ Hg Ht' Hu), <- list_fmap_compose.
        apply list_fmap_ext. by intros ? [].
      - intros n (k & -> & Hk)%list_elem_of_fmap.
        assert (part_of t k) as Hpk.
        { clear -Hu Hk. remember (Node b kids) as u eqn:E. induction Hu as [t|t j u Hj _ IH]; subst.
          - by apply (PartKid _ k); [|constructor].
          - apply (PartKid _ j); [done | by apply IH]. }
        exists (tree_block k). destruct (part_placed ts t k Ht' Hpk) as (pl & Hpl & Heq).
        pose proof (Hb _ Hpl) as Hget. unfold pl_id in Hget. rewrite Heq in Hget.
        split; [by destruct k|]. split; [done|].
        pose proof (proj1 (Forall_forall _ _) IH k Hk Hpk) as Hk'. by destruct k. }
    constructor.
    + rewrite Hc, (level_order_roots ts Hg), <- list_fmap_compose. apply list_fmap_ext. by intros ? [].
    + intros n (t & -> & Ht')%list_elem_of_fmap. exists (tree_block t).
      destruct (part_placed ts t t Ht' (PartSelf t)) as (pl & Hpl & Heq).
      pose proof (Hb _ Hpl) as Hget. unfold pl_id in Hget. rewrite Heq in Hget.
      split; [by destruct t|]. split; [done|].
      pose proof (Hparts t t Ht' (PartSelf t)) as Hk'. by destruct t.
Qed.

(** ** The import *)

Lemma shows_title d title p nodes :
  shows d p nodes → shows {| s_tree := s_tree d; s_blocks := s_blocks d; s_title := title |} p nodes.
Proof.
  revert p nodes. fix IH 3. intros p nodes [p' nodes' Hids Hn]. constructor; [exact Hids|].
  intros n Hin. destruct (Hn n Hin) as (b & Hb & Hget & Hs). exists b. split; [done|]. split; [done|]. by apply IH.
Qed.

Lemma import_changes_applied ts title :
  good_ids (forest_ids ts) →
  ∃ d, apply_changes blank_draft (import_changes title (to_node <$> ts)) = Ok d ∧
    s_title d = default "" title ∧ shows d "" (to_node <$> ts).
Proof.
  intros Hg. destruct (body_applied ts Hg) as (d & Ha & Ht & Hs). unfold import_changes, apply_changes in *.
  setoid_rewrite fold_result_app. rewrite Ha. cbn [rbind]. destruct title as [[|c title]|]; cbn.
  1, 3: by eauto.
  eexists. split; [done|]. split; [done|]. by apply shows_title.
Qed.

Section import.
Context {S : Type} `{D : Daemon S} `{!DaemonLaws S}.

(** What the import leaves as it was: all content of groups, and the versions and drafts
    of the documents other than [i], which had no version. *)
Definition only_new (s s' : S) (i : string) : Prop :=
  (∀ w, version_of s i w = None) ∧ (∀ g, content_of s' g = content_of s g) ∧
  (∀ j w, j ≠ i → version_of s' j w = version_of s j w) ∧
  (∀ j, j ≠ i → draft_of s' j = draft_of s j).
(** The numbers that are drawn for the blocks of a page are all different. *)
Definition distinct_draws (draws : nat → N) (kids : list DomNode) : Prop :=
  ∀ i j, i < (extract_nodes draws 0 kids).2 → j < (extract_nodes draws 0 kids).2 →
    draws i = draws j → i = j.

(** C34. The import of a page, whatever its numbers are.  Without a body it is refused
    and nothing happens.  Otherwise a new document is made and no other is touched, nor a
    group: the operations of its blocks are applied to an empty draft, and if the daemon
    accepts them, their result is published; if not, the import fails and the empty draft
    stays.  If the numbers drawn for the blocks are distinct, they are accepted, and the
    published document has the page's title and shows the extracted blocks, each below
    and after the right ones and with its text.  The code does not see to it that they
    are distinct. *)
Theorem importWebCapture_spec draws dom s :
  match dom_body dom with
  | None => importWebCapture draws dom s = (s, Err no_body)
  | Some kids =>
      let blocks := extractBlockNodes draws kids in
      let published := apply_changes blank_draft (import_changes (dom_title dom) blocks) in
      (∃ s' i, only_new s s' i ∧
         match published with
         | Ok d => ∃ doc v, importWebCapture draws dom s =
                     (s', Ok {| p_document := Some doc; p_version := Some v |}) ∧
                   d_id doc = Some i ∧ version_of s' i (Some v) = Some d
         | Err _ => ∃ m, importWebCapture draws dom s = (s', Err m) ∧ draft_of s' i = Some blank_draft ∧
                    ∀ w, version_of s' i w = None
         end) ∧
      (distinct_draws draws kids →
       ∃ d, published = Ok d ∧ s_title d = default "" (dom_title dom) ∧ shows d "" blocks)
  end.
Proof.
  destruct (dom_body dom) as [kids|] eqn:Hb; [|unfold importWebCapture; by rewrite Hb].
  intros blocks published. split.
  - destruct (createDraft_new s) as (s1 & doc1 & i & H1 & Hid & _ & _ & _ & Hdraft & Hv & Hc1 & Hv1 & Hd1).
    pose proof (sendUpdate_law s1 _ _ (import_changes (dom_title dom) blocks) Hdraft) as H2.
    assert (importWebCapture draws dom s =
      (c_bind (sendUpdate ("hm://d/" +:+ i) (import_changes (dom_title dom) blocks)) (λ _,
         c_bind (publishDraft ("hm://d/" +:+ i)) c_ret)) s1) as E.
    { unfold importWebCapture. rewrite Hb, (c_bind_ok _ _ _ _ _ H1), Hid. done. }
    subst published. fold blank_draft in H2. destruct (apply_changes blank_draft _) as [d|].
    + destruct H2 as (s2 & H2 & Hdr2 & Hc2 & Hv2 & Hd2).
      destruct (publishDraft_law s2 _ _ Hdr2) as (s3 & doc & v & H3 & Hid3 & _ & _ & Hver & _ & Hc3 & _ & Hv3 & Hd3).
      exists s3, ("hm://d/" +:+ i). split.
      * split; [done|]. split; [intros g; by rewrite Hc3, Hc2|].
        split; [intros j w Hj; by rewrite Hv3, Hv2, Hv1 | intros j Hj; by rewrite Hd3, Hd2, Hd1].
      * exists doc, v. by rewrite E, (c_bind_ok _ _ _ _ _ H2), (c_bind_ok _ _ _ _ _ H3).
    + destruct H2 as [m H2]. exists s1, ("hm://d/" +:+ i). split.
      * split; [done|]. split; [done|]. split; [intros j w _; by rewrite Hv1|exact Hd1].
      * exists m. rewrite E, (c_bind_err _ _ _ _ _ H2). split; [done|]. split; [done|]. intros w. by rewrite Hv1.
  - intros Hd. destruct (extract_nodes_ok draws kids 0) as (_ & ts & Hts & Hids). subst published blocks.
    unfold extractBlockNodes. rewrite Hts. apply import_changes_applied. rewrite Hids. by apply drawn_good.
Qed.
End import.

(** ** Examples *)

Definition sample_page : Dom :=
  {| dom_body := Some
       [DomText " "; DomElement "NAV" [DomElement "P" [DomText "menu"]];
        DomElement "MAIN"
          [DomElement "H1" [DomText "Title"]; DomElement "P" [DomText "one "; DomElement "B" [DomText "two"]];
           DomElement "UL" [DomElement "LI" [DomText "a"]; DomElement "LI" [DomText "b"]];
           DomElement "OL" [DomElement "LI" [DomText "c"]]]];
     dom_title := Some "Page" |}.
Definition counting (i : nat) : N := N.of_nat (i + 7).
Definition empty_net : Net := {| n_groups := []; n_drafts := []; n_versions := [] |}.

(** The extracted blocks: the navigation and the numbered list are left out. *)
Example sample_extracted :
  (λ b : option HMBlock, (b_id <$> b, b ≫= b_text)) <$>
    preorder_list (extractBlockNodes counting (default [] (dom_body sample_page))) =
  [(Some "7", Some "Title"); (Some "8", Some "one two"); (Some "9", Some ""); (Some "10", Some "a");
   (Some "11", Some "b")].
Proof. reflexivity. Qed.

Lemma importWebCapture_spec_witness :
  ∃ s' i doc v d, only_new empty_net s' i ∧
    importWebCapture counting sample_page empty_net =
      (s', Ok {| p_document := Some doc; p_version := Some v |}) ∧ version_of s' i (Some v) = Some d ∧
    s_title d = "Page" ∧ shows d "" (extractBlockNodes counting (default [] (dom_body sample_page))).
Proof.
  destruct (importWebCapture_spec counting sample_page empty_net) as [(s' & i & Hnew & Hm) Hshows].
  destruct Hshows as (d & Hd & Ht & Hs); [intros j k _ _ Hjk; unfold counting in Hjk; lia|].
  rewrite Hd in Hm. destruct Hm as (doc & v & Hrun & _ & Hv). exists s', i, doc, v, d.
  split; [exact Hnew|]. split; [exact Hrun|]. split; [exact Hv|]. by split.
Defined.

(** A number drawn twice: the later block takes the place and the text of the earlier
    one. *)
Definition twice (i : nat) : N := match i with 1 => 2%N | _ => 1%N end.
Definition three_paragraphs : Dom :=
  {| dom_body := Some [DomElement "P" [DomText "one"]; DomElement "P" [DomText "two"];
                       DomElement "P" [DomText "three"]];
     dom_title := None |}.
Definition published_texts (r : Net * result HMPublication) : option (list (option string)) :=
  match r with
  | (s', Ok p) =>
      match p_document p with
      | Some doc =>
          match d_id doc with
          | Some i =>
              match version_of s' i (p_version p) with
              | Some d => match rendered d with
                          | Some nodes => Some ((λ n, node_block n ≫= b_text) <$> nodes)
                          | None => None
                          end
              | None => None
              end
          | None => None
          end
      | None => None
      end
  | (_, Err _) => None
  end.
Example import_collision :
  published_texts (importWebCapture twice three_paragraphs empty_net) = Some [Some "two"; Some "three"].
Proof. vm_compute. reflexivity. Qed.
(** The same number for two neighbours: the second would be right after itself, which
    the daemon refuses, and the empty draft stays. *)
Example import_refused :
  let r := importWebCapture (λ _, 1%N) three_paragraphs empty_net in
  is_ok r.2 = false ∧ n_versions r.1 = [] ∧ length (n_drafts r.1) = 1.
Proof. vm_compute. done. Qed.
