(* ===== verification/MarkdownPaste.v ===== *)
(** * Pasting Markdown

    [packages/editor/src/blocknote/core/extensions/Markdown/MarkdownExtension.ts]: when
    a paste is taken as Markdown, and how the blocks made of it are put below their
    headings.  The blocks are shared objects whose [children] arrays are extended in
    place, so they live in a heap and are referred to by their number. *)
From S2P Require Import Prelude.
From S2P Require Import JsString.

(** ** Recognising Markdown *)

Section paste.
(** The expression: where the first match at or after an index ends. *)
Variable markdown_match : string → nat → option nat.

(** [markdownRegex.test(text)] for a global expression: it starts at [lastIndex] and
    leaves the end of the match there, or 0 without one. *)
Definition isMarkdown (lastIndex : nat) (text : string) : bool * nat :=
  if len text <? lastIndex then (false, 0)
  else match markdown_match text lastIndex with
       | Some e => (true, e)
       | None => (false, 0)
       end.

(** What [handlePaste] returns, [true] when it takes the paste, and the [lastIndex] it
    leaves. *)
Definition handlePaste (lastIndex : nat) (pastedText pastedHtml : string) : bool * nat :=
  if truthy pastedHtml then
    let r := isMarkdown lastIndex pastedText in
    if r.1 then (true, r.2) else (false, r.2)
  else (true, lastIndex).
End paste.

(** ** The blocks *)

(** A child: one that came with the block, or one of the pasted blocks. *)
Inductive Child (C : Type) : Type := Own (c : C) | Ref (address : nat).
Arguments Own {C} c.
Arguments Ref {C} address.

(** A pasted block; [pb_level] is [parseInt(block.props.level, 10)], [None] for [NaN]. *)
Record PBlock (C : Type) : Type := {
  pb_type : string;
  pb_level : option Z;
  pb_children : list (Child C);
}.
Arguments pb_type {C}. Arguments pb_level {C}. Arguments pb_children {C}.

Section organize.
Context {C : Type}.

Definition getHeadingLevel (block : PBlock C) : option Z :=
  if String.prefix "heading" (pb_type block) then pb_level block else Some 0%Z.
(** [headingLevel > 0] *)
Definition is_heading (level : option Z) : option Z :=
  match level with
  | Some n => if (0 <? n)%Z then Some n else None
  | None => None
  end.

Record Organizer : Type := {
  o_heap : list (PBlock C);
  o_organized : list nat;                (* organizedBlocks *)
  o_stack : list (Z * nat);              (* the last element of the array first *)
}.

(** [block.children.push(child)] *)
Definition push_child (child : nat) (block : PBlock C) : PBlock C :=
  {| pb_type := pb_type block; pb_level := pb_level block;
     pb_children := pb_children block ++ [Ref child] |}.

(** [while (stack.length && stack[stack.length - 1].level >= headingLevel) stack.pop()] *)
Fixpoint pop_levels (headingLevel : Z) (stack : list (Z * nat)) : list (Z * nat) :=
  match stack with
  | [] => []
  | (level, a) :: stack' => if (headingLevel <=? level)%Z then pop_levels headingLevel stack' else stack
  end.

(** Below the top of the stack, or at the top of the document. *)
Definition place_block (stack : list (Z * nat)) (a : nat) (o : Organizer) : Organizer :=
  match stack with
  | (_, top) :: _ =>
      {| o_heap := alter (push_child a) top (o_heap o); o_organized := o_organized o; o_stack := stack |}
  | [] => {| o_heap := o_heap o; o_organized := o_organized o ++ [a]; o_stack := stack |}
  end.

(** The callback of [blocks.forEach]. *)
Definition organize_step (o : Organizer) (a : nat) : Organizer :=
  match o_heap o !! a with
  | None => o
  | Some block =>
      match is_heading (getHeadingLevel block) with
      | Some headingLevel =>
          let stack := pop_levels headingLevel (o_stack o) in
          let o' := place_block stack a o in
          {| o_heap := o_heap o'; o_organized := o_organized o'; o_stack := (headingLevel, a) :: stack |}
      | None => place_block (o_stack o) a o
      end
  end.

Definition organize (blocks : list (PBlock C)) : Organizer :=
  foldl organize_step {| o_heap := blocks; o_organized := []; o_stack := [] |}
    (seq 0 (length blocks)).
End organize.
Arguments Organizer C : clear implicits.

(** * Correctness of organizing pasted blocks

    The loop keeps a path of open sections; with the closed ones it is a forest in
    which every block stands below the last heading of a lower level before it, and
    whose reading order is that of the paste. *)

(** ** Sections as trees *)

Inductive STree : Type :=
| SNode (a : nat) (kids : list STree).
Definition s_root (t : STree) : nat := match t with SNode a _ => a end.

Fixpoint s_order (t : STree) : list nat :=
  match t with SNode a kids => a :: concat (s_order <$> kids) end.
Definition s_orders (ts : list STree) : list nat := concat (s_order <$> ts).

Lemma s_orders_app l k : s_orders (l ++ k) = s_orders l ++ s_orders k.
Proof. unfold s_orders. by rewrite fmap_app, concat_app. Qed.
Lemma s_orders_one t : s_orders [t] = s_order t.
Proof. apply app_nil_r. Qed.
Lemma elem_of_s_orders ts t x : t ∈ ts → x ∈ s_order t → x ∈ s_orders ts.
Proof.
  intros Ht Hx. unfold s_orders. apply list_elem_of_In, in_concat. exists (s_order t).
  split; apply list_elem_of_In; [by apply list_elem_of_fmap_2 | done].
Qed.

(** After a heading of some level, its siblings are headings of that level or a lower
    one: anything else would be below it. *)
Definition may_follow (x y : option Z) : Prop :=
  match x with
  | None => True
  | Some n => ∃ m, y = Some m ∧ (m <= n)%Z
  end.
(** Siblings below a heading of level [lo]. *)
Definition siblings (lo : Z) (l : list (option Z)) : Prop :=
  Forall (λ x, match x with Some n => (lo < n)%Z | None => True end) l ∧ StronglySorted may_follow l.

Lemma siblings_snoc lo l x :
  siblings lo (l ++ [x]) ↔
  siblings lo l ∧ (match x with Some n => (lo < n)%Z | None => True end) ∧ ∀ y, y ∈ l → may_follow y x.
Proof.
  unfold siblings. rewrite list.Forall_app, list.Forall_singleton, StronglySorted_app.
  setoid_rewrite list_elem_of_singleton. split; [naive_solver|].
  intros ((H1 & H2) & H3 & H4). split; [done|]. split; [naive_solver|]. split; [done|].
  by repeat constructor.
Qed.

Section facts.
Context {C : Type} (blocks : list (PBlock C)).

(** The heading level of a pasted block, if it is a heading. *)
Definition level_of (a : nat) : option Z := blocks !! a ≫= λ b, is_heading (getHeadingLevel b).
Definition own_children (a : nat) : list (Child C) := default [] (pb_children <$> blocks !! a).
Definition heap_children (h : list (PBlock C)) (a : nat) : list (Child C) :=
  default [] (pb_children <$> h !! a).

Definition levels (ts : list STree) : list (option Z) := (λ t, level_of (s_root t)) <$> ts.

(** A heading contains what follows it up to the next heading that is not lower; other
    blocks contain nothing. *)
Inductive sectioned : STree → Prop :=
| Sectioned a kids :
    Forall sectioned kids →
    match level_of a with
    | Some l => siblings l (levels kids)
    | None => kids = []
    end → sectioned (SNode a kids).

(** The heap has the tree: its own children first, then the pasted ones in order. *)
Inductive held (h : list (PBlock C)) : STree → Prop :=
| Held a kids :
    heap_children h a = own_children a ++ (Ref ∘ s_root <$> kids) →
    Forall (held h) kids → held h (SNode a kids).

(** ** The path of open sections *)

(** An open section with the subsections closed so far; the innermost comes first. *)
Record Frame : Type := { f_level : Z; f_block : nat; f_kids : list STree }.
Record Zip : Type := { z_open : list Frame; z_roots : list STree }.

Definition add_tree (t : STree) (z : Zip) : Zip :=
  match z_open z with
  | [] => {| z_open := []; z_roots := z_roots z ++ [t] |}
  | f :: fs =>
      {| z_open := {| f_level := f_level f; f_block := f_block f; f_kids := f_kids f ++ [t] |} :: fs;
         z_roots := z_roots z |}
  end.
Definition opt_tree (t : option STree) : list STree :=
  match t with Some t => [t] | None => [] end.
(** Closing every section gives the forest. *)
Fixpoint close (fs : list Frame) (roots : list STree) (t : option STree) : list STree :=
  match fs with
  | [] => roots ++ opt_tree t
  | f :: fs' => close fs' roots (Some (SNode (f_block f) (f_kids f ++ opt_tree t)))
  end.
Definition forest_of (z : Zip) : list STree := close (z_open z) (z_roots z) None.

Definition frame_order (f : Frame) : list nat := f_block f :: s_orders (f_kids f).
Definition zip_order (z : Zip) : list nat :=
  s_orders (z_roots z) ++ concat (reverse (frame_order <$> z_open z)).

Lemma close_order fs roots t :
  s_orders (close fs roots t) =
  s_orders roots ++ concat (reverse (frame_order <$> fs)) ++ s_orders (opt_tree t).
Proof.
  revert t. induction fs as [|f fs IH]; intros t; cbn [close fmap list_fmap].
  - by rewrite s_orders_app.
  - rewrite IH. rewrite reverse_cons, concat_app. cbn [opt_tree]. rewrite s_orders_one.
    cbn [s_order]. change (concat (s_order <$> f_kids f ++ opt_tree t))
      with (s_orders (f_kids f ++ opt_tree t)).
    rewrite s_orders_app. cbn [concat]. rewrite app_nil_r. unfold frame_order at 2.
    by rewrite <- !(assoc_L (++)).
Qed.
Lemma forest_order z : s_orders (forest_of z) = zip_order z.
Proof. unfold forest_of, zip_order. by rewrite close_order, app_nil_r. Qed.

Lemma add_tree_order t z : zip_order (add_tree t z) = zip_order z ++ s_order t.
Proof.
  unfold zip_order, add_tree. destruct (z_open z) as [|f fs]; cbn [z_open z_roots fmap list_fmap].
  - rewrite s_orders_app, s_orders_one. by rewrite !app_nil_r.
  - rewrite !reverse_cons, !concat_app. unfold frame_order at 2 4. cbn [concat f_block f_kids].
    rewrite s_orders_app, s_orders_one, !app_nil_r, <- !(assoc_L (++)). done.
Qed.

(** *** What the loop keeps *)

(** The sections are well nested; [sub] are the levels of what comes next below the
    innermost one. *)
Fixpoint nested (sub : list (option Z)) (fs : list Frame) (roots : list STree) : Prop :=
  match fs with
  | [] => Forall sectioned roots ∧ siblings 0 (levels roots ++ sub)
  | f :: fs' =>
      level_of (f_block f) = Some (f_level f) ∧ Forall sectioned (f_kids f) ∧
      siblings (f_level f) (levels (f_kids f) ++ sub) ∧ nested [Some (f_level f)] fs' roots
  end.

(** The heap and the list of top blocks hold the sections; [sub] is the open child. *)
Fixpoint stored (h : list (PBlock C)) (top : list nat) (sub : list nat) (fs : list Frame)
    (roots : list STree) : Prop :=
  match fs with
  | [] => Forall (held h) roots ∧ top = (s_root <$> roots) ++ sub
  | f :: fs' =>
      Forall (held h) (f_kids f) ∧
      heap_children h (f_block f) = own_children (f_block f) ++ (Ref <$> (s_root <$> f_kids f) ++ sub) ∧
      stored h top [f_block f] fs' roots
  end.

Definition stack_of (fs : list Frame) : list (Z * nat) := (λ f, (f_level f, f_block f)) <$> fs.

Lemma levels_app l k : levels (l ++ k) = levels l ++ levels k.
Proof. apply fmap_app. Qed.

Lemma nested_add sub t z :
  nested (level_of (s_root t) :: sub) (z_open z) (z_roots z) → sectioned t →
  nested sub (z_open (add_tree t z)) (z_roots (add_tree t z)).
Proof.
  intros Hn Ht. destruct z as [[|f fs] roots]; cbn in *.
  - destruct Hn as [Hs Hl]. split; [by apply list.Forall_app_2; [|apply list.Forall_singleton]|].
    by rewrite levels_app, <- (assoc_L (++)).
  - destruct Hn as (Hf & Hs & Hl & Hn). split; [done|].
    split; [by apply list.Forall_app_2; [|apply list.Forall_singleton]|].
    split; [by rewrite levels_app, <- (assoc_L (++)) | done].
Qed.
Lemma stored_add h top sub t z :
  stored h top (s_root t :: sub) (z_open z) (z_roots z) → held h t →
  stored h top sub (z_open (add_tree t z)) (z_roots (add_tree t z)).
Proof.
  intros Hn Ht. destruct z as [[|f fs] roots]; cbn in *.
  - destruct Hn as [Hs ->]. split; [by apply list.Forall_app_2; [|apply list.Forall_singleton]|].
    by rewrite fmap_app, <- (assoc_L (++)).
  - destruct Hn as (Hs & Hc & Hn). split; [by apply list.Forall_app_2; [|apply list.Forall_singleton]|].
    split; [|done]. by rewrite (fmap_app s_root), <- (assoc_L (++)).
Qed.

(** The levels of what is closed below the innermost open section. *)
Definition last_levels (z : Zip) : list (option Z) :=
  match z_open z with [] => levels (z_roots z) | f :: _ => levels (f_kids f) end.

Lemma last_levels_add t z : last_levels (add_tree t z) = last_levels z ++ [level_of (s_root t)].
Proof.
  unfold last_levels, add_tree. destruct (z_open z) as [|f fs]; cbn [z_open z_roots f_kids]; apply levels_app.
Qed.
Lemma nested_siblings sub z :
  nested sub (z_open z) (z_roots z) → ∃ lo, siblings lo (last_levels z ++ sub).
Proof. unfold last_levels. destruct (z_open z); cbn; [intros [_ ?] | intros (_ & _ & ? & _)]; eauto. Qed.

(** What may be followed by a heading of some level may be followed by a lower one. *)
Lemma may_follow_lower x l n : may_follow x (Some l) → (n <= l)%Z → may_follow x (Some n).
Proof. destruct x as [m|]; [|done]. intros (? & [= <-] & ?) ?. eexists. split; [done | lia]. Qed.

Lemma stack_of_add t z : stack_of (z_open (add_tree t z)) = stack_of (z_open z).
Proof. unfold add_tree. by destruct (z_open z). Qed.

(** Closing the innermost section. *)
Lemma close_one h top f fs roots :
  let z := {| z_open := fs; z_roots := roots |} in
  let t := SNode (f_block f) (f_kids f) in
  nested [] (f :: fs) roots → stored h top [] (f :: fs) roots →
  zip_order (add_tree t z) = zip_order {| z_open := f :: fs; z_roots := roots |} ∧
  nested [] (z_open (add_tree t z)) (z_roots (add_tree t z)) ∧
  stored h top [] (z_open (add_tree t z)) (z_roots (add_tree t z)) ∧
  (∀ x, x ∈ last_levels (add_tree t z) → may_follow x (Some (f_level f))).
Proof.
  intros z t (Hf & Hsec & Hl & Hn) (Hh & Hc & Hs). rewrite app_nil_r in *.
  assert (sectioned t) as Ht by (constructor; [done | by rewrite Hf]).
  assert (held h t) as Hht by (constructor; [by rewrite Hc, list_fmap_compose | done]).
  split; [|split; [|split]].
  - rewrite add_tree_order. unfold zip_order, z, t. cbn [z_open z_roots fmap list_fmap].
    rewrite reverse_cons, concat_app. cbn [concat]. by rewrite app_nil_r, <- (assoc_L (++)).
  - apply nested_add; [|done]. cbn [s_root t]. by rewrite Hf.
  - by apply stored_add.
  - intros x. rewrite last_levels_add. cbn [s_root t]. rewrite Hf, elem_of_app, list_elem_of_singleton.
    destruct (nested_siblings _ z Hn) as (lo & Hlo). apply siblings_snoc in Hlo as (_ & _ & Hx).
    intros [Hin| ->]; [by apply Hx|]. eexists. split; [done | lia].
Qed.

(** Popping closes the sections that a heading ends. *)
Lemma pop_levels_ok h top n z :
  (0 < n)%Z → nested [] (z_open z) (z_roots z) → (∀ x, x ∈ last_levels z → may_follow x (Some n)) →
  stored h top [] (z_open z) (z_roots z) →
  ∃ z', stack_of (z_open z') = pop_levels n (stack_of (z_open z)) ∧ zip_order z' = zip_order z ∧
    nested [Some n] (z_open z') (z_roots z') ∧ stored h top [] (z_open z') (z_roots z').
Proof.
  intros Hn0. remember (length (z_open z)) as k eqn:Hk. revert z Hk.
  induction k as [|k IH]; intros [[|f fs] roots] Hk Hn Hx Hs; try done.
  - exists {| z_open := []; z_roots := roots |}. split; [done|]. split; [done|]. split; [|done].
    cbn in *. rewrite app_nil_r in Hn. destruct Hn as [Hsec Hl]. split; [done|]. by apply siblings_snoc.
  - cbn [z_open z_roots stack_of fmap list_fmap pop_levels] in *.
    destruct (Z.leb_spec n (f_level f)) as [Hle|Hlt].
    + destruct (close_one h top f fs roots Hn Hs) as (Ho & Hn' & Hs' & Hl).
      edestruct IH as (z' & Hst & Ho' & Hres); [|exact Hn'| |exact Hs'|].
      * unfold add_tree. destruct fs; cbn in *; lia.
      * intros x Hin. by apply (may_follow_lower x (f_level f)); [apply Hl|].
      * exists z'. rewrite stack_of_add in Hst. by rewrite Ho', Ho.
    + exists {| z_open := f :: fs; z_roots := roots |}. split; [done|]. split; [done|]. split; [|done].
      destruct Hn as (Hf & Hsec & Hl & Hn). cbn [nested z_open z_roots]. split; [done|]. split; [done|]. split; [|done].
      rewrite app_nil_r in Hl. by apply siblings_snoc.
Qed.

(** *** Placing a block *)

Lemma heap_push_same h top a :
  is_Some (h !! top) → heap_children (alter (push_child a) top h) top = heap_children h top ++ [Ref a].
Proof. intros [b Hb]. unfold heap_children. rewrite list_lookup_alter_eq, Hb. done. Qed.
Lemma heap_push_other h top a x :
  x ≠ top → heap_children (alter (push_child a) top h) x = heap_children h x.
Proof. intros Hx. unfold heap_children. by rewrite list_lookup_alter_ne by by apply not_eq_sym. Qed.

Section stree_ind.
Variable P : STree → Prop.
Hypothesis Hnode : ∀ a kids, Forall P kids → P (SNode a kids).

Fixpoint stree_tree_ind (t : STree) : P t :=
  match t with
  | SNode a kids =>
      Hnode a kids
        ((fix go (l : list STree) : Forall P l :=
            match l with
            | [] => list.Forall_nil_2 P
            | x :: l' => list.Forall_cons_2 P x l' (stree_tree_ind x) (go l')
            end) kids)
  end.
End stree_ind.

Lemma held_push h top a t : top ∉ s_order t → held h t → held (alter (push_child a) top h) t.
Proof.
  induction t as [b kids IH] using stree_tree_ind. intros Ht Hh. inversion Hh as [b' k' Hc Hk]; subst.
  cbn [s_order] in Ht. apply not_elem_of_cons in Ht as [Hb Ht]. constructor.
  - by rewrite heap_push_other by by apply not_eq_sym.
  - apply Forall_forall. intros k Hin. apply (proj1 (Forall_forall _ _) IH k Hin).
    + contradict Ht. by apply (elem_of_s_orders kids k).
    + by apply (proj1 (Forall_forall _ _) Hk).
Qed.
Lemma helds_push h top a ts :
  top ∉ s_orders ts → Forall (held h) ts → Forall (held (alter (push_child a) top h)) ts.
Proof.
  intros Ht Hh. apply Forall_forall. intros t Hin. apply held_push.
  - contradict Ht. by apply (elem_of_s_orders ts t).
  - by apply (proj1 (Forall_forall _ _) Hh).
Qed.

Lemma stored_push h top_blocks sub a x fs roots :
  x ∉ zip_order {| z_open := fs; z_roots := roots |} →
  stored h top_blocks sub fs roots → stored (alter (push_child a) x h) top_blocks sub fs roots.
Proof.
  revert sub. induction fs as [|f fs IH]; intros sub Hx Hs; unfold zip_order in *;
    cbn [z_open z_roots fmap list_fmap stored] in *.
  - destruct Hs as [Hh ->]. split; [|done]. apply helds_push; [|done]. contradict Hx. by apply elem_of_app; left.
  - rewrite reverse_cons, concat_app, !not_elem_of_app in Hx. cbn [concat frame_order] in Hx.
    rewrite app_nil_r in Hx. unfold frame_order in Hx. rewrite not_elem_of_cons in Hx. destruct Hx as (Hr & Hfs & Hf & Hk), Hs as (Hh & Hc & Hs).
    split; [by apply helds_push|]. split; [by rewrite heap_push_other by by apply not_eq_sym|].
    apply IH; [|done]. by apply not_elem_of_app.
Qed.

(** A new block goes below the innermost section, or to the top of the document. *)
Lemma place_block_ok a o z :
  NoDup (zip_order z) →
  (∀ x, x ∈ zip_order z → is_Some (o_heap o !! x)) →
  stored (o_heap o) (o_organized o) [] (z_open z) (z_roots z) →
  let o' := place_block (stack_of (z_open z)) a o in
  stored (o_heap o') (o_organized o') [a] (z_open z) (z_roots z) ∧
  (∀ x, x ∉ zip_order z → o_heap o' !! x = o_heap o !! x) ∧
  (∀ x, is_Some (o_heap o' !! x) ↔ is_Some (o_heap o !! x)).
Proof.
  destruct z as [[|f fs] roots]; cbn [z_open z_roots stack_of fmap list_fmap place_block o_heap o_organized].
  - intros _ _ [Hh Ht]. cbn. rewrite app_nil_r in Ht. rewrite Ht. done.
  - intros Hn Hs (Hh & Hc & Hst). unfold zip_order in Hn, Hs. cbn [z_open z_roots fmap list_fmap] in *.
    rewrite reverse_cons, concat_app in *. cbn [concat] in *. rewrite app_nil_r in *.
    rewrite (assoc_L (++)) in Hn. apply NoDup_app in Hn as (_ & Hd & [Hfk _]%NoDup_cons).
    assert (f_block f ∉ zip_order {| z_open := fs; z_roots := roots |}) as Hfz.
    { intros Hin. apply (Hd _ Hin). left. }
    split; [split; [|split]|split].
    + by apply helds_push.
    + rewrite heap_push_same, Hc.
      * by rewrite <- (assoc_L (++)), (fmap_app Ref).
      * apply Hs. rewrite !elem_of_app. right. right. left.
    + by apply stored_push.
    + intros x Hx. apply list_lookup_alter_ne. intros <-. apply Hx.
      unfold zip_order. cbn [z_open z_roots fmap list_fmap]. rewrite reverse_cons, concat_app, !elem_of_app.
      right. right. left.
    + intros x. destruct (decide (f_block f = x)) as [->|Hne].
      * rewrite list_lookup_alter_eq. by rewrite fmap_is_Some.
      * by rewrite list_lookup_alter_ne.
Qed.

(** ** The loop *)

(** After the first [i] blocks. *)
Definition organized_to (i : nat) (o : Organizer C) : Prop :=
  ∃ z, o_stack o = stack_of (z_open z) ∧ zip_order z = seq 0 i ∧
    nested [None] (z_open z) (z_roots z) ∧ stored (o_heap o) (o_organized o) [] (z_open z) (z_roots z) ∧
    (∀ x, i <= x → o_heap o !! x = blocks !! x) ∧
    (∀ x, is_Some (o_heap o !! x) ↔ is_Some (blocks !! x)).

(** Where anything may come next, a heading may. *)
Lemma nested_plain_next z :
  nested [None] (z_open z) (z_roots z) →
  nested [] (z_open z) (z_roots z) ∧ ∀ x y, x ∈ last_levels z → may_follow x y.
Proof.
  intros Hn. split.
  - destruct (z_open z) as [|f fs]; cbn in *; rewrite app_nil_r.
    + destruct Hn as [? Hl]. apply siblings_snoc in Hl. tauto.
    + destruct Hn as (? & ? & Hl & ?). apply siblings_snoc in Hl. tauto.
  - destruct (nested_siblings _ _ Hn) as (lo & Hlo). apply siblings_snoc in Hlo as (_ & _ & Hx).
    intros x y Hin. specialize (Hx _ Hin). destruct x as [m|]; [|done]. by destruct Hx as (? & ? & _).
Qed.

Lemma siblings_plain_again lo l : siblings lo (l ++ [None]) → siblings lo (l ++ [None; None]).
Proof.
  intros Hl. change (l ++ [None; None]) with (l ++ ([None] ++ [None])). rewrite (assoc_L (++)).
  apply siblings_snoc. split; [done|]. split; [done|]. apply siblings_snoc in Hl as (_ & _ & Hx).
  intros y [Hy|Hy]%elem_of_app; [by apply Hx|]. by apply list_elem_of_singleton in Hy as ->.
Qed.
Lemma nested_plain_again z :
  nested [None] (z_open z) (z_roots z) → nested [None; None] (z_open z) (z_roots z).
Proof.
  destruct (z_open z) as [|f fs]; cbn.
  - intros [? ?]. split; [done | by apply siblings_plain_again].
  - intros (? & ? & ? & ?). split_and!; try done. by apply siblings_plain_again.
Qed.

Lemma heap_level i o : organized_to i o → ∀ b, o_heap o !! i = Some b → is_heading (getHeadingLevel b) = level_of i.
Proof.
  intros (z & _ & _ & _ & _ & Hsame & _) b Hb. unfold level_of. by rewrite <- Hsame, Hb.
Qed.
Lemma is_heading_pos l n : is_heading l = Some n → (0 < n)%Z.
Proof. destruct l as [m|]; [|done]. cbn. destruct (Z.ltb_spec 0 m); [by intros [= <-]|done]. Qed.

Lemma held_leaf h i : heap_children h i = own_children i → held h (SNode i []).
Proof. intros Hc. constructor; [by rewrite app_nil_r | constructor]. Qed.

Lemma organize_step_ok i o :
  i < length blocks → organized_to i o → organized_to (S i) (organize_step o i).
Proof.
  intros Hi Ho. pose proof (heap_level i o Ho) as Hlv. destruct Ho as (z & Hst & Hz & Hn & Hs & Hsame & Hdom).
  destruct (lookup_lt_is_Some_2 blocks i Hi) as [b0 Hb0].
  unfold organize_step. rewrite Hsame by done. rewrite Hb0. rewrite Hsame in Hlv by done. specialize (Hlv _ Hb0).
  destruct (nested_plain_next z Hn) as [Hn0 Hx].
  assert (∀ z', zip_order z' = seq 0 i → NoDup (zip_order z') ∧
            (∀ x, x ∈ zip_order z' → is_Some (o_heap o !! x)) ∧ i ∉ zip_order z') as Hseq.
  { intros z' ->. split; [apply NoDup_seq|]. split.
    - intros x Hin%elem_of_seq. apply Hdom, lookup_lt_is_Some_2. lia.
    - intros Hin%elem_of_seq. lia. }
  destruct (is_heading (getHeadingLevel b0)) as [n|] eqn:Hh; cbn [rbind].
  - destruct (pop_levels_ok (o_heap o) (o_organized o) n z) as (z' & Hst' & Hz' & Hn' & Hs').
    + by eapply is_heading_pos.
    + done.
    + intros x Hin. by apply Hx.
    + done.
    + rewrite Hst. rewrite <- Hst'. rewrite Hz in Hz'. destruct (Hseq z' Hz') as (Hd & Hp & Hni).
      destruct (place_block_ok i o z' Hd Hp Hs') as (Hs1 & Hsame1 & Hdom1).
      exists {| z_open := {| f_level := n; f_block := i; f_kids := [] |} :: z_open z'; z_roots := z_roots z' |}.
      cbn [z_open z_roots o_heap o_organized o_stack]. split; [done|]. split; [|split; [|split; [|split]]].
      * unfold zip_order in *. cbn [z_open z_roots fmap list_fmap] in *. rewrite reverse_cons, concat_app, (assoc_L (++)), Hz'.
        by rewrite seq_S.
      * cbn [nested f_level f_block f_kids]. split; [done|]. split; [done|]. split; [|done].
        split; repeat constructor.
      * cbn [stored f_kids f_block]. split; [done|]. split; [|done]. cbn. rewrite app_nil_r.
        unfold heap_children, own_children. by rewrite Hsame1, Hsame by done.
      * intros x Hxi. rewrite Hsame1; [apply Hsame; lia|]. rewrite Hz'. intros Hin%elem_of_seq. lia.
      * intros x. by rewrite Hdom1.
  - destruct (Hseq z Hz) as (Hd & Hp & Hni). rewrite Hst.
    destruct (place_block_ok i o z Hd Hp Hs) as (Hs1 & Hsame1 & Hdom1).
    exists (add_tree (SNode i []) z). rewrite stack_of_add, add_tree_order, Hz.
    split; [by destruct (z_open z)|]. split; [by rewrite seq_S|]. split; [|split; [|split]].
    + apply nested_add; [cbn [s_root]; rewrite <- Hlv; by apply nested_plain_again|].
      constructor; [done|]. by rewrite <- Hlv.
    + apply stored_add; [done|]. apply held_leaf. unfold heap_children, own_children.
      by rewrite Hsame1, Hsame by done.
    + intros x Hxi. rewrite Hsame1; [apply Hsame; lia|]. rewrite Hz. intros Hin%elem_of_seq. lia.
    + intros x. by rewrite Hdom1.
Qed.

Lemma organize_ok : organized_to (length blocks) (organize blocks).
Proof.
  unfold organize. set (o0 := {| o_heap := blocks; o_organized := []; o_stack := [] |}).
  assert (organized_to 0 o0) as H0.
  { exists {| z_open := []; z_roots := [] |}. split_and!; try done. cbn. split; [done|]. split; repeat constructor. }
  assert (∀ n k o, n + k <= length blocks → organized_to k o →
            organized_to (k + n) (foldl organize_step o (seq k n))) as Hgen.
  { induction n as [|n IH]; intros k o Hle Ho; cbn; [by rewrite Nat.add_0_r|].
    rewrite <- Nat.add_succ_comm. apply IH; [lia|]. apply organize_step_ok; [lia | done]. }
  apply (Hgen (length blocks) 0); [lia | done].
Qed.

(** *** Closing what is still open *)

Lemma forest_add t z : forest_of (add_tree t z) = close (z_open z) (z_roots z) (Some t).
Proof. unfold forest_of, add_tree. destruct (z_open z); cbn; by rewrite ?app_nil_r. Qed.

Lemma open_add t z : length (z_open (add_tree t z)) = length (z_open z).
Proof. unfold add_tree. by destruct (z_open z). Qed.

Lemma close_all h top z :
  nested [] (z_open z) (z_roots z) → stored h top [] (z_open z) (z_roots z) →
  Forall sectioned (forest_of z) ∧ siblings 0 (levels (forest_of z)) ∧
  Forall (held h) (forest_of z) ∧ top = s_root <$> forest_of z.
Proof.
  remember (length (z_open z)) as k eqn:Hk. revert z Hk.
  induction k as [|k IH]; intros [[|f fs] roots] Hk Hn Hs; try done.
  - unfold forest_of. cbn in *. rewrite !app_nil_r in *. naive_solver.
  - cbn [z_open z_roots] in *. destruct (close_one h top f fs roots Hn Hs) as (_ & Hn' & Hs' & _).
    assert (k = length (z_open (add_tree (SNode (f_block f) (f_kids f)) {| z_open := fs; z_roots := roots |}))) as Hl.
    { rewrite open_add. cbn in *. lia. }
    pose proof (IH _ Hl Hn' Hs') as Hres. rewrite forest_add in Hres.
    unfold forest_of. cbn [close z_open z_roots opt_tree] in *. by rewrite app_nil_r.
Qed.

(** The organized blocks are a forest of all the pasted blocks in their order, in
    which exactly what follows a heading, up to the next heading that is not lower, is
    below it; the shared blocks hold that forest, after the children that they came
    with. *)
Theorem organize_spec :
  let o := organize blocks in
  ∃ ts, o_organized o = s_root <$> ts ∧ Forall (held (o_heap o)) ts ∧
    s_orders ts = seq 0 (length blocks) ∧ Forall sectioned ts ∧ siblings 0 (levels ts).
Proof.
  cbn zeta. destruct organize_ok as (z & _ & Hz & Hn & Hs & _).
  destruct (close_all _ _ z (proj1 (nested_plain_next z Hn)) Hs) as (H1 & H2 & H3 & H4).
  exists (forest_of z). by rewrite forest_order.
Qed.
End facts.

(** ** Recognising Markdown *)

(** The expression is global and shared, so a paste of Markdown with a rich version is
    refused when it is not longer than where the match in the paste before it ended. *)
Lemma handlePaste_forgets mm lastIndex e text text' html :
  html ≠ "" → mm text lastIndex = Some e → lastIndex <= len text → len text' < e →
  let r := handlePaste mm lastIndex text html in
  r.1 = true ∧ handlePaste mm r.2 text' html = (false, 0).
Proof.
  intros Hh Hm Hl He. apply truthy_spec in Hh. unfold handlePaste, isMarkdown. cbn zeta. rewrite Hh.
  destruct (Nat.ltb_spec (len text) lastIndex) as [?|_]; [lia|]. rewrite Hm. cbn [fst snd].
  split; [done|]. by destruct (Nat.ltb_spec (len text') e); [|lia].
Qed.

(** ** Examples *)

Definition sample_block (type : string) (level : option Z) : PBlock nat :=
  {| pb_type := type; pb_level := level; pb_children := [] |}.
Definition sample_paste : list (PBlock nat) :=
  [sample_block "paragraph" (Some 1); sample_block "heading" (Some 2); sample_block "paragraph" None;
   sample_block "heading" (Some 3); sample_block "image" None; sample_block "heading" (Some 2);
   sample_block "heading" (Some 1)]%Z.
Example sample_organized :
  let o := organize sample_paste in
  (o_organized o, pb_children <$> o_heap o) =
  ([0; 1; 5; 6], [[]; [Ref 2; Ref 3]; []; [Ref 4]; []; []; []]).
Proof. reflexivity. Qed.
