(* ===== verification/MarkdownExport.v ===== *)
(** * Exporting a document as Markdown

    [packages/app/utils/blocks-to-markdown.ts]: the media files of a document and its
    blocks as HTML; [apps/desktop/src/save-markdown-file.tsx]: the folder, the media
    files that are fetched into it, and the text that is written.  The step from HTML to
    Markdown is a library's. *)
From S2P Require Import Prelude.
From S2P Require Import JsString.
From S2P Require Import JsObject.
From S2P Require Import EntityId.
From S2P Require Import BlockTypes.
From S2P Require Import BlockConvert.

Definition LINE : string := String (ascii_of_nat 10) "".
(** [<tag>inner</tag>] *)
Definition tagged (tag inner : string) : string :=
  "<" +:+ tag +:+ ">" +:+ inner +:+ "</" +:+ tag +:+ ">".

(** ** Blocks as HTML *)

(** Each style wraps what the ones before it made; the other keys are not shown. *)
Definition applyStyles (text : string) (styles : HMStyles) : string :=
  let wrap st tag t := if bool_decide (st ∈ styles) then tagged tag t else t in
  wrap Underline "u" (wrap Strike "del" (wrap Italic "em" (wrap Bold "strong" text))).

(** [contentItem.text] and [contentItem.styles || {}] *)
Definition item_text (i : HMInlineContent) : option string :=
  match i with InlineText t _ => Some t | _ => None end.
Definition item_styles (i : HMInlineContent) : HMStyles :=
  match i with InlineText _ st => st | _ => [] end.

Definition no_link_content : string := "Cannot read properties of undefined (reading 'text')".

Definition convertContentItemToHtml (i : HMInlineContent) : result string :=
  match i with
  | InlineLink type href content =>
      if String.eqb type "link" then
        match content with
        | [] => Err no_link_content
        | c :: _ =>
            Ok ("<a href=" +:+ quoted (undef_str href) +:+ ">"
                +:+ applyStyles (undef_str (item_text c)) (item_styles c) +:+ "</a>")
        end
      else Ok ""
  | _ => Ok (applyStyles (default "" (item_text i)) (item_styles i))
  end.

Definition list_type (p : BlockProps) : option string :=
  match p_childrenType p with
  | Some t => if String.eqb t "ul" || String.eqb t "ol" then Some t else None
  | None => None
  end.
Definition or_else (s : option string) (d : string) : string := if otruthy s then default d s else d.

(** The [switch] on the block's type. *)
Definition block_html (type : string) (p : BlockProps) (contentHtml : string) : string :=
  if String.eqb type "heading" then
    tagged ("h" +:+ undef_str (num_to_str <$> p_level p)) contentHtml
  else if String.eqb type "paragraph" then tagged "p" contentHtml
  else if String.eqb type "image" then
    "<img src=" +:+ quoted (undef_str (p_url p)) +:+ " alt=" +:+ quoted contentHtml
    +:+ " title=" +:+ quoted (undef_str (p_name p) +:+ " | width=" +:+ undef_str (p_width p)) +:+ ">"
  else if String.eqb type "codeBlock" then
    "<pre><code class=" +:+ quoted ("language-" +:+ or_else (p_language p) "plaintext") +:+ ">"
    +:+ contentHtml +:+ "</code></pre>"
  else if String.eqb type "video" then
    tagged "p" ("![" +:+ undef_str (p_name p) +:+ "](" +:+ undef_str (p_url p) +:+ " "
                +:+ quoted ("width=" +:+ undef_str (p_width p)) +:+ ")")
  else if String.eqb type "file" then
    tagged "p" ("[" +:+ undef_str (p_name p) +:+ "](" +:+ undef_str (p_url p) +:+ " "
                +:+ quoted ("size=" +:+ undef_str (p_size p)) +:+ ")")
  else if String.eqb type "math" then tagged "p" ("$$" +:+ contentHtml +:+ "$$")
  else contentHtml.

Definition children_html (p : BlockProps) (childrenContent : string) : string :=
  match list_type p with
  | Some "ul" => tagged "ul" childrenContent
  | Some _ =>
      "<ol start=" +:+ quoted (or_else (p_start p) "1") +:+ ">" +:+ childrenContent +:+ "</ol>"
  | None => childrenContent
  end.

Fixpoint convertBlockToHtml (isListItem : bool) (b : EditorBlock) : result string :=
  match b with
  | EBlock _ type props content children =>
      let* kids := map_result (convertBlockToHtml (bool_decide (is_Some (list_type props)))) children in
      let childrenHtml := children_html props (js_join LINE kids) in
      let* items := map_result convertContentItemToHtml content in
      let blockHtml := block_html type props (js_join "" items) in
      Ok (if isListItem then tagged "li" (blockHtml +:+ childrenHtml)
          else blockHtml +:+ LINE +:+ childrenHtml)
  end.

Definition convertBlocksToHtml (blocks : list EditorBlock) : result string :=
  let* l := map_result (convertBlockToHtml false) blocks in
  Ok (js_join (LINE +:+ LINE) l).

(** ** Media files *)

Record MediaFile : Type := { mf_url : string; mf_filename : string }.

Definition js_includes (part s : string) : bool := negb (no_occ part s).
Definition is_media (type : string) : bool :=
  String.eqb type "image" || String.eqb type "video" || String.eqb type "file".
Definition is_online (url : string) : bool :=
  js_includes "youtu.be" url || js_includes "youtube" url || js_includes "vimeo" url.
(** [url.split('/').pop()] *)
Definition file_name (url : string) : string := default "" (last (js_split "/" url)).

Definition with_url (p : BlockProps) (url : string) : BlockProps :=
  {| p_url := Some url; p_name := p_name p; p_width := p_width p; p_size := p_size p;
     p_view := p_view p; p_text := p_text p; p_language := p_language p;
     p_textAlignment := p_textAlignment p; p_level := p_level p;
     p_childrenType := p_childrenType p; p_listLevel := p_listLevel p; p_start := p_start p |}.

(** [extractMedia]: the block is changed in place and files are pushed; the block of an
    online video returns before its children. *)
Fixpoint extractMedia (b : EditorBlock) : EditorBlock * list MediaFile :=
  match b with
  | EBlock id type props content children =>
      let below := extractMedia <$> children in
      let kids := fst <$> below in
      let files := concat (snd <$> below) in
      match p_url props with
      | Some url =>
          if is_media type && truthy url then
            if is_online url then (b, [])
            else (EBlock id type (with_url props ("media/" +:+ file_name url)) content kids,
                  {| mf_url := url; mf_filename := file_name url |} :: files)
          else (EBlock id type props content kids, files)
      | None => (EBlock id type props content kids, files)
      end
  end.

Definition extractMediaFiles (blocks : list EditorBlock) : list EditorBlock * list MediaFile :=
  let r := extractMedia <$> blocks in (fst <$> r, concat (snd <$> r)).

(** What is handed to the Markdown library, with the media files. *)
Definition markdown_source (blocks : list EditorBlock) : result (string * list MediaFile) :=
  let r := extractMediaFiles blocks in
  let* html := convertBlocksToHtml r.1 in
  Ok (html, r.2).

(** ** Saving *)

(** [word.charAt(0).toUpperCase()]; the characters whose capital is outside of the model
    are left. *)
Definition upper_char (c : ascii) : ascii :=
  let n := char_code c in
  if is_lower c || ((224 <=? n)%N && (n <=? 254)%N && negb (n =? 247)%N)
  then Ascii.ascii_of_N (n - 32) else c.
Definition camel_word (word : string) : string :=
  match word with
  | EmptyString => EmptyString
  | String c w => String (upper_char c) (js_toLowerCase w)
  end.
Definition no_separator (c : ascii) : ascii :=
  if Ascii.eqb c "/" || Ascii.eqb c "\" || Ascii.eqb c "|" then "-"%char else c.
Definition camelTitle (title : string) : string :=
  str_filter (λ c, negb (is_space c))
    (str_map no_separator (js_join "" (camel_word <$> js_split " " title))).

(** The text that [GetSubstitution] makes of a replacement. *)
Fixpoint substitution (before matched after rep : string) : string :=
  match rep with
  | EmptyString => EmptyString
  | String c rep' =>
      if Ascii.eqb c "$" then
        match rep' with
        | String d r =>
            if Ascii.eqb d "$" then String "$" (substitution before matched after r)
            else if Ascii.eqb d "&" then matched +:+ substitution before matched after r
            else if Ascii.eqb d "`" then before +:+ substitution before matched after r
            else if Ascii.eqb d "'" then after +:+ substitution before matched after r
            else String c (substitution before matched after rep')
        | EmptyString => String c EmptyString
        end
      else String c (substitution before matched after rep')
  end.
(** [s.replace(pattern, rep)] with strings: the first occurrence only. *)
Fixpoint replace_first (before pattern rep s : string) : string :=
  if String.prefix pattern s then
    let after := js_slice_from s (Z.of_nat (len pattern)) in
    before +:+ substitution before pattern after rep +:+ after
  else match s with
       | EmptyString => before
       | String c s' => replace_first (before +:+ String c EmptyString) pattern rep s'
       end.
Definition js_replace (pattern rep s : string) : string := replace_first "" pattern rep s.

(** How a request for a media file ends; the extension is what [mime.extension] says of
    the content type. *)
Inductive Response : Type :=
| RequestError (message : string)
| Responded (statusCode : N) (extension : option string) (bytes : N) (writeError : option string).

(** The path that is requested below [API_HTTP_URL]. *)
Definition media_request (url : string) : string := "/ipfs/" +:+ default "null" (match_ipfs url).

(** [uploadMediaFile]: the Markdown text afterwards, and whether the promise rejects. *)
Definition uploadMediaFile (filename : string) (r : Response) (content : string) :
    string * option string :=
  match r with
  | RequestError message => (content, Some message)
  | Responded statusCode extension bytes writeError =>
      let filenameWithExt := filename +:+ "." +:+ default "false" extension in
      if (statusCode =? 200)%N then
        if (bytes =? 0)%N then (content, Some ("Error: No data received for " +:+ filenameWithExt))
        else match writeError with
             | Some e => (content, Some e)
             | None => (js_replace filename filenameWithExt content, None)
             end
      else (content, Some ("Error: Invalid status code " +:+ num_to_str statusCode))
  end.

(** [await Promise.all(uploadPromises)]: the requests in the order in which they end, up
    to the first that fails. *)
Fixpoint upload_all (ended : list (string * Response)) (content : string) : string * option string :=
  match ended with
  | [] => (content, None)
  | (filename, r) :: ended' =>
      match uploadMediaFile filename r content with
      | (content', None) => upload_all ended' content'
      | (content', Some e) => (content', Some e)
      end
  end.

(** What is sent back as [export-completed], and what is written (the file's folder
    and name, both next to the chosen path). *)
Record Export : Type := { ex_success : bool; ex_message : string; ex_written : option (string * string * string) }.

Definition saveMarkdownFile (title markdownContent : string) (filePath : option string)
    (ended : list (string * Response)) : Export :=
  if otruthy filePath then
    let r := upload_all ended markdownContent in
    {| ex_success := bool_decide (r.2 = None);
       ex_message := match r.2 with
                     | None => "Successfully exported documents to: " +:+ default "" filePath +:+ "."
                     | Some e => "Error processing media files: " +:+ e +:+ "."
                     end;
       ex_written := Some (camelTitle title, camelTitle title +:+ ".md", r.1) |}
  else {| ex_success := false; ex_message := "Export has been cancelled."; ex_written := None |}.
