(* ===== verification/MarkdownExportFacts.v ===== *)
(** * Correctness of the export

    The HTML of a document shows the text of its blocks, the exported blocks point to
    the media files that are saved with them, and the folder's name is one component of
    a path. *)
From S2P Require Import Prelude.
From S2P Require Import JsString.
From S2P Require Import JsObject.
From S2P Require Import EntityId.
From S2P Require Import BlockTypes.
From S2P Require Import BlockConvert.
From S2P Require Import MarkdownExport.

(** ** Reading HTML *)

(** The text outside of tags, and whether the string ends inside one. *)
Fixpoint scan (inside : bool) (s : string) : string * bool :=
  match s with
  | EmptyString => ("", inside)
  | String c s' =>
      if inside then scan (negb (Ascii.eqb c ">")) s'
      else if Ascii.eqb c "<" then scan true s'
      else let r := scan false s' in (String c r.1, r.2)
  end.

(** [s] is whole tags and texts, the texts being [t]. *)
Definition reads (s t : string) : Prop := scan false s = (t, false).

Lemma scan_app b s t :
  scan b (s +:+ t) = ((scan b s).1 +:+ (scan (scan b s).2 t).1, (scan (scan b s).2 t).2).
Proof.
  revert b. induction s as [|c s IH]; intros b; [by destruct (scan b t) eqn:E; cbn; rewrite E|].
  change (String c s +:+ t) with (String c (s +:+ t)). cbn [scan]. destruct b; [apply IH|].
  destruct (Ascii.eqb c "<"); [apply IH|]. by rewrite IH.
Qed.
Lemma reads_app s1 s2 t1 t2 : reads s1 t1 → reads s2 t2 → reads (s1 +:+ s2) (t1 +:+ t2).
Proof. unfold reads. intros H1 H2. rewrite scan_app, H1. cbn. by rewrite H2. Qed.
Lemma reads_text s : lacks "<" s = true → reads s s.
Proof.
  unfold reads. induction s as [|c s IH]; [done|]. rewrite lacks_cons. intros [Hc Hs]%andb_prop.
  cbn [scan]. rewrite Ascii.eqb_sym. apply negb_true_iff in Hc as ->. by rewrite IH.
Qed.
Lemma scan_inside s t : lacks ">" s = true → scan true (s +:+ ">" +:+ t) = scan false t.
Proof.
  induction s as [|c s IH]; [done|]. rewrite lacks_cons. intros [Hc Hs]%andb_prop.
  change (String c s +:+ ">" +:+ t) with (String c (s +:+ ">" +:+ t)). cbn [scan].
  rewrite Ascii.eqb_sym. rewrite Hc. by apply IH.
Qed.
Lemma reads_tag s t u : lacks ">" s = true → reads t u → reads ("<" +:+ s +:+ ">" +:+ t) u.
Proof. intros Hs Ht. unfold reads. cbn [scan]. change (scan false ("<" +:+ s +:+ ">" +:+ t)) with (scan true (s +:+ ">" +:+ t)). by rewrite scan_inside. Qed.
Lemma reads_end s : lacks ">" s = true → reads ("<" +:+ s +:+ ">") "".
Proof. intros Hs. rewrite <- (str_app_nil_r ">"). by apply reads_tag. Qed.

Lemma reads_element attrs tag inner t :
  lacks ">" attrs = true → lacks ">" tag = true → reads inner t →
  reads ("<" +:+ attrs +:+ ">" +:+ inner +:+ "</" +:+ tag +:+ ">") t.
Proof.
  intros Ha Ht Hi. apply reads_tag; [done|]. rewrite <- (str_app_nil_r t). apply reads_app; [done|].
  change ("</" +:+ tag +:+ ">") with ("<" +:+ ("/" +:+ tag) +:+ ">"). apply reads_end.
  by rewrite lacks_app, Ht.
Qed.
Lemma reads_tagged tag inner t : lacks ">" tag = true → reads inner t → reads (tagged tag inner) t.
Proof. intros Ht Hi. by apply reads_element. Qed.

Lemma reads_join sep l k :
  lacks "<" sep = true → Forall2 reads l k → reads (js_join sep l) (js_join sep k).
Proof.
  intros Hs. induction 1 as [|s t l k Hst Hlk IH]; [done|]. destruct Hlk as [|s' t' l k Hst' Hlk]; [done|].
  rewrite !js_join_cons. apply reads_app; [done|]. apply reads_app; [by apply reads_text | done].
Qed.

(** ** What a block shows *)

Definition item_shown (i : HMInlineContent) : string :=
  match i with
  | InlineText t _ => t
  | InlineLink type _ content => if String.eqb type "link" then undef_str (head content ≫= item_text) else ""
  | InlineEmbed _ => ""
  end.
Definition own_shown (type : string) (p : BlockProps) (text : string) : string :=
  if String.eqb type "image" then ""
  else if String.eqb type "video" then
    "![" +:+ undef_str (p_name p) +:+ "](" +:+ undef_str (p_url p) +:+ " "
    +:+ quoted ("width=" +:+ undef_str (p_width p)) +:+ ")"
  else if String.eqb type "file" then
    "[" +:+ undef_str (p_name p) +:+ "](" +:+ undef_str (p_url p) +:+ " "
    +:+ quoted ("size=" +:+ undef_str (p_size p)) +:+ ")"
  else if String.eqb type "math" then "$$" +:+ text +:+ "$$"
  else text.

(** The text of a block and of those below it, one to a line. *)
Fixpoint block_shown (isListItem : bool) (b : EditorBlock) : string :=
  match b with
  | EBlock _ type props content children =>
      own_shown type props (js_join "" (item_shown <$> content))
      +:+ (if isListItem then "" else LINE)
      +:+ js_join LINE (block_shown (bool_decide (is_Some (list_type props))) <$> children)
  end.

(** Texts without the start of a tag, attributes without the end of one; a link has a
    text, and a picture no content of its own. *)
Definition item_plain (i : HMInlineContent) : Prop :=
  match i with
  | InlineText t _ => lacks "<" t = true
  | InlineLink type href content =>
      type = "link" → lacks ">" (undef_str href) = true ∧ content ≠ [] ∧
        lacks "<" (undef_str (head content ≫= item_text)) = true
  | InlineEmbed _ => True
  end.
Definition plain_prop (o : option string) : Prop :=
  lacks "<" (undef_str o) = true ∧ lacks ">" (undef_str o) = true.
Definition props_plain (p : BlockProps) : Prop :=
  plain_prop (p_url p) ∧ plain_prop (p_name p) ∧ plain_prop (p_width p) ∧ plain_prop (p_size p) ∧
  plain_prop (p_language p) ∧ plain_prop (p_start p).
Inductive block_plain : EditorBlock → Prop :=
| BlockPlain id type props content children :
    props_plain props → Forall item_plain content → (type = "image" → content = []) →
    Forall block_plain children → block_plain (EBlock id type props content children).

Lemma reads_styles t styles : lacks "<" t = true → reads (applyStyles t styles) t.
Proof.
  intros Ht. unfold applyStyles.
  repeat (case_bool_decide; [apply reads_tagged; [done|]|]); by apply reads_text.
Qed.

Lemma item_reads i : item_plain i → ∃ s, convertContentItemToHtml i = Ok s ∧ reads s (item_shown i).
Proof.
  destruct i as [t st|type href content|ref]; cbn [convertContentItemToHtml item_shown item_plain].
  - intros Ht. eexists. split; [done|]. by apply reads_styles.
  - destruct (String.eqb_spec type "link") as [->|]; [|by exists ""].
    intros Hp. destruct (Hp eq_refl) as (Hh & Hc & Ht). destruct content as [|c content]; [done|].
    eexists. split; [done|]. cbn [head mbind option_bind] in *.
    apply (reads_element ("a href=" +:+ quoted (undef_str href)) "a"); [|done|by apply reads_styles].
    unfold quoted. rewrite !lacks_app, Hh. done.
  - intros _. by exists "".
Qed.

Lemma plain_or o d : plain_prop o → lacks ">" d = true → lacks ">" (or_else o d) = true.
Proof. intros [_ Ho] Hd. unfold or_else. by destruct o as [[|c s]|]. Qed.
Lemma plain_quoted o pre : plain_prop o → lacks "<" pre = true → lacks "<" (quoted (pre +:+ undef_str o)) = true.
Proof. intros [Ho _] Hp. unfold quoted. by rewrite !lacks_app, Hp, Ho. Qed.

Lemma reads_end_of s : lacks ">" s = true → String.prefix "<" s = true → reads (s +:+ ">") "".
Proof.
  destruct s as [|c s]; [done|]. rewrite lacks_cons. intros [_ Hs]%andb_prop Hp.
  destruct (ascii_dec "<" c) as [<-|Hc]; [|by rewrite prefix_head_ne in Hp].
  by apply (reads_end s).
Qed.

Lemma own_reads type p inner text :
  props_plain p → (type = "image" → inner = "") → reads inner text →
  reads (block_html type p inner) (own_shown type p text).
Proof.
  intros (Hu & Hn & Hw & Hs & Hl & _) Himg Hi. unfold block_html, own_shown.
  destruct (String.eqb_spec type "heading") as [->|].
  { apply reads_tagged; [|done]. rewrite lacks_app. destruct (p_level p) as [n|]; [|done].
    cbn [fmap option_fmap option_map undef_str default]. unfold undef_str. cbn [from_option id].
    rewrite (lacks_digits ">" (num_to_str n)); [done..|apply num_to_str_digits]. }
  destruct (String.eqb_spec type "paragraph") as [->|]; [by apply reads_tagged|].
  destruct (String.eqb_spec type "image") as [->|].
  { rewrite Himg by done. rewrite <- !str_app_assoc. apply reads_end_of; [|done]. unfold quoted.
    rewrite !lacks_app, (proj2 Hu), (proj2 Hn), (proj2 Hw). done. }
  destruct (String.eqb_spec type "codeBlock") as [->|].
  { apply (reads_tag "pre"); [done|]. apply (reads_tag ("code class=" +:+ quoted _)).
    - unfold quoted. rewrite !lacks_app, plain_or by done. done.
    - rewrite <- (str_app_nil_r text). by apply reads_app. }
  destruct (String.eqb_spec type "video") as [->|].
  { apply reads_tagged; [done|]. apply reads_text. rewrite !lacks_app, (proj1 Hn), (proj1 Hu), plain_quoted by done. done. }
  destruct (String.eqb_spec type "file") as [->|].
  { apply reads_tagged; [done|]. apply reads_text. rewrite !lacks_app, (proj1 Hn), (proj1 Hu), plain_quoted by done. done. }
  destruct (String.eqb_spec type "math") as [->|]; [|done].
  apply reads_tagged; [done|]. apply (reads_app "$$" _ "$$" _); [done|]. by apply reads_app.
Qed.

Lemma children_reads p inner text : props_plain p → reads inner text → reads (children_html p inner) text.
Proof.
  intros (_ & _ & _ & _ & _ & Hst) Hi. unfold children_html, list_type.
  destruct (p_childrenType p) as [t|]; [|done].
  destruct (String.eqb_spec t "ul") as [->|]; [by apply reads_tagged|].
  destruct (String.eqb_spec t "ol") as [->|]; [|done]. cbn [orb].
  apply (reads_element ("ol start=" +:+ quoted _) "ol"); [|done|done].
  unfold quoted. rewrite !lacks_app, plain_or by done. done.
Qed.

(** Left to right, every element converts: so does the list. *)
Lemma map_result_reads {A} (f : A → result string) (g : A → string) l :
  Forall (λ x, ∃ s, f x = Ok s ∧ reads s (g x)) l →
  ∃ ss, map_result f l = Ok ss ∧ Forall2 reads ss (g <$> l).
Proof.
  induction 1 as [|x l (s & Hs & Hr) _ (ss & Hss & Hrs)]; [by exists []|].
  exists (s :: ss). rewrite map_result_cons, Hs. cbn [rbind]. rewrite Hss. split; [done|]. by constructor.
Qed.

Lemma block_html_reads b : block_plain b → ∀ li, ∃ s, convertBlockToHtml li b = Ok s ∧ reads s (block_shown li b).
Proof.
  induction b as [id type p content children IH] using eblock_tree_ind. intros Hb li.
  inversion Hb as [? ? ? ? ? Hp Hc Himg Hk]; subst. cbn [convertBlockToHtml block_shown].
  set (sub := bool_decide (is_Some (list_type p))).
  destruct (map_result_reads (convertBlockToHtml sub) (block_shown sub) children) as (ks & Hks & Hkr).
  { apply Forall_forall. intros k Hin. apply (proj1 (Forall_forall _ _) IH k Hin).
    by apply (proj1 (Forall_forall _ _) Hk). }
  destruct (map_result_reads convertContentItemToHtml item_shown content) as (its & His & Hir).
  { apply Forall_forall. intros i Hin. apply item_reads. by apply (proj1 (Forall_forall _ _) Hc). }
  rewrite Hks. cbn [rbind]. rewrite His. cbn [rbind]. eexists. split; [done|].
  assert (reads (block_html type p (js_join "" its)) (own_shown type p (js_join "" (item_shown <$> content)))) as Ho.
  { apply own_reads; [done| |by apply reads_join]. intros Ht. rewrite (Himg Ht) in His. by injection His as <-. }
  assert (reads (children_html p (js_join LINE ks)) (js_join LINE (block_shown sub <$> children))) as Hch.
  { apply children_reads; [done|]. by apply reads_join. }
  destruct li.
  - apply reads_tagged; [done|]. by apply reads_app.
  - apply reads_app; [done|]. by apply reads_app.
Qed.

(** The HTML of a document whose texts and attributes hold no tag characters is
    made of whole tags, and what stands outside of them is the text of the blocks, in
    order and each on lines of its own. *)
Theorem convertBlocksToHtml_spec blocks :
  Forall block_plain blocks →
  ∃ html, convertBlocksToHtml blocks = Ok html ∧
    reads html (js_join (LINE +:+ LINE) (block_shown false <$> blocks)).
Proof.
  intros Hb. destruct (map_result_reads (convertBlockToHtml false) (block_shown false) blocks) as (l & Hl & Hr).
  { apply Forall_forall. intros b Hin. apply block_html_reads. by apply (proj1 (Forall_forall _ _) Hb). }
  exists (js_join (LINE +:+ LINE) l). unfold convertBlocksToHtml. rewrite Hl. split; [done|].
  by apply reads_join.
Qed.

(** ** Media files *)

Fixpoint all_blocks (b : EditorBlock) : list EditorBlock :=
  match b with EBlock _ _ _ _ children => b :: concat (all_blocks <$> children) end.

(** After the extraction, a block's media is local to the export, or none, or online. *)
Definition exported_block (files : list MediaFile) (b : EditorBlock) : Prop :=
  is_media (e_type b) = true →
  match p_url (e_props b) with
  | Some url => url = "" ∨ is_online url = true ∨ ∃ f, f ∈ files ∧ url = "media/" +:+ mf_filename f
  | None => True
  end.

(** Nothing is put below an online video. *)
Definition childless_online (b : EditorBlock) : Prop :=
  match p_url (e_props b) with
  | Some url => is_media (e_type b) = true → is_online url = true → e_children b = []
  | None => True
  end.

Lemma exported_more files files' b : files ⊆ files' → exported_block files b → exported_block files' b.
Proof.
  intros Hf Hb Hm. specialize (Hb Hm). destruct (p_url (e_props b)); [|done].
  destruct Hb as [?|[?|(f & Hin & ?)]]; [by left | by right; left|]. right. right. exists f. auto.
Qed.

Lemma elem_of_all_blocks b k x : k ∈ e_children b → x ∈ all_blocks k → x ∈ all_blocks b.
Proof.
  destruct b as [i t p c l]. cbn. intros Hk Hx. right. apply list_elem_of_In, in_concat.
  exists (all_blocks k). split; apply list_elem_of_In; [by apply list_elem_of_fmap_2 | done].
Qed.

Lemma extractMedia_local b :
  Forall childless_online (all_blocks b) →
  Forall (exported_block (extractMedia b).2) (all_blocks (extractMedia b).1).
Proof.
  induction b as [i t p c l IH] using eblock_tree_ind. intros Ho.
  assert (∀ files, concat (snd <$> (extractMedia <$> l)) ⊆ files →
            Forall (exported_block files) (concat (all_blocks <$> (fst <$> (extractMedia <$> l))))) as Hkids.
  { intros files Hf. apply Forall_forall. intros x Hx.
    apply list_elem_of_In, in_concat in Hx as (bs & Hbs & Hx). apply list_elem_of_In in Hbs, Hx.
    apply list_elem_of_fmap in Hbs as (b' & -> & Hb'). apply list_elem_of_fmap in Hb' as (r & -> & Hr).
    apply list_elem_of_fmap in Hr as (k & -> & Hk).
    assert (Forall childless_online (all_blocks k)) as Hok.
    { apply Forall_forall. intros y Hy. apply (proj1 (Forall_forall _ _) Ho). by apply (elem_of_all_blocks _ k). }
    pose proof (proj1 (Forall_forall _ _) (proj1 (Forall_forall _ _) IH k Hk Hok) x Hx) as Hex.
    eapply exported_more; [|exact Hex]. intros f Hin. apply Hf.
    apply list_elem_of_In, in_concat. exists (extractMedia k).2.
    split; apply list_elem_of_In; [|done]. by do 2 apply list_elem_of_fmap_2. }
  cbn [all_blocks] in Ho. apply list.Forall_cons in Ho as [Hb _]. unfold childless_online in Hb. cbn in Hb.
  cbn [extractMedia]. destruct (p_url p) as [url|] eqn:Eu.
  - destruct (is_media t && truthy url) eqn:Em.
    + apply andb_prop in Em as [Em Et]. destruct (is_online url) eqn:Eo.
      * specialize (Hb Em eq_refl). subst l. cbn. apply list.Forall_singleton. intros _. cbn. rewrite Eu. auto.
      * cbn [fst snd all_blocks]. constructor.
        -- intros _. cbn. right. right. eexists. split; [left | done].
        -- apply Hkids. set_solver.
    + cbn [fst snd all_blocks]. constructor; [|by apply Hkids]. intros Hm. cbn in *. rewrite Eu.
      rewrite Hm in Em. left. by destruct url.
  - cbn [fst snd all_blocks]. constructor; [|by apply Hkids]. intros _. cbn. by rewrite Eu.
Qed.

(** The exported blocks are self-contained: every picture, video and file of the
    result is one of the media files that are saved with it, unless it is an online
    video or has no address. *)
Theorem extractMediaFiles_local blocks :
  Forall childless_online (concat (all_blocks <$> blocks)) →
  let r := extractMediaFiles blocks in
  Forall (exported_block r.2) (concat (all_blocks <$> r.1)).
Proof.
  intros Ho r. apply Forall_forall. intros x Hx.
  apply list_elem_of_In, in_concat in Hx as (bs & Hbs & Hx). apply list_elem_of_In in Hbs, Hx.
  apply list_elem_of_fmap in Hbs as (b' & -> & Hb'). apply list_elem_of_fmap in Hb' as (r' & -> & Hr).
  apply list_elem_of_fmap in Hr as (b & -> & Hb).
  assert (Forall childless_online (all_blocks b)) as Hob.
  { apply Forall_forall. intros y Hy. apply (proj1 (Forall_forall _ _) Ho).
    apply list_elem_of_In, in_concat. exists (all_blocks b).
    split; apply list_elem_of_In; [by apply list_elem_of_fmap_2 | done]. }
  eapply exported_more; [|exact (proj1 (Forall_forall _ _) (extractMedia_local b Hob) x Hx)].
  intros f Hin. apply list_elem_of_In, in_concat. exists (extractMedia b).2.
  split; apply list_elem_of_In; [|done]. by do 2 apply list_elem_of_fmap_2.
Qed.

(** ** The folder *)

Lemma str_filter_all (p q : ascii → bool) s :
  str_all q s = true → str_all (λ c, p c && q c) (str_filter p s) = true.
Proof.
  induction s as [|c s IH]; [done|]. cbn. intros [Hc Hs]%andb_prop.
  destruct (p c) eqn:E; cbn; [rewrite E, Hc|]; auto.
Qed.

(** The name of the folder has no separator and no white space. *)
Lemma camelTitle_component title :
  str_all (λ c, negb (is_space c) && negb (Ascii.eqb c "/" || Ascii.eqb c "\" || Ascii.eqb c "|"))
    (camelTitle title) = true.
Proof.
  unfold camelTitle. apply str_filter_all. induction (js_join _ _) as [|c s IH]; [done|].
  cbn. rewrite IH, andb_true_r. unfold no_separator.
  destruct (Ascii.eqb c "/" || Ascii.eqb c "\" || Ascii.eqb c "|") eqn:E; [done|]. by rewrite E.
Qed.

(** ** Examples *)

Definition text_item (t : string) (st : HMStyles) : HMInlineContent := InlineText t st.
Definition list_props : BlockProps :=
  {| p_url := None; p_name := None; p_width := None; p_size := None; p_view := None;
     p_text := None; p_language := None; p_textAlignment := None; p_level := Some 2%N;
     p_childrenType := Some "ul"; p_listLevel := None; p_start := None |}.
Definition picture (id : string) : EditorBlock :=
  EBlock id "image" (with_url no_props "ipfs://bafy") [] [].
Definition sample_blocks : list EditorBlock :=
  [EBlock "a" "heading" list_props [text_item "My " []; text_item "list" [Bold; Italic]]
     [EBlock "b" "paragraph" no_props [InlineLink "link" (Some "hm://d/x") [text_item "one" []]] [];
      EBlock "c" "paragraph" no_props [text_item "two" [Underline]] []]; picture "d"].

Example sample_html :
  convertBlocksToHtml sample_blocks =
  Ok ("<h2>My <em><strong>list</strong></em></h2>" +:+ LINE
      +:+ "<ul><li><p><a href=" +:+ quoted "hm://d/x" +:+ ">one</a></p></li>" +:+ LINE
      +:+ "<li><p><u>two</u></p></li></ul>" +:+ LINE +:+ LINE
      +:+ "<img src=" +:+ quoted "ipfs://bafy" +:+ " alt=" +:+ quoted "" +:+ " title="
      +:+ quoted "undefined | width=undefined" +:+ ">" +:+ LINE).
Proof. reflexivity. Qed.

Ltac plain_block :=
  constructor;
  [ repeat split; reflexivity
  | repeat first [apply list.Forall_nil_2 | apply list.Forall_cons_2; [cbn; try (intros _; split; [|split]); done|]]
  | done
  | ].

Lemma convertBlocksToHtml_spec_witness :
  ∃ html, convertBlocksToHtml sample_blocks = Ok html ∧
    reads html (js_join (LINE +:+ LINE) (block_shown false <$> sample_blocks)).
Proof.
  apply (convertBlocksToHtml_spec sample_blocks).
  repeat first [apply list.Forall_nil_2 | apply list.Forall_cons_2]; plain_block;
    repeat first [apply list.Forall_nil_2 | apply list.Forall_cons_2]; plain_block; constructor.
Defined.

Lemma extractMediaFiles_local_witness :
  let r := extractMediaFiles sample_blocks in
  r.2 = [{| mf_url := "ipfs://bafy"; mf_filename := "bafy" |}] ∧
  Forall (exported_block r.2) (concat (all_blocks <$> r.1)).
Proof.
  split; [reflexivity|]. apply (extractMediaFiles_local sample_blocks).
  repeat first [apply list.Forall_nil_2 | apply list.Forall_cons_2; [done|]].
Defined.

(** A picture that is used twice is listed twice, and both replacements meet the first
    use: the first link gets two extensions and the second none. *)
Definition png : Response := Responded 200 (Some "png") 5 None.
Definition used_twice : list MediaFile := (extractMediaFiles [picture "a"; picture "b"]).2.
Example picture_used_twice :
  ex_written (saveMarkdownFile "my notes/2" "![](media/bafy) ![](media/bafy)" (Some "/tmp/x")
                ((λ f, (mf_filename f, png)) <$> used_twice)) =
  Some ("MyNotes-2", "MyNotes-2.md", "![](media/bafy.png.png) ![](media/bafy)").
Proof. reflexivity. Qed.

(** What is below an online video keeps its remote address and is not saved. *)
Example below_online_video :
  (extractMediaFiles [EBlock "v" "video" (with_url no_props "https://youtu.be/x") [] [picture "a"]]).2 = [].
Proof. reflexivity. Qed.

(** A link whose text has several styles keeps only its first part; an inline embed
    leaves nothing. *)
Example link_text_lost :
  convertContentItemToHtml
    (InlineLink "link" (Some "u") [text_item "read " []; text_item "this" [Bold]]) =
  Ok ("<a href=" +:+ quoted "u" +:+ ">read </a>") ∧
  convertContentItemToHtml (InlineEmbed (Some "hm://a/x")) = Ok "".
Proof. split; reflexivity. Qed.
