(* ===== verification/PublicationQuery.v ===== *)
(** * Which publication a window asks for

    [packages/app/models/publication.ts]: the application's counterpart of
    [Variants.getPublicationVariant], made of queries that may still be loading. *)
From S2P Require Import Prelude.
From S2P Require Import JsString.
From S2P Require Import JsObject.
From S2P Require Import EntityId.
From S2P Require Import BlockTypes.
From S2P Require Import Variants.
From S2P Require Import Groups.
From S2P Require Import GroupListFacts.

(** What is loaded: the document's groups ([None] while loading or from an earlier
    document) and the author versions of its timeline. *)
Record Loaded : Type := {
  ld_docGroups : option (list DocumentGroup);
  ld_authorVersions : option (list AuthorVersion);
}.

(** The parameters of [usePublication]; it is disabled without an id. *)
Record PubQuery : Type := { pq_id : option string; pq_version : option string }.

Definition undetermined (documentId : option string) (groupId : string) (pathName : option string) :
    string :=
  "Could not determine version for doc " +:+ quoted (undef_str documentId) +:+ " in group "
  +:+ quoted groupId +:+ " with name " +:+ quoted (undef_str pathName).

Section query.
Context `{UrlApi}.

(** The entry of a group at a path that decides. *)
Definition newest_entry (docGroups : list DocumentGroup) (groupId : string)
    (pathName : option string) : option DocumentGroup :=
  head (js_sort newest_first
    (List.filter (λ d, String.eqb (dg_groupId d) groupId && bool_decide (Some (dg_path d) = pathName))
       docGroups)).

Definition group_query (documentId : option string) (groupId : string) (pathName : option string)
    (docGroups : list DocumentGroup) : result PubQuery :=
  let* groupEntryId :=
    match newest_entry docGroups groupId pathName ≫= dg_rawUrl with
    | Some url => unpackHmId url
    | None => Ok None
    end in
  if otruthy (groupEntryId ≫= u_version)
  then Ok {| pq_id := documentId; pq_version := groupEntryId ≫= u_version |}
  else Err (undetermined documentId groupId pathName).

Definition author_query (documentId : option string) (authors : list (option string))
    (authorVersions : option (list AuthorVersion)) : PubQuery :=
  let chosen := List.filter (λ v, bool_decide (Some (av_author v) ∈ authors)) (default [] authorVersions) in
  match dedup (concat ((λ v, js_split "." (av_version v)) <$> chosen)) with
  | [] => {| pq_id := None; pq_version := None |}
  | activeChanges => {| pq_id := documentId; pq_version := Some (js_join "." activeChanges) |}
  end.

(** [queryDocumentId] and [queryVariantVersion]. *)
Definition variant_query (documentId : option string) (variants : option (list PublicationVariant))
    (ld : Loaded) : result PubQuery :=
  let plain := Ok {| pq_id := documentId; pq_version := None |} in
  match default [] (group_variants <$> variants), default [] (author_variants <$> variants) with
  | _ :: _ :: _, _ => Err "Only one group variant is currently allowed"
  | [_], _ :: _ => Err "Cannot currently specify multiple variant types"
  | [(groupId, pathName)], [] =>
      match ld_docGroups ld with
      | Some docGroups => group_query documentId groupId pathName docGroups
      | None => plain
      end
  | [], [] => plain
  | [], authors => Ok (author_query documentId authors (ld_authorVersions ld))
  end.

(** The query that is made: a requested version comes first. *)
Definition publication_query (documentId versionId : option string)
    (variants : option (list PublicationVariant)) (latest : bool) (ld : Loaded) :
    result PubQuery :=
  let* q := variant_query documentId variants ld in
  Ok {| pq_id := pq_id q;
        pq_version := if otruthy versionId && negb latest then versionId else pq_version q |}.

Record VariantData : Type := {
  vd_publication : option HMPublication;
  vd_variantVersion : option string;
}.

(** The query's answers are [publications]. *)
Definition usePublicationVariant (publications : PubQuery → option HMPublication)
    (documentId versionId : option string) (variants : option (list PublicationVariant))
    (latest : bool) (ld : Loaded) : result VariantData :=
  let* v := variant_query documentId variants ld in
  let* q := publication_query documentId versionId variants latest ld in
  let pub := if otruthy (pq_id q) then publications q else None in
  let author := (pub ≫= p_document) ≫= d_author in
  let defaultVariantVersion :=
    match variants with
    | Some _ => None
    | None => av_version <$> find (λ a, bool_decide (Some (av_author a) = author))
                               (default [] (ld_authorVersions ld))
    end in
  Ok {| vd_publication := pub; vd_variantVersion := js_or (pq_version v) defaultVariantVersion |}.

(** [usePublicationVariantWithDraft]: the first draft is shown in place of the
    publication. *)
Definition shown_document (drafts : option (list HMDocument)) (v : VariantData) :
    option HMDocument * bool :=
  match default [] drafts with
  | d :: _ => (Some d, true)
  | [] => (vd_publication v ≫= p_document, false)
  end.

(** [useProfilePublication]: the root document of an account, as its owner left it. *)
Definition profile_query (accountId rootDocument : option string) (ld : Loaded) : result PubQuery :=
  publication_query rootDocument None
    (Some (if otruthy accountId then [AuthorVariant accountId] else [])) true ld.
End query.

(** * The application asks for what the web site shows

    Once its queries are loaded, the application's choice of a version is that of
    [Variants.getPublicationVariant], except where the two answer a missing version
    differently. *)

Lemma elem_of_group_entries items g p d :
  d ∈ group_entries items g p ↔ d ∈ items ∧ dg_groupId d = g ∧ p = Some (dg_path d).
Proof.
  unfold group_entries. rewrite list_elem_of_In, List.filter_In, <- list_elem_of_In.
  rewrite andb_true_iff, String.eqb_eq, bool_decide_eq_true. naive_solver.
Qed.

Lemma timed_some d : timed d → ∃ t, dg_changeTime d = Some t ∧ entry_time d = Z.of_N t.
Proof. unfold timed, entry_time. destruct (dg_changeTime d) as [t|]; [by eexists|]. cbn. lia. Qed.

(** A sorted list begins with some element, if there is one. *)
Lemma js_sort_head {A} (cmp : A → A → Z) l : head (js_sort cmp l) = None → l = [].
Proof.
  intros Hh. pose proof (js_sort_Permutation cmp l) as HP. destruct (js_sort cmp l); [|done].
  by apply Permutation_nil_l in HP.
Qed.

Lemma newest_entry_in docGroups g p d : newest_entry docGroups g p = Some d → d ∈ docGroups.
Proof.
  unfold newest_entry. fold (group_entries docGroups g p). intros Hd.
  assert (d ∈ group_entries docGroups g p) as Hin; [|by apply elem_of_group_entries in Hin as [? _]].
  rewrite <- (js_sort_Permutation newest_first). destruct (js_sort _ _); [done|]. injection Hd as ->. left.
Qed.

(** The listing's newest entry for a path is the one that the listing by groups and
    paths keeps, when no two entries there have the same time. *)
Lemma newest_entry_listing items g p :
  (∀ x, x ∈ items → dg_changeTime x ≠ Some 0%N ∧ lacks "-" (dg_groupId x) = true) →
  Forall timed (group_entries items g p) →
  (∀ x y, x ∈ group_entries items g p → y ∈ group_entries items g p →
     entry_time x = entry_time y → x = y) →
  newest_entry (useDocumentGroups items) g p = newest_entry items g p.
Proof.
  intros Hok Ht Hu. destruct (useDocumentGroups_newest items Hok) as (_ & Hin & Hall).
  unfold newest_entry. fold (group_entries (useDocumentGroups items) g p) (group_entries items g p).
  set (out := useDocumentGroups items) in *.
  assert (∀ d, d ∈ group_entries out g p → d ∈ group_entries items g p ∧
            ∀ d', d' ∈ group_entries items g p → (entry_time d' <= entry_time d)%Z) as Hnew.
  { intros d (Hd & Hg & Hp)%elem_of_group_entries. destruct (Hin d Hd) as (Hdi & t & Hdt & Hmax).
    split; [by apply elem_of_group_entries|]. intros d' Hd'.
    pose proof (proj1 (list.Forall_forall _ _) Ht d' Hd') as (t' & Ht' & ->)%timed_some.
    apply elem_of_group_entries in Hd' as (Hi' & Hg' & Hp').
    unfold entry_time. rewrite Hdt. cbn. apply N2Z.inj_le, (Hmax d'); [done| |done].
    unfold item_place. f_equal; congruence. }
  assert (Forall timed (group_entries out g p)) as Hto.
  { apply list.Forall_forall. intros d Hd. apply (proj1 (list.Forall_forall _ _) Ht). by apply Hnew. }
  destruct (head (js_sort newest_first (group_entries items g p))) as [d|] eqn:Ed.
  - destruct (newest_head _ _ Ht Ed) as [Hd Hmax].
    destruct (head (js_sort newest_first (group_entries out g p))) as [d'|] eqn:Ed'.
    + destruct (newest_head _ _ Hto Ed') as [Hd' _]. destruct (Hnew _ Hd') as [Hd'i Hmax'].
      f_equal. apply Hu; [done..|]. specialize (Hmax _ Hd'i). specialize (Hmax' _ Hd). lia.
    + apply js_sort_head in Ed'. apply elem_of_group_entries in Hd as Hde. destruct Hde as (Hdi & Hg & Hp).
      assert (item_place d ∈ item_place <$> out) as (x & Hpx & Hx)%list_elem_of_fmap.
      { apply Hall; [done|]. pose proof (proj1 (list.Forall_forall _ _) Ht d Hd) as (t & -> & _)%timed_some. eauto. }
      assert (x ∈ group_entries out g p) as Hxo.
      { apply elem_of_group_entries. unfold item_place in Hpx. injection Hpx as Hgx Hpp. split; [done|]. split; congruence. }
      rewrite Ed' in Hxo. by apply elem_of_nil in Hxo.
  - apply js_sort_head in Ed. destruct (group_entries out g p) as [|d l] eqn:Eo; [done|].
    destruct (Hnew d) as [Hd _]; [left|]. rewrite Ed in Hd. by apply elem_of_nil in Hd.
Qed.

Section equivalence.
Context `{UrlApi} (api : VariantApi HMPublication).

(** What both read of the daemon, and that the application has loaded it.  The groups
    of a document list entries about that document. *)
Record same_data (documentId : string) (items : list DocumentGroup) (versions : list AuthorVersion)
    (ld : Loaded) : Prop := {
  sd_items : listDocumentGroups api documentId = Ok items;
  sd_versions : getEntityTimeline api documentId = Ok versions;
  sd_groups : ld_docGroups ld = Some (useDocumentGroups items);
  sd_timeline : ld_authorVersions ld = Some versions;
  sd_items_ok x : x ∈ items → (∃ t, dg_changeTime x = Some t ∧ t ≠ 0%N) ∧ lacks "-" (dg_groupId x) = true;
  sd_times x y : x ∈ items → y ∈ items → item_place x = item_place y → entry_time x = entry_time y → x = y;
  sd_about x url u : x ∈ items → dg_rawUrl x = Some url → unpackHmId url = Ok (Some u) → u_qid u = documentId;
}.

Lemma same_newest documentId items versions ld g p :
  same_data documentId items versions ld →
  newest_entry (useDocumentGroups items) g p = newest_entry items g p.
Proof.
  intros Hs. apply newest_entry_listing.
  - intros x Hx. destruct (sd_items_ok _ _ _ _ Hs x Hx) as ((t & -> & Hne) & ?). split; [congruence|done].
  - apply list.Forall_forall. intros x (Hx & _)%elem_of_group_entries.
    destruct (sd_items_ok _ _ _ _ Hs x Hx) as ((t & Et & Hne) & _). unfold timed, entry_time. rewrite Et. cbn. lia.
  - intros x y (Hx & Hgx & Hpx)%elem_of_group_entries (Hy & Hgy & Hpy)%elem_of_group_entries.
    apply (sd_times _ _ _ _ Hs); [done..|]. unfold item_place. f_equal; congruence.
Qed.

(** Once everything is loaded, the application chooses the version that the site
    does: the same version of the same document where the site finds one, the same
    rejection of several variants; where the site falls back to the asked or latest
    version of a document that is not in the group any more, the application fails, and
    where the site fails for want of changes, the application asks for nothing. *)
Theorem variant_query_equiv documentId items versions ld variants :
  same_data documentId items versions ld →
  match variant_version api documentId variants with
  | Ok (Some v) => variant_query (Some documentId) variants ld = Ok {| pq_id := Some documentId; pq_version := Some v |}
  | Ok None =>
      match group_variants (default [] variants) with
      | [(g, p)] => variant_query (Some documentId) variants ld = Err (undetermined (Some documentId) g p)
      | _ => variant_query (Some documentId) variants ld = Ok {| pq_id := Some documentId; pq_version := None |}
      end
  | Err m =>
      variant_query (Some documentId) variants ld = Err m ∨
      variant_query (Some documentId) variants ld = Ok {| pq_id := None; pq_version := None |}
  end.
Proof.
  intros Hs.
  assert (default [] (group_variants <$> variants) = group_variants (default [] variants)) as Eg by by destruct variants.
  unfold variant_version, variant_query. rewrite Eg.
  destruct (group_variants (default [] variants)) as [|[g p] [|]], (default [] (author_variants <$> variants)) as [|a authors].
  - done.
  - unfold rmap, author_version, author_query. rewrite (sd_versions _ _ _ _ Hs), (sd_timeline _ _ _ _ Hs). cbn [rbind default].
    change (default [] (Some versions)) with versions.
    destruct (dedup _) as [|c cs]; cbn [rbind]; [by right | done].
  - rewrite (sd_groups _ _ _ _ Hs). unfold group_query. rewrite (same_newest _ _ _ _ g p Hs).
    unfold group_version. rewrite (sd_items _ _ _ _ Hs). cbn [rbind]. fold (newest_entry items g p).
    destruct (newest_entry items g p) as [d|] eqn:Ed; cbn [mbind option_bind rbind otruthy]; [|done].
    pose proof (newest_entry_in _ _ _ _ Ed) as Hd.
    destruct (dg_rawUrl d) as [url|] eqn:Eu; cbn [rbind]; [|done].
    destruct (unpackHmId url) as [[u|]|m] eqn:Euu; cbn [rbind mbind option_bind]; [|done|by left].
    rewrite (sd_about _ _ _ _ Hs d url u Hd Eu Euu), str_eqb_refl. cbn [andb].
    destruct (u_version u) as [v|] eqn:Ev; cbn [otruthy]; [|done]. by destruct (truthy v).
  - by left.
  - by left.
  - by left.
Qed.

(** A requested version is asked for by both, whatever the variants. *)
Lemma requested_version_first documentId versionId v variants ld q :
  v ≠ "" → variant_query documentId variants ld = Ok q → versionId = Some v →
  publication_query documentId versionId variants false ld = Ok {| pq_id := pq_id q; pq_version := Some v |}.
Proof.
  intros Hv Hq ->. unfold publication_query. rewrite Hq. cbn [rbind otruthy]. apply truthy_spec in Hv. by rewrite Hv.
Qed.
End equivalence.

(** While the groups are loading, a group variant is shown as the latest version. *)
Lemma loading_group_variant documentId g p versions :
  let ld := {| ld_docGroups := None; ld_authorVersions := versions |} in
  variant_query documentId (Some [GroupVariant g p]) ld = Ok {| pq_id := documentId; pq_version := None |}.
Proof. done. Qed.

(** ** Examples *)

Definition sample_item (path : string) (t : N) (v : string) : DocumentGroup :=
  {| dg_groupId := "hm://g/a"; dg_path := path; dg_changeTime := Some t;
     dg_rawUrl := Some ("hm://d/x?v=" +:+ v) |}.
Definition sample_items : list DocumentGroup :=
  [sample_item "p" 5 "one"; sample_item "q" 5 "two"; sample_item "p" 9 "three"].
Definition sample_versions : list AuthorVersion :=
  [{| av_author := "alice"; av_version := "c1.c2" |}; {| av_author := "bob"; av_version := "c2" |}].
Definition sample_api : VariantApi HMPublication := {|
  listDocumentGroups _ := Ok sample_items;
  getEntityTimeline _ := Ok sample_versions;
  variant_publication d v := Err "not found";
|}.
Definition sample_loaded : Loaded :=
  {| ld_docGroups := Some (useDocumentGroups sample_items); ld_authorVersions := Some sample_versions |}.

Lemma sample_same_data : same_data sample_api "hm://d/x" sample_items sample_versions sample_loaded.
Proof.
  split; [done..| | |].
  - intros x Hx. repeat (apply elem_of_cons in Hx as [->|Hx]; [split; [by eexists|done]|]). by apply elem_of_nil in Hx.
  - intros x y Hx Hy. repeat (apply elem_of_cons in Hx as [->|Hx];
      [repeat (apply elem_of_cons in Hy as [->|Hy]; [done|]); by apply elem_of_nil in Hy|]). by apply elem_of_nil in Hx.
  - intros x url u Hx. repeat (apply elem_of_cons in Hx as [->|Hx]; [intros [= <-]; vm_compute; by intros [= <-]|]).
    by apply elem_of_nil in Hx.
Qed.

Lemma variant_query_equiv_witness :
  variant_query (Some "hm://d/x") (Some [GroupVariant "hm://g/a" (Some "p")]) sample_loaded =
    Ok {| pq_id := Some "hm://d/x"; pq_version := Some "three" |} ∧
  variant_query (Some "hm://d/x") (Some [GroupVariant "hm://g/a" (Some "r")]) sample_loaded =
    Err (undetermined (Some "hm://d/x") "hm://g/a" (Some "r")) ∧
  variant_query (Some "hm://d/x") (Some [AuthorVariant (Some "bob")]) sample_loaded =
    Ok {| pq_id := Some "hm://d/x"; pq_version := Some "c2" |}.
Proof.
  split; [|split].
  - exact (variant_query_equiv sample_api _ _ _ _ (Some [GroupVariant "hm://g/a" (Some "p")]) sample_same_data).
  - exact (variant_query_equiv sample_api _ _ _ _ (Some [GroupVariant "hm://g/a" (Some "r")]) sample_same_data).
  - exact (variant_query_equiv sample_api _ _ _ _ (Some [AuthorVariant (Some "bob")]) sample_same_data).
Defined.
