(* ===== verification/Entities.v ===== *)
(** * Entities of routes, favorites and search results

    [packages/app/models/entities.ts], [favorites.ts], [search.ts],
    [content-graph.ts] and [recents.ts].  Queries are functions from their parameters to
    what has been loaded. *)
From S2P Require Import Prelude.
From S2P Require Import JsString.
From S2P Require Import JsObject.
From S2P Require Import EntityId.
From S2P Require Import BlockTypes.
From S2P Require Import Routes.

(** ** The entities on the way to a route *)

Definition context_routes (context : option (list BaseEntityRoute)) (r : BaseEntityRoute) :
    list BaseEntityRoute :=
  match context with
  | Some c => c ++ [r]
  | None => [r]
  end.

Definition entity_routes (route : EntityRoute) : list BaseEntityRoute :=
  match route with
  | PublicationRoute p (Some context) => context_routes (Some context) (BasePublication p)
  | PublicationRoute p None =>
      match head (default [] (rp_variants p)) with
      | Some (GroupVariant groupId _) => [BaseGroup (group_route groupId None); BasePublication p]
      | _ => [BasePublication p]
      end
  | GroupRoute g context _ => context_routes context (BaseGroup g)
  | AccountRoute a context _ => context_routes context (BaseAccount a)
  end.

Definition getEntityRoutes (route : NavRoute) : list BaseEntityRoute :=
  match route with
  | EntityNav r => entity_routes r
  | DraftRoute d contextRoute =>
      match contextRoute with
      | Some r => tail (entity_routes r)
      | None => []
      end ++ [BaseDraft d]
  | _ => []
  end.

(** ** Loading them *)

Record AccountInfo : Type := { ac_id : string; ac_rootDocument : option string }.
Record GroupInfo : Type := { gr_id : string; gr_title : option string }.

Inductive EntityContent : Type :=
| GroupEntity (group : GroupInfo) (document : option HMDocument)
| AccountEntity (account : AccountInfo) (document : option HMDocument)
| DocumentEntity (publication : HMPublication) (document : option HMDocument)
| DraftEntity (document : HMDocument) (homeGroup : option GroupInfo).

Section load.
Context `{UrlApi}.
Variable group_data : string → option string → option GroupInfo.
Variable group_content : string → option string → option (obj string).
Variable pub_data : string → option string → option HMPublication.
Variable account_data : string → option AccountInfo.
Variable draft_data : string → option HMDocument.

(** A publication query is off without an id. *)
Definition pub_query (id version : option string) : option HMPublication :=
  match or_null id with
  | Some i => pub_data i version
  | None => None
  end.

(** The front document of a group. *)
Definition group_front (content : option (obj string)) : result (option HMPublication) :=
  match or_null (content ≫= λ c, oget c "/") with
  | Some url =>
      let* id := unpackHmId url in
      Ok (pub_query (u_qid <$> id) (or_null (id ≫= u_version)))
  | None => Ok None
  end.

Definition is_group_route (r : BaseEntityRoute) : option BaseGroupRoute :=
  match r with BaseGroup g => Some g | _ => None end.
Definition is_account_route (r : BaseEntityRoute) : option BaseAccountRoute :=
  match r with BaseAccount a => Some a | _ => None end.
Definition is_pub_route (r : BaseEntityRoute) : option BasePublicationRoute :=
  match r with BasePublication p => Some p | _ => None end.
Definition is_draft_route (r : BaseEntityRoute) : option BaseDraftRoute :=
  match r with BaseDraft d => Some d | _ => None end.

(** The place of the route at [i] among the routes of its kind ([findIndex] by
    identity; the routes are different objects). *)
Definition kind_index {A} (kind : BaseEntityRoute → option A) (routes : list BaseEntityRoute) (i : nat) : nat :=
  length (omap kind (take i routes)).

(** [useEntitiesContent]: the queries are made kind by kind, and each route takes the
    one at its place among its kind; the drafts' queries leave out drafts without an
    id. *)
Definition useEntitiesContent (routes : list BaseEntityRoute) :
    result (list (BaseEntityRoute * option EntityContent)) :=
  let groups := omap is_group_route routes in
  let accounts := omap is_account_route routes in
  let publications := omap is_pub_route routes in
  let drafts := omap is_draft_route routes in
  let groupQueries := (λ g, group_data (rg_groupId g) (rg_version g)) <$> groups in
  let accountQueries := (λ a, account_data (ra_accountId a)) <$> accounts in
  let profileDocs := (λ a, pub_query (a ≫= ac_rootDocument) None) <$> accountQueries in
  let pubQueries := (λ p, pub_query (Some (rp_documentId p)) (rp_versionId p)) <$> publications in
  let* groupFronts := map_result (λ g, group_front (group_content (rg_groupId g) (rg_version g))) groups in
  let draftQueries := draft_data <$> omap (λ d, or_null (rd_draftId d)) drafts in
  let draftGroups := (λ g, group_data g None) <$>
    omap (λ d, or_null (gv_groupId <$> rd_variant d)) drafts in
  Ok (imap (λ i route, (route,
    match route with
    | BaseGroup _ =>
        let k := kind_index is_group_route routes i in
        g ← mjoin (groupQueries !! k);
        Some (GroupEntity g (mjoin (groupFronts !! k) ≫= p_document))
    | BaseAccount _ =>
        let k := kind_index is_account_route routes i in
        a ← mjoin (accountQueries !! k);
        Some (AccountEntity a (mjoin (profileDocs !! k) ≫= p_document))
    | BasePublication _ =>
        let k := kind_index is_pub_route routes i in
        p ← mjoin (pubQueries !! k);
        Some (DocumentEntity p (p_document p))
    | BaseDraft d =>
        let k := kind_index is_draft_route routes i in
        doc ← mjoin (draftQueries !! k);
        Some (DraftEntity doc
          (g ← or_null (gv_groupId <$> rd_variant d);
           mjoin (find (λ q : option GroupInfo, bool_decide (gr_id <$> q = Some g)) draftGroups)))
    end)) routes).

(** [useEntityContent] when nothing is loading: the variant query's answer is
    [variant_pub]. *)
Definition useEntityContent (variant_pub : UnpackedHypermediaId → option HMPublication)
    (id : UnpackedHypermediaId) : result (option EntityContent) :=
  if String.eqb (u_type id) "a" then
    Ok (a ← account_data (undef_str (u_eid id));
        Some (AccountEntity a (pub_query (ac_rootDocument a) None ≫= p_document)))
  else if String.eqb (u_type id) "g" then
    let* front := group_front (group_content (u_qid id) (or_null (u_version id))) in
    Ok (g ← group_data (u_qid id) (or_null (u_version id));
        Some (GroupEntity g (front ≫= p_document)))
  else if String.eqb (u_type id) "d" then
    Ok (p ← variant_pub id; Some (DocumentEntity p (p_document p)))
  else Ok None.
End load.

(** ** Favorites *)

Inductive FavoriteItem : Type :=
| FavoriteGroup (id : UnpackedHypermediaId) (url : string) (group : GroupInfo)
| FavoriteDocument (id : UnpackedHypermediaId) (url : string)
| FavoriteAccount (id : UnpackedHypermediaId) (url : string) (account : AccountInfo).
Definition favorite_url (f : FavoriteItem) : string :=
  match f with FavoriteGroup _ u _ | FavoriteDocument _ u | FavoriteAccount _ u _ => u end.

Section favorites.
Context `{UrlApi}.
Variable group_data : string → option string → option GroupInfo.
Variable account_data : string → option AccountInfo.

Definition is_whole_group (id : UnpackedHypermediaId) : bool :=
  String.eqb (u_type id) "g" && bool_decide (u_groupPathName id = None).

(** What one stored favorite becomes, given the answers of all queries. *)
Definition favorite_item (groups : list (option GroupInfo)) (accounts : list (option AccountInfo))
    (url : string) (id : option UnpackedHypermediaId) : list FavoriteItem :=
  match id with
  | None => []
  | Some id =>
      if negb (truthy url) then []
      else if is_whole_group id then
        match mjoin (find (λ q : option GroupInfo, bool_decide (gr_id <$> q = Some (u_qid id))) groups) with
        | Some g => [FavoriteGroup id url g]
        | None => []
        end
      else if String.eqb (u_type id) "a" then
        match mjoin (find (λ q : option AccountInfo, bool_decide (ac_id <$> q = u_eid id)) accounts) with
        | Some a => [FavoriteAccount id url a]
        | None => []
        end
      else if String.eqb (u_type id) "d" then [FavoriteDocument id url]
      else []
  end.

Definition useFavorites (urls : list string) : result (list FavoriteItem) :=
  let* unpackedIds := map_result unpackHmId urls in
  let groups := (λ id, group_data (u_qid id) (or_null (u_version id))) <$>
    List.filter is_whole_group (omap id unpackedIds) in
  let accounts := (λ id, account_data (undef_str (u_eid id))) <$>
    List.filter (λ id, String.eqb (u_type id) "a") (omap id unpackedIds) in
  Ok (concat (zip_with (favorite_item groups accounts) urls unpackedIds)).

Definition isFavorited (items : list FavoriteItem) (url : option string) : bool :=
  match or_null url with
  | None => false
  | Some u => existsb (λ f, String.eqb (favorite_url f) u) items
  end.
End favorites.

(** ** Search *)

Record Entity : Type := { en_id : string; en_title : string }.

Definition hidden_title : string := "(HIDDEN) Group Navigation".
Definition useSearch (entities : list Entity) : list Entity :=
  List.filter (λ e, negb (String.eqb (en_title e) hidden_title)) entities.

Record SearchItem : Type := { si_title : string; si_subtitle : string; si_value : string }.
Record GroupResults : Type := {
  gs_accounts : list SearchItem;
  gs_groups : list SearchItem;
  gs_documents : list SearchItem;
}.

(** One step of the [reduce] of [useInlineMentions]. *)
Definition add_mention (acc : GroupResults) (e : Entity) : GroupResults :=
  let item subtitle := {| si_title := en_title e; si_subtitle := subtitle; si_value := en_id e |} in
  if js_startsWith "hm://a/" (en_id e) then
    {| gs_accounts := gs_accounts acc ++ [item "Account"]; gs_groups := gs_groups acc;
       gs_documents := gs_documents acc |}
  else if js_startsWith "hm://g/" (en_id e) then
    {| gs_accounts := gs_accounts acc; gs_groups := gs_groups acc ++ [item "Group"];
       gs_documents := gs_documents acc |}
  else if js_startsWith "hm://d/" (en_id e) then
    {| gs_accounts := gs_accounts acc; gs_groups := gs_groups acc;
       gs_documents := gs_documents acc ++ [item "Document"] |}
  else acc.
Definition inline_mentions (entities : list Entity) : GroupResults :=
  foldl add_mention {| gs_accounts := []; gs_groups := []; gs_documents := [] |} entities.

(** The comparator of [_useSearchMentions]; [None] is [NaN]. *)
Definition prefix_order (id : string) : option Z :=
  let p := js_substring0 id 7 in
  if String.eqb p "hm://a/" then Some 0%Z
  else if String.eqb p "hm://g/" then Some 1%Z
  else if String.eqb p "hm://d/" then Some 2%Z
  else None.
Definition mention_order (a b : Entity) : Z :=
  match prefix_order (en_id a), prefix_order (en_id b) with
  | Some x, Some y => (x - y)%Z
  | _, _ => 0%Z
  end.
Definition search_mentions (entities : list Entity) : list Entity := js_sort mention_order entities.

Section ids.
Context `{UrlApi}.

Definition transformResultsToItems (results : list Entity) : result (list SearchItem) :=
  let* l := map_result (λ e,
    let* id := unpackHmId (en_id e) in
    Ok ((λ u : UnpackedHypermediaId,
           {| si_title := en_title e; si_subtitle := undef_str (oget HYPERMEDIA_ENTITY_TYPES (u_type u));
              si_value := en_id e |}) <$> id)) results in
  Ok (omap id l).

(** [useEntityMentions]: the sources of the mentions, without groups. *)
Definition keep_mention (source : string) : result bool :=
  let* id := unpackHmId source in
  Ok (negb (bool_decide (u_type <$> id = Some "g"))).

(** [useRecents]: the other entities that were visited. *)
Definition useRecents (route : NavRoute) (recent_urls : list string) : result (list string) :=
  let* currentRouteUrl := getRecentsRouteEntityUrl route in
  Ok (List.filter (λ u, negb (bool_decide (Some u = currentRouteUrl))) recent_urls).
End ids.

(** * Correctness of entities, favorites and search results *)

(** ** The way to a route *)

(** The way to an entity's route ends with the entity. *)
Lemma entity_routes_last route r :
  getThisRouteContext route = Some r → last (getEntityRoutes route) = Some r.
Proof.
  destruct route as [| | | |e| | | | | | |]; try done. intros Hr.
  assert (∀ c, last (context_routes c r) = Some r) as Hc.
  { intros [c|]; [apply last_snoc | done]. }
  destruct e as [p [c|]|g c t|a c t]; injection Hr as <-; cbn [getEntityRoutes entity_routes]; try apply Hc.
  by destruct (head _) as [[]|].
Qed.

Definition open_route (r : BaseEntityRoute) (context : option (list BaseEntityRoute)) : option NavRoute :=
  match r with
  | BasePublication p => Some (EntityNav (PublicationRoute p context))
  | BaseGroup g => Some (EntityNav (GroupRoute g context None))
  | BaseAccount a => Some (EntityNav (AccountRoute a context None))
  | BaseDraft _ => None
  end.

(** A publication that was opened outside of any context and shows a group's variant
    has its group put in front, which its context does not record. *)
Definition group_in_front (route : NavRoute) : Prop :=
  match route with
  | EntityNav (PublicationRoute p None) =>
      match head (default [] (rp_variants p)) with Some (GroupVariant _ _) => True | _ => False end
  | _ => False
  end.

(** Opening an entity in the context of a route puts it at the end of the way to that
    route. *)
Lemma way_grows route r here next :
  getThisRouteContext route = Some here → ¬ group_in_front route →
  open_route r (Some (getRouteContext route None)) = Some next →
  getEntityRoutes next = getEntityRoutes route ++ [r].
Proof.
  intros Hh Hg Hn. assert (getEntityRoutes next = getRouteContext route None ++ [r]) as ->.
  { destruct r; try done; by injection Hn as <-. }
  f_equal. unfold getRouteContext. rewrite Hh. cbn [otruthy opt_list].
  destruct route as [| | | |e| | | | | | |]; try done.
  destruct e as [p [c|]|g [c|] t|a [c|] t]; injection Hh as <-; try done. cbn in *.
  destruct (head _) as [[]|]; [by destruct Hg | done | done].
Qed.

(** ** Loading the entities of routes *)

Lemma omap_take_lookup {A B} (f : A → option B) l i x y :
  l !! i = Some x → f x = Some y → omap f l !! length (omap f (take i l)) = Some y.
Proof.
  revert i. induction l as [|z l IH]; intros i Hi Hy; [done|]. destruct i as [|i].
  - injection Hi as ->. cbn. by rewrite Hy.
  - cbn [lookup list_lookup] in Hi. cbn [take omap list_omap]. destruct (f z); cbn; by apply IH.
Qed.
Lemma omap_length_full {A B} (f : A → option B) l :
  (∀ x, x ∈ l → is_Some (f x)) → length (omap f l) = length l.
Proof.
  induction l as [|x l IH]; intros Hl; [done|]. destruct (Hl x) as [y Hy]; [left|].
  cbn. rewrite Hy. cbn. f_equal. apply IH. intros z Hz. apply Hl. by right.
Qed.

Section load.
Context `{UrlApi}.
Variable group_data : string → option string → option GroupInfo.
Variable group_content : string → option string → option (obj string).
Variable pub_data : string → option string → option HMPublication.
Variable account_data : string → option AccountInfo.
Variable draft_data : string → option HMDocument.

(** The groups answer under their own ids. *)
Hypothesis group_ids : ∀ id v g, group_data id v = Some g → gr_id g = id.

(** What a route shows by itself; a group's front document is [front]. *)
Definition own_content (fronts : BaseGroupRoute → option HMPublication) (r : BaseEntityRoute) :
    option EntityContent :=
  match r with
  | BaseGroup g =>
      info ← group_data (rg_groupId g) (rg_version g);
      Some (GroupEntity info (fronts g ≫= p_document))
  | BaseAccount a =>
      info ← account_data (ra_accountId a);
      Some (AccountEntity info (pub_query pub_data (ac_rootDocument info) None ≫= p_document))
  | BasePublication p =>
      pub ← pub_query pub_data (Some (rp_documentId p)) (rp_versionId p);
      Some (DocumentEntity pub (p_document pub))
  | BaseDraft d =>
      i ← or_null (rd_draftId d); doc ← draft_data i;
      Some (DraftEntity doc (g ← or_null (gv_groupId <$> rd_variant d); group_data g None))
  end.

Lemma find_home_group g ids :
  g ∈ ids →
  mjoin (find (λ q : option GroupInfo, bool_decide (gr_id <$> q = Some g)) ((λ i, group_data i None) <$> ids))
  = group_data g None.
Proof.
  induction ids as [|i ids IH]; intros Hg; [by apply elem_of_nil in Hg|]. cbn [fmap list_fmap find].
  case_bool_decide as Hi.
  - destruct (group_data i None) as [x|] eqn:E; [|done]. cbn in Hi. injection Hi as Hi.
    apply group_ids in E as Hx. cbn. by rewrite <- Hi, Hx.
  - apply elem_of_cons in Hg as [->|Hg]; [|by apply IH].
    destruct (group_data i None) as [x|] eqn:E.
    + destruct Hi. cbn. f_equal. by eapply group_ids.
    + (* no answer: none of the answers has this id *)
      clear IH Hi. induction ids as [|j ids IH]; [done|]. cbn [fmap list_fmap find].
      case_bool_decide as Hj; [|exact IH]. destruct (group_data j None) as [y|] eqn:Ej; [|done].
      cbn in Hj. injection Hj as Hj. apply group_ids in Ej as Hy. congruence.
Qed.

(** When every draft among the routes has an id, each route is shown with what was
    loaded for it: the query at its place among its kind is its own. *)
Theorem useEntitiesContent_spec routes :
  (∀ d, BaseDraft d ∈ routes → otruthy (rd_draftId d) = true) →
  (∀ g, BaseGroup g ∈ routes → is_ok (group_front pub_data (group_content (rg_groupId g) (rg_version g))) = true) →
  ∃ fronts, useEntitiesContent group_data group_content pub_data account_data draft_data routes =
      Ok ((λ r, (r, own_content fronts r)) <$> routes) ∧
    ∀ g, BaseGroup g ∈ routes →
      group_front pub_data (group_content (rg_groupId g) (rg_version g)) = Ok (fronts g).
Proof.
  intros Hd Hg.
  set (front g := group_front pub_data (group_content (rg_groupId g) (rg_version g))).
  set (fronts g := match front g with Ok p => p | Err _ => None end).
  assert (∀ g, BaseGroup g ∈ routes → front g = Ok (fronts g)) as Hfront.
  { intros g Hin. specialize (Hg g Hin). unfold fronts. fold (front g) in Hg. by destruct (front g). }
  exists fronts. split; [|exact Hfront]. unfold useEntitiesContent.
  assert (map_result front (omap is_group_route routes) = Ok (fronts <$> omap is_group_route routes)) as Hmap.
  { assert (∀ g, g ∈ omap is_group_route routes → front g = Ok (fronts g)) as Hall.
    { intros g (r & Hr & Hk)%list_elem_of_omap. apply Hfront. by destruct r; try done; injection Hk as ->. }
    induction (omap is_group_route routes) as [|g l IH]; [done|]. rewrite map_result_cons, Hall by left.
    cbn [rbind]. rewrite IH; [done|]. intros x Hx. apply Hall. by right. }
  fold front. rewrite Hmap. cbn [rbind]. f_equal.
  rewrite <- (imap_const (λ r, (r, own_content fronts r))). apply imap_ext. intros i r Hi.
  cbn. f_equal. unfold kind_index. destruct r as [p|g|a|d]; cbn [own_content].
  - rewrite list_lookup_fmap, (omap_take_lookup is_pub_route _ _ _ p Hi) by done. done.
  - rewrite !list_lookup_fmap, (omap_take_lookup is_group_route _ _ _ g Hi) by done. done.
  - rewrite !list_lookup_fmap, (omap_take_lookup is_account_route _ _ _ a Hi) by done. cbn.
    by destruct (account_data (ra_accountId a)).
  - set (drafts := omap is_draft_route routes).
    assert (∀ d', d' ∈ drafts → otruthy (rd_draftId d') = true) as Hall.
    { intros d' (r & Hr & Hk)%list_elem_of_omap. apply Hd. by destruct r; try done; injection Hk as ->. }
    assert (drafts !! length (omap is_draft_route (take i routes)) = Some d) as Hdi
      by by apply (omap_take_lookup is_draft_route _ _ _ d Hi).
    set (k := length (omap is_draft_route (take i routes))) in *.
    assert (omap (λ d, or_null (rd_draftId d)) drafts !! k = or_null (rd_draftId d)) as Hk.
    { clearbody drafts k. clear -Hall Hdi. revert k Hdi. induction drafts as [|x l IH]; intros k Hk; [done|].
      assert (is_Some (or_null (rd_draftId x))) as [y Hy].
      { specialize (Hall x ltac:(left)). unfold or_null, js_or. rewrite Hall.
        destruct (rd_draftId x); [by eexists | done]. }
      cbn. rewrite Hy. destruct k as [|k]; cbn in *.
      - injection Hk as ->. by rewrite Hy.
      - apply IH; [|done]. intros z Hz. apply Hall. by right. }
    rewrite list_lookup_fmap, Hk. destruct (or_null (rd_draftId d)) as [id|]; [|done]. cbn.
    destruct (draft_data id) as [doc|]; [|done]. cbn. do 2 f_equal.
    destruct (or_null (gv_groupId <$> rd_variant d)) as [g|] eqn:Eg; [|done]. cbn.
    apply find_home_group. apply list_elem_of_omap. exists d. split; [|done].
    by apply (list_elem_of_lookup_2 _ k).
Qed.
End load.

(** ** Favorites *)

(** A favorited document is always known to be favorited. *)
Lemma favorite_document `{UrlApi} group_data account_data urls items url id :
  useFavorites group_data account_data urls = Ok items →
  url ∈ urls → url ≠ "" → unpackHmId url = Ok (Some id) → u_type id = "d" →
  isFavorited items (Some url) = true.
Proof.
  unfold useFavorites. destruct (map_result unpackHmId urls) as [ids|] eqn:E; [|done]. cbn [rbind].
  intros [= <-] Hin Hne Hid Ht. apply map_result_ok in E. unfold isFavorited.
  assert (or_null (Some url) = Some url) as ->.
  { unfold or_null, js_or. cbn [otruthy]. apply truthy_spec in Hne. by rewrite Hne. }
  apply existsb_exists. exists (FavoriteDocument id url). split; [|apply str_eqb_refl].
  apply in_concat. set (f := favorite_item _ _). exists (f url (Some id)).
  assert (f url (Some id) = [FavoriteDocument id url]) as Hf.
  { unfold f, favorite_item. apply truthy_spec in Hne. rewrite Hne. cbn [negb].
    unfold is_whole_group. by rewrite Ht. }
  rewrite Hf. split; [|by left]. rewrite <- Hf. clear Hf. clearbody f. apply list_elem_of_In.
  induction E as [|u i us js Hu _ IH]; [by apply elem_of_nil in Hin|]. cbn [zip_with].
  apply elem_of_cons in Hin as [->|Hin]; [|right; by apply IH].
  rewrite Hu in Hid. injection Hid as ->. left.
Qed.

(** ** Search *)

(** The mentions are the results of each kind, in order. *)
Lemma inline_mentions_spec entities :
  let r := inline_mentions entities in
  (si_value <$> gs_accounts r) = en_id <$> List.filter (λ e, js_startsWith "hm://a/" (en_id e)) entities ∧
  (si_value <$> gs_groups r) = en_id <$> List.filter (λ e, js_startsWith "hm://g/" (en_id e)) entities ∧
  (si_value <$> gs_documents r) = en_id <$> List.filter (λ e, js_startsWith "hm://d/" (en_id e)) entities.
Proof.
  assert (∀ c d s, c ≠ d → js_startsWith ("hm://" +:+ String c "/") s = true →
            js_startsWith ("hm://" +:+ String d "/") s = false) as Hex.
  { intros c d s Hne (t & ->)%prefix_iff. unfold js_startsWith. cbn.
    by destruct (ascii_dec d c); [congruence|]. }
  unfold inline_mentions. induction entities as [|e l IH] using rev_ind; [done|].
  rewrite foldl_snoc, !List.filter_app. cbn zeta in IH. destruct IH as (Ha & Hg & Hd).
  set (r := foldl add_mention _ l) in *. clearbody r.
  unfold add_mention. cbn [List.filter].
  destruct (js_startsWith "hm://a/" (en_id e)) eqn:Ea.
  - rewrite (Hex "a"%char "g"%char), (Hex "a"%char "d"%char) by done. cbn [gs_accounts gs_groups gs_documents].
    rewrite (fmap_app si_value), !(fmap_app en_id), !app_nil_r, <- Ha. done.
  - destruct (js_startsWith "hm://g/" (en_id e)) eqn:Eg.
    + rewrite (Hex "g"%char "d"%char) by done. cbn [gs_accounts gs_groups gs_documents].
      rewrite (fmap_app si_value), !(fmap_app en_id), !app_nil_r, <- Hg. done.
    + destruct (js_startsWith "hm://d/" (en_id e)); cbn [gs_accounts gs_groups gs_documents];
        rewrite ?(fmap_app si_value), ?(fmap_app en_id), ?app_nil_r, <- ?Hd; done.
Qed.

(** ** Examples *)

Definition sample_doc (id : string) : HMDocument :=
  {| d_title := None; d_id := Some id; d_author := None; d_editors := []; d_children := None;
     d_createTime := None; d_updateTime := None; d_publishTime := None; d_version := None;
     d_previousVersion := None |}.
Definition sample_draft (id : option string) : BaseDraftRoute :=
  {| rd_draftId := id; rd_variant := None; rd_isProfileDocument := None |}.
Definition sample_routes : list BaseEntityRoute :=
  [BaseGroup (group_route "hm://g/a" None); BaseDraft (sample_draft (Some "one"));
   BaseDraft (sample_draft (Some "two"))].

Lemma useEntitiesContent_spec_witness :
  let groups id (_ : option string) := Some {| gr_id := id; gr_title := None |} in
  ∃ fronts, useEntitiesContent groups (λ _ _, None) (λ _ _, None) (λ _, None) (λ i, Some (sample_doc i)) sample_routes =
      Ok ((λ r, (r, own_content groups (λ _ _, None) (λ _, None) (λ i, Some (sample_doc i)) fronts r)) <$> sample_routes) ∧
    ∀ g, BaseGroup g ∈ sample_routes → group_front (λ _ _, None) None = Ok (fronts g).
Proof.
  apply (useEntitiesContent_spec _ (λ _ _, None) (λ _ _, None) (λ _, None) (λ i, Some (sample_doc i))).
  - by intros id v g [= <-].
  - intros d Hd. repeat (apply elem_of_cons in Hd as [Hd|Hd]; [by try injection Hd as ->|]). by apply elem_of_nil in Hd.
  - done.
Defined.

(** A draft without an id shifts the drafts after it: the route of draft [two] is shown
    without its document, and the one without an id with a wrong one. *)
Example draft_without_id :
  let r := useEntitiesContent (λ _ _, None) (λ _ _, None) (λ _ _, None) (λ _, None) (λ i, Some (sample_doc i))
    [BaseDraft (sample_draft None); BaseDraft (sample_draft (Some "two"))] in
  match r with
  | Ok l => (λ e : BaseEntityRoute * option EntityContent,
              match e.2 with Some (DraftEntity doc _) => d_id doc | _ => None end) <$> l
  | Err _ => []
  end = [Some "two"; None].
Proof. reflexivity. Qed.
