(* ===== verification/Feed.v ===== *)
(** * The activity feed

    [packages/app/models/feed.ts]: the events of the feed, from which an update of a
    document is left out when an update of a group that published it follows within ten
    minutes. *)
From S2P Require Import Prelude.
From S2P Require Import JsString.
From S2P Require Import JsObject.
From S2P Require Import EntityId.

(** A new blob; [None] for the other kinds of events. *)
Record NewBlob : Type := { nb_cid : string; nb_blobType : string; nb_resource : string }.
(** [eventTime.seconds] *)
Record Event : Type := { ev_newBlob : option NewBlob; ev_time : option Z }.
#[export] Instance NewBlob_eq_dec : EqDecision NewBlob.
Proof. solve_decision. Defined.
#[export] Instance Event_eq_dec : EqDecision Event.
Proof. solve_decision. Defined.

(** The blob of a group update: the content it patches, if it is a change that does. *)
Definition GroupPatch : Type := option (obj string).

Definition feedEventId (e : option Event) : option string :=
  match e with
  | None => Some "empty"
  | Some e => nb_cid <$> ev_newBlob e
  end.

(** [hasNewItems], given the id of the latest event when it is known. *)
Definition hasNewItems (firstEventId latest : option string) : bool :=
  negb (bool_decide (firstEventId = Some "empty")) && otruthy latest
  && negb (bool_decide (firstEventId = latest)).

Section feed.
Context `{UrlApi}.

(** The parameters of the query for a resource: the users or the resource. *)
Definition feedFilterFromId (id : option string) :
    result (option (list string) * option (list string)) :=
  let* hmId := match or_null id with Some i => unpackHmId i | None => Ok None end in
  let is_account := bool_decide (u_type <$> hmId = Some "a") in
  Ok (match or_null id with
      | Some i => if is_account then None else Some [i]
      | None => None
      end,
      match hmId with
      | Some u => if is_account then Some [undef_str (u_eid u)] else None
      | None => None
      end).

(** [useResourceFeed]: no key delegations. *)
Definition is_key_delegation (e : Event) : bool :=
  bool_decide (nb_blobType <$> ev_newBlob e = Some "KeyDelegation").
Definition useResourceFeed (allEvents : list Event) : list Event :=
  List.filter (λ e, negb (is_key_delegation e)) allEvents.

(** The maps of the first loop: the type and id of the entity that each change
    updates, and the group updates with their times. *)
Record Updates : Type := {
  up_groupCids : list string;
  up_types : obj (option string);
  up_eids : obj (option string);
  up_groupTimes : obj (option Z);
}.

Definition note_event (u : Updates) (e : Event) : result Updates :=
  match ev_newBlob e with
  | Some b =>
      if String.eqb (nb_blobType b) "Change" then
        let* id := unpackHmId (nb_resource b) in
        let type := u_type <$> id in
        let is_group := bool_decide (type = Some "g") in
        Ok {| up_groupCids := if is_group then up_groupCids u ++ [nb_cid b] else up_groupCids u;
              up_types := oset (up_types u) (nb_cid b) type;
              up_eids := oset (up_eids u) (nb_cid b) (id ≫= u_eid);
              up_groupTimes := if is_group then oset (up_groupTimes u) (nb_cid b) (ev_time e)
                               else up_groupTimes u |}
      else Ok u
  | None => Ok u
  end.
Definition collect_updates (allEvents : list Event) : result Updates :=
  fold_result note_event {| up_groupCids := []; up_types := []; up_eids := []; up_groupTimes := [] |}
    allEvents.

(** The key of [timeMap]: a document and one of its versions. *)
Definition version_key (eid version : option string) : string :=
  undef_str eid +:+ "-" +:+ default "null" version.

(** One group update that changes exactly one path. *)
Definition note_group_update (groupTimes : obj (option Z)) (blob : string → GroupPatch)
    (timeMap : obj Z) (cid : string) : result (obj Z) :=
  match blob cid with
  | Some [(_, value)] =>
      let* contentItemId := unpackHmId value in
      match contentItemId, mjoin (oget groupTimes cid) with
      | Some u, Some time =>
          if String.eqb (u_type u) "d"
          then Ok (oset timeMap (version_key (u_eid u) (u_version u)) time)
          else Ok timeMap
      | _, _ => Ok timeMap
      end
  | _ => Ok timeMap
  end.

Definition timeStampsWithinSec (a b sec : Z) : bool := (Z.abs (a - b) <? sec)%Z.

(** The filter of the last step. *)
Definition keep_event (u : Updates) (timeMap : obj Z) (e : Event) : bool :=
  match ev_newBlob e with
  | None => true
  | Some b =>
      if String.eqb (nb_blobType b) "KeyDelegation" then false
      else if String.eqb (nb_blobType b) "Change" then
        let eid := mjoin (oget (up_eids u) (nb_cid b)) in
        if otruthy eid && bool_decide (mjoin (oget (up_types u) (nb_cid b)) = Some "d") then
          match oget timeMap (version_key eid (Some (nb_cid b))), ev_time e with
          | Some groupTime, Some t => negb (timeStampsWithinSec groupTime t 600)
          | _, _ => true
          end
        else true
      else true
  end.

(** [useFeed]; [blob] is what is loaded of a group update's blob. *)
Definition useFeed (blob : string → GroupPatch) (allEvents : list Event) : result (list Event) :=
  let* u := collect_updates allEvents in
  let* timeMap := fold_result (note_group_update (up_groupTimes u) blob) [] (up_groupCids u) in
  Ok (List.filter (keep_event u timeMap) allEvents).
End feed.

(** * Correctness of the feed

    What the feed leaves out, in terms of the events alone: key delegations, and the
    updates of a document that a group published at nearly the same time. *)

(** Writing to a map again and again leaves the last value of each key. *)
Lemma oget_fold_last {A V} (f : A → option (string * V)) l (m : obj V) k :
  oget (foldl (λ m x, match f x with Some e => oset m e.1 e.2 | None => m end) m l) k =
  match last (omap (λ x, e ← f x; if String.eqb e.1 k then Some e.2 else None) l) with
  | Some v => Some v
  | None => oget m k
  end.
Proof.
  induction l as [|x l IH] using rev_ind; [done|]. rewrite foldl_snoc, omap_app. cbn [omap list_omap].
  destruct (f x) as [[j v]|]; cbn; [|by rewrite app_nil_r].
  rewrite oget_oset. destruct (String.eqb j k); [by rewrite last_snoc | by rewrite app_nil_r].
Qed.

Lemma omap_same {A B} (f g : A → option B) (l : list A) : (∀ x, f x = g x) → omap f l = omap g l.
Proof. intros Hfg. induction l as [|x l IH]; [done|]. cbn. by rewrite Hfg, IH. Qed.

Lemma fold_result_total {A B} (f : B → A → result B) (g : B → A → B) l b :
  (∀ b x, x ∈ l → f b x = Ok (g b x)) → fold_result f b l = Ok (foldl g b l).
Proof.
  revert b. induction l as [|x l IH]; intros b Hl; [done|]. cbn. rewrite Hl by left. cbn [rbind].
  apply IH. intros b' y Hy. apply Hl. by right.
Qed.

Lemma version_key_inj eid v eid' v' :
  lacks "-" (undef_str eid) = true → lacks "-" (undef_str eid') = true →
  version_key eid v = version_key eid' v' → undef_str eid = undef_str eid' ∧ default "null" v = default "null" v'.
Proof.
  unfold version_key. generalize (undef_str eid) as s, (undef_str eid') as t, (default "null" v) as a, (default "null" v') as b.
  induction s as [|c s IH]; intros [|d t] a b Hs Ht; cbn.
  - intros [= ->]. done.
  - rewrite lacks_cons in Ht. intros [= <- _]. done.
  - rewrite lacks_cons in Hs. intros [= -> _]. done.
  - rewrite !lacks_cons in *. apply andb_prop in Hs as [_ Hs], Ht as [_ Ht].
    intros [= -> E]. destruct (IH t a b Hs Ht E) as [-> ->]. done.
Qed.

Section feed.
Context `{UrlApi} (blob : string → GroupPatch).

(** The change that an event announces, and the entity it updates. *)
Definition change_of (e : Event) : option NewBlob :=
  b ← ev_newBlob e; if String.eqb (nb_blobType b) "Change" then Some b else None.
Definition entity_of (b : NewBlob) : option UnpackedHypermediaId :=
  match unpackHmId (nb_resource b) with Ok id => id | Err _ => None end.
Definition is_group (b : NewBlob) : bool := bool_decide (u_type <$> entity_of b = Some "g").

(** The version that a group update publishes: its only new content, if a document. *)
Definition published_version (b : NewBlob) : option string :=
  match blob (nb_cid b) with
  | Some [(_, value)] =>
      match unpackHmId value with
      | Ok (Some u) => if String.eqb (u_type u) "d" then Some (version_key (u_eid u) (u_version u)) else None
      | _ => None
      end
  | _ => None
  end.
(** The times at which the group updates of the feed published a version. *)
Definition publication_times (events : list Event) (key : string) : list Z :=
  omap (λ e, b ← change_of e;
             if is_group b && bool_decide (published_version b = Some key) then ev_time e else None) events.

(** The events that are left out. *)
Definition repeats_group_update (events : list Event) (e : Event) : Prop :=
  ∃ b u t tg, change_of e = Some b ∧ entity_of b = Some u ∧ u_type u = "d" ∧ otruthy (u_eid u) = true ∧
    ev_time e = Some t ∧ last (publication_times events (version_key (u_eid u) (Some (nb_cid b)))) = Some tg ∧
    (Z.abs (tg - t) < 600)%Z.

(** Every id can be read, and every change is announced once. *)
Record feed_ok (events : list Event) : Prop := {
  fo_ids e b : e ∈ events → change_of e = Some b → is_ok (unpackHmId (nb_resource b)) = true;
  fo_values e b c k v : e ∈ events → change_of e = Some b → blob (nb_cid b) = Some c → (k, v) ∈ c →
    is_ok (unpackHmId v) = true;
  fo_once e e' b b' : e ∈ events → e' ∈ events → change_of e = Some b → change_of e' = Some b' →
    nb_cid b = nb_cid b' → e = e';
}.

(** *** The maps *)

Definition note (u : Updates) (e : Event) : Updates :=
  match change_of e with
  | Some b =>
      {| up_groupCids := if is_group b then up_groupCids u ++ [nb_cid b] else up_groupCids u;
         up_types := oset (up_types u) (nb_cid b) (u_type <$> entity_of b);
         up_eids := oset (up_eids u) (nb_cid b) (entity_of b ≫= u_eid);
         up_groupTimes := if is_group b then oset (up_groupTimes u) (nb_cid b) (ev_time e)
                          else up_groupTimes u |}
  | None => u
  end.
Definition no_updates : Updates :=
  {| up_groupCids := []; up_types := []; up_eids := []; up_groupTimes := [] |}.
Definition updates (events : list Event) : Updates := foldl note no_updates events.

Lemma note_event_ok events u e :
  feed_ok events → e ∈ events → note_event u e = Ok (note u e).
Proof.
  intros Hf He. unfold note_event, note. pose proof (fo_ids _ Hf e) as Hid. unfold change_of in *.
  destruct (ev_newBlob e) as [b|]; [|done]. cbn in *. destruct (String.eqb (nb_blobType b) "Change"); [|done].
  specialize (Hid b He eq_refl). unfold is_group, entity_of. destruct (unpackHmId (nb_resource b)); [|done]. done.
Qed.

(** Each map holds, for a change, what its event says. *)
Lemma updates_maps events :
  up_types (updates events) = foldl (λ m e, match (b ← change_of e; Some (nb_cid b, u_type <$> entity_of b)) with Some x => oset m x.1 x.2 | None => m end) [] events ∧
  up_eids (updates events) = foldl (λ m e, match (b ← change_of e; Some (nb_cid b, entity_of b ≫= u_eid)) with Some x => oset m x.1 x.2 | None => m end) [] events ∧
  up_groupTimes (updates events) = foldl (λ m e, match (b ← change_of e; if is_group b then Some (nb_cid b, ev_time e) else None) with Some x => oset m x.1 x.2 | None => m end) [] events ∧
  up_groupCids (updates events) = omap (λ e, b ← change_of e; if is_group b then Some (nb_cid b) else None) events.
Proof.
  unfold updates. induction events as [|e l IH] using rev_ind; [done|]. rewrite !foldl_snoc, omap_app.
  destruct IH as (H1 & H2 & H3 & H4). unfold note at 1 3 5 7. cbn [omap list_omap].
  destruct (change_of e) as [b|]; cbn [mbind option_bind up_types up_eids up_groupTimes up_groupCids fst snd].
  - rewrite H1, H2. split; [done|]. split; [done|]. destruct (is_group b); cbn; rewrite ?H3, ?H4, ?app_nil_r; done.
  - by rewrite H1, H2, H3, H4, app_nil_r.
Qed.

(** The last of the announcements of a change is the one there is. *)
Lemma last_announced {V} (f : Event → NewBlob → option V) events e b :
  feed_ok events → e ∈ events → change_of e = Some b →
  last (omap (λ x, r ← (b ← change_of x; v ← f x b; Some (nb_cid b, v));
                   if String.eqb r.1 (nb_cid b) then Some r.2 else None) events) = f e b.
Proof.
  intros Hf He Hb.
  assert (∀ l, l ⊆ events → ∀ r, r = last (omap (λ x, r ← (b ← change_of x; v ← f x b; Some (nb_cid b, v));
                   if String.eqb r.1 (nb_cid b) then Some r.2 else None) l) →
          (e ∈ l → r = f e b) ∧ (e ∉ l → r = None)) as Hgen.
  { induction l as [|x l IH] using rev_ind; intros Hsub r ->; [split; [by intros ?%elem_of_nil | done]|].
    destruct (IH ltac:(set_solver) _ eq_refl) as [IH1 IH2].
    rewrite omap_app. cbn [omap list_omap]. destruct (change_of x) as [b'|] eqn:Eb; cbn [mbind option_bind].
    2: { rewrite app_nil_r. assert (e ≠ x) by congruence. split; intros Hin.
         - apply IH1. set_solver.
         - apply IH2. set_solver. }
    destruct (decide (x = e)) as [->|Hne].
    - rewrite Hb in Eb. injection Eb as <-. split; [intros _|set_solver].
      destruct (f e b) as [v|] eqn:Ev; cbn.
      + by rewrite str_eqb_refl, last_snoc.
      + rewrite app_nil_r. destruct (decide (e ∈ l)) as [Hin|Hin]; [by rewrite IH1|by apply IH2].
    - assert (nb_cid b' ≠ nb_cid b) as Hc.
      { intros Hc. apply Hne. apply (fo_once _ Hf x e b' b); [set_solver|done..]. }
      assert ((r ← (v ← f x b'; Some (nb_cid b', v)); if String.eqb r.1 (nb_cid b) then Some r.2 else None) = None) as ->.
      { destruct (f x b'); [|done]. cbn. by apply String.eqb_neq in Hc as ->. }
      rewrite app_nil_r. split; intros Hin; [apply IH1 | apply IH2]; set_solver. }
  by apply (Hgen events).
Qed.

Lemma updates_of events e b :
  feed_ok events → e ∈ events → change_of e = Some b →
  oget (up_types (updates events)) (nb_cid b) = Some (u_type <$> entity_of b) ∧
  oget (up_eids (updates events)) (nb_cid b) = Some (entity_of b ≫= u_eid) ∧
  (is_group b = true → oget (up_groupTimes (updates events)) (nb_cid b) = Some (ev_time e)).
Proof.
  intros Hf He Hb. destruct (updates_maps events) as (-> & -> & -> & _).
  rewrite !oget_fold_last. split; [|split].
  - pose proof (last_announced (λ _ b, Some (u_type <$> entity_of b)) events e b Hf He Hb) as Hl.
    cbn [mbind option_bind] in *. by rewrite Hl.
  - pose proof (last_announced (λ _ b, Some (entity_of b ≫= u_eid)) events e b Hf He Hb) as Hl.
    cbn [mbind option_bind] in *. by rewrite Hl.
  - intros Hg.
    pose proof (last_announced (λ e b, if is_group b then Some (ev_time e) else None) events e b Hf He Hb) as Hl.
    cbn beta in Hl. rewrite Hg in Hl.
    assert (∀ l : list Event, omap (λ x, e0 ← (b ← change_of x; if is_group b then Some (nb_cid b, ev_time x) else None);
        if String.eqb e0.1 (nb_cid b) then Some e0.2 else None) l =
      omap (λ x, r ← (b0 ← change_of x; v ← (if is_group b0 then Some (ev_time x) else None); Some (nb_cid b0, v));
        if String.eqb r.1 (nb_cid b) then Some r.2 else None) l) as ->.
    { intros l. apply omap_same. intros x.
      destruct (change_of x) as [b0|]; [|done]. cbn. by destruct (is_group b0). }
    by rewrite Hl.
Qed.
(** The map of publications: the last time of each version. *)
Lemma timeMap_ok events :
  feed_ok events →
  ∃ m, fold_result (note_group_update (up_groupTimes (updates events)) blob) []
         (up_groupCids (updates events)) = Ok m ∧
    ∀ key, oget m key = last (publication_times events key).
Proof.
  intros Hf.
  set (entry e := b ← change_of e;
    if is_group b then k ← published_version b; t ← ev_time e; Some (k, t) else None).
  assert (∀ l, l ⊆ events → ∀ m,
    fold_result (note_group_update (up_groupTimes (updates events)) blob) m
      (omap (λ e, b ← change_of e; if is_group b then Some (nb_cid b) else None) l) =
    Ok (foldl (λ m e, match entry e with Some x => oset m x.1 x.2 | None => m end) m l)) as Hgen.
  { induction l as [|e l IH]; intros Hsub m; [done|]. cbn [omap list_omap foldl].
    assert (e ∈ events) as He by set_solver. unfold entry at 2.
    destruct (change_of e) as [b|] eqn:Eb; cbn [mbind option_bind]; [|apply IH; set_solver].
    destruct (is_group b) eqn:Eg; [|apply IH; set_solver]. cbn [fold_result].
    assert (note_group_update (up_groupTimes (updates events)) blob m (nb_cid b) =
      Ok (match (k ← published_version b; t ← ev_time e; Some (k, t)) with Some x => oset m x.1 x.2 | None => m end)) as ->.
    { unfold note_group_update, published_version. pose proof (fo_values _ Hf e b) as Hv.
      destruct (blob (nb_cid b)) as [[|[k v] [|]]|]; try done.
      specialize (Hv _ k v He Eb eq_refl ltac:(left)). destruct (unpackHmId v) as [id|]; [|done]. cbn [rbind].
      rewrite (proj2 (proj2 (updates_of events e b Hf He Eb)) Eg). cbn.
      destruct id as [u|]; [|done]. destruct (String.eqb (u_type u) "d"), (ev_time e); done. }
    cbn [rbind]. apply IH. set_solver. }
  destruct (updates_maps events) as (_ & _ & _ & Hc). rewrite Hc. rewrite Hgen by done.
  eexists. split; [done|]. intros key. rewrite oget_fold_last. unfold publication_times, entry.
  assert (∀ l : list Event, omap (λ x, e0 ← (b ← change_of x; if is_group b
        then k ← published_version b; t ← ev_time x; Some (k, t) else None);
        if String.eqb e0.1 key then Some e0.2 else None) l =
      omap (λ e, b ← change_of e; if is_group b && bool_decide (published_version b = Some key) then ev_time e else None) l) as ->.
  { intros l. apply omap_same. intros x.
    destruct (change_of x) as [b|]; [|done]. cbn. destruct (is_group b); [|done]. cbn.
    destruct (published_version b) as [k|]; cbn.
    - destruct (String.eqb_spec k key) as [->|Hne].
      + rewrite bool_decide_eq_true_2 by done. destruct (ev_time x); cbn; [by rewrite str_eqb_refl|done].
      + rewrite bool_decide_eq_false_2 by congruence. destruct (ev_time x); cbn; [|done].
        by apply String.eqb_neq in Hne as ->.
    - by rewrite bool_decide_eq_false_2. }
  cbn. by destruct (last _).
Qed.

(** The feed shows every event, in order, but the key delegations and the updates
    of a document that a group update of the feed published within ten minutes. *)
Theorem useFeed_spec events :
  feed_ok events →
  ∃ shown, useFeed blob events = Ok shown ∧ sublist shown events ∧
    ∀ e, e ∈ shown ↔ e ∈ events ∧ is_key_delegation e = false ∧ ¬ repeats_group_update events e.
Proof.
  intros Hf. unfold useFeed.
  assert (collect_updates events = Ok (updates events)) as ->.
  { apply fold_result_total. intros u e He. by apply (note_event_ok events). }
  cbn [rbind]. destruct (timeMap_ok events Hf) as (m & -> & Hm). cbn [rbind].
  eexists. split; [done|]. split.
  { clear. generalize (keep_event (updates events) m) as f. intros f. induction events as [|e l IH]; [done|].
    cbn. destruct (f e); [by apply sublist_skip | by apply sublist_cons]. }
  intros e. rewrite list_elem_of_In, List.filter_In, <- list_elem_of_In.
  assert (e ∈ events → keep_event (updates events) m e = true ↔
            is_key_delegation e = false ∧ ¬ repeats_group_update events e) as Hk; [|naive_solver].
  intros He. unfold keep_event, is_key_delegation, repeats_group_update.
  pose proof (updates_of events e) as Hu. unfold change_of in *.
  destruct (ev_newBlob e) as [b|]; cbn [mbind option_bind fmap option_fmap option_map] in *.
  2: { split; [|done]. intros _. split; [done|]. by intros (? & ? & ? & ? & ? & _). }
  destruct (String.eqb_spec (nb_blobType b) "KeyDelegation") as [Ek|Ek].
  { rewrite bool_decide_eq_true_2 by congruence. split; [done|]. by intros [? _]. }
  assert (bool_decide (Some (nb_blobType b) = Some "KeyDelegation") = false) as ->
    by (apply bool_decide_eq_false_2; congruence).
  destruct (String.eqb (nb_blobType b) "Change"); cbn in *.
  2: { split; [|done]. intros _. split; [done|]. by intros (? & ? & ? & ? & ? & _). }
  destruct (Hu b Hf He eq_refl) as (-> & -> & _). cbn [mjoin option_join].
  destruct (entity_of b) as [u|] eqn:Eu; cbn [mbind option_bind fmap option_fmap option_map otruthy andb].
  2: { split; [|done]. intros _. split; [done|]. intros (b' & u & t & tg & [= <-] & ? & _). congruence. }
  destruct (otruthy (u_eid u)) eqn:Ee; cbn [andb].
  2: { split; [|done]. intros _. split; [done|]. intros (b' & u' & t & tg & [= <-] & ? & _ & ? & _). congruence. }
  case_bool_decide as Ed.
  2: { split; [|done]. intros _. split; [done|]. intros (b' & u' & t & tg & [= <-] & ? & ? & _). congruence. }
  rewrite Hm. split.
  - intros Hk. split; [done|]. intros (b' & u' & t & tg & [= <-] & Hu' & _ & _ & Ht & Hl & Hlt).
    assert (u' = u) as -> by congruence. rewrite Hl, Ht in Hk. unfold timeStampsWithinSec in Hk.
    by apply Z.ltb_lt in Hlt as Hlt'; rewrite Hlt' in Hk.
  - intros [_ Hn]. destruct (last _) as [tg|] eqn:El; [|done]. destruct (ev_time e) as [t|] eqn:Et; [|done].
    unfold timeStampsWithinSec. apply negb_true_iff, Z.ltb_nlt. intros Hlt. apply Hn.
    exists b, u, t, tg. injection Ed as Ed. done.
Qed.

(** When the entity ids hold no dash, the times are those of the updates that publish
    this very version of this very document. *)
Lemma publication_times_exact events eid cid tg :
  lacks "-" (undef_str eid) = true →
  (∀ e b c k v u, e ∈ events → change_of e = Some b → blob (nb_cid b) = Some c → (k, v) ∈ c →
     unpackHmId v = Ok (Some u) → lacks "-" (undef_str (u_eid u)) = true) →
  tg ∈ publication_times events (version_key eid (Some cid)) →
  ∃ e b k v u, e ∈ events ∧ change_of e = Some b ∧ is_group b = true ∧ ev_time e = Some tg ∧
    blob (nb_cid b) = Some [(k, v)] ∧ unpackHmId v = Ok (Some u) ∧ u_type u = "d" ∧
    undef_str (u_eid u) = undef_str eid ∧ default "null" (u_version u) = cid.
Proof.
  intros Hd Hall (e & He & Hb)%list_elem_of_omap. destruct (change_of e) as [b|] eqn:Eb; [|done].
  cbn in Hb. destruct (is_group b) eqn:Eg; [|done]. cbn in Hb. case_bool_decide as Hv; [|done].
  unfold published_version in Hv. destruct (blob (nb_cid b)) as [[|[k v] [|]]|] eqn:Ec; try done.
  destruct (unpackHmId v) as [[u|]|] eqn:Eu; try done. destruct (String.eqb_spec (u_type u) "d"); [|done].
  injection Hv as Hv. apply version_key_inj in Hv as [? ?]; [|by eapply Hall, Eu; [..|left]|done].
  exists e, b, k, v, u. done.
Qed.
End feed.

(** ** Examples *)

Definition sample_change (cid resource : string) (t : Z) : Event :=
  {| ev_newBlob := Some {| nb_cid := cid; nb_blobType := "Change"; nb_resource := resource |};
     ev_time := Some t |}.
Definition sample_feed : list Event :=
  [sample_change "g1" "hm://g/a" 1000; sample_change "c1" "hm://d/x" 1005;
   sample_change "c2" "hm://d/x" 100;
   {| ev_newBlob := Some {| nb_cid := "k"; nb_blobType := "KeyDelegation"; nb_resource := "" |}; ev_time := None |}].
Definition sample_blob (cid : string) : GroupPatch :=
  if String.eqb cid "g1" then Some [("p", "hm://d/x?v=c1")] else None.

(** Case analysis on the events of the sample. *)
Ltac each_event He :=
  unfold sample_feed in He; repeat (apply elem_of_cons in He as [->|He]); [..|by apply elem_of_nil in He].
Ltac known_change Hb := vm_compute in Hb; first [discriminate Hb | injection Hb as <-].

Lemma sample_feed_ok : feed_ok sample_blob sample_feed.
Proof.
  split.
  - intros e b He Hb. each_event He; known_change Hb; reflexivity.
  - intros e b c k v He Hb Hc Hin. each_event He; known_change Hb; vm_compute in Hc; try discriminate Hc.
    injection Hc as <-. apply elem_of_cons in Hin as [[= -> ->]|Hin]; [reflexivity | by apply elem_of_nil in Hin].
  - intros e e' b b' He He' Hb Hb'. each_event He; each_event He'; known_change Hb; known_change Hb'; done.
Qed.

Lemma useFeed_spec_witness :
  ∃ shown, useFeed sample_blob sample_feed = Ok shown ∧ sublist shown sample_feed ∧
    ∀ e, e ∈ shown ↔ e ∈ sample_feed ∧ is_key_delegation e = false ∧ ¬ repeats_group_update sample_blob sample_feed e.
Proof. apply (useFeed_spec sample_blob sample_feed sample_feed_ok). Defined.

Example sample_shown :
  useFeed sample_blob sample_feed =
  Ok [sample_change "g1" "hm://g/a" 1000; sample_change "c2" "hm://d/x" 100].
Proof. vm_compute. reflexivity. Qed.
