(* ===== verification/Streams.v ===== *)
(** * State and event streams

    [packages/shared/src/utils/stream.ts]: a value with subscribers, and events with
    subscribers.  Handlers may write, subscribe and unsubscribe while they run, so a
    dispatch is a walk over a [Set] that changes under it. *)
From S2P Require Import Prelude.

(** What a handler does when it is called. *)
Inductive Action (H V : Type) : Type :=
| Write (v : V)
| Subscribe (h : H)
| Unsubscribe (h : H).
Arguments Write {H V} v.
Arguments Subscribe {H V} h.
Arguments Unsubscribe {H V} h.

Section stream.
Context {H V : Type} `{EqDecision H}.
Variable react : H → V → list (Action H V).

(** The entries of a [Set] in insertion order; a deleted entry leaves a gap, so that the
    iterations under way keep their places. *)
Record Stream : Type := {
  st_state : V;
  st_entries : list (option H);
  st_calls : list (H * V);                (* the calls of handlers so far *)
}.
Definition handlers (s : Stream) : list H := omap id (st_entries s).

(** [handlers.add(h)] and [handlers.delete(h)] *)
Definition entries_add (h : H) (entries : list (option H)) : list (option H) :=
  if bool_decide (Some h ∈ entries) then entries else entries ++ [Some h].
Definition entries_delete (h : H) (entries : list (option H)) : list (option H) :=
  (λ e, if bool_decide (e = Some h) then None else e) <$> entries.

Definition subscribe (h : H) (s : Stream) : Stream :=
  {| st_state := st_state s; st_entries := entries_add h (st_entries s); st_calls := st_calls s |}.
Definition unsubscribe (h : H) (s : Stream) : Stream :=
  {| st_state := st_state s; st_entries := entries_delete h (st_entries s); st_calls := st_calls s |}.
Definition note_call (h : H) (v : V) (s : Stream) : Stream :=
  {| st_state := st_state s; st_entries := st_entries s; st_calls := st_calls s ++ [(h, v)] |}.
Definition set_state (v : V) (s : Stream) : Stream :=
  {| st_state := v; st_entries := st_entries s; st_calls := st_calls s |}.

(** [handlers.forEach(handle => handle(v))] from entry [i]; the handlers' own writes are
    [writeState], which walks over all entries again.  [None] when the fuel is spent. *)
Fixpoint notify (fuel : nat) (v : V) (i : nat) (s : Stream) {struct fuel} : option Stream :=
  match fuel with
  | O => None
  | S fuel' =>
      match st_entries s !! i with
      | None => Some s
      | Some None => notify fuel' v (S i) s
      | Some (Some h) =>
          let act (s : Stream) (a : Action H V) : option Stream :=
            match a with
            | Write w => notify fuel' w 0 (set_state w s)
            | Subscribe g => Some (subscribe g s)
            | Unsubscribe g => Some (unsubscribe g s)
            end in
          s' ← foldl (λ s a, s ← s; act s a) (Some (note_call h v s)) (react h v);
          notify fuel' v (S i) s'
      end
  end.

(** [writeState(newState)] *)
Definition writeState (fuel : nat) (v : V) (s : Stream) : option Stream :=
  notify fuel v 0 (set_state v s).
(** [writeState(updater)] *)
Definition updateState (fuel : nat) (f : V → V) (s : Stream) : option Stream :=
  writeState fuel (f (st_state s)) s.
(** [dispatch(event)] of an event stream, which has no state of its own. *)
Definition dispatch (fuel : nat) (v : V) (s : Stream) : option Stream := notify fuel v 0 s.

(** ** Correctness *)

Lemma handlers_add h s :
  handlers (subscribe h s) = if bool_decide (h ∈ handlers s) then handlers s else handlers s ++ [h].
Proof.
  unfold handlers, subscribe, entries_add. cbn [st_entries].
  assert (Some h ∈ st_entries s ↔ h ∈ omap id (st_entries s)) as Hin.
  { rewrite list_elem_of_omap. split; [intros Hs; by exists (Some h)|].
    intros (x & Hx & Hid). unfold id in Hid. by subst x. }
  destruct (decide (Some h ∈ st_entries s)) as [Hs|Hs].
  - rewrite !bool_decide_eq_true_2 by tauto. done.
  - rewrite !bool_decide_eq_false_2 by tauto. by rewrite omap_app.
Qed.
Lemma handlers_delete h s :
  handlers (unsubscribe h s) = List.filter (λ g, negb (bool_decide (g = h))) (handlers s).
Proof.
  unfold handlers, unsubscribe, entries_delete. cbn [st_entries]. induction (st_entries s) as [|[g|] l IH]; [done| |done].
  cbn. case_bool_decide as Hg.
  - injection Hg as ->. rewrite bool_decide_eq_true_2 by done. exact IH.
  - rewrite bool_decide_eq_false_2 by congruence. cbn. by f_equal.
Qed.

(** Subscribing and then unsubscribing leaves the other subscribers as they were. *)
Lemma subscribe_unsubscribe h s :
  h ∉ handlers s → handlers (unsubscribe h (subscribe h s)) = handlers s.
Proof.
  intros Hh. rewrite handlers_delete, handlers_add, bool_decide_eq_false_2 by done.
  rewrite List.filter_app. cbn. rewrite bool_decide_eq_true_2 by done. cbn. rewrite app_nil_r.
  apply filter_all. intros x Hx. apply negb_true_iff, bool_decide_eq_false_2. congruence.
Qed.

Lemma notify_quiet fuel v i s :
  (∀ h w, react h w = []) → length (st_entries s) - i < fuel →
  notify fuel v i s =
    Some {| st_state := st_state s; st_entries := st_entries s;
            st_calls := st_calls s ++ ((λ h, (h, v)) <$> omap id (drop i (st_entries s))) |}.
Proof.
  intros Hr. revert i s. induction fuel as [|fuel IH]; intros i s Hf; [lia|]. cbn [notify].
  destruct (st_entries s !! i) as [[h|]|] eqn:E.
  - rewrite Hr. cbn [foldl mbind option_bind]. pose proof (lookup_lt_Some _ _ _ E).
    rewrite IH by (cbn; lia). cbn [note_call st_state st_entries st_calls].
    rewrite (drop_S _ _ _ E). cbn. by rewrite <- (assoc_L (++)).
  - pose proof (lookup_lt_Some _ _ _ E). rewrite IH by lia. rewrite (drop_S _ _ _ E). done.
  - apply lookup_ge_None in E. rewrite drop_ge by done. cbn. rewrite app_nil_r. by destruct s.
Qed.

(** A write is seen by every subscriber once, in the order in which they subscribed,
    when the handlers themselves leave the stream alone. *)
Lemma writeState_notifies_all v s :
  (∀ h w, react h w = []) →
  ∃ s', writeState (S (length (st_entries s))) v s = Some s' ∧ st_state s' = v ∧
    handlers s' = handlers s ∧ st_calls s' = st_calls s ++ ((λ h, (h, v)) <$> handlers s).
Proof.
  intros Hr. unfold writeState. rewrite notify_quiet; [|done|cbn; lia].
  eexists. split; [done|]. split; [done|]. split; [done|]. by rewrite drop_0.
Qed.

(** What a subscriber was last told. *)
Definition last_told (h : H) (s : Stream) : option V :=
  snd <$> last (List.filter (λ c : H * V, bool_decide (c.1 = h)) (st_calls s)).

(** A handler that answers a value by writing another one makes the subscribers after
    it end with the first value, while the stream holds the second. *)
Lemma nested_write_is_overtaken h1 h2 v w :
  h1 ≠ h2 → v ≠ w → react h1 v = [Write w] → react h1 w = [] → (∀ x, react h2 x = []) →
  let s := {| st_state := v; st_entries := [Some h1; Some h2]; st_calls := [] |} in
  ∃ s', writeState 5 v s = Some s' ∧ st_state s' = w ∧ last_told h1 s' = Some w ∧ last_told h2 s' = Some v.
Proof.
  intros Hne Hvw H1 H2 H3 s. unfold writeState, s. cbn [notify set_state st_entries lookup list_lookup].
  rewrite H1. cbn [foldl mbind option_bind notify note_call set_state st_entries lookup list_lookup].
  rewrite H2. cbn [foldl mbind option_bind notify note_call set_state st_entries lookup list_lookup].
  rewrite H3. cbn [foldl mbind option_bind notify note_call set_state st_entries lookup list_lookup].
  rewrite H3. cbn [foldl mbind option_bind notify note_call set_state st_entries st_calls lookup list_lookup].
  eexists. split; [done|]. split; [done|]. unfold last_told. cbn.
  split; repeat (case_bool_decide; try congruence); done.
Qed.
End stream.
