(* ===== verification/WebLinks.v ===== *)
(** * Waiting for a publication on the web

    [packages/app/models/web-links.ts]: the page at a URL is fetched again and again
    until it names a document or two minutes are over.  The effect of the hook runs once
    for each URL; its cleanup only stops the timer.  [packages/app/models/networking.ts]
    (Modules [Ready] and [Gateway]): polling a site until it has a version, and the
    gateway for as long as the hook is there. *)
From S2P Require Import Prelude.
From S2P Require Import JsString.
From S2P Require Import JsObject.
From S2P Require Import EntityId.

(** ** The description of a page *)

Record WebLinkMeta : Type := {
  wl_hmId : option string;
  wl_hmUrl : option string;
  wl_hmVersion : option string;
  wl_hmTitle : option string;
  wl_blockRef : option string;
}.

(** [fetchWebLinkMeta]: the response's meta tags, or an error. *)
Definition fetchWebLinkMeta (fetch : string → result (obj string)) (url : string) : option WebLinkMeta :=
  if negb (truthy url) || negb (js_startsWith "http" url) then None
  else match fetch url with
       | Err _ => None
       | Ok tags =>
           Some {| wl_hmUrl := oget tags "hypermedia-url"; wl_hmId := oget tags "hypermedia-entity-id";
                   wl_hmVersion := oget tags "hypermedia-entity-version";
                   wl_hmTitle := oget tags "hypermedia-entity-title";
                   wl_blockRef := or_null (pf_blockId <$> parseFragment (Some url)) |}
       end.

(** ** The hook *)

Record Waiting : Type := {
  w_url : option string;                 (* the mounted effect *)
  w_timer : bool;                        (* its timeout is pending *)
  w_timedOutRef : bool;
  w_fetching : list string;              (* the URLs of the requests under way *)
  w_resultMeta : option WebLinkMeta;
  w_timedOut : bool;
}.
Definition not_waiting : Waiting :=
  {| w_url := None; w_timer := false; w_timedOutRef := false; w_fetching := []; w_resultMeta := None;
     w_timedOut := false |}.

Inductive WaitEvent : Type :=
| Mount (url : string)                   (* the effect runs *)
| Cleanup                                (* before the next effect, or on unmounting *)
| Fetched (i : nat) (meta : option WebLinkMeta)
| TimerFires.

Definition has_document (meta : option WebLinkMeta) : bool := otruthy (meta ≫= wl_hmId).

Definition wait_step (w : Waiting) (e : WaitEvent) : option Waiting :=
  match e with
  | Mount url =>
      match w_url w with
      | None =>
          Some {| w_url := Some url; w_timer := true; w_timedOutRef := false;
                  w_fetching := w_fetching w ++ [url]; w_resultMeta := w_resultMeta w;
                  w_timedOut := w_timedOut w |}
      | Some _ => None
      end
  | Cleanup =>
      match w_url w with
      | Some _ =>
          Some {| w_url := None; w_timer := false; w_timedOutRef := w_timedOutRef w;
                  w_fetching := w_fetching w; w_resultMeta := w_resultMeta w; w_timedOut := w_timedOut w |}
      | None => None
      end
  | TimerFires =>
      if w_timer w then
        Some {| w_url := w_url w; w_timer := false; w_timedOutRef := true; w_fetching := w_fetching w;
                w_resultMeta := w_resultMeta w; w_timedOut := w_timedOut w |}
      else None
  | Fetched i meta =>
      match w_fetching w !! i with
      | None => None
      | Some url =>
          let others := delete i (w_fetching w) in
          if has_document meta then
            Some {| w_url := w_url w; w_timer := w_timer w; w_timedOutRef := w_timedOutRef w;
                    w_fetching := others; w_resultMeta := meta; w_timedOut := w_timedOut w |}
          else if w_timedOutRef w then
            Some {| w_url := w_url w; w_timer := w_timer w; w_timedOutRef := true;
                    w_fetching := others; w_resultMeta := w_resultMeta w; w_timedOut := true |}
          else                             (* doQuery() fetches again *)
            Some w
      end
  end.

Fixpoint wait_run (w : Waiting) (es : list WaitEvent) : option Waiting :=
  match es with
  | [] => Some w
  | e :: es' => w' ← wait_step w e; wait_run w' es'
  end.

(** ** Correctness *)

Lemma wait_run_app w es1 es2 : wait_run w (es1 ++ es2) = w' ← wait_run w es1; wait_run w' es2.
Proof.
  revert w. induction es1 as [|e es1 IH]; intros w; [done|]. cbn. destruct (wait_step w e); [apply IH|done].
Qed.

(** Once the time is over, the next answer ends the wait, with the document or with the
    timeout. *)
Lemma wait_ends w url meta :
  w_fetching w = [url] → w_timer w = true →
  ∃ w', wait_run w [TimerFires; Fetched 0 meta] = Some w' ∧ w_fetching w' = [] ∧
    (if has_document meta then w_resultMeta w' = meta else w_timedOut w' = true).
Proof.
  intros Hf Ht. cbn. rewrite Ht. cbn. rewrite Hf. cbn. destruct (has_document meta); by eexists.
Qed.

(** Before that, a page without a document is fetched again, however often it
    answers. *)
Lemma wait_goes_on w n url :
  w_fetching w = [url] → w_timedOutRef w = false →
  wait_run w (replicate n (Fetched 0 None)) = Some w.
Proof.
  intros Hf Hr. induction n as [|n IH]; [done|]. cbn. rewrite Hf. cbn. rewrite Hr. exact IH.
Qed.

(** The cleanup disarms the timer but not the loop: a page that never names a document
    is fetched for ever, with nothing on the screen that waits for it. *)
Lemma polling_survives_unmount url n :
  ∃ w, wait_run not_waiting ([Mount url; Cleanup] ++ replicate n (Fetched 0 None)) = Some w ∧
    w_url w = None ∧ w_timer w = false ∧ w_fetching w = [url].
Proof.
  rewrite wait_run_app. cbn [wait_run wait_step w_url mbind option_bind not_waiting w_fetching].
  rewrite (wait_goes_on _ n url) by done. by eexists.
Qed.

(** And its late answer is shown for the URL that is waited for now. *)
Lemma late_answer_for_another_url old new meta :
  has_document meta = true →
  ∃ w, wait_run not_waiting [Mount old; Cleanup; Mount new; Fetched 0 meta] = Some w ∧
    w_url w = Some new ∧ w_resultMeta w = meta ∧ w_fetching w = [new].
Proof. intros Hm. cbn. rewrite Hm. by eexists. Qed.

(** ** Waiting for a site to have a version: [useIsHMUrlReady] of models/networking.ts *)

Module Ready.
Record Polling : Type := {
  timers : nat;                          (* timeouts that are pending; none is ever cleared *)
  isReadyRef : bool;
  didTimeoutRef : bool;
  fetching : list string;
  waiting : list string;                 (* for two seconds, to start again *)
  readyMeta : option WebLinkMeta;
  didTimeout : bool;
}.
Definition new_hook : Polling :=
  {| timers := 0; isReadyRef := false; didTimeoutRef := false; fetching := []; waiting := []; readyMeta := None; didTimeout := false |}.

Inductive Event : Type :=
| EffectRuns (webUrl : option string)
| TimeoutFires
| Answered (i : nat) (res : option WebLinkMeta)
| RetryFires (i : nat).

Definition start (webUrl : string) (p : Polling) : Polling :=
  if truthy webUrl then
    {| timers := timers p; isReadyRef := isReadyRef p; didTimeoutRef := didTimeoutRef p;
       fetching := fetching p ++ [webUrl]; waiting := waiting p; readyMeta := readyMeta p; didTimeout := didTimeout p |}
  else p.
Definition has_version (res : option WebLinkMeta) : bool := otruthy (res ≫= wl_hmVersion).
Definition step (p : Polling) (e : Event) : option Polling :=
  match e with
  | EffectRuns webUrl =>
      Some (start (default "" webUrl)
        {| timers := S (timers p); isReadyRef := isReadyRef p; didTimeoutRef := didTimeoutRef p; fetching := fetching p;
           waiting := waiting p; readyMeta := None; didTimeout := didTimeout p |})
  | TimeoutFires =>
      match timers p with
      | O => None
      | S n => Some {| timers := n; isReadyRef := isReadyRef p; didTimeoutRef := true; fetching := fetching p;
                       waiting := waiting p; readyMeta := readyMeta p;
                       didTimeout := didTimeout p || negb (isReadyRef p) |}
      end
  | Answered i res =>
      match fetching p !! i with
      | None => None
      | Some url =>
          let ready := isReadyRef p || has_version res in
          Some {| timers := timers p; isReadyRef := ready; didTimeoutRef := didTimeoutRef p;
                  fetching := delete i (fetching p);
                  waiting := if ready || didTimeoutRef p then waiting p else waiting p ++ [url];
                  readyMeta := if has_version res then res else readyMeta p; didTimeout := didTimeout p |}
      end
  | RetryFires i =>
      match waiting p !! i with
      | None => None
      | Some url =>
          Some (start url {| timers := timers p; isReadyRef := isReadyRef p; didTimeoutRef := didTimeoutRef p;
                             fetching := fetching p; waiting := delete i (waiting p); readyMeta := readyMeta p;
                             didTimeout := didTimeout p |})
      end
  end.
Fixpoint run (p : Polling) (es : list Event) : option Polling :=
  match es with
  | [] => Some p
  | e :: es' => p' ← step p e; run p' es'
  end.

(** The work that is left when no request is repeated any more. *)
Definition work (p : Polling) : nat := timers p + length (fetching p) + 2 * length (waiting p).
Definition is_effect (e : Event) : bool := match e with EffectRuns _ => true | _ => false end.

Lemma start_work url p : work (start url p) <= S (work p).
Proof. unfold start, work. destruct (truthy url); [|lia]. cbn. rewrite length_app. cbn. lia. Qed.
Lemma step_ends p e p' : didTimeoutRef p = true ∨ isReadyRef p = true → is_effect e = false → step p e = Some p' →
  work p' < work p ∧ (didTimeoutRef p' = true ∨ isReadyRef p' = true).
Proof.
  intros Hp He Hs. destruct e as [u| |i res|i]; cbn in He, Hs; [done| | |].
  - destruct (timers p) as [|n] eqn:E; [done|]. injection Hs as <-. unfold work. cbn. rewrite E. split; [lia|by left].
  - destruct (fetching p !! i) as [url|] eqn:E; [|done]. injection Hs as <-. unfold work. cbn.
    pose proof (length_delete (fetching p) i ltac:(by eexists)) as Hl. apply lookup_lt_Some in E.
    destruct Hp as [Hp|Hp]; rewrite Hp, ?orb_true_r; cbn; (split; [lia|auto]).
  - destruct (waiting p !! i) as [url|] eqn:E; [|done]. injection Hs as <-.
    pose proof (length_delete (waiting p) i ltac:(by eexists)) as Hl. apply lookup_lt_Some in E.
    split; [|unfold start; by destruct (truthy url)].
    eapply Nat.le_lt_trans; [apply start_work|]. unfold work. cbn. lia.
Qed.

(** When the time is over, or a version has been seen, the polling ends: no run without
    a new effect is longer than the requests, the timers and twice the pauses that are
    left. *)
Theorem polling_ends p es p' :
  didTimeoutRef p = true ∨ isReadyRef p = true → Forall (λ e, is_effect e = false) es → run p es = Some p' →
  length es + work p' <= work p.
Proof.
  intros Hp He. revert p Hp. induction He as [|e es He _ IH]; intros p Hp Hr; [injection Hr as <-; cbn; lia|].
  cbn in Hr. destruct (step p e) as [q|] eqn:E; [|done]. cbn in Hr. destruct (step_ends p e q Hp He E) as [Hw Hq].
  specialize (IH q Hq Hr). cbn. lia.
Qed.
Lemma polling_ends_witness :
  ∃ p p', run new_hook [EffectRuns (Some "u"); TimeoutFires] = Some p ∧ run p [Answered 0 None] = Some p' ∧ 1 + work p' <= work p.
Proof.
  eexists _, _. split; [reflexivity|]. split; [reflexivity|].
  apply (polling_ends _ [Answered 0 None]); [by left|by apply list.Forall_singleton|reflexivity].
Defined.

(** The references outlive the URL: a second one is asked once and never again, and the
    time that runs out for it is not noticed; if the first one ran out of time, the
    second one has before it is asked. *)
Lemma second_url_asked_once p url : isReadyRef p = true → fetching p = [] → waiting p = [] → truthy url = true →
  ∃ p', run p [EffectRuns (Some url); Answered 0 None; TimeoutFires] = Some p' ∧
    fetching p' = [] ∧ waiting p' = [] ∧ readyMeta p' = None ∧ didTimeout p' = didTimeout p.
Proof.
  intros Hr Hf Hw Hu. cbn. unfold start. rewrite Hu. cbn. rewrite Hf, Hw, Hr. cbn. eexists. split; [reflexivity|]. cbn.
  by rewrite orb_false_r.
Qed.
Lemma second_url_out_of_time p url : didTimeout p = true → 
  ∃ p', run p [EffectRuns (Some url)] = Some p' ∧ didTimeout p' = true ∧ readyMeta p' = None.
Proof. intros Hd. cbn. eexists. split; [reflexivity|]. unfold start. by destruct (truthy url). Qed.
End Ready.

(** ** The connection to the gateway: [useIsGatewayConnected] *)

Module Gateway.
(** [checkGatewayConnected]: the response's status, or the message of the failure. *)
Definition checkGatewayConnected (response : result Z) (match_ : string → string → bool) : result Z :=
  match response with
  | Ok status => Ok (if (status =? 200)%Z then 2 else 0)%Z
  | Err e => if match_ e "Failed to fetch" then Ok 1%Z else Err e
  end.

Inductive PromiseRef : Type := Fresh | Stopped | InProgress.
Inductive Phase : Type := Checking | Pausing.
Record Hook : Type := { promise : PromiseRef; loops : list (string * Phase); isConnected : option Z }.
Definition new_hook : Hook := {| promise := Fresh; loops := []; isConnected := None |}.
Inductive Event : Type :=
| EffectRuns (gwUrl : option string)
| Cleanup
| Checked (i : nat) (status : result Z)
| PauseOver (i : nat).

Definition start (gwUrl : string) (h : Hook) : Hook :=
  if negb (truthy gwUrl) then h
  else match promise h with
       | Stopped => h
       | _ => {| promise := InProgress; loops := loops h ++ [(gwUrl, Checking)]; isConnected := isConnected h |}
       end.
Definition step (h : Hook) (e : Event) : option Hook :=
  match e with
  | EffectRuns gwUrl =>
      Some (start (default "" gwUrl)
        {| promise := match promise h with Stopped => Fresh | q => q end; loops := loops h; isConnected := isConnected h |})
  | Cleanup => Some {| promise := Stopped; loops := loops h; isConnected := isConnected h |}
  | Checked i status =>
      match loops h !! i with
      | Some (url, Checking) =>
          match status with
          | Ok s => Some {| promise := promise h; loops := <[i := (url, Pausing)]> (loops h); isConnected := Some s |}
          | Err _ => Some (start url {| promise := promise h; loops := delete i (loops h); isConnected := isConnected h |})
          end
      | _ => None
      end
  | PauseOver i =>
      match loops h !! i with
      | Some (url, Pausing) => Some (start url {| promise := promise h; loops := delete i (loops h); isConnected := isConnected h |})
      | _ => None
      end
  end.
Fixpoint run (h : Hook) (es : list Event) : option Hook :=
  match es with
  | [] => Some h
  | e :: es' => h' ← step h e; run h' es'
  end.
Definition own_event (e : Event) : bool := match e with Checked _ _ | PauseOver _ => true | _ => false end.
Definition polled (h : Hook) : list string := (loops h).*1.

Lemma insert_polled (l : list (string * Phase)) i url q : l !! i = Some (url, q) → (<[i := (url, Pausing)]> l).*1 = l.*1.
Proof. intros E. rewrite list_fmap_insert. apply list_insert_id. by rewrite list_lookup_fmap, E. Qed.
Lemma restart_polled h i url q : promise h ≠ Stopped → truthy url = true → loops h !! i = Some (url, q) →
  let h' := start url {| promise := promise h; loops := delete i (loops h); isConnected := isConnected h |} in
  promise h' ≠ Stopped ∧ polled h' ≡ₚ polled h.
Proof.
  intros Hp Hu E h'. unfold h', start, polled. cbn [promise loops]. rewrite Hu. cbn [negb].
  pose proof (delete_Permutation (loops h) i (url, q) E) as Hd.
  assert ((delete i (loops h) ++ [(url, Checking)]).*1 ≡ₚ (loops h).*1) as Hperm.
  { etransitivity; [|symmetry; exact (fmap_Permutation fst _ _ Hd)]. rewrite fmap_app. cbn. by rewrite Permutation_app_comm. }
  destruct (promise h); [done|by destruct Hp|done].
Qed.

(** While the hook is not stopped, every loop goes on polling its gateway, whatever the
    answers: after a change of the gateway the old one is polled along with the new one,
    and the last answer of either is shown. *)
Theorem loops_go_on h es h' :
  promise h ≠ Stopped → Forall (λ u, truthy u = true) (polled h) → Forall (λ e, own_event e = true) es → run h es = Some h' →
  polled h' ≡ₚ polled h ∧ promise h' ≠ Stopped.
Proof.
  intros Hp Hu He. revert h Hp Hu. induction He as [|e es He _ IH]; intros h Hp Hu Hr; [injection Hr as <-; done|].
  cbn in Hr. destruct (step h e) as [q|] eqn:E; [|done]. cbn in Hr.
  assert (promise q ≠ Stopped ∧ polled q ≡ₚ polled h) as [Hq Hperm].
  { destruct e as [u| |i status|i]; cbn in He, E; try done.
    - destruct (loops h !! i) as [[url [|]]|] eqn:El; [|done|done].
      destruct status as [s|m]; injection E as <-.
      + split; [done|]. unfold polled. cbn. by rewrite (insert_polled _ _ _ _ El).
      + eapply restart_polled; [done| |done]. rewrite Forall_forall in Hu. apply Hu. unfold polled.
        apply list_elem_of_fmap. exists (url, Checking). split; [done|]. by eapply list_elem_of_lookup_2.
    - destruct (loops h !! i) as [[url [|]]|] eqn:El; [done| |done]. injection E as <-.
      eapply restart_polled; [done| |done]. rewrite Forall_forall in Hu. apply Hu. unfold polled.
      apply list_elem_of_fmap. exists (url, Pausing). split; [done|]. by eapply list_elem_of_lookup_2. }
  destruct (IH q Hq ltac:(by rewrite Hperm) Hr) as [H1 H2]. split; [by rewrite H1|done].
Qed.
(** The gateway is changed while its loop pauses. *)
Definition switched : list Event := [EffectRuns (Some "a"); Checked 0 (Ok 2%Z); Cleanup; EffectRuns (Some "b"); PauseOver 0].
Definition both_polled : Hook :=
  {| promise := InProgress; loops := [("b", Checking); ("a", Checking)]; isConnected := Some 2%Z |}.
Lemma loops_go_on_witness :
  run new_hook switched = Some both_polled ∧
  ∃ h', run both_polled [Checked 0 (Ok 0%Z); Checked 1 (Ok 2%Z); PauseOver 1] = Some h' ∧ polled h' ≡ₚ ["b"; "a"].
Proof.
  split; [reflexivity|]. eexists. split; [reflexivity|].
  apply (loops_go_on both_polled [Checked 0 (Ok 0%Z); Checked 1 (Ok 2%Z); PauseOver 1]); [done|by repeat constructor| |reflexivity].
  by repeat constructor.
Defined.

(** Once stopped for good, each loop ends with its next step. *)
Lemma stopped_step h e h' : promise h = Stopped → own_event e = true → step h e = Some h' →
  promise h' = Stopped ∧ length (loops h') <= length (loops h).
Proof.
  intros Hp He E. destruct e as [u| |i status|i]; cbn in He, E; try done.
  - destruct (loops h !! i) as [[url [|]]|] eqn:El; [|done|done]. destruct status as [s|m]; injection E as <-.
    + split; [done|]. cbn. by rewrite length_insert.
    + unfold start. cbn. rewrite Hp. destruct (truthy url); cbn; (split; [done|]);
        rewrite length_delete by (by eexists); lia.
  - destruct (loops h !! i) as [[url [|]]|] eqn:El; [done| |done]. injection E as <-.
    unfold start. cbn. rewrite Hp. destruct (truthy url); cbn; (split; [done|]); rewrite length_delete by (by eexists); lia.
Qed.
End Gateway.

(** ** Peers *)

Record PeerInfo : Type := { pi_id : string; pi_connectionStatus : Z }.
Definition CONNECTED : Z := 1.
Definition usePeers (filterConnected : bool) (peers : list PeerInfo) : list PeerInfo :=
  if filterConnected then List.filter (λ i, (pi_connectionStatus i =? CONNECTED)%Z) peers else peers.
(** [retryDelay] of [queryPeerInfo], in milliseconds. *)
Definition retryDelay (attemptIndex : nat) : Z := Z.min (1000 * 2 ^ Z.of_nat attemptIndex) 30000.
Lemma retryDelay_bounds n : (1000 ≤ retryDelay n ≤ 30000)%Z ∧ (retryDelay n ≤ retryDelay (S n))%Z.
Proof.
  unfold retryDelay. rewrite Nat2Z.inj_succ, Z.pow_succ_r by lia.
  pose proof (Z.pow_pos_nonneg 2 (Z.of_nat n) ltac:(lia) ltac:(lia)). lia.
Qed.
