(* ===== verification/Positions.v ===== *)
(** * Positions in an editor's document

    The node types of the editor and their content expressions
    ([packages/editor/src/blocknote/core/extensions/Blocks/index.ts], [BlockGroup.ts],
    [BlockContainer.ts], the block contents and [schema.ts]), and what the editor's
    commands use of ProseMirror: positions are numbers that count the characters and the
    boundaries of nodes, [resolve] finds the nodes around one, and the steps of a
    transaction insert, replace and delete between two of them. *)
From S2P Require Import Prelude.
From S2P Require Import JsString.
From S2P Require Import JsObject.
From S2P Require Import DaemonApi.
From S2P Require Import NodeConvert.

(** ** Node types *)

Definition content_types : list string :=
  ["paragraph"; "heading"; "image"; "codeBlock"; "embed"; "video"; "file"; "nostr"; "web-embed";
   "equation"; "math"].
(** The [group] of a node type. *)
Definition type_group (type : string) : string :=
  if bool_decide (type ∈ content_types) then "blockContent"
  else if bool_decide (type ∈ ["text"; "hardBreak"; "inline-embed"]) then "inline"
  else if bool_decide (type ∈ ["blockGroup"; "blockContainer"]) then type
  else "".
(** Inline nodes other than texts have no content. *)
Definition is_leaf (type : string) : bool := bool_decide (type ∈ ["hardBreak"; "inline-embed"]).

(** The content expressions: [blockGroup] for the document, [blockContainer+] for a
    group, [blockContent blockGroup?] for a container, [inline*] and, for code,
    [text*] for the content of a block. *)
Definition content_ok (type : string) (content : list PNode) : bool :=
  if String.eqb type "doc" then bool_decide (n_type <$> content = ["blockGroup"])
  else if String.eqb type "blockGroup" then
    negb (bool_decide (content = [])) && forallb (λ n, String.eqb (n_type n) "blockContainer") content
  else if String.eqb type "blockContainer" then
    match content with
    | c :: group =>
        String.eqb (type_group (n_type c)) "blockContent"
        && match group with
           | [] => true
           | [g] => String.eqb (n_type g) "blockGroup"
           | _ => false
           end
    | [] => false
    end
  else if String.eqb type "codeBlock" then forallb (λ n, String.eqb (n_type n) "text") content
  else if bool_decide (type ∈ content_types) then
    forallb (λ n, String.eqb (type_group (n_type n)) "inline") content
  else bool_decide (content = []).

(** [node.check()] for the editor's schema; texts are not empty. *)
Fixpoint typed (n : PNode) : bool :=
  match n with
  | PText s _ => truthy s
  | PElem t _ c _ => negb (String.eqb t "text") && content_ok t c && forallb typed c
  end.

(** ** Places in a document *)

(** A node around a place, with its content before and after. *)
Record Frame : Type := {
  f_type : string;
  f_attrs : Attrs;
  f_left : list PNode;
  f_right : list PNode;
  f_marks : list Mark;
}.
Definition fill_frame (f : Frame) (l : list PNode) : PNode :=
  PElem (f_type f) (f_attrs f) (f_left f ++ l ++ f_right f) (f_marks f).
(** The document with a node at the place inside of the frames, the innermost first. *)
Fixpoint plug (fs : list Frame) (n : PNode) : PNode :=
  match fs with
  | [] => n
  | f :: fs' => plug fs' (fill_frame f [n])
  end.

(** ** ProseMirror *)

(** The nodes around a position from the document inwards, with where their content
    starts: [$pos.node(d)] and [$pos.start(d)] for each depth. *)
Abbreviation ResolvedPos := (list (PNode * Z)).

Class ProseMirror : Type := {
  known_type : string → bool;            (* schema.nodes[type] is there *)
  nodeSize : PNode → Z;
  resolve : PNode → Z → result ResolvedPos;
  descendants : ∀ {S : Type}, (S → PNode → Z → S * bool) → PNode → S → S;
  tr_insert : PNode → Z → list PNode → result PNode;
  tr_replace : PNode → Z → Z → list PNode → result PNode;
  tr_deleteRange : PNode → Z → Z → result PNode;
  tr_setNodeMarkup : PNode → Z → option string → Attrs → result PNode;
  tr_setNodeAttribute : PNode → Z → string → AttrVal → result PNode;
}.

Section positions.
Context `{ProseMirror}.

Fixpoint csize (l : list PNode) : Z :=
  match l with
  | [] => 0
  | n :: l' => nodeSize n + csize l'
  end%Z.
(** [node.content.size] *)
Definition content_size (n : PNode) : Z := csize (n_content n).

(** Where the content of a node in the frames starts. *)
Fixpoint inner (fs : list Frame) : Z :=
  match fs with
  | [] => 0
  | f :: fs' => inner fs' + csize (f_left f) + 1
  end%Z.
(** The position before it. *)
Definition hole (fs : list Frame) : Z := (inner fs - 1)%Z.

(** The path to a node in the frames. *)
Fixpoint ancestors (fs : list Frame) (n : PNode) : ResolvedPos :=
  match fs with
  | [] => [(n, 0%Z)]
  | f :: fs' => ancestors fs' (fill_frame f [n]) ++ [(n, inner fs)]
  end.

(** [node.descendants(f)]: every node in document order with its position in the content
    of [node]; not below a node for which the callback returns [false]. *)
Section visit.
Context {S : Type} (f : S → PNode → Z → S * bool).
Fixpoint visit (n : PNode) (pos : Z) (s : S) : S :=
  let r := f s n pos in
  if r.2 then
    match n with
    | PText _ _ => r.1
    | PElem _ _ c _ =>
        (fix go (l : list PNode) (pos : Z) (s : S) : S :=
           match l with
           | [] => s
           | x :: l' => go l' (pos + nodeSize x)%Z (visit x pos s)
           end) c (pos + 1)%Z r.1
    end
  else r.1.
Fixpoint visit_list (l : list PNode) (pos : Z) (s : S) : S :=
  match l with
  | [] => s
  | x :: l' => visit_list l' (pos + nodeSize x)%Z (visit x pos s)
  end.
End visit.
End positions.

(** [node.nodeSize]: the length of a text, one for a leaf, the content and two more for
    the boundaries of any other node. *)
Class SizeLaws `{ProseMirror} : Prop := {
  size_text s ms : nodeSize (PText s ms) = Z.of_nat (len s);
  size_elem t a c ms : nodeSize (PElem t a c ms) = if is_leaf t then 1%Z else (2 + csize c)%Z;
}.

(** What the commands rely on, as ProseMirror's guide and reference manual state it.
    Documents are typed, so that no text is empty and no leaf has content. *)
Class ProseMirrorLaws `{SchemaLaws, ProseMirror} : Type := {
  known_type_spec t : known_type t = true ↔ is_Some (node_spec t);
  #[global] pm_sizes :: SizeLaws;
  (** Between two nodes, or inside of a text. *)
  resolve_between fs t a l r ms :
    typed (plug fs (PElem t a (l ++ r) ms)) = true → is_leaf t = false →
    resolve (plug fs (PElem t a (l ++ r) ms)) (inner fs + csize l) =
    Ok (ancestors fs (PElem t a (l ++ r) ms));
  resolve_text fs t a l s sms r ms k :
    typed (plug fs (PElem t a (l ++ PText s sms :: r) ms)) = true →
    (0 < k < Z.of_nat (len s))%Z →
    resolve (plug fs (PElem t a (l ++ PText s sms :: r) ms)) (inner fs + csize l + k) =
    Ok (ancestors fs (PElem t a (l ++ PText s sms :: r) ms));
  resolve_outside doc pos :
    typed doc = true → (pos < 0 ∨ content_size doc < pos)%Z → is_ok (resolve doc pos) = false;
  descendants_eq {S} (f : S → PNode → Z → S * bool) n s :
    descendants f n s = visit_list f (n_content n) 0 s;
  (** Nodes are inserted where the content expression allows them. *)
  insert_ok fs t a l r ms ns :
    typed (plug fs (PElem t a (l ++ r) ms)) = true → is_leaf t = false →
    forallb is_elem ns = true → forallb typed ns = true → content_ok t (l ++ ns ++ r) = true →
    tr_insert (plug fs (PElem t a (l ++ r) ms)) (inner fs + csize l) ns =
    Ok (plug fs (PElem t a (l ++ ns ++ r) ms));
  (** The whole content of a node is replaced where the expression allows it. *)
  replace_content fs t a c ms ns :
    typed (plug fs (PElem t a c ms)) = true → is_leaf t = false →
    forallb typed ns = true → content_ok t (fragment ns) = true →
    tr_replace (plug fs (PElem t a c ms)) (inner fs) (inner fs + csize c) ns =
    Ok (plug fs (PElem t a (fragment ns) ms));
  (** A range that covers a block's content covers the block, and the group whose only
      block it is. *)
  deleteRange_block fs ga l r gms a c ms :
    typed (plug fs (PElem "blockGroup" ga (l ++ PElem "blockContainer" a c ms :: r) gms)) = true →
    l ++ r ≠ [] →
    let start := (inner fs + csize l + 1)%Z in
    tr_deleteRange (plug fs (PElem "blockGroup" ga (l ++ PElem "blockContainer" a c ms :: r) gms))
      start (start + csize c) =
    Ok (plug fs (PElem "blockGroup" ga (l ++ r) gms));
  deleteRange_group fs pa content ga gms a c ms pms :
    typed (plug fs (PElem "blockContainer" pa
      [content; PElem "blockGroup" ga [PElem "blockContainer" a c ms] gms] pms)) = true →
    let start := (inner fs + nodeSize content + 2)%Z in
    tr_deleteRange (plug fs (PElem "blockContainer" pa
      [content; PElem "blockGroup" ga [PElem "blockContainer" a c ms] gms] pms))
      start (start + csize c) =
    Ok (plug fs (PElem "blockContainer" pa [content] pms));
  (** A node gets another type and attributes if the type takes its content. *)
  setNodeMarkup_ok fs t a c ms type ds given :
    typed (plug fs (PElem t a c ms)) = true → fs ≠ [] →
    node_spec (default t type) = Some ds →
    typed (plug fs (PElem (default t type) (compute_attrs ds given) c ms)) = true →
    tr_setNodeMarkup (plug fs (PElem t a c ms)) (hole fs) type given =
    Ok (plug fs (PElem (default t type) (compute_attrs ds given) c ms));
  setNodeMarkup_invalid fs t a c ms type given :
    typed (plug fs (PElem t a c ms)) = true → fs ≠ [] →
    content_ok (default t type) c = false →
    is_ok (tr_setNodeMarkup (plug fs (PElem t a c ms)) (hole fs) type given) = false;
  (** One attribute of a node that stays as it is. *)
  setNodeAttribute_ok fs t a c ms ds key v :
    typed (plug fs (PElem t a c ms)) = true → fs ≠ [] → node_spec t = Some ds →
    tr_setNodeAttribute (plug fs (PElem t a c ms)) (hole fs) key v =
    Ok (plug fs (PElem t (compute_attrs ds (oset a key v)) c ms));
}.
