(* ===== verification/EditorBlocks.v ===== *)
(** * The editor's operations on blocks

    [packages/editor/src/blocknote/core]: [getNodeById] of api/util/nodeUtil.ts,
    [getBlockInfoFromPos] of extensions/Blocks/helpers, the operations of
    api/blockManipulation/blockManipulation.ts and the commands that they run, of
    extensions/Blocks/nodes/BlockContainer.ts.  A command of the editor takes the
    document of its transaction to the next one. *)
From S2P Require Import Prelude.
From S2P Require Import JsString.
From S2P Require Import JsObject.
From S2P Require Import DaemonApi.
From S2P Require Import NodeConvert.
From S2P Require Import Positions.

Section editor.
Context `{Schema, ProseMirror} {G : Type} (generateID : call G string).

(** ** Finding blocks *)

Definition is_block (id : AttrVal) (node : PNode) : bool :=
  String.eqb (n_type node) "blockContainer" && bool_decide (attr (n_attrs node) "id" = id).

(** The callback of [getNodeById]. *)
Definition look_for (id : AttrVal) (found : option (PNode * Z)) (node : PNode) (pos : Z) :
    option (PNode * Z) * bool :=
  match found with
  | Some _ => (found, false)
  | None => if is_block id node then (Some (node, (pos + 1)%Z), false) else (None, true)
  end.

Definition not_in_editor : string := "Could not find block in the editor with matching ID.".

(** The node and [posBeforeNode]. *)
Definition getNodeById (id : string) (doc : PNode) : result (PNode * Z) :=
  match n_content doc with
  | [] => Err "TypeError"
  | firstChild :: _ =>
      match descendants (look_for (VStr id)) firstChild None with
      | Some r => Ok r
      | None => Err not_in_editor
      end
  end.

Record BlockPos : Type := {
  bp_id : AttrVal;
  bp_node : PNode;
  bp_contentNode : PNode;
  bp_numChildBlocks : nat;
  bp_startPos : Z;
  bp_endPos : Z;
  bp_depth : nat;
}.

(** [doc.resolve(pos).parent.type.name] *)
Definition parent_type (doc : PNode) (pos : Z) : result string :=
  let* p := resolve doc pos in
  match last p with
  | Some (n, _) => Ok (n_type n)
  | None => Err "TypeError"
  end.

(** The two loops that move a position into a block; the fuel is the distance to the
    bound. *)
Fixpoint seek_right (fuel : nat) (doc : PNode) (bound pos : Z) : result Z :=
  match fuel with
  | O => Ok pos
  | S k =>
      let* t := parent_type doc pos in
      if negb (String.eqb t "blockContainer") && (pos <? bound)%Z
      then seek_right k doc bound (pos + 1) else Ok pos
  end.
Fixpoint seek_left (fuel : nat) (doc : PNode) (bound pos : Z) : result Z :=
  match fuel with
  | O => Ok pos
  | S k =>
      let* t := parent_type doc pos in
      if negb (String.eqb t "blockContainer") && (bound <? pos)%Z
      then seek_left k doc bound (pos - 1) else Ok pos
  end.
Definition seek_fuel (a b : Z) : nat := S (Z.to_nat (b - a)).

Definition outer_start : Z := 1.
Definition outer_end (doc : PNode) : Z := (nodeSize doc - 2)%Z.

(** The position that is looked up. *)
Definition block_pos (doc : PNode) (pos : Z) : result Z :=
  let* pos :=
    if (pos <=? outer_start)%Z then
      seek_right (seek_fuel (outer_start + 1) (outer_end doc)) doc (outer_end doc) (outer_start + 1)
    else if (outer_end doc <=? pos)%Z then
      seek_left (seek_fuel outer_start (outer_end doc - 1)) doc outer_start (outer_end doc - 1)
    else Ok pos in
  let* t := parent_type doc pos in
  Ok (if String.eqb t "blockGroup" then pos + 1 else pos)%Z.

(** The loop over the depths of the position, from the innermost. *)
Fixpoint innermost_block (rpath : ResolvedPos) : option (PNode * Z * nat) :=
  match rpath with
  | [] => None
  | (n, start) :: outer =>
      if String.eqb (n_type n) "blockContainer" then Some (n, start, length outer)
      else innermost_block outer
  end.

Definition no_block : string :=
  "Could not find blockContainer node. This can only happen if the underlying BlockNote schema has been edited.".

Definition block_info (node : PNode) (startPos : Z) (depth : nat) : result BlockPos :=
  let* info := getBlockInfo node in
  Ok {| bp_id := bi_id info; bp_node := node; bp_contentNode := bi_contentNode info;
        bp_numChildBlocks := bi_numChildBlocks info; bp_startPos := startPos;
        bp_endPos := (startPos + content_size node)%Z; bp_depth := depth |}.

Definition getBlockInfoFromPos (doc : PNode) (pos : Z) : result BlockPos :=
  let* pos := block_pos doc pos in
  let* p := resolve doc pos in
  match innermost_block (reverse p) with
  | None => Err no_block
  | Some (node, startPos, depth) => block_info node startPos depth
  end.

(** ** Commands *)

(** [BNDeleteBlock] *)
Definition BNDeleteBlock (posInBlock : Z) (doc : PNode) : result PNode :=
  let* b := getBlockInfoFromPos doc posInBlock in
  tr_deleteRange doc (bp_startPos b) (bp_endPos b).

(** The replacement of a block's children in [BNUpdateBlock]. *)
Definition update_children (b : BlockPos) (childNodes : list PNode) (doc : PNode) : result PNode :=
  let after := (bp_startPos b + nodeSize (bp_contentNode b))%Z in
  match n_content (bp_node b) with
  | [_; _] => tr_replace doc (after + 1) (bp_endPos b - 1) childNodes
  | _ =>
      let* group := schema_create "blockGroup" (Some []) childNodes in
      tr_insert doc after [group]
  end.
(** The replacement of its content. *)
Definition update_nodes (content : BlockContent) : result (list PNode) :=
  match content with
  | ContentString s => let* t := schema_text s [] in Ok [t]
  | ContentInlines l => inlineContentToNodes l
  end.
Definition update_content (b : BlockPos) (content : BlockContent) (doc : PNode) : result PNode :=
  let* nodes := update_nodes content in
  tr_replace doc (bp_startPos b + 1) (bp_startPos b + nodeSize (bp_contentNode b) - 1) nodes.

(** [{...attrs, ...props}] *)
Definition merged (attrs : Attrs) (props : option Attrs) : Attrs := ospread attrs (default [] props).

(** [state.schema.nodes[type]], for which an unknown type is like none. *)
Definition schema_type (type : option string) : option string :=
  t ← type; if known_type t then Some t else None.

(** [BNUpdateBlock] *)
Definition BNUpdateBlock (posInBlock : Z) (block : PartialBlock) (doc : PNode) : call G PNode :=
  match block with
  | PBlock _ type props content children =>
      await* b := c_lift (getBlockInfoFromPos doc posInBlock) in
      await* doc :=
        match children with
        | Some ((_ :: _) as l) =>
            await* childNodes := c_map (blockToNode generateID) l in
            c_lift (update_children b childNodes doc)
        | _ => c_ret doc
        end in
      await* doc :=
        match content with
        | Some c => c_lift (update_content b c doc)
        | None => c_ret doc
        end in
      let type := schema_type type in
      await* doc := c_lift (tr_setNodeMarkup doc (bp_startPos b) type
                              (merged (n_attrs (bp_contentNode b)) props)) in
      c_lift (tr_setNodeMarkup doc (bp_startPos b - 1) None (merged (n_attrs (bp_node b)) props))
  end.

(** ** The operations of the editor *)

Inductive Placement : Type := Before | After | Nested.

Definition insertBlocks (blocksToInsert : list PartialBlock) (referenceBlock : string)
    (placement : Placement) (doc : PNode) : call G PNode :=
  await* nodesToInsert := c_map (blockToNode generateID) blocksToInsert in
  await* r := c_lift (getNodeById referenceBlock doc) in
  let node := r.1 in
  let posBeforeNode := r.2 in
  match placement with
  | Before => c_lift (tr_insert doc posBeforeNode nodesToInsert)
  | After => c_lift (tr_insert doc (posBeforeNode + nodeSize node) nodesToInsert)
  | Nested =>
      match n_content node with
      | [] => c_lift (Err "TypeError")
      | [c] =>
          await* blockGroupNode := c_lift (schema_create "blockGroup" (Some []) nodesToInsert) in
          c_lift (tr_insert doc (posBeforeNode + nodeSize c + 1) [blockGroupNode])
      | c :: _ => c_lift (tr_insert doc (posBeforeNode + nodeSize c + 2) nodesToInsert)
      end
  end.

Definition updateBlock (blockToUpdate : string) (update : PartialBlock) (doc : PNode) : call G PNode :=
  await* r := c_lift (getNodeById blockToUpdate doc) in
  BNUpdateBlock (r.2 + 1) update doc.

(** The state of [removeBlocks] during the traversal: [idsOfBlocksToRemove],
    [removedSize] and the document as it is now; a command that throws ends it. *)
Record Removal : Type := {
  rm_ids : list string;
  rm_removedSize : Z;
  rm_doc : PNode;
  rm_error : option string;
}.

Definition str_id (n : PNode) : option string :=
  match attr (n_attrs n) "id" with VStr s => Some s | _ => None end.

(** The callback of [descendants]. *)
Definition remove_visit (st : Removal) (node : PNode) (pos : Z) : Removal * bool :=
  match rm_error st with
  | Some _ => (st, false)
  | None =>
      match rm_ids st with
      | [] => (st, false)
      | ids =>
          match str_id node with
          | Some id =>
              if String.eqb (n_type node) "blockContainer" && bool_decide (id ∈ ids) then
                let ids := List.filter (λ i, negb (String.eqb i id)) ids in
                match BNDeleteBlock (pos - rm_removedSize st + 1) (rm_doc st) with
                | Ok doc =>
                    ({| rm_ids := ids;
                        rm_removedSize := (rm_removedSize st + (nodeSize (rm_doc st) - nodeSize doc))%Z;
                        rm_doc := doc; rm_error := None |}, false)
                | Err m =>
                    ({| rm_ids := ids; rm_removedSize := rm_removedSize st; rm_doc := rm_doc st;
                        rm_error := Some m |}, false)
                end
              else (st, true)
          | None => (st, true)
          end
      end
  end.

Definition not_found (ids : list string) : string :=
  "Blocks with the following IDs could not be found in the editor: " +:+ js_join (String LF "") ids.

(** The document afterwards, and what is thrown. *)
Definition removeBlocks (blocksToRemove : list string) (doc : PNode) : PNode * result () :=
  let st := descendants remove_visit doc
    {| rm_ids := dedup blocksToRemove; rm_removedSize := 0; rm_doc := doc; rm_error := None |} in
  (rm_doc st,
   match rm_error st with
   | Some m => Err m
   | None => match rm_ids st with [] => Ok () | ids => Err (not_found ids) end
   end).

(** The insertion stays when the removal throws. *)
Definition replaceBlocks (blocksToRemove : list string) (blocksToInsert : list PartialBlock)
    (doc : PNode) (g : G) : G * (PNode * result ()) :=
  match blocksToRemove with
  | [] => (g, (doc, Err "TypeError"))
  | first :: _ =>
      match insertBlocks blocksToInsert first Before doc g with
      | (g', Ok doc') => (g', removeBlocks blocksToRemove doc')
      | (g', Err m) => (g', (doc, Err m))
      end
  end.
End editor.
