(* ===== verification/PositionsFacts.v ===== *)
(** * Facts about positions

    Typing is local, sizes add up, and traversals go through a document piece by
    piece. *)
From S2P Require Import Prelude.
From S2P Require Import JsString.
From S2P Require Import JsObject.
From S2P Require Import DaemonApi.
From S2P Require Import NodeConvert.
From S2P Require Import BlockNodes.
From S2P Require Import Positions.

(** ** Typing *)

Lemma n_type_fmap_nil (l : list PNode) : n_type <$> l = [] ↔ l = [].
Proof. destruct l; done. Qed.
Lemma forallb_types (f : string → bool) l l' :
  n_type <$> l = n_type <$> l' → forallb (λ n, f (n_type n)) l = forallb (λ n, f (n_type n)) l'.
Proof.
  revert l'. induction l as [|x l IH]; intros [|y l'] E; try done. cbn in E |- *.
  injection E as Ex E. by rewrite Ex, (IH l').
Qed.

(** Content expressions only look at the types. *)
Lemma content_ok_types t l l' : n_type <$> l = n_type <$> l' → content_ok t l = content_ok t l'.
Proof.
  intros E. unfold content_ok. rewrite E.
  assert (bool_decide (l = []) = bool_decide (l' = [])) as ->.
  { apply bool_decide_ext. rewrite <- !n_type_fmap_nil. by rewrite E. }
  rewrite (forallb_types (λ t, String.eqb t "blockContainer") l l' E),
    (forallb_types (λ t, String.eqb t "text") l l' E),
    (forallb_types (λ t, String.eqb (type_group t) "inline") l l' E).
  destruct l as [|c [|g [|h l]]], l' as [|c' [|g' [|h' l']]]; try discriminate E; try done; cbn in E;
    injection E; intros; simplify_eq/=; repeat match goal with E : n_type _ = n_type _ |- _ => rewrite E end; done.
Qed.

Lemma typed_elem t a c ms :
  typed (PElem t a c ms) = true ↔ t ≠ "text" ∧ content_ok t c = true ∧ forallb typed c = true.
Proof. cbn. rewrite !andb_true_iff, negb_true_iff, String.eqb_neq. tauto. Qed.

Lemma typed_plug_inv fs n : typed (plug fs n) = true → typed n = true.
Proof.
  revert n. induction fs as [|f fs IH]; intros n Ht; [done|]. cbn in Ht. apply IH in Ht.
  unfold fill_frame in Ht. apply typed_elem in Ht as (_ & _ & Ht).
  rewrite !forallb_app in Ht. cbn in Ht. bool_simpl. done.
Qed.
(** A node may take the place of another of its type. *)
Lemma typed_replug fs n n' :
  typed (plug fs n) = true → typed n' = true → n_type n' = n_type n → typed (plug fs n') = true.
Proof.
  revert n n'. induction fs as [|f fs IH]; intros n n' Ht Hn' En; [done|]. cbn in Ht |- *.
  apply (IH _ (fill_frame f [n'])) in Ht; [exact Ht| |done].
  pose proof (typed_plug_inv _ _ Ht) as Hf. unfold fill_frame in *.
  apply typed_elem in Hf as (Htx & Hc & Hf). apply typed_elem. split; [done|]. split.
  - rewrite (content_ok_types _ _ (f_left f ++ [n] ++ f_right f)); [done|].
    by rewrite !fmap_app; cbn; rewrite En.
  - rewrite !forallb_app in Hf |- *. cbn in Hf |- *. bool_simpl. repeat (apply andb_true_iff; split; try done).
Qed.

(** *** Blocks *)

Definition is_container (n : PNode) : bool := String.eqb (n_type n) "blockContainer".

Lemma typed_group a c ms :
  typed (PElem "blockGroup" a c ms) = true ↔
  c ≠ [] ∧ forallb is_container c = true ∧ forallb typed c = true.
Proof.
  rewrite typed_elem. cbn -[forallb is_container]. rewrite andb_true_iff, negb_true_iff, bool_decide_eq_false.
  unfold is_container. naive_solver.
Qed.
Lemma type_group_content t : type_group t = "blockContent" ↔ t ∈ content_types.
Proof. unfold type_group. repeat case_bool_decide; split; try done. set_solver. Qed.
Ltac not_member H :=
  let H' := fresh in
  exfalso; match type of H with ?P => assert (bool_decide P = true) as H' by (by apply bool_decide_eq_true) end;
  vm_compute in H'; discriminate H'.
Lemma type_group_inline t :
  type_group t = "inline" ↔ t = "text" ∨ t = "hardBreak" ∨ t = "inline-embed".
Proof. unfold type_group. repeat case_bool_decide; split; try done; try set_solver. Qed.
Lemma inline_content t c :
  t ∈ content_types → content_ok t c = true →
  forallb (λ n, String.eqb (type_group (n_type n)) "inline") c = true.
Proof.
  intros Hin. unfold content_ok.
  destruct (String.eqb_spec t "doc") as [->|]; [not_member Hin|].
  destruct (String.eqb_spec t "blockGroup") as [->|]; [not_member Hin|].
  destruct (String.eqb_spec t "blockContainer") as [->|]; [not_member Hin|].
  destruct (String.eqb_spec t "codeBlock") as [_|_].
  - intros Hc. apply forallb_forall. intros x Hx. eapply forallb_forall in Hc; [|done]. cbn in Hc.
    apply String.eqb_eq in Hc. by rewrite Hc.
  - by rewrite bool_decide_eq_true_2 by done.
Qed.
(** A container is its content, and a group if it has children. *)
Definition container_shape (n : PNode) : Prop :=
  ∃ a content group ms, n = PElem "blockContainer" a (content :: group) ms ∧
    type_group (n_type content) = "blockContent" ∧ typed content = true ∧
    (group = [] ∨ ∃ ga kids gms, group = [PElem "blockGroup" ga kids gms] ∧ kids ≠ [] ∧
       forallb is_container kids = true ∧ forallb typed kids = true).
Lemma container_inv n : typed n = true → n_type n = "blockContainer" → container_shape n.
Proof.
  intros Ht Hn. destruct n as [s ms|t a c ms]; [discriminate|]. cbn in Hn. subst t.
  apply typed_elem in Ht as (_ & Hc & Ht). cbn in Hc. destruct c as [|content group]; [discriminate|].
  cbn in Ht. bool_simpl. exists a, content, group, ms. split; [done|]. split; [done|]. split; [done|].
  destruct group as [|g [|]]; [by left| |discriminate]. right. bool_simpl.
  destruct g as [|t ga kids gms]; [discriminate|]. cbn in *. subst t.
  exists ga, kids, gms. split; [done|]. apply (typed_group ga kids gms).
  by rewrite andb_true_r in H0.
Qed.
Lemma typed_container a content group ms :
  typed (PElem "blockContainer" a (content :: group) ms) = true ↔
  type_group (n_type content) = "blockContent" ∧ typed content = true ∧
  (group = [] ∨ ∃ g, group = [g] ∧ n_type g = "blockGroup" ∧ typed g = true).
Proof.
  rewrite typed_elem. cbn. rewrite !andb_true_iff, String.eqb_eq. split.
  - intros (_ & [Hc Hg] & Ht & Hgs). split; [done|]. split; [done|].
    destruct group as [|g [|]]; [by left| |discriminate]. right. exists g. bool_simpl. cbn in Hgs. bool_simpl. done.
  - intros (Hc & Ht & [->|(g & -> & Hg & Htg)]); [done|].
    cbn. by rewrite Hg, Htg.
Qed.

Definition typed_block (n : PNode) : Prop := typed n = true ∧ n_type n = "blockContainer".
Lemma typed_blocks l : Forall typed_block l → forallb typed l = true ∧ forallb is_container l = true.
Proof.
  induction 1 as [|n l [Ht Hn] _ [IH1 IH2]]; [done|]. cbn. unfold is_container at 1. by rewrite Ht, Hn, IH1, IH2.
Qed.

(** Induction over the blocks of a document. *)
Section block_ind.
Variable P : PNode → Prop.
Hypothesis Hleaf : ∀ a c ms,
  type_group (n_type c) = "blockContent" → typed c = true → P (PElem "blockContainer" a [c] ms).
Hypothesis Hgroup : ∀ a c ga kids gms ms,
  type_group (n_type c) = "blockContent" → typed c = true → kids ≠ [] →
  Forall typed_block kids → Forall P kids →
  P (PElem "blockContainer" a [c; PElem "blockGroup" ga kids gms] ms).

Lemma block_tree_ind n : typed_block n → P n.
Proof.
  enough ((typed_block n → P n) ∧
          (typed n = true → n_type n = "blockGroup" → Forall typed_block (n_content n) ∧ Forall P (n_content n)))
    as Hn by apply Hn.
  induction n as [s ms|t a c ms IH] using pnode_tree_ind; [by split; [intros [_ ?]|intros _ ?]|]. split.
  - intros [Ht Hn]. destruct (container_inv _ Ht Hn) as (a' & content & group & ms' & [= -> -> -> ->] & Hg & Htc & Hgr).
    destruct Hgr as [->|(ga & kids & gms & -> & Hne & Hk & Htk)]; [by apply Hleaf|].
    inversion IH as [|?? _ IH']; subst. inversion IH' as [|?? [_ IHg] _]; subst.
    destruct IHg as [Hty HP]; [by apply (typed_group ga kids gms)|done|]. by apply Hgroup.
  - cbn. intros Ht ->. apply (typed_group a c ms) in Ht as (_ & Hk & Htk).
    assert (Forall typed_block c) as Hc.
    { apply Forall_forall. intros x Hx%list_elem_of_In.
      split; [by eapply forallb_forall in Htk|]. eapply forallb_forall in Hk; [|exact Hx]. by apply String.eqb_eq. }
    split; [done|]. apply Forall_forall. intros x Hx. rewrite Forall_forall in IH, Hc.
    destruct (IH x Hx) as [HP _]. by apply HP, Hc.
Qed.
End block_ind.

(** ** Sizes *)

Section sizes.
Context `{SizeLaws}.

Lemma csize_app l k : (csize (l ++ k) = csize l + csize k)%Z.
Proof. induction l as [|n l IH]; [done|]. cbn. lia. Qed.
Lemma csize_cons n l : (csize (n :: l) = nodeSize n + csize l)%Z.
Proof. done. Qed.

Lemma nodeSize_pos n : typed n = true → (0 < nodeSize n)%Z.
Proof.
  induction n as [s ms|t a c ms IH] using pnode_tree_ind; intros Ht.
  - rewrite size_text. destruct s; [done|]. cbn. lia.
  - rewrite size_elem. case_match; [lia|]. apply typed_elem in Ht as (_ & _ & Ht).
    assert (0 ≤ csize c)%Z; [|lia]. clear -IH Ht. induction c as [|x c IHc]; [cbn; lia|].
    cbn in Ht |- *. apply andb_true_iff in Ht as [Hx Hc]. inversion IH as [|?? Hpx Hpc]; subst.
    specialize (Hpx Hx). specialize (IHc Hpc Hc). lia.
Qed.
Lemma csize_nonneg l : forallb typed l = true → (0 ≤ csize l)%Z.
Proof.
  induction l as [|n l IH]; [done|]. cbn. intros [Hn%nodeSize_pos Hl%IH]%andb_true_iff. lia.
Qed.
Lemma size_block t a c ms : is_leaf t = false → nodeSize (PElem t a c ms) = (2 + csize c)%Z.
Proof. intros Hl. by rewrite size_elem, Hl. Qed.

Definition typed_frame (f : Frame) : Prop :=
  is_leaf (f_type f) = false ∧ forallb typed (f_left f) = true ∧ forallb typed (f_right f) = true.
Lemma leaf_content t c : content_ok t c = true → c ≠ [] → is_leaf t = false.
Proof.
  intros Hc Hne. unfold is_leaf. apply bool_decide_eq_false. intros Hin.
  apply Hne. by repeat (apply elem_of_cons in Hin as [->|Hin]; [by destruct c|]); apply elem_of_nil in Hin.
Qed.
Lemma typed_frames fs n : typed (plug fs n) = true → Forall typed_frame fs.
Proof.
  revert n. induction fs as [|f fs IH]; intros n Ht; [constructor|]. cbn in Ht.
  constructor; [|by eapply IH]. apply typed_plug_inv in Ht. unfold fill_frame in Ht.
  apply typed_elem in Ht as (_ & Hc & Ht). rewrite !forallb_app in Ht. bool_simpl.
  split; [|done]. eapply leaf_content; [done|]. by destruct (f_left f).
Qed.

Lemma inner_nonneg fs : Forall typed_frame fs → (0 ≤ inner fs)%Z.
Proof.
  induction 1 as [|f fs (_ & Hl & _) _ IH]; [done|]. cbn. apply csize_nonneg in Hl. lia.
Qed.

(** The size of what follows a place. *)
Fixpoint after_size (fs : list Frame) : Z :=
  match fs with
  | [] => 0
  | f :: fs' => csize (f_right f) + match fs' with [] => 0 | _ => 1 + after_size fs' end
  end%Z.
Lemma content_size_plug fs n :
  Forall typed_frame fs → fs ≠ [] →
  content_size (plug fs n) = (hole fs + nodeSize n + after_size fs)%Z.
Proof.
  intros Hf. revert n. induction Hf as [|f fs (Hl & _) Hfs IH]; intros n Hne; [done|].
  unfold hole in *. cbn [plug inner after_size]. destruct fs as [|g fs].
  - cbn [plug inner]. unfold fill_frame, content_size. cbn [n_content].
    rewrite !csize_app. cbn. lia.
  - rewrite IH by done. unfold fill_frame at 1. rewrite size_block by done.
    rewrite !csize_app. cbn [csize]. lia.
Qed.
Lemma nodeSize_doc t a c ms :
  is_leaf t = false → nodeSize (PElem t a c ms) = (content_size (PElem t a c ms) + 2)%Z.
Proof. intros Hl. rewrite size_block by done. unfold content_size. cbn [n_content]. lia. Qed.

End sizes.

Section resolving.
Context `{ProseMirrorLaws}.

(** ** Resolving *)

Lemma ancestors_last fs n : last (ancestors fs n) = Some (n, inner fs).
Proof. destruct fs as [|f fs]; cbn [ancestors]; [done|]. apply last_snoc. Qed.
Lemma ancestors_reverse fs n :
  reverse (ancestors fs n) =
  (n, inner fs) :: match fs with [] => [] | f :: fs' => reverse (ancestors fs' (fill_frame f [n])) end.
Proof. destruct fs as [|f fs]; cbn [ancestors]; [done|]. by rewrite reverse_app. Qed.
Lemma ancestors_length fs n : length (ancestors fs n) = S (length fs).
Proof.
  revert n. induction fs as [|f fs IH]; intros n; cbn [ancestors]; [done|].
  rewrite length_app, IH. cbn. lia.
Qed.

(** At the start of a node's content, and before the node. *)
Lemma resolve_inner fs t a c ms :
  typed (plug fs (PElem t a c ms)) = true → is_leaf t = false →
  resolve (plug fs (PElem t a c ms)) (inner fs) = Ok (ancestors fs (PElem t a c ms)).
Proof. intros Ht Hl. pose proof (resolve_between fs t a [] c ms Ht Hl) as E. cbn in E. by rewrite Z.add_0_r in E. Qed.
Lemma resolve_hole f fs n :
  typed (plug (f :: fs) n) = true →
  resolve (plug (f :: fs) n) (hole (f :: fs)) = Ok (ancestors fs (fill_frame f [n])).
Proof.
  intros Ht. pose proof (typed_frames _ _ Ht) as Hf. inversion Hf as [|?? (Hl & _) _]; subst.
  pose proof (resolve_between fs (f_type f) (f_attrs f) (f_left f) ([n] ++ f_right f) (f_marks f) Ht Hl) as E.
  unfold hole. cbn [plug inner]. unfold fill_frame in *.
  by replace (inner fs + csize (f_left f) + 1 - 1)%Z with (inner fs + csize (f_left f))%Z by lia.
Qed.

(** ** Traversals *)

Section visits.
Context {S : Type} (f : S → PNode → Z → S * bool).
Lemma visit_elem t a c ms pos s :
  visit f (PElem t a c ms) pos s =
  if (f s (PElem t a c ms) pos).2 then visit_list f c (pos + 1) (f s (PElem t a c ms) pos).1
  else (f s (PElem t a c ms) pos).1.
Proof.
  cbn [visit]. destruct (f s (PElem t a c ms) pos).2; [|done]. generalize (pos + 1)%Z as p, (f s (PElem t a c ms) pos).1 as s'.
  induction c as [|x c IH]; intros p s'; [done|]. cbn. apply IH.
Qed.
Lemma visit_list_app l k pos s :
  visit_list f (l ++ k) pos s = visit_list f k (pos + csize l) (visit_list f l pos s).
Proof.
  revert pos s. induction l as [|x l IH]; intros pos s; cbn [app visit_list csize].
  - by rewrite Z.add_0_r.
  - rewrite IH. f_equal. lia.
Qed.
(** A callback that has ended leaves its state. *)
Lemma visit_list_stuck l pos s : (∀ n p, f s n p = (s, false)) → visit_list f l pos s = s.
Proof.
  intros Hs. revert pos. induction l as [|x l IH]; intros pos; [done|]. cbn [visit_list].
  assert (visit f x pos s = s) as ->; [|apply IH]. destruct x; cbn [visit]; by rewrite Hs.
Qed.
(** So does one that takes no notice of what is inside of a block's content. *)
Lemma visit_inline n pos s :
  (∀ m p, n_type m ≠ "blockContainer" → n_type m ≠ "blockGroup" → f s m p = (s, true)) →
  type_group (n_type n) = "inline" → typed n = true → visit f n pos s = s.
Proof.
  intros Hs Hg Ht. destruct n as [t ms|t a c ms].
  - cbn [visit]. rewrite Hs by done. done.
  - cbn [n_type] in Hg. rewrite visit_elem, Hs by (cbn [n_type]; intros E; by rewrite E in Hg). cbn.
    apply typed_elem in Ht as (Hnt & Hc & _).
    assert (c = []) as ->; [|done]. apply type_group_inline in Hg as [->|[->| ->]]; [done| |];
      by apply bool_decide_eq_true in Hc.
Qed.
Lemma visit_content n pos s :
  (∀ m p, n_type m ≠ "blockContainer" → n_type m ≠ "blockGroup" → f s m p = (s, true)) →
  type_group (n_type n) = "blockContent" → typed n = true → visit f n pos s = s.
Proof.
  intros Hs Hg Ht. destruct n as [|t a c ms]; [discriminate|]. cbn [n_type] in Hg.
  rewrite visit_elem, Hs by (cbn [n_type]; intros E; by rewrite E in Hg). cbn.
  apply typed_elem in Ht as (_ & Hc & Ht). apply type_group_content in Hg.
  pose proof (inline_content t c Hg Hc) as Hi. clear Hc. generalize (pos + 1)%Z as p.
  induction c as [|x c IH]; intros p; [done|]. cbn in Ht, Hi |- *. bool_simpl.
  rewrite visit_inline by done. by apply IH.
Qed.
End visits.
End resolving.
