(* ===== verification/EditorBlocksFacts.v ===== *)
(** * Finding and inserting blocks

    Every position of a document but one is taken to the block around it, a block is
    found by its id, and new blocks are put where they are asked for. *)
From S2P Require Import Prelude.
From S2P Require Import JsString.
From S2P Require Import JsObject.
From S2P Require Import DaemonApi.
From S2P Require Import NodeConvert.
From S2P Require Import BlockNodes.
From S2P Require Import Positions.
From S2P Require Import EditorBlocks.
From S2P Require Import PositionsFacts.

(** ** The ids of a document *)

Definition own_id (t : string) (a : Attrs) : list AttrVal :=
  if String.eqb t "blockContainer" then [attr a "id"] else [].
(** The ids of the containers, in document order. *)
Fixpoint block_ids (n : PNode) : list AttrVal :=
  match n with
  | PText _ _ => []
  | PElem t a c _ => own_id t a ++ concat (block_ids <$> c)
  end.
Fixpoint ids_before (fs : list Frame) : list AttrVal :=
  match fs with
  | [] => []
  | f :: fs' => ids_before fs' ++ own_id (f_type f) (f_attrs f) ++ concat (block_ids <$> f_left f)
  end.

Lemma plug_app fs gs n : plug (fs ++ gs) n = plug gs (plug fs n).
Proof. revert n. induction fs as [|f fs IH]; intros n; [done|]. cbn. apply IH. Qed.
Lemma ids_before_app fs gs : ids_before (fs ++ gs) = ids_before gs ++ ids_before fs.
Proof.
  induction fs as [|f fs IH]; cbn; [by rewrite app_nil_r|]. by rewrite IH, <- !(assoc_L (++)).
Qed.

Section finding.
Context `{ProseMirrorLaws}.

Lemma inner_app fs gs : (inner (fs ++ gs) = inner fs + inner gs)%Z.
Proof. induction fs as [|f fs IH]; cbn; [done|]. rewrite IH. lia. Qed.

(** ** [getNodeById] *)

Section look.
Variable id : AttrVal.
Abbreviation look := (visit (look_for id)).

Lemma look_found n pos r : look n pos (Some r) = Some r.
Proof. by destruct n. Qed.
Lemma look_list_found l pos r : visit_list (look_for id) l pos (Some r) = Some r.
Proof. by apply visit_list_stuck. Qed.

Lemma is_block_elem t a c ms :
  is_block id (PElem t a c ms) = true ↔ id ∈ own_id t a.
Proof.
  unfold is_block, own_id. cbn. destruct (String.eqb t "blockContainer"); cbn.
  - rewrite bool_decide_eq_true, list_elem_of_singleton. done.
  - by rewrite elem_of_nil.
Qed.

Lemma look_skip t a c ms pos :
  id ∉ own_id t a → look_for id None (PElem t a c ms) pos = (None, true).
Proof.
  intros Ho. cbn [look_for]. destruct (is_block id (PElem t a c ms)) eqn:E; [|done].
  by apply is_block_elem in E.
Qed.

Lemma look_absent n pos : id ∉ block_ids n → look n pos None = None.
Proof.
  revert pos. induction n as [s ms|t a c ms IH] using pnode_tree_ind; intros pos Hid; [done|].
  cbn in Hid. rewrite not_elem_of_app in Hid. destruct Hid as [Ho Hc].
  rewrite visit_elem, look_skip by done. cbn [fst snd]. generalize (pos + 1)%Z as p. induction c as [|x c IHc]; intros p; [done|].
  cbn in Hc. rewrite not_elem_of_app in Hc. inversion IH as [|?? Hx Hcs]; subst.
  cbn. rewrite Hx by tauto. apply IHc; tauto.
Qed.
Lemma look_list_absent l pos :
  id ∉ concat (block_ids <$> l) → visit_list (look_for id) l pos None = None.
Proof.
  revert pos. induction l as [|x l IH]; intros pos Hid; [done|]. cbn in Hid |- *.
  rewrite not_elem_of_app in Hid. rewrite look_absent by tauto. apply IH; tauto.
Qed.

(** The first node with the id in document order is the one that is found. *)
Lemma look_plug fs n pos :
  is_block id n = true → id ∉ ids_before fs →
  look (plug fs n) pos None = Some (n, (pos + inner fs + 1)%Z).
Proof.
  intros Hn. revert pos. induction fs as [|f fs IH] using rev_ind; intros pos Hid.
  - destruct n as [|t a c ms]; [done|]. cbn [plug]. rewrite visit_elem. cbn [look_for]. rewrite Hn. cbn.
    by rewrite Z.add_0_r.
  - rewrite ids_before_app in Hid. cbn [ids_before] in Hid. rewrite !not_elem_of_app in Hid.
    destruct Hid as ((_ & Ho & Hl) & Hfs).
    rewrite plug_app. cbn [plug]. unfold fill_frame. rewrite visit_elem, look_skip by done. cbn [fst snd].
    rewrite !visit_list_app, look_list_absent by done. cbn [visit_list]. rewrite IH by done.
    rewrite look_list_found. rewrite inner_app. cbn [inner]. do 2 f_equal. lia.
Qed.
End look.

(** The frames of a place in the outermost group of a document. *)
Definition doc_frame (a : Attrs) (ms : list Mark) : Frame :=
  {| f_type := "doc"; f_attrs := a; f_left := []; f_right := []; f_marks := ms |}.
Definition in_doc (fs : list Frame) : Prop :=
  ∃ gs g a ms, fs = gs ++ [g; doc_frame a ms] ∧ f_type g = "blockGroup".

Lemma doc_shape doc : typed doc = true → n_type doc = "doc" →
  ∃ a ga kids gms ms, doc = PElem "doc" a [PElem "blockGroup" ga kids gms] ms ∧
    kids ≠ [] ∧ forallb is_container kids = true ∧ forallb typed kids = true.
Proof.
  intros Ht Hn. destruct doc as [|t a c ms]; [discriminate|]. cbn in Hn. subst t.
  apply typed_elem in Ht as (_ & Hc & Ht). cbn in Hc. bool_simpl.
  destruct c as [|g [|]]; try discriminate. destruct g as [|t ga kids gms]; [discriminate|].
  cbn in Hc. injection Hc as ->. cbn [forallb] in Ht. bool_simpl.
  match goal with Hg : typed _ = true |- _ => apply typed_group in Hg end.
  by exists a, ga, kids, gms, ms.
Qed.

Lemma getNodeById_found id fs n :
  in_doc fs → is_block (VStr id) n = true → VStr id ∉ ids_before fs →
  getNodeById id (plug fs n) = Ok (n, hole fs).
Proof.
  intros (gs & g & a & ms & -> & Hg) Hn Hid. unfold getNodeById. rewrite plug_app. cbn [plug].
  unfold fill_frame at 1. cbn [n_content doc_frame f_left f_right app]. rewrite descendants_eq.
  unfold fill_frame. cbn [n_content].
  rewrite ids_before_app in Hid. cbn [ids_before] in Hid. rewrite !not_elem_of_app in Hid.
  destruct Hid as ((_ & Ho & Hl) & Hfs).
  rewrite !visit_list_app, look_list_absent by done. cbn [visit_list]. rewrite look_plug by done.
  rewrite look_list_found. do 2 f_equal. unfold hole. rewrite inner_app. cbn. lia.
Qed.
Lemma getNodeById_missing id doc :
  typed doc = true → n_type doc = "doc" → VStr id ∉ block_ids doc →
  getNodeById id doc = Err not_in_editor.
Proof.
  intros Ht Hn Hid. destruct (doc_shape _ Ht Hn) as (a & ga & kids & gms & ms & -> & _).
  unfold getNodeById. cbn [n_content]. rewrite descendants_eq. cbn [n_content].
  cbn in Hid. rewrite app_nil_r in Hid. by rewrite look_list_absent.
Qed.

(** ** [getBlockInfoFromPos] *)

(** *** The blocks of a document *)

Lemma typed_in_doc fs n :
  typed (plug fs n) = true → n_type (plug fs n) = "doc" → n_type n = "blockContainer" → in_doc fs.
Proof.
  intros Ht Hd Hn. destruct fs as [|d fs _] using rev_ind; [cbn in Hd; congruence|].
  rewrite plug_app in Ht, Hd. cbn [plug] in Ht, Hd. unfold fill_frame in Ht, Hd. cbn [n_type] in Hd.
  destruct d as [t a l r ms]. cbn in Hd. subst t. cbn [f_type f_attrs f_left f_right f_marks] in *.
  apply typed_elem in Ht as (_ & Hc & _). cbn in Hc. apply bool_decide_eq_true in Hc.
  destruct l as [|x l]; [|by destruct l]. destruct r as [|x r]; [|done]. injection Hc as Hc.
  destruct fs as [|g fs _] using rev_ind; [cbn in Hc; congruence|].
  rewrite plug_app in Hc. cbn in Hc. exists fs, g, a, ms. by rewrite <- (assoc_L (++)).
Qed.

Lemma after_size_nonneg fs : Forall typed_frame fs → (0 ≤ after_size fs)%Z.
Proof.
  induction 1 as [|f fs (_ & _ & Hr) Hf IH]; [done|]. cbn. apply csize_nonneg in Hr.
  destruct fs; lia.
Qed.
Lemma in_doc_inner fs : in_doc fs → Forall typed_frame fs → (2 ≤ inner fs)%Z.
Proof.
  intros (gs & g & a & ms & -> & _) Hf. rewrite inner_app. cbn.
  apply Forall_app in Hf as [Hgs Hg]. apply inner_nonneg in Hgs.
  inversion Hg as [|?? (_ & Hl & _) _]; subst. apply csize_nonneg in Hl. lia.
Qed.

(** A block's own positions: before it, in and around its content, and at the end. *)
Definition owns (fs : list Frame) (n : PNode) (pos : Z) : Prop :=
  match n_content n with
  | content :: _ =>
      (hole fs ≤ pos ≤ inner fs + nodeSize content)%Z ∨
      (inner fs + content_size n - 1 ≤ pos ≤ inner fs + content_size n)%Z
  | [] => False
  end.
Definition describes (b : BlockPos) (fs : list Frame) (n : PNode) : Prop :=
  bp_node b = n ∧ bp_startPos b = inner fs ∧ bp_endPos b = (inner fs + content_size n)%Z ∧
  bp_depth b = length fs ∧ head (n_content n) = Some (bp_contentNode b) ∧
  bp_id b = attr (n_attrs n) "id".

Lemma block_info_describes fs n :
  typed n = true → n_type n = "blockContainer" →
  ∃ b, block_info n (inner fs) (length fs) = Ok b ∧ describes b fs n.
Proof.
  intros Ht Hn. destruct (container_inv n Ht Hn) as (a & content & group & ms & -> & _).
  unfold block_info, getBlockInfo. cbn [n_content rbind]. by eexists.
Qed.

(** The block on the path to a position. *)
Lemma innermost_here fs n :
  n_type n = "blockContainer" → innermost_block (reverse (ancestors fs n)) = Some (n, inner fs, length fs).
Proof.
  intros Hn. rewrite ancestors_reverse. cbn [innermost_block]. rewrite Hn. cbn. do 2 f_equal.
  destruct fs as [|f fs]; [done|]. by rewrite length_reverse, ancestors_length.
Qed.
Lemma innermost_outside f fs n :
  n_type n ≠ "blockContainer" →
  innermost_block (reverse (ancestors (f :: fs) n)) =
  innermost_block (reverse (ancestors fs (fill_frame f [n]))).
Proof.
  intros Hn. rewrite ancestors_reverse. cbn [innermost_block].
  by rewrite (proj2 (String.eqb_neq _ _) Hn).
Qed.

(** *** Resolving in the content of a block *)

Lemma inline_split l p :
  forallb typed l = true → forallb (λ n, String.eqb (type_group (n_type n)) "inline") l = true →
  (0 ≤ p ≤ csize l)%Z →
  (∃ l1 l2, l = l1 ++ l2 ∧ p = csize l1) ∨
  (∃ l1 s ms l2 k, l = l1 ++ PText s ms :: l2 ∧ p = (csize l1 + k)%Z ∧ (0 < k < Z.of_nat (len s))%Z).
Proof.
  revert p. induction l as [|n l IH]; intros p Ht Hi Hp.
  - left. exists [], []. cbn in *. split; [done|lia].
  - cbn in Ht, Hi, Hp. bool_simpl. destruct (decide (p = 0)%Z) as [->|Hp0].
    { left. by exists [], (n :: l). }
    destruct (decide (nodeSize n ≤ p)%Z) as [Hle|Hgt].
    + destruct (IH (p - nodeSize n)%Z) as [(l1 & l2 & -> & E)|(l1 & s & ms & l2 & k & -> & E & Hk)];
        [done|done|lia| |].
      * left. exists (n :: l1), l2. cbn. split; [done|lia].
      * right. exists (n :: l1), s, ms, l2, k. cbn. split; [done|]. split; [lia|done].
    + right. destruct n as [s ms|t a c ms].
      * rewrite size_text in *. exists [], s, ms, l, p. cbn. split; [done|]. split; lia.
      * rewrite size_elem in *. cbn [n_type] in *.
        match goal with E : type_group t = "inline" |- _ => apply type_group_inline in E end.
        assert (is_leaf t = true) as Hleaf; [|rewrite Hleaf in *; lia].
        match goal with E : typed _ = true |- _ => apply typed_elem in E as (Hnt & _) end.
        by destruct_or?; subst.
Qed.

Lemma content_type_elem n :
  type_group (n_type n) = "blockContent" → typed n = true →
  ∃ t a c ms, n = PElem t a c ms ∧ is_leaf t = false ∧ t ≠ "blockGroup" ∧ t ≠ "blockContainer" ∧
    forallb typed c = true ∧ forallb (λ n, String.eqb (type_group (n_type n)) "inline") c = true.
Proof.
  intros Hg Ht. destruct n as [|t a c ms]; [discriminate|]. cbn in Hg. exists t, a, c, ms.
  apply typed_elem in Ht as (_ & Hc & Ht). apply type_group_content in Hg.
  split; [done|]. split.
  { unfold is_leaf. apply bool_decide_eq_false. intros Hin.
    repeat (apply elem_of_cons in Hin as [->|Hin]; [not_member Hg|]). by apply elem_of_nil in Hin. }
  split; [intros ->; not_member Hg|]. split; [intros ->; not_member Hg|]. split; [done|].
  by eapply inline_content.
Qed.

Lemma resolve_in_content fs n pos :
  typed (plug fs n) = true → type_group (n_type n) = "blockContent" →
  (inner fs ≤ pos ≤ inner fs + content_size n)%Z →
  resolve (plug fs n) pos = Ok (ancestors fs n).
Proof.
  intros Ht Hg Hp. pose proof (typed_plug_inv _ _ Ht) as Htn.
  destruct (content_type_elem n Hg Htn) as (t & a & c & ms & -> & Hl & _ & _ & Hc & Hi).
  unfold content_size in Hp. cbn [n_content] in Hp.
  destruct (inline_split c (pos - inner fs)%Z) as [(l1 & l2 & -> & E)|(l1 & s & sms & l2 & k & -> & E & Hk)];
    [done|done|lia| |].
  - replace pos with (inner fs + csize l1)%Z by lia. by apply resolve_between.
  - replace pos with (inner fs + csize l1 + k)%Z by lia. by apply resolve_text.
Qed.
End finding.
