(* ===== verification/EditorLookup.v ===== *)
(** * The block at a position

    Every position of a document, and every number before and after it, is taken to a
    block, except the end of the outermost group. *)
From S2P Require Import Prelude.
From S2P Require Import JsString.
From S2P Require Import JsObject.
From S2P Require Import DaemonApi.
From S2P Require Import NodeConvert.
From S2P Require Import BlockNodes.
From S2P Require Import Positions.
From S2P Require Import EditorBlocks.
From S2P Require Import PositionsFacts.
From S2P Require Import EditorBlocksFacts.

Section lookup.
Context `{ProseMirrorLaws}.

Lemma parent_type_path doc pos fs n :
  resolve doc pos = Ok (ancestors fs n) → parent_type doc pos = Ok (n_type n).
Proof. intros E. unfold parent_type. rewrite E. cbn. by rewrite ancestors_last. Qed.

Lemma is_leaf_container : is_leaf "blockContainer" = false. Proof. done. Qed.
Lemma is_leaf_group : is_leaf "blockGroup" = false. Proof. done. Qed.
Lemma is_leaf_doc : is_leaf "doc" = false. Proof. done. Qed.

Lemma exists_first {A} (l : list A) : l ≠ [] → ∃ x l', l = x :: l'.
Proof. destruct l; [done|]. eauto. Qed.
(** The frame of a block's content, and that of its group. *)
Definition content_frame (a : Attrs) (group : list PNode) (ms : list Mark) : Frame :=
  {| f_type := "blockContainer"; f_attrs := a; f_left := []; f_right := group; f_marks := ms |}.
Definition group_frame (a : Attrs) (content : PNode) (ms : list Mark) : Frame :=
  {| f_type := "blockContainer"; f_attrs := a; f_left := [content]; f_right := []; f_marks := ms |}.

(** The positions that are looked up as they are. *)
Lemma plain_block_pos doc pos fs n :
  (outer_start < pos < outer_end doc)%Z → resolve doc pos = Ok (ancestors fs n) →
  n_type n ≠ "blockGroup" → block_pos doc pos = Ok pos.
Proof.
  intros Hp E Hn. unfold block_pos.
  destruct (Z.leb_spec pos outer_start); [lia|]. destruct (Z.leb_spec (outer_end doc) pos); [lia|].
  cbn [rbind]. rewrite (parent_type_path _ _ _ _ E). cbn [rbind].
  by rewrite (proj2 (String.eqb_neq _ _) Hn).
Qed.
Lemma group_block_pos doc pos fs n :
  (outer_start < pos < outer_end doc)%Z → resolve doc pos = Ok (ancestors fs n) →
  n_type n = "blockGroup" → block_pos doc pos = Ok (pos + 1)%Z.
Proof.
  intros Hp E Hn. unfold block_pos.
  destruct (Z.leb_spec pos outer_start); [lia|]. destruct (Z.leb_spec (outer_end doc) pos); [lia|].
  cbn [rbind]. rewrite (parent_type_path _ _ _ _ E). cbn [rbind]. by rewrite Hn.
Qed.

Lemma info_of_path doc pos q path fs n :
  block_pos doc pos = Ok q → resolve doc q = Ok path →
  innermost_block (reverse path) = Some (n, inner fs, length fs) →
  getBlockInfoFromPos doc pos = block_info n (inner fs) (length fs).
Proof. intros Eq Er Ei. unfold getBlockInfoFromPos. rewrite Eq. cbn [rbind]. rewrite Er. cbn [rbind]. by rewrite Ei. Qed.

(** The bounds of a block's positions. *)
Lemma block_bounds fs n :
  in_doc fs → typed (plug fs n) = true → n_type n = "blockContainer" →
  (2 ≤ inner fs)%Z ∧ (inner fs + content_size n < outer_end (plug fs n))%Z ∧
  nodeSize n = (2 + content_size n)%Z.
Proof.
  intros Hd Ht Hn. pose proof (typed_frames _ _ Ht) as Hf. pose proof (in_doc_inner _ Hd Hf) as Hi.
  pose proof (after_size_nonneg _ Hf) as Ha.
  assert (nodeSize n = 2 + content_size n)%Z as Hs.
  { destruct n as [|t a c ms]; [done|]. cbn in Hn. subst t. by rewrite size_block. }
  assert (fs ≠ []) as Hne by (intros ->; cbn in Hi; lia).
  pose proof (content_size_plug fs n Hf Hne) as Hc. unfold hole in Hc.
  split; [done|]. split; [|done]. unfold outer_end.
  assert (nodeSize (plug fs n) = content_size (plug fs n) + 2)%Z as ->; [|lia].
  destruct Hd as (gs & g & a & ms & -> & _). rewrite plug_app. cbn. unfold fill_frame at 1 3.
  by rewrite nodeSize_doc.
Qed.

(** Containers are only found in groups. *)
Lemma container_parent t l n r :
  content_ok t (l ++ n :: r) = true → n_type n = "blockContainer" → t = "blockGroup".
Proof.
  intros Hc Hn. unfold content_ok in Hc.
  destruct (String.eqb_spec t "doc") as [_|_].
  { apply bool_decide_eq_true in Hc. rewrite fmap_app in Hc. cbn in Hc. rewrite Hn in Hc.
    destruct l as [|x [|]]; discriminate Hc. }
  destruct (String.eqb_spec t "blockGroup") as [->|_]; [done|].
  destruct (String.eqb_spec t "blockContainer") as [_|_].
  { destruct l as [|x l]; cbn in Hc; rewrite ?Hn in Hc; [done|]. bool_simpl.
    destruct l as [|y l]; cbn in *; [destruct r; bool_simpl; [congruence|done]|].
    by destruct l. }
  destruct (String.eqb_spec t "codeBlock") as [_|_].
  { rewrite forallb_app in Hc. cbn in Hc. bool_simpl. congruence. }
  case_bool_decide.
  - rewrite forallb_app in Hc. cbn in Hc. rewrite Hn in Hc. bool_simpl. done.
  - apply bool_decide_eq_true in Hc. by destruct l.
Qed.

(** *** Where a block's own positions lead *)

Section own.
Variables (fs : list Frame) (a : Attrs) (content : PNode) (group : list PNode) (ms : list Mark).
Abbreviation n := (PElem "blockContainer" a (content :: group) ms).
Abbreviation doc := (plug fs n).
Hypothesis Hd : in_doc fs.
Hypothesis Ht : typed doc = true.
Abbreviation here pos := (getBlockInfoFromPos doc pos = block_info n (inner fs) (length fs)).

Lemma info_here pos q path :
  block_pos doc pos = Ok q → resolve doc q = Ok path →
  innermost_block (reverse path) = Some (n, inner fs, length fs) → here pos.
Proof. apply info_of_path. Qed.

Lemma at_boundary l r : content :: group = l ++ r → here (inner fs + csize l)%Z.
Proof.
  intros E. destruct (block_bounds fs n Hd Ht eq_refl) as (Hi & He & _).
  unfold content_size in He. cbn [n_content] in He.
  assert (resolve doc (inner fs + csize l) = Ok (ancestors fs n)) as Er.
  { rewrite E in Ht |- *. by apply resolve_between. }
  assert (0 ≤ csize l ∧ csize l ≤ csize (content :: group))%Z as [Hlo Hhi].
  { apply typed_plug_inv, typed_elem in Ht as (_ & _ & Hc). rewrite E in Hc |- *.
    rewrite forallb_app in Hc. bool_simpl. rewrite csize_app. split; [by apply csize_nonneg|].
    assert (0 ≤ csize r)%Z by (by apply csize_nonneg). lia. }
  eapply info_here; [|exact Er|by apply innermost_here].
  eapply plain_block_pos; [unfold outer_start; lia|exact Er|done].
Qed.

Lemma before_block : (1 < hole fs)%Z → here (hole fs).
Proof.
  intros Hh. destruct (block_bounds fs n Hd Ht eq_refl) as (Hi & He & Hs).
  pose proof (nodeSize_pos n (typed_plug_inv _ _ Ht)) as Hpos.
  assert (fs ≠ []) as Hne by (intros ->; cbn in Hi; lia).
  destruct (exists_first fs Hne) as (f & gs & Ef).
  assert (resolve doc (hole fs) = Ok (ancestors gs (fill_frame f [n]))) as Er.
  { rewrite Ef in Ht |- *. by apply resolve_hole. }
  assert (f_type f = "blockGroup") as Hf.
  { rewrite Ef in Ht. cbn [plug] in Ht. apply typed_plug_inv, typed_elem in Ht as (_ & Hc & _).
    by eapply container_parent. }
  eapply info_here.
  - eapply group_block_pos; [unfold outer_start, hole in *; lia|exact Er|exact Hf].
  - unfold hole. rewrite Z.sub_add. by apply resolve_inner.
  - by apply innermost_here.
Qed.

Lemma in_block_content pos :
  (inner fs < pos < inner fs + nodeSize content)%Z → here pos.
Proof.
  intros Hp. destruct (block_bounds fs n Hd Ht eq_refl) as (Hi & He & _).
  pose proof Ht as Htc. apply typed_plug_inv, typed_container in Htc as (Hg & Htc & _).
  destruct (content_type_elem content Hg Htc) as (t & ca & c & cms & E & Hl & Hng & Hnc & _).
  assert (nodeSize content = 2 + content_size content)%Z as Hs by (rewrite E; by apply size_block).
  assert (resolve doc pos = Ok (ancestors (content_frame a group ms :: fs) content)) as Er.
  { apply (resolve_in_content (content_frame a group ms :: fs)); [exact Ht|done|]. cbn. lia. }
  eapply info_here; [|exact Er|].
  - eapply plain_block_pos; [|exact Er|].
    + unfold outer_start, content_size in *. cbn [n_content csize] in He.
      assert (0 ≤ csize group)%Z; [|lia]. apply csize_nonneg.
      apply typed_plug_inv, typed_elem in Ht as (_ & _ & Hc). cbn in Hc. by bool_simpl.
    + by rewrite E.
  - rewrite innermost_outside by (by rewrite E). by apply innermost_here.
Qed.

Lemma at_group_end ga kids gms :
  group = [PElem "blockGroup" ga kids gms] → here (inner fs + content_size n - 1)%Z.
Proof.
  intros E. destruct (block_bounds fs n Hd Ht eq_refl) as (Hi & He & _).
  set (gf := group_frame a content ms).
  pose proof Ht as Htn. apply typed_plug_inv, typed_elem in Htn as (_ & _ & Htn). rewrite E in Htn.
  cbn [forallb] in Htn. bool_simpl.
  assert (0 ≤ nodeSize content)%Z as Hlo by (assert (0 < nodeSize content)%Z by (by apply nodeSize_pos); lia).
  assert (0 ≤ csize kids)%Z as Hhi.
  { apply csize_nonneg. by apply (typed_group ga kids gms). }
  assert (inner fs + content_size n - 1 = inner (gf :: fs) + csize kids)%Z as Ep.
  { unfold content_size. cbn. rewrite E. cbn. rewrite size_block by done. lia. }
  assert (resolve doc (inner fs + content_size n - 1)%Z = Ok (ancestors (gf :: fs) (PElem "blockGroup" ga kids gms))) as Er.
  { rewrite Ep, E. pose proof (resolve_between (gf :: fs) "blockGroup" ga kids [] gms) as Er.
    rewrite app_nil_r in Er. apply Er; [|done]. rewrite E in Ht. exact Ht. }
  eapply info_here.
  - eapply group_block_pos; [|exact Er|done]. unfold outer_start. rewrite Ep in *. cbn in *. lia.
  - replace (inner fs + content_size n - 1 + 1)%Z with (inner fs + csize (content :: group))%Z
      by (unfold content_size; cbn [n_content]; lia).
    pose proof (resolve_between fs "blockContainer" a (content :: group) [] ms) as Er'.
    rewrite app_nil_r in Er'. by apply Er'.
  - by apply innermost_here.
Qed.
End own.

Lemma owned_path fs n pos :
  in_doc fs → typed (plug fs n) = true → n_type n = "blockContainer" →
  owns fs n pos → (outer_start < pos)%Z →
  getBlockInfoFromPos (plug fs n) pos = block_info n (inner fs) (length fs).
Proof.
  intros Hd Ht Hn Ho Hp.
  destruct (container_inv n (typed_plug_inv _ _ Ht) Hn) as (a & content & group & ms & -> & _ & _ & Hgr).
  pose proof (at_boundary fs a content group ms Hd Ht) as Hb.
  pose proof (Hb [] (content :: group) eq_refl) as Hb0. pose proof (Hb [content] group eq_refl) as Hb1.
  pose proof (Hb (content :: group) [] ltac:(by rewrite app_nil_r)) as Hb2. clear Hb.
  pose proof (before_block fs a content group ms Hd Ht) as Hbb.
  pose proof (in_block_content fs a content group ms Hd Ht pos) as Hbc.
  unfold owns, outer_start in *. cbn [n_content] in Ho. cbn [csize] in Hb0, Hb1, Hb2.
  rewrite Z.add_0_r in Hb0. rewrite Z.add_0_r in Hb1.
  destruct Ho as [Ho|Ho].
  - destruct (decide (pos = hole fs)) as [->|]; [by apply Hbb|]. unfold hole in *.
    destruct (decide (pos = inner fs)) as [->|]; [done|].
    destruct (decide (pos = inner fs + nodeSize content)%Z) as [->|]; [done|]. apply Hbc. lia.
  - destruct (decide (pos = inner fs + content_size (PElem "blockContainer" a (content :: group) ms))%Z) as [->|];
      [exact Hb2|].
    assert (pos = inner fs + content_size (PElem "blockContainer" a (content :: group) ms) - 1)%Z as -> by lia.
    destruct Hgr as [->|(ga & kids & gms & E & _)]; [|by eapply at_group_end].
    unfold content_size in *. cbn [n_content csize] in *. rewrite Z.add_0_r in *.
    destruct (decide (nodeSize content = 1)%Z) as [E|]; [rewrite E in *; by replace (inner fs + 1 - 1)%Z with (inner fs) by lia|].
    destruct (block_bounds fs _ Hd Ht eq_refl) as (Hi & _).
    apply typed_plug_inv, typed_container in Ht as (_ & Hc & _). apply nodeSize_pos in Hc. apply Hbc. lia.
Qed.

(** *** Every position is some block's own *)

Definition owned_by_some (doc : PNode) (pos : Z) : Prop :=
  ∃ fs n, doc = plug fs n ∧ n_type n = "blockContainer" ∧ owns fs n pos.

Lemma kids_owned fs ga l r gms pos :
  Forall (λ n, ∀ gs, n_type n = "blockContainer" → (hole gs ≤ pos < hole gs + nodeSize n)%Z →
                 owned_by_some (plug gs n) pos) r →
  forallb is_container r = true →
  (inner fs + csize l ≤ pos < inner fs + csize (l ++ r))%Z →
  owned_by_some (plug fs (PElem "blockGroup" ga (l ++ r) gms)) pos.
Proof.
  intros HF. revert l. induction HF as [|x r Hx _ IH]; intros l Hr Hp.
  - rewrite app_nil_r in Hp. lia.
  - cbn in Hr. apply andb_true_iff in Hr as [Hxc Hr]. apply String.eqb_eq in Hxc.
    destruct (decide (pos < inner fs + csize l + nodeSize x)%Z) as [Hlt|Hge].
    + specialize (Hx ({| f_type := "blockGroup"; f_attrs := ga; f_left := l; f_right := r; f_marks := gms |} :: fs)).
      apply Hx; [done|]. unfold hole. cbn. lia.
    + specialize (IH (l ++ [x]) Hr). rewrite <- (assoc_L (++)) in IH. apply IH.
      rewrite !csize_app in *. cbn in *. lia.
Qed.

Lemma positions_owned n :
  typed n = true → ∀ pos fs,
  (n_type n = "blockContainer" → (hole fs ≤ pos < hole fs + nodeSize n)%Z → owned_by_some (plug fs n) pos) ∧
  (n_type n = "blockGroup" → (inner fs ≤ pos < inner fs + content_size n)%Z → owned_by_some (plug fs n) pos).
Proof.
  induction n as [s ms|t a c ms IH] using pnode_tree_ind; intros Ht pos fs; [done|]. split; intros Hn Hp.
  - destruct (container_inv _ Ht Hn) as (a' & content & group & ms' & [= -> -> -> ->] & Hg & Htc & Hgr).
    rewrite size_block in Hp by done. unfold hole in Hp. cbn [csize] in Hp.
    destruct (decide (pos ≤ inner fs + nodeSize content)%Z) as [Hle|Hgt].
    { eexists fs, _. split; [done|]. split; [done|]. left. cbn [n_content]. unfold hole. lia. }
    destruct Hgr as [->|(ga & kids & gms & -> & _ & Hk & Htk)].
    { eexists fs, _. split; [done|]. split; [done|]. right. unfold content_size. cbn in *. lia. }
    cbn [csize] in Hp. rewrite size_block in Hp by done.
    destruct (decide (inner fs + (nodeSize content + 2 + csize kids) - 1 ≤ pos)%Z) as [Hle|Hlt].
    { eexists fs, _. split; [done|]. split; [done|]. right. unfold content_size.
      cbn [n_content csize]. rewrite size_block by done. lia. }
    inversion IH as [|?? _ IH']; subst. inversion IH' as [|?? IHg _]; subst.
    assert (kids ≠ []) as Hne by (intros ->; cbn in *; lia).
    destruct (IHg (proj2 (typed_group ga kids gms) (conj Hne (conj Hk Htk))) pos (group_frame a' content ms' :: fs))
      as [_ Hgrp].
    apply Hgrp; [done|]. unfold content_size. cbn. lia.
  - cbn in Hn. subst t. apply (typed_group a c ms) in Ht as (_ & Hc & Ht).
    apply (kids_owned fs a [] c ms pos); [|done|cbn in *; unfold content_size in Hp; cbn in Hp; lia].
    apply Forall_forall. intros x Hx gs Hxc Hpx. rewrite Forall_forall in IH.
    assert (typed x = true) as Htx.
    { eapply forallb_forall in Ht; [exact Ht|]. by apply list_elem_of_In. }
    destruct (IH x Hx Htx pos gs) as [Hx' _]. by apply Hx'.
Qed.

(** *** The ends of the document *)

Section ends.
Variables (a : Attrs) (ga : Attrs) (kids : list PNode) (gms ms : list Mark).
Abbreviation doc := (PElem "doc" a [PElem "blockGroup" ga kids gms] ms).
Hypothesis Ht : typed doc = true.

Lemma outer_end_eq : outer_end doc = (csize kids + 2)%Z.
Proof. unfold outer_end. rewrite size_block by done. cbn. rewrite size_block by done. lia. Qed.

Definition kid_frames (l r : list PNode) : list Frame :=
  [{| f_type := "blockGroup"; f_attrs := ga; f_left := l; f_right := r; f_marks := gms |}; doc_frame a ms].

Lemma kid_in_doc l n r : kids = l ++ n :: r → plug (kid_frames l r) n = doc ∧ in_doc (kid_frames l r) ∧
  n_type n = "blockContainer" ∧ inner (kid_frames l r) = (csize l + 2)%Z.
Proof.
  intros ->. split; [done|]. split; [eexists [], _, a, ms; by split; [reflexivity|]|]. split; [|cbn; lia].
  pose proof Ht as Hk. apply typed_elem in Hk as (_ & _ & Hk). cbn [forallb] in Hk. rewrite andb_true_r in Hk.
  apply (typed_group ga (l ++ n :: r) gms) in Hk as (_ & Hk & _).
  rewrite forallb_app in Hk. cbn in Hk. unfold is_container in Hk. bool_simpl. done.
Qed.

Lemma resolve_group_end : resolve doc (outer_end doc - 1) = Ok (ancestors [doc_frame a ms] (PElem "blockGroup" ga kids gms)).
Proof.
  rewrite outer_end_eq. pose proof (resolve_between [doc_frame a ms] "blockGroup" ga kids [] gms) as E.
  rewrite app_nil_r in E. cbn [inner doc_frame f_left csize] in E.
  replace (csize kids + 2 - 1)%Z with (0 + 0 + 1 + csize kids)%Z by lia. by apply E.
Qed.

(** At the start, the first block. *)
Lemma at_start pos n r :
  kids = n :: r → (pos ≤ outer_start)%Z →
  getBlockInfoFromPos doc pos = block_info n (inner (kid_frames [] r)) (length (kid_frames [] r)).
Proof.
  intros E Hp. destruct (kid_in_doc [] n r E) as (Ed & Hd & Hn & Hi). rewrite <- Ed in Ht |- *.
  destruct (block_bounds _ _ Hd Ht Hn) as (_ & He & Hs).
  assert (resolve (plug (kid_frames [] r) n) (outer_start + 1) = Ok (ancestors (kid_frames [] r) n)) as Er.
  { destruct n as [|t na c nms]; [done|]. cbn in Hn. subst t. rewrite <- (resolve_inner (kid_frames [] r)) by done.
    by rewrite Hi. }
  eapply info_of_path; [|exact Er|by apply innermost_here].
  unfold block_pos. rewrite (proj2 (Z.leb_le _ _)) by done. unfold seek_fuel. cbn [seek_right].
  rewrite (parent_type_path _ _ _ _ Er), Hn. cbn [rbind String.eqb Ascii.eqb Bool.eqb negb andb].
  rewrite (parent_type_path _ _ _ _ Er), Hn. done.
Qed.

(** At the end, the last block of the outermost group. *)
Lemma at_end pos l n :
  kids = l ++ [n] → (outer_end doc ≤ pos)%Z →
  getBlockInfoFromPos doc pos = block_info n (inner (kid_frames l [])) (length (kid_frames l [])).
Proof.
  intros E Hp. destruct (kid_in_doc l n [] E) as (Ed & Hd & Hn & Hi).
  pose proof resolve_group_end as Eg. pose proof outer_end_eq as Ee.
  rewrite <- Ed in Ht, Hp, Eg, Ee |- *.
  destruct (block_bounds _ _ Hd Ht Hn) as (Hb & He & Hs).
  assert (inner (kid_frames l []) + content_size n = outer_end (plug (kid_frames l []) n) - 2)%Z as Hend.
  { rewrite Ee, E, csize_app, Hi. cbn. lia. }
  assert (resolve (plug (kid_frames l []) n) (outer_end (plug (kid_frames l []) n) - 1 - 1) =
          Ok (ancestors (kid_frames l []) n)) as Er.
  { replace (outer_end (plug (kid_frames l []) n) - 1 - 1)%Z with (inner (kid_frames l []) + content_size n)%Z by lia.
    destruct n as [|t na c nms]; [done|]. cbn in Hn. subst t. unfold content_size. cbn [n_content].
    pose proof (resolve_between (kid_frames l []) "blockContainer" na c [] nms) as Er. rewrite app_nil_r in Er. by apply Er. }
  eapply info_of_path; [|exact Er|by apply innermost_here].
  assert (0 ≤ content_size n)%Z as Hcn.
  { apply csize_nonneg. pose proof (typed_plug_inv _ _ Ht) as Hn'. destruct n as [|t na c nms]; [done|].
    by apply typed_elem in Hn' as (_ & _ & Hn'). }
  unfold block_pos. destruct (Z.leb_spec pos outer_start) as [Hle|_]; [unfold outer_start in *; lia|].
  rewrite (proj2 (Z.leb_le _ _)) by done. unfold seek_fuel.
  assert (∃ k, Z.to_nat (outer_end (plug (kid_frames l []) n) - 1 - outer_start) = S k) as [k ->].
  { exists (pred (Z.to_nat (outer_end (plug (kid_frames l []) n) - 1 - outer_start))). unfold outer_start. lia. }
  cbn [seek_left]. rewrite (parent_type_path _ _ _ _ Eg). cbn [rbind n_type String.eqb Ascii.eqb Bool.eqb negb andb].
  rewrite (proj2 (Z.ltb_lt _ _)) by (unfold outer_start; lia).
  rewrite (parent_type_path _ _ _ _ Er), Hn. cbn [rbind String.eqb Ascii.eqb Bool.eqb negb andb].
  rewrite (parent_type_path _ _ _ _ Er), Hn. done.
Qed.

(** The end of the outermost group itself is taken out of it. *)
Lemma at_group_close : getBlockInfoFromPos doc (outer_end doc - 1) = Err no_block.
Proof.
  pose proof resolve_group_end as Eg. unfold getBlockInfoFromPos.
  assert (1 ≤ csize kids)%Z as Hk.
  { pose proof Ht as Hk. apply typed_elem in Hk as (_ & _ & Hk). cbn [forallb] in Hk. rewrite andb_true_r in Hk.
    apply (typed_group ga kids gms) in Hk as (Hne & _ & Hk). destruct kids as [|x l]; [done|].
    cbn in Hk |- *. apply andb_true_iff in Hk as [Hx%nodeSize_pos Hl%csize_nonneg]. lia. }
  assert (outer_start < outer_end doc - 1 < outer_end doc)%Z as Hb by (rewrite outer_end_eq; unfold outer_start; lia).
  rewrite (group_block_pos _ _ _ _ Hb Eg eq_refl). cbn [rbind].
  rewrite Z.sub_add, outer_end_eq.
  pose proof (resolve_between [] "doc" a [PElem "blockGroup" ga kids gms] [] ms Ht eq_refl) as E.
  rewrite app_nil_r in E. cbn [plug inner csize] in E. rewrite size_block in E by done.
  replace (csize kids + 2)%Z with (0 + (2 + csize kids + 0))%Z by lia. by rewrite E.
Qed.
End ends.

(** Every position but the end of the outermost group leads to a block, and a block's
    own positions to that one. *)
Lemma lookup_describes doc :
  typed doc = true → n_type doc = "doc" →
  (∀ pos, pos ≠ (outer_end doc - 1)%Z →
     ∃ fs n b, doc = plug fs n ∧ n_type n = "blockContainer" ∧
       getBlockInfoFromPos doc pos = Ok b ∧ describes b fs n) ∧
  (∀ fs n pos, doc = plug fs n → n_type n = "blockContainer" → owns fs n pos → (1 < pos)%Z →
     ∃ b, getBlockInfoFromPos doc pos = Ok b ∧ describes b fs n).
Proof.
  intros Ht Hn. destruct (doc_shape doc Ht Hn) as (a & ga & kids & gms & ms & Edoc & Hne & Hk & Htk).
  assert (∀ fs n pos, doc = plug fs n → n_type n = "blockContainer" → owns fs n pos → (1 < pos)%Z →
     ∃ b, getBlockInfoFromPos doc pos = Ok b ∧ describes b fs n) as Hown.
  { intros fs n pos E Hc Ho Hp. rewrite E in *. pose proof (typed_in_doc _ _ Ht Hn Hc) as Hd.
    rewrite owned_path by done. apply block_info_describes; [by eapply typed_plug_inv|done]. }
  split; [|exact Hown].
  - intros pos Hp. pose proof Ht as Ht'. rewrite Edoc in Ht', Hp |- *.
    rewrite (outer_end_eq a ga kids gms ms) in Hp.
    destruct (decide (pos ≤ outer_start)%Z) as [Hle|Hgt].
    { destruct kids as [|n r]; [done|]. destruct (kid_in_doc a ga (n :: r) gms ms Ht' [] n r eq_refl) as (Ed & _ & Hc & _).
      rewrite (at_start a ga (n :: r) gms ms Ht' pos n r) by done. eexists _, n.
      edestruct block_info_describes as (b & Eb & Hb); [|exact Hc|exists b; by split].
      rewrite <- Ed in Ht'. by apply typed_plug_inv in Ht'. }
    destruct (decide (csize kids + 2 ≤ pos)%Z) as [Hge|Hlt].
    { destruct (exists_last Hne) as (l & n & ->).
      destruct (kid_in_doc a ga (l ++ [n]) gms ms Ht' l n [] eq_refl) as (Ed & _ & Hc & _).
      rewrite (at_end a ga (l ++ [n]) gms ms Ht' pos l n) by (done || by rewrite outer_end_eq).
      eexists _, n. edestruct block_info_describes as (b & Eb & Hb); [|exact Hc|exists b; by split].
      rewrite <- Ed in Ht'. by apply typed_plug_inv in Ht'. }
    destruct (positions_owned (PElem "blockGroup" ga kids gms)
      (proj2 (typed_group ga kids gms) (conj Hne (conj Hk Htk))) pos [doc_frame a ms]) as [_ Hg].
    destruct Hg as (fs & n & E & Hc & Ho); [done|unfold content_size, outer_start in *; cbn; lia|].
    destruct (Hown fs n pos) as (b & Eb & Hb); [by rewrite Edoc|done|done|unfold outer_start in *; lia|].
    exists fs, n, b. split; [exact E|]. split; [done|]. split; [by rewrite <- Edoc|done].
Qed.

(** C19. [getBlockInfoFromPos] takes every number but the end of the outermost group to
    a block of the document, with the positions and the depth where that block is; a
    position before, in or after a block's content, or at its end, to that very
    block. *)
Theorem getBlockInfoFromPos_spec doc :
  typed doc = true → n_type doc = "doc" →
  (∀ pos, pos ≠ (outer_end doc - 1)%Z →
     ∃ fs n b, doc = plug fs n ∧ n_type n = "blockContainer" ∧
       getBlockInfoFromPos doc pos = Ok b ∧ describes b fs n) ∧
  (∀ fs n pos, doc = plug fs n → n_type n = "blockContainer" → owns fs n pos → (1 < pos)%Z →
     ∃ b, getBlockInfoFromPos doc pos = Ok b ∧ describes b fs n) ∧
  getBlockInfoFromPos doc (outer_end doc - 1) = Err no_block.
Proof.
  intros Ht Hn. destruct (lookup_describes doc Ht Hn) as [Hall Hown]. split; [exact Hall|]. split; [exact Hown|].
  destruct (doc_shape doc Ht Hn) as (a & ga & kids & gms & ms & -> & _). by apply at_group_close.
Qed.
End lookup.
