(* ===== verification/EditorInsert.v ===== *)
(** * Inserting and updating blocks

    The node of a block is typed, new blocks stand where they are asked for, and an
    update changes the type, the props, the content and the children of its block and
    nothing else. *)
From S2P Require Import Prelude.
From S2P Require Import JsString.
From S2P Require Import JsObject.
From S2P Require Import DaemonApi.
From S2P Require Import NodeConvert.
From S2P Require Import BlockNodes.
From S2P Require Import Positions.
From S2P Require Import EditorBlocks.
From S2P Require Import PositionsFacts.
From S2P Require Import EditorBlocksFacts.
From S2P Require Import EditorLookup.

(** ** The node of a block *)

Section nodes.
Context `{SchemaLaws}.

Definition inline_node_ok (n : PNode) : bool :=
  typed n && String.eqb (type_group (n_type n)) "inline".
Definition text_node_ok (n : PNode) : bool := typed n && String.eqb (n_type n) "text".

Lemma fragment_none : fragment [] = [].
Proof. by apply fragment_elems. Qed.
Lemma create_leaf t given : is_leaf t = true → ∀ n, schema_create t given [] = Ok n → inline_node_ok n = true.
Proof.
  intros Hl n En. destruct (node_spec t) as [ds|] eqn:E.
  - rewrite (create_ok t ds given []) in En by done. injection En as <-. rewrite fragment_none.
    apply bool_decide_eq_true in Hl. repeat (apply elem_of_cons in Hl as [->|Hl]; [done|]). by apply elem_of_nil in Hl.
  - pose proof (create_unknown t given [] E) as Hu. by rewrite En in Hu.
Qed.
Lemma text_node s ms n : schema_text s ms = Ok n → text_node_ok n = true.
Proof.
  intros E. destruct (decide (s = "")) as [->|Hs].
  - pose proof (text_empty ms) as He. by rewrite E in He.
  - rewrite text_ok in E by done. injection E as <-. unfold text_node_ok. cbn.
    by rewrite (proj2 (truthy_spec s)).
Qed.
Lemma text_node_inline n : text_node_ok n = true → inline_node_ok n = true.
Proof.
  unfold text_node_ok, inline_node_ok. intros [-> E%String.eqb_eq]%andb_true_iff. by rewrite E.
Qed.

Lemma map_result_forallb {A B} (f : A → result B) (p : B → bool) l ys :
  (∀ x y, x ∈ l → f x = Ok y → p y = true) → map_result f l = Ok ys → forallb p ys = true.
Proof.
  intros Hp Hm. apply map_result_ok in Hm. induction Hm as [|x y l ys Hxy Hm IH]; [done|]. cbn.
  rewrite (Hp x y) by (done || by left). apply IH. intros x' y' Hx'. apply Hp. by right.
Qed.
Lemma fold_push_forallb {A B} (f : A → result (list B)) (p : B → bool) l acc ys :
  forallb p acc = true → (∀ x y, f x = Ok y → forallb p y = true) →
  fold_result (λ nodes c, let* ns := f c in Ok (nodes ++ ns)) acc l = Ok ys → forallb p ys = true.
Proof.
  intros Ha Hp. revert acc Ha. induction l as [|x l IH]; intros acc Ha Hf; cbn in Hf.
  - by injection Hf as <-.
  - destruct (f x) as [y|] eqn:E; [|done]. cbn in Hf. apply IH in Hf; [done|].
    rewrite forallb_app, Ha. by eapply Hp.
Qed.

Lemma styledTextToNodes_inline t ns : styledTextToNodes t = Ok ns → forallb inline_node_ok ns = true.
Proof.
  unfold styledTextToNodes. intros E. inv_result. eapply map_result_forallb; [|exact E].
  intros x y Hx Ey. cbn in Ey. destruct (String.eqb x (String LF "")).
  - by apply (create_leaf "hardBreak" None).
  - by eapply text_node_inline, text_node.
Qed.
Lemma styledTextArrayToNodes_inline c ns : styledTextArrayToNodes c = Ok ns → forallb inline_node_ok ns = true.
Proof.
  destruct c as [s|l]; cbn [styledTextArrayToNodes]; [apply styledTextToNodes_inline|].
  apply fold_push_forallb; [done|]. apply styledTextToNodes_inline.
Qed.
Lemma mark_link_inline m n n' : inline_node_ok n = true → mark_link m n = Ok n' → inline_node_ok n' = true.
Proof.
  unfold mark_link. intros Hn E. destruct (String.eqb_spec (n_type n) "text") as [Et|_].
  - injection E as <-. destruct n as [s ms|t a c ms].
    + by rewrite node_mark_text.
    + unfold inline_node_ok in Hn. cbn in Et. subst t. by rewrite andb_false_l in Hn || by cbn in Hn.
  - destruct (String.eqb (n_type n) "hardBreak"); [|done]. by injection E as <-.
Qed.
Lemma inlineContentToNodes_inline l ns : inlineContentToNodes l = Ok ns → forallb inline_node_ok ns = true.
Proof.
  unfold inlineContentToNodes. apply fold_push_forallb; [done|]. intros [t|href c|ref] ks E; cbn [inlineToNodes] in E.
  - by eapply styledTextArrayToNodes_inline.
  - unfold linkToNodes in E. inv_result. eapply map_result_forallb; [|exact E]. intros x y Hx Ey.
    eapply mark_link_inline; [|exact Ey]. apply styledTextArrayToNodes_inline in E1.
    eapply forallb_forall in E1; [exact E1|]. by apply list_elem_of_In.
  - inv_result. cbn. rewrite andb_true_r. by eapply (create_leaf "inline-embed").
Qed.

(** Joining texts keeps them and the other nodes well formed. *)
Lemma joined_forallb (p : PNode → bool) l l' :
  (∀ s t ms, p (PText s ms) = true → p (PText t ms) = true → p (PText (s +:+ t) ms) = true) →
  joined l l' → forallb p l = true → forallb p l' = true.
Proof.
  intros Hp. induction 1 as [l|l s t ms k l' Hj IH]; [done|]. intros Hl. apply IH.
  rewrite forallb_app in Hl |- *. cbn in Hl |- *. bool_simpl. rewrite Hp by done. by apply andb_true_iff; split.
Qed.
Lemma truthy_app s t : truthy s = true → truthy (s +:+ t) = true.
Proof. rewrite !truthy_spec. intros Hs [? ?]%str_app_eq_nil. done. Qed.
Lemma fragment_inline ns : forallb inline_node_ok ns = true → forallb inline_node_ok (fragment ns) = true.
Proof.
  intros Hns. eapply joined_forallb; [|apply fragment_joined|exact Hns].
  intros s t ms. unfold inline_node_ok. cbn. rewrite !andb_true_r. intros. by apply truthy_app.
Qed.
Lemma fragment_text ns : forallb text_node_ok ns = true → forallb text_node_ok (fragment ns) = true.
Proof.
  intros Hns. eapply joined_forallb; [|apply fragment_joined|exact Hns].
  intros s t ms. unfold text_node_ok. cbn. rewrite !andb_true_r. intros. by apply truthy_app.
Qed.

Lemma forallb_impl {A} (p q : A → bool) l :
  (∀ x, p x = true → q x = true) → forallb p l = true → forallb q l = true.
Proof. intros Hpq Hp. apply forallb_forall. intros x Hx. eapply forallb_forall in Hp; [|exact Hx]. auto. Qed.

(** The nodes that fit a type of block content. *)
Definition fits (type : string) (ns : list PNode) : bool :=
  if String.eqb type "codeBlock" then forallb text_node_ok ns else forallb inline_node_ok ns.
Lemma fits_content t c : t ∈ content_types → fits t c = true → content_ok t c = true ∧ forallb typed c = true.
Proof.
  intros Hin Hf. unfold fits, content_ok in *.
  destruct (String.eqb_spec t "doc") as [->|]; [not_member Hin|].
  destruct (String.eqb_spec t "blockGroup") as [->|]; [not_member Hin|].
  destruct (String.eqb_spec t "blockContainer") as [->|]; [not_member Hin|].
  destruct (String.eqb_spec t "codeBlock") as [_|_].
  - split; (eapply forallb_impl; [|exact Hf]); unfold text_node_ok; by intros x [??]%andb_true_iff.
  - rewrite bool_decide_eq_true_2 by done.
    split; (eapply forallb_impl; [|exact Hf]); unfold inline_node_ok; by intros x [??]%andb_true_iff.
Qed.
Lemma content_nodes_fit t content ns :
  content_nodes t content = Ok ns → fits t (fragment ns) = true.
Proof.
  unfold fits. destruct content as [s|[|c l]]; cbn [content_nodes]; intros E.
  - inv_result. destruct (String.eqb t "codeBlock"); [apply fragment_text|apply fragment_inline];
      cbn; rewrite andb_true_r; [by eapply text_node|by eapply text_node_inline, text_node].
  - unfold inlineContentToNodes in E. cbn in E. injection E as <-. rewrite fragment_none. by case_match.
  - destruct (String.eqb t "codeBlock").
    + inv_result. apply fragment_text. cbn. rewrite andb_true_r. by eapply text_node.
    + by apply fragment_inline, (inlineContentToNodes_inline (c :: l)).
Qed.

Lemma typed_content t a c ms :
  t ∈ content_types → fits t c = true → typed (PElem t a c ms) = true.
Proof.
  intros Hin Hf. destruct (fits_content t c Hin Hf). apply typed_elem. split; [|done].
  intros ->. not_member Hin.
Qed.
Lemma content_node_typed t props content n :
  t ∈ content_types → content_node t props content = Ok n → typed n = true ∧ n_type n = t.
Proof.
  intros Hin E. unfold content_node in E. inv_result.
  destruct (node_spec t) as [ds|] eqn:Es; [|pose proof (create_unknown t props a Es) as Hu; by rewrite E in Hu].
  rewrite (create_ok t ds props a) in E by done. injection E as <-. split; [|done].
  apply typed_content; [done|]. destruct (given_content content) as [c|].
  - by eapply content_nodes_fit.
  - injection E0 as <-. rewrite fragment_none. unfold fits. by case_match.
Qed.
End nodes.

(** The types of a block and its children are types of block content. *)
Fixpoint block_types_ok (b : PartialBlock) : Prop :=
  match b with
  | PBlock _ type _ _ children =>
      default "paragraph" type ∈ content_types ∧
      match children with
      | Some l => fold_right (λ k P, block_types_ok k ∧ P) True l
      | None => True
      end
  end.
Lemma children_types_ok l : fold_right (λ k P, block_types_ok k ∧ P) True l ↔ Forall block_types_ok l.
Proof. induction l as [|b l IH]; cbn; [done|]. by rewrite IH, list.Forall_cons. Qed.

Lemma container_elem n : is_container n = true → is_elem n = true.
Proof. by destruct n. Qed.
Lemma containers_elems l : forallb is_container l = true → forallb is_elem l = true.
Proof. apply forallb_impl, container_elem. Qed.

Section blocks.
Context `{SchemaLaws} {G : Type} (generateID : call G string).

(** A group made of blocks. *)
Definition new_group (l : list PNode) : PNode :=
  PElem "blockGroup" (compute_attrs (default [] (node_spec "blockGroup")) []) l [].
Lemma create_group l : forallb is_elem l = true → schema_create "blockGroup" (Some []) l = Ok (new_group l).
Proof.
  intros Hl. unfold new_group. destruct has_group as [ds Hds].
  rewrite (create_ok _ ds) by done. by rewrite fragment_elems, Hds.
Qed.
Lemma typed_new_group l : l ≠ [] → Forall typed_block l → typed (new_group l) = true.
Proof. intros Hne Hl. destruct (typed_blocks l Hl). apply (typed_group _ l []). done. Qed.

Lemma c_map_Forall {A B} (f : A → call G B) (P : B → Prop) l g g' ys :
  Forall (λ x, ∀ g g' y, f x g = (g', Ok y) → P y) l → c_map f l g = (g', Ok ys) →
  Forall P ys ∧ length ys = length l.
Proof.
  intros Hl. revert g g' ys. induction Hl as [|x l Hx _ IH]; intros g g' ys E.
  - cbn in E. injection E as _ <-. by split; [constructor|].
  - change (c_map f (x :: l)) with (await* y := f x in await* ys := c_map f l in c_ret (y :: ys)) in E.
    apply c_bind_inv in E as (g1 & y & Ex & E). apply c_bind_inv in E as (g2 & zs & El & E).
    injection E as <- <-.
    destruct (IH _ _ _ El). split; [|cbn; congruence]. constructor; [by eapply Hx|done].
Qed.

(** The node of a block is typed. *)
Lemma block_node_typed b g g' n :
  block_types_ok b → blockToNode generateID b g = (g', Ok n) → typed_block n.
Proof.
  revert g g' n. induction b as [id type props content children IH] using pblock_tree_ind.
  intros g g' n [Hty Hch] E. cbn [blockToNode] in E.
  apply c_bind_inv in E as (g1 & i & _ & E). apply c_bind_inv in E as (g2 & c & Ec & E).
  injection Ec as <- Ec. destruct (content_node_typed _ _ _ _ Hty Ec) as [Hc Hct].
  apply c_bind_inv in E as (g3 & kids & Ek & E).
  assert (Forall typed_block kids) as Hk.
  { destruct children as [l|]; [|injection Ek as <- <-; constructor]. apply children_types_ok in Hch. cbn in IH.
    eapply c_map_Forall; [|exact Ek]. apply Forall_forall. intros x Hx h h' y Ey.
    rewrite Forall_forall in IH, Hch. by eapply IH; [|apply Hch|]. }
  destruct (typed_blocks kids Hk) as [_ Hkc].
  apply c_bind_inv in E as (g4 & gn & Eg & E). injection Eg as <- Eg.
  rewrite create_group in Eg by (by apply containers_elems). injection Eg as <-.
  destruct has_container as (ds & Hds & _). unfold c_lift in E.
  rewrite (create_ok _ ds) in E by done. injection E as <- <-.
  split; [|done].
  assert (fragment (match kids with [] => [c] | _ => [c; new_group kids] end) =
          match kids with [] => [c] | _ => [c; new_group kids] end) as ->.
  { apply fragment_elems. destruct c as [s ms|t ca cc cms].
    - cbn in Hct. rewrite <- Hct in Hty. not_member Hty.
    - by destruct kids. }
  destruct kids as [|k kids].
  - apply typed_container. rewrite Hct. split; [by apply type_group_content|]. split; [done|by left].
  - apply typed_container. rewrite Hct. split; [by apply type_group_content|]. split; [done|].
    right. eexists. split; [done|]. split; [done|]. by apply typed_new_group.
Qed.

(** C18. Whatever a block holds, the node that is made of it fits the editor's schema:
    it is a container with a content of the block's type and, if the block has
    children, a group of such containers. *)
Theorem blockToNode_typed b g g' n :
  block_types_ok b → blockToNode generateID b g = (g', Ok n) →
  typed n = true ∧ n_type n = "blockContainer".
Proof.
  apply block_node_typed.
Qed.
End blocks.
