(* ===== verification/EditorUpdate.v ===== *)
(** * New and updated blocks in a document

    [insertBlocks] and [updateBlock] on typed documents: where the new blocks stand, what
    an update changes, and that the document stays typed. *)
From S2P Require Import Prelude.
From S2P Require Import JsString.
From S2P Require Import JsObject.
From S2P Require Import DaemonApi.
From S2P Require Import NodeConvert.
From S2P Require Import BlockNodes.
From S2P Require Import Positions.
From S2P Require Import EditorBlocks.
From S2P Require Import PositionsFacts.
From S2P Require Import EditorBlocksFacts.
From S2P Require Import EditorLookup.
From S2P Require Import EditorInsert.

Section edit.
Context `{ProseMirrorLaws} {G : Type} (generateID : call G string).

(** ** Insertion *)

(** Blocks go between the blocks of a group. *)
Lemma insert_in_group fs ga l r gms new :
  typed (plug fs (PElem "blockGroup" ga (l ++ r) gms)) = true → Forall typed_block new →
  tr_insert (plug fs (PElem "blockGroup" ga (l ++ r) gms)) (inner fs + csize l) new =
    Ok (plug fs (PElem "blockGroup" ga (l ++ new ++ r) gms)) ∧
  typed (plug fs (PElem "blockGroup" ga (l ++ new ++ r) gms)) = true.
Proof.
  intros Ht Hnew. destruct (typed_blocks new Hnew) as [Hnt Hnc].
  pose proof (typed_plug_inv _ _ Ht) as Hg. apply (typed_group ga (l ++ r) gms) in Hg as (Hne & Hc & Hty).
  assert (typed (PElem "blockGroup" ga (l ++ new ++ r) gms) = true) as Htg.
  { apply typed_group. rewrite !forallb_app in *. bool_simpl. rewrite Hnt, Hnc.
    split; [|by split; repeat (apply andb_true_iff; split)]. intros E. apply Hne.
    apply app_eq_nil in E as [-> [_ ->]%app_eq_nil]. done. }
  split; [|by eapply typed_replug].
  apply insert_ok; [done|done|by apply containers_elems|done|].
  by apply typed_elem in Htg as (_ & Htg & _).
Qed.

(** A block with new blocks before its children. *)
Definition nest (n : PNode) (new : list PNode) : PNode :=
  match n with
  | PElem t a [c] ms => PElem t a [c; new_group new] ms
  | PElem t a [c; PElem gt ga kids gms] ms => PElem t a [c; PElem gt ga (new ++ kids) gms] ms
  | _ => n
  end.
(** The document with new blocks next to, or in, a block of it. *)
Definition inserted (placement : Placement) (fs : list Frame) (n : PNode) (new : list PNode) : PNode :=
  match placement, fs with
  | Before, f :: fs' => plug fs' (fill_frame f (new ++ [n]))
  | After, f :: fs' => plug fs' (fill_frame f ([n] ++ new))
  | _, _ => plug fs (nest n new)
  end.

(** The nodes of the given blocks. *)
Lemma blocks_typed blocks g g' new :
  Forall block_types_ok blocks → c_map (blockToNode generateID) blocks g = (g', Ok new) →
  Forall typed_block new ∧ length new = length blocks.
Proof.
  intros Hb E. eapply c_map_Forall; [|exact E]. apply Forall_forall. intros b Hin h h' y Ey.
  rewrite Forall_forall in Hb. by eapply block_node_typed; [apply Hb|].
Qed.

Lemma insert_beside f fs n new l r :
  typed (plug (f :: fs) n) = true → n_type n = "blockContainer" → Forall typed_block new →
  l ++ r = [n] →
  tr_insert (plug (f :: fs) n) (inner fs + csize (f_left f ++ l)) new =
    Ok (plug fs (fill_frame f (l ++ new ++ r))) ∧
  typed (plug fs (fill_frame f (l ++ new ++ r))) = true.
Proof.
  intros Ht Hn Hnew E. cbn [plug] in *. unfold fill_frame in *. rewrite <- E in *.
  assert (f_type f = "blockGroup") as Hf.
  { apply typed_plug_inv, typed_elem in Ht as (_ & Hc & _). rewrite E in Hc. by eapply container_parent. }
  rewrite Hf in *. pose proof (insert_in_group fs (f_attrs f) (f_left f ++ l) (r ++ f_right f) (f_marks f) new) as Hi.
  rewrite <- !(assoc_L (++)) in *. by apply Hi.
Qed.
Lemma insert_nested fs n new :
  in_doc fs → typed (plug fs n) = true → n_type n = "blockContainer" → Forall typed_block new → new ≠ [] →
  match n_content n with
  | [c] => tr_insert (plug fs n) (hole fs + nodeSize c + 1) [new_group new] = Ok (plug fs (nest n new))
  | c :: _ => tr_insert (plug fs n) (hole fs + nodeSize c + 2) new = Ok (plug fs (nest n new))
  | [] => False
  end ∧ typed (plug fs (nest n new)) = true.
Proof.
  intros Hd Ht Hn Hnew Hne.
  destruct (container_inv n (typed_plug_inv _ _ Ht) Hn) as (a & c & group & ms & -> & Hc & Htc & Hg).
  cbn [n_content]. unfold hole. destruct Hg as [->|(ga & kids & gms & -> & _ & _)]; cbn [nest].
  - assert (typed (new_group new) = true) as Hng by by apply typed_new_group.
    assert (typed (PElem "blockContainer" a [c; new_group new] ms) = true) as Htn.
    { apply typed_container. split; [done|]. split; [done|]. right. by eexists. }
    split; [|by eapply typed_replug].
    replace (inner fs - 1 + nodeSize c + 1)%Z with (inner fs + csize [c])%Z by (cbn; lia).
    apply (insert_ok fs "blockContainer" a [c] [] ms [new_group new]); [done|done|done| |].
    + cbn [forallb]. by rewrite Hng.
    + by apply typed_elem in Htn as (_ & Htn & _).
  - pose proof (insert_in_group (group_frame a c ms :: fs) ga [] kids gms new) as Hi.
    replace (inner fs - 1 + nodeSize c + 2)%Z with (inner (group_frame a c ms :: fs) + csize [])%Z by (cbn; lia).
    by apply Hi.
Qed.

(** The nodes are put where they are asked for. *)
Lemma blocks_inserted fs n id placement blocks new g g' :
  typed (plug fs n) = true → n_type (plug fs n) = "doc" →
  is_block (VStr id) n = true → VStr id ∉ ids_before fs →
  Forall block_types_ok blocks → blocks ≠ [] → c_map (blockToNode generateID) blocks g = (g', Ok new) →
  insertBlocks generateID blocks id placement (plug fs n) g = (g', Ok (inserted placement fs n new)) ∧
  typed (inserted placement fs n new) = true.
Proof.
  intros Ht Hdoc Hn Hid Hb Hne E. unfold is_block in Hn. apply andb_true_iff in Hn as [Hnc Hni].
  apply String.eqb_eq in Hnc. pose proof (typed_in_doc _ _ Ht Hdoc Hnc) as Hd.
  destruct (blocks_typed _ _ _ _ Hb E) as [Hnew Hlen].
  assert (new ≠ []) as Hne' by (by destruct new, blocks).
  unfold insertBlocks. rewrite (c_bind_ok _ _ _ _ _ E).
  rewrite (c_bind_lift _ _ _ (n, hole fs)) by
    (apply getNodeById_found; [done| |done]; unfold is_block; by rewrite Hnc, Hni).
  cbn [fst snd]. destruct placement.
  - destruct fs as [|f fs]; [by destruct Hd as ([|] & ? & ? & ? & ? & _)|].
    destruct (insert_beside f fs n new [] [n] Ht Hnc Hnew eq_refl) as [Ei Hti].
    rewrite app_nil_r in Ei. unfold c_lift. split; [|exact Hti].
    replace (hole (f :: fs)) with (inner fs + csize (f_left f))%Z by (unfold hole; cbn; lia). by rewrite Ei.
  - destruct fs as [|f fs]; [by destruct Hd as ([|] & ? & ? & ? & ? & _)|].
    destruct (insert_beside f fs n new [n] [] Ht Hnc Hnew eq_refl) as [Ei Hti].
    rewrite app_nil_r in Ei, Hti. unfold c_lift. split; [|exact Hti].
    replace (hole (f :: fs) + nodeSize n)%Z with (inner fs + csize (f_left f ++ [n]))%Z
      by (unfold hole; rewrite csize_app; cbn; lia). by rewrite Ei.
  - destruct (insert_nested fs n new Hd Ht Hnc Hnew Hne') as [Ei Hti].
    cbn [inserted]. split; [|destruct fs; exact Hti].
    destruct (n_content n) as [|c [|g0 rest]] eqn:En; [done| |].
    + assert (schema_create "blockGroup" (Some []) new = Ok (new_group new)) as Eg.
      { apply create_group, containers_elems. by apply typed_blocks. }
      rewrite (c_bind_lift _ _ _ _ Eg). unfold c_lift. rewrite Ei. by destruct fs.
    + unfold c_lift. rewrite Ei. by destruct fs.
Qed.

(** C17. New blocks stand before or after the block with the given id, or before its
    children in a group that is made if it has none; every other node is where it was,
    and the document stays typed. *)
Theorem insertBlocks_spec fs n id placement blocks new g g' :
  typed (plug fs n) = true → n_type (plug fs n) = "doc" →
  is_block (VStr id) n = true → VStr id ∉ ids_before fs →
  Forall block_types_ok blocks → blocks ≠ [] → c_map (blockToNode generateID) blocks g = (g', Ok new) →
  insertBlocks generateID blocks id placement (plug fs n) g = (g', Ok (inserted placement fs n new)) ∧
  typed (inserted placement fs n new) = true.
Proof. apply blocks_inserted. Qed.
Lemma insertBlocks_missing id placement blocks doc new g g' :
  typed doc = true → n_type doc = "doc" → VStr id ∉ block_ids doc →
  c_map (blockToNode generateID) blocks g = (g', Ok new) →
  insertBlocks generateID blocks id placement doc g = (g', Err not_in_editor).
Proof.
  intros Ht Hd Hid E. unfold insertBlocks. rewrite (c_bind_ok _ _ _ _ _ E).
  unfold c_bind, c_lift. by rewrite getNodeById_missing.
Qed.

(** ** Updates *)

Definition spec_attrs (t : string) (given : Attrs) : Attrs :=
  compute_attrs (default [] (node_spec t)) given.
(** The content an update gives, or the old one. *)
Definition given_nodes (content : option BlockContent) (old : list PNode) : result (list PNode) :=
  match content with
  | Some c => let* ns := update_nodes c in Ok (fragment ns)
  | None => Ok old
  end.
(** The children it gives, in place of those of the group. *)
Definition given_kids (kids : option (list PNode)) (group : list PNode) : list PNode :=
  match kids with
  | None => group
  | Some l => match group with
              | [PElem gt ga _ gms] => [PElem gt ga l gms]
              | _ => [new_group l]
              end
  end.
Definition updated (type : string) (props : option Attrs) (content : list PNode) (kids : option (list PNode))
    (n : PNode) : PNode :=
  match n with
  | PElem t a (PElem _ ca _ cms :: group) ms =>
      PElem t (spec_attrs t (merged a props))
        (PElem type (spec_attrs type (merged ca props)) content cms :: given_kids kids group) ms
  | _ => n
  end.

Lemma update_nodes_typed c ns : update_nodes c = Ok ns → forallb typed ns = true.
Proof.
  destruct c as [s|l]; cbn [update_nodes]; intros E.
  - inv_result. cbn. rewrite andb_true_r. apply text_node in E0. unfold text_node_ok in E0. by bool_simpl.
  - apply inlineContentToNodes_inline in E. eapply forallb_impl; [|exact E].
    unfold inline_node_ok. by intros x [??]%andb_true_iff.
Qed.

Section update.
Variables (fs : list Frame) (a : Attrs) (ct : string) (ca : Attrs) (cc : list PNode) (cms : list Mark).
Variables (group : list PNode) (ms : list Mark).
Abbreviation content := (PElem ct ca cc cms).
Abbreviation n := (PElem "blockContainer" a (content :: group) ms).
Hypothesis Hd : in_doc fs.
Hypothesis Ht : typed (plug fs n) = true.

(** What the commands know of the block. *)
Definition this_block (b : BlockPos) : Prop :=
  bp_node b = n ∧ bp_contentNode b = content ∧ bp_startPos b = inner fs ∧
  bp_endPos b = (inner fs + csize (content :: group))%Z.

Lemma block_here : ∃ b, getBlockInfoFromPos (plug fs n) (hole fs + 1) = Ok b ∧ this_block b.
Proof.
  destruct (block_bounds fs n Hd Ht eq_refl) as (Hi & _ & _).
  assert (owns fs n (hole fs + 1)) as Ho.
  { left. cbn [n_content]. pose proof (typed_plug_inv _ _ Ht) as Hc. apply typed_container in Hc as (_ & Hc & _).
    apply nodeSize_pos in Hc. unfold hole. lia. }
  rewrite owned_path by (done || unfold hole, outer_start; lia).
  destruct (block_info_describes fs n (typed_plug_inv _ _ Ht) eq_refl) as (b & E & Hb).
  destruct Hb as (H3 & H4 & H5 & _ & H6 & _). exists b. split; [done|]. cbn in H6. injection H6 as H6. by split_and!.
Qed.

Lemma content_type_ct : ct ∈ content_types.
Proof.
  apply typed_plug_inv, typed_container in Ht as (Hg & _). by apply type_group_content.
Qed.
Lemma content_not_leaf t : t ∈ content_types → is_leaf t = false.
Proof.
  intros Hin. unfold is_leaf. apply bool_decide_eq_false. intros Hl.
  repeat (apply elem_of_cons in Hl as [->|Hl]; [not_member Hin|]). by apply elem_of_nil in Hl.
Qed.

Lemma kids_updated b kids :
  this_block b → Forall typed_block kids → kids ≠ [] →
  update_children b kids (plug fs n) = Ok (plug fs (PElem "blockContainer" a (content :: given_kids (Some kids) group) ms)) ∧
  typed (plug fs (PElem "blockContainer" a (content :: given_kids (Some kids) group) ms)) = true.
Proof.
  intros (Hn & Hc & Hs & He) Hk Hne. unfold update_children. rewrite Hn, Hc, Hs, He. cbn [n_content csize].
  pose proof (typed_plug_inv _ _ Ht) as Hn'.
  destruct (container_inv n Hn' eq_refl) as (a' & c & gr & ms' & [= <- <- <- <-] & Hg & Htc & Hgr).
  destruct (typed_blocks kids Hk) as [Hkt Hkc].
  assert (∀ g, n_type g = "blockGroup" → typed g = true →
    typed (plug fs (PElem "blockContainer" a [content; g] ms)) = true) as Hrep.
  { intros g Hgt Htg. eapply typed_replug; [exact Ht| |done]. apply typed_container. split; [done|]. split; [done|].
    right. by exists g. }
  destruct Hgr as [->|(ga & kids0 & gms & -> & _ & _)]; cbn [given_kids].
  - assert (typed (new_group kids) = true) as Hng by by apply typed_new_group.
    split; [|by apply Hrep]. rewrite create_group by (by apply containers_elems). cbn [rbind].
    pose proof (insert_ok fs "blockContainer" a [content] [] ms [new_group kids] Ht eq_refl eq_refl) as Ei.
    cbn [csize app] in Ei. rewrite Z.add_0_r in Ei. apply Ei; [cbn [forallb]; by rewrite Hng|].
    specialize (Hrep (new_group kids) eq_refl Hng). by apply typed_plug_inv, typed_elem in Hrep as (_ & Hrep & _).
  - assert (typed (PElem "blockGroup" ga kids gms) = true) as Hng by by apply (typed_group ga kids gms).
    split; [|by apply Hrep]. cbn [csize]. rewrite (size_block "blockGroup") by done.
    pose proof (replace_content (group_frame a content ms :: fs) "blockGroup" ga kids0 gms kids Ht eq_refl Hkt) as Er.
    rewrite fragment_elems in Er by (by apply containers_elems). cbn in Er.
    rewrite Z.add_0_r in Er.
    replace (inner fs + (nodeSize content + (2 + csize kids0 + 0)) - 1)%Z
      with (inner fs + nodeSize content + 1 + csize kids0)%Z by lia.
    apply Er. by apply typed_elem in Hng as (_ & Hng & _).
Qed.
End update.

(** The content of a block, whatever its group is by then. *)
Lemma content_updated fs a ct ca cc cms group ms b content newc :
  typed (plug fs (PElem "blockContainer" a (PElem ct ca cc cms :: group) ms)) = true →
  bp_startPos b = inner fs → bp_contentNode b = PElem ct ca cc cms → ct ∈ content_types →
  given_nodes (Some content) cc = Ok newc → content_ok ct newc = true →
  update_content b content (plug fs (PElem "blockContainer" a (PElem ct ca cc cms :: group) ms)) =
  Ok (plug fs (PElem "blockContainer" a (PElem ct ca newc cms :: group) ms)).
Proof.
  intros Ht Hs Hc Hct E Hok. unfold update_content, given_nodes in *. inv_result. cbn [rbind].
  rewrite Hs, Hc. rewrite size_block by (by apply content_not_leaf).
  pose proof (replace_content (content_frame a group ms :: fs) ct ca cc cms a0 Ht) as Er.
  cbn [inner content_frame f_left csize] in Er. rewrite Z.add_0_r in Er.
  replace (inner fs + (2 + csize cc) - 1)%Z with (inner fs + 1 + csize cc)%Z by lia.
  apply Er; [by apply content_not_leaf|by eapply update_nodes_typed|done].
Qed.

(** The new content fits if it is made of typed inline nodes. *)
Lemma typed_with_content fs a ct ca cc cms group ms t' ca' newc :
  typed (plug fs (PElem "blockContainer" a (PElem ct ca cc cms :: group) ms)) = true →
  t' ∈ content_types → content_ok t' newc = true → forallb typed newc = true →
  typed (plug fs (PElem "blockContainer" a (PElem t' ca' newc cms :: group) ms)) = true.
Proof.
  intros Ht Hin Hok Htn. eapply typed_replug; [exact Ht| |done].
  apply typed_plug_inv in Ht. apply typed_container in Ht as (_ & _ & Hg). apply typed_container.
  split; [by apply type_group_content|]. split; [|done]. apply typed_elem. split; [|done].
  intros ->. not_member Hin.
Qed.

Lemma given_nodes_typed content old ns :
  forallb typed old = true → given_nodes content old = Ok ns → forallb typed ns = true.
Proof.
  destruct content as [c|]; cbn [given_nodes]; [|by intros ? [= <-]]. intros _ E. inv_result.
  apply update_nodes_typed in E0. eapply joined_forallb; [|apply fragment_joined|exact E0].
  cbn. intros. by apply truthy_app.
Qed.

(** The children an update gives, as nodes. *)
Definition kids_given (children : option (list PartialBlock)) (g : G) (kids : option (list PNode)) (g' : G) : Prop :=
  match children with
  | Some ((_ :: _) as l) => Forall block_types_ok l ∧
      ∃ ks, kids = Some ks ∧ c_map (blockToNode generateID) l g = (g', Ok ks)
  | _ => kids = None ∧ g' = g
  end.

(** The first step of an update. *)
Lemma children_step fs a ct ca cc cms group ms b children kids g g' :
  let n := PElem "blockContainer" a (PElem ct ca cc cms :: group) ms in
  let n1 := PElem "blockContainer" a (PElem ct ca cc cms :: given_kids kids group) ms in
  typed (plug fs n) = true → this_block fs a ct ca cc cms group ms b → kids_given children g kids g' →
  match children with
  | Some ((_ :: _) as l) => await* childNodes := c_map (blockToNode generateID) l in
                            c_lift (update_children b childNodes (plug fs n))
  | _ => c_ret (plug fs n)
  end g = (g', Ok (plug fs n1)) ∧ typed (plug fs n1) = true.
Proof.
  intros n n1 Ht Hb Hk.
  destruct children as [[|x l]|]; cbn [kids_given] in Hk; [by destruct Hk as [-> ->]| |by destruct Hk as [-> ->]].
  destruct Hk as (Hl & ks & -> & Ek). rewrite (c_bind_ok _ _ _ _ _ Ek).
  destruct (blocks_typed _ _ _ _ Hl Ek) as [Hks Hlen].
  destruct (kids_updated fs a ct ca cc cms group ms Ht b ks) as [Eu Htu]; [done|done|by destruct ks|].
  unfold c_lift, n. by rewrite Eu.
Qed.

(** The last two steps: the content's node, then the block's. *)
Lemma markup_step fs a ct ca newc cms rest ms type props (g : G) :
  let t' := default ct (schema_type type) in
  let n2 := PElem "blockContainer" a (PElem ct ca newc cms :: rest) ms in
  let n4 := PElem "blockContainer" (spec_attrs "blockContainer" (merged a props))
              (PElem t' (spec_attrs t' (merged ca props)) newc cms :: rest) ms in
  in_doc fs → typed (plug fs n2) = true → known_type ct = true → t' ∈ content_types → forallb typed newc = true →
  let r := (await* doc := c_lift (tr_setNodeMarkup (plug fs n2) (inner fs) (schema_type type) (merged ca props)) in
            c_lift (tr_setNodeMarkup doc (inner fs - 1) None (merged a props))) g in
  if content_ok t' newc then r = (g, Ok (plug fs n4)) ∧ typed (plug fs n4) = true
  else r.1 = g ∧ is_ok r.2 = false.
Proof.
  intros t' n2 n4 Hd Ht Hkn Hin Hnt r. subst r.
  set (cf := content_frame a rest ms).
  assert (hole (cf :: fs) = inner fs) as Hh by (unfold hole; cbn; lia). rewrite <- Hh.
  destruct (content_ok t' newc) eqn:Hok.
  - assert (is_Some (node_spec t')) as [ds Hds].
    { apply known_type_spec. unfold t', schema_type. destruct type as [t|]; [|done]. cbn.
      by destruct (known_type t) eqn:E. }
    set (n3 := PElem "blockContainer" a (PElem t' (compute_attrs ds (merged ca props)) newc cms :: rest) ms).
    assert (typed (plug fs n3) = true) as Ht3 by by eapply typed_with_content.
    rewrite (c_bind_lift _ _ _ (plug fs n3)) by
      by apply (setNodeMarkup_ok (cf :: fs) ct ca newc cms (schema_type type) ds).
    destruct has_container as (dc & Hdc & _). unfold n4, spec_attrs. rewrite Hdc, Hds. cbn [default].
    assert (typed (plug fs (PElem "blockContainer" (compute_attrs dc (merged a props)) (n_content n3) ms)) = true) as Ht4.
    { eapply typed_replug; [exact Ht3| |done]. by apply typed_plug_inv in Ht3. }
    split; [|exact Ht4]. unfold c_lift. f_equal.
    assert (fs ≠ []) as Hfs by (intros ->; by destruct Hd as ([|] & ? & ? & ? & ? & _)).
    rewrite Hh. by apply (setNodeMarkup_ok fs "blockContainer" a (n_content n3) ms None dc (merged a props)).
  - unfold c_bind, c_lift.
    pose proof (setNodeMarkup_invalid (cf :: fs) ct ca newc cms (schema_type type) (merged ca props) Ht
      ltac:(done) Hok) as Hinv.
    change (plug fs n2) with (plug (cf :: fs) (PElem ct ca newc cms)). by destruct (tr_setNodeMarkup _ _ _ _).
Qed.

(** C16. An update gives its block the type, if the schema knows it, the props, the
    content and the children that it mentions and keeps the rest, of the block and of
    the document, which stays typed; content that the new type does not allow is
    refused. *)
Theorem updateBlock_spec fs a ct ca cc cms group ms id uid type props content children kids newc g g' :
  let n := PElem "blockContainer" a (PElem ct ca cc cms :: group) ms in
  let t' := default ct (schema_type type) in
  typed (plug fs n) = true → n_type (plug fs n) = "doc" → known_type ct = true → t' ∈ content_types →
  attr a "id" = VStr id → VStr id ∉ ids_before fs →
  kids_given children g kids g' → given_nodes content cc = Ok newc → content_ok ct newc = true →
  let r := updateBlock generateID id (PBlock uid type props content children) (plug fs n) g in
  if content_ok t' newc then
    r = (g', Ok (plug fs (updated t' props newc kids n))) ∧ typed (plug fs (updated t' props newc kids n)) = true
  else r.1 = g' ∧ is_ok r.2 = false.
Proof.
  intros n t' Ht Hdoc Hkn Hin Ha Hid Hk Hc Hok r. subst r.
  pose proof (typed_in_doc _ _ Ht Hdoc eq_refl) as Hd.
  unfold updateBlock. rewrite (c_bind_lift _ _ _ (n, hole fs)) by
    (apply getNodeById_found; [done| |done]; unfold is_block; cbn [n_type n_attrs n]; by rewrite Ha, bool_decide_eq_true_2).
  cbn [snd]. destruct (block_here fs a ct ca cc cms group ms Hd Ht) as (b & Eb & Hb).
  cbn [BNUpdateBlock]. rewrite (c_bind_lift _ _ _ _ Eb).
  assert (forallb typed cc = true) as Hcc.
  { apply typed_plug_inv, typed_container in Ht as (_ & Hcc & _). by apply typed_elem in Hcc as (_ & _ & Hcc). }
  pose proof (given_nodes_typed _ _ _ Hcc Hc) as Hnt.
  pose proof (content_type_ct fs a ct ca cc cms group ms Ht) as Hct.
  destruct (children_step fs a ct ca cc cms group ms b children kids g g' Ht Hb Hk) as [E1 Ht1].
  destruct Hb as (Hbn & Hbc & Hbs & Hbe). rewrite (c_bind_ok _ _ _ _ _ E1).
  rewrite (c_bind_ok _ _ g' g' (plug fs (PElem "blockContainer" a (PElem ct ca newc cms :: given_kids kids group) ms))).
  2: { destruct content as [c|]; [|by injection Hc as <-]. unfold c_lift.
       by rewrite (content_updated fs a ct ca cc cms _ ms b c newc). }
  rewrite Hbc, Hbn, Hbs. cbn [n_attrs updated n].
  apply markup_step; [done| |done|done|done]. by eapply typed_with_content.
Qed.
End edit.
