(* ===== verification/EditorRemove.v ===== *)
(** * Removed blocks

    [removeBlocks] deletes blocks one after the other while it goes through the document
    as it was before.  It leaves what pruning that document gives, and reports the ids
    that it did not meet. *)
From S2P Require Import Prelude.
From S2P Require Import JsString.
From S2P Require Import JsObject.
From S2P Require Import DaemonApi.
From S2P Require Import NodeConvert.
From S2P Require Import BlockNodes.
From S2P Require Import Positions.
From S2P Require Import EditorBlocks.
From S2P Require Import PositionsFacts.
From S2P Require Import EditorBlocksFacts.
From S2P Require Import EditorLookup.

(** ** Pruning *)

Definition as_str (v : AttrVal) : option string := match v with VStr s => Some s | _ => None end.
(** The ids of a node's blocks that are strings. *)
Definition str_ids (n : PNode) : list string := omap as_str (block_ids n).
Definition removed (ids : list string) (n : PNode) : bool :=
  match str_id n with Some i => bool_decide (i ∈ ids) | None => false end.

Definition with_kids (ga : Attrs) (gms : list Mark) (kids : list PNode) : list PNode :=
  match kids with [] => [] | _ => [PElem "blockGroup" ga kids gms] end.

(** A block without the blocks below it that have one of the ids, and without a group
    that this leaves empty. *)
Fixpoint prune (ids : list string) (n : PNode) : PNode :=
  match n with
  | PElem t a [c; PElem _ ga kids gms] ms =>
      PElem t a (c :: with_kids ga gms
        ((fix go (l : list PNode) : list PNode :=
            match l with
            | [] => []
            | k :: l' => if removed ids k then go l' else prune ids k :: go l'
            end) kids)) ms
  | _ => n
  end.
Fixpoint prune_list (ids : list string) (l : list PNode) : list PNode :=
  match l with
  | [] => []
  | k :: l' => if removed ids k then prune_list ids l' else prune ids k :: prune_list ids l'
  end.

(** The ids that are met on the way. *)
Definition met_id (n : PNode) : list string := opt_list (str_id n).
Fixpoint met (ids : list string) (n : PNode) : list string :=
  match n with
  | PElem _ _ [_; PElem _ _ kids _] _ =>
      (fix go (l : list PNode) : list string :=
         match l with
         | [] => []
         | k :: l' => (if removed ids k then met_id k else met ids k) ++ go l'
         end) kids
  | _ => []
  end.
Fixpoint met_list (ids : list string) (l : list PNode) : list string :=
  match l with
  | [] => []
  | k :: l' => (if removed ids k then met_id k else met ids k) ++ met_list ids l'
  end.
Definition without (ids found : list string) : list string :=
  List.filter (λ i, negb (bool_decide (i ∈ found))) ids.

Lemma prune_group ids t a c gt ga kids gms ms :
  prune ids (PElem t a [c; PElem gt ga kids gms] ms) = PElem t a (c :: with_kids ga gms (prune_list ids kids)) ms.
Proof.
  cbn [prune]. do 3 f_equal. induction kids as [|k kids IH]; [done|]. cbn. by rewrite IH.
Qed.
Lemma met_group ids t a c gt ga kids gms ms :
  met ids (PElem t a [c; PElem gt ga kids gms] ms) = met_list ids kids.
Proof. cbn [met]. induction kids as [|k kids IH]; [done|]. cbn. by rewrite IH. Qed.

(** *** What is met is there *)

Lemma str_ids_elem t a c ms :
  str_ids (PElem t a c ms) =
  (if String.eqb t "blockContainer" then opt_list (as_str (attr a "id")) else []) ++ concat (str_ids <$> c).
Proof.
  unfold str_ids. cbn [block_ids]. rewrite omap_app. f_equal.
  - unfold own_id. destruct (String.eqb t "blockContainer"); [|done]. cbn. by destruct (attr a "id").
  - induction c as [|x c IH]; [done|]. cbn. by rewrite omap_app, IH.
Qed.
Lemma str_ids_leaf a c ms :
  str_ids (PElem "blockContainer" a [c] ms) = opt_list (as_str (attr a "id")) ++ str_ids c.
Proof. rewrite str_ids_elem. cbn. by rewrite app_nil_r. Qed.
Lemma str_ids_group a c ga kids gms ms :
  str_ids (PElem "blockContainer" a [c; PElem "blockGroup" ga kids gms] ms) =
  opt_list (as_str (attr a "id")) ++ str_ids c ++ concat (str_ids <$> kids).
Proof.
  rewrite str_ids_elem. cbn [String.eqb Ascii.eqb Bool.eqb fmap list_fmap concat].
  rewrite (str_ids_elem "blockGroup"). cbn. by rewrite app_nil_r.
Qed.
Lemma str_id_in n i : n_type n = "blockContainer" → str_id n = Some i → i ∈ str_ids n.
Proof.
  destruct n as [|t a c ms]; [done|]. cbn [n_type]. intros -> Hi. rewrite str_ids_elem. cbn [String.eqb Ascii.eqb Bool.eqb].
  unfold str_id in Hi. cbn [n_attrs] in Hi. apply elem_of_app. left.
  destruct (attr a "id"); try discriminate. injection Hi as ->. by apply list_elem_of_singleton.
Qed.
Lemma met_list_in ids l :
  Forall typed_block l → Forall (λ n, ∀ i, i ∈ met ids n → i ∈ str_ids n) l →
  ∀ i, i ∈ met_list ids l → i ∈ concat (str_ids <$> l).
Proof.
  intros Hl Hm i. revert Hm. induction Hl as [|k l [_ Hk] Hl IH]; intros Hm; [by intros ?%elem_of_nil|].
  inversion Hm as [|?? Hmk Hml]; subst. cbn. rewrite !elem_of_app. intros [Hi|Hi]; [|right; by apply IH].
  left. destruct (removed ids k); [|by apply Hmk]. unfold met_id in Hi.
  destruct (str_id k) as [j|] eqn:E; [|by apply elem_of_nil in Hi].
  apply list_elem_of_singleton in Hi as ->. by apply str_id_in.
Qed.
Lemma met_in ids n : typed_block n → ∀ i, i ∈ met ids n → i ∈ str_ids n.
Proof.
  intros Hn. pattern n. apply block_tree_ind; [|clear n Hn|exact Hn].
  - intros a c ms _ _ i Hi. by apply elem_of_nil in Hi.
  - intros a c ga kids gms ms _ _ _ Hk IH i Hi. rewrite met_group in Hi. rewrite str_ids_group.
    rewrite !elem_of_app. right. right. by eapply met_list_in.
Qed.

(** *** Pruning only looks at the ids of the block *)

Lemma removed_ext ids ids' n :
  n_type n = "blockContainer" → (∀ i, i ∈ str_ids n → (i ∈ ids ↔ i ∈ ids')) → removed ids n = removed ids' n.
Proof.
  intros Hn Hi. unfold removed. destruct (str_id n) as [i|] eqn:E; [|done].
  apply bool_decide_ext, Hi. by apply str_id_in.
Qed.
Lemma prune_ext ids ids' n :
  typed_block n → (∀ i, i ∈ str_ids n → (i ∈ ids ↔ i ∈ ids')) → prune ids n = prune ids' n ∧ met ids n = met ids' n.
Proof.
  intros Hn. pattern n. apply block_tree_ind; [done|clear n Hn|exact Hn].
  intros a c ga kids gms ms _ _ _ Hk IH Hi.
  rewrite !prune_group, !met_group. rewrite str_ids_group in Hi.
  assert (∀ i, i ∈ concat (str_ids <$> kids) → (i ∈ ids ↔ i ∈ ids')) as Hi'.
  { intros i Hin. apply Hi. rewrite !elem_of_app. by right; right. }
  clear Hi. enough (prune_list ids kids = prune_list ids' kids ∧ met_list ids kids = met_list ids' kids) as [-> ->] by done.
  induction Hk as [|k l [Htk Hk] Hl IHl]; [done|]. inversion IH as [|?? IHk IHr]; subst.
  cbn in Hi' |- *. setoid_rewrite elem_of_app in Hi'.
  destruct IHl as [-> ->]; [done|by eauto|]. rewrite (removed_ext ids ids' k) by eauto.
  destruct IHk as [-> ->]; [by eauto|]. done.
Qed.
Lemma prune_list_ext ids ids' l :
  Forall typed_block l → (∀ i, i ∈ concat (str_ids <$> l) → (i ∈ ids ↔ i ∈ ids')) →
  prune_list ids l = prune_list ids' l ∧ met_list ids l = met_list ids' l.
Proof.
  induction 1 as [|k l Hk Hl IH]; intros Hi; [done|]. cbn in Hi |- *. setoid_rewrite elem_of_app in Hi.
  destruct IH as [-> ->]; [by eauto|]. rewrite (removed_ext ids ids' k) by (apply Hk || eauto).
  destruct (prune_ext ids ids' k) as [-> ->]; [done|by eauto|]. done.
Qed.
Lemma prune_nil n : typed_block n → prune [] n = n ∧ met [] n = [].
Proof.
  intros Hn. pattern n. apply block_tree_ind; [done|clear n Hn|exact Hn].
  intros a c ga kids gms ms _ _ Hne Hk IH. rewrite prune_group, met_group.
  assert (prune_list [] kids = kids ∧ met_list [] kids = []) as [-> ->].
  { clear Hne. induction Hk as [|k l Htk Hl IHl]; [done|]. inversion IH as [|?? [E1 E2] IHr]; subst.
    assert (removed [] k = false) as Hr by (unfold removed; by destruct (str_id k)).
    cbn. rewrite Hr, E1, E2. by destruct (IHl IHr) as [-> ->]. }
  by destruct kids.
Qed.

Lemma without_nil ids : without ids [] = ids.
Proof. apply filter_all. intros i _. by rewrite bool_decide_eq_false_2 by apply not_elem_of_nil. Qed.
Lemma without_app ids l k : without (without ids l) k = without ids (l ++ k).
Proof.
  unfold without. induction ids as [|i ids IH]; [done|]. cbn.
  destruct (bool_decide (i ∈ l)) eqn:E; bool_simpl.
  - rewrite bool_decide_eq_true_2 by (apply elem_of_app; by left). exact IH.
  - cbn. rewrite IH.
    by rewrite (bool_decide_ext (i ∈ l ++ k) (i ∈ k)) by (rewrite elem_of_app; naive_solver).
Qed.
Lemma without_in ids found i : i ∈ without ids found ↔ i ∈ ids ∧ i ∉ found.
Proof.
  unfold without. rewrite !list_elem_of_In, filter_In, negb_true_iff, bool_decide_eq_false.
  by rewrite list_elem_of_In.
Qed.
Lemma without_one ids id : List.filter (λ i, negb (String.eqb i id)) ids = without ids [id].
Proof.
  unfold without. apply filter_ext. intros i. f_equal. rewrite (bool_decide_ext _ (i = id)) by apply list_elem_of_singleton.
  destruct (String.eqb_spec i id); by case_bool_decide.
Qed.

Lemma typed_with_kids a c ga gms ms kids :
  type_group (n_type c) = "blockContent" → typed c = true → Forall typed_block kids →
  typed_block (PElem "blockContainer" a (c :: with_kids ga gms kids) ms).
Proof.
  intros Hg Hc Hk. split; [|done]. apply typed_container. split; [done|]. split; [done|].
  destruct kids as [|k kids]; [by left|]. right. eexists. split; [done|]. split; [done|].
  destruct (typed_blocks _ Hk). by apply (typed_group ga (k :: kids) gms).
Qed.
Lemma typed_prune ids n : typed_block n → typed_block (prune ids n).
Proof.
  intros Hn. pattern n. apply block_tree_ind; [|clear n Hn|exact Hn].
  - intros a c ms Hg Hc. split; [|done]. apply typed_container. split; [done|]. split; [done|by left].
  - intros a c ga kids gms ms Hg Hc _ Hk IH. rewrite prune_group. apply typed_with_kids; [done|done|].
    clear Hk. induction IH as [|k l Hk _ IHl]; [constructor|]. cbn. destruct (removed ids k); [done|by constructor].
Qed.
Lemma typed_prune_list ids l : Forall typed_block l → Forall typed_block (prune_list ids l).
Proof.
  induction 1 as [|k l Hk _ IH]; [constructor|]. cbn. destruct (removed ids k); [done|].
  constructor; [by apply typed_prune|done].
Qed.

Lemma prune_list_nil l : Forall typed_block l → prune_list [] l = l ∧ met_list [] l = [].
Proof.
  induction 1 as [|k l Hk _ [IH1 IH2]]; [done|]. cbn.
  assert (removed [] k = false) as -> by (unfold removed; by destruct (str_id k)).
  destruct (prune_nil k Hk) as [-> ->]. by rewrite IH1, IH2.
Qed.

(** ** Deletions *)

Section remove.
Context `{ProseMirrorLaws}.

Lemma size_replug fs n n' :
  Forall typed_frame fs → (nodeSize (plug fs n) - nodeSize (plug fs n') = nodeSize n - nodeSize n')%Z.
Proof.
  intros Hf. revert n n'. induction Hf as [|f fs (Hl & _) _ IH]; intros n n'; [done|]. cbn [plug].
  rewrite IH. unfold fill_frame. rewrite !size_block, !csize_app by done. cbn. lia.
Qed.

(** The document with a group of blocks at a place, or without the group. *)
Definition regroup (gfs : list Frame) (ga : Attrs) (gms : list Mark) (l : list PNode) : PNode :=
  match l, gfs with
  | [], f :: fs => plug fs (fill_frame f [])
  | _, _ => plug gfs (PElem "blockGroup" ga l gms)
  end.
Definition kid_frame (ga : Attrs) (gms : list Mark) (l r : list PNode) : Frame :=
  {| f_type := "blockGroup"; f_attrs := ga; f_left := l; f_right := r; f_marks := gms |}.
(** The group is below a block. *)
Definition nested (gfs : list Frame) : Prop := ∃ a c ms fs, gfs = group_frame a c ms :: fs.

Lemma typed_regroup_delete gfs ga gms l k r :
  nested gfs ∨ l ++ r ≠ [] → typed (regroup gfs ga gms (l ++ k :: r)) = true →
  typed (regroup gfs ga gms (l ++ r)) = true.
Proof.
  intros Hne Ht. assert (regroup gfs ga gms (l ++ k :: r) = plug gfs (PElem "blockGroup" ga (l ++ k :: r) gms)) as E
    by by destruct l.
  rewrite E in Ht. clear E. destruct (decide (l ++ r = [])) as [E|E].
  - destruct Hne as [(a & c & ms & fs & ->)|]; [|done]. rewrite E. cbn [plug regroup] in Ht |- *.
    eapply typed_replug; [exact Ht| |done]. apply typed_plug_inv in Ht.
    apply (typed_container a c [PElem "blockGroup" ga (l ++ k :: r) gms] ms) in Ht as (Hg & Hc & _).
    apply (typed_container a c [] ms). split; [done|]. split; [done|by left].
  - assert (regroup gfs ga gms (l ++ r) = plug gfs (PElem "blockGroup" ga (l ++ r) gms)) as ->
      by (by destruct (l ++ r)).
    eapply typed_replug; [exact Ht| |done]. apply typed_plug_inv in Ht.
    apply (typed_group ga (l ++ k :: r) gms) in Ht as (_ & Hk & Htk). apply (typed_group ga (l ++ r) gms).
    rewrite !forallb_app in *. cbn [forallb] in *. bool_simpl. split; [done|]. by split; apply andb_true_iff.
Qed.
Lemma regroup_cons gfs ga gms l : l ≠ [] → regroup gfs ga gms l = plug gfs (PElem "blockGroup" ga l gms).
Proof. by destruct l. Qed.

Lemma delete_block gfs ga gms l n r :
  let fs := kid_frame ga gms l r :: gfs in
  in_doc fs → typed (plug fs n) = true → n_type n = "blockContainer" → (nested gfs ∨ l ++ r ≠ []) →
  BNDeleteBlock (hole fs + 1) (plug fs n) = Ok (regroup gfs ga gms (l ++ r)).
Proof.
  intros fs Hd Ht Hn Hne. destruct (block_bounds fs n Hd Ht Hn) as (Hi & _ & Hs).
  pose proof (typed_plug_inv _ _ Ht) as Htn.
  assert (owns fs n (hole fs + 1)) as Ho.
  { destruct (container_inv n Htn Hn) as (a & c & group & ms & -> & _ & Hc & _). left. cbn [n_content].
    apply nodeSize_pos in Hc. unfold hole. lia. }
  unfold BNDeleteBlock. rewrite owned_path by (done || unfold hole, outer_start; lia).
  destruct (block_info_describes fs n Htn Hn) as (b & Eb & _ & Hbs & Hbe & _). rewrite Eb. cbn [rbind].
  rewrite Hbs, Hbe. destruct n as [|t a c ms]; [done|]. cbn in Hn. subst t. unfold content_size. cbn [n_content].
  destruct (decide (l ++ r = [])) as [E|E].
  - destruct Hne as [(pa & pc & pms & fs0 & ->)|]; [|done]. apply app_eq_nil in E as [-> ->].
    cbn [app regroup]. unfold fs. cbn [plug inner kid_frame group_frame f_left csize].
    pose proof (deleteRange_group fs0 pa pc ga gms a c ms pms) as Ed. cbn zeta in Ed.
    replace (inner fs0 + (nodeSize pc + 0) + 1 + 0 + 1)%Z with (inner fs0 + nodeSize pc + 2)%Z by lia.
    by apply Ed.
  - rewrite regroup_cons by done. by apply (deleteRange_block gfs ga l r gms a c ms).
Qed.

(** ** The traversal *)

Definition removing (ids : list string) (rs : Z) (doc : PNode) : Removal :=
  {| rm_ids := ids; rm_removedSize := rs; rm_doc := doc; rm_error := None |}.

Lemma remove_pass ids rs doc n p :
  ids ≠ [] → n_type n ≠ "blockContainer" ∨ removed ids n = false →
  remove_visit (removing ids rs doc) n p = (removing ids rs doc, true).
Proof.
  intros Hids Hn. unfold remove_visit. cbn [removing rm_error rm_ids]. destruct ids as [|i0 ids]; [done|].
  unfold removed in Hn. destruct (str_id n) as [i|]; [|done].
  destruct Hn as [Hn|Hn]; [by rewrite (proj2 (String.eqb_neq _ _) Hn)|]. rewrite Hn. by rewrite andb_false_r.
Qed.
Lemma remove_stop rs doc n p : remove_visit (removing [] rs doc) n p = (removing [] rs doc, false).
Proof. done. Qed.

(** What a visit of a block that stays does. *)
Definition visited (n : PNode) : Prop := ∀ ids rs fs p,
  in_doc fs → typed (plug fs n) = true → NoDup (str_ids n) → (p - rs = hole fs)%Z → removed ids n = false →
  visit remove_visit n p (removing ids rs (plug fs n)) =
  removing (without ids (met ids n)) (rs + (nodeSize (plug fs n) - nodeSize (plug fs (prune ids n))))
    (plug fs (prune ids n)).

Lemma visit_stuck ids rs doc n p : ids = [] → visit remove_visit n p (removing ids rs doc) = removing ids rs doc.
Proof. intros ->. by destruct n. Qed.
Lemma visit_list_nil l rs doc p : visit_list remove_visit l p (removing [] rs doc) = removing [] rs doc.
Proof. by apply visit_list_stuck. Qed.

Lemma removing_eq ids ids' rs rs' doc doc' :
  ids = ids' → rs = rs' → doc = doc' → removing ids rs doc = removing ids' rs' doc'.
Proof. by intros -> -> ->. Qed.

(** A block with one of the ids is deleted. *)
Lemma visit_removed ids rs gfs ga gms dn k l p :
  let fs := kid_frame ga gms dn l :: gfs in
  in_doc fs → typed (plug fs k) = true → n_type k = "blockContainer" → (nested gfs ∨ dn ++ l ≠ []) →
  (p - rs = hole fs)%Z → removed ids k = true →
  let doc1 := regroup gfs ga gms (dn ++ l) in
  visit remove_visit k p (removing ids rs (plug fs k)) =
  removing (without ids (met_id k)) (rs + (nodeSize (plug fs k) - nodeSize doc1)) doc1.
Proof.
  intros fs Hd Ht Hkn Hne Hp Hr doc1.
  pose proof (delete_block gfs ga gms dn k l Hd Ht Hkn Hne) as Ed. fold fs in Ed.
  assert (remove_visit (removing ids rs (plug fs k)) k p =
          (removing (without ids (met_id k)) (rs + (nodeSize (plug fs k) - nodeSize doc1)) doc1, false)) as E;
    [|destruct k; cbn [visit]; by rewrite E].
  unfold removed, met_id in *. destruct (str_id k) as [id|] eqn:Eid; [|done]. cbn [opt_list].
  unfold remove_visit. cbn [removing rm_error rm_ids]. destruct ids as [|i0 ids0]; [by apply bool_decide_eq_true, elem_of_nil in Hr|].
  rewrite Eid, Hkn, Hr. cbn [String.eqb Ascii.eqb Bool.eqb andb removing rm_doc rm_removedSize].
  replace (p - rs + 1)%Z with (hole fs + 1)%Z by lia. rewrite Ed. by rewrite without_one.
Qed.
Lemma met_id_in k i : n_type k = "blockContainer" → i ∈ met_id k → i ∈ str_ids k.
Proof.
  unfold met_id. destruct (str_id k) as [j|] eqn:E; [|by intros _ ?%elem_of_nil].
  intros Hk ->%list_elem_of_singleton. by apply str_id_in.
Qed.
(** What was found in one block is not looked for in the others. *)
Lemma prune_list_without ids found k l :
  Forall typed_block l → (∀ i, i ∈ found → i ∈ str_ids k) →
  (∀ i, i ∈ str_ids k → i ∉ concat (str_ids <$> l)) →
  prune_list (without ids found) l = prune_list ids l ∧ met_list (without ids found) l = met_list ids l.
Proof.
  intros Hl Hf Hdis. apply prune_list_ext; [done|]. intros i Hi. rewrite without_in.
  split; [tauto|]. intros Hin. split; [done|]. intros Hif. eapply Hdis; [|exact Hi]. by apply Hf.
Qed.

(** The blocks of a group, from left to right: those before have been dealt with. *)
Lemma visit_group l : Forall typed_block l → Forall visited l → ∀ ids rs gfs ga gms dn p,
  (∀ l r, in_doc (kid_frame ga gms l r :: gfs)) → (nested gfs ∨ dn ++ prune_list ids l ≠ []) →
  typed (regroup gfs ga gms (dn ++ l)) = true → NoDup (concat (str_ids <$> l)) →
  (l ≠ [] → p - rs = inner gfs + csize dn)%Z →
  let doc := regroup gfs ga gms (dn ++ l) in
  let doc' := regroup gfs ga gms (dn ++ prune_list ids l) in
  visit_list remove_visit l p (removing ids rs doc) =
  removing (without ids (met_list ids l)) (rs + (nodeSize doc - nodeSize doc')) doc'.
Proof.
  intros Hty Hvs. induction Hty as [|k l [Hkt Hkn] Hl IH]; intros ids rs gfs ga gms dn p Hin Hne Ht Hnd Hp doc doc'.
  { subst doc doc'. cbn. rewrite without_nil. apply removing_eq; [done|lia|done]. }
  inversion Hvs as [|?? Hk Hvl]; subst. specialize (Hp ltac:(done)).
  set (fs := kid_frame ga gms dn l :: gfs).
  assert (doc = plug fs k) as Edoc by (subst doc; by destruct dn).
  assert (typed (plug fs k) = true) as Htk by (by rewrite <- Edoc).
  assert (p - rs = hole fs)%Z as Hh by (unfold hole, fs; cbn; lia).
  assert (Forall typed_frame fs) as Hff by by eapply typed_frames.
  cbn in Hnd. apply NoDup_app in Hnd as (Hnk & Hdis & Hnl).
  subst doc'. cbn [visit_list prune_list met_list] in *. destruct (removed ids k) eqn:Hr.
  - assert (nested gfs ∨ dn ++ l ≠ []) as Hne'.
    { destruct Hne as [|Hne]; [by left|]. right. intros E. apply Hne.
      by apply app_eq_nil in E as [-> ->]. }
    pose proof (visit_removed ids rs gfs ga gms dn k l p (Hin dn l) Htk Hkn Hne' Hh Hr) as Ev.
    cbn zeta in Ev. fold fs in Ev. rewrite Edoc, Ev.
    destruct (prune_list_without ids (met_id k) k l Hl (λ i, met_id_in k i Hkn) Hdis) as [Ep Em].
    rewrite <- Ep, <- Em in *. rewrite IH; [|done|done|done| |done|].
    + rewrite without_app. apply removing_eq; [done|lia|done].
    + apply typed_regroup_delete with (k := k); done.
    + intros Hl0. assert (dn ++ l ≠ []) as Hne1 by (by destruct dn, l).
      rewrite regroup_cons by done. change (plug fs k) with (plug gfs (fill_frame (kid_frame ga gms dn l) [k])).
      inversion Hff as [|?? _ Hg]; subst. rewrite size_replug by done. unfold fill_frame. cbn.
      rewrite !size_block, !csize_app by done. unfold hole, fs in Hh. cbn in Hh |- *. lia.
  - rewrite Edoc. rewrite (Hk ids rs fs p) by (done || apply Hin).
    assert (plug fs (prune ids k) = regroup gfs ga gms ((dn ++ [prune ids k]) ++ l)) as Edoc1.
    { rewrite <- (assoc_L (++)). by destruct dn. }
    destruct (prune_list_without ids (met ids k) k l Hl (met_in ids k (conj Hkt Hkn)) Hdis) as [Ep Em].
    rewrite Edoc1. destruct (typed_prune ids k (conj Hkt Hkn)) as [Hpt Hpn].
    rewrite IH; [|done|done| | |done|].
    + rewrite Ep, Em, without_app, <- !(assoc_L (++)). apply removing_eq; [done|cbn [app]; lia|done].
    + right. rewrite <- (assoc_L (++)). by destruct dn.
    + rewrite <- Edoc1. eapply typed_replug; [exact Htk|done|congruence].
    + intros _. rewrite <- Edoc1, size_replug by done. rewrite csize_app. unfold hole, fs in Hh. cbn in Hh |- *. lia.
Qed.

Lemma in_doc_cons f g fs : in_doc (g :: fs) → in_doc (f :: g :: fs).
Proof. intros (gs & h & a & ms & E & Hh). exists (f :: gs), h, a, ms. by rewrite E. Qed.
Lemma in_doc_nested a c ms fs ga gms l r :
  in_doc fs → in_doc (kid_frame ga gms l r :: group_frame a c ms :: fs).
Proof.
  intros Hd. apply in_doc_cons. destruct Hd as (gs & h & da & dms & -> & Hh).
  by exists (group_frame a c ms :: gs), h, da, dms.
Qed.

Lemma block_visited n : typed_block n → visited n.
Proof.
  intros Hn. apply block_tree_ind; [| |exact Hn]; clear n Hn.
  - intros a c ms Hg Hc ids rs fs p Hd Ht Hnd Hp Hr. cbn [prune met]. rewrite without_nil.
    assert (visit remove_visit (PElem "blockContainer" a [c] ms) p
              (removing ids rs (plug fs (PElem "blockContainer" a [c] ms))) =
            removing ids rs (plug fs (PElem "blockContainer" a [c] ms))) as ->; [|apply removing_eq; [done|lia|done]].
    destruct (decide (ids = [])) as [->|Hids]; [by apply visit_stuck|].
    rewrite visit_elem, remove_pass by (done || by right). cbn [fst snd visit_list].
    apply visit_content; [|done|done]. intros m q Hm _. apply remove_pass; [done|by left].
  - intros a c ga kids gms ms Hg Hc Hne Hk IH ids rs fs p Hd Ht Hnd Hp Hr.
    set (n := PElem "blockContainer" a [c; PElem "blockGroup" ga kids gms] ms) in *.
    assert (plug fs (prune ids n) = regroup (group_frame a c ms :: fs) ga gms (prune_list ids kids)) as Epr.
    { unfold n. rewrite prune_group. by destruct (prune_list ids kids). }
    assert (plug fs n = regroup (group_frame a c ms :: fs) ga gms kids) as En by by destruct kids.
    destruct (decide (ids = [])) as [->|Hids].
    { rewrite visit_stuck by done. destruct (prune_nil n (conj (typed_plug_inv _ _ Ht) eq_refl)) as [-> ->].
      apply removing_eq; [done|lia|done]. }
    unfold n at 1. rewrite visit_elem. fold n. rewrite remove_pass by (done || by right). cbn [fst snd visit_list].
    rewrite (visit_content _ c); [|intros m q Hm _; apply remove_pass; [done|by left]|done|done].
    rewrite visit_elem, remove_pass by (done || by left). cbn [fst snd].
    rewrite Epr. rewrite En at 1 2.
    pose proof (visit_group kids Hk IH ids rs (group_frame a c ms :: fs) ga gms [] (p + 1 + nodeSize c + 1)) as Hv.
    unfold n. rewrite met_group. apply Hv; [by intros; apply in_doc_nested|left; by eexists _, _, _, _|cbn [app]; by rewrite <- En| |].
    + unfold n in Hnd. rewrite str_ids_group in Hnd. apply NoDup_app in Hnd as (_ & _ & Hnd). by apply NoDup_app in Hnd as (_ & _ & ?).
    + intros _. unfold hole in Hp. cbn. lia.
Qed.

(** C15. Blocks are removed by their ids: what stays is the document without these
    blocks and all that is below them, and without the groups that this leaves empty,
    all else in its place; the ids that name no block outside of a removed one are
    reported, when the others are gone. *)
Theorem removeBlocks_spec ids a ga kids gms ms :
  let doc := PElem "doc" a [PElem "blockGroup" ga kids gms] ms in
  typed doc = true → NoDup (str_ids doc) → existsb (λ k, negb (removed ids k)) kids = true →
  removeBlocks ids doc =
    (PElem "doc" a [PElem "blockGroup" ga (prune_list ids kids) gms] ms,
     match without (dedup ids) (met_list ids kids) with
     | [] => Ok ()
     | l => Err (not_found l)
     end) ∧
  typed (PElem "doc" a [PElem "blockGroup" ga (prune_list ids kids) gms] ms) = true.
Proof.
  intros doc Ht Hnd Hex.
  assert (Forall typed_block kids) as Hk.
  { destruct (doc_shape doc Ht eq_refl) as (? & ? & ? & ? & ? & [= <- <- <- <- <-] & _ & Hk & Htk).
    apply Forall_forall. intros k Hin%list_elem_of_In. split; [by eapply forallb_forall in Htk|].
    eapply forallb_forall in Hk; [|exact Hin]. by apply String.eqb_eq. }
  assert (∀ i, i ∈ concat (str_ids <$> kids) → (i ∈ dedup ids ↔ i ∈ ids)) as Hext by (intros; apply elem_of_dedup).
  destruct (prune_list_ext (dedup ids) ids kids Hk Hext) as [Ep Em].
  assert (prune_list ids kids ≠ []) as Hne.
  { clear -Hex. induction kids as [|k l IH]; [done|]. cbn in Hex |- *. by destruct (removed ids k); [apply IH|]. }
  split.
  - unfold removeBlocks. rewrite descendants_eq. cbn [n_content doc visit_list].
    assert (visit remove_visit (PElem "blockGroup" ga kids gms) 0 (removing (dedup ids) 0 doc) =
            removing (without (dedup ids) (met_list ids kids))
              (0 + (nodeSize doc - nodeSize (PElem "doc" a [PElem "blockGroup" ga (prune_list ids kids) gms] ms)))
              (PElem "doc" a [PElem "blockGroup" ga (prune_list ids kids) gms] ms)) as Ev; [|unfold removing in Ev; fold doc; rewrite Ev; done].
    destruct (decide (dedup ids = [])) as [E|Hids].
    { rewrite visit_stuck by done. rewrite <- Ep, <- Em, E. destruct (prune_list_nil kids Hk) as [-> ->].
      apply removing_eq; [done|unfold doc; lia|done]. }
    rewrite visit_elem, remove_pass by (done || by left). cbn [fst snd].
    assert (regroup [doc_frame a ms] ga gms kids = doc) as Ed by by destruct kids.
    assert (regroup [doc_frame a ms] ga gms (prune_list ids kids) =
            PElem "doc" a [PElem "blockGroup" ga (prune_list ids kids) gms] ms) as Ed' by by destruct (prune_list ids kids).
    rewrite <- Ed', <- Ed, <- Ep, <- Em.
    apply (visit_group kids Hk (Forall_impl _ _ _ Hk block_visited) (dedup ids) 0 [doc_frame a ms] ga gms [] (0 + 1)%Z).
    + intros l r. by exists [], (kid_frame ga gms l r), a, ms.
    + right. by rewrite Ep.
    + cbn [app]. by rewrite Ed.
    + unfold doc in Hnd. rewrite str_ids_elem in Hnd.
      cbn [String.eqb Ascii.eqb Bool.eqb fmap list_fmap concat app] in Hnd.
      rewrite app_nil_r, str_ids_elem in Hnd. exact Hnd.
    + intros _. cbn. lia.
  - pose proof (typed_prune_list ids kids Hk) as Hpk. destruct (typed_blocks _ Hpk) as [Hpt Hpc].
    apply (typed_replug [doc_frame a ms] (PElem "blockGroup" ga kids gms)); [exact Ht| |done].
    by apply (typed_group ga (prune_list ids kids) gms).
Qed.
End remove.
