(* ===== verification/PositionsModel.v ===== *)
(** * A model of positions

    A concrete [ProseMirror]: a position is located by walking down the document, and
    each step checks the content expression.  It satisfies the laws that the editor's
    commands are proved against. *)
From S2P Require Import Prelude.
From S2P Require Import JsString.
From S2P Require Import JsObject.
From S2P Require Import DaemonApi.
From S2P Require Import NodeConvert.
From S2P Require Import BlockNodes.
From S2P Require Import NodeExamples.
From S2P Require Import Positions.
From S2P Require Import PositionsFacts.

Fixpoint nsize (n : PNode) : Z :=
  match n with
  | PText s _ => Z.of_nat (len s)
  | PElem t _ c _ =>
      if is_leaf t then 1
      else 2 + (fix go (l : list PNode) : Z := match l with [] => 0 | x :: l' => nsize x + go l' end) c
  end%Z.

(** The frames of the innermost node around a position, and the node. *)
Fixpoint locate (n : PNode) (acc : list Frame) (start pos : Z) : option (list Frame * PNode) :=
  match n with
  | PText _ _ => None
  | PElem t a c ms =>
      (fix go (l : list PNode) (before : list PNode) (off : Z) : option (list Frame * PNode) :=
         if (pos =? off)%Z then Some (acc, n)
         else match l with
              | [] => None
              | x :: l' =>
                  if (pos <? off + nsize x)%Z then
                    match x with
                    | PText _ _ => Some (acc, n)
                    | _ => locate x ({| f_type := t; f_attrs := a; f_left := before; f_right := l'; f_marks := ms |} :: acc)
                                  (off + 1) pos
                    end
                  else go l' (before ++ [x]) (off + nsize x)%Z
              end) c [] start
  end.

(** The content of a node on both sides of an offset between two nodes. *)
Fixpoint split_content (l : list PNode) (off : Z) : option (list PNode * list PNode) :=
  if (off =? 0)%Z then Some ([], l)
  else match l with
       | [] => None
       | x :: l' =>
           if (nsize x <=? off)%Z then
             match split_content l' (off - nsize x) with
             | Some r => Some (x :: r.1, r.2)
             | None => None
             end
           else None
       end.

Definition bad_position : string := "Position out of range".
Definition bad_content : string := "Invalid content for node type".

Section ops.
(** The sizes come first; traversals only need those. *)
Definition sizes_only : ProseMirror := {|
  known_type := λ _, false;
  nodeSize := nsize;
  resolve := λ _ _, Err bad_position;
  descendants := λ _ _ _ s, s;
  tr_insert := λ _ _ _, Err bad_position;
  tr_replace := λ _ _ _ _, Err bad_position;
  tr_deleteRange := λ _ _ _, Err bad_position;
  tr_setNodeMarkup := λ _ _ _ _, Err bad_position;
  tr_setNodeAttribute := λ _ _ _ _, Err bad_position;
|}.
#[local] Existing Instance sizes_only.

Definition in_range (doc : PNode) (pos : Z) : option (list Frame * PNode) :=
  if (pos <? 0)%Z || (content_size doc <? pos)%Z then None else locate doc [] 0 pos.

Definition pm_resolve (doc : PNode) (pos : Z) : result ResolvedPos :=
  match in_range doc pos with
  | Some r => Ok (ancestors r.1 r.2)
  | None => Err bad_position
  end.

Definition pm_insert (doc : PNode) (pos : Z) (ns : list PNode) : result PNode :=
  match in_range doc pos with
  | Some (fs, PElem t a c ms) =>
      match split_content c (pos - inner fs) with
      | Some (l, r) =>
          if content_ok t (l ++ ns ++ r) then Ok (plug fs (PElem t a (l ++ ns ++ r) ms)) else Err bad_content
      | None => Err bad_position
      end
  | _ => Err bad_position
  end.

Definition pm_replace (doc : PNode) (from to : Z) (ns : list PNode) : result PNode :=
  match in_range doc from with
  | Some (fs, PElem t a c ms) =>
      if (from =? inner fs)%Z && (to =? inner fs + csize c)%Z && content_ok t (join_texts ns)
      then Ok (plug fs (PElem t a (join_texts ns) ms)) else Err bad_content
  | _ => Err bad_position
  end.

Definition pm_deleteRange (doc : PNode) (from to : Z) : result PNode :=
  match in_range doc from with
  | Some (f :: fs, PElem "blockContainer" a c ms) =>
      if (from =? inner (f :: fs))%Z && (to =? from + csize c)%Z then
        match f_left f ++ f_right f, fs with
        | [], g :: fs' =>
            if String.eqb (f_type g) "blockContainer" then Ok (plug fs' (fill_frame g [])) else Err bad_content
        | [], [] => Err bad_content
        | _, _ => Ok (plug fs (fill_frame f []))
        end
      else Err bad_position
  | _ => Err bad_position
  end.

Definition pm_setNodeMarkup (doc : PNode) (pos : Z) (type : option string) (given : Attrs) : result PNode :=
  match in_range doc pos with
  | Some (fs, PElem t a c ms) =>
      match split_content c (pos - inner fs) with
      | Some (l, PElem u _ k ums :: r) =>
          let u := default u type in
          match editor_nodes u with
          | Some ds =>
              let d := plug fs (PElem t a (l ++ PElem u (compute_attrs ds given) k ums :: r) ms) in
              if content_ok u k && typed d then Ok d else Err bad_content
          | None => Err bad_content
          end
      | _ => Err bad_position
      end
  | _ => Err bad_position
  end.

(** The node before which the position is, with the key set. *)
Definition pm_setNodeAttribute (doc : PNode) (pos : Z) (key : string) (v : AttrVal) : result PNode :=
  match in_range doc pos with
  | Some (fs, PElem t a c ms) =>
      match split_content c (pos - inner fs) with
      | Some (l, PElem u ua k ums :: r) =>
          match editor_nodes u with
          | Some ds => Ok (plug fs (PElem t a (l ++ PElem u (compute_attrs ds (oset ua key v)) k ums :: r) ms))
          | None => Err bad_content
          end
      | _ => Err bad_position
      end
  | _ => Err bad_position
  end.

Definition pm_descendants {S : Type} (f : S → PNode → Z → S * bool) (n : PNode) (s : S) : S :=
  visit_list f (n_content n) 0 s.
End ops.

#[export] Instance editor_positions : ProseMirror := {|
  known_type := λ t, match editor_nodes t with Some _ => true | None => false end;
  nodeSize := nsize;
  resolve := pm_resolve;
  descendants := @pm_descendants;
  tr_insert := pm_insert;
  tr_replace := pm_replace;
  tr_deleteRange := pm_deleteRange;
  tr_setNodeMarkup := pm_setNodeMarkup;
  tr_setNodeAttribute := pm_setNodeAttribute;
|}.

(** ** The laws *)

#[export] Instance editor_sizes : SizeLaws.
Proof.
  split; [done|]. intros t a c ms. cbn [nodeSize editor_positions nsize]. by destruct (is_leaf t).
Qed.

Lemma nsize_pos n : typed n = true → (0 < nsize n)%Z.
Proof. change (nsize n) with (nodeSize n). apply nodeSize_pos. Qed.

Lemma split_content_app l r :
  forallb typed l = true → split_content (l ++ r) (csize l) = Some (l, r).
Proof.
  induction l as [|x l IH]; intros Ht; [by destruct r|]. cbn in Ht. bool_simpl.
  cbn [app csize split_content]. change (nodeSize x) with (nsize x). pose proof (nsize_pos x ltac:(done)).
  assert (0 ≤ csize l)%Z by by apply csize_nonneg.
  destruct (Z.eqb_spec (nsize x + csize l) 0); [lia|]. destruct (Z.leb_spec (nsize x) (nsize x + csize l)); [|lia].
  replace (nsize x + csize l - nsize x)%Z with (csize l) by lia. by rewrite IH.
Qed.

(** An offset between two nodes, or inside of a text. *)
Definition place (c : list PNode) (off : Z) : Prop :=
  (∃ l r, c = l ++ r ∧ off = csize l) ∨
  (∃ l s ms r k, c = l ++ PText s ms :: r ∧ off = (csize l + k)%Z ∧ (0 < k < Z.of_nat (len s))%Z).

Definition locate_go (n : PNode) (t : string) (a : Attrs) (ms : list Mark) (acc : list Frame) (pos : Z) :=
  fix go (l : list PNode) (before : list PNode) (off : Z) : option (list Frame * PNode) :=
    if (pos =? off)%Z then Some (acc, n)
    else match l with
         | [] => None
         | x :: l' =>
             if (pos <? off + nsize x)%Z then
               match x with
               | PText _ _ => Some (acc, n)
               | _ => locate x ({| f_type := t; f_attrs := a; f_left := before; f_right := l'; f_marks := ms |} :: acc)
                             (off + 1) pos
               end
             else go l' (before ++ [x]) (off + nsize x)%Z
         end.
Lemma locate_elem t a c ms acc start pos :
  locate (PElem t a c ms) acc start pos = locate_go (PElem t a c ms) t a ms acc pos c [] start.
Proof. done. Qed.

(** What lies before the position is passed. *)
Lemma locate_go_skip n t a ms acc pos l r before off :
  forallb typed l = true → (off + csize l < pos ∨ off + csize l = pos ∧ r = [] ∨ off + csize l = pos ∧ l = [])%Z →
  locate_go n t a ms acc pos (l ++ r) before off = locate_go n t a ms acc pos r (before ++ l) (off + csize l)%Z.
Proof.
  revert before off. induction l as [|x l IH]; intros before off Ht Hp.
  - cbn [csize app]. by rewrite app_nil_r, Z.add_0_r.
  - cbn in Ht. bool_simpl. pose proof (nsize_pos x ltac:(done)).
    assert (0 ≤ csize l)%Z by (apply csize_nonneg; done). cbn [csize] in Hp. change (nodeSize x) with (nsize x) in Hp.
    cbn [app locate_go]. destruct (Z.eqb_spec pos off); [naive_solver lia|].
    destruct (Z.ltb_spec pos (off + nsize x)); [naive_solver lia|]. fold (locate_go n t a ms acc pos).
    rewrite IH by (done || naive_solver lia). rewrite <- (assoc_L (++)). cbn [csize app].
    change (nodeSize x) with (nsize x). by rewrite Z.add_assoc.
Qed.
(** A place in the content of a node is in that node. *)
Lemma locate_go_place n t a ms acc c before off o :
  forallb typed c = true → place c o → locate_go n t a ms acc (off + o) c before off = Some (acc, n).
Proof.
  revert before off o. induction c as [|x c IH]; intros before off o Ht Hp.
  - assert (o = 0%Z) as ->.
    { destruct Hp as [(l & r & E & ->)|(l & s & sms & r & k & E & _)]; [by destruct l|by destruct l]. }
    cbn. by rewrite Z.add_0_r, Z.eqb_refl.
  - cbn in Ht. bool_simpl. pose proof (nsize_pos x ltac:(done)).
    cbn [locate_go]. destruct (Z.eqb_spec (off + o) off) as [|Ho]; [done|].
    fold (locate_go n t a ms acc (off + o)).
    destruct Hp as [([|y l] & r & E & ->)|([|y l] & s & sms & r & k & E & -> & Hk)]; [cbn in Ho; lia| | |];
      cbn in E; injection E as -> ->.
    + cbn [csize] in *. change (nodeSize y) with (nsize y) in *.
      assert (forallb typed l = true) by (rewrite forallb_app in *; bool_simpl; done).
      assert (0 ≤ csize l)%Z by (by apply csize_nonneg).
      destruct (Z.ltb_spec (off + (nsize y + csize l)) (off + nsize y)); [lia|].
      rewrite Z.add_assoc. apply IH; [done|]. left. by exists l, r.
    + cbn [csize nsize] in *. destruct (Z.ltb_spec (off + (0 + k)) (off + Z.of_nat (len s))); [done|lia].
    + cbn [csize] in *. change (nodeSize y) with (nsize y) in *.
      assert (forallb typed l = true) by (rewrite forallb_app in *; bool_simpl; done).
      assert (0 ≤ csize l)%Z by (by apply csize_nonneg).
      destruct (Z.ltb_spec (off + (nsize y + csize l + k)) (off + nsize y)); [lia|].
      replace (off + (nsize y + csize l + k))%Z with (off + nsize y + (csize l + k))%Z by lia.
      apply IH; [done|]. right. by exists l, s, sms, r, k.
Qed.

Lemma place_bounds c o : forallb typed c = true → place c o → (0 ≤ o ≤ csize c)%Z.
Proof.
  intros Ht [(l & r & -> & ->)|(l & s & ms & r & k & -> & -> & Hk)];
    rewrite forallb_app in Ht; cbn in Ht; bool_simpl; rewrite csize_app.
  - split; [by apply csize_nonneg|]. assert (0 ≤ csize r)%Z by by apply csize_nonneg. lia.
  - cbn [csize]. change (nodeSize (PText s ms)) with (Z.of_nat (len s)).
    assert (0 ≤ csize l ∧ 0 ≤ csize r)%Z by (split; by apply csize_nonneg). lia.
Qed.

Lemma plug_snoc fs f n : plug (fs ++ [f]) n = fill_frame f [plug fs n].
Proof. revert n. induction fs as [|g fs IH]; intros n; [done|]. cbn. apply IH. Qed.
Lemma inner_snoc fs f : (inner (fs ++ [f]) = inner fs + csize (f_left f) + 1)%Z.
Proof. induction fs as [|g fs IH]; [cbn; lia|]. cbn [app inner]. rewrite IH. lia. Qed.

(** The size of a document is beyond the content of any of its nodes. *)
Lemma size_plug fs t a c ms :
  Forall typed_frame fs → is_leaf t = false →
  (inner fs + csize c + 2 ≤ nodeSize (plug fs (PElem t a c ms)))%Z.
Proof.
  intros Hfs Hl. induction fs as [|f fs IH] using rev_ind.
  - cbn [plug inner]. rewrite size_block by done. lia.
  - apply Forall_app in Hfs as [Hfs (Hfl & Hleft & Hright)%list.Forall_singleton].
    rewrite plug_snoc, inner_snoc. unfold fill_frame. rewrite size_block by done.
    rewrite !csize_app. cbn [csize]. apply csize_nonneg in Hleft, Hright. specialize (IH Hfs). lia.
Qed.

Lemma locate_plug fs t a c ms acc start o :
  typed (plug fs (PElem t a c ms)) = true → is_leaf t = false → place c o →
  locate (plug fs (PElem t a c ms)) acc start (start + inner fs + o) = Some (fs ++ acc, PElem t a c ms).
Proof.
  intros Ht Hl Hp. revert acc start. induction fs as [|f fs IH] using rev_ind; intros acc start.
  - cbn [plug inner app]. rewrite locate_elem, Z.add_0_r. apply locate_go_place; [|done].
    by apply typed_elem in Ht as (_ & _ & ?).
  - pose proof (typed_frames _ _ Ht) as Hfs.
    apply Forall_app in Hfs as [Hfs (Hfl & Hleft & Hright)%list.Forall_singleton].
    rewrite plug_snoc in Ht |- *. rewrite inner_snoc.
    assert (typed (plug fs (PElem t a c ms)) = true) as Htp.
    { apply typed_elem in Ht as (_ & _ & Ht). rewrite !forallb_app in Ht. cbn in Ht. by bool_simpl. }
    assert (0 ≤ o ≤ csize c)%Z as Ho.
    { apply place_bounds; [|done]. apply typed_plug_inv in Htp. by apply typed_elem in Htp as (_ & _ & ?). }
    pose proof (inner_nonneg fs Hfs). pose proof (size_plug fs t a c ms Hfs Hl) as Hsize.
    unfold fill_frame. rewrite locate_elem, locate_go_skip by (done || lia). cbn [app locate_go].
    destruct (Z.eqb_spec (start + (inner fs + csize (f_left f) + 1) + o) (start + csize (f_left f))); [lia|].
    change (nodeSize (plug fs (PElem t a c ms))) with (nsize (plug fs (PElem t a c ms))) in Hsize.
    destruct (Z.ltb_spec (start + (inner fs + csize (f_left f) + 1) + o)
                (start + csize (f_left f) + nsize (plug fs (PElem t a c ms)))); [|lia].
    assert (∃ t' a' c' ms', plug fs (PElem t a c ms) = PElem t' a' c' ms') as (t' & a' & c' & ms' & Eq).
    { destruct fs as [|g fs] using rev_ind; [by eexists _, _, _, _|]. rewrite plug_snoc. by eexists _, _, _, _. }
    specialize (IH Htp). rewrite Eq in IH |- *.
    replace (start + (inner fs + csize (f_left f) + 1) + o)%Z with (start + csize (f_left f) + 1 + inner fs + o)%Z by lia.
    rewrite IH, <- (assoc_L (++)). by destruct f.
Qed.

Lemma in_range_plug fs t a c ms o :
  typed (plug fs (PElem t a c ms)) = true → is_leaf t = false → place c o →
  in_range (plug fs (PElem t a c ms)) (inner fs + o) = Some (fs, PElem t a c ms).
Proof.
  intros Ht Hl Hp. pose proof (typed_frames _ _ Ht) as Hfs.
  assert (0 ≤ o ≤ csize c)%Z as Ho.
  { apply place_bounds; [|done]. apply typed_plug_inv in Ht. by apply typed_elem in Ht as (_ & _ & ?). }
  pose proof (inner_nonneg fs Hfs). pose proof (size_plug fs t a c ms Hfs Hl) as Hsize.
  unfold in_range. change (@content_size sizes_only) with (@content_size editor_positions).
  assert (content_size (plug fs (PElem t a c ms)) = nodeSize (plug fs (PElem t a c ms)) - 2)%Z as ->.
  { destruct fs as [|f fs] using rev_ind; [cbn [plug]; rewrite nodeSize_doc by done; lia|].
    apply Forall_app in Hfs as [_ (Hfl & _)%list.Forall_singleton].
    rewrite plug_snoc. unfold fill_frame. rewrite nodeSize_doc by done. lia. }
  destruct (Z.ltb_spec (inner fs + o) 0); [lia|].
  destruct (Z.ltb_spec (nodeSize (plug fs (PElem t a c ms)) - 2) (inner fs + o)); [lia|]. cbn [orb].
  pose proof (locate_plug fs t a c ms [] 0 o Ht Hl Hp) as E. by rewrite app_nil_r in E.
Qed.
Lemma between l r : place (l ++ r) (csize l).
Proof. left. by exists l, r. Qed.

Lemma place_split l k r s ms :
  (0 < k < Z.of_nat (len s))%Z → place (l ++ PText s ms :: r) (csize l + k).
Proof. intros Hk. right. by exists l, s, ms, r, k. Qed.

Ltac sizes :=
  change (@csize sizes_only) with (@csize editor_positions);
  change (@inner sizes_only) with (@inner editor_positions);
  change (@content_size sizes_only) with (@content_size editor_positions).

(** The place before a node. *)
Lemma before_node f fs t a c ms :
  typed (plug (f :: fs) (PElem t a c ms)) = true →
  in_range (plug (f :: fs) (PElem t a c ms)) (hole (f :: fs)) =
    Some (fs, PElem (f_type f) (f_attrs f) (f_left f ++ PElem t a c ms :: f_right f) (f_marks f)) ∧
  split_content (f_left f ++ PElem t a c ms :: f_right f) (hole (f :: fs) - inner fs) =
    Some (f_left f, PElem t a c ms :: f_right f).
Proof.
  intros Ht. pose proof (typed_frames _ _ Ht) as Hf. inversion Hf as [|?? (Hfl & Hl & _) _]; subst.
  pose proof (in_range_plug fs (f_type f) (f_attrs f) (f_left f ++ PElem t a c ms :: f_right f) (f_marks f)
                (csize (f_left f)) Ht Hfl (between _ _)) as E.
  unfold hole. cbn [inner].
  replace (inner fs + csize (f_left f) + 1 - 1)%Z with (inner fs + csize (f_left f))%Z by lia.
  split; [exact E|]. replace (inner fs + csize (f_left f) - inner fs)%Z with (csize (f_left f)) by lia.
  by apply split_content_app.
Qed.
Lemma pm_setNodeMarkup_at f fs t a c ms type given :
  typed (plug (f :: fs) (PElem t a c ms)) = true →
  pm_setNodeMarkup (plug (f :: fs) (PElem t a c ms)) (hole (f :: fs)) type given =
  match editor_nodes (default t type) with
  | Some ds =>
      let d := plug fs (fill_frame f [PElem (default t type) (compute_attrs ds given) c ms]) in
      if content_ok (default t type) c && typed d then Ok d else Err bad_content
  | None => Err bad_content
  end.
Proof.
  intros (Er & Es)%before_node. unfold pm_setNodeMarkup. rewrite Er. sizes. by rewrite Es.
Qed.

#[export, refine] Instance editor_laws : ProseMirrorLaws := { }.
Proof.
  - intros t. cbn [known_type editor_positions node_spec editor_schema_laws].
    destruct (editor_nodes t); split; (done || by intros [? ?]).
  - intros fs t a l r ms Ht Hl. cbn [resolve editor_positions]. unfold pm_resolve.
    by rewrite in_range_plug by (done || apply between).
  - intros fs t a l s sms r ms k Ht Hk. cbn [resolve editor_positions]. unfold pm_resolve.
    rewrite <- Z.add_assoc, in_range_plug; [done|done| |by apply place_split].
    apply typed_plug_inv in Ht. apply typed_elem in Ht as (_ & Hc & _). eapply leaf_content; [done|]. by destruct l.
  - intros doc pos _ Hp. cbn [resolve editor_positions]. unfold pm_resolve, in_range.
    change (@content_size sizes_only) with (@content_size editor_positions).
    destruct (Z.ltb_spec pos 0), (Z.ltb_spec (content_size doc) pos); try done. lia.
  - done.
  - intros fs t a l r ms ns Ht Hl He Hns Hc. cbn [tr_insert editor_positions]. unfold pm_insert.
    rewrite in_range_plug by (done || apply between). sizes.
    replace (inner fs + csize l - inner fs)%Z with (csize l) by lia.
    apply typed_plug_inv in Ht. apply typed_elem in Ht as (_ & _ & Ht). rewrite forallb_app in Ht. bool_simpl.
    by rewrite split_content_app, Hc.
  - intros fs t a c ms ns Ht Hl Hns Hc. cbn [tr_replace editor_positions]. unfold pm_replace.
    pose proof (in_range_plug fs t a c ms 0 Ht Hl (between [] c)) as E. rewrite Z.add_0_r in E. rewrite E.
    sizes. rewrite !Z.eqb_refl. cbn [andb fragment editor_schema_laws] in *. by rewrite Hc.
  - intros fs ga l r gms a c ms Ht Hne start. cbn [tr_deleteRange editor_positions]. unfold pm_deleteRange.
    set (f := {| f_type := "blockGroup"; f_attrs := ga; f_left := l; f_right := r; f_marks := gms |}).
    pose proof (in_range_plug (f :: fs) "blockContainer" a c ms 0 Ht eq_refl (between [] c)) as E.
    rewrite Z.add_0_r in E. unfold start. change (inner fs + csize l + 1)%Z with (inner (f :: fs)).
    change (plug fs (PElem "blockGroup" ga (l ++ PElem "blockContainer" a c ms :: r) gms))
      with (plug (f :: fs) (PElem "blockContainer" a c ms)). rewrite E.
    sizes. rewrite !Z.eqb_refl. cbn [andb f_left f_right f].
    destruct (l ++ r) eqn:El; [done|]. unfold fill_frame. cbn. by rewrite <- El.
  - intros fs pa content ga gms a c ms pms Ht start. cbn [tr_deleteRange editor_positions]. unfold pm_deleteRange.
    set (f := {| f_type := "blockGroup"; f_attrs := ga; f_left := []; f_right := []; f_marks := gms |}).
    set (g := {| f_type := "blockContainer"; f_attrs := pa; f_left := [content]; f_right := []; f_marks := pms |}).
    pose proof (in_range_plug (f :: g :: fs) "blockContainer" a c ms 0 Ht eq_refl (between [] c)) as E.
    rewrite Z.add_0_r in E. unfold start.
    replace (inner fs + nodeSize content + 2)%Z with (inner (f :: g :: fs)) by (cbn; lia).
    change (plug fs (PElem "blockContainer" pa [content; PElem "blockGroup" ga [PElem "blockContainer" a c ms] gms] pms))
      with (plug (f :: g :: fs) (PElem "blockContainer" a c ms)). rewrite E.
    sizes. by rewrite !Z.eqb_refl.
  - intros fs t a c ms type ds given Ht Hne Hds Ht'. destruct fs as [|f fs]; [done|].
    cbn [tr_setNodeMarkup editor_positions]. rewrite pm_setNodeMarkup_at by done.
    cbn [node_spec editor_schema_laws] in Hds. rewrite Hds.
    pose proof (typed_plug_inv _ _ Ht') as Hn. apply typed_elem in Hn as (_ & Hc & _). rewrite Hc.
    cbn [plug] in Ht'. cbn zeta. by rewrite Ht'.
  - intros fs t a c ms type given Ht Hne Hc. destruct fs as [|f fs]; [done|].
    cbn [tr_setNodeMarkup editor_positions]. rewrite pm_setNodeMarkup_at by done.
    rewrite Hc. by destruct (editor_nodes (default t type)).
  - intros fs t a c ms ds key v Ht Hne Hds. destruct fs as [|f fs]; [done|].
    apply before_node in Ht as (Er & Es). cbn [tr_setNodeAttribute editor_positions]. unfold pm_setNodeAttribute.
    rewrite Er. sizes. rewrite Es. cbn [node_spec editor_schema_laws] in Hds. by rewrite Hds.
Defined.
