(* ===== verification/EditorExamples.v ===== *)
(** * The editor's operations on an example

    A document of the model of positions, the theorems about the operations at it, and
    the corners in which the operations do something else than their names say. *)
From S2P Require Import Prelude.
From S2P Require Import JsString.
From S2P Require Import JsObject.
From S2P Require Import DaemonApi.
From S2P Require Import NodeConvert.
From S2P Require Import BlockNodes.
From S2P Require Import NodeExamples.
From S2P Require Import Positions.
From S2P Require Import EditorBlocks.
From S2P Require Import EditorBlocksFacts.
From S2P Require Import EditorLookup.
From S2P Require Import EditorInsert.
From S2P Require Import EditorUpdate.
From S2P Require Import EditorRemove.
From S2P Require Import PositionsModel.

Definition block_attrs (id : string) : Attrs :=
  [("id", VStr id); ("textAlignment", VStr "left"); ("childrenType", VStr "div")].
Definition paragraph (s : string) : PNode :=
  PElem "paragraph" [("type", VStr "p")] (if truthy s then [PText s []] else []) [].
Definition container (id : string) (content : PNode) (kids : list PNode) : PNode :=
  PElem "blockContainer" (block_attrs id)
    (content :: match kids with [] => [] | _ => [new_group kids] end) [].
Definition document (kids : list PNode) : PNode := PElem "doc" [] [new_group kids] [].
Definition inside (outer : PNode) (l r : list PNode) : Frame :=
  {| f_type := n_type outer; f_attrs := n_attrs outer; f_left := l; f_right := r; f_marks := [] |}.

(** A block with one below it, and an empty one. *)
Definition block_b : PNode := container "b" (paragraph "two") [].
Definition block_a : PNode := container "a" (paragraph "one") [block_b].
Definition block_c : PNode := container "c" (paragraph "") [].
Definition example_doc : PNode := document [block_a; block_c].
Definition frames_a : list Frame := [inside (new_group []) [] [block_c]; inside example_doc [] []].
Definition frames_b : list Frame :=
  [inside (new_group []) [] []; inside block_a [paragraph "one"] []] ++ frames_a.

Example example_typed : typed example_doc = true ∧ plug frames_a block_a = example_doc ∧ plug frames_b block_b = example_doc.
Proof. by vm_compute. Qed.

Definition new_block (id : option string) (text : string) : PartialBlock :=
  PBlock id None None (Some (ContentString text)) None.
Definition ok_doc (r : unit * result PNode) : PNode :=
  match r.2 with Ok d => d | Err _ => PText "" [] end.

(** ** The theorems at the example *)

Ltac types_ok :=
  cbn [block_types_ok fold_right default from_option id];
  repeat match goal with |- _ ∧ _ => split end; first [exact I | apply (bool_decide_unpack _); vm_compute; exact I].

Lemma getBlockInfoFromPos_spec_witness :
  (∃ b, getBlockInfoFromPos example_doc 4 = Ok b ∧ describes b frames_a block_a) ∧
  (∃ b, getBlockInfoFromPos example_doc 12 = Ok b ∧ describes b frames_b block_b) ∧
  getBlockInfoFromPos example_doc 21 = Err no_block.
Proof.
  destruct (getBlockInfoFromPos_spec example_doc) as (_ & Hown & Hend); [by vm_compute|done|].
  split; [|split; [|by apply Hend]]; apply Hown; try (by vm_compute); left; vm_compute; split; discriminate.
Defined.

Lemma blockToNode_typed_witness :
  typed sample_node = true ∧ n_type sample_node = "blockContainer".
Proof.
  apply (blockToNode_typed no_ids sample_block tt tt).
  - types_ok.
  - vm_compute. reflexivity.
Defined.

Lemma insertBlocks_spec_witness :
  insertBlocks no_ids [new_block (Some "d") "three"] "b" After example_doc tt =
    (tt, Ok (document [container "a" (paragraph "one") [block_b; container "d" (paragraph "three") []]; block_c])) ∧
  typed (document [container "a" (paragraph "one") [block_b; container "d" (paragraph "three") []]; block_c]) = true.
Proof.
  apply (insertBlocks_spec no_ids frames_b block_b "b" After [new_block (Some "d") "three"]
           [container "d" (paragraph "three") []] tt tt);
    try (by vm_compute).
  - by apply (bool_decide_unpack _).
  - apply list.Forall_singleton. types_ok.
Defined.

Definition update_b : PartialBlock :=
  PBlock None (Some "heading") (Some [("level", VStr "2")]) None (Some [new_block (Some "d") "three"]).
Lemma updateBlock_spec_witness :
  (updateBlock no_ids "b" update_b example_doc tt).2 =
  Ok (document [container "a" (paragraph "one")
                  [container "b" (PElem "heading" [("level", VStr "2")] [PText "two" []] [])
                     [container "d" (paragraph "three") []]]; block_c]).
Proof.
  refine (let E := updateBlock_spec no_ids frames_b (block_attrs "b") "paragraph" [("type", VStr "p")]
            [PText "two" []] [] [] [] "b" None (Some "heading") (Some [("level", VStr "2")]) None
            (Some [new_block (Some "d") "three"]) (Some [container "d" (paragraph "three") []])
            [PText "two" []] tt tt in _).
  assert (updateBlock no_ids "b" update_b example_doc tt = (tt, Ok (plug frames_b (updated "heading"
            (Some [("level", VStr "2")]) [PText "two" []] (Some [container "d" (paragraph "three") []]) block_b)))) as ->.
  - apply E; try (by vm_compute).
    + by apply (bool_decide_unpack _).
    + by apply (bool_decide_unpack _).
    + split; [apply list.Forall_singleton; types_ok|]. by eexists.
  - by vm_compute.
Defined.

Lemma removeBlocks_spec_witness :
  removeBlocks ["x"; "b"] example_doc =
  (document [container "a" (paragraph "one") []; block_c], Err (not_found ["x"])).
Proof.
  apply (removeBlocks_spec ["x"; "b"] [] (n_attrs (new_group [])) [block_a; block_c] [] []).
  - by vm_compute.
  - by apply (bool_decide_unpack _).
  - done.
Defined.

(** ** Corners *)

(** The new blocks are before the old ones when these are removed: a replacement that
    keeps the id of the old block is removed itself. *)
Example replace_removes_new :
  (replaceBlocks no_ids ["c"] [new_block (Some "c") "new"] example_doc tt).2 = (example_doc, Ok ()).
Proof. by vm_compute. Qed.
Example replace_other_id :
  (replaceBlocks no_ids ["c"] [new_block (Some "d") "new"] example_doc tt).2 =
  (document [block_a; container "d" (paragraph "new") []], Ok ()).
Proof. by vm_compute. Qed.

(** A block below one that is removed is gone, and is reported as not found. *)
Example remove_with_descendant :
  removeBlocks ["a"; "b"] example_doc = (document [block_c], Err (not_found ["b"])).
Proof. by vm_compute. Qed.

(** An empty content is taken for a new block and refused by an update. *)
Example insert_empty_content :
  is_ok (insertBlocks no_ids [new_block (Some "d") ""] "c" After example_doc tt).2 = true.
Proof. by vm_compute. Qed.
Example update_empty_content :
  is_ok (updateBlock no_ids "c" (new_block None "") example_doc tt).2 = false.
Proof. by vm_compute. Qed.

(** An update to a type that the schema does not have keeps the type. *)
Example update_unknown_type :
  updateBlock no_ids "c" (PBlock None (Some "table") None None None) example_doc tt = (tt, Ok example_doc).
Proof. by vm_compute. Qed.

(** The end of the outermost group belongs to no block. *)
Example end_of_group :
  getBlockInfoFromPos example_doc (outer_end example_doc - 1) = Err no_block ∧
  outer_end example_doc = content_size example_doc.
Proof. by vm_compute. Qed.
