(* ===== verification/SuggestMenu.v ===== *)
(** * The slash menu and the link menu

    The plugins that show a menu at the cursor, of packages/editor/src/blocknote/core:
    shared/plugins/suggestion/SuggestionPlugin.ts with the items of
    extensions/SlashMenu/SlashMenuPlugin.ts, and extensions/LinkMenu/LinkMenuPlugin.ts.
    A plugin's state is a function of the editor's transactions; keys dispatch
    transactions.  Where the menu is drawn is left out. *)
From S2P Require Import Prelude.
From S2P Require Import JsString.

(** ** Items of the slash menu *)

Record SlashMenuItem : Type := { si_name : string; si_aliases : option (list string) }.

Definition starts_with (query s : string) : bool := js_startsWith (js_toLowerCase query) (js_toLowerCase s).
Definition item_matches (query : string) (item : SlashMenuItem) : bool :=
  starts_with query (si_name item) ||
  match si_aliases item with
  | Some aliases => negb (Nat.eqb (length (List.filter (starts_with query) aliases)) 0)
  | None => false
  end.
Definition slash_items (all : list SlashMenuItem) (query : string) : list SlashMenuItem :=
  List.filter (item_matches query) all.

(** ** What the plugins see of the editor *)

(** The selection of a state and its [doc.textBetween]. *)
Record EdState : Type := {
  ed_from : Z;
  ed_to : Z;
  ed_text : Z → Z → string;
}.

(** A new index, which may be past either end of the [n] items. *)
Definition wrap_index (n : nat) (i : Z) : Z :=
  if (i <? 0)%Z then Z.of_nat n - 1
  else if (Z.of_nat n <=? i)%Z then 0 else i.
(** [items[i]] *)
Definition at_index {A} (l : list A) (i : Z) : option A := if (i <? 0)%Z then None else l !! Z.to_nat i.

Module Suggest.
Section menu.
Context {Item : Type} (items : string → list Item).

Record PluginState : Type := {
  active : bool;
  triggerCharacter : option string;
  queryStartPos : option Z;
  ps_items : list Item;
  keyboardHoveredItemIndex : option Z;
  notFoundCount : Z;
  decorationId : option string;
}.
Definition getDefaultPluginState : PluginState := {|
  active := false; triggerCharacter := None; queryStartPos := None; ps_items := [];
  keyboardHoveredItemIndex := None; notFoundCount := 0; decorationId := None;
|}.

(** What the plugin puts in a transaction, and the other metadata it looks at. *)
Record Meta : Type := {
  m_activate : bool;
  m_triggerCharacter : option string;
  m_deactivate : bool;
  m_selectedItemIndexChanged : option Z;
}.
Record Transaction : Type := {
  t_orderedListIndexing : bool;
  t_meta : option Meta;
  t_focus : bool;
  t_blur : bool;
  t_pointer : bool;
}.
Definition meta_is (f : Meta → bool) (t : Transaction) : bool :=
  match t_meta t with Some m => f m | None => false end.

(** [state.apply]; [id] is the decoration id that is drawn at random. *)
Definition apply (id : string) (t : Transaction) (prev : PluginState) (oldState newState : EdState) : PluginState :=
  if t_orderedListIndexing t then prev
  else if meta_is m_activate t then
    {| active := true;
       triggerCharacter := Some (default "" (js_or (m ← t_meta t; m_triggerCharacter m) (Some "")));
       queryStartPos := Some (ed_from newState);
       ps_items := items "";
       keyboardHoveredItemIndex := Some 0%Z;
       notFoundCount := 0;
       decorationId := Some id |}
  else if negb (active prev) then prev
  else
    let start := default 0%Z (queryStartPos prev) in
    let found := items (ed_text newState start (ed_from newState)) in
    let count := match found with
                 | [] => Z.max 0 (notFoundCount prev + (ed_from newState - ed_from oldState))
                 | _ => 0%Z
                 end in
    if negb (Z.eqb (ed_from newState) (ed_to newState)) || meta_is m_deactivate t
       || t_focus t || t_blur t || t_pointer t
       || (ed_from newState <? start)%Z || (3 <? count)%Z
    then getDefaultPluginState
    else
      {| active := active prev; triggerCharacter := triggerCharacter prev;
         queryStartPos := queryStartPos prev; ps_items := found;
         keyboardHoveredItemIndex :=
           match m ← t_meta t; m_selectedItemIndexChanged m with
           | Some i => Some (wrap_index (length (ps_items prev)) i)
           | None => if negb (Z.eqb (ed_from oldState) (ed_from newState)) then Some 0%Z
                     else keyboardHoveredItemIndex prev
           end;
         notFoundCount := count; decorationId := decorationId prev |}.

(** *** Keys *)

(** What a key does, in order. *)
Inductive Effect : Type :=
| InsertTrigger (text : string) (meta : Meta)
| SetMeta (meta : Meta)
| DeleteRange (from to : Z)
| SelectItem (item : option Item).

Definition no_meta : Meta :=
  {| m_activate := false; m_triggerCharacter := None; m_deactivate := false; m_selectedItemIndexChanged := None |}.
Definition activate (trigger : string) : Meta :=
  {| m_activate := true; m_triggerCharacter := Some trigger; m_deactivate := false; m_selectedItemIndexChanged := None |}.
Definition deactivate : Meta :=
  {| m_activate := false; m_triggerCharacter := None; m_deactivate := true; m_selectedItemIndexChanged := None |}.
Definition select_index (i : Z) : Meta :=
  {| m_activate := false; m_triggerCharacter := None; m_deactivate := false; m_selectedItemIndexChanged := Some i |}.

(** Closing the menu, deleting the query with the trigger before it, and the item. *)
Definition select_effects (st : PluginState) (s : EdState) (item : option Item) : list Effect :=
  [SetMeta deactivate;
   DeleteRange (default 0%Z (queryStartPos st) - Z.of_nat (len (default "" (triggerCharacter st)))) (ed_from s);
   SelectItem item].

(** The keys that are handled; for the others [handleKeyDown] returns [false]. *)
Definition handleKeyDown (defaultTriggerCharacter : string) (st : PluginState) (s : EdState) (key : string) :
    option (list Effect) :=
  let hovered := default 0%Z (keyboardHoveredItemIndex st) in
  if String.eqb key defaultTriggerCharacter && negb (active st) then
    Some [InsertTrigger defaultTriggerCharacter (activate defaultTriggerCharacter)]
  else if negb (active st) then None
  else if String.eqb key "ArrowUp" then Some [SetMeta (select_index (hovered - 1))]
  else if String.eqb key "ArrowDown" then Some [SetMeta (select_index (hovered + 1))]
  else if String.eqb key "Enter" then Some (select_effects st s (at_index (ps_items st) hovered))
  else if String.eqb key "Escape" then Some [SetMeta deactivate]
  else None.

(** A click on an item of the menu. *)
Definition itemCallback (pluginState : PluginState) (s : EdState) (item : Item) : list Effect :=
  select_effects pluginState s (Some item).

(** *** The view *)

Record MenuState : Type := { show : bool; filteredItems : list Item; hoveredIndex : option Z }.
Record View : Type := { suggestionsMenuState : option MenuState; v_pluginState : PluginState }.
Definition new_view : View :=
  {| suggestionsMenuState := None; v_pluginState := getDefaultPluginState |}.

(** [update]; the listener is given the new menu state, if there is one. *)
Definition update (isEditable : bool) (prev next : PluginState) (v : View) : result (View * option MenuState) :=
  let started := negb (active prev) && active next in
  let stopped := active prev && negb (active next) in
  let changed := active prev && active next in
  if negb started && negb changed && negb stopped then Ok (v, None)
  else
    let st := if stopped then prev else next in
    if stopped || negb isEditable then
      match suggestionsMenuState v with
      | Some m =>
          let m := {| show := false; filteredItems := filteredItems m; hoveredIndex := hoveredIndex m |} in
          Ok ({| suggestionsMenuState := Some m; v_pluginState := st |}, Some m)
      | None => Err "TypeError"
      end
    else
      let m := {| show := true; filteredItems := ps_items st; hoveredIndex := keyboardHoveredItemIndex st |} in
      Ok ({| suggestionsMenuState := Some m; v_pluginState := st |}, Some m).
End menu.
End Suggest.

Module Link.
Section menu.
Context {Item : Type}.

Record PluginState : Type := {
  active : bool;
  ref : string;
  ps_items : list Item;
  keyboardHoveredItemIndex : option Z;
  decorationId : option string;
}.
Definition getDefaultPluginState : PluginState := {|
  active := false; ref := ""; ps_items := []; keyboardHoveredItemIndex := None; decorationId := None;
|}.
Record Meta : Type := {
  m_activate : bool;
  m_ref : option string;
  m_items : option (list Item);
  m_deactivate : bool;
  m_selectedItemIndexChanged : option Z;
}.
Record Transaction : Type := {
  t_orderedListIndexing : bool;
  t_meta : option Meta;
  t_focus : bool;
  t_blur : bool;
  t_pointer : bool;
}.
Definition meta_is (f : Meta → bool) (t : Transaction) : bool :=
  match t_meta t with Some m => f m | None => false end.

(** [state.apply].  Whoever opens the menu gives its items and the reference. *)
Definition apply (id : string) (t : Transaction) (prev : PluginState) (oldState newState : EdState) : PluginState :=
  if t_orderedListIndexing t then prev
  else
    let items := m ← t_meta t; m_items m in
    let r := m ← t_meta t; m_ref m in
    if meta_is m_activate t then
      {| active := true; ref := default "" r; ps_items := default [] items;
         keyboardHoveredItemIndex := Some 0%Z; decorationId := Some id |}
    else if negb (active prev) then prev
    else if negb (Z.eqb (ed_from newState) (ed_to newState)) || meta_is m_deactivate t
            || t_focus t || t_blur t || t_pointer t
    then getDefaultPluginState
    else
      {| active := active prev; ref := default (ref prev) (or_null r);
         ps_items := default (ps_items prev) items;
         keyboardHoveredItemIndex :=
           match m ← t_meta t; m_selectedItemIndexChanged m with
           | Some i => Some (wrap_index (length (ps_items prev)) i)
           | None => if negb (Z.eqb (ed_from oldState) (ed_from newState)) then Some 0%Z
                     else keyboardHoveredItemIndex prev
           end;
         decorationId := decorationId prev |}.

Inductive Effect : Type :=
| SetMeta (meta : Meta)
| Execute (item : Item) (ref : string)
| Throw (msg : string).

Definition deactivate : Meta :=
  {| m_activate := false; m_ref := None; m_items := None; m_deactivate := true; m_selectedItemIndexChanged := None |}.
Definition select_index (i : Z) : Meta :=
  {| m_activate := false; m_ref := None; m_items := None; m_deactivate := false;
     m_selectedItemIndexChanged := Some i |}.

(** While the menu is open every key is handled. *)
Definition handleKeyDown (st : PluginState) (key : string) : option (list Effect) :=
  let hovered := default 0%Z (keyboardHoveredItemIndex st) in
  if negb (active st) then None
  else Some
    ((if String.eqb key "ArrowUp" then [SetMeta (select_index (hovered - 1))] else []) ++
     (if String.eqb key "ArrowDown" then [SetMeta (select_index (hovered + 1))] else []) ++
     (if String.eqb key "Enter" then
        [SetMeta deactivate;
         match at_index (ps_items st) hovered with
         | Some item => Execute item (ref st)
         | None => Throw "TypeError"
         end] else []) ++
     (if String.eqb key "Escape" then [SetMeta deactivate] else [])).
End menu.
End Link.

(** * Facts about the menus

    The state of the slash menu over the transactions of an editor: what holds while it
    is open, what the keys choose, when it closes by itself, and that its view shows what
    the state says. *)

Import Suggest.

Lemma at_index_in {A} (l : list A) i : (0 ≤ i < Z.of_nat (length l))%Z → ∃ x, at_index l i = Some x ∧ x ∈ l.
Proof.
  intros Hi. unfold at_index. destruct (Z.ltb_spec i 0); [lia|].
  destruct (lookup_lt_is_Some_2 l (Z.to_nat i)) as [x Hx]; [lia|].
  exists x. split; [done|]. by eapply list_elem_of_lookup_2.
Qed.

(** A wrapped index is that of an item; with none it is at most one off. *)
Lemma wrap_index_bounds n i :
  n ≠ 0 → (0 ≤ wrap_index n i < Z.of_nat n)%Z.
Proof. intros Hn. unfold wrap_index. destruct (Z.ltb_spec i 0), (Z.leb_spec (Z.of_nat n) i); lia. Qed.
Lemma wrap_index_none i : (-1 ≤ wrap_index 0 i ≤ 0)%Z.
Proof. unfold wrap_index. destruct (Z.ltb_spec i 0); [lia|]. destruct (Z.leb_spec (Z.of_nat 0) i); lia. Qed.
(** One step past an end is the other end. *)
Lemma wrap_index_mod n i :
  (-1 ≤ i ≤ Z.of_nat n)%Z → n ≠ 0 → wrap_index n i = (i mod Z.of_nat n)%Z.
Proof.
  intros Hi Hn. unfold wrap_index. destruct (Z.ltb_spec i 0).
  - assert (i = -1)%Z as -> by lia. apply (Z.mod_unique_pos _ _ (-1)); lia.
  - destruct (Z.leb_spec (Z.of_nat n) i); [|by rewrite Z.mod_small by lia].
    assert (i = Z.of_nat n) as -> by lia. rewrite Z.mod_same; lia.
Qed.

Section menu.
Context {Item : Type} (items : string → list Item).
Abbreviation state := (@PluginState Item).
Implicit Types (st : state) (s : EdState) (t : Transaction).

(** ** What the plugin relies on

    Nothing is between a position and itself.  A transaction that leaves the cursor
    where it is does not change the text before it; those that move the keyboard's
    choice only do that. *)
Definition same_before (s s' : EdState) : Prop :=
  ed_from s' = ed_from s ∧ ∀ p, ed_text s' p (ed_from s') = ed_text s p (ed_from s).
Definition calm t s s' : Prop :=
  (∀ p, ed_text s' p p = "") ∧
  (ed_from s' = ed_from s → same_before s s') ∧
  (is_Some (m ← t_meta t; m_selectedItemIndexChanged m) → same_before s s') ∧
  (t_orderedListIndexing t = true → same_before s s').

(** The states over the transactions of an editor. *)
Inductive reach : state → EdState → Prop :=
| reach_init s : reach getDefaultPluginState s
| reach_step st s s' did t : reach st s → calm t s s' → reach (apply items did t st s s') s'.

(** ** The invariant *)

Definition hover_ok (l : list Item) (i : Z) : Prop :=
  match l with
  | [] => (-1 ≤ i ≤ 0)%Z
  | _ => (0 ≤ i < Z.of_nat (length l))%Z
  end.
Record open_ok st s : Prop := {
  start_ok : ∃ q, queryStartPos st = Some q ∧ (q ≤ ed_from s)%Z ∧
             ps_items st = items (ed_text s q (ed_from s));
  trigger_ok : is_Some (triggerCharacter st);
  hovered_ok : ∃ i, keyboardHoveredItemIndex st = Some i ∧ hover_ok (ps_items st) i;
  count_ok : (0 ≤ notFoundCount st ≤ 3)%Z ∧ (ps_items st ≠ [] → notFoundCount st = 0%Z);
}.
Definition menu_ok st s : Prop :=
  if active st then open_ok st s else st = getDefaultPluginState.

Lemma hover_ok_wrap (l l' : list Item) i :
  l' = l → hover_ok l' (wrap_index (length l) i).
Proof.
  intros ->. unfold hover_ok. destruct l as [|x l]; [apply wrap_index_none|].
  by apply wrap_index_bounds.
Qed.
Lemma hover_ok_0 l : hover_ok l 0.
Proof. destruct l; cbn; lia. Qed.

Lemma keep_state st s s' : same_before s s' → menu_ok st s → menu_ok st s'.
Proof.
  intros [Hf Ht] Hok. unfold menu_ok in *. destruct (active st); [|done].
  destruct Hok as [(q & Eq & Hq & Ei) ? ? ?]. split; [|done..].
  exists q. rewrite Ht, Hf. done.
Qed.

Lemma apply_open did t st s s' :
  active st = true → menu_ok st s → calm t s s' → t_orderedListIndexing t = false → meta_is m_activate t = false →
  menu_ok (apply items did t st s s') s'.
Proof.
  intros Ha Hok (_ & Hsame & Hidx & _) Ht Hm. unfold menu_ok in Hok. rewrite Ha in Hok.
  destruct Hok as [(q & Eq & Hq & Ei) Htr (i & Eh & Hi) [Hc Hc0]].
  unfold apply. rewrite Ht, Hm, Ha, Eq. cbn [negb default from_option]. unfold id.
  case_match eqn:Eb; [done|]. rewrite !orb_false_iff in Eb.
  destruct Eb as (((((_ & _) & _) & _) & Hlt) & H3). apply Z.ltb_ge in Hlt, H3.
  assert (ed_from s' = ed_from s → ps_items st = items (ed_text s' q (ed_from s'))) as Hit.
  { intros E. rewrite (proj2 (Hsame E)). done. }
  unfold menu_ok. cbn [active]. split; cbn [queryStartPos ps_items triggerCharacter keyboardHoveredItemIndex notFoundCount].
  - by exists q.
  - done.
  - destruct (m ← t_meta t; m_selectedItemIndexChanged m) as [j|] eqn:Ej.
    + eexists. split; [done|]. apply hover_ok_wrap. symmetry. apply Hit. by apply Hidx.
    + destruct (Z.eqb_spec (ed_from s) (ed_from s')) as [E|_]; cbn [negb].
      * exists i. rewrite <- Hit by done. done.
      * exists 0%Z. split; [done|apply hover_ok_0].
  - destruct (items (ed_text s' q (ed_from s'))); [|done]. split; [lia|done].
Qed.

Lemma apply_ok did t st s s' : menu_ok st s → calm t s s' → menu_ok (apply items did t st s s') s'.
Proof.
  intros Hok Hc. destruct (t_orderedListIndexing t) eqn:Et.
  { unfold apply. rewrite Et. eapply keep_state; [|done]. by apply Hc. }
  destruct (meta_is m_activate t) eqn:Em.
  { unfold apply. rewrite Et, Em. unfold menu_ok. cbn [active].
    split; cbn [queryStartPos ps_items triggerCharacter keyboardHoveredItemIndex notFoundCount].
    - eexists. split; [done|]. split; [lia|]. by rewrite (proj1 Hc).
    - done.
    - exists 0%Z. split; [done|apply hover_ok_0].
    - done. }
  destruct (active st) eqn:Ea; [by apply apply_open|].
  unfold apply. rewrite Et, Em, Ea. cbn [negb]. unfold menu_ok in *. by rewrite Ea in Hok |- *.
Qed.

Lemma at_index_nil (i : Z) : at_index (@nil Item) i = None.
Proof. unfold at_index. by destruct (i <? 0)%Z. Qed.
Lemma hover_choice (l : list Item) i :
  hover_ok l i → match at_index l i with Some x => x ∈ l | None => l = [] end.
Proof.
  destruct l as [|y l]; [intros _; by rewrite at_index_nil|]. intros Hi.
  by destruct (at_index_in (y :: l) i Hi) as (x & -> & Hx).
Qed.
(** What Enter does in an open menu: it is closed, the query is deleted, and [choice] is
    run; [None] is the [undefined] that [onSelectItem] throws at. *)
Definition enter_runs st s (choice : option Item) : Prop :=
  ∀ trigger, handleKeyDown trigger st s "Enter" = Some (select_effects st s choice).

(** C25. In every state that the transactions of an editor lead to, the closed menu is
    the default state.  The open one shows the items for the text between its start and
    the cursor, which is not before it, and has been without items for at most three
    typed characters.  If it has items, Enter runs one of them; if it has none, which is
    reachable, its choice is 0 or -1 and Enter finds no item, deletes the query all the
    same and throws. *)
Theorem menu_invariant st s :
  reach st s →
  menu_ok st s ∧
  (active st = true → ∃ choice, enter_runs st s choice ∧
     match choice with Some x => x ∈ ps_items st | None => ps_items st = [] end).
Proof.
  intros Hr. assert (menu_ok st s) as Hok.
  { induction Hr as [s|st s s' did t _ IH Hc]; [done|]. by apply apply_ok. }
  split; [done|]. intros Ha. unfold menu_ok in Hok. rewrite Ha in Hok.
  destruct (hovered_ok _ _ Hok) as (i & Ei & Hi). exists (at_index (ps_items st) i).
  split; [|by apply hover_choice]. intros trigger. unfold handleKeyDown.
  rewrite Ha, Ei, andb_false_r. done.
Qed.

(** ** Keys *)

(** The state after a key that only dispatches metadata. *)
Definition plain (m : option Meta) : Transaction :=
  {| t_orderedListIndexing := false; t_meta := m; t_focus := false; t_blur := false; t_pointer := false |}.
Fixpoint run_meta (st : state) (s : EdState) (l : list (@Effect Item)) : state :=
  match l with
  | SetMeta m :: l' => run_meta (apply items "" (plain (Some m)) st s s) s l'
  | _ => st
  end.
Definition press (trigger : string) (s : EdState) (st : state) (key : string) : state :=
  match handleKeyDown trigger st s key with
  | Some l => run_meta st s l
  | None => st
  end.

Definition arrow (down : bool) : string := if down then "ArrowDown" else "ArrowUp".
Definition moved (down : bool) (i : Z) : Z := (i + if down then 1 else -1)%Z.

Lemma arrow_effect down trigger st s i :
  trigger ≠ arrow down → active st = true → keyboardHoveredItemIndex st = Some i →
  handleKeyDown trigger st s (arrow down) = Some [SetMeta (select_index (moved down i))].
Proof.
  intros Ht Ha Hh. unfold handleKeyDown. rewrite Ha, Hh. rewrite andb_false_r. by destruct down.
Qed.

(** Open, with a plain cursor after its start and items for the text between. *)
Record showing st s (i : Z) : Prop := {
  sh_active : active st = true;
  sh_cursor : ed_from s = ed_to s;
  sh_start : ∃ q, queryStartPos st = Some q ∧ (q ≤ ed_from s)%Z ∧ ps_items st = items (ed_text s q (ed_from s));
  sh_items : ps_items st ≠ [];
  sh_hover : keyboardHoveredItemIndex st = Some i ∧ (0 ≤ i < Z.of_nat (length (ps_items st)))%Z;
}.

Lemma arrow_step trigger down st s i :
  trigger ≠ arrow down → showing st s i →
  let st' := press trigger s st (arrow down) in
  ps_items st' = ps_items st ∧ showing st' s (moved down i mod Z.of_nat (length (ps_items st)))%Z.
Proof.
  intros Ht [Ha Hc (q & Eq & Hq & Ei) Hne [Hh Hi]] st'. subst st'.
  unfold press. erewrite arrow_effect by done. cbn [run_meta]. unfold apply. rewrite Ha, Eq.
  cbn [t_orderedListIndexing t_meta plain t_focus t_blur t_pointer meta_is select_index m_activate m_deactivate negb
       default from_option]. unfold id. rewrite <- Ei.
  rewrite (proj2 (Z.eqb_eq (ed_from s) (ed_to s)) Hc). rewrite (proj2 (Z.ltb_ge (ed_from s) q)) by lia.
  assert (length (ps_items st) ≠ 0) as Hlen by (by intros E%nil_length_inv).
  assert (wrap_index (length (ps_items st)) (moved down i) = moved down i mod Z.of_nat (length (ps_items st)))%Z as Hw.
  { apply wrap_index_mod; [unfold moved; destruct down; lia|done]. }
  destruct (ps_items st) as [|x l] eqn:El; [done|]. cbn [orb negb Z.ltb Z.compare].
  split; [done|]. split; cbn [active queryStartPos ps_items keyboardHoveredItemIndex]; try done.
  - by exists q.
  - cbn [mbind option_bind m_selectedItemIndexChanged select_index]. rewrite Hw. split; [done|]. apply Z.mod_pos_bound. cbn. lia.

Qed.

(** Arrow keys go round the items: after any sequence of them the choice is the
    first one moved by the arrows down less the arrows up, modulo the number of items,
    and Enter closes the menu, deletes the query with its trigger, and runs that
    item. *)
Theorem arrows_then_enter trigger st s i keys :
  trigger ≠ "ArrowUp" → trigger ≠ "ArrowDown" → showing st s i →
  let st' := foldl (press trigger s) st (arrow <$> keys) in
  let choice := (foldl (λ j d, moved d j) i keys mod Z.of_nat (length (ps_items st)))%Z in
  ∃ q x, queryStartPos st' = Some q ∧ ps_items st !! Z.to_nat choice = Some x ∧
    handleKeyDown trigger st' s "Enter" =
      Some [SetMeta deactivate; DeleteRange (q - Z.of_nat (len (default "" (triggerCharacter st')))) (ed_from s);
            SelectItem (Some x)] ∧
    apply items "" (plain (Some deactivate)) st' s s = getDefaultPluginState.
Proof.
  intros Hu Hd Hs st' choice.
  assert (ps_items st' = ps_items st ∧ showing st' s choice) as [Eit Hs'].
  { subst st' choice. pose proof (sh_hover _ _ _ Hs) as [_ Hi]. revert st i Hs Hi.
    induction keys as [|k keys IH]; intros st i Hs Hi; cbn [fmap list_fmap foldl].
    - split; [done|]. by rewrite Z.mod_small.
    - destruct (arrow_step trigger k st s i) as [E Hn]; [by destruct k|done|].
      destruct (IH _ _ Hn) as [E' Hn'].
      { rewrite E. apply Z.mod_pos_bound. pose proof (sh_items _ _ _ Hs). destruct (ps_items st); [done|cbn; lia]. }
      rewrite E' , E. split; [done|]. rewrite E in Hn'. clear -Hn' Hs.
      assert (foldl (λ j d, moved d j) (moved k i mod Z.of_nat (length (ps_items st))) keys
                mod Z.of_nat (length (ps_items st)) =
              foldl (λ j d, moved d j) (moved k i) keys mod Z.of_nat (length (ps_items st)))%Z as <-; [|done].
      assert (∀ j, foldl (λ j d, moved d j) j keys = j + foldl (λ j d, moved d j) 0 keys)%Z as Hsum.
      { clear. induction keys as [|k keys IH]; intros j; cbn [foldl]; [lia|].
        rewrite (IH (moved k j)), (IH (moved k 0)). unfold moved. lia. }
      rewrite (Hsum (moved k i mod _)%Z), (Hsum (moved k i)). by rewrite Zplus_mod_idemp_l. }
  destruct Hs' as [Ha Hc (q & Eq & Hq & Ei) Hne [Hh Hi]].
  destruct (at_index_in _ _ Hi) as (x & Ex & _). exists q, x. split; [done|].
  split; [|split].
  - rewrite <- Eit. unfold at_index in Ex. by destruct (Z.ltb_spec choice 0); [lia|].
  - unfold handleKeyDown, select_effects. rewrite Ha, Hh, Eq. cbn [default from_option negb]. unfold id.
    rewrite Ex, andb_false_r. done.
  - unfold apply. rewrite Ha. cbn. by rewrite !orb_true_r.
Qed.

(** ** Closing *)

(** A character is typed and nothing else happens; no item matches. *)
Definition missed (q : Z) (s s' : EdState) : Prop :=
  ed_from s' = (ed_from s + 1)%Z ∧ ed_to s' = ed_from s' ∧ items (ed_text s' q (ed_from s')) = [].
Fixpoint types_on (st : state) (s : EdState) (l : list EdState) : state :=
  match l with
  | [] => st
  | s' :: l' => types_on (apply items "" (plain None) st s s') s' l'
  end.
Fixpoint misses (q : Z) (s : EdState) (l : list EdState) : Prop :=
  match l with
  | [] => True
  | s' :: l' => missed q s s' ∧ misses q s' l'
  end.

Lemma default_stays s l : types_on getDefaultPluginState s l = getDefaultPluginState.
Proof. revert s. induction l as [|s' l IH]; intros s; [done|]. apply IH. Qed.

(** The open menu counts the characters that are typed without an item to match and
    closes with the fourth; it is closed by then whatever else is typed. *)
Theorem menu_closes st s q l :
  active st = true → queryStartPos st = Some q → (q ≤ ed_from s)%Z → (0 ≤ notFoundCount st ≤ 3)%Z → misses q s l →
  let st' := types_on st s l in
  if (notFoundCount st + Z.of_nat (length l) <=? 3)%Z
  then active st' = true ∧ notFoundCount st' = (notFoundCount st + Z.of_nat (length l))%Z
  else st' = getDefaultPluginState.
Proof.
  intros Ha Hq Hle Hc Hl. revert st s Ha Hq Hle Hc Hl.
  induction l as [|s' l IH]; intros st s Ha Hq Hle Hc Hl; cbn [types_on length].
  { destruct (Z.leb_spec (notFoundCount st + Z.of_nat 0) 3); [|lia]. split; [done|lia]. }
  destruct Hl as [(Hf & Ht & Hn) Hl].
  assert (apply items "" (plain None) st s s' =
          if (3 <? notFoundCount st + 1)%Z then getDefaultPluginState
          else {| active := true; triggerCharacter := triggerCharacter st; queryStartPos := Some q; ps_items := [];
                  keyboardHoveredItemIndex := Some 0%Z; notFoundCount := notFoundCount st + 1;
                  decorationId := decorationId st |}) as E.
  { unfold apply. cbn [t_orderedListIndexing plain meta_is t_meta t_focus t_blur t_pointer]. rewrite Ha, Hq.
    cbn [negb default from_option]. unfold id. rewrite Hn, Ht, Z.eqb_refl, (proj2 (Z.ltb_ge (ed_from s') q)) by lia.
    rewrite (proj2 (Z.eqb_neq (ed_from s) (ed_from s'))) by lia. cbn [negb orb mbind option_bind].
    replace (Z.max 0 (notFoundCount st + (ed_from s' - ed_from s))) with (notFoundCount st + 1)%Z by lia. done. }
  rewrite E. destruct (Z.ltb_spec 3 (notFoundCount st + 1)).
  - rewrite default_stays. destruct (Z.leb_spec (notFoundCount st + Z.of_nat (S (length l))) 3); [lia|done].
  - match goal with |- context [types_on ?x] => specialize (IH x s' eq_refl eq_refl) end.
    cbn [notFoundCount] in IH. specialize (IH ltac:(lia) ltac:(lia) Hl).
    replace (notFoundCount st + Z.of_nat (S (length l)))%Z with (notFoundCount st + 1 + Z.of_nat (length l))%Z by lia.
    exact IH.
Qed.

(** ** The view *)

(** What the view shows of a state. *)
Definition in_sync (v : @View Item) st : Prop :=
  if active st then
    suggestionsMenuState v =
      Some {| show := true; filteredItems := ps_items st; hoveredIndex := keyboardHoveredItemIndex st |}
  else match suggestionsMenuState v with Some m => show m = false | None => True end.

Fixpoint updates (v : @View Item) st (l : list state) : result (@View Item) :=
  match l with
  | [] => Ok v
  | st' :: l' => let* r := update true st st' v in updates r.1 st' l'
  end.

(** In an editor that can be edited, the view never fails and shows the menu with
    the items and the choice of the plugin's state exactly while that is open. *)
Theorem view_follows v st l :
  in_sync v st → ∃ v', updates v st l = Ok v' ∧ in_sync v' (default st (last l)).
Proof.
  revert v st. induction l as [|st' l IH]; intros v st Hs; cbn [updates]; [by exists v|].
  assert (∃ r, update true st st' v = Ok r ∧ in_sync r.1 st') as (r & -> & Hr).
  { unfold update, in_sync in *. destruct (active st) eqn:Ea, (active st') eqn:Ea'; cbn [negb andb orb].
    - by eexists.
    - rewrite Hs. by eexists.
    - by eexists.
    - by eexists. }
  cbn [rbind]. destruct (IH _ _ Hr) as (v' & E & Hv'). exists v'. split; [done|].
  rewrite last_cons. by destruct (last l).
Qed.
End menu.

(** ** An example *)

Definition menu_items : list SlashMenuItem :=
  [{| si_name := "Heading"; si_aliases := Some ["h"; "title"] |}; {| si_name := "Paragraph"; si_aliases := None |};
   {| si_name := "Image"; si_aliases := Some ["img"] |}].
Definition typed_line (s : string) (cursor : Z) : EdState :=
  {| ed_from := cursor; ed_to := cursor; ed_text := λ a b, js_slice s a b |}.

Example slash_query : si_name <$> slash_items menu_items "T" = ["Heading"].
Proof. by vm_compute. Qed.

Definition open_at (q : Z) : PluginState :=
  apply (slash_items menu_items) "id" (plain (Some (activate "/"))) getDefaultPluginState
    (typed_line "" 0) (typed_line "/" q).

(** After an arrow up, and after a letter that nothing matches. *)
Definition moved_up : PluginState :=
  apply (slash_items menu_items) "id" (plain (Some (select_index (-1)))) (open_at 1) (typed_line "/" 1) (typed_line "/" 1).
Definition unmatched : PluginState :=
  apply (slash_items menu_items) "id" (plain None) moved_up (typed_line "/" 1) (typed_line "/x" 2).
Lemma typed_calm t a b i j :
  t_orderedListIndexing t = false → (i = j → a = b) →
  (i ≠ j → (m ← t_meta t; m_selectedItemIndexChanged m) = None) → calm t (typed_line a i) (typed_line b j).
Proof.
  intros Ho Hsame Hmeta. split; [|split; [|split]].
  - intros p. cbn [ed_text typed_line]. unfold js_slice. cbn zeta. by rewrite Nat.sub_diag.
  - cbn. intros ->. by rewrite Hsame.
  - intros [x Hx]. destruct (Z.eq_dec i j) as [->|Hij]; [by rewrite Hsame|]. by rewrite Hmeta in Hx.
  - by rewrite Ho.
Qed.
Lemma reach_open : reach (slash_items menu_items) (open_at 1) (typed_line "/" 1).
Proof. apply (reach_step _ _ (typed_line "" 0)); [apply reach_init|]. by apply typed_calm. Qed.
Lemma reach_up : reach (slash_items menu_items) moved_up (typed_line "/" 1).
Proof. apply (reach_step _ _ (typed_line "/" 1)); [apply reach_open|]. by apply typed_calm. Qed.
Lemma reach_unmatched : reach (slash_items menu_items) unmatched (typed_line "/x" 2).
Proof. apply (reach_step _ _ (typed_line "/" 1)); [apply reach_up|]. by apply typed_calm. Qed.

(** With the choice on the last of three items, and with none. *)
Lemma menu_invariant_witness :
  (∃ x, enter_runs moved_up (typed_line "/" 1) (Some x) ∧ x ∈ menu_items) ∧
  menu_ok (slash_items menu_items) unmatched (typed_line "/x" 2) ∧
  enter_runs unmatched (typed_line "/x" 2) None.
Proof.
  destruct (menu_invariant (slash_items menu_items) _ _ reach_up) as [_ Hup].
  destruct (menu_invariant (slash_items menu_items) _ _ reach_unmatched) as [Hok Hun].
  split; [|split].
  - destruct (Hup eq_refl) as ([x|] & Hx & Hin); [by exists x|]. vm_compute in Hin. discriminate Hin.
  - exact Hok.
  - destruct (Hun eq_refl) as ([x|] & Hx & Hin); [|exact Hx]. vm_compute in Hin. by apply elem_of_nil in Hin.
Defined.
Lemma arrows_then_enter_witness :
  (∃ x, menu_items !! 2 = Some x ∧
     handleKeyDown "/" (foldl (press (slash_items menu_items) "/" (typed_line "/" 1)) (open_at 1) ["ArrowUp"])
       (typed_line "/" 1) "Enter" = Some [SetMeta deactivate; DeleteRange 0 1; SelectItem (Some x)]).
Proof.
  destruct (arrows_then_enter (slash_items menu_items) "/" (open_at 1) (typed_line "/" 1) 0 [false])
    as (q & x & Eq & Ex & E & _).
  - discriminate.
  - discriminate.
  - split; [done|done| |by vm_compute|by vm_compute].
    exists 1%Z. split; [done|]. split; [done|by vm_compute].
  - vm_compute in Eq. injection Eq as <-. exists x. split; [|exact E]. vm_compute in Ex |- *. exact Ex.
Defined.
Lemma menu_closes_witness :
  types_on (slash_items menu_items) (open_at 1) (typed_line "/" 1)
    [typed_line "/x" 2; typed_line "/xy" 3; typed_line "/xyz" 4; typed_line "/xyzw" 5] = getDefaultPluginState.
Proof.
  apply (menu_closes (slash_items menu_items) (open_at 1) (typed_line "/" 1) 1
           [typed_line "/x" 2; typed_line "/xy" 3; typed_line "/xyz" 4; typed_line "/xyzw" 5]).
  - done.
  - done.
  - done.
  - done.
  - by vm_compute.
Defined.
Lemma view_follows_witness :
  ∃ v, updates new_view getDefaultPluginState [open_at 1] = Ok v ∧ in_sync v (open_at 1).
Proof. apply (view_follows new_view getDefaultPluginState [open_at 1]). exact I. Defined.

(** Enter with no item to choose runs [undefined], which [onSelectItem] throws at. *)
Definition no_match : PluginState :=
  types_on (slash_items menu_items) (open_at 1) (typed_line "/" 1) [typed_line "/x" 2].
Example enter_without_items :
  handleKeyDown "/" no_match (typed_line "/x" 2) "Enter" =
  Some [SetMeta deactivate; DeleteRange 0 2; SelectItem None].
Proof. by vm_compute. Qed.
(** An editor that cannot be edited fails when a menu is opened. *)
Example open_in_read_only : update false getDefaultPluginState (open_at 1) new_view = Err "TypeError".
Proof. by vm_compute. Qed.
(** The link menu takes every key while it is open, those that write text as well. *)
Example link_menu_takes_all {Item} (st : @Link.PluginState Item) :
  Link.active st = true → Link.handleKeyDown st "a" = Some [].
Proof. intros E. unfold Link.handleKeyDown. by rewrite E. Qed.
