(* ===== verification/RangeSelection.v ===== *)
(** * Selecting a range of a published block

    packages/shared/src/range-selection.tsx: the machine that follows the browser's
    selection, and the hook that feeds it.  A node of the page is the list of it and the
    elements around it, the innermost first. *)
From S2P Require Import Prelude.
From S2P Require Import JsString.

(** ** The page and its selection *)

(** [el.id] and [Number(el.dataset.rangeOffset)], where an element has them. *)
Record Element : Type := { el_id : string; el_rangeOffset : option Z }.
Abbreviation Node := (list Element).

Fixpoint getParentElId (el : Node) : option string :=
  match el with
  | [] => None
  | e :: parents => if truthy (el_id e) then Some (el_id e) else getParentElId parents
  end.
Fixpoint getRangeOffset (el : Node) : Z :=
  match el with
  | [] => 0
  | e :: parents => match el_rangeOffset e with Some n => n | None => getRangeOffset parents end
  end.

Record Selection : Type := {
  rangeCount : nat;
  anchorNode : Node;
  anchorOffset : Z;
  focusNode : Node;
  focusOffset : Z;
}.

(** ** The machine *)

Record Context : Type := {
  selection : option Selection;
  blockId : option string;
  rangeStart : option Z;
  rangeEnd : option Z;
  mouseDown : bool;
}.
Definition defaultContext : Context :=
  {| selection := None; blockId := Some ""; rangeStart := None; rangeEnd := None; mouseDown := false |}.

Definition anchor_of (sel : Selection) : Z := (getRangeOffset (anchorNode sel) + anchorOffset sel)%Z.
Definition focus_of (sel : Selection) : Z := (getRangeOffset (focusNode sel) + focusOffset sel)%Z.

(** [setRange] with what [window.getSelection()] returns. *)
Definition setRange (sel : option Selection) (c : Context) : Context :=
  match sel with
  | Some s =>
      if Nat.ltb 0 (rangeCount s) then
        if negb (bool_decide (getParentElId (focusNode s) = getParentElId (anchorNode s))) then defaultContext
        else if Z.eqb (anchor_of s) (focus_of s) then defaultContext
        else {| selection := Some s; blockId := getParentElId (focusNode s);
                rangeStart := Some (Z.min (anchor_of s) (focus_of s));
                rangeEnd := Some (Z.max (anchor_of s) (focus_of s)); mouseDown := false |}
      else c
  | None => c
  end.
Definition setMouse (down : bool) (c : Context) : Context :=
  {| selection := selection c; blockId := blockId c; rangeStart := rangeStart c; rangeEnd := rangeEnd c;
     mouseDown := down |}.
Definition clearContext : Context := defaultContext.

Inductive State : Type := Idle | Selecting | Selected | Commenting.
(** The events, and the end of the delay of [selecting]. *)
Inductive Event : Type :=
| SELECT | CREATE_COMMENT | COMMENT_CANCEL | COMMENT_SUBMIT | MOUSEDOWN | MOUSEUP | AFTER_300.

(** Where the machine is, if the delay runs, and its context. *)
Record Machine : Type := { state : State; timer : bool; context : Context }.
Definition initial_machine : Machine := {| state := Idle; timer := false; context := defaultContext |}.

Definition enter_selecting (c : Context) : Machine := {| state := Selecting; timer := true; context := c |}.
Definition enter_selected (sel : option Selection) (c : Context) : Machine :=
  {| state := Selected; timer := false; context := setRange sel c |}.
Definition goto_idle (c : Context) : Machine := {| state := Idle; timer := false; context := c |}.
Definition with_mouse (down : bool) (m : Machine) : Machine :=
  {| state := state m; timer := timer m; context := setMouse down (context m) |}.

(** A state that has a transition for an event takes it before those of the root.  The
    [action] of [selected] on [SELECT] is none of the machine's keys and does nothing. *)
Definition step (sel : option Selection) (e : Event) (m : Machine) : Machine :=
  match state m, e with
  | Idle, SELECT => enter_selecting (context m)
  | Selecting, AFTER_300 =>
      if negb (timer m) then m
      else if mouseDown (context m) then {| state := Selecting; timer := false; context := context m |}
      else enter_selected sel (context m)
  | Selecting, SELECT => enter_selecting (context m)
  | Selecting, MOUSEUP => enter_selected sel (context m)
  | Selected, SELECT => enter_selecting (context m)
  | Selected, CREATE_COMMENT => goto_idle clearContext
  | Commenting, COMMENT_SUBMIT => goto_idle (context m)
  | Commenting, COMMENT_CANCEL => enter_selected sel (context m)
  | _, MOUSEDOWN => with_mouse true m
  | _, MOUSEUP => with_mouse false m
  | _, _ => m
  end.

(** ** The hook's listeners

    A listener is an event's name with the identity of the function; [handleMouseDown]
    makes a new function each time. *)
Abbreviation Listener := (string * nat)%type.
Definition mouse_events : list string := ["mousedown"; "touchstart"; "mouseup"; "touchend"].
Definition fresh_listeners (n : nat) : list Listener := zip mouse_events (seq n 4).
(** [addEventListener] of the effect; [n] is the next identity. *)
Definition mount (n : nat) (document : list Listener) : nat * list Listener :=
  (n + 5, document ++ ("selectionchange", n) :: fresh_listeners (n + 1)).
(** Its cleanup, for the identity of [handleSelectionChange]. *)
Definition unmount (handleSelectionChange n : nat) (document : list Listener) : nat * list Listener :=
  (n + 4, List.filter (λ l, negb (bool_decide (l ∈ ("selectionchange", handleSelectionChange) :: fresh_listeners n)))
            document).

(** ** What holds of the machine *)

(** The context describes a range of one block, or nothing. *)
Definition proper (c : Context) : Prop :=
  match selection c with
  | None => blockId c = Some "" ∧ rangeStart c = None ∧ rangeEnd c = None
  | Some s => ∃ a b, rangeStart c = Some a ∧ rangeEnd c = Some b ∧ (a < b)%Z ∧
      (a = anchor_of s ∧ b = focus_of s ∨ a = focus_of s ∧ b = anchor_of s) ∧
      getParentElId (anchorNode s) = blockId c ∧ getParentElId (focusNode s) = blockId c
  end.
Definition machine_ok (m : Machine) : Prop :=
  proper (context m) ∧ state m ≠ Commenting ∧ (timer m = true → state m = Selecting).

Lemma setRange_proper sel c : proper c → proper (setRange sel c).
Proof.
  intros Hc. unfold setRange. destruct sel as [s|]; [|done]. case_match; [|done].
  case_bool_decide as Hb; [|done]. cbn [negb]. destruct (Z.eqb_spec (anchor_of s) (focus_of s)); [done|].
  unfold proper. cbn [selection]. eexists _, _. split_and!; try done; lia.
Qed.
Lemma setMouse_proper down c : proper (setMouse down c) ↔ proper c.
Proof. done. Qed.

Inductive runs : Machine → Machine → Prop :=
| runs_refl m : runs m m
| runs_step sel e m m' : runs m m' → runs m (step sel e m').

(** Whatever events and selections come in whatever order, the context is empty or
    describes a nonempty range whose two ends are in one block, the delay only runs
    while selecting, and the state for comments is never entered. *)
Theorem range_invariant m : runs initial_machine m → machine_ok m.
Proof.
  intros Hr. remember initial_machine as m0 eqn:E0. induction Hr as [m|sel e m m' _ IH]; subst.
  { split_and!; done. }
  destruct (IH eq_refl) as (Hp & Hc & Ht). destruct m' as [st t c].
  destruct st, e; cbn in *; try done; try (split_and!; cbn; (done || by apply setRange_proper)).
  destruct t; [|done]. cbn [negb]. destruct (mouseDown c); split_and!; (done || by apply setRange_proper).
Qed.

(** When the selection comes to rest while the mouse is up, the machine settles:
    after the delay it is in [selected] with the range of the selection, or with none
    if that is empty or not in one block. *)
Theorem selection_settles m s :
  mouseDown (context m) = false → state m ≠ Commenting → 0 < rangeCount s →
  let m' := step (Some s) AFTER_300 (step (Some s) SELECT m) in
  state m' = Selected ∧
  context m' =
    (if bool_decide (getParentElId (focusNode s) = getParentElId (anchorNode s) ∧ anchor_of s ≠ focus_of s)
     then {| selection := Some s; blockId := getParentElId (focusNode s);
             rangeStart := Some (Z.min (anchor_of s) (focus_of s));
             rangeEnd := Some (Z.max (anchor_of s) (focus_of s)); mouseDown := false |}
     else defaultContext).
Proof.
  intros Hm Hs Hc m'. subst m'. destruct m as [st t c].
  assert (step (Some s) SELECT {| state := st; timer := t; context := c |} = enter_selecting c) as ->
    by by destruct st.
  cbn in Hm |- *. rewrite Hm. cbn [state enter_selected context]. split; [done|].
  unfold setRange. rewrite (proj2 (Nat.ltb_lt _ _)) by lia.
  destruct (decide (getParentElId (focusNode s) = getParentElId (anchorNode s))) as [E|E].
  - rewrite bool_decide_eq_true_2 by done. cbn [negb]. destruct (Z.eqb_spec (anchor_of s) (focus_of s)).
    + rewrite bool_decide_eq_false_2; [done|]. by intros [_ ?].
    + by rewrite bool_decide_eq_true_2.
  - rewrite !bool_decide_eq_false_2; [done| |done]. by intros [? _].
Qed.

(** ** An example *)

Definition example_selection (a b : Z) : Selection :=
  {| rangeCount := 1;
     anchorNode := [{| el_id := ""; el_rangeOffset := Some 10%Z |}; {| el_id := "b1"; el_rangeOffset := None |}];
     anchorOffset := a; focusNode := [{| el_id := "b1"; el_rangeOffset := None |}]; focusOffset := b |}.

Lemma range_invariant_witness :
  machine_ok (step (Some (example_selection 2 4)) MOUSEUP (step None SELECT (step None MOUSEDOWN initial_machine))).
Proof. apply range_invariant. repeat constructor. Defined.
Lemma selection_settles_witness :
  context (step (Some (example_selection 2 4)) AFTER_300 (step (Some (example_selection 2 4)) SELECT initial_machine)) =
  {| selection := Some (example_selection 2 4); blockId := Some "b1"; rangeStart := Some 4%Z;
     rangeEnd := Some 12%Z; mouseDown := false |}.
Proof. apply (selection_settles initial_machine (example_selection 2 4)); [done|done|]. cbn. lia. Defined.

(** A new selection keeps the context of the one before until it is done. *)
Example stale_while_selecting :
  let m := step (Some (example_selection 2 4)) AFTER_300 (step (Some (example_selection 2 4)) SELECT initial_machine) in
  state (step None SELECT m) = Selecting ∧ rangeStart (context (step None SELECT m)) = Some 4%Z.
Proof. by vm_compute. Qed.
(** The button is released over a page without a selection: it stays down for the
    machine, and a selection that the keyboard makes is not noticed. *)
Example mouse_stays_down :
  let m := step None MOUSEUP (step None SELECT (step None MOUSEDOWN initial_machine)) in
  mouseDown (context m) = true ∧
  state (step (Some (example_selection 2 4)) AFTER_300 (step (Some (example_selection 2 4)) SELECT m)) = Selecting.
Proof. by vm_compute. Qed.
(** Four of the five listeners stay when the hook is unmounted. *)
Example listeners_stay :
  length ((unmount 0 (mount 0 []).1 (mount 0 []).2).2) = 4.
Proof. by vm_compute. Qed.
