(* ===== verification/Keyboard.v ===== *)
(** * Keyboard bindings

    packages/editor/src/keyboard-helpers.ts: names of keys with modifiers, the handler
    for a set of bindings, and the stack of handlers.  The name of an event's key and
    the one its code has on a plain keyboard are those of w3c-keyname. *)
From S2P Require Import Prelude.
From S2P Require Import JsString.
From S2P Require Import JsObject.

(** ** Names *)

(** [name.split(/-(?!$)/)]: at every dash but one at the end. *)
Fixpoint split_dash (s : string) : list string :=
  match s with
  | EmptyString => [""]
  | String c s' =>
      if Ascii.eqb c "-" && truthy s' then "" :: split_dash s' else cons_head c (split_dash s')
  end.

Record Modifiers : Type := { altKey : bool; ctrlKey : bool; metaKey : bool; shiftKey : bool }.
Definition no_modifiers : Modifiers := {| altKey := false; ctrlKey := false; metaKey := false; shiftKey := false |}.

Definition one_of (l : list string) (s : string) : bool := bool_decide (js_toLowerCase s ∈ l).
(** One part of a name before the key. *)
Definition add_modifier (mac : bool) (m : Modifiers) (part : string) : result Modifiers :=
  let alt := {| altKey := true; ctrlKey := ctrlKey m; metaKey := metaKey m; shiftKey := shiftKey m |} in
  let ctrl := {| altKey := altKey m; ctrlKey := true; metaKey := metaKey m; shiftKey := shiftKey m |} in
  let meta := {| altKey := altKey m; ctrlKey := ctrlKey m; metaKey := true; shiftKey := shiftKey m |} in
  let shift := {| altKey := altKey m; ctrlKey := ctrlKey m; metaKey := metaKey m; shiftKey := true |} in
  if one_of ["cmd"; "meta"; "m"] part then Ok meta
  else if one_of ["a"; "alt"] part then Ok alt
  else if one_of ["c"; "ctrl"; "control"] part then Ok ctrl
  else if one_of ["s"; "shift"] part then Ok shift
  else if one_of ["mod"] part then Ok (if mac then meta else ctrl)
  else Err ("Unrecognized modifier name: " +:+ part).

Definition prefixed (b : bool) (p name : string) : string := if b then p +:+ name else name.
Definition with_modifiers (m : Modifiers) (name : string) : string :=
  prefixed (shiftKey m) "Shift-" (prefixed (metaKey m) "Meta-" (prefixed (ctrlKey m) "Ctrl-"
    (prefixed (altKey m) "Alt-" name))).

Definition normalizeKeyName (mac : bool) (name : string) : result string :=
  let parts := split_dash name in
  let key := default "" (last parts) in
  let key := if String.eqb key "Space" then " " else key in
  let* m := fold_result (add_modifier mac) no_modifiers (removelast parts) in
  Ok (with_modifiers m key).

Definition normalize {T} (mac : bool) (map : obj T) : result (obj T) :=
  fold_result (λ copy e, let* k := normalizeKeyName mac e.1 in Ok (oset copy k e.2)) [] map.

(** ** Events *)

Record KeyboardEvent : Type := {
  ev_name : string;               (* keyName(event) *)
  ev_base : option string;        (* base[event.keyCode] *)
  ev_modifiers : Modifiers;
}.
Definition without_shift (m : Modifiers) : Modifiers :=
  {| altKey := altKey m; ctrlKey := ctrlKey m; metaKey := metaKey m; shiftKey := false |}.
Definition modifiers (name : string) (event : KeyboardEvent) (shift : bool) : string :=
  with_modifiers (if shift then ev_modifiers event else without_shift (ev_modifiers event)) name.

(** A handler may change what it likes and says if it took the event. *)
Abbreviation Handler S := (KeyboardEvent → S → S * bool).

Section handling.
Context {S : Type}.

Definition try_binding (map : obj (Handler S)) (name : string) (event : KeyboardEvent) (s : S) : S * bool :=
  match oget map name with
  | Some h => h event s
  | None => (s, false)
  end.

Definition first_code (s : string) : N := match s with String c _ => char_code c | EmptyString => 0%N end.
Definition is_char (name : string) : bool := Nat.eqb (len name) 1 && negb (String.eqb name " ").

(** The handler for normalised bindings. *)
Definition handle_keydown (map : obj (Handler S)) (event : KeyboardEvent) (s : S) : S * bool :=
  let name := ev_name event in
  let m := ev_modifiers event in
  let isChar := is_char name in
  let r := try_binding map (modifiers name event (negb isChar)) event s in
  if r.2 then (r.1, true)
  else
    let s := r.1 in
    let baseName := default "" (ev_base event) in
    if isChar && (shiftKey m || altKey m || metaKey m || (127 <? first_code name)%N)
       && truthy baseName && negb (String.eqb baseName name)
    then try_binding map (modifiers baseName event true) event s
    else if isChar && shiftKey m
    then try_binding map (modifiers name event true) event s
    else (s, false).
Definition keydownHandler (mac : bool) (bindings : obj (Handler S)) : result (KeyboardEvent → S → S * bool) :=
  let* map := normalize mac bindings in
  Ok (handle_keydown map).

(** ** The stack of handlers, the newest last, with their identities *)

Abbreviation Stack := (list (nat * Handler S)).
Definition stack_add (stack : Stack) (h : nat * Handler S) : Stack := stack ++ [h].
(** The first entry of a handler is removed. *)
Fixpoint stack_remove (stack : Stack) (i : nat) : Stack :=
  match stack with
  | [] => []
  | h :: stack' => if Nat.eqb h.1 i then stack' else h :: stack_remove stack' i
  end.
(** From the newest to the oldest, to the first that takes the event. *)
Fixpoint offer (l : Stack) (event : KeyboardEvent) (s : S) : S * bool :=
  match l with
  | [] => (s, false)
  | h :: l' => let r := h.2 event s in if r.2 then (r.1, true) else offer l' event r.1
  end.
Definition stack_handleKeyDown (stack : Stack) (event : KeyboardEvent) (s : S) : S * bool :=
  offer (reverse stack) event s.
End handling.

(** ** Names under any spelling *)

Inductive Modifier : Type := Alt | Ctrl | Meta | Shift.
Definition spellings (m : Modifier) : list string :=
  match m with
  | Alt => ["a"; "alt"]
  | Ctrl => ["c"; "ctrl"; "control"]
  | Meta => ["cmd"; "meta"; "m"]
  | Shift => ["s"; "shift"]
  end.
(** A part that stands for a modifier; [mod] depends on the platform. *)
Definition spells (mac : bool) (part : string) (m : Modifier) : Prop :=
  js_toLowerCase part ∈ spellings m ∨ js_toLowerCase part = "mod" ∧ m = if mac then Meta else Ctrl.
Definition pressed (ms : list Modifier) : Modifiers :=
  {| altKey := existsb (λ m, match m with Alt => true | _ => false end) ms;
     ctrlKey := existsb (λ m, match m with Ctrl => true | _ => false end) ms;
     metaKey := existsb (λ m, match m with Meta => true | _ => false end) ms;
     shiftKey := existsb (λ m, match m with Shift => true | _ => false end) ms |}.
(** The name of a key: not empty, without a dash, or a dash itself. *)
Definition key_ok (key : string) : Prop := key = "-" ∨ key ≠ "" ∧ lacks "-" key = true.
Definition spelled (parts : list string) (key : string) : string :=
  js_join "-" (parts ++ [key]).

Lemma split_dash_lacks s : lacks "-" s = true → split_dash s = [s].
Proof.
  induction s as [|c s IH]; [done|]. rewrite lacks_cons, andb_true_iff. intros [Hc Hs].
  cbn [split_dash]. rewrite Ascii.eqb_sym. apply negb_true_iff in Hc. rewrite Hc. cbn [andb].
  by rewrite IH.
Qed.
Lemma split_dash_part p s : lacks "-" p = true → s ≠ "" → split_dash (p +:+ String "-" s) = p :: split_dash s.
Proof.
  intros Hp Hs. induction p as [|c p IH].
  - change ("" +:+ String "-" s) with (String "-" s). cbn [split_dash].
    assert (truthy s = true) as -> by by apply truthy_spec. done.
  - rewrite lacks_cons, andb_true_iff in Hp. destruct Hp as [Hc Hp].
    change (String c p +:+ String "-" s) with (String c (p +:+ String "-" s)). cbn [split_dash].
    rewrite Ascii.eqb_sym. apply negb_true_iff in Hc. rewrite Hc. cbn [andb]. by rewrite IH.
Qed.
Lemma spelled_ne parts key : key ≠ "" → spelled parts key ≠ "".
Proof.
  intros Hk. unfold spelled. destruct parts as [|p parts]; [done|]. cbn [app].
  destruct (parts ++ [key]) as [|q r] eqn:E; [by destruct parts|]. rewrite js_join_cons. by destruct p.
Qed.
Lemma split_spelled parts key :
  Forall (λ p, lacks "-" p = true) parts → key_ok key → split_dash (spelled parts key) = parts ++ [key].
Proof.
  intros Hp Hk. assert (key ≠ "") as Hne by (by destruct Hk as [->|[? _]]).
  induction Hp as [|p parts Hp _ IH].
  - destruct Hk as [->|[_ Hk]]; [done|]. by apply split_dash_lacks.
  - unfold spelled in *. cbn [app]. destruct (parts ++ [key]) as [|q r] eqn:E; [by destruct parts|].
    rewrite js_join_cons. change ("-" +:+ js_join "-" (q :: r)) with (String "-" (js_join "-" (q :: r))).
    rewrite split_dash_part by (done || rewrite <- E; by apply spelled_ne). by rewrite IH.
Qed.

(** A modifier is added whatever was there. *)
Definition press (m : Modifiers) (k : Modifier) : Modifiers :=
  match k with
  | Alt => {| altKey := true; ctrlKey := ctrlKey m; metaKey := metaKey m; shiftKey := shiftKey m |}
  | Ctrl => {| altKey := altKey m; ctrlKey := true; metaKey := metaKey m; shiftKey := shiftKey m |}
  | Meta => {| altKey := altKey m; ctrlKey := ctrlKey m; metaKey := true; shiftKey := shiftKey m |}
  | Shift => {| altKey := altKey m; ctrlKey := ctrlKey m; metaKey := metaKey m; shiftKey := true |}
  end.
Lemma add_spelled mac m part k : spells mac part k → add_modifier mac m part = Ok (press m k).
Proof.
  unfold add_modifier, one_of, spells. generalize (js_toLowerCase part) as p. intros p [Hp|[-> ->]].
  - destruct k; cbn [spellings] in Hp; repeat (apply elem_of_cons in Hp as [->|Hp]; [by vm_compute|]);
      by apply elem_of_nil in Hp.
  - by destruct mac; vm_compute.
Qed.
Lemma lower_dash c : Ascii.eqb "-" c = true → lower_char c = "-"%char.
Proof. intros <-%Ascii.eqb_eq. done. Qed.
Lemma lower_lacks s : lacks "-" (js_toLowerCase s) = true → lacks "-" s = true.
Proof.
  unfold js_toLowerCase. induction s as [|c s IH]; [done|]. cbn [str_map]. rewrite !lacks_cons, !andb_true_iff.
  intros [Hc Hs]. split; [|by apply IH]. destruct (Ascii.eqb "-" c) eqn:E; [|done]. by rewrite lower_dash in Hc.
Qed.
Lemma spells_lacks mac part k : spells mac part k → lacks "-" part = true.
Proof.
  intros Hs. apply lower_lacks. revert Hs. unfold spells. generalize (js_toLowerCase part) as p. intros p [Hp|[-> _]]; [|done].
  destruct k; cbn [spellings] in Hp; repeat (apply elem_of_cons in Hp as [->|Hp]; [by vm_compute|]);
    by apply elem_of_nil in Hp.
Qed.
Lemma press_all m ks :
  let n := foldl press m ks in
  n = {| altKey := altKey m || altKey (pressed ks); ctrlKey := ctrlKey m || ctrlKey (pressed ks);
         metaKey := metaKey m || metaKey (pressed ks); shiftKey := shiftKey m || shiftKey (pressed ks) |}.
Proof.
  cbn zeta. revert m. induction ks as [|k ks IH]; intros [a c e s]; cbn [foldl].
  - cbn. by rewrite !orb_false_r.
  - rewrite IH. destruct k; cbn; rewrite ?orb_true_r; done.
Qed.

Lemma normalize_spelled mac parts ks key :
  Forall2 (spells mac) parts ks → key_ok key → key ≠ "Space" →
  normalizeKeyName mac (spelled parts key) = Ok (with_modifiers (pressed ks) key).
Proof.
  intros Hs Hk Hsp. unfold normalizeKeyName.
  rewrite split_spelled by (done || by eapply Forall2_Forall_l; [done|]; apply Forall_true; intros; by eapply spells_lacks).
  rewrite last_snoc, removelast_last. cbn [default from_option]. unfold id.
  rewrite (proj2 (String.eqb_neq _ _) Hsp).
  assert (∀ m, fold_result (add_modifier mac) m parts = Ok (foldl press m ks)) as Hf.
  { clear -Hs. induction Hs as [|p k parts ks Hp _ IH]; intros m; [done|]. cbn [fold_result foldl].
    rewrite (add_spelled mac m p k Hp). apply IH. }
  rewrite Hf. cbn [rbind]. rewrite press_all. done.
Qed.

(** A binding is run for the events of its key with exactly its modifiers, in
    whatever order and spelling the binding names them, if no later binding has the same
    normalised name. *)
Theorem binding_is_found {S} mac parts ks key (before after : obj (Handler S)) h handler event s :
  Forall2 (spells mac) parts ks → key_ok key → key ≠ "Space" →
  keydownHandler mac (before ++ (spelled parts key, h) :: after) = Ok handler →
  Forall (λ e, normalizeKeyName mac e.1 ≠ normalizeKeyName mac (spelled parts key)) after →
  ev_name event = key → is_char key = false → ev_modifiers event = pressed ks →
  handler event s = h event s.
Proof.
  intros Hs Hk Hsp Hh Ha <- Hc Hm. unfold keydownHandler in Hh. inv_result.
  unfold normalize in E. rewrite fold_result_app in E. inv_result. cbn [fold_result fst snd] in E.
  rewrite (normalize_spelled mac parts ks _ Hs Hk Hsp) in *. cbn [rbind] in E.
  assert (oget a (with_modifiers (pressed ks) (ev_name event)) = Some h) as Hg.
  { clear -E Ha. match type of E with fold_result _ ?o _ = _ => assert (oget o (with_modifiers (pressed ks) (ev_name event)) = Some h) as Ho
      by apply oget_oset_eq; revert E Ho; generalize o end.
    intros o E Ho. revert o E Ho. induction Ha as [|e after He _ IH]; intros o E Ho; [by injection E as <-|].
    cbn [fold_result] in E. inv_result. eapply IH; [exact E|].
    rewrite oget_oset_ne; [done|]. intros ->. by apply He. }
  unfold handle_keydown. rewrite Hc. cbn [negb andb]. unfold try_binding, modifiers. rewrite Hm, Hg.
  destruct (h event s) as [s' []]; done.
Qed.

(** The newest handler of the stack is offered the event first, and removing it
    leaves the stack as it was. *)
Theorem stack_is_lifo {S} (stack : list (nat * Handler S)) i h event s :
  i ∉ stack.*1 →
  stack_remove (stack_add stack (i, h)) i = stack ∧
  stack_handleKeyDown (stack_add stack (i, h)) event s =
    (if (h event s).2 then ((h event s).1, true) else stack_handleKeyDown stack event (h event s).1).
Proof.
  intros Hi. unfold stack_add, stack_handleKeyDown. split.
  - induction stack as [|g stack IH]; cbn; [by rewrite Nat.eqb_refl|].
    cbn in Hi. apply not_elem_of_cons in Hi as [Hg Hi]. destruct (Nat.eqb_spec g.1 i); [by subst|].
    by rewrite IH.
  - by rewrite reverse_app.
Qed.

(** ** An example *)

Definition counting : Handler nat := λ _ n, (S n, true).
Definition example_event : KeyboardEvent :=
  {| ev_name := "Enter"; ev_base := None; ev_modifiers := pressed [Shift; Ctrl] |}.

Lemma binding_is_found_witness :
  (handle_keydown [("Ctrl-Enter", λ _ n, (n, true)); ("Shift-Ctrl-Enter", counting)] example_event 0) = (1, true).
Proof.
  apply (binding_is_found false ["s"; "Mod"] [Shift; Ctrl] "Enter" [("c-Enter", λ _ n, (n, true))] [] counting
           (handle_keydown [("Ctrl-Enter", λ _ n, (n, true)); ("Shift-Ctrl-Enter", counting)]) example_event 0).
  - apply list.Forall2_cons_2; [|apply list.Forall2_cons_2; [by right|constructor]].
    left. by apply (bool_decide_unpack _).
  - right. split; [discriminate|reflexivity].
  - discriminate.
  - reflexivity.
  - constructor.
  - reflexivity.
  - reflexivity.
  - reflexivity.
Defined.
Lemma stack_is_lifo_witness :
  stack_handleKeyDown [(0, λ _ n, (n, false)); (1, counting)] example_event 0 = (1, true).
Proof.
  apply (stack_is_lifo [(0, λ _ n, (n, false))] 1 counting example_event 0).
  apply (bool_decide_unpack _). vm_compute. exact I.
Defined.
