(* ===== verification/Autocomplete.v ===== *)
(** * Mentions while typing

    packages/editor/src/autocomplete.tsx: the plugin that follows the text after its
    trigger character, and the popup in which the arrow keys choose among the groups of
    suggestions. *)
From S2P Require Import Prelude.
From S2P Require Import JsString.
From S2P Require Import JsObject.

(** ** The plugin *)

Record Range : Type := { r_from : Z; r_to : Z }.
Record Active : Type := { a_range : Range; a_text : string }.
(** The state, [None] for [{active: false}]; where the popup is drawn is left out. *)
Abbreviation PluginState := (option Active).

Inductive Action : Type := Open (pos : Z) | Close.
(** A transaction: the plugin's metadata, [tr.mapping.map] and [tr.doc.textBetween]. *)
Record Tr : Type := {
  tr_meta : option Action;
  tr_map : Z → Z;
  tr_textBetween : Z → Z → string;
}.

Definition apply (triggerCharacter : string) (tr : Tr) (state : PluginState) : PluginState :=
  match tr_meta tr, state with
  | Some (Open pos), _ => Some {| a_range := {| r_from := pos; r_to := pos |}; a_text := "" |}
  | Some Close, _ => None
  | None, Some a =>
      let range := a_range a in
      let from := if Z.eqb (r_from range) (r_to range) then r_from range else tr_map tr (r_from range) in
      let to := tr_map tr (r_to range) in
      let text := tr_textBetween tr from to in
      if js_startsWith triggerCharacter text
      then Some {| a_range := {| r_from := from; r_to := to |}; a_text := js_slice_from text 1 |}
      else None
  | None, None => None
  end.

(** The collapsed cursor when the trigger is typed: its place in the text block, and
    the characters on both sides as [textBetween] has them. *)
Record Cursor : Type := {
  c_pos : Z;
  c_start : Z;
  c_end : Z;
  c_before : string;
  c_after : string;
}.
(** [s.match(/\s/)] *)
Fixpoint has_space (s : string) : bool :=
  match s with
  | EmptyString => false
  | String c s' => is_space c || has_space s'
  end.
Definition may_open (c : Cursor) : bool :=
  let isStart := Z.eqb (c_pos c) (c_start c) in
  let isEnd := Z.eqb (c_pos c) (c_end c) in
  (isStart || has_space (c_before c)) && (isEnd || has_space (c_after c)).

(** [handleKeyDown]: if the popup takes the key, and what is dispatched.  The trigger is
    also written, since the key is not taken. *)
Definition handleKeyDown (triggerCharacter key : string) (state : PluginState) (popup_takes_it : bool)
    (cursor : option Cursor) : bool * option Action :=
  match state with
  | Some _ => if popup_takes_it then (true, None) else
      if String.eqb key triggerCharacter then
        match cursor with
        | Some c => (false, if may_open c then Some (Open (c_pos c)) else None)
        | None => (false, None)
        end
      else (false, None)
  | None =>
      if String.eqb key triggerCharacter then
        match cursor with
        | Some c => (false, if may_open c then Some (Open (c_pos c)) else None)
        | None => (false, None)
        end
      else (false, None)
  end.
Definition handleClick (state : PluginState) : option Action :=
  match state with Some _ => Some Close | None => None end.

(** ** Suggestions *)

Record Item : Type := { it_title : string; it_subtitle : string; it_value : string }.
Record Recent : Type := { rc_title : string; rc_url : string }.

Fixpoint js_includes (p s : string) : bool :=
  js_startsWith p s || match s with EmptyString => false | String _ s' => js_includes p s' end.
Definition getSuggestions (options : list Recent) (queryText : string) : list Item :=
  (λ r, {| it_title := rc_title r; it_subtitle := "Recent"; it_value := rc_url r |}) <$>
  List.filter (λ r, js_includes (js_toLowerCase queryText) (js_toLowerCase (rc_title r))) options.
Definition isOptionsEmpty (o : obj (list Item)) : bool :=
  forallb (λ e, Nat.eqb (length e.2) 0) o.
Definition strangle (n : Z) (minMax : Z * Z) : Z := Z.max minMax.1 (Z.min n minMax.2).

Definition groupsOrder : list string := ["Recents"; "Accounts"; "Documents"; "Groups"].
Definition has_items (suggestions : obj (list Item)) (g : string) : bool :=
  match oget suggestions g with Some l => negb (Nat.eqb (length l) 0) | None => false end.
Definition groups (suggestions : obj (list Item)) : list string :=
  List.filter (has_items suggestions) groupsOrder.

(** The suggestions for a text, the number of texts in a row without any, and if the
    choice goes back to the first recent one.  After six the popup is closed. *)
Definition results_for (mentionOptions : obj (list Item)) (recents : list Recent) (text : string) :
    obj (list Item) :=
  oset mentionOptions "Recents" (getSuggestions recents text).
Definition count_misses (misses : nat) (results : obj (list Item)) : nat * bool :=
  if isOptionsEmpty results then (S misses, false) else (0, true).
Definition closes (misses : nat) : bool := Nat.ltb 5 misses.

(** ** The choice *)

Abbreviation Index := (string * Z)%type.
Definition indexOf (l : list string) (g : string) : Z :=
  match list_find (λ x, x = g) l with Some (i, _) => Z.of_nat i | None => -1 end.
(** [groups[i]], and [suggestions[groups[i]].length], which throws where there are none. *)
Definition group_at (gs : list string) (i : Z) : option string :=
  if (i <? 0)%Z then None else gs !! Z.to_nat i.
Definition items_of (suggestions : obj (list Item)) (g : option string) : result (list Item) :=
  match g ≫= oget suggestions with Some l => Ok l | None => Err "TypeError" end.
Definition len_of (l : list Item) : Z := Z.of_nat (length l).
(** [setIndex([g, i])], where [g] is a group's name if there is one. *)
Definition set_index (g : option string) (i : Z) : result Index :=
  match g with Some g => Ok (g, i) | None => Err "TypeError" end.

Definition ArrowUp (suggestions : obj (list Item)) (index : Index) : result Index :=
  let gs := groups suggestions in
  let n := Z.of_nat (length gs) in
  if Z.eqb index.2 0 then
    if Z.eqb (indexOf gs index.1) 0 then
      match group_at gs (n - 1) with
      | Some last => Ok (last, (Z.of_nat (len last) - 1)%Z)
      | None => Err "TypeError"
      end
    else
      let groupIdx := strangle (indexOf gs index.1 - 1) (0, Z.of_nat (length groupsOrder) - 1)%Z in
      let* l := items_of suggestions (group_at gs groupIdx) in
      set_index (group_at gs groupIdx) (len_of l - 1)
  else Ok (index.1, (index.2 - 1)%Z).

Definition ArrowDown (suggestions : obj (list Item)) (index : Index) : result Index :=
  let gs := groups suggestions in
  let n := Z.of_nat (length gs) in
  let next :=
    let* l := items_of suggestions (Some index.1) in
    if (index.2 <? len_of l - 1)%Z then Ok (index.1, (index.2 + 1)%Z)
    else
      let groupIdx := strangle (indexOf gs index.1 + 1) (0, n - 1)%Z in
      Ok (default "" (group_at gs groupIdx), 0%Z) in
  if Z.eqb (indexOf gs index.1) (n - 1) then
    let* l := items_of suggestions (Some index.1) in
    if Z.eqb index.2 (len_of l - 1) then Ok (default "" (group_at gs 0), 0%Z) else next
  else next.

(** The item that is made into a mention, before the popup closes. *)
Definition Enter (suggestions : obj (list Item)) (index : Index) : result (option Item) :=
  let gs := groups suggestions in
  if (indexOf gs index.1 <? Z.of_nat (length gs))%Z then
    let* l := items_of suggestions (Some index.1) in
    if (index.2 <? len_of l)%Z then Ok (if (index.2 <? 0)%Z then None else l !! Z.to_nat index.2) else Ok None
  else Ok None.

(** ** The choice as a place in the list of all items *)

Definition all_items (suggestions : obj (list Item)) : list Item :=
  concat ((λ g, default [] (oget suggestions g)) <$> groups suggestions).
(** The index of the [k]th item. *)
Fixpoint place_in (suggestions : obj (list Item)) (gs : list string) (k : nat) : option Index :=
  match gs with
  | [] => None
  | g :: gs' =>
      let n := length (default [] (oget suggestions g)) in
      if Nat.ltb k n then Some (g, Z.of_nat k) else place_in suggestions gs' (k - n)
  end.
Definition place (suggestions : obj (list Item)) (k : nat) : option Index :=
  place_in suggestions (groups suggestions) k.

Section choice.
Variable suggestions : obj (list Item).
Abbreviation gs := (groups suggestions).
Abbreviation count g := (length (default [] (oget suggestions g))).

Lemma groups_have g : g ∈ gs → ∃ l, oget suggestions g = Some l ∧ l ≠ [].
Proof.
  unfold groups. rewrite list_elem_of_In, filter_In. intros [_ H]. unfold has_items in H.
  destruct (oget suggestions g) as [l|]; [|done]. exists l. split; [done|]. by destruct l.
Qed.
Lemma groups_nodup : NoDup gs.
Proof.
  unfold groups, groupsOrder. cbn [List.filter].
  repeat (case_match; cbn); apply (bool_decide_unpack _); vm_compute; done.
Qed.
Lemma groups_short : length gs ≤ length groupsOrder.
Proof. apply filter_length_le. Qed.
Lemma indexOf_app l1 g l2 : g ∉ l1 → indexOf (l1 ++ g :: l2) g = Z.of_nat (length l1).
Proof.
  intros Hg. unfold indexOf.
  assert (list_find (λ x, x = g) (l1 ++ g :: l2) = Some (length l1, g)) as ->; [|done].
  apply list_find_Some. split; [by rewrite list_lookup_middle|]. split; [done|].
  intros j y Hj Hlt ->. rewrite lookup_app_l in Hj by done. apply Hg. by eapply list_elem_of_lookup_2.
Qed.
Lemma group_at_app l1 g l2 : group_at (l1 ++ g :: l2) (Z.of_nat (length l1)) = Some g.
Proof.
  unfold group_at. destruct (Z.ltb_spec (Z.of_nat (length l1)) 0); [lia|].
  by rewrite Nat2Z.id, list_lookup_middle.
Qed.

(** The [k]th item is in a group, after those of the groups before. *)
Lemma place_found l k g i :
  place_in suggestions l k = Some (g, i) →
  ∃ l1 l2 j, l = l1 ++ g :: l2 ∧ i = Z.of_nat j ∧ j < count g ∧
    k = length (concat ((λ g, default [] (oget suggestions g)) <$> l1)) + j.
Proof.
  revert k. induction l as [|x l IH]; intros k; cbn [place_in]; [done|]. cbn zeta.
  destruct (Nat.ltb_spec k (count x)).
  - intros E. injection E as <- <-. exists [], l, k. split_and!; done.
  - intros (l1 & l2 & j & -> & -> & Hj & Hk)%IH. exists (x :: l1), l2, j. split_and!; try done.
    cbn. rewrite length_app. lia.
Qed.
Lemma place_intro l1 g l2 j :
  j < count g →
  place_in suggestions (l1 ++ g :: l2) (length (concat ((λ g, default [] (oget suggestions g)) <$> l1)) + j) =
  Some (g, Z.of_nat j).
Proof.
  intros Hj. induction l1 as [|x l1 IH]; cbn [app fmap list_fmap concat length place_in]; cbn zeta.
  - rewrite Nat.add_0_l. destruct (Nat.ltb_spec j (count g)); [done|lia].
  - rewrite length_app. destruct (Nat.ltb_spec (count x + length (concat ((λ g, default [] (oget suggestions g)) <$> l1)) + j) (count x)); [lia|].
    replace (_ + _ + j - count x) with (length (concat ((λ g, default [] (oget suggestions g)) <$> l1)) + j) by lia.
    exact IH.
Qed.
Lemma place_total k : k < length (all_items suggestions) → is_Some (place suggestions k).
Proof.
  unfold place, all_items. generalize gs as l. intros l. revert k.
  induction l as [|g l IH]; intros k Hk; cbn [place_in fmap list_fmap concat] in *; [cbn in Hk; lia|]. cbn zeta.
  destruct (Nat.ltb_spec k (count g)); [done|]. apply IH. rewrite length_app in Hk. lia.
Qed.

Lemma items_of_have g : g ∈ gs → ∃ l, items_of suggestions (Some g) = Ok l ∧ length l = count g ∧ 0 < length l.
Proof.
  intros (l & E & Hl)%groups_have. exists l. unfold items_of. cbn [mbind option_bind].
  rewrite E. split; [done|]. split; [done|]. destruct l; [done|cbn; lia].
Qed.
Lemma all_items_length l1 g l2 :
  gs = l1 ++ g :: l2 →
  length (all_items suggestions) =
  length (concat ((λ g, default [] (oget suggestions g)) <$> l1)) + count g +
  length (concat ((λ g, default [] (oget suggestions g)) <$> l2)).
Proof.
  intros E. unfold all_items. rewrite E, fmap_app, concat_app, length_app. cbn [fmap list_fmap concat].
  rewrite length_app. lia.
Qed.

(** A place, with the groups around it. *)
Record placed (k : nat) (index : Index) (l1 l2 : list string) (j : nat) : Prop := {
  pl_groups : gs = l1 ++ index.1 :: l2;
  pl_index : index.2 = Z.of_nat j;
  pl_count : j < count index.1;
  pl_place : k = length (concat ((λ g, default [] (oget suggestions g)) <$> l1)) + j;
  pl_indexOf : indexOf gs index.1 = Z.of_nat (length l1);
  pl_at i : group_at gs (Z.of_nat (length l1 + i)) = (index.1 :: l2) !! i;
}.
Lemma placed_intro k index : place suggestions k = Some index → ∃ l1 l2 j, placed k index l1 l2 j.
Proof.
  destruct index as [g i]. intros (l1 & l2 & j & E & -> & Hj & ->)%place_found. exists l1, l2, j.
  split; try done.
  - cbn [fst]. rewrite E. apply indexOf_app. pose proof (groups_nodup) as Hn. rewrite E in Hn.
    apply NoDup_app in Hn as (_ & Hn & _). intros Hin. apply (Hn g Hin). by left.
  - intros m. unfold group_at. destruct (Z.ltb_spec (Z.of_nat (length l1 + m)) 0); [lia|].
    rewrite Nat2Z.id. cbn [fst]. rewrite E. by rewrite lookup_app_r, Nat.add_sub' by lia.
Qed.
Lemma place_here k index l1 l2 j m :
  placed k index l1 l2 j → m < count index.1 → place suggestions (k - j + m) = Some (index.1, Z.of_nat m).
Proof.
  intros [E _ _ -> _ _] Hm. unfold place. rewrite E, Nat.add_sub. by apply place_intro.
Qed.

(** The arrow down takes the choice to the next item in the order of the groups,
    and from the last to the first. *)
Theorem down_is_next k index :
  place suggestions k = Some index →
  ∃ index', ArrowDown suggestions index = Ok index' ∧
    place suggestions ((k + 1) mod length (all_items suggestions)) = Some index'.
Proof.
  intros (l1 & l2 & j & Hp)%placed_intro. pose proof Hp as [E Ei Hj Ek Eo Ea].
  pose proof (all_items_length _ _ _ E) as Hn.
  destruct (items_of_have index.1) as (l & El & Hl & _); [rewrite E; set_solver|].
  unfold ArrowDown. rewrite Eo, El, Ei. cbn [rbind]. unfold len_of. rewrite Hl.
  assert (Z.of_nat (length gs) - 1 = Z.of_nat (length l1) + Z.of_nat (length l2))%Z as ->
    by (rewrite E, length_app; cbn; lia).
  destruct (decide (S j < count index.1)) as [Hlt|Hge].
  - exists (index.1, (Z.of_nat j + 1)%Z). split.
    + rewrite (proj2 (Z.eqb_neq (Z.of_nat j) _)) by lia. rewrite (proj2 (Z.ltb_lt (Z.of_nat j) _)) by lia. by case_match.
    + rewrite Nat.mod_small by lia. replace (k + 1) with (k - j + S j) by lia.
      rewrite (place_here _ _ _ _ _ _ Hp Hlt). by rewrite Nat2Z.inj_succ.
  - rewrite (proj2 (Z.eqb_eq (Z.of_nat j) _)) by lia. rewrite (proj2 (Z.ltb_ge (Z.of_nat j) _)) by lia.
    destruct l2 as [|g l2].
    + rewrite (proj2 (Z.eqb_eq (Z.of_nat (length l1)) _)) by (cbn; lia).
      assert (k + 1 = length (all_items suggestions)) as -> by (rewrite Hn; cbn; lia).
      rewrite Nat.Div0.mod_same. destruct gs as [|g0 rest] eqn:Eg; [by destruct l1|].
      exists (g0, 0%Z). split; [done|].
      assert (g0 ∈ gs) as Hin by (rewrite Eg; by left).
      destruct (items_of_have g0 Hin) as (l0 & _ & Hl0 & Hpos).
      unfold place. rewrite Eg. apply (place_intro [] g0 rest 0). lia.
    + rewrite (proj2 (Z.eqb_neq (Z.of_nat (length l1)) _)) by (cbn; lia).
      exists (g, 0%Z). split.
      * unfold strangle. cbn [fst snd]. rewrite Z.min_l, Z.max_r by (cbn; lia).
        replace (Z.of_nat (length l1) + 1)%Z with (Z.of_nat (length l1 + 1)) by lia. by rewrite Ea.
      * assert (g ∈ gs) as Hin by (rewrite E; set_solver).
        destruct (items_of_have g Hin) as (lg & _ & Hlg & Hpos). cbn [fmap list_fmap concat] in Hn. rewrite length_app in Hn.
        rewrite Nat.mod_small by lia. unfold place.
        assert (gs = (l1 ++ [index.1]) ++ g :: l2) as Eg by (rewrite E, <- (assoc_L (++)); done).
        rewrite Eg. pose proof (place_intro (l1 ++ [index.1]) g l2 0 ltac:(lia)) as Hpl.
        rewrite fmap_app, concat_app, length_app in Hpl. cbn [fmap list_fmap concat] in Hpl. rewrite app_nil_r in Hpl.
        replace (k + 1) with (length (concat ((λ g, default [] (oget suggestions g)) <$> l1)) + count index.1 + 0) by lia.
        exact Hpl.
Qed.

(** The arrow up takes the choice to the item before, but from the first one to the
    last group at the length of that group's name less one. *)
Theorem up_is_previous k index :
  place suggestions k = Some index →
  if Nat.eqb k 0
  then ∃ g, last gs = Some g ∧ ArrowUp suggestions index = Ok (g, (Z.of_nat (len g) - 1)%Z)
  else ∃ index', ArrowUp suggestions index = Ok index' ∧ place suggestions (k - 1) = Some index'.
Proof.
  intros (l1 & l2 & j & Hp)%placed_intro. pose proof Hp as [E Ei Hj Ek Eo Ea].
  unfold ArrowUp. rewrite Eo, Ei. destruct j as [|j].
  - cbn [Z.of_nat]. rewrite Z.eqb_refl. destruct l1 as [|x l1 _] using rev_ind.
    + rewrite (proj2 (Nat.eqb_eq k 0)) by (cbn in Ek; lia). cbn [length Z.of_nat Z.eqb].
      destruct (last (index.1 :: l2)) as [g|] eqn:El; [|by apply last_None in El].
      exists g. rewrite E. split; [done|].
      assert (group_at gs (Z.of_nat (length gs) - 1) = Some g) as Hg; [|rewrite E in Hg; cbn [app] in Hg |- *; by rewrite Hg].
      replace (Z.of_nat (length gs) - 1)%Z with (Z.of_nat (length (@nil string) + length l2)) by (rewrite E; cbn; lia).
      rewrite Ea. rewrite last_lookup in El. exact El.
    + rewrite <- (assoc_L (++)) in E. cbn [app] in E. assert (x ∈ gs) as Hin by (rewrite E; set_solver).
      destruct (items_of_have x Hin) as (lx & Ex & Hlx & Hpos).
      rewrite fmap_app, concat_app, length_app in Ek. cbn [fmap list_fmap concat] in Ek. rewrite app_nil_r in Ek.
      rewrite (proj2 (Nat.eqb_neq k 0)) by lia. rewrite length_app in *. cbn [length] in *.
      rewrite (proj2 (Z.eqb_neq (Z.of_nat (length l1 + 1)) 0)) by lia.
      pose proof groups_short as Hs. rewrite E, length_app in Hs. cbn [length] in Hs.
      assert (strangle (Z.of_nat (length l1 + 1) - 1) (0, Z.of_nat (length groupsOrder) - 1)%Z = Z.of_nat (length l1)) as ->.
      { unfold strangle. cbn [fst snd]. cbn [length groupsOrder] in *. lia. }
      assert (group_at gs (Z.of_nat (length l1)) = Some x) as -> by (rewrite E; apply group_at_app).
      rewrite Ex. cbn [rbind set_index]. eexists. split; [done|]. unfold len_of. rewrite Hlx.
      unfold place. rewrite E.
      replace (k - 1) with (length (concat ((λ g, default [] (oget suggestions g)) <$> l1)) + (count x - 1)) by lia.
      rewrite place_intro by lia. do 2 f_equal. lia.
  - rewrite (proj2 (Z.eqb_neq (Z.of_nat (S j)) 0)) by lia. rewrite (proj2 (Nat.eqb_neq k 0)) by lia.
    eexists. split; [done|]. replace (k - 1) with (k - S j + j) by lia.
    rewrite (place_here _ _ _ _ _ _ Hp) by lia. do 2 f_equal. lia.
Qed.

(** Enter chooses the item at the place. *)
Lemma enter_is_item k index :
  place suggestions k = Some index → Enter suggestions index = Ok (all_items suggestions !! k).
Proof.
  intros (l1 & l2 & j & Hp)%placed_intro. pose proof Hp as [E Ei Hj Ek Eo Ea].
  destruct (groups_have index.1) as (l & El & _); [rewrite E; set_solver|].
  unfold Enter. rewrite Eo. rewrite (proj2 (Z.ltb_lt _ _)) by (rewrite E, length_app; cbn; lia).
  assert (items_of suggestions (Some index.1) = Ok l) as -> by (unfold items_of; cbn [mbind option_bind]; by rewrite El).
  rewrite El in Hj. cbn [default from_option] in Hj. unfold id in Hj. cbn [rbind].
  unfold len_of. rewrite Ei. rewrite (proj2 (Z.ltb_lt (Z.of_nat j) _)) by lia.
  rewrite (proj2 (Z.ltb_ge (Z.of_nat j) 0)) by lia.
  rewrite Nat2Z.id. f_equal. unfold all_items. rewrite E, fmap_app, concat_app. cbn [fmap list_fmap concat].
  rewrite lookup_app_r by lia. rewrite El. replace (k - _) with j by lia. cbn [default from_option]. unfold id. by rewrite lookup_app_l by lia.
Qed.
End choice.

(** ** An example *)

Definition item (s : string) : Item := {| it_title := s; it_subtitle := ""; it_value := s |}.
Definition example_suggestions : obj (list Item) :=
  [("Recents", []); ("Accounts", [item "a"; item "b"]); ("Groups", [item "g"])].

Lemma down_is_next_witness :
  ∃ index', ArrowDown example_suggestions ("Accounts", 1%Z) = Ok index' ∧ place example_suggestions 2 = Some index'.
Proof. apply (down_is_next example_suggestions 1 ("Accounts", 1%Z)). reflexivity. Defined.
Lemma up_is_previous_witness :
  ∃ index', ArrowUp example_suggestions ("Groups", 0%Z) = Ok index' ∧ place example_suggestions 1 = Some index'.
Proof. apply (up_is_previous example_suggestions 2 ("Groups", 0%Z)). reflexivity. Defined.

(** The length of the name [Groups] is not that of its items. *)
Example up_from_first :
  ArrowUp example_suggestions ("Accounts", 0%Z) = Ok ("Groups", 5%Z) ∧ Enter example_suggestions ("Groups", 5%Z) = Ok None.
Proof. by vm_compute. Qed.
(** With nothing to choose from both arrows throw. *)
Example arrows_without_items : ArrowUp [("Recents", [])] ("Recents", 0%Z) = Err "TypeError".
Proof. by vm_compute. Qed.
