(* ===== verification/EditorGroups.v ===== *)
(** * Groups of blocks

    Of packages/editor/src/blocknote/core/extensions/Blocks: [getGroupInfoFromPos] of
    helpers/getGroupInfoFromPos.ts, and from nodes/BlockContainer.ts the lookups of
    parent blocks and the commands [UpdateGroup] and [UpdateGroupChildren], which make a
    group a list and number its levels. *)
From S2P Require Import Prelude.
From S2P Require Import JsString.
From S2P Require Import JsObject.
From S2P Require Import DaemonApi.
From S2P Require Import NodeConvert.
From S2P Require Import Positions.
From S2P Require Import EditorBlocks.

Section groups.
Context `{Schema, ProseMirror}.

(** ** Lookups *)

(** [$pos.depth], [$pos.node(d)] and [$pos.start(d)]; a negative depth counts from the
    innermost node. *)
Definition p_depth (p : ResolvedPos) : Z := Z.of_nat (length p) - 1.
Definition p_at (p : ResolvedPos) (d : Z) : option (PNode * Z) :=
  let d := if (d <? 0)%Z then (p_depth p + d)%Z else d in
  if (d <? 0)%Z then None else p !! Z.to_nat d.
Definition p_node (p : ResolvedPos) (d : Z) : option PNode := fst <$> p_at p d.
(** [$pos.start()] *)
Definition p_start (p : ResolvedPos) : Z := match last p with Some (_, s) => s | None => 0 end.
(** [$pos.before(d)] *)
Definition p_before (p : ResolvedPos) (d : Z) : result Z :=
  match p_at p d with
  | Some (_, s) => if Z.eqb d 0 then Err "RangeError" else Ok (s - 1)%Z
  | None => Err "TypeError"
  end.
Definition need {A} (o : option A) : result A := match o with Some a => Ok a | None => Err "TypeError" end.

Record GroupInfo : Type := {
  gi_group : option PNode;
  gi_container : option PNode;
  gi_depth : Z;
  gi_level : Z;
  gi_pos : ResolvedPos;
}.
(** The loop, from the innermost node; it goes on below depth 0. *)
Fixpoint group_loop (p : ResolvedPos) (depth : nat) (container : option PNode) : option PNode * option PNode * Z :=
  match p_node p (Z.of_nat depth) with
  | None => (None, container, Z.of_nat depth)
  | Some group =>
      if String.eqb (n_type group) "blockGroup" then (Some group, container, Z.of_nat depth)
      else
        let container := if String.eqb (n_type group) "blockContainer" then Some group else container in
        match depth with
        | O => (p_node p (-1), container, (-1)%Z)
        | S d => group_loop p d container
        end
  end.
Definition getGroupInfoFromPos (pos : Z) (doc : PNode) : result GroupInfo :=
  let* p := resolve doc pos in
  let r := group_loop p (length p - 1) None in
  Ok {| gi_group := r.1.1; gi_container := r.1.2; gi_depth := r.2;
        gi_level := (- ((1 - p_depth p) / 2))%Z; gi_pos := p |}.

Record ParentInfo : Type := { pi_group : PNode; pi_block : option PNode; pi_pos : Z }.
Definition getParentBlockFromPos (doc : PNode) (pos : Z) : result (option ParentInfo) :=
  let* p := resolve doc pos in
  let depth := p_depth p in
  if (3 <? depth)%Z then
    let* parent := need (p_at p (depth - 3)) in
    let* parentGroup := need (p_node p (depth - 2)) in
    Ok (Some {| pi_group := parentGroup; pi_block := head (n_content parent.1); pi_pos := parent.2 |})
  else Ok None.

(** The nearest block around a position that is a heading. *)
Record HeadingInfo : Type := { hi_depth : Z; hi_startPos : Z; hi_heading : option PNode; hi_group : PNode }.
Definition is_heading_block (n : PNode) : bool :=
  String.eqb (n_type n) "blockContainer" &&
  match head (n_content n) with Some h => String.eqb (n_type h) "heading" | None => false end.
Fixpoint heading_loop (p : ResolvedPos) (depth : nat) : Z :=
  match p_node p (Z.of_nat depth) with
  | Some group =>
      if is_heading_block group then Z.of_nat depth
      else match depth with O => (-1)%Z | S d => heading_loop p d end
  | None => (-1)%Z
  end.
Definition getNearestHeadingFromPos (doc : PNode) (pos : Z) : result (option HeadingInfo) :=
  let* p := resolve doc pos in
  if (3 <? p_depth p)%Z then
    let depth := heading_loop p (length p - 1) in
    let* r := need (p_at p depth) in
    Ok (Some {| hi_depth := depth; hi_startPos := r.2; hi_heading := head (n_content r.1); hi_group := r.1 |})
  else Ok None.

(** ** Levels *)

(** [(n / 2).toString()] *)
Definition num_str (n : Z) : string :=
  if (n <? 0)%Z then "-" +:+ num_to_str (Z.to_N (- n)) else num_to_str (Z.to_N n).
Definition half_str (n : Z) : string :=
  if Z.even n then num_str (n / 2)
  else (if (n <? 0)%Z then "-" else "") +:+ num_to_str (Z.to_N (Z.abs n / 2)) +:+ ".5".
(** The level of a group at a depth of the container that is walked. *)
Definition child_level (depth groupLevel indent : Z) : string :=
  let twice := (if (0 <? indent)%Z then depth + 2 * groupLevel else depth + 2 * groupLevel - 2)%Z in
  if (twice <? 8)%Z then half_str twice else "3".
(** The level [UpdateGroup] gives to a group at a depth of the document. *)
Definition group_level (depth : Z) : string :=
  if (7 <? depth)%Z then "3" else if Z.eqb depth 7 then "3" else if Z.eqb depth 5 then "2" else "1".

(** The callback of [UpdateGroupChildren]; an exception ends the traversal. *)
Definition level_visit (group : PNode) (groupPos : ResolvedPos) (groupLevel : Z) (listType : AttrVal) (indent : Z)
    (st : result PNode) (child : PNode) (pos : Z) : result PNode * bool :=
  match st with
  | Err _ => (st, false)
  | Ok doc =>
      if String.eqb (n_type child) "blockGroup" && bool_decide (attr (n_attrs child) "listType" = listType) then
        (let* p := resolve group pos in
         let newLevel := child_level (p_depth p) groupLevel indent in
         let* container := parent_type doc (p_start groupPos + pos - 1) in
         let posAddition := (if String.eqb container "blockContainer" then -1 else 0)%Z in
         if bool_decide (attr (n_attrs child) "listLevel" = VStr newLevel) then Ok doc
         else tr_setNodeAttribute doc (p_start groupPos + pos + posAddition) "listLevel" (VStr newLevel), true)
      else (st, true)
  end.
Definition UpdateGroupChildren (group : PNode) (groupPos : ResolvedPos) (groupLevel : Z) (listType : AttrVal)
    (indent : Z) (doc : PNode) : result PNode :=
  descendants (level_visit group groupPos groupLevel listType indent) group (Ok doc).

(** ** [UpdateGroup] *)

(** What is left for after the current task. *)
Inductive Task : Type :=
| GroupToDiv (groupStart : Z) (attrs : Attrs) (container : PNode) (pos : ResolvedPos)
| SinkThenUpdate (listType : AttrVal) (tab : bool) (start : option string)
| Relevel (container : PNode) (pos : ResolvedPos) (groupLevel : Z) (listType : AttrVal).

Definition with_type (attrs : Attrs) (listType : AttrVal) (level : string) : Attrs :=
  oset (oset attrs "listType" listType) "listLevel" (VStr level).
(** The tasks that only use the commands above. *)
Definition run_task (t : Task) (doc : PNode) : option (result PNode) :=
  match t with
  | GroupToDiv groupStart attrs container pos =>
      Some (let* doc := tr_setNodeMarkup doc groupStart None (with_type attrs (VStr "div") "1") in
            UpdateGroupChildren container pos 2 (attr attrs "listType") (-1) doc)
  | Relevel container pos groupLevel listType => Some (UpdateGroupChildren container pos groupLevel listType 1 doc)
  | SinkThenUpdate _ _ _ => None
  end.

Record Updated : Type := { up_doc : PNode; up_done : bool; up_later : list Task }.
Definition stays (doc : PNode) (b : bool) (later : list Task) : result Updated :=
  Ok {| up_doc := doc; up_done := b; up_later := later |}.

(** [parseInt], of the digits that lists start with. *)
Definition parse_start (start : string) : AttrVal :=
  match digits_value start with Some n => VNum (Z.of_N n) | None => VUndef end.

Definition block_id (n : PNode) : AttrVal := attr (n_attrs n) "id".

(** The group's new attributes. *)
Definition group_attrs (group : PNode) (depth : Z) (listType : AttrVal) (start : option string) : Attrs :=
  let attrs := with_type (n_attrs group) listType (group_level depth) in
  match start with
  | Some s => if truthy s then oset attrs "start" (parse_start s) else attrs
  | None => attrs
  end.
Definition set_group (info : GroupInfo) (group : PNode) (listType : AttrVal) (start : option string) (doc : PNode) :
    result Updated :=
  if String.eqb (n_type group) "blockGroup" then
    let* before := p_before (gi_pos info) (gi_depth info) in
    let* doc := tr_setNodeMarkup doc before None (group_attrs group (gi_depth info) listType start) in
    stays doc true
      match gi_container info with
      | Some container => [Relevel container (gi_pos info) (gi_level info) listType]
      | None => []
      end
  else stays doc true [].

(** [posInBlock] is negative for the selection. *)
Definition UpdateGroup (selectionFrom posInBlock : Z) (listType : AttrVal) (tab : bool) (start : option string)
    (isSank : bool) (doc : PNode) : result Updated :=
  let* info := getGroupInfoFromPos (if (posInBlock <? 0)%Z then selectionFrom else posInBlock) doc in
  let* group := need (gi_group info) in
  let old := attr (n_attrs group) "listType" in
  let div := VStr "div" in
  let first := block_id <$> head (n_content group) in
  if isSank && bool_decide (old = listType) then stays doc true []
  else
    match gi_container info with
    | Some container =>
        if bool_decide (old ≠ div) && bool_decide (listType = div) then
          let* before := p_before (gi_pos info) (gi_depth info) in
          stays doc true [GroupToDiv before (n_attrs group) container (gi_pos info)]
        else
          let* outer := need (p_node (gi_pos info) (gi_depth info - 1)) in
          if String.eqb (n_type outer) "doc" && bool_decide (default VUndef first = block_id container) then
            stays doc false []
          else if bool_decide (is_Some first) && bool_decide (first ≠ Some (block_id container)) && negb tab then
            stays doc false [SinkThenUpdate listType tab start]
          else if bool_decide (old ≠ div) && bool_decide (old ≠ listType) && negb tab then
            stays doc false [SinkThenUpdate listType tab start]
          else set_group info group listType start doc
    | None => set_group info group listType start doc
    end.
End groups.
