(* ===== verification/EditorGroupsFacts.v ===== *)
(** * Levels of lists

    [UpdateGroupChildren] is a recursion over the blocks below its block, and numbers
    the levels as [UpdateGroup] does. *)
From S2P Require Import Prelude.
From S2P Require Import JsString.
From S2P Require Import JsObject.
From S2P Require Import DaemonApi.
From S2P Require Import NodeConvert.
From S2P Require Import BlockNodes.
From S2P Require Import Positions.
From S2P Require Import EditorBlocks.
From S2P Require Import PositionsFacts.
From S2P Require Import EditorBlocksFacts.
From S2P Require Import EditorLookup.
From S2P Require Import EditorUpdate.
From S2P Require Import EditorRemove.
From S2P Require Import EditorGroups.

Section levels.
Context `{ProseMirrorLaws}.
Variables (listType : AttrVal) (groupLevel indent : Z).

(** The attributes of a group [k] levels below the block that is walked. *)
Definition level_at (k : nat) : string := child_level (2 * Z.of_nat k) groupLevel indent.
Definition levelled (k : nat) (ga : Attrs) : Attrs :=
  if bool_decide (attr ga "listType" = listType ∧ attr ga "listLevel" ≠ VStr (level_at k))
  then spec_attrs "blockGroup" (oset ga "listLevel" (VStr (level_at k))) else ga.
(** A block with the levels of the lists below it. *)
Fixpoint relevel (k : nat) (n : PNode) : PNode :=
  match n with
  | PElem t a [c; PElem gt ga kids gms] ms =>
      PElem t a [c; PElem gt (levelled k ga) (relevel (S k) <$> kids) gms] ms
  | _ => n
  end.

Lemma relevel_group k t a c ga kids gms ms :
  relevel k (PElem t a [c; PElem "blockGroup" ga kids gms] ms) =
  PElem t a [c; PElem "blockGroup" (levelled k ga) (relevel (S k) <$> kids) gms] ms.
Proof. done. Qed.

Lemma relevel_typed n : typed_block n → ∀ k, typed_block (relevel k n) ∧ nodeSize (relevel k n) = nodeSize n.
Proof.
  intros Hn. pattern n. apply block_tree_ind; [| |exact Hn]; clear n Hn.
  - intros a c ms Hg Hc k. cbn [relevel]. split; [|done]. split; [|done]. apply typed_container.
    split; [done|]. split; [done|by left].
  - intros a c ga kids gms ms Hg Hc Hne Hk IH k. rewrite relevel_group.
    assert (Forall typed_block (relevel (S k) <$> kids) ∧ csize (relevel (S k) <$> kids) = csize kids) as [Hks Hsz].
    { clear Hne. induction IH as [|x kids Hx _ IHk]; [by split|]. inversion Hk as [|?? Hxt Hkt]; subst.
      destruct (IHk Hkt) as [Ht Hs]. destruct (Hx (S k)) as [Hxt' Hxs]. cbn [fmap list_fmap csize].
      split; [by constructor|]. by rewrite Hxs, Hs. }
    split; [split; [|done]|].
    + apply typed_container. split; [done|]. split; [done|]. right. eexists. split; [done|]. split; [done|].
      destruct (typed_blocks _ Hks). apply (typed_group (levelled k ga) (relevel (S k) <$> kids) gms).
      split; [by destruct kids|]. done.
    + rewrite !size_block by done. cbn [csize]. rewrite !size_block by done. by rewrite Hsz.
Qed.

(** ** The traversal *)

Variables (old : PNode) (groupPos : ResolvedPos) (base : Z).
Hypothesis Hold : typed old = true.
Hypothesis Hbase : p_start groupPos = (base + 1)%Z.
Abbreviation lv := (level_visit old groupPos groupLevel listType indent).

Lemma level_pass doc n p : n_type n ≠ "blockGroup" → lv (Ok doc) n p = (Ok doc, true).
Proof. intros Hn. unfold level_visit. by rewrite (proj2 (String.eqb_neq _ _) Hn). Qed.

(** A group of the block that is walked, [k] levels below it, in the document as it is
    now. *)
Lemma level_group gs fs k a c ms ga kids gms :
  let g := PElem "blockGroup" ga kids gms in
  plug (group_frame a c ms :: gs) g = old → typed (plug (group_frame a c ms :: fs) g) = true →
  length gs = 2 * k → inner fs = (base + inner gs)%Z →
  lv (Ok (plug (group_frame a c ms :: fs) g)) g (hole (group_frame a c ms :: gs)) =
  (Ok (plug (group_frame a c ms :: fs) (PElem "blockGroup" (levelled k ga) kids gms)), true).
Proof.
  intros g Ho Ht Hlen Hin. unfold level_visit. cbn [g n_type n_attrs String.eqb Ascii.eqb Bool.eqb andb].
  unfold levelled. case_bool_decide as Hlt.
  2: { by rewrite bool_decide_eq_false_2 by tauto. }
  pose proof Hold as Hold'. rewrite <- Ho in Hold' |- *. rewrite resolve_hole by done. cbn [rbind].
  assert (p_depth (ancestors gs (fill_frame (group_frame a c ms) [g])) = 2 * Z.of_nat k)%Z as ->.
  { unfold p_depth. rewrite ancestors_length, Hlen. lia. }
  fold (level_at k).
  assert (p_start groupPos + hole (group_frame a c ms :: gs) - 1 = hole (group_frame a c ms :: fs))%Z as Eh.
  { rewrite Hbase. unfold hole. cbn. lia. }
  rewrite Eh, (parent_type_path _ _ _ _ (resolve_hole _ _ _ Ht)). cbn [rbind fill_frame n_type f_type group_frame].
  cbn [String.eqb Ascii.eqb Bool.eqb]. case_bool_decide as Hl.
  - rewrite bool_decide_eq_false_2 by tauto. done.
  - rewrite bool_decide_eq_true_2 by done.
    replace (p_start groupPos + hole (group_frame a c ms :: gs) + -1)%Z with (hole (group_frame a c ms :: fs)) by lia.
    destruct has_group as [ds Eds]. f_equal. unfold spec_attrs. rewrite Eds. cbn [default from_option]. unfold id, g.
    by apply setNodeAttribute_ok.
Qed.

Definition walked (n : PNode) : Prop := ∀ gs fs k,
  plug gs n = old → typed (plug fs n) = true → length gs = 2 * k → inner fs = (base + inner gs)%Z →
  visit lv n (hole gs) (Ok (plug fs n)) = Ok (plug fs (relevel k n)).

(** The blocks of a group; those before are done. *)
Lemma walk_kids l : Forall typed_block l → Forall walked l → ∀ gs fs k ga ga' gms dn0 dn,
  plug gs (PElem "blockGroup" ga (dn0 ++ l) gms) = old → typed (plug fs (PElem "blockGroup" ga' (dn ++ l) gms)) = true →
  length gs = S (2 * k) → inner fs = (base + inner gs)%Z → csize dn = csize dn0 →
  visit_list lv l (inner gs + csize dn0) (Ok (plug fs (PElem "blockGroup" ga' (dn ++ l) gms))) =
  Ok (plug fs (PElem "blockGroup" ga' (dn ++ (relevel (S k) <$> l)) gms)).
Proof.
  intros Hl Hw. induction Hl as [|n l Hn Hl IH]; intros gs fs k ga ga' gms dn0 dn Ho Ht Hlen Hin Hsz; [done|].
  inversion Hw as [|?? Hwn Hwl]; subst. cbn [visit_list fmap list_fmap].
  set (og := kid_frame ga gms dn0 l). set (df := kid_frame ga' gms dn l).
  pose proof (Hwn (og :: gs) (df :: fs) (S k)) as Hv.
  assert (hole (og :: gs) = inner gs + csize dn0)%Z as Eh by (unfold hole; cbn; lia).
  change (plug fs (PElem "blockGroup" ga' (dn ++ n :: l) gms)) with (plug (df :: fs) n).
  rewrite <- Eh, Hv; [|exact Ho|exact Ht|cbn; lia|cbn; lia].
  destruct (relevel_typed n Hn (S k)) as [[Hrt Hrn] Hrs].
  assert (typed (plug (df :: fs) (relevel (S k) n)) = true) as Ht'.
  { eapply typed_replug; [exact Ht|done|]. by rewrite Hrn, (proj2 Hn). }
  assert (∀ (x : PNode) d r, d ++ x :: r = (d ++ [x]) ++ r) as Happ by (intros; by rewrite <- (assoc_L (++))).
  change (plug (df :: fs) (relevel (S k) n)) with (plug fs (PElem "blockGroup" ga' (dn ++ relevel (S k) n :: l) gms)) in Ht' |- *.
  rewrite Happ in Ht' |- *.
  pose proof (IH Hwl gs fs k ga ga' gms (dn0 ++ [n]) (dn ++ [relevel (S k) n])) as Hk.
  replace (hole (og :: gs) + nodeSize n)%Z with (inner gs + csize (dn0 ++ [n]))%Z
    by (rewrite Eh, csize_app; cbn; lia).
  rewrite Hk; [|by rewrite <- Happ|exact Ht'|done|done|].
  - by rewrite <- Happ.
  - rewrite !csize_app. cbn. lia.
Qed.

(** What is in a block: its content is passed, its group has its level set, and then
    its blocks. *)
Lemma walk_content gs fs k a c ga kids gms ms :
  let n := PElem "blockContainer" a [c; PElem "blockGroup" ga kids gms] ms in
  type_group (n_type c) = "blockContent" → typed c = true → Forall typed_block kids → Forall walked kids →
  plug gs n = old → typed (plug fs n) = true → length gs = 2 * k → inner fs = (base + inner gs)%Z →
  visit_list lv (n_content n) (inner gs) (Ok (plug fs n)) = Ok (plug fs (relevel k n)).
Proof.
  intros n Hg Hc Hk Hw Ho Ht Hlen Hin. cbn [n n_content visit_list].
  rewrite (visit_content _ c); [|intros m q _ Hm; by apply level_pass|done|done].
  rewrite visit_elem.
  assert (inner gs + nodeSize c = hole (group_frame a c ms :: gs))%Z as Eh by (unfold hole; cbn; lia).
  rewrite Eh. change (plug fs n) with (plug (group_frame a c ms :: fs) (PElem "blockGroup" ga kids gms)).
  rewrite (level_group gs fs k) by done. cbn [fst snd].
  pose proof (walk_kids kids Hk Hw (group_frame a c ms :: gs) (group_frame a c ms :: fs) k ga (levelled k ga) gms [] []) as Hv.
  cbn [csize app] in Hv. replace (hole (group_frame a c ms :: gs) + 1)%Z with (inner (group_frame a c ms :: gs) + 0)%Z
    by (unfold hole; lia).
  rewrite Hv; [done|exact Ho| |cbn; lia|cbn; lia|done].
  eapply typed_replug with (n := PElem "blockGroup" ga kids gms); [exact Ht| |done].
  apply (typed_plug_inv (group_frame a c ms :: fs)) in Ht. apply (typed_group _ kids gms). by apply (typed_group ga kids gms).
Qed.

Lemma block_walked n : typed_block n → walked n.
Proof.
  intros Hn. pattern n. apply block_tree_ind; [| |exact Hn]; clear n Hn.
  - intros a c ms Hg Hc gs fs k Ho Ht Hlen Hin. rewrite visit_elem, level_pass by done.
    cbn [fst snd visit_list]. rewrite (visit_content _ c); [done|intros m q _ Hm; by apply level_pass|done|done].
  - intros a c ga kids gms ms Hg Hc Hne Hk IH gs fs k Ho Ht Hlen Hin.
    rewrite visit_elem, level_pass by done. cbn [fst snd].
    replace (hole gs + 1)%Z with (inner gs) by (unfold hole; lia). by apply walk_content.
Qed.
End levels.

Section commands.
Context `{ProseMirrorLaws}.

Lemma ancestors_lookup gs fs n : ancestors (gs ++ fs) n !! length fs = Some (plug gs n, inner fs).
Proof.
  revert n. induction gs as [|f gs IH]; intros n; cbn [app plug].
  - pose proof (ancestors_last fs n) as E. rewrite last_lookup, ancestors_length in E. exact E.
  - cbn [ancestors]. rewrite lookup_app_l by (rewrite ancestors_length, length_app; lia). apply IH.
Qed.
Lemma p_depth_ancestors fs n : p_depth (ancestors fs n) = Z.of_nat (length fs).
Proof. unfold p_depth. rewrite ancestors_length. lia. Qed.
Lemma p_at_ancestors gs fs n : p_at (ancestors (gs ++ fs) n) (Z.of_nat (length fs)) = Some (plug gs n, inner fs).
Proof.
  unfold p_at. destruct (Z.ltb_spec (Z.of_nat (length fs)) 0); [lia|].
  cbn. destruct (Z.ltb_spec (Z.of_nat (length fs)) 0); [lia|]. rewrite Nat2Z.id. apply ancestors_lookup.
Qed.
Lemma p_node_ancestors gs fs n d :
  d = length fs → p_node (ancestors (gs ++ fs) n) (Z.of_nat d) = Some (plug gs n).
Proof. intros ->. unfold p_node. by rewrite p_at_ancestors. Qed.

(** The path to a cursor in the content of a block. *)
Definition in_content (fs : list Frame) (n : PNode) (pos : Z) : Prop :=
  match n_content n with
  | c :: _ => (inner fs + 1 ≤ pos ≤ inner fs + nodeSize c - 1)%Z
  | [] => False
  end.
Lemma content_path fs a c group ms pos :
  let n := PElem "blockContainer" a (c :: group) ms in
  typed (plug fs n) = true → in_content fs n pos →
  resolve (plug fs n) pos = Ok (ancestors (content_frame a group ms :: fs) c).
Proof.
  intros n Ht Hp. unfold in_content in Hp. cbn [n n_content] in Hp.
  pose proof (typed_plug_inv _ _ Ht) as Htn. apply typed_container in Htn as (Hg & Hc & _).
  destruct (content_type_elem c Hg Hc) as (t & ca & cc & cms & -> & Hl & _).
  pose proof (resolve_in_content (content_frame a group ms :: fs) (PElem t ca cc cms) pos Ht Hg) as Hrc.
  cbn [plug] in Hrc. unfold fill_frame in Hrc. cbn [content_frame f_type f_attrs f_left f_right f_marks app] in Hrc.
  unfold content_size in Hrc. cbn [n_content inner content_frame f_left csize] in Hrc.
  rewrite size_block in Hp by done. apply Hrc. lia.
Qed.
Lemma content_start fs a c group ms :
  p_start (ancestors (content_frame a group ms :: fs) c) = (inner fs + 1)%Z.
Proof. unfold p_start. rewrite ancestors_last. cbn. lia. Qed.

Lemma relevel_doc listType groupLevel indent fs n path :
  typed (plug fs n) = true → n_type n = "blockContainer" → p_start path = (inner fs + 1)%Z →
  UpdateGroupChildren n path groupLevel listType indent (plug fs n) =
    Ok (plug fs (relevel listType groupLevel indent 0 n)).
Proof.
  intros Ht Hn Hs. pose proof (typed_plug_inv _ _ Ht) as Htn.
  destruct (container_inv n Htn Hn) as (a & c & group & ms & -> & Hg & Hc & Hgroup).
  unfold UpdateGroupChildren. rewrite descendants_eq.
  destruct Hgroup as [->|(ga & kids & gms & -> & Hne & Hk & Htk)]; cbn [n_content].
  - cbn [visit_list relevel]. by rewrite (visit_content _ c); [|intros m q _ Hm; by apply level_pass| |].
  - assert (Forall typed_block kids) as Hkb.
    { apply Forall_forall. intros x Hx%list_elem_of_In. split; [by eapply forallb_forall in Htk|].
      eapply forallb_forall in Hk; [|exact Hx]. by apply String.eqb_eq. }
    pose proof (walk_content listType groupLevel indent
      (PElem "blockContainer" a [c; PElem "blockGroup" ga kids gms] ms) _ (inner fs) Htn Hs [] fs 0 a c ga kids gms ms
      Hg Hc Hkb) as Hv.
    cbn zeta in Hv. apply Hv; [|done|exact Ht|done|cbn; lia].
    apply list.Forall_impl with typed_block; [exact Hkb|]. intros x Hx. by eapply block_walked.
Qed.

(** [UpdateGroupChildren] on a block of a document, from a position in its content,
    gives every list of the type that is below the block the level for its depth, leaves
    all else as it is, and the document typed. *)
Theorem UpdateGroupChildren_spec listType groupLevel indent fs n pos path :
  typed (plug fs n) = true → n_type n = "blockContainer" → in_content fs n pos → resolve (plug fs n) pos = Ok path →
  UpdateGroupChildren n path groupLevel listType indent (plug fs n) =
    Ok (plug fs (relevel listType groupLevel indent 0 n)) ∧
  typed (plug fs (relevel listType groupLevel indent 0 n)) = true.
Proof.
  intros Ht Hn Hp Hr. pose proof (typed_plug_inv _ _ Ht) as Htn.
  destruct (relevel_typed listType groupLevel indent n (conj Htn Hn) 0) as [[Hrt Hrn] _].
  split; [|by eapply typed_replug; [exact Ht|done|congruence]].
  apply relevel_doc; [done|done|].
  destruct (container_inv n Htn Hn) as (a & c & group & ms & -> & _).
  rewrite (content_path fs a c group ms pos Ht Hp) in Hr. injection Hr as <-. apply content_start.
Qed.

(** *** [UpdateGroup] *)

Lemma group_of_path gf fs a c group ms pos :
  let n := PElem "blockContainer" a (c :: group) ms in
  let path := ancestors (content_frame a group ms :: gf :: fs) c in
  typed (plug (gf :: fs) n) = true → f_type gf = "blockGroup" → in_content (gf :: fs) n pos →
  getGroupInfoFromPos pos (plug (gf :: fs) n) =
  Ok {| gi_group := Some (fill_frame gf [n]); gi_container := Some n; gi_depth := Z.of_nat (length fs);
        gi_level := (- ((1 - Z.of_nat (length fs + 2)) / 2))%Z; gi_pos := path |}.
Proof.
  intros n path Ht Hgf Hp. unfold getGroupInfoFromPos. pose proof (content_path (gf :: fs) a c group ms pos Ht Hp) as Er.
  cbn zeta in Er. fold n in Er. rewrite Er. cbn [rbind]. fold path.
  replace (length path - 1) with (S (S (length fs))) by (unfold path; rewrite ancestors_length; cbn [length]; lia).
  replace (p_depth path) with (Z.of_nat (length fs + 2)) by (unfold path; rewrite p_depth_ancestors; cbn [length]; lia).
  pose proof (typed_plug_inv _ _ Ht) as Htn. apply typed_container in Htn as (Hg & Hc & _).
  destruct (content_type_elem c Hg Hc) as (t & ca & cc & cms & Ec & _ & Hng & Hnc & _).
  assert (n_type c = t) as Et by (by rewrite Ec).
  assert (group_loop path (S (S (length fs))) None = (Some (fill_frame gf [n]), Some n, Z.of_nat (length fs))) as ->.
  { unfold path. cbn [group_loop].
    rewrite (p_node_ancestors [] (content_frame a group ms :: gf :: fs)) by done. cbn [plug].
    rewrite Et, (proj2 (String.eqb_neq t _) Hng), (proj2 (String.eqb_neq t _) Hnc).
    rewrite (p_node_ancestors [content_frame a group ms] (gf :: fs)) by done.
    cbn [plug fill_frame content_frame n_type f_type String.eqb Ascii.eqb Bool.eqb].
    destruct fs as [|f fs]; cbn [length group_loop].
    - rewrite (p_node_ancestors [content_frame a group ms; gf] []) by done. cbn [plug fill_frame n_type].
      rewrite Hgf. cbn [String.eqb Ascii.eqb Bool.eqb]. done.
    - rewrite (p_node_ancestors [content_frame a group ms; gf] (f :: fs)) by done. cbn [plug fill_frame n_type].
      rewrite Hgf. cbn [String.eqb Ascii.eqb Bool.eqb]. done. }
  do 2 f_equal; lia.
Qed.

(** The group with the attributes of a list. *)
Definition list_frame (gf : Frame) (depth : Z) (listType : AttrVal) (start : option string) : Frame :=
  {| f_type := f_type gf;
     f_attrs := spec_attrs "blockGroup" (group_attrs (PElem (f_type gf) (f_attrs gf) [] []) depth listType start);
     f_left := f_left gf; f_right := f_right gf; f_marks := f_marks gf |}.

(** Where the group of a block becomes a list at once, [UpdateGroup] gives it the
    type and the level for its depth, and the task that follows gives the lists of that
    type below the block theirs; all else stays, and the document is typed. *)
Theorem UpdateGroup_spec selectionFrom gf fs n pos listType tab start :
  let doc := plug (gf :: fs) n in
  let depth := Z.of_nat (length fs) in
  let old := attr (f_attrs gf) "listType" in
  let first := block_id <$> head (f_left gf ++ n :: f_right gf) in
  typed doc = true → f_type gf = "blockGroup" → n_type n = "blockContainer" → in_content (gf :: fs) n pos →
  match fs with f :: _ => f_type f ≠ "doc" | [] => False end →
  listType ≠ VStr "div" ∨ old = VStr "div" → tab = true ∨ first = Some (block_id n) ∧ (old = VStr "div" ∨ old = listType) →
  let fs' := list_frame gf depth listType start :: fs in
  ∃ task, UpdateGroup selectionFrom pos listType tab start false doc =
      Ok {| up_doc := plug fs' n; up_done := true; up_later := [task] |} ∧
    run_task task (plug fs' n) =
      Some (Ok (plug fs' (relevel listType (- ((1 - (depth + 2)) / 2)) 1 0 n))) ∧
    typed (plug fs' (relevel listType (- ((1 - (depth + 2)) / 2)) 1 0 n)) = true.
Proof.
  intros doc depth old first Ht Hgf Hn Hp Hout Hdiv Htab fs'. pose proof (typed_plug_inv _ _ Ht) as Htn.
  destruct (container_inv n Htn Hn) as (a & c & group & ms & En & _). subst n.
  set (n := PElem "blockContainer" a (c :: group) ms) in *.
  assert (0 ≤ pos)%Z as Hpos.
  { pose proof (inner_nonneg (gf :: fs) (typed_frames _ _ Ht)). unfold in_content, n in Hp. cbn [n_content] in Hp. lia. }
  pose proof (group_of_path gf fs a c group ms pos Ht Hgf Hp) as Ei. cbn zeta in Ei. fold n in Ei.
  assert (typed (plug fs' n) = true) as Ht'.
  { unfold fs'. cbn [plug]. eapply (typed_replug fs (fill_frame gf [n])); [exact Ht| |done].
    pose proof (typed_plug_inv fs _ Ht) as Hf. unfold fill_frame in Hf |- *. cbn [list_frame f_type f_attrs f_left f_right f_marks].
    apply typed_elem in Hf as Hf. by apply typed_elem. }
  assert (inner fs' = inner (gf :: fs)) as Ein by done.
  eexists (Relevel n _ _ listType). split_and!.
  - unfold UpdateGroup. rewrite (proj2 (Z.ltb_ge pos 0)) by lia. fold doc. unfold doc. rewrite Ei.
    cbn [rbind gi_group need andb gi_container fill_frame n_attrs n_content gi_pos gi_depth gi_level]. fold old first.
    assert (bool_decide (old ≠ VStr "div") && bool_decide (listType = VStr "div") = false) as ->.
    { apply andb_false_iff. rewrite !bool_decide_eq_false. tauto. }
    destruct fs as [|f0 fs0] eqn:Efs; [done|].
    assert (p_node (ancestors (content_frame a group ms :: gf :: f0 :: fs0) c) (Z.of_nat (length (f0 :: fs0)) - 1) =
            Some (fill_frame f0 [fill_frame gf [n]])) as ->.
    { replace (Z.of_nat (length (f0 :: fs0)) - 1)%Z with (Z.of_nat (length fs0)) by (cbn; lia).
      by rewrite (p_node_ancestors [content_frame a group ms; gf; f0] fs0). }
    cbn [need rbind]. change (n_type (fill_frame f0 [fill_frame gf [n]])) with (f_type f0).
    rewrite (proj2 (String.eqb_neq _ _) Hout). cbn [andb]. change ([n] ++ f_right gf) with (n :: f_right gf). fold first.
    assert (bool_decide (is_Some first) && bool_decide (first ≠ Some (block_id n)) && negb tab = false) as ->.
    { destruct Htab as [->|[-> _]]; [by rewrite andb_false_r|]. by rewrite (bool_decide_eq_false_2 (Some _ ≠ _)) by tauto. }
    assert (bool_decide (old ≠ VStr "div") && bool_decide (old ≠ listType) && negb tab = false) as ->.
    { destruct Htab as [->|[_ Ho]]; [by rewrite andb_false_r|]. apply andb_false_iff. left.
      apply andb_false_iff. rewrite !bool_decide_eq_false. tauto. }
    unfold set_group. change (n_type (fill_frame gf [n])) with (f_type gf). rewrite Hgf. cbn [String.eqb Ascii.eqb Bool.eqb].
    cbn [gi_pos gi_depth gi_container gi_level]. unfold p_before.
    rewrite (p_at_ancestors [content_frame a group ms; gf] (f0 :: fs0)).
    rewrite (proj2 (Z.eqb_neq _ 0)) by (cbn; lia). cbn [rbind].
    pose proof has_group as [ds Eds].
    pose proof (setNodeMarkup_ok (f0 :: fs0) "blockGroup" (f_attrs gf) (f_left gf ++ [n] ++ f_right gf) (f_marks gf) None ds
      (group_attrs (fill_frame gf [n]) (Z.of_nat (length (f0 :: fs0))) listType start)) as Em.
    cbn [default from_option] in Em. unfold id in Em. unfold hole in Em.
    assert (plug (gf :: f0 :: fs0) n = plug (f0 :: fs0) (PElem "blockGroup" (f_attrs gf) (f_left gf ++ [n] ++ f_right gf) (f_marks gf))) as Ed.
    { cbn [plug]. unfold fill_frame at 2. by rewrite Hgf. }
    assert (plug fs' n = plug (f0 :: fs0) (PElem "blockGroup"
              (compute_attrs ds (group_attrs (fill_frame gf [n]) (Z.of_nat (length (f0 :: fs0))) listType start))
              (f_left gf ++ [n] ++ f_right gf) (f_marks gf))) as Ed'.
    { unfold fs'. cbn [plug]. unfold fill_frame at 2. cbn [list_frame f_type f_attrs f_left f_right f_marks].
      unfold spec_attrs. rewrite Hgf, Eds. done. }
    unfold doc in Ht. rewrite Ed in Ht |- *. rewrite Ed' in Ht'. rewrite Em by done.
    cbn [rbind]. unfold stays. by rewrite Ed'.
  - cbn [run_task]. rewrite relevel_doc; [|done|done|by rewrite content_start].
    unfold depth. do 4 f_equal. lia.
  - destruct (relevel_typed listType (- ((1 - (depth + 2)) / 2)) 1 n (conj Htn Hn) 0) as [[Hrt Hrn] _].
    eapply typed_replug; [exact Ht'|done|congruence].
Qed.
End commands.

(** Both commands give a list the same level at the same depth of the document: a list
    [k] levels below the block of a group at depth [d]. *)
Lemma levels_agree d k :
  (1 ≤ d)%Z → Z.odd d = true →
  level_at (- ((1 - (d + 2)) / 2)) 1 k = group_level (d + 2 + 2 * Z.of_nat k).
Proof.
  intros Hd Ho. rewrite Zodd_mod in Ho. apply Z.eqb_eq in Ho.
  assert (∃ m, d = 2 * m + 1 ∧ 0 ≤ m)%Z as (m & -> & Hm).
  { exists (d / 2)%Z. pose proof (Z.div_mod d 2 ltac:(lia)). split; [lia|]. apply Z.div_pos; lia. }
  unfold level_at, child_level. cbn [Z.ltb Z.compare].
  replace (1 - (2 * m + 1 + 2))%Z with ((- (m + 1)) * 2)%Z by lia. rewrite Z.div_mul by lia.
  set (j := (m + 1 + Z.of_nat k)%Z). replace (2 * Z.of_nat k + 2 * - - (m + 1))%Z with (2 * j)%Z by lia.
  replace (2 * m + 1 + 2 + 2 * Z.of_nat k)%Z with (2 * j + 1)%Z by lia.
  assert (1 ≤ j)%Z as Hj by lia. clearbody j. clear -Hj. unfold group_level.
  destruct (Z.ltb_spec (2 * j) 8).
  - assert (j = 1 ∨ j = 2 ∨ j = 3)%Z as [->|[->| ->]] by lia; reflexivity.
  - by destruct (Z.ltb_spec 7 (2 * j + 1)); [|lia].
Qed.
