(* ===== verification/EditorKeys.v ===== *)
(** * The keys of the editor's blocks

    Of packages/editor/src/blocknote/core/extensions/Blocks/nodes/BlockContainer.ts: what
    Backspace, Enter, Tab and Shift-Tab do, as the commands that are run with their
    positions, and where [BNMergeBlocks] moves text.  Each key tries its alternatives in
    turn until one handles it. *)
From S2P Require Import Prelude.
From S2P Require Import JsString.
From S2P Require Import JsObject.
From S2P Require Import DaemonApi.
From S2P Require Import NodeConvert.
From S2P Require Import Positions.
From S2P Require Import EditorBlocks.
From S2P Require Import EditorGroups.

Section keys.
Context `{Schema, ProseMirror}.

(** A text selection. *)
Record Sel : Type := { s_anchor : Z; s_head : Z }.
Definition s_from (s : Sel) : Z := Z.min (s_anchor s) (s_head s).
Definition s_empty (s : Sel) : bool := Z.eqb (s_anchor s) (s_head s).
(** [selection.$anchor.parentOffset === 0] *)
Definition at_start (doc : PNode) (s : Sel) : result bool :=
  let* p := resolve doc (s_anchor s) in
  Ok (Z.eqb (s_anchor s - p_start p) 0).

Definition content_type (b : BlockPos) : string := n_type (bp_contentNode b).
Definition is_paragraph (b : BlockPos) : bool := String.eqb (content_type b) "paragraph".
Definition child_count (n : PNode) : nat := length (n_content n).
(** [block.node.textContent.length === 0] *)
Definition empty_text (b : BlockPos) : bool := negb (truthy (textContent (bp_node b))).
Definition first_id (group : PNode) : AttrVal := default VUndef (block_id <$> head (n_content group)).
Definition last_id (group : PNode) : AttrVal := default VUndef (block_id <$> last (n_content group)).

(** [BNCreateBlock], for the block that [createAndFill] makes. *)
Definition BNCreateBlock (newBlock : PNode) (pos : Z) (doc : PNode) : result PNode := tr_insert doc pos [newBlock].

(** ** [BNMergeBlocks] *)

(** The children of a block that are moved out of it: the range and the depth it is
    lifted to. *)
Definition children_range (b : BlockPos) : option (Z * Z * Z) :=
  if Nat.eqb (child_count (bp_node b)) 2 then
    Some (bp_startPos b + nodeSize (bp_contentNode b) + 1, bp_endPos b - 1, Z.of_nat (bp_depth b) - 1)%Z
  else None.

(** The nearest block before, whatever its level: back to one without children. *)
Fixpoint leaf_before (fuel : nat) (doc : PNode) (pos : Z) : result Z :=
  let* b := getBlockInfoFromPos doc pos in
  if Nat.eqb (bp_numChildBlocks b) 0 then Ok pos
  else match fuel with
       | O => Ok pos
       | S k => leaf_before k doc (pos - 1)
       end.

(** The block whose content is deleted, and the range that it then replaces. *)
Record Merge : Type := { mg_delete : Z * Z; mg_replace : Z * Z; mg_content : list PNode; mg_cursor : Z }.

(** [lift] is the transaction's step; [None] when the command does not apply. *)
Definition BNMergeBlocks (lift : PNode → Z * Z * Z → result PNode) (posBetweenBlocks : Z) (doc : PNode) :
    result (option Merge) :=
  let* next := parent_type doc (posBetweenBlocks + 1) in
  let* prev := parent_type doc (posBetweenBlocks - 1) in
  if negb (String.eqb next "blockContainer") || negb (String.eqb prev "blockContainer") then Ok None
  else
    let* b := getBlockInfoFromPos doc (posBetweenBlocks + 1) in
    let* doc := match children_range b with Some r => lift doc r | None => Ok doc end in
    let* prevBlockEndPos := leaf_before (Z.to_nat posBetweenBlocks) doc (posBetweenBlocks - 1) in
    let start := bp_startPos b in
    Ok (Some {| mg_delete := (start, start + nodeSize (bp_contentNode b))%Z;
                mg_replace := (prevBlockEndPos - 1, start)%Z;
                mg_content := n_content (bp_contentNode b);
                mg_cursor := (prevBlockEndPos - 1)%Z |}).

(** ** Commands of the keys *)

Inductive Command : Type :=
| DeleteSelection
| UndoInputRule
| MergeIntoHeading (lift : option (Z * Z * Z)) (delete : Z * Z) (insert : Z) (content : list PNode)
| LaterGroupToDiv (groupStart : Z) (attrs : Attrs) (container : PNode)
| SelectNode (pos : Z)
| UpdateToParagraph (pos : Z)
| DeleteBlock (pos : Z)
| MergeBlocks (posBetween : Z)
| LiftBlock
| SinkBlock
| CreateBlock (pos : Z)
| SetCursor (pos : Z)
| SplitHeading (pos : Z)
| SplitBlock (pos : Z) (keepType : bool)
| LaterSinkAndUpdate (listType : AttrVal)
| LaterRelevel (container : PNode) (level : Z) (listType : AttrVal).

(** The commands that were run and if the key is handled. *)
Abbreviation Outcome := (list Command * bool)%type.
Definition pass : result Outcome := Ok ([], false).
Definition done_with (l : list Command) : result Outcome := Ok (l, true).
(** [commands.first] *)
Fixpoint first (alternatives : list (result Outcome)) : result Outcome :=
  match alternatives with
  | [] => pass
  | a :: l => let* r := a in if r.2 then Ok r else let* r' := first l in Ok (r.1 ++ r'.1, r'.2)
  end.

(** What the library's commands answer: whether there is an input rule to undo, and
    whether the block can be lifted. *)
Record Library : Type := { can_undo_rule : bool; can_lift : bool }.
Definition run_if (b : bool) (c : Command) : result Outcome := Ok ([c], b).

Section handlers.
Variables (lib : Library) (lift : PNode → Z * Z * Z → result PNode) (doc : PNode) (s : Sel).

Definition current : result BlockPos := getBlockInfoFromPos doc (s_from s).
Definition current_group : result (GroupInfo * PNode) :=
  let* info := getGroupInfoFromPos (s_from s) doc in
  let* group := need (gi_group info) in
  Ok (info, group).

Definition merge_at (pos : Z) : result Outcome :=
  let* m := BNMergeBlocks lift pos doc in
  match m with Some _ => done_with [MergeBlocks pos] | None => pass end.

(** *** Backspace *)

(** Into the heading that the block is the first child of. *)
Definition back_into_heading : result Outcome :=
  let* start := at_start doc s in
  let* b := current in
  let* parent := getParentBlockFromPos doc (s_from s) in
  match parent with
  | Some p =>
      match pi_block p with
      | Some parentBlock =>
          if start && is_paragraph b && bool_decide (bp_id b = first_id (pi_group p))
             && String.eqb (n_type parentBlock) "heading"
          then done_with [MergeIntoHeading (children_range b)
                            (bp_startPos b, bp_startPos b + nodeSize (bp_contentNode b))%Z
                            (pi_pos p + nodeSize parentBlock - 1) (n_content (bp_contentNode b))]
          else pass
      | None => pass
      end
  | None => pass
  end.
(** The first block of a list makes it a plain group. *)
Definition back_list : result Outcome :=
  let* r := current_group in
  let (info, group) := r in
  if bool_decide (attr (n_attrs group) "listType" ≠ VStr "div") && Z.eqb (s_from s) (p_start (gi_pos info)) then
    match gi_container info with
    | Some container =>
        if bool_decide (first_id group = block_id container) then
          let* before := p_before (gi_pos info) (gi_depth info) in
          done_with [LaterGroupToDiv before (n_attrs group) container]
        else pass
    | None => pass
    end
  else pass.
(** Media before the block is selected; another block than a paragraph becomes one. *)
Definition back_media : result Outcome :=
  let* b := current in
  let* p := resolve doc (s_anchor s) in
  let* prev := getBlockInfoFromPos doc (s_anchor s - p_depth p) in
  let* start := at_start doc s in
  if start then
    if is_paragraph b then
      if String.eqb (content_type b) "image" then done_with [SelectNode (bp_startPos b)]
      else if bool_decide (content_type prev ∈ ["file"; "embed"; "video"])
              || String.eqb (content_type prev) "image"
                 && bool_decide (attr (n_attrs (bp_contentNode prev)) "url" = VStr "")
      then done_with [SelectNode (bp_startPos prev)]
      else pass
    else done_with [UpdateToParagraph (s_from s)]
  else pass.
(** The block before, and if the two later alternatives may look at it. *)
Definition block_before : result (BlockPos * PNode * BlockPos * bool) :=
  let* b := current in
  let* r := current_group in
  let* start := at_start doc s in
  let* prev := getBlockInfoFromPos doc (bp_startPos b - 2) in
  Ok (b, r.2, prev, start && bool_decide (first_id r.2 ≠ bp_id b)
                    && String.eqb (n_type (bp_node prev)) "blockContainer").
Definition back_empty_before : result Outcome :=
  let* r := block_before in
  let '(b, group, prev, ok) := r in
  if ok && negb (empty_text b) && empty_text prev then done_with [DeleteBlock (bp_startPos prev)] else pass.
Definition back_merge : result Outcome :=
  let* r := block_before in
  let '(b, group, prev, ok) := r in
  if ok then merge_at (bp_startPos b - 1) else pass.
Definition back_to_paragraph : result Outcome :=
  let* b := current in
  let* start := at_start doc s in
  if start && negb (is_paragraph b) then done_with [UpdateToParagraph (s_from s)] else pass.
Definition back_lift : result Outcome :=
  let* start := at_start doc s in
  if start then run_if (can_lift lib) LiftBlock else pass.
Definition back_merge_top : result Outcome :=
  let* b := current in
  let* start := at_start doc s in
  if negb (Z.eqb (bp_startPos b) 2) && start && s_empty s && Nat.eqb (bp_depth b) 2
  then merge_at (bp_startPos b - 1) else pass.

Definition handleBackspace : result Outcome :=
  first [Ok (if s_empty s then ([], false) else ([DeleteSelection], true));
         Ok (if can_undo_rule lib then ([UndoInputRule], true) else ([], false));
         back_into_heading; back_list; back_media; back_empty_before; back_merge; back_to_paragraph;
         back_lift; back_merge_top].

(** *** Enter *)

Definition enter_above : result Outcome :=
  let* b := current in
  let* start := at_start doc s in
  if start && s_empty s && negb (empty_text b) then done_with [CreateBlock (bp_startPos b - 1)] else pass.
Definition enter_heading : result Outcome :=
  let* b := current in
  let* start := at_start doc s in
  if negb start && String.eqb (content_type b) "heading"
  then done_with [DeleteSelection; SplitHeading (s_from s)] else pass.
Definition enter_lift : result Outcome :=
  let* b := current in
  let* r := current_group in
  let* start := at_start doc s in
  if start && s_empty s && empty_text b && Nat.ltb 2 (bp_depth b) && bool_decide (last_id r.2 = bp_id b)
  then run_if (can_lift lib) LiftBlock else pass.
Definition enter_below : result Outcome :=
  let* b := current in
  let* start := at_start doc s in
  if start && s_empty s && empty_text b
  then done_with [CreateBlock (bp_endPos b + 1); SetCursor (bp_endPos b + 1 + 2)] else pass.
Definition enter_split : result Outcome :=
  let* b := current in
  if negb (empty_text b) then done_with [DeleteSelection; SplitBlock (s_from s) false] else pass.

Definition handleEnter : result Outcome := first [enter_above; enter_heading; enter_lift; enter_below; enter_split].

(** *** Tab *)

Definition tab_list : result Outcome :=
  let* r := current_group in
  let listType := attr (n_attrs r.2) "listType" in
  if String.eqb (n_type r.2) "blockGroup" && bool_decide (listType ≠ VStr "div")
  then done_with [LaterSinkAndUpdate listType] else pass.
Definition handleTab : result Outcome := first [tab_list; done_with [SinkBlock]].

Definition shift_tab_list : result Outcome :=
  let* r := current_group in
  let listType := attr (n_attrs r.2) "listType" in
  if bool_decide (listType = VStr "div") then pass
  else match gi_container r.1 with
       | Some container => Ok ([LaterRelevel container (gi_level r.1) listType], false)
       | None => pass
       end.
Definition handleShiftTab : result Outcome := first [shift_tab_list; done_with [LiftBlock]].
End handlers.
End keys.
