(* ===== verification/EditorKeysFacts.v ===== *)
(** * What the keys do

    Enter and Backspace as tables over the cursor's place, and the block that a merge
    moves text to. *)
From S2P Require Import Prelude.
From S2P Require Import JsString.
From S2P Require Import JsObject.
From S2P Require Import DaemonApi.
From S2P Require Import NodeConvert.
From S2P Require Import BlockNodes.
From S2P Require Import Positions.
From S2P Require Import EditorBlocks.
From S2P Require Import PositionsFacts.
From S2P Require Import EditorBlocksFacts.
From S2P Require Import EditorLookup.
From S2P Require Import EditorUpdate.
From S2P Require Import EditorGroups.
From S2P Require Import EditorGroupsFacts.
From S2P Require Import EditorKeys.

Section keys.
Context `{ProseMirrorLaws}.

(** A block of a document with the frame of its group, and a selection in its
    content. *)
Record at_block (gf : Frame) (fs : list Frame) (n : PNode) (s : Sel) : Prop := {
  ab_typed : typed (plug (gf :: fs) n) = true;
  ab_doc : n_type (plug (gf :: fs) n) = "doc";
  ab_group : f_type gf = "blockGroup";
  ab_block : n_type n = "blockContainer";
  ab_anchor : in_content (gf :: fs) n (s_anchor s);
  ab_from : in_content (gf :: fs) n (s_from s);
}.

Section at_cursor.
Variables (gf : Frame) (fs : list Frame) (n : PNode) (s : Sel).
Hypothesis Hat : at_block gf fs n s.
Abbreviation doc := (plug (gf :: fs) n).

Lemma cursor_in_doc : in_doc (gf :: fs).
Proof. eapply typed_in_doc; apply Hat. Qed.

Lemma content_owns pos : in_content (gf :: fs) n pos → owns (gf :: fs) n pos.
Proof.
  unfold in_content, owns. destruct (n_content n) as [|c l]; [done|]. intros Hp. left. unfold hole. lia.
Qed.
Lemma at_current : ∃ b, current doc s = Ok b ∧ describes b (gf :: fs) n.
Proof.
  apply (proj2 (lookup_describes doc (ab_typed _ _ _ _ Hat) (ab_doc _ _ _ _ Hat))); [done|apply Hat| |].
  - apply content_owns, Hat.
  - pose proof (in_doc_inner _ cursor_in_doc (typed_frames _ _ (ab_typed _ _ _ _ Hat))) as Hi.
    pose proof (ab_from _ _ _ _ Hat) as Hf. unfold in_content in Hf. destruct (n_content n); [done|]. lia.
Qed.

Lemma at_shape : ∃ a c group ms, n = PElem "blockContainer" a (c :: group) ms.
Proof.
  destruct (container_inv n (typed_plug_inv _ _ (ab_typed _ _ _ _ Hat)) (ab_block _ _ _ _ Hat))
    as (a & c & group & ms & E & _). by exists a, c, group, ms.
Qed.
(** The path to a position of the content ends there, two below the group. *)
Lemma at_path pos : in_content (gf :: fs) n pos →
  ∃ p, resolve doc pos = Ok p ∧ p_start p = (inner (gf :: fs) + 1)%Z ∧ p_depth p = Z.of_nat (length fs + 2).
Proof.
  intros Hp. destruct at_shape as (a & c & group & ms & En). pose proof (ab_typed _ _ _ _ Hat) as Ht. rewrite En in *.
  eexists. split; [by apply (content_path (gf :: fs) a c group ms pos)|]. split; [by rewrite content_start|].
  rewrite p_depth_ancestors. cbn. lia.
Qed.
Lemma at_start_here : at_start doc s = Ok (Z.eqb (s_anchor s) (inner (gf :: fs) + 1)).
Proof.
  destruct (at_path _ (ab_anchor _ _ _ _ Hat)) as (p & E & Es & _). unfold at_start. rewrite E. cbn [rbind].
  rewrite Es. f_equal. destruct (Z.eqb_spec (s_anchor s - (inner (gf :: fs) + 1)) 0),
    (Z.eqb_spec (s_anchor s) (inner (gf :: fs) + 1)); lia || done.
Qed.
Lemma at_group : ∃ info, current_group doc s = Ok (info, fill_frame gf [n]) ∧
  gi_container info = Some n ∧ p_start (gi_pos info) = (inner (gf :: fs) + 1)%Z.
Proof.
  destruct at_shape as (a & c & group & ms & En).
  pose proof (group_of_path gf fs a c group ms (s_from s)) as Eg. cbn zeta in Eg. rewrite <- En in Eg.
  unfold current_group. rewrite Eg by apply Hat. cbn [rbind gi_group need]. eexists. split; [done|].
  cbn [gi_container gi_pos]. split; [done|apply content_start].
Qed.
End at_cursor.

(** ** Enter *)

Definition is_last (gf : Frame) (n : PNode) : bool := bool_decide (last_id (fill_frame gf [n]) = block_id n).
Definition has_text (n : PNode) : bool := truthy (textContent n).
Definition content_is (n : PNode) (t : string) : bool :=
  match n_content n with c :: _ => String.eqb (n_type c) t | [] => false end.

Ltac facts Hat :=
  let b := fresh "b" in let Eb := fresh "Eb" in
  destruct (at_current _ _ _ _ Hat) as (b & Eb & Ebn & Ebs & Ebe & Ebd & Ebc & Ebi);
  pose proof (at_start_here _ _ _ _ Hat) as Es.

Lemma content_type_is b fs n t : describes b fs n → String.eqb (content_type b) t = content_is n t.
Proof.
  intros (_ & _ & _ & _ & Ec & _). unfold content_type, content_is. destruct (n_content n) as [|c l]; [done|].
  by injection Ec as <-.
Qed.

(** Enter puts an empty block before a block with text if the cursor is at its
    start; it splits a heading in its own way; it lifts an empty block that is the last
    below another one, and puts an empty block after one it does not lift; it splits
    any other block with text.  An empty block is left alone if the cursor is not at
    its start. *)
Theorem handleEnter_spec lib gf fs n s :
  at_block gf fs n s →
  let start := Z.eqb (s_anchor s) (inner (gf :: fs) + 1) in
  let lifts := Nat.ltb 2 (length (gf :: fs)) && is_last gf n in
  let below := (inner (gf :: fs) + content_size n + 1)%Z in
  handleEnter lib (plug (gf :: fs) n) s = Ok
    (if start && s_empty s then
       if has_text n then ([CreateBlock (hole (gf :: fs))], true)
       else if lifts && can_lift lib then ([LiftBlock], true)
       else ((if lifts then [LiftBlock] else []) ++ [CreateBlock below; SetCursor (below + 2)%Z], true)
     else if negb start && content_is n "heading" then ([DeleteSelection; SplitHeading (s_from s)], true)
     else if has_text n then ([DeleteSelection; SplitBlock (s_from s) false], true)
     else ([], false)).
Proof.
  intros Hat start lifts below. facts Hat. destruct (at_group _ _ _ _ Hat) as (info & Eg & _).
  pose proof (content_type_is b (gf :: fs) n "heading") as Eh. specialize (Eh ltac:(split_and!; done)).
  unfold handleEnter, enter_above, enter_heading, enter_lift, enter_below, enter_split.
  rewrite Eb, Es, Eg. cbn [first rbind fst snd].
  assert (empty_text b = negb (has_text n)) as -> by (unfold empty_text; by rewrite Ebn).
  rewrite Eh, Ebs, Ebe, Ebd, Ebi. fold start.
  change (bool_decide (last_id (fill_frame gf [n]) = attr (n_attrs n) "id")) with (is_last gf n).
  change (inner (gf :: fs) - 1)%Z with (hole (gf :: fs)). 
  replace (inner (gf :: fs) + content_size n + 1 + 2)%Z with (below + 2)%Z by done. fold below.
  destruct start, (s_empty s), (has_text n), (content_is n "heading"); cbn [andb negb orb rbind pass done_with fst snd app]; try done;
    unfold lifts; destruct (Nat.ltb 2 (length (gf :: fs))), (is_last gf n), (can_lift lib); done.
Qed.

(** The blocks that Enter creates stand right before and right after the block of
    the cursor, whose id stays with its content; the document stays typed, and the
    cursor is put into the content of the one below. *)
Theorem enter_creates gf fs n s newBlock :
  at_block gf fs n s → typed_block newBlock →
  let above := plug fs (fill_frame gf [newBlock; n]) in
  let below := plug fs (fill_frame gf [n; newBlock]) in
  let pos := (inner (gf :: fs) + content_size n + 1)%Z in
  let after := {| f_type := f_type gf; f_attrs := f_attrs gf; f_left := f_left gf ++ [n]; f_right := f_right gf;
                  f_marks := f_marks gf |} in
  BNCreateBlock newBlock (hole (gf :: fs)) (plug (gf :: fs) n) = Ok above ∧ typed above = true ∧
  BNCreateBlock newBlock pos (plug (gf :: fs) n) = Ok below ∧ typed below = true ∧
  below = plug (after :: fs) newBlock ∧ in_content (after :: fs) newBlock (pos + 2).
Proof.
  intros Hat Hnew above below pos after. pose proof (ab_typed _ _ _ _ Hat) as Ht. pose proof (ab_block _ _ _ _ Hat) as Hn.
  destruct (insert_beside gf fs n [newBlock] [] [n] Ht Hn ltac:(by constructor) eq_refl) as [Ea Hta].
  destruct (insert_beside gf fs n [newBlock] [n] [] Ht Hn ltac:(by constructor) eq_refl) as [Eb Htb].
  rewrite !app_nil_r in *. unfold BNCreateBlock.
  assert (nodeSize n = 2 + content_size n)%Z as Hs.
  { destruct n as [|t a c ms]; [done|]. cbn in Hn. subst t. by rewrite size_block. }
  split_and!.
  - etransitivity; [|exact Ea]. f_equal. unfold hole. cbn. lia.
  - exact Hta.
  - etransitivity; [|exact Eb]. f_equal. unfold pos. rewrite csize_app. cbn. rewrite Hs. lia.
  - exact Htb.
  - unfold below, after. cbn [plug]. unfold fill_frame. cbn. by rewrite <- (assoc_L (++)).
  - unfold in_content. destruct (container_inv _ (proj1 Hnew) (proj2 Hnew)) as (a & c & g & ms & -> & Hg & Hc & _).
    cbn [n_content]. destruct (content_type_elem c Hg Hc) as (t & ca & cc & cms & -> & Hl & _ & _ & Hcc & _).
    apply csize_nonneg in Hcc. rewrite size_block by done. unfold pos, after. cbn [inner f_left].
    rewrite csize_app. cbn. rewrite Hs. lia.
Qed.

(** ** Merging *)

(** The last block below a block, with its frames. *)
Definition last_kid_frame (ga : Attrs) (kids : list PNode) (gms : list Mark) : Frame :=
  {| f_type := "blockGroup"; f_attrs := ga; f_left := kids; f_right := []; f_marks := gms |}.
Inductive last_leaf : list Frame → PNode → list Frame → PNode → Prop :=
| leaf_here fs a c ms : last_leaf fs (PElem "blockContainer" a [c] ms) fs (PElem "blockContainer" a [c] ms)
| leaf_below fs a c ga kids k gms ms fs' n' :
    last_leaf (last_kid_frame ga kids gms :: group_frame a c ms :: fs) k fs' n' →
    last_leaf fs (PElem "blockContainer" a [c; PElem "blockGroup" ga (kids ++ [k]) gms] ms) fs' n'.

Lemma last_leaf_exists n fs : typed_block n → ∃ fs' n', last_leaf fs n fs' n'.
Proof.
  intros Hn. revert fs. pattern n. apply block_tree_ind; [| |exact Hn]; clear n Hn.
  - intros a c ms _ _ fs. eexists _, _. constructor.
  - intros a c ga kids gms ms _ _ Hne _ IH fs. destruct (exists_last Hne) as (l & k & ->).
    apply list.Forall_app in IH as [_ Hk]. apply list.Forall_cons in Hk as [Hk _].
    destruct (Hk (last_kid_frame ga l gms :: group_frame a c ms :: fs)) as (fs' & n' & Hl).
    eexists fs', n'. by constructor.
Qed.

Definition child_blocks (n : PNode) : nat :=
  match n_content n with [_; group] => length (n_content group) | _ => 0 end.
(** At the end of a block, and of its group. *)
Lemma lookup_end fs n pos :
  in_doc fs → typed (plug fs n) = true → n_type n = "blockContainer" →
  (inner fs + content_size n - 1 ≤ pos ≤ inner fs + content_size n)%Z → (1 < pos)%Z →
  ∃ b, getBlockInfoFromPos (plug fs n) pos = Ok b ∧ bp_numChildBlocks b = child_blocks n.
Proof.
  intros Hd Ht Hn Hp H1p. rewrite owned_path; [|done|done|done| |done].
  - destruct (container_inv n (typed_plug_inv _ _ Ht) Hn) as (a & c & group & ms & -> & _).
    unfold block_info, getBlockInfo. cbn [n_content rbind]. by eexists.
  - destruct (container_inv n (typed_plug_inv _ _ Ht) Hn) as (a & c & group & ms & -> & _). right. exact Hp.
Qed.

Lemma leaf_found fs n fs' n' : last_leaf fs n fs' n' →
  in_doc fs → typed (plug fs n) = true → n_type n = "blockContainer" →
  let from := (inner fs + content_size n)%Z in
  let to := (inner fs' + content_size n')%Z in
  plug fs' n' = plug fs n ∧ in_doc fs' ∧ (∃ a c ms, n' = PElem "blockContainer" a [c] ms) ∧ (to ≤ from)%Z ∧
  ∀ fuel, (from - to ≤ Z.of_nat fuel)%Z → leaf_before fuel (plug fs n) from = Ok to.
Proof.
  induction 1 as [fs a c ms|fs a c ga kids k gms ms fs' n' Hl IH]; intros Hd Ht Hn from to.
  - split; [done|]. split; [done|]. split; [by eexists _, _, _|]. split; [lia|]. intros fuel _.
    destruct (block_bounds _ _ Hd Ht Hn) as (Hi & _).
    assert (0 ≤ content_size (PElem "blockContainer" a [c] ms))%Z as Hc.
    { apply csize_nonneg. by apply typed_plug_inv, typed_elem in Ht as (_ & _ & Ht). }
    destruct (lookup_end fs _ from Hd Ht Hn) as (b & Eb & En); [lia|lia|].
    destruct fuel; cbn [leaf_before]; rewrite Eb; cbn [rbind]; by rewrite En.
  - set (n := PElem "blockContainer" a [c; PElem "blockGroup" ga (kids ++ [k]) gms] ms) in *.
    set (kfs := last_kid_frame ga kids gms :: group_frame a c ms :: fs) in *.
    assert (plug kfs k = plug fs n) as Ek by done.
    assert (in_doc kfs) as Hdk.
    { destruct Hd as (gs & g & da & dms & -> & Hg).
      by exists (last_kid_frame ga kids gms :: group_frame a c ms :: gs), g, da, dms. }
    assert (n_type k = "blockContainer") as Hkn.
    { apply typed_plug_inv in Ht. apply typed_container in Ht as (_ & _ & [|(g & [= <-] & _ & Hg)]); [done|].
      apply (typed_group ga (kids ++ [k]) gms) in Hg as (_ & Hk & _). rewrite forallb_app in Hk. cbn in Hk. bool_simpl.
      by apply String.eqb_eq. }
    assert (typed (plug kfs k) = true) as Htk by (by rewrite Ek).
    destruct (IH Hdk Htk Hkn) as (Ep & Hd' & Hshape & Hle & Hfuel).
    destruct (block_bounds _ _ Hdk Htk Hkn) as (_ & _ & Hs).
    assert (from = inner kfs + content_size k + 2)%Z as Efrom.
    { unfold from, n, kfs, content_size. cbn [n_content csize inner last_kid_frame group_frame f_left].
      rewrite size_block, csize_app by done. cbn [csize]. unfold content_size in Hs. lia. }
    split; [by rewrite Ep|]. split; [done|]. split; [done|]. fold to in Hle, Hfuel. split; [lia|].
    intros fuel Hf. destruct fuel as [|[|fuel]]; [lia|lia|].
    destruct (block_bounds _ _ Hd Ht Hn) as (Hi & _).
    assert (0 ≤ content_size k)%Z as Hck.
    { apply csize_nonneg. apply typed_plug_inv in Htk. destruct k; [done|]. by apply typed_elem in Htk as (_ & _ & Htk). }
    pose proof (inner_nonneg kfs (typed_frames _ _ Htk)) as Hik.
    destruct (block_bounds _ _ Hdk Htk Hkn) as (Hik2 & _).
    destruct (lookup_end fs n from Hd Ht Hn) as (b & Eb & En); [lia|lia|].
    destruct (lookup_end fs n (from - 1) Hd Ht Hn) as (b' & Eb' & En'); [lia|lia|].
    assert (child_blocks n ≠ 0) as Hch.
    { unfold n, child_blocks. cbn [n_content]. rewrite length_app. cbn. lia. }
    cbn [leaf_before]. rewrite Eb. cbn [rbind]. rewrite En, (proj2 (Nat.eqb_neq _ _) Hch).
    rewrite Eb'. cbn [rbind]. rewrite En', (proj2 (Nat.eqb_neq _ _) Hch).
    replace (from - 1 - 1)%Z with (inner kfs + content_size k)%Z by lia.
    rewrite <- Ek. apply Hfuel. lia.
Qed.

(** The frame of a group with other blocks behind the place. *)
Definition with_right (gf : Frame) (l : list PNode) (r : list PNode) : Frame :=
  {| f_type := f_type gf; f_attrs := f_attrs gf; f_left := l; f_right := r; f_marks := f_marks gf |}.

(** C20. A block is merged into the last block, of whatever level, below the one before
    it: its text replaces what is between the end of that block's content and the start
    of its own, its content is deleted, and its children have been lifted to its own
    level before. *)
Theorem BNMergeBlocks_spec lift gf fs a c group ms l m fs' leaf :
  let n := PElem "blockContainer" a (c :: group) ms in
  let doc := plug (gf :: fs) n in
  let kids := match group with [g] => n_content g | _ => [] end in
  let behind := PElem "blockContainer" a [c] ms :: kids ++ f_right gf in
  let start := inner (gf :: fs) in
  typed doc = true → n_type doc = "doc" → f_type gf = "blockGroup" → f_left gf = l ++ [m] →
  (group ≠ [] →
     lift doc (start + nodeSize c + 1, start + content_size n - 1, Z.of_nat (length fs))%Z =
     Ok (plug (with_right gf l behind :: fs) m)) →
  typed (plug (with_right gf l behind :: fs) m) = true →
  last_leaf (with_right gf l behind :: fs) m fs' leaf →
  ∃ target, BNMergeBlocks lift (hole (gf :: fs)) doc =
      Ok (Some {| mg_delete := (start, start + nodeSize c)%Z; mg_replace := (target, start);
                  mg_content := n_content c; mg_cursor := target |}) ∧
    (∃ la lc lms, leaf = PElem "blockContainer" la [lc] lms ∧ target = (inner fs' + nodeSize lc - 1)%Z) ∧
    plug fs' leaf = plug (with_right gf l behind :: fs) m.
Proof.
  intros n doc kids behind start Ht Hdoc Hgf Hleft Hlift Ht' Hleaf.
  pose proof (typed_plug_inv _ _ Ht) as Htn. pose proof (typed_in_doc (gf :: fs) n Ht Hdoc eq_refl) as Hd.
  assert (typed m = true ∧ n_type m = "blockContainer") as [Htm Hmn].
  { split; [by apply typed_plug_inv in Ht'|]. pose proof (typed_plug_inv fs _ Ht) as Hg.
    unfold fill_frame in Hg. rewrite Hgf, Hleft in Hg. apply (typed_group _ ((l ++ [m]) ++ [n] ++ f_right gf)) in Hg as (_ & Hg & _).
    rewrite !forallb_app in Hg. cbn in Hg. bool_simpl. by apply String.eqb_eq. }
  assert (∀ r, in_doc (with_right gf l r :: fs)) as Hdm.
  { intros r. destruct Hd as ([|g0 gs] & g & da & dms & E & Hg).
    - injection E as -> ->. by exists [], (with_right g l r), da, dms.
    - injection E as -> E. exists (with_right g0 l r :: gs), g, da, dms. by rewrite E. }
  assert (plug (with_right gf l (n :: f_right gf) :: fs) m = doc) as Edoc.
  { unfold doc. cbn [plug]. unfold fill_frame. cbn. rewrite Hleft. by rewrite <- (assoc_L (++)). }
  assert (hole (gf :: fs) - 1 = inner (with_right gf l behind :: fs) + content_size m)%Z as Ehole.
  { destruct m as [|t ma mc mms]; [done|]. cbn in Hmn. subst t. unfold hole, content_size.
    cbn [inner with_right f_left n_content]. rewrite Hleft, csize_app. cbn [csize]. rewrite size_block by done. lia. }
  assert (parent_type doc (hole (gf :: fs) + 1) = Ok "blockContainer") as En.
  { replace (hole (gf :: fs) + 1)%Z with (inner (gf :: fs)) by (unfold hole; lia).
    by rewrite (parent_type_path _ _ _ _ (resolve_inner (gf :: fs) _ _ _ _ Ht eq_refl)). }
  assert (parent_type doc (hole (gf :: fs) - 1) = Ok "blockContainer") as Em.
  { rewrite Ehole. destruct m as [|t ma mc mms]; [done|]. cbn in Hmn. subst t.
    pose proof (resolve_between (with_right gf l (n :: f_right gf) :: fs) "blockContainer" ma mc [] mms) as Er.
    rewrite app_nil_r, Edoc in Er. change (inner (with_right gf l behind :: fs)) with (inner (with_right gf l (n :: f_right gf) :: fs)).
    unfold content_size. cbn [n_content]. by rewrite (parent_type_path _ _ _ _ (Er Ht eq_refl)). }
  destruct (lookup_describes doc Ht Hdoc) as [_ Hown].
  destruct (block_bounds (gf :: fs) n Hd Ht eq_refl) as (Hi & _).
  destruct (Hown (gf :: fs) n (hole (gf :: fs) + 1)%Z) as (b & Eb & Ebn & Ebs & Ebe & Ebd & Ebc & _).
  { done. } { done. }
  { left. cbn [n n_content]. apply typed_container in Htn as (_ & Hc & _). apply nodeSize_pos in Hc. unfold hole. lia. }
  { unfold hole. lia. }
  cbn [n n_content head] in Ebc. injection Ebc as Ebc.
  destruct (leaf_found _ _ _ _ Hleaf (Hdm behind) Ht' Hmn) as (Ep & Hd' & (la & lc & lms & ->) & Hle & Hfound).
  exists (inner fs' + nodeSize lc - 1)%Z. split; [|split; [by eexists _, _, _|done]].
  unfold BNMergeBlocks. rewrite En, Em, Eb. cbn [rbind String.eqb Ascii.eqb Bool.eqb negb orb].
  assert (match children_range b with Some r => lift doc r | None => Ok doc end =
          Ok (plug (with_right gf l behind :: fs) m)) as ->.
  { unfold children_range, child_count. rewrite Ebn, Ebs, Ebe, <- Ebc, Ebd. cbn [n n_content length].
    apply typed_container in Htn as (_ & _ & [Eg|(g & Eg & _)]).
    - rewrite Eg. cbn [length Nat.eqb]. rewrite <- Edoc. unfold behind, kids, n. by rewrite Eg.
    - rewrite Eg. cbn [length Nat.eqb]. rewrite <- Hlift by (by rewrite Eg). fold start. do 2 f_equal. f_equal. cbn. lia. }
  assert (content_size (PElem "blockContainer" la [lc] lms) = nodeSize lc) as Esize by (unfold content_size; cbn; lia).
  cbn [rbind]. rewrite Ehole. rewrite Esize in Hfound. rewrite Hfound.
  - cbn [rbind]. by rewrite Ebs, <- Ebc.
  - pose proof (inner_nonneg fs') as Hnn. rewrite <- Ep in Ht'. specialize (Hnn (typed_frames _ _ Ht')).
    apply typed_plug_inv, typed_container in Ht' as (_ & Hlc & _). apply nodeSize_pos in Hlc. lia.
Qed.

(** ** Backspace *)

Definition media_before (m : PNode) : bool :=
  existsb (content_is m) ["file"; "embed"; "video"] ||
  match n_content m with
  | c :: _ => String.eqb (n_type c) "image" && bool_decide (attr (n_attrs c) "url" = VStr "")
  | [] => false
  end.

Lemma member_eqb (x : string) l : bool_decide (x ∈ l) = existsb (String.eqb x) l.
Proof.
  induction l as [|y l IH]; [done|]. cbn [existsb]. rewrite <- IH. destruct (String.eqb_spec x y) as [->|Hne].
  - apply bool_decide_eq_true_2. set_solver.
  - apply bool_decide_ext. set_solver.
Qed.

(** The block at the end of the one before. *)
Lemma lookup_before gf fs n s l m :
  at_block gf fs n s → f_left gf = l ++ [m] → n_type m = "blockContainer" →
  ∃ b, getBlockInfoFromPos (plug (gf :: fs) n) (hole (gf :: fs) - 1) = Ok b ∧
       describes b (with_right gf l (n :: f_right gf) :: fs) m.
Proof.
  intros Hat Hl Hm. pose proof (ab_typed _ _ _ _ Hat) as Ht.
  assert (plug (gf :: fs) n = plug (with_right gf l (n :: f_right gf) :: fs) m) as E.
  { cbn [plug]. unfold fill_frame. cbn. rewrite Hl. by rewrite <- (assoc_L (++)). }
  pose proof (cursor_in_doc _ _ _ _ Hat) as Hd.
  assert (in_doc (with_right gf l (n :: f_right gf) :: fs)) as Hdm.
  { rewrite E in Ht. eapply typed_in_doc; [exact Ht|rewrite <- E; apply Hat|done]. }
  rewrite E in Ht. destruct (block_bounds _ _ Hdm Ht Hm) as (Hi & _).
  assert (0 ≤ content_size m)%Z as Hs.
  { apply csize_nonneg. apply typed_plug_inv in Ht. destruct m; [done|]. by apply typed_elem in Ht as (_ & _ & Ht). }
  assert (hole (gf :: fs) - 1 = inner (with_right gf l (n :: f_right gf) :: fs) + content_size m)%Z as Ep.
  { destruct m as [|t ma mc mms]; [done|]. cbn in Hm. subst t. unfold hole, content_size.
    cbn [inner with_right f_left n_content]. rewrite Hl, csize_app. cbn [csize]. rewrite size_block by done. lia. }
  apply (proj2 (lookup_describes _ (ab_typed _ _ _ _ Hat) (ab_doc _ _ _ _ Hat))); [done|done| |lia].
  destruct (container_inv m (typed_plug_inv _ _ Ht) Hm) as (a & c & group & ms & -> & _). right. rewrite Ep. lia.
Qed.

(** C21. At the start of an outermost block that has one before it, and is not the first
    of a list, Backspace makes a paragraph of another block; it selects media before the
    block; it deletes an empty block before one with text, and merges the block into
    the one before otherwise.  A selection is deleted, whatever it spans. *)
Theorem handleBackspace_spec lib lift gf f n s l m mg :
  at_block gf [f] n s → f_left gf = l ++ [m] → n_type m = "blockContainer" →
  can_undo_rule lib = false → attr (f_attrs gf) "listType" = VStr "div" →
  first_id (fill_frame gf [n]) ≠ block_id n →
  s_anchor s = (inner [gf; f] + 1)%Z →
  BNMergeBlocks lift (hole [gf; f]) (plug [gf; f] n) = Ok (Some mg) →
  handleBackspace lib lift (plug [gf; f] n) s = Ok
    (if negb (s_empty s) then ([DeleteSelection], true)
     else if negb (content_is n "paragraph") then ([UpdateToParagraph (s_from s)], true)
     else if media_before m then ([SelectNode (inner (with_right gf l (n :: f_right gf) :: [f]))], true)
     else if has_text n && negb (has_text m) then
       ([DeleteBlock (inner (with_right gf l (n :: f_right gf) :: [f]))], true)
     else ([MergeBlocks (hole [gf; f])], true)).
Proof.
  intros Hat Hl Hm Hundo Hlist Hfirst Ha Hmerge. facts Hat. destruct (at_group _ _ _ _ Hat) as (info & Eg & _).
  destruct (lookup_before _ _ _ _ _ _ Hat Hl Hm) as (pb & Ep & Hpb).
  destruct (at_path _ _ _ _ Hat _ (ab_anchor _ _ _ _ Hat)) as (p & Er & _ & Edep).
  destruct (at_path _ _ _ _ Hat _ (ab_from _ _ _ _ Hat)) as (pf & Erf & _ & Edepf).
  pose proof (content_type_is b [gf; f] n "paragraph" ltac:(split_and!; done)) as Epar.
  pose proof (content_type_is b [gf; f] n "image" ltac:(split_and!; done)) as Eimg.
  rewrite Ha, Z.eqb_refl in Es.
  unfold handleBackspace. rewrite Hundo. destruct (s_empty s) eqn:Ee; [|done].
  assert (∀ t, String.eqb (content_type pb) t = content_is m t) as Ept by (intros; eapply content_type_is, Hpb).
  assert (back_into_heading (plug [gf; f] n) s = pass) as ->.
  { unfold back_into_heading, getParentBlockFromPos. rewrite Es, Eb, Erf. cbn [rbind]. by rewrite Edepf. }
  assert (back_list (plug [gf; f] n) s = pass) as ->.
  { unfold back_list. rewrite Eg. cbn [rbind]. change (n_attrs (fill_frame gf [n])) with (f_attrs gf).
    rewrite Hlist. by rewrite bool_decide_eq_false_2 by congruence. }
  assert (back_media (plug [gf; f] n) s =
    if negb (content_is n "paragraph") then done_with [UpdateToParagraph (s_from s)]
    else if media_before m then done_with [SelectNode (inner (with_right gf l (n :: f_right gf) :: [f]))] else pass) as ->.
  { unfold back_media. rewrite Eb, Er. cbn [rbind]. rewrite Edep.
    replace (s_anchor s - Z.of_nat (length [f] + 2))%Z with (hole [gf; f] - 1)%Z by (rewrite Ha; unfold hole; cbn; lia).
    rewrite Ep, Es. cbn [rbind]. unfold is_paragraph. rewrite Epar, Eimg.
    destruct (content_is n "paragraph") eqn:Ec; [|done]. cbn [negb].
    assert (content_is n "image" = false) as ->.
    { unfold content_is in *. destruct (n_content n); [done|]. by apply String.eqb_eq in Ec as ->. }
    destruct Hpb as (Hpn & Hps & _ & _ & Hpc & _). rewrite Hps.
    assert (bool_decide (content_type pb ∈ ["file"; "embed"; "video"]) = existsb (content_is m) ["file"; "embed"; "video"]) as ->.
    { cbn [existsb]. rewrite <- !Ept. apply member_eqb. }
    unfold media_before. rewrite Ept. unfold content_is. destruct (n_content m) as [|mc ml]; [done|].
    injection Hpc as <-. done. }
  assert (block_before (plug [gf; f] n) s = Ok (b, fill_frame gf [n], pb, true)) as Ebb.
  { unfold block_before. rewrite Eb, Eg, Es. cbn [rbind snd]. rewrite Ebs.
    replace (inner [gf; f] - 2)%Z with (hole [gf; f] - 1)%Z by (unfold hole; lia). rewrite Ep. cbn [rbind].
    destruct Hpb as (Hpn & _). rewrite Hpn, Hm, Ebi. cbn [String.eqb Ascii.eqb Bool.eqb andb]. 
    by rewrite bool_decide_eq_true_2 by done. }
  unfold back_empty_before, back_merge, merge_at. rewrite Ebb. cbn [rbind andb].
  assert (empty_text b = negb (has_text n)) as -> by (unfold empty_text; by rewrite Ebn).
  assert (empty_text pb = negb (has_text m)) as -> by (unfold empty_text; by rewrite (proj1 Hpb)).
  rewrite Ebs. change (inner [gf; f] - 1)%Z with (hole [gf; f]). rewrite Hmerge. cbn [rbind].
  destruct Hpb as (_ & Hps & _). rewrite Hps.
  destruct (content_is n "paragraph"), (media_before m), (has_text n), (has_text m); done.
Qed.
End keys.
