(* ===== verification/EditorKeysExamples.v ===== *)
(** * The editor's groups and keys on an example

    The theorems about lists and keys at the document of [EditorExamples], and the
    corners in which a key does something else than the code says. *)
From S2P Require Import Prelude.
From S2P Require Import JsString.
From S2P Require Import JsObject.
From S2P Require Import DaemonApi.
From S2P Require Import NodeConvert.
From S2P Require Import BlockNodes.
From S2P Require Import NodeExamples.
From S2P Require Import Positions.
From S2P Require Import EditorBlocks.
From S2P Require Import EditorBlocksFacts.
From S2P Require Import EditorLookup.
From S2P Require Import EditorInsert.
From S2P Require Import EditorUpdate.
From S2P Require Import PositionsModel.
From S2P Require Import EditorExamples.
From S2P Require Import EditorGroups.
From S2P Require Import EditorGroupsFacts.
From S2P Require Import EditorKeys.
From S2P Require Import EditorKeysFacts.

Definition caret (pos : Z) : Sel := {| s_anchor := pos; s_head := pos |}.
Definition at_b : Sel := caret (inner frames_b + 1).
Definition no_lift (doc : PNode) (r : Z * Z * Z) : result PNode := Ok doc.
Definition library (lifts : bool) : Library := {| can_undo_rule := false; can_lift := lifts |}.

(** The group of the nested block, and what is around it. *)
Definition gf_b : Frame := inside (new_group []) [] [].
Definition fs_b : list Frame := inside block_a [paragraph "one"] [] :: frames_a.
Definition empty_b : PNode := container "b" (paragraph "") [].
Definition gf_c : Frame := inside (new_group []) [block_a] [].
Definition doc_f : Frame := inside example_doc [] [].
Definition block_d : PNode := container "d" (paragraph "four") [].

Ltac positions := first [by vm_compute | vm_compute; split; discriminate].
Ltac at_the_block := split; positions.

(** ** The theorems at the example *)

Lemma handleEnter_spec_witness :
  handleEnter (library true) (plug (gf_b :: fs_b) block_b) at_b = Ok ([CreateBlock (hole frames_b)], true) ∧
  handleEnter (library true) (plug (gf_b :: fs_b) empty_b) at_b = Ok ([LiftBlock], true) ∧
  handleEnter (library false) (plug (gf_b :: fs_b) empty_b) at_b =
    Ok ([LiftBlock; CreateBlock 12; SetCursor 14], true).
Proof.
  split_and!.
  - etransitivity; [apply (handleEnter_spec (library true) gf_b fs_b block_b at_b); at_the_block|by vm_compute].
  - etransitivity; [apply (handleEnter_spec (library true) gf_b fs_b empty_b at_b); at_the_block|by vm_compute].
  - etransitivity; [apply (handleEnter_spec (library false) gf_b fs_b empty_b at_b); at_the_block|by vm_compute].
Defined.

Lemma enter_creates_witness :
  BNCreateBlock block_d (hole frames_b) (plug (gf_b :: fs_b) block_b) =
    Ok (document [container "a" (paragraph "one") [block_d; block_b]; block_c]).
Proof. apply (enter_creates gf_b fs_b block_b at_b block_d); [at_the_block|by vm_compute]. Defined.

Lemma BNMergeBlocks_spec_witness :
  ∃ target, BNMergeBlocks no_lift (hole [gf_c; doc_f]) (plug [gf_c; doc_f] block_d) =
    Ok (Some {| mg_delete := (18, 24); mg_replace := (target, 18);
                mg_content := [PText "four" []]; mg_cursor := target |})%Z.
Proof.
  destruct (BNMergeBlocks_spec no_lift gf_c [doc_f] (block_attrs "d") (paragraph "four") [] [] [] block_a
              [inside (new_group []) [] []; inside block_a [paragraph "one"] [];
               with_right gf_c [] [block_d]; doc_f] block_b) as (target & E & _);
    try positions.
  - apply (leaf_below _ (block_attrs "a") (paragraph "one") (n_attrs (new_group [])) [] block_b [] []). apply leaf_here.
  - by exists target.
Defined.

Lemma handleBackspace_spec_witness :
  handleBackspace (library true) no_lift (plug [gf_c; doc_f] block_d) (caret 19) =
    Ok ([MergeBlocks (hole [gf_c; doc_f])], true).
Proof.
  refine (let E := handleBackspace_spec (library true) no_lift gf_c doc_f block_d (caret 19) [] block_a
    {| mg_delete := (18, 24); mg_replace := (13, 18); mg_content := [PText "four" []]; mg_cursor := 13 |}%Z in _).
  apply E; [at_the_block|..]; by vm_compute.
Defined.

Lemma UpdateGroupChildren_spec_witness :
  let n := container "a" (paragraph "one") [container "b" (paragraph "two") [block_d]] in
  typed (plug [gf_b; doc_f] (relevel (VStr "div") 1 1 0 n)) = true.
Proof.
  intros n. apply (UpdateGroupChildren_spec (VStr "div") 1 1 [gf_b; doc_f] n 3
    (ancestors (content_frame (block_attrs "a") [new_group [container "b" (paragraph "two") [block_d]]] [] :: [gf_b; doc_f])
       (paragraph "one"))); positions.
Defined.

Definition list_doc (level : string) : PNode :=
  plug (list_frame gf_b 3 (VStr "ul") None :: fs_b) block_b.
Lemma UpdateGroup_spec_witness :
  ∃ task, UpdateGroup (inner frames_b + 1) (inner frames_b + 1) (VStr "ul") true None false (plug (gf_b :: fs_b) block_b) =
    Ok {| up_doc := plug (list_frame gf_b 3 (VStr "ul") None :: fs_b) block_b; up_done := true; up_later := [task] |}.
Proof.
  destruct (UpdateGroup_spec (inner frames_b + 1) gf_b fs_b block_b (inner frames_b + 1) (VStr "ul") true None)
    as (task & E & _); try positions.
  - left. by vm_compute.
  - by left.
  - by exists task.
Defined.

(** ** Corners *)

(** The block that is asked for being media is found by the depth of the cursor.  That
    is the one before for an outermost block; three levels down it is one further off,
    and is selected though the block before is an empty paragraph. *)
Definition file_block : PNode := container "f" (PElem "file" [("type", VStr "file")] [] []) [].
Definition deep (before : list PNode) : list Frame :=
  [inside (new_group []) before []; inside block_a [paragraph "one"] [];
   inside (new_group []) [] []; inside block_a [paragraph "one"] []; inside (new_group []) [] []; doc_f].
Definition at_start_of (fs : list Frame) : Sel := caret (inner fs + 1).
Example media_too_far :
  let fs := deep [file_block; empty_b] in
  let top := [inside (new_group []) [file_block; empty_b] []; doc_f] in
  handleBackspace (library true) no_lift (plug fs block_d) (at_start_of fs) =
    Ok ([SelectNode (inner (deep []))], true) ∧
  handleBackspace (library true) no_lift (plug top block_d) (at_start_of top) =
    Ok ([DeleteBlock (inner [inside (new_group []) [file_block] []; doc_f])], true).
Proof. by vm_compute. Qed.

(** Enter in front of a lone inline embed: the block has no text, so that it is neither
    split nor followed by another one; nothing is done behind the embed. *)
Definition embed_block : PNode :=
  container "e" (PElem "paragraph" [("type", VStr "p")] [PElem "inline-embed" [("link", VStr "hm://d/x")] [] []] []) [].
Example enter_after_embed :
  let fs := [inside (new_group []) [] []; doc_f] in
  typed (plug fs embed_block) = true ∧
  handleEnter (library true) (plug fs embed_block) (caret (inner fs + 2)) = Ok ([], false).
Proof. by vm_compute. Qed.
