(* ===== verification/UniqueID.v ===== *)
(** * Ids of blocks

    packages/editor/src/blocknote/core/extensions/UniqueID/UniqueID.ts: the plugin that
    gives every new block an id of its own after a change, and forgets the ids of blocks
    that are pasted.  The library's documents are seen through their nodes' attributes. *)
From S2P Require Import Prelude.
From S2P Require Import JsString.
From S2P Require Import JsObject.
From S2P Require Import DaemonApi.
From S2P Require Import NodeConvert.

(** ** Duplicates *)

(** [array.filter], keeping the first item of each kind. *)
Fixpoint remove_seen {A} `{EqDecision A} (seen array : list A) : list A :=
  match array with
  | [] => []
  | item :: array' =>
      if bool_decide (item ∈ seen) then remove_seen seen array' else item :: remove_seen (item :: seen) array'
  end.
Definition removeDuplicates {A} `{EqDecision A} (array : list A) : list A := remove_seen [] array.

Fixpoint indexOf {A} `{EqDecision A} (items : list A) (el : A) : nat :=
  match items with
  | [] => 0
  | x :: items' => if decide (x = el) then 0 else S (indexOf items' el)
  end.
Definition findDuplicates {A} `{EqDecision A} (items : list A) : list A :=
  removeDuplicates (snd <$> List.filter (λ e, negb (Nat.eqb (indexOf items e.2) e.1)) (zip (seq 0 (length items)) items)).

(** ** Documents and changes *)

(** [doc.nodeAt(pos)], of which only the attributes matter, and [tr.setNodeMarkup]. *)
Class Markup (Doc : Type) : Type := {
  attrs_at : Doc → Z → option Attrs;
  setNodeMarkup : Doc → Z → Attrs → Doc;
}.
(** A change of attributes moves no node. *)
Class MarkupLaws (Doc : Type) `{Markup Doc} : Prop := {
  attrs_at_set d p a q : attrs_at (setNodeMarkup d p a) q =
    if decide (p = q) then (if attrs_at d p is Some _ then Some a else None) else attrs_at d q;
}.

(** The attribute [options.attributeName]. *)
Definition id_of (attrs : Attrs) : AttrVal := attr attrs "id".
Definition id_at {Doc} `{Markup Doc} (d : Doc) (p : Z) : AttrVal :=
  match attrs_at d p with Some a => id_of a | None => VUndef end.

(** The blocks that [findChildrenInRange] finds in a range that changed, with their
    positions in the new document. *)
Abbreviation Found := (list (Z * Attrs)).

Section plugin.
Context {Doc : Type} `{Markup Doc}.
Context {G : Type} (generateID : G → G * string).

Record Tr : Type := { t_doc : Doc; t_gen : G; t_steps : nat }.

Definition give_id (t : Tr) (pos : Z) (attrs : Attrs) : Tr :=
  let r := generateID (t_gen t) in
  {| t_doc := setNodeMarkup (t_doc t) pos (oset attrs "id" (VStr r.2)); t_gen := r.1; t_steps := S (t_steps t) |}.

(** [deleted] is [mapping.invert().mapResult(pos).deleted]: the position was not in the
    old document. *)
Definition visit_node (deleted : Z → bool) (duplicatedNewIds : list AttrVal) (t : Tr) (node : Z * Attrs) : Tr :=
  let i := id_at (t_doc t) node.1 in
  if bool_decide (i = VNull) then give_id t node.1 node.2
  else if deleted node.1 && bool_decide (i ∈ duplicatedNewIds) then give_id t node.1 node.2
  else t.
Definition newIds (newNodes : Found) : list AttrVal :=
  List.filter (λ i, negb (bool_decide (i = VNull))) ((λ n, id_of n.2) <$> newNodes).
Definition visit_change (deleted : Z → bool) (t : Tr) (newNodes : Found) : Tr :=
  fold_left (visit_node deleted (findDuplicates (newIds newNodes))) newNodes t.

(** [docChanged] of each transaction and if the option's filter passes it; [None] when
    nothing is appended. *)
Definition appendTransaction (transactions : list (bool * bool)) (sameDoc : bool) (newDoc : Doc) (g : G)
    (deleted : Z → bool) (changes : list Found) : G * option Doc :=
  let docChanges := existsb fst transactions && negb sameDoc in
  let filterTransactions := existsb (λ t, negb t.2) transactions in
  if negb docChanges || filterTransactions then (g, None)
  else
    let t := fold_left (visit_change deleted) changes {| t_doc := newDoc; t_gen := g; t_steps := 0 |} in
    (t_gen t, if Nat.eqb (t_steps t) 0 then None else Some (t_doc t)).
End plugin.
Arguments Tr : clear implicits.

(** [options.generateID] under test; otherwise ids are random. *)
Definition mockID (mock : option N) : option N * string :=
  let n := match mock with None => 0%N | Some n => (n + 1)%N end in
  (Some n, num_to_str n).

(** ** Pasted and dropped blocks *)

(** The element a drag started in, and if the ids of what is pasted are dropped. *)
Record Paste : Type := { dragSourceElement : option nat; transformPasted : bool }.
Definition new_paste : Paste := {| dragSourceElement := None; transformPasted := false |}.

Inductive DomEvent : Type :=
| DragStart (inside : bool)
| Drop (effectAllowed : option string)
| PasteEvent.
(** [parent] is the editor's own element. *)
Definition on_event (parent : nat) (e : DomEvent) (s : Paste) : Paste :=
  match e with
  | DragStart inside =>
      {| dragSourceElement := if inside then Some parent else None; transformPasted := transformPasted s |}
  | Drop effect =>
      if bool_decide (dragSourceElement s ≠ Some parent) || bool_decide (effect = Some "copy")
      then {| dragSourceElement := None; transformPasted := true |}
      else s
  | PasteEvent => {| dragSourceElement := dragSourceElement s; transformPasted := true |}
  end.

Section pasted.
Variable types : list string.

Fixpoint removeId_node (node : PNode) : PNode :=
  match node with
  | PText _ _ => node
  | PElem t a content ms =>
      PElem t (if bool_decide (t ∈ types) then oset a "id" VNull else a) (removeId_node <$> content) ms
  end.
Definition removeId (fragment : list PNode) : list PNode := removeId_node <$> fragment.

Record Slice : Type := { sl_content : list PNode; sl_openStart : nat; sl_openEnd : nat }.
Definition transform (s : Paste) (slice : Slice) : Paste * Slice :=
  if transformPasted s then
    ({| dragSourceElement := dragSourceElement s; transformPasted := false |},
     {| sl_content := removeId (sl_content slice); sl_openStart := sl_openStart slice; sl_openEnd := sl_openEnd slice |})
  else (s, slice).
End pasted.

(** * Every block has an id of its own

    What the plugin's transaction does to the ids of a document, that they are unique
    after it, and what pasting forgets. *)

(** ** Duplicates *)

Section duplicates.
Context {A : Type} `{EqDecision A}.
Implicit Types (l seen : list A) (x : A).

Lemma elem_of_remove_seen seen l x : x ∈ remove_seen seen l ↔ x ∈ l ∧ x ∉ seen.
Proof.
  revert seen. induction l as [|y l IH]; intros seen; cbn [remove_seen].
  - rewrite elem_of_nil. tauto.
  - case_bool_decide as Hy; rewrite ?elem_of_cons, IH, ?not_elem_of_cons; [naive_solver|].
    destruct (decide (x = y)); naive_solver.
Qed.
Lemma indexOf_le l x k : l !! k = Some x → indexOf l x ≤ k ∧ l !! indexOf l x = Some x.
Proof.
  revert k. induction l as [|y l IH]; intros k Hk; [done|]. cbn. case_decide as Hy; [subst; split; [lia|done]|].
  destruct k as [|k]; [cbn in Hk; congruence|]. destruct (IH k Hk). split; [lia|done].
Qed.
Lemma elem_of_enumerated l i x : (i, x) ∈ zip (seq 0 (length l)) l ↔ l !! i = Some x.
Proof.
  rewrite list_elem_of_lookup. split.
  - intros [k Hk]. apply lookup_zip_with_Some in Hk as (a & b & [= <- <-] & Ha & Hb).
    apply lookup_seq in Ha as [-> _]. done.
  - intros Hi. exists i. apply lookup_zip_with_Some. exists i, x. split_and!; [done| |done].
    apply lookup_seq. split; [lia|]. by eapply lookup_lt_Some.
Qed.
(** The items that are in the list twice. *)
Lemma elem_of_findDuplicates l x : x ∈ findDuplicates l ↔ ∃ i j, i < j ∧ l !! i = Some x ∧ l !! j = Some x.
Proof.
  unfold findDuplicates, removeDuplicates. rewrite elem_of_remove_seen, list_elem_of_fmap. split.
  - intros [([i y] & -> & He) _]. apply list_elem_of_In, filter_In in He as [He Hne].
    apply list_elem_of_In, elem_of_enumerated in He. apply negb_true_iff, Nat.eqb_neq in Hne. cbn in *.
    destruct (indexOf_le _ _ _ He). exists (indexOf l y), i. split_and!; [lia|done|done].
  - intros (i & j & Hij & Hi & Hj). split; [|set_solver]. exists (j, x). split; [done|].
    apply list_elem_of_In, filter_In. split; [by apply list_elem_of_In, elem_of_enumerated|].
    destruct (indexOf_le _ _ _ Hi). apply negb_true_iff, Nat.eqb_neq. cbn. lia.
Qed.
End duplicates.

(** ** What a transaction does *)

Section plugin.
Context {Doc : Type} `{MarkupLaws Doc}.
Context {G : Type} (generateID : G → G * string).

(** The next ids of a generator, and that they are new. *)
Fixpoint next_ids (n : nat) (g : G) : list string :=
  match n with
  | O => []
  | S k => let r := generateID g in r.2 :: next_ids k r.1
  end.
Fixpoint gen_after (n : nat) (g : G) : G :=
  match n with O => g | S k => gen_after k (generateID g).1 end.
Definition fresh (used : AttrVal → Prop) (g : G) : Prop :=
  ∀ n, NoDup (next_ids n g) ∧ ∀ i, i ∈ next_ids n g → ¬ used (VStr i).

Lemma next_ids_snoc n g : next_ids (S n) g = next_ids n g ++ [(generateID (gen_after n g)).2].
Proof. revert g. induction n as [|n IH]; intros g; [done|]. change (next_ids (S (S n)) g) with ((generateID g).2 :: next_ids (S n) (generateID g).1). by rewrite IH. Qed.
Lemma gen_after_snoc n g : gen_after (S n) g = (generateID (gen_after n g)).1.
Proof. revert g. induction n as [|n IH]; intros g; [done|]. change (gen_after (S (S n)) g) with (gen_after (S n) (generateID g).1). by rewrite IH. Qed.

Variables (deleted : Z → bool) (d0 : Doc) (g0 : G).

(** A node with the duplicates of the range it was found in. *)
Abbreviation Visit := (list AttrVal * (Z * Attrs))%type.
Definition visits (changes : list Found) : list Visit :=
  changes ≫= λ c, (findDuplicates (newIds c),.) <$> c.
Definition due (p : Z) (v : Visit) : bool :=
  Z.eqb v.2.1 p &&
  (bool_decide (id_at d0 p = VNull) || deleted p && bool_decide (id_at d0 p ∈ v.1)).
Definition renamed (vs : list Visit) (p : Z) : bool := existsb (due p) vs.

(** The state after the visits [vs]. *)
Record settled (vs : list Visit) (t : Tr Doc G) : Prop := {
  s_gen : t_gen t = gen_after (t_steps t) g0;
  s_domain : ∀ p, is_Some (attrs_at (t_doc t) p) ↔ is_Some (attrs_at d0 p);
  s_new : ∀ p, renamed vs p = true →
    ∃ i, i ∈ next_ids (t_steps t) g0 ∧ id_at (t_doc t) p = VStr i;
  s_old : ∀ p, renamed vs p = false → attrs_at (t_doc t) p = attrs_at d0 p;
  s_once : ∀ p q, renamed vs p = true → renamed vs q = true → p ≠ q →
    id_at (t_doc t) p ≠ id_at (t_doc t) q;
}.

Hypothesis Hfresh : fresh (λ v, ∃ p, id_at d0 p = v) g0.

Lemma id_of_oset a v : id_of (oset a "id" v) = v.
Proof. unfold id_of, attr. by rewrite oget_oset_eq. Qed.

Lemma renamed_snoc vs v p : renamed (vs ++ [v]) p = renamed vs p || due p v.
Proof. unfold renamed. rewrite existsb_app. cbn. by rewrite orb_false_r. Qed.

Lemma settled_give vs t v :
  settled vs t → due v.2.1 v = true → renamed vs v.2.1 = false → is_Some (attrs_at d0 v.2.1) →
  settled (vs ++ [v]) (give_id generateID t v.2.1 v.2.2).
Proof.
  intros [Hg Hd Hn Ho H1] Hdue Hr Hin. destruct (Hfresh (S (t_steps t))) as [Hnd _].
  rewrite next_ids_snoc in Hnd. apply NoDup_app in Hnd as (_ & Hnew & _).
  assert (∀ p, due p v = true → p = v.2.1) as Hp.
  { intros p. unfold due. intros [E%Z.eqb_eq _]%andb_true_iff. done. }
  assert (is_Some (attrs_at (t_doc t) v.2.1)) as [a Ha] by (by apply Hd).
  assert (id_at (t_doc (give_id generateID t v.2.1 v.2.2)) v.2.1 = VStr (generateID (gen_after (t_steps t) g0)).2) as Eid.
  { unfold id_at, give_id. cbn [t_doc]. rewrite attrs_at_set, decide_True by done. rewrite Ha, Hg. apply id_of_oset. }
  assert (∀ q, q ≠ v.2.1 → attrs_at (t_doc (give_id generateID t v.2.1 v.2.2)) q = attrs_at (t_doc t) q) as Eother.
  { intros q Hq. unfold give_id. cbn [t_doc]. by rewrite attrs_at_set, decide_False by done. }
  assert (∀ q, q ≠ v.2.1 → id_at (t_doc (give_id generateID t v.2.1 v.2.2)) q = id_at (t_doc t) q) as Eiother.
  { intros q Hq. unfold id_at. by rewrite Eother. }
  assert (∀ q, q ≠ v.2.1 → renamed (vs ++ [v]) q = renamed vs q) as Erother.
  { intros q Hq. rewrite renamed_snoc. destruct (due q v) eqn:E; [by apply Hp in E|]. apply orb_false_r. }
  split.
  - change (t_steps (give_id generateID t v.2.1 v.2.2)) with (S (t_steps t)).
    rewrite gen_after_snoc, <- Hg. done.
  - intros p. destruct (decide (p = v.2.1)) as [->|Hne]; [|by rewrite Eother].
    unfold give_id. cbn [t_doc]. rewrite attrs_at_set, decide_True by done. rewrite Ha. split; [done|by eexists].
  - intros p Hrp. change (t_steps (give_id generateID t v.2.1 v.2.2)) with (S (t_steps t)).
    rewrite next_ids_snoc. destruct (decide (p = v.2.1)) as [->|Hne].
    + eexists. split; [|exact Eid]. set_solver.
    + rewrite Erother in Hrp by done. destruct (Hn p Hrp) as (i & Hi & E). exists i. rewrite Eiother by done. set_solver.
  - intros p Hrp. rewrite renamed_snoc in Hrp. apply orb_false_iff in Hrp as [Hrp Hdp].
    destruct (decide (p = v.2.1)) as [->|Hne]; [congruence|]. rewrite Eother by done. by apply Ho.
  - assert (∀ q, renamed vs q = true → q ≠ v.2.1 →
        VStr (generateID (gen_after (t_steps t) g0)).2 ≠ id_at (t_doc t) q) as Hdiff.
    { intros q Hq Hqne. destruct (Hn q Hq) as (i & Hi & ->). intros [= E]. subst i. by apply (Hnew _ Hi), list_elem_of_singleton. }
    intros p q Hrp Hrq Hpq. destruct (decide (p = v.2.1)) as [->|Hne].
    + rewrite Eid, Eiother by done. rewrite Erother in Hrq by done. by apply Hdiff.
    + rewrite Erother in Hrp by done. rewrite (Eiother p) by done. destruct (decide (q = v.2.1)) as [->|Hqne].
      * rewrite Eid. intros E. symmetry in E. by apply Hdiff in E.
      * rewrite Eiother by done. rewrite Erother in Hrq by done. by apply H1.
Qed.

Lemma settled_skip vs t v :
  settled vs t → (due v.2.1 v = true → renamed vs v.2.1 = true) → settled (vs ++ [v]) t.
Proof.
  intros [Hg Hd Hn Ho H1] Hs.
  assert (∀ p, renamed (vs ++ [v]) p = renamed vs p) as E.
  { intros p. rewrite renamed_snoc. destruct (due p v) eqn:Ep; [|apply orb_false_r].
    assert (p = v.2.1) as ->; [|rewrite Hs; done].
    unfold due in Ep. by apply andb_true_iff in Ep as [Ep%Z.eqb_eq _]. }
  split; [done|done|..]; intros *; rewrite ?E; auto.
Qed.

(** A node's id is looked at as it is by then. *)
Lemma settled_visit vs t v :
  settled vs t → is_Some (attrs_at d0 v.2.1) → (∀ i, i ∈ v.1 → ∃ p, id_at d0 p = i) →
  settled (vs ++ [v]) (visit_node generateID deleted v.1 t v.2).
Proof.
  intros Hs Hin Hdup. unfold visit_node. destruct (renamed vs v.2.1) eqn:Er.
  - destruct (s_new _ _ Hs _ Er) as (i & Hi & E). rewrite E, bool_decide_eq_false_2 by done.
    rewrite (bool_decide_eq_false_2 (VStr i ∈ v.1)).
    + rewrite andb_false_r. by apply settled_skip.
    + intros Hv. destruct (Hfresh (t_steps t)) as [_ Hf]. by apply (Hf i Hi), Hdup.
  - assert (id_at (t_doc t) v.2.1 = id_at d0 v.2.1) as -> by (unfold id_at; by rewrite (s_old _ _ Hs) by done).
    destruct (due v.2.1 v) eqn:Ed.
    + assert (settled (vs ++ [v]) (give_id generateID t v.2.1 v.2.2)) as Hg by by apply settled_give.
      unfold due in Ed. rewrite Z.eqb_refl in Ed. cbn [andb] in Ed.
      case_bool_decide as Hnull; [done|]. cbn [orb] in Ed. by rewrite Ed.
    + assert (settled (vs ++ [v]) t) as Hg by (apply settled_skip; [done|congruence]).
      unfold due in Ed. rewrite Z.eqb_refl in Ed. cbn [andb] in Ed.
      case_bool_decide as Hnull; [done|]. cbn [orb] in Ed. by rewrite Ed.
Qed.

Lemma settled_start : settled [] {| t_doc := d0; t_gen := g0; t_steps := 0 |}.
Proof. split; try done. Qed.

Definition found_in (changes : list Found) : Prop :=
  ∀ c p a, c ∈ changes → (p, a) ∈ c → attrs_at d0 p = Some a.

Lemma elem_of_newIds c i : i ∈ newIds c ↔ i ≠ VNull ∧ ∃ p a, (p, a) ∈ c ∧ id_of a = i.
Proof.
  unfold newIds. rewrite list_elem_of_In, filter_In, <- list_elem_of_In, list_elem_of_fmap, negb_true_iff, bool_decide_eq_false.
  split; [intros [([p a] & -> & Hc) Hi]; eauto 6|intros (Hi & p & a & Hc & <-); split; [exists (p, a)|]; done].
Qed.

Lemma settled_nodes dups l vs t :
  settled vs t → (∀ p a, (p, a) ∈ l → attrs_at d0 p = Some a) → (∀ i, i ∈ dups → ∃ p, id_at d0 p = i) →
  settled (vs ++ ((dups,.) <$> l)) (fold_left (visit_node generateID deleted dups) l t).
Proof.
  revert vs t. induction l as [|[p a] l IH]; intros vs t Hs Hl Hd; cbn; [by rewrite app_nil_r|].
  rewrite cons_middle, (assoc_L (++)). apply IH; [|intros q b Hq; apply Hl; by right|done].
  apply (settled_visit vs t (dups, (p, a))); [done| |done]. exists a. apply Hl. by left.
Qed.
Lemma settled_changes changes : found_in changes →
  settled (visits changes) (fold_left (visit_change generateID deleted) changes {| t_doc := d0; t_gen := g0; t_steps := 0 |}).
Proof.
  intros Hf. change (visits changes) with ([] ++ visits changes).
  generalize settled_start. generalize {| t_doc := d0; t_gen := g0; t_steps := 0 |}. generalize (@nil Visit).
  induction changes as [|c changes IH]; intros vs t Hs; cbn; [by rewrite app_nil_r|].
  rewrite (assoc_L (++)). apply IH; [intros c' p a Hc; apply Hf; by right|].
  apply settled_nodes; [done|intros p a Hp; by apply (Hf c); [left|]|].
  intros i (j & k & _ & Hj%list_elem_of_lookup_2 & _)%elem_of_findDuplicates.
  apply elem_of_newIds in Hj as (_ & p & a & Hp & <-). exists p. unfold id_at. by rewrite (Hf c p a) by (left || done).
Qed.

(** Two nodes of a range with one id make it a duplicate. *)
Lemma found_twice c p q a b : (p, a) ∈ c → (q, b) ∈ c → p ≠ q → id_of a = id_of b → id_of a ≠ VNull →
  id_of a ∈ findDuplicates (newIds c).
Proof.
  intros Hp Hq Hne Hab Hn. apply elem_of_findDuplicates.
  assert (∃ l1 x l2 y l3, c = l1 ++ x :: l2 ++ y :: l3 ∧ id_of x.2 = id_of a ∧ id_of y.2 = id_of a)
    as (l1 & x & l2 & y & l3 & -> & Hx & Hy).
  { apply list_elem_of_split in Hp as (l & r & ->). apply elem_of_app in Hq as [Hq|Hq].
    - apply list_elem_of_split in Hq as (l1 & l2 & ->). exists l1, (q, b), l2, (p, a), r.
      split; [by rewrite <- (assoc_L (++))|]. by rewrite Hab.
    - apply elem_of_cons in Hq as [[= -> ->]|Hq]; [done|]. apply list_elem_of_split in Hq as (l2 & l3 & ->).
      exists l, (p, a), l2, (q, b), l3. by rewrite Hab. }
  unfold newIds. rewrite !fmap_app, !fmap_cons, !fmap_app, fmap_cons, !List.filter_app. cbn [List.filter].
  rewrite !List.filter_app. cbn [List.filter]. rewrite Hx, Hy, bool_decide_eq_false_2 by done. cbn [negb].
  set (m1 := List.filter _ (_ <$> l1)). set (m2 := List.filter _ (_ <$> l2)).
  exists (length m1), (length m1 + S (length m2)). split_and!; [lia| |].
  - by rewrite lookup_app_r, Nat.sub_diag by lia.
  - rewrite lookup_app_r by lia. replace (length m1 + S (length m2) - length m1) with (S (length m2)) by lia.
    rewrite lookup_cons. by rewrite lookup_app_r, Nat.sub_diag by lia.
Qed.

Lemma renamed_visits changes c p a :
  c ∈ changes → (p, a) ∈ c → id_at d0 p = VNull ∨ deleted p = true ∧ id_at d0 p ∈ findDuplicates (newIds c) →
  renamed (visits changes) p = true.
Proof.
  intros Hc Hp Hd. unfold renamed. apply existsb_exists. exists (findDuplicates (newIds c), (p, a)). split.
  - apply list_elem_of_In. unfold visits. apply list_elem_of_bind. exists c. split; [|done].
    apply list_elem_of_fmap. by exists (p, a).
  - unfold due. cbn. rewrite Z.eqb_refl. destruct Hd as [->|[-> Hd]]; [done|].
    rewrite (bool_decide_eq_true_2 (_ ∈ _)) by done. by rewrite orb_true_r.
Qed.

(** The blocks that are given an id: those of a range that changed without one, and those
    that are new and have one that is twice in their range. *)
Definition gets_id (changes : list Found) (p : Z) : Prop :=
  ∃ c a, c ∈ changes ∧ (p, a) ∈ c ∧
    (id_of a = VNull ∨ deleted p = true ∧ id_of a ∈ findDuplicates (newIds c)).
Lemma gets_id_renamed changes p : found_in changes → gets_id changes p ↔ renamed (visits changes) p = true.
Proof.
  intros Hf. split.
  - intros (c & a & Hc & Ha & Hor). apply (renamed_visits changes c p a Hc Ha).
    assert (id_at d0 p = id_of a) as -> by (unfold id_at; by rewrite (Hf c p a Hc Ha)). done.
  - intros Hr. unfold renamed in Hr. apply existsb_exists in Hr as (v & Hv%list_elem_of_In & Hdue).
    unfold visits in Hv. apply list_elem_of_bind in Hv as (c & Hv & Hc).
    apply list_elem_of_fmap in Hv as ([q a] & -> & Ha). unfold due in Hdue. cbn in Hdue.
    apply andb_true_iff in Hdue as [->%Z.eqb_eq Hdue]. exists c, a. split; [done|]. split; [done|].
    assert (id_at d0 p = id_of a) as <- by (unfold id_at; by rewrite (Hf c p a Hc Ha)).
    apply orb_true_iff in Hdue as [Hn%bool_decide_eq_true|[Hd Hn%bool_decide_eq_true]%andb_true_iff]; auto.
Qed.
Lemma appended_doc transactions changes :
  existsb fst transactions = true → forallb snd transactions = true → found_in changes →
  ∃ t, settled (visits changes) t ∧
    ∀ p, attrs_at (default d0 (appendTransaction generateID transactions false d0 g0 deleted changes).2) p = attrs_at (t_doc t) p.
Proof.
  intros Hch Hpass Hf. pose proof (settled_changes changes Hf) as Hs. set (t := fold_left _ _ _) in Hs.
  exists t. split; [done|]. intros p. unfold appendTransaction. rewrite Hch.
  assert (existsb (λ t, negb t.2) transactions = false) as ->.
  { clear -Hpass. induction transactions as [|x l IH]; [done|]. cbn in *. apply andb_true_iff in Hpass as [-> Hl]. by apply IH. }
  cbn [negb andb orb snd]. fold t. destruct (Nat.eqb_spec (t_steps t) 0) as [E|]; [|done].
  destruct (renamed (visits changes) p) eqn:Er.
  - destruct (s_new _ _ Hs p Er) as (i & Hi & _). rewrite E in Hi. by apply elem_of_nil in Hi.
  - cbn. symmetry. by apply (s_old _ _ Hs).
Qed.

(** C7. What a change of the document does to the ids of the blocks.  Those that are given
    one ([gets_id]: of a range that changed, without an id, or new and with an id that is
    twice in that range) get one that no block had; all others keep their attributes.  So
    two blocks have the same id afterwards exactly if they had it before and neither was
    given another.  All blocks have ids of their own if the blocks without one are in the
    ranges that changed, and any two blocks with one id are in a range together and one of
    them is new; a new block with the id of a block outside of its range keeps it
    ([same_id_elsewhere]).  The generated ids are expected to be new. *)
Theorem ids_unique transactions changes :
  existsb fst transactions = true → forallb snd transactions = true → found_in changes →
  let d := default d0 (appendTransaction generateID transactions false d0 g0 deleted changes).2 in
  (∀ p, gets_id changes p → ∃ i, id_at d p = VStr i ∧ ∀ q, id_at d0 q ≠ VStr i) ∧
  (∀ p, ¬ gets_id changes p → attrs_at d p = attrs_at d0 p) ∧
  (∀ p q, p ≠ q →
     id_at d p = id_at d q ↔ id_at d0 p = id_at d0 q ∧ ¬ gets_id changes p ∧ ¬ gets_id changes q) ∧
  (∀ blocks : list Z,
     (∀ p, p ∈ blocks → id_at d0 p = VNull → ∃ c a, c ∈ changes ∧ (p, a) ∈ c) →
     (∀ p q, p ∈ blocks → q ∈ blocks → p ≠ q → id_at d0 p = id_at d0 q → id_at d0 p ≠ VNull →
        ∃ c a b, c ∈ changes ∧ (p, a) ∈ c ∧ (q, b) ∈ c ∧ (deleted p = true ∨ deleted q = true)) →
     (∀ p, p ∈ blocks → id_at d p ≠ VNull) ∧
     (∀ p q, p ∈ blocks → q ∈ blocks → p ≠ q → id_at d p ≠ id_at d q)).
Proof.
  intros Hch Hpass Hf d. destruct (appended_doc transactions changes Hch Hpass Hf) as (t & Hs & Ed). fold d in Ed.
  assert (∀ p, id_at d p = id_at (t_doc t) p) as Ei by (intros p; unfold id_at; by rewrite Ed).
  assert (∀ p, ¬ gets_id changes p → attrs_at d p = attrs_at d0 p) as Ho.
  { intros p Hp. rewrite gets_id_renamed in Hp by done. rewrite Ed. apply (s_old _ _ Hs). by destruct (renamed _ p). }
  assert (∀ p, gets_id changes p → ∃ i, id_at d p = VStr i ∧ ∀ q, id_at d0 q ≠ VStr i) as Hn.
  { intros p Hp. rewrite gets_id_renamed in Hp by done. destruct (s_new _ _ Hs p Hp) as (i & Hi & E). exists i.
    rewrite Ei. split; [done|]. intros q E'. destruct (Hfresh (t_steps t)) as [_ Hi']. apply (Hi' i Hi). by exists q. }
  assert (∀ p, gets_id changes p ∨ ¬ gets_id changes p) as Hdec.
  { intros p. rewrite gets_id_renamed by done. destruct (renamed _ p); auto. }
  assert (∀ p q, p ≠ q →
    id_at d p = id_at d q ↔ id_at d0 p = id_at d0 q ∧ ¬ gets_id changes p ∧ ¬ gets_id changes q) as Heq.
  { assert (∀ p, ¬ gets_id changes p → id_at d p = id_at d0 p) as Eo by (intros p Hp; unfold id_at; by rewrite Ho).
    intros p q Hne. split; [|intros (E & Hp & Hq); by rewrite !Eo].
    intros E. destruct (Hdec p) as [Hp|Hp], (Hdec q) as [Hq|Hq].
    - exfalso. apply gets_id_renamed in Hp, Hq; [|done..]. apply (s_once _ _ Hs p q Hp Hq Hne). by rewrite <- !Ei.
    - exfalso. destruct (Hn p Hp) as (i & Hi & Hi'). apply (Hi' q). by rewrite <- Eo, <- E.
    - exfalso. destruct (Hn q Hq) as (i & Hi & Hi'). apply (Hi' p). by rewrite <- Eo, E.
    - by rewrite <- (Eo p), <- (Eo q). }
  split; [done|]. split; [done|]. split; [done|]. intros blocks Hnull Hdup. split.
  - intros p Hp. destruct (Hdec p) as [Hg|Hg]; [by destruct (Hn p Hg) as (i & -> & _)|].
    unfold id_at at 1. rewrite (Ho p Hg). intros E. destruct (Hnull p Hp E) as (c & a & Hc & Ha). apply Hg.
    exists c, a. split; [done|]. split; [done|]. left. unfold id_at in E. by rewrite (Hf c p a Hc Ha) in E.
  - intros p q Hp Hq Hne E. apply Heq in E as (E & Hgp & Hgq); [|done].
    assert (∀ p c a, c ∈ changes → (p, a) ∈ c → id_at d0 p = id_of a) as Ea
      by (intros x c a Hc Ha; unfold id_at; by rewrite (Hf c x a Hc Ha)).
    destruct (decide (id_at d0 p = VNull)) as [En|Hn0].
    { destruct (Hnull p Hp En) as (c & a & Hc & Ha). apply Hgp. exists c, a. split; [done|]. split; [done|]. left.
      by rewrite <- (Ea p c a). }
    destruct (Hdup p q Hp Hq Hne E Hn0) as (c & a & b & Hc & Ha & Hb & Hdel).
    assert (id_of a = id_of b) as Eab by (rewrite <- (Ea p c a), <- (Ea q c b); done).
    assert (id_of a ∈ findDuplicates (newIds c)) as Hd.
    { apply (found_twice c p q a b); [done|done|done|done|]. by rewrite <- (Ea p c a). }
    destruct Hdel as [Hdel|Hdel]; [apply Hgp; exists c, a|apply Hgq; exists c, b]; (split; [done|]); (split; [done|]);
      right; (split; [done|]); [done|by rewrite <- Eab].
Qed.
End plugin.

(** ** The ids under test *)

Lemma num_to_str_inj n m : num_to_str n = num_to_str m → n = m.
Proof. intros E. apply (f_equal digits_value) in E. rewrite !digits_value_num_to_str in E. congruence. Qed.

Definition mock_next (mock : option N) : N := match mock with None => 0%N | Some n => (n + 1)%N end.
(** They are the numbers in a row. *)
Lemma mock_ids n mock : next_ids mockID n mock = (λ k, num_to_str (mock_next mock + N.of_nat k)) <$> seq 0 n.
Proof.
  revert mock. induction n as [|n IH]; intros mock; [done|].
  change (next_ids mockID (S n) mock) with (num_to_str (mock_next mock) :: next_ids mockID n (Some (mock_next mock))).
  cbn [seq fmap list_fmap]. f_equal; [f_equal; lia|]. rewrite IH, <- (fmap_S_seq 0), <- list_fmap_compose.
  apply list_fmap_ext. intros i k _. cbn. f_equal. lia.
Qed.
Lemma mock_fresh (used : AttrVal → Prop) mock :
  (∀ n, used (VStr (num_to_str n)) → (n < mock_next mock)%N) → fresh mockID used mock.
Proof.
  intros Hu n. rewrite mock_ids. split.
  - apply NoDup_fmap_2_strong, NoDup_seq. intros j k _ _ E%num_to_str_inj. lia.
  - intros i (k & -> & _)%list_elem_of_fmap Hi%Hu. lia.
Qed.

(** ** What pasting forgets *)

(** The node at a path of child numbers. *)
Fixpoint at_path (path : list nat) (n : PNode) : option PNode :=
  match path with
  | [] => Some n
  | i :: path' =>
      match n with
      | PText _ _ => None
      | PElem _ _ content _ => c ← content !! i; at_path path' c
      end
  end.
(** A node that is the same but for its id, which is gone if it is of the types. *)
Definition forgotten (types : list string) (n m : PNode) : Prop :=
  n_type m = n_type n ∧ n_marks m = n_marks n ∧ length (n_content m) = length (n_content n) ∧
  (∀ key, key ≠ "id" → attr (n_attrs m) key = attr (n_attrs n) key) ∧
  match n with
  | PText _ _ => m = n
  | PElem t a _ _ => id_of (n_attrs m) = if bool_decide (t ∈ types) then VNull else id_of a
  end.

Lemma removeId_at types path n :
  option_Forall2 (forgotten types) (at_path path n) (at_path path (removeId_node types n)).
Proof.
  revert n. induction path as [|i path IH]; intros n; cbn [at_path].
  - constructor. destruct n as [s ms|t a c ms]; [by split_and!|].
    unfold forgotten. cbn [removeId_node n_type n_marks n_content n_attrs]. rewrite length_fmap.
    split_and!; try done; [intros key Hk|]; case_bool_decide; try done.
    + unfold attr. by rewrite oget_oset_ne.
    + unfold id_of, attr. by rewrite oget_oset_eq.
  - destruct n as [s ms|t a c ms]; [constructor|]. cbn [removeId_node].
    rewrite list_lookup_fmap. destruct (c !! i) as [k|]; cbn; [apply IH|constructor].
Qed.

(** A slice that is pasted, or dropped from elsewhere or as a copy, comes in without
    the ids of its blocks and is otherwise the same; that holds for it alone.  A slice
    that is dragged to another place of the editor keeps them. *)
Theorem paste_forgets types parent s e slice :
  let r := transform types (on_event parent e s) slice in
  (match e with
   | PasteEvent => True
   | Drop effect => dragSourceElement s ≠ Some parent ∨ effect = Some "copy"
   | DragStart _ => transformPasted s = true
   end →
   length (sl_content r.2) = length (sl_content slice) ∧
   (∀ i path, option_Forall2 (forgotten types) (n ← sl_content slice !! i; at_path path n)
                                               (n ← sl_content r.2 !! i; at_path path n)) ∧
   transformPasted r.1 = false ∧ ∀ slice', transform types r.1 slice' = (r.1, slice')) ∧
  (transformPasted s = false → ∀ effect, effect ≠ Some "copy" →
   transform types (on_event parent (Drop effect) (on_event parent (DragStart true) s)) slice =
     (on_event parent (DragStart true) s, slice)).
Proof.
  intros r. split.
  - intros He. assert (transformPasted (on_event parent e s) = true) as Ht.
    { destruct e as [inside|effect|]; [done| |done]. cbn [on_event].
      destruct He as [He| ->]; [by rewrite bool_decide_eq_true_2|by rewrite (bool_decide_eq_true_2 (Some "copy" = _)), orb_true_r]. }
    unfold r, transform. rewrite Ht. cbn [fst snd sl_content transformPasted]. split; [by unfold removeId; rewrite length_fmap|].
    split; [|done]. intros i path. unfold removeId. rewrite list_lookup_fmap.
    destruct (sl_content slice !! i) as [n|]; cbn; [apply removeId_at|constructor].
  - intros Hs effect He. unfold transform. cbn [on_event dragSourceElement].
    rewrite (bool_decide_eq_false_2 (Some parent ≠ Some parent)) by tauto. rewrite (bool_decide_eq_false_2 (effect = _)) by done.
    cbn [orb transformPasted]. by rewrite Hs.
Qed.

(** ** An example *)

#[export] Instance map_markup : Markup (gmap Z Attrs) :=
  {| attrs_at := λ d p, d !! p; setNodeMarkup := λ d p a, if d !! p is Some _ then <[p:=a]> d else d |}.
#[export] Instance map_markup_laws : MarkupLaws (gmap Z Attrs).
Proof.
  split. intros d p a q. cbn. destruct (d !! p) as [b|] eqn:E; case_decide as Hq; subst.
  - by rewrite lookup_insert_eq.
  - by rewrite lookup_insert_ne.
  - done.
  - done.
Qed.

Definition block (i : AttrVal) : Attrs := [("id", i)].
(** Two halves of a block that was split, and a new one. *)
Definition split_doc : gmap Z Attrs := {[ 2%Z := block (VStr "a"); 9%Z := block (VStr "a"); 14%Z := block VNull ]}.
Definition split_changes : list Found := [[(2%Z, block (VStr "a")); (9%Z, block (VStr "a")); (14%Z, block VNull)]].
Definition after_first (p : Z) : bool := (2 <? p)%Z.

Lemma split_doc_ids p : id_at split_doc p = VUndef ∨ p = 2%Z ∨ p = 9%Z ∨ p = 14%Z.
Proof.
  unfold id_at, split_doc. cbn [attrs_at map_markup].
  destruct (decide (p = 2%Z)); [tauto|]. destruct (decide (p = 9%Z)); [tauto|]. destruct (decide (p = 14%Z)); [tauto|].
  rewrite !lookup_insert_ne, lookup_singleton_ne by done. by left.
Qed.

Lemma split_doc_no_num p n : id_at split_doc p ≠ VStr (num_to_str n).
Proof.
  pose proof (num_to_str_digits n) as Hd.
  destruct (split_doc_ids p) as [->|[->|[->| ->]]]; [done|..|done];
    change (VStr "a" ≠ VStr (num_to_str n)); intros [= E]; rewrite <- E in Hd; by vm_compute in Hd.
Qed.

Lemma ids_unique_witness :
  let d := default split_doc (appendTransaction mockID [(true, true)] false split_doc None after_first split_changes).2 in
  (id_at d 2, id_at d 9, id_at d 14) = (VStr "a", VStr "0", VStr "1") ∧
  (∀ p q, p ∈ [2; 9; 14]%Z → q ∈ [2; 9; 14]%Z → p ≠ q → id_at d p ≠ id_at d q).
Proof.
  split; [by vm_compute|].
  refine (proj2 (proj2 (proj2 (proj2 (ids_unique mockID after_first split_doc None _ [(true, true)] split_changes _ _ _))) [2; 9; 14]%Z _ _)).
  - apply mock_fresh. intros n (p & Hp). by apply split_doc_no_num in Hp.
  - done.
  - done.
  - intros c p a Hc%list_elem_of_singleton Hp. subst c.
    repeat (apply elem_of_cons in Hp as [[= -> ->]|Hp]; [by vm_compute|]). by apply elem_of_nil in Hp.
  - intros p Hp Hn. exists (nth 0 split_changes []), (block VNull). split; [by left|].
    repeat (apply elem_of_cons in Hp as [->|Hp]; [first [by vm_compute in Hn|do 2 right; by left]|]). by apply elem_of_nil in Hp.
  - intros p q Hp Hq Hne E Hn. exists (nth 0 split_changes []), (block (VStr "a")), (block (VStr "a")).
    rewrite !elem_of_cons, elem_of_nil in Hp, Hq.
    destruct Hp as [->|[->|[->|[]]]], Hq as [->|[->|[->|[]]]]; try done; split_and!;
      first [by left|by (right; left)|by right].
Defined.

Lemma paste_forgets_witness :
  let n := PElem "blockContainer" (block (VStr "a")) [PElem "paragraph" [] [PText "x" []] []] [] in
  let slice := {| sl_content := [n]; sl_openStart := 0; sl_openEnd := 0 |} in
  option_Forall2 (forgotten ["blockContainer"]) (Some n)
    (m ← sl_content (transform ["blockContainer"] (on_event 1 PasteEvent new_paste) slice).2 !! 0; Some m).
Proof.
  intros n slice.
  exact (proj1 (proj2 (proj1 (paste_forgets ["blockContainer"] 1 new_paste PasteEvent slice) I)) 0 []).
Defined.

(** Only the blocks of the range that changed are looked at: a new block with the id of
    one that did not change keeps it. *)
Example same_id_elsewhere :
  let doc : gmap Z Attrs := {[ 2%Z := block (VStr "a"); 9%Z := block (VStr "a") ]} in
  appendTransaction mockID [(true, true)] false doc None after_first [[(9%Z, block (VStr "a"))]] = (None, None).
Proof. by vm_compute. Qed.
(** When both blocks with an id are new, neither keeps it. *)
Example both_new :
  let doc : gmap Z Attrs := {[ 2%Z := block (VStr "a"); 9%Z := block (VStr "a") ]} in
  (λ d, (id_at d 2, id_at d 9)) <$> (appendTransaction mockID [(true, true)] false doc None (λ _, true)
    [[(2%Z, block (VStr "a")); (9%Z, block (VStr "a"))]]).2 = Some (VStr "0", VStr "1").
Proof. by vm_compute. Qed.
