(* ===== verification/Dates.v ===== *)
(** * Dates in lists

    packages/shared/src/utils/date.ts.  A date is its fields in local time, which is all
    that the code looks at; how the engine parses a date and formats a number of units,
    and the other formats, are parameters. *)
From S2P Require Import Prelude.
From S2P Require Import JsString.
Local Open Scope Z_scope.

Record Civil : Type := { year : Z; month : Z; day : Z; hours : Z; minutes : Z; seconds : Z }.
(** A [Date], which may be invalid. *)
Abbreviation JsDate := (option Civil).

(** ** [Date.UTC] *)

Definition is_leap (y : Z) : bool := (y mod 4 =? 0) && (negb (y mod 100 =? 0) || (y mod 400 =? 0)).
(** The days from 1970 to the first of a year, and from there to the first of a month. *)
Definition day_from_year (y : Z) : Z := 365 * (y - 1970) + (y - 1969) / 4 - (y - 1901) / 100 + (y - 1601) / 400.
Definition month_starts : list Z := [0; 31; 59; 90; 120; 151; 181; 212; 243; 273; 304; 334; 365].
Definition day_in_year (y m : Z) : Z :=
  nth (Z.to_nat m) month_starts 0 + (if (1 <? m) && is_leap y then 1 else 0).
Definition days (y m d : Z) : Z := day_from_year y + day_in_year y m + d - 1.
(** The years of two digits are of the last century. *)
Definition full_year (y : Z) : Z := if (0 <=? y) && (y <=? 99) then 1900 + y else y.
Definition minute_ms : Z := 1000 * 60.
Definition hour_ms : Z := 1000 * 60 * 60.
Definition day_ms : Z := 1000 * 60 * 60 * 24.
Definition year_ms : Z := 1000 * 60 * 60 * 24 * 30 * 12.
Definition UTC (c : Civil) : Z :=
  days (full_year (year c)) (month c) (day c) * day_ms + hours c * hour_ms + minutes c * minute_ms.

(** [difference], in milliseconds; the code's numbers are this divided by a unit. *)
Definition difference (date1 date2 : Civil) : Z := UTC date1 - UTC date2.

(** ** Relative dates *)

(** The arguments of [formatter.format]; [None] is just now.  The comparisons are of the
    quotients, and the floors exact, for the difference is one of whole minutes. *)
Definition relative (d : Z) : option (Z * string) :=
  if d <? - year_ms then Some (d / year_ms, "year")
  else if d <? - 30 * day_ms then Some (d / (day_ms * 30), "month")
  else if d <? - day_ms then Some (d / day_ms, "day")
  else if d <? - hour_ms then Some (d / hour_ms, "hour")
  else if d <? -2 * minute_ms then Some (d / minute_ms, "minute")
  else None.

Definition months : list string :=
  ["Jan"; "Feb"; "Mar"; "Apr"; "May"; "Jun"; "Jul"; "Aug"; "Sep"; "Oct"; "Nov"; "Dec"].
Definition month_name (m : Z) : string := nth (Z.to_nat m) months "undefined".
Definition int_str (n : Z) : string :=
  if n <? 0 then "-" +:+ num_to_str (Z.to_N (- n)) else num_to_str (Z.to_N n).

Inductive Value : Type :=
| Undefined
| Str (s : string)
| ADate (d : JsDate)
| ATimestamp (d : JsDate).

Section formats.
Variables (parse : string → JsDate) (format : Z → string → string).

Definition normalizeDate (value : Value) : option JsDate :=
  match value with
  | Undefined => None
  | Str s => Some (parse s)
  | ADate d => Some d
  | ATimestamp d => Some d
  end.

Definition relative_str (r : option (Z * string)) : string :=
  match r with Some (n, u) => format n u | None => "just now" end.
(** Every comparison with an invalid date is false, and its fields are not numbers. *)
Definition relativeFormattedDate (now : Civil) (value : Value) (onlyRelative : bool) : string :=
  match normalizeDate value with
  | None => ""
  | Some None => if onlyRelative then "just now" else "NaN undefined"
  | Some (Some date) =>
      let d := difference date now in
      let rel := relative_str (relative d) in
      if onlyRelative then rel
      else if d <? - year_ms then
        month_name (month date) +:+ " " +:+ int_str (day date) +:+ ", " +:+ int_str (year date)
      else if - day_ms <? d then rel
      else int_str (day date) +:+ " " +:+ month_name (month date)
  end.

(** [hasRelativeDate] says if the engine has relative formats. *)
Definition formattedDate (hasRelativeDate : bool) (toLocaleDateString : JsDate → string) (now : Civil)
    (value : Value) (onlyRelative : bool) : string :=
  match normalizeDate value with
  | None => ""
  | Some date =>
      if hasRelativeDate then relativeFormattedDate now (ADate date) onlyRelative
      else toLocaleDateString date
  end.
(** [formattedDateLong] and [formattedDateMedium], with the formats of the library. *)
Definition formatted_with (libraryFormat : JsDate → string) (value : Value) : string :=
  match normalizeDate value with
  | None => ""
  | Some date => libraryFormat date
  end.
End formats.

(** ** The order of dates *)

Definition month_days (y m : Z) : Z := day_in_year y (m + 1) - day_in_year y m.
Record valid (c : Civil) : Prop := {
  v_year : 99 < year c;
  v_month : 0 <= month c < 12;
  v_day : 1 <= day c <= month_days (year c) (month c);
  v_hours : 0 <= hours c < 24;
  v_minutes : 0 <= minutes c < 60;
}.
(** To the minute. *)
Definition earlier (a b : Civil) : Prop :=
  year a < year b ∨ year a = year b ∧
  (month a < month b ∨ month a = month b ∧
  (day a < day b ∨ day a = day b ∧
  (hours a < hours b ∨ hours a = hours b ∧ minutes a < minutes b))).

Lemma year_length y : day_from_year (y + 1) - day_from_year y = 365 + (if is_leap y then 1 else 0).
Proof.
  unfold day_from_year, is_leap.
  assert (∀ k n, 0 < n → (y + 1 - (k + 1)) / n - (y - (k + 1)) / n = if (y - k) mod n =? 0 then 1 else 0) as Hstep.
  { intros k n Hn. pose proof (Z.div_mod (y - k) n ltac:(lia)) as E. pose proof (Z.mod_pos_bound (y - k) n Hn) as Hb.
    replace (y + 1 - (k + 1)) with (y - k) by lia. replace (y - (k + 1)) with (y - k - 1) by lia.
    set (q := (y - k) / n) in *. set (r := (y - k) mod n) in *. destruct (Z.eqb_spec r 0) as [Hr|Hr].
    - assert ((y - k - 1) / n = q - 1) as ->; [|lia]. symmetry. apply Z.div_unique_pos with (r := n - 1); lia.
    - assert ((y - k - 1) / n = q) as ->; [|lia]. symmetry. apply Z.div_unique_pos with (r := r - 1); lia. }
  pose proof (Hstep 1968 4 ltac:(lia)) as H4. pose proof (Hstep 1900 100 ltac:(lia)) as H100.
  pose proof (Hstep 1600 400 ltac:(lia)) as H400. change (1968 + 1) with 1969 in H4. change (1900 + 1) with 1901 in H100. change (1600 + 1) with 1601 in H400.
  assert ((y - 1968) mod 4 = y mod 4) as E4 by (replace (y - 1968) with (y + (-492) * 4) by lia; apply Z_mod_plus_full).
  assert ((y - 1900) mod 100 = y mod 100) as E100 by (replace (y - 1900) with (y + (-19) * 100) by lia; apply Z_mod_plus_full).
  assert ((y - 1600) mod 400 = y mod 400) as E400 by (replace (y - 1600) with (y + (-4) * 400) by lia; apply Z_mod_plus_full).
  rewrite E4 in H4. rewrite E100 in H100. rewrite E400 in H400.
  pose proof (Z.div_mod y 4 ltac:(lia)). pose proof (Z.div_mod y 100 ltac:(lia)). pose proof (Z.div_mod y 400 ltac:(lia)).
  pose proof (Z.mod_pos_bound y 4 ltac:(lia)). pose proof (Z.mod_pos_bound y 100 ltac:(lia)). pose proof (Z.mod_pos_bound y 400 ltac:(lia)).
  revert H4 H100 H400. destruct (Z.eqb_spec (y mod 4) 0), (Z.eqb_spec (y mod 100) 0), (Z.eqb_spec (y mod 400) 0); cbn [andb orb negb]; lia.
Qed.
Lemma year_mono a b : a < b → day_from_year a + 365 <= day_from_year b.
Proof.
  intros Hab. assert (∃ n, b = a + 1 + Z.of_nat n) as [n ->] by (exists (Z.to_nat (b - a - 1)); lia).
  clear Hab. induction n as [|n IH].
  - pose proof (year_length a). replace (a + 1 + Z.of_nat 0) with (a + 1) by lia. destruct (is_leap a); lia.
  - pose proof (year_length (a + 1 + Z.of_nat n)). replace (a + 1 + Z.of_nat (S n)) with (a + 1 + Z.of_nat n + 1) by lia.
    destruct (is_leap _); lia.
Qed.

Lemma month_mono y m m' : 0 <= m → m < m' → m' <= 12 → day_in_year y (m + 1) <= day_in_year y m'.
Proof.
  intros H0 Hm Hm'. assert (∃ k, m = Z.of_nat k) as [k ->] by (exists (Z.to_nat m); lia).
  assert (∃ k, m' = Z.of_nat k) as [k' ->] by (exists (Z.to_nat m'); lia).
  assert (k < 12)%nat as Hk by lia. assert (k' <= 12)%nat as Hk' by lia. assert (k < k')%nat as Hkk by lia.
  clear H0 Hm Hm'. unfold day_in_year. destruct (is_leap y);
  do 12 (destruct k as [|k]; [do 13 (destruct k' as [|k']; [vm_compute; (discriminate || lia)|]); lia|]); lia.
Qed.
Lemma month_le y m m' : 0 <= m → m <= m' → m' <= 12 → day_in_year y m <= day_in_year y m'.
Proof.
  intros H0 Hm H12. destruct (decide (m = m')) as [->|Hne]; [done|].
  pose proof (month_mono y m m' H0 ltac:(lia) H12). enough (day_in_year y m <= day_in_year y (m + 1)) by lia.
  assert (∃ k, m = Z.of_nat k) as [k ->] by (exists (Z.to_nat m); lia). assert (k < 12)%nat as Hk by lia.
  clear -Hk. unfold day_in_year. destruct (is_leap y); do 12 (destruct k as [|k]; [vm_compute; discriminate|]); lia.
Qed.
Lemma day_in_year_bound y m d :
  0 <= m < 12 → 1 <= d <= month_days y m → 0 <= day_in_year y m + d - 1 < 365 + (if is_leap y then 1 else 0).
Proof.
  intros Hm Hd. unfold month_days in Hd.
  pose proof (month_le y 0 m ltac:(lia) ltac:(lia) ltac:(lia)) as H0.
  pose proof (month_le y (m + 1) 12 ltac:(lia) ltac:(lia) ltac:(lia)) as H12.
  assert (day_in_year y 0 = 0) by done.
  assert (day_in_year y 12 = 365 + if is_leap y then 1 else 0) by (by destruct (is_leap y) eqn:E; unfold day_in_year; rewrite E).
  lia.
Qed.

(** Of two dates that exist the earlier one, by year, month, day and time, has the
    smaller number: the difference of two dates has the sign of their order. *)
Theorem difference_order a b : valid a → valid b → earlier a b ↔ difference a b < 0.
Proof.
  assert (∀ a b, valid a → valid b → earlier a b → UTC a < UTC b) as Hlt.
  { clear a b. intros a b [Hya Hma Hda Hha Hia] [Hyb Hmb Hdb Hhb Hib] He. unfold UTC, full_year.
    rewrite !(proj2 (andb_false_iff _ _)) by (right; apply Z.leb_gt; lia).
    pose proof (day_in_year_bound (year a) (month a) (day a) Hma Hda) as Ha.
    pose proof (day_in_year_bound (year b) (month b) (day b) Hmb Hdb) as Hb.
    unfold days, day_ms, hour_ms, minute_ms. destruct He as [Hy|(Ey & [Hm|(Em & [Hd|(Ed & [Hh|(Eh & Hi)])])])].
    - pose proof (year_mono (year a) (year b) Hy). pose proof (year_length (year a)).
      assert (day_from_year (year a + 1) <= day_from_year (year b)).
      { destruct (decide (year a + 1 = year b)) as [<-|]; [done|]. pose proof (year_mono (year a + 1) (year b) ltac:(lia)). lia. }
      lia.
    - rewrite Ey in *. pose proof (month_mono (year b) (month a) (month b) ltac:(lia) Hm ltac:(lia)).
      unfold month_days in Hda. lia.
    - rewrite Ey, Em in *. lia.
    - rewrite Ey, Em, Ed in *. lia.
    - rewrite Ey, Em, Ed, Eh in *. lia. }
  intros Ha Hb. unfold difference. split; [intros He; pose proof (Hlt a b Ha Hb He); lia|].
  intros Hd. unfold earlier.
  destruct (Z.lt_trichotomy (year a) (year b)) as [|[Ey|Hy]]; [by left| |pose proof (Hlt b a Hb Ha (or_introl Hy)); lia].
  right. split; [done|].
  destruct (Z.lt_trichotomy (month a) (month b)) as [|[Em|Hm]]; [by left| |pose proof (Hlt b a Hb Ha ltac:(right; split; [done|by left])); lia].
  right. split; [done|].
  destruct (Z.lt_trichotomy (day a) (day b)) as [|[Ed|Hdd]]; [by left| |pose proof (Hlt b a Hb Ha ltac:(right; split; [done|right; split; [done|by left]])); lia].
  right. split; [done|].
  destruct (Z.lt_trichotomy (hours a) (hours b)) as [|[Eh|Hh]]; [by left| |pose proof (Hlt b a Hb Ha ltac:(right; split; [done|right; split; [done|right; split; [done|by left]]])); lia].
  right. split; [done|].
  destruct (Z.lt_trichotomy (minutes a) (minutes b)) as [|[Ei|Hi]]; [done| |pose proof (Hlt b a Hb Ha ltac:(right; split; [done|right; split; [done|right; split; [done|by right]]])); lia].
  unfold UTC in Hd. rewrite Ey, Em, Ed, Eh, Ei in Hd. lia.
Qed.

(** ** What is shown *)

Definition unit_ms (u : string) : Z :=
  if String.eqb u "year" then year_ms else if String.eqb u "month" then 30 * day_ms
  else if String.eqb u "day" then day_ms else if String.eqb u "hour" then hour_ms else minute_ms.
(** How long ago a relative date says something was. *)
Definition shown (r : option (Z * string)) : Z := match r with Some (n, u) => (- n) * unit_ms u | None => 0 end.
Definition most (u : string) : Z :=
  if String.eqb u "month" then 12 else if String.eqb u "day" then 30 else if String.eqb u "hour" then 24 else 60.

(** The time that has passed is rounded up to the unit: what is shown is at least as
    long, and longer by less than a unit.  There are at least two of the unit, three of
    minutes, and no more than make the next one, but for years.  What is older is never
    shown as younger; what is not three minutes old, or still to come, is just now. *)
Theorem relative_spec ago :
  let d := - ago in
  match relative d with
  | None => ago <= 2 * minute_ms
  | Some (n, u) =>
      2 * minute_ms < ago ∧ u ∈ ["year"; "month"; "day"; "hour"; "minute"] ∧
      ago <= shown (relative d) < ago + unit_ms u ∧
      n <= (if String.eqb u "minute" then -3 else -2) ∧ (u ≠ "year" → - most u <= n)
  end ∧
  (∀ ago', ago <= ago' → shown (relative (- ago)) <= shown (relative (- ago'))).
Proof.
  intros d.
  assert (∀ e k, 0 < k → e <= (- (- e / k)) * k < e + k) as Hup.
  { intros e k Hk. pose proof (Z.div_mod (- e) k ltac:(lia)). pose proof (Z.mod_pos_bound (- e) k Hk). nia. }
  assert (∀ e, match relative (- e) with
    | None => e <= 2 * minute_ms
    | Some (n, u) => 2 * minute_ms < e ∧ u ∈ ["year"; "month"; "day"; "hour"; "minute"] ∧
        e <= shown (relative (- e)) < e + unit_ms u ∧
        n <= (if String.eqb u "minute" then -3 else -2) ∧ (u ≠ "year" → - most u <= n)
    end) as Hall.
  { intros e. unfold relative.
    pose proof (Hup e year_ms ltac:(done)) as Hy. pose proof (Hup e (day_ms * 30) ltac:(done)) as Hmo.
    pose proof (Hup e day_ms ltac:(done)) as Hd. pose proof (Hup e hour_ms ltac:(done)) as Hh. pose proof (Hup e minute_ms ltac:(done)) as Hmi.
    unfold year_ms, day_ms, hour_ms, minute_ms in *.
    repeat match goal with |- context [?a <? ?b] => destruct (Z.ltb_spec a b) end;
      first [lia | split_and!];
      first [lia | by repeat (apply list_elem_of_here || apply list_elem_of_further) | by intros []
            | intros _; cbn [String.eqb Ascii.eqb Bool.eqb most]; lia
            | cbn [shown unit_ms String.eqb Ascii.eqb Bool.eqb]; unfold year_ms, day_ms, hour_ms, minute_ms; lia]. }
  split; [apply Hall|]. intros ago' Hle. unfold relative.
  pose proof (Hup ago year_ms ltac:(done)) as Hy. pose proof (Hup ago (day_ms * 30) ltac:(done)) as Hmo.
  pose proof (Hup ago day_ms ltac:(done)) as Hd. pose proof (Hup ago hour_ms ltac:(done)) as Hh. pose proof (Hup ago minute_ms ltac:(done)) as Hmi.
  pose proof (Hup ago' year_ms ltac:(done)) as Hy'. pose proof (Hup ago' (day_ms * 30) ltac:(done)) as Hmo'.
  pose proof (Hup ago' day_ms ltac:(done)) as Hd'. pose proof (Hup ago' hour_ms ltac:(done)) as Hh'. pose proof (Hup ago' minute_ms ltac:(done)) as Hmi'.
  unfold year_ms, day_ms, hour_ms, minute_ms in *.
  repeat match goal with |- context [?a <? ?b] => destruct (Z.ltb_spec a b) end; try lia;
    cbn [shown unit_ms String.eqb Ascii.eqb Bool.eqb]; unfold year_ms, day_ms, hour_ms, minute_ms; lia.
Qed.

(** ** Examples *)

Definition at_time (y m d h mi : Z) : Civil :=
  {| year := y; month := m; day := d; hours := h; minutes := mi; seconds := 0 |}.
Definition example_now : Civil := at_time 2024 1 10 12 0.
Definition plain_format (n : Z) (u : string) : string := int_str n +:+ " " +:+ u.
Definition no_parse (s : string) : JsDate := None.

Lemma difference_order_witness : earlier (at_time 2024 1 29 23 59) (at_time 2024 2 1 0 0).
Proof.
  apply (difference_order (at_time 2024 1 29 23 59) (at_time 2024 2 1 0 0)); [split; cbn; vm_compute; intuition discriminate..|].
  by vm_compute.
Defined.
Lemma relative_spec_witness : shown (relative (- (25 * hour_ms))) <= shown (relative (- (49 * hour_ms))).
Proof. apply (proj2 (relative_spec (25 * hour_ms))). by vm_compute. Defined.

(** A day and an hour are two days, and a year and five days are two years. *)
Example rounded_up :
  relative (difference (at_time 2024 1 9 11 0) example_now) = Some (-2, "day") ∧
  relative (difference (at_time 2023 1 5 12 0) example_now) = Some (-2, "year").
Proof. by vm_compute. Qed.
(** A date of the year before is shown as one of this year. *)
Example year_left_out :
  relativeFormattedDate no_parse plain_format example_now (ADate (Some (at_time 2023 11 24 9 30))) false = "24 Dec".
Proof. by vm_compute. Qed.
(** A date to come is just now, and one that is none is shown as if it were. *)
Example to_come :
  relativeFormattedDate no_parse plain_format example_now (ADate (Some (at_time 2031 1 10 12 0))) false = "just now" ∧
  relativeFormattedDate no_parse plain_format example_now (Str "soon") false = "NaN undefined".
Proof. by vm_compute. Qed.
