(* ===== verification/Desktop.v ===== *)
(** * The main process of the desktop application

    Of apps/desktop/src: the state of the daemon that daemon.ts starts, when
    auto-update.ts looks for an update, and the export of many documents of main.ts. *)
From S2P Require Import Prelude.
From S2P Require Import JsString.
From S2P Require Import JsObject.
From S2P Require Import BlockConvert.
From S2P Require Import MarkdownExport.

(** ** The daemon *)

Module Daemon.

Inductive GoDaemonState : Type := Ready | Failed (message : string) | Startup.

(** The handlers that are subscribed, oldest first, and every call of one. *)
Record Process : Type := {
  goDaemonState : GoDaemonState;
  daemonStateHandlers : list nat;
  calls : list (nat * GoDaemonState);
  expectingDaemonClose : bool;
  lastStderr : string;
}.
Definition startMainDaemon : Process :=
  {| goDaemonState := Startup; daemonStateHandlers := []; calls := []; expectingDaemonClose := false; lastStderr := "" |}.

Definition updateGoDaemonState (state : GoDaemonState) (p : Process) : Process :=
  {| goDaemonState := state; daemonStateHandlers := daemonStateHandlers p;
     calls := calls p ++ ((λ h, (h, state)) <$> daemonStateHandlers p);
     expectingDaemonClose := expectingDaemonClose p; lastStderr := lastStderr p |}.

(** A set keeps a handler where it was first added. *)
Inductive Event : Type :=
| Subscribe (handler : nat)
| Unsubscribe (handler : nat)
| Stderr (data : string)
| Close
| WillQuit.
Definition on_event (e : Event) (p : Process) : Process :=
  match e with
  | Subscribe h =>
      if bool_decide (h ∈ daemonStateHandlers p) then p
      else {| goDaemonState := goDaemonState p; daemonStateHandlers := daemonStateHandlers p ++ [h]; calls := calls p;
              expectingDaemonClose := expectingDaemonClose p; lastStderr := lastStderr p |}
  | Unsubscribe h =>
      {| goDaemonState := goDaemonState p;
         daemonStateHandlers := List.filter (λ h', negb (Nat.eqb h' h)) (daemonStateHandlers p); calls := calls p;
         expectingDaemonClose := expectingDaemonClose p; lastStderr := lastStderr p |}
  | Stderr data =>
      let p := {| goDaemonState := goDaemonState p; daemonStateHandlers := daemonStateHandlers p; calls := calls p;
                  expectingDaemonClose := expectingDaemonClose p; lastStderr := data |} in
      if js_includes "INFO" data && js_includes "DaemonStarted" data then updateGoDaemonState Ready p else p
  | Close =>
      if expectingDaemonClose p then p
      else updateGoDaemonState (Failed ("Service Error: !!!" +:+ lastStderr p)) p
  | WillQuit =>
      {| goDaemonState := goDaemonState p; daemonStateHandlers := daemonStateHandlers p; calls := calls p;
         expectingDaemonClose := true; lastStderr := lastStderr p |}
  end.
Definition run (es : list Event) : Process := fold_left (λ p e, on_event e p) es startMainDaemon.
End Daemon.

(** ** Updates *)

Module Updates.
Section check.
(** The stored date under the key, and [date.setHours(0)] and so on. *)
Context (midnight : Z → Z).
Definition oneDayInMilliseconds : Z := 24 * 60 * 60 * 1000.

(** Dates are milliseconds. *)
Definition shouldCheckForUpdate (storedDate : option Z) (currentDate : Z) : option Z * bool :=
  match storedDate with
  | Some prevDate => (storedDate, (oneDayInMilliseconds <=? currentDate - prevDate)%Z)
  | None => (Some (midnight currentDate), true)
  end.

(** What a check does: under Linux the user is told of a new release whenever the server
    answers. *)
Inductive Check : Type := AskServer | TellNewRelease | Nothing.
Definition linuxCheckForUpdates (answers : bool) (storedDate : option Z) (now : Z) : option Z * list Check :=
  let r := shouldCheckForUpdate storedDate now in
  (r.1, if r.2 then AskServer :: (if answers then [TellNewRelease] else []) else []).
Definition defaultCheckForUpdates (storedDate : option Z) (now : Z) : option Z * list Check :=
  (storedDate, [AskServer]).
Definition check_for (linux answers : bool) : option Z → Z → option Z * list Check :=
  if linux then linuxCheckForUpdates answers else defaultCheckForUpdates.

(** [autoUpdate]: the checks, two seconds after the start and every twelve hours. *)
Definition check_times (start : Z) (n : nat) : list Z :=
  (start + 2000)%Z :: ((λ k, start + 43200000 * Z.of_nat k)%Z <$> seq 1 n).
Fixpoint run_checks (check : option Z → Z → option Z * list Check) (storedDate : option Z) (times : list Z) :
    option Z * list (list Check) :=
  match times with
  | [] => (storedDate, [])
  | t :: times' =>
      let r := check storedDate t in
      let r' := run_checks check r.1 times' in
      (r'.1, r.2 :: r'.2)
  end.
Definition autoUpdate (isProd : bool) (preference : option string) (linux answers : bool) (storedDate : option Z)
    (start : Z) (n : nat) : option Z * list (list Check) :=
  if String.eqb (default "true" (or_null preference)) "true" && isProd
  then run_checks (check_for linux answers) storedDate (check_times start n)
  else (storedDate, []).
End check.
End Updates.

(** ** Export of many documents *)

Module Folders.

(** A path below the folder that is chosen; [path.join] leaves out an empty name and
    the current folder, and goes up for the one above. *)
Abbreviation Path := (list string).
Definition path_join (p : Path) (name : string) : Path :=
  if String.eqb name "" || String.eqb name "." then p
  else if String.eqb name ".." then removelast p else p ++ [name].

(** What exists, and the Markdown files with their text. *)
Record Disk : Type := { dirs : list Path; texts : list (Path * string) }.
Definition existsSync (d : Disk) (p : Path) : bool := bool_decide (p ∈ dirs d) || bool_decide (p ∈ (texts d).*1).
Definition mkdirSync (d : Disk) (p : Path) : result Disk :=
  if existsSync d p then Err "EEXIST" else Ok {| dirs := dirs d ++ [p]; texts := texts d |}.
Definition ensure (d : Disk) (p : Path) : result Disk := if existsSync d p then Ok d else mkdirSync d p.
Definition write_text (d : Disk) (p : Path) (text : string) : Disk :=
  {| dirs := dirs d; texts := texts d ++ [(p, text)] |}.

(** A document, with the media files and how their requests end; [None] for a file that
    is not of ipfs, whose promise is left pending. *)
Record Doc : Type := {
  d_title : string;
  d_markdown : string;
  d_ended : list (string * Response);
  d_pending : bool;
}.

(** The folder of a document, with the counters of the titles. *)
Definition doc_dir (filePath : Path) (titleCounter : obj N) (title : string) (d : Disk) : Path * obj N :=
  let camel := camelTitle title in
  let count := default 0%N (oget titleCounter camel) in
  let dir := path_join filePath camel in
  if existsSync d dir then
    (path_join filePath (camel +:+ "-" +:+ num_to_str (count + 1)), oset titleCounter camel (count + 1)%N)
  else (dir, oset titleCounter camel count).

(** [None] when it waits forever. *)
Fixpoint export_docs (filePath : Path) (titleCounter : obj N) (docs : list Doc) (d : Disk) (failed : option string) :
    option (Disk * result (option string)) :=
  match docs with
  | [] => Some (d, Ok failed)
  | doc :: docs' =>
      let r := doc_dir filePath titleCounter (d_title doc) d in
      let documentDir := r.1 in
      match mkdirSync d documentDir with
      | Err e => Some (d, Err e)
      | Ok d =>
          match ensure d (path_join documentDir "media") with
          | Err e => Some (d, Err e)
          | Ok d =>
              match upload_all (d_ended doc) (d_markdown doc) with
              | (_, None) as u => if d_pending doc then None
                  else export_docs filePath r.2 docs'
                         (write_text d (path_join documentDir (camelTitle (d_title doc) +:+ ".md")) u.1) failed
              | (text, Some e) =>
                  export_docs filePath r.2 docs'
                    (write_text d (path_join documentDir (camelTitle (d_title doc) +:+ ".md")) text)
                    (Some ("Error processing media files: " +:+ e +:+ "."))
              end
          end
      end
  end.

(** The handler, with what is sent as [export-completed]. *)
Definition filesFolder (chosen : Path) : Path := path_join chosen "Mintter Documents".
Definition exportMultiple (chosen : option Path) (docs : list Doc) (d : Disk) : option (Disk * result (bool * string)) :=
  match chosen with
  | None => Some (d, Ok (false, "Export has been cancelled."))
  | Some chosen =>
      let filePath := filesFolder chosen in
      match ensure d filePath with
      | Err e => Some (d, Err e)
      | Ok d =>
          match export_docs filePath [] docs d None with
          | None => None
          | Some (d, Err e) => Some (d, Err e)
          | Some (d, Ok (Some message)) => Some (d, Ok (false, message))
          | Some (d, Ok None) =>
              Some (d, Ok (true, "Successfully exported documents to: " +:+ js_join "/" filePath +:+ "."))
          end
      end
  end.
End Folders.

(** * The main process: what its parts keep

    The states that are announced of the daemon, the updates that are looked for, and the
    folders that an export makes. *)

(** ** The daemon *)

Section daemon.
Import Daemon.

(** The errors that were written last, and what an event announces after others. *)
Definition last_error (es : list Event) : string :=
  fold_left (λ s e, match e with Stderr data => data | _ => s end) es "".
Definition quits (es : list Event) : bool := existsb (λ e, match e with WillQuit => true | _ => false end) es.
Definition announces (before : list Event) (e : Event) : list GoDaemonState :=
  match e with
  | Stderr data => if js_includes "INFO" data && js_includes "DaemonStarted" data then [Ready] else []
  | Close => if quits before then [] else [Failed ("Service Error: !!!" +:+ last_error before)]
  | _ => []
  end.
Fixpoint trace (before es : list Event) : list GoDaemonState :=
  match es with
  | [] => []
  | e :: es' => announces before e ++ trace (before ++ [e]) es'
  end.
(** What a handler was called with. *)
Definition heard (h : nat) (p : Process) : list GoDaemonState :=
  snd <$> List.filter (λ c, Nat.eqb c.1 h) (calls p).

Lemma run_snoc es e : run (es ++ [e]) = on_event e (run es).
Proof. unfold run. by rewrite fold_left_app. Qed.
Lemma run_flags es : expectingDaemonClose (run es) = quits es ∧ lastStderr (run es) = last_error es ∧ NoDup (daemonStateHandlers (run es)).
Proof.
  induction es as [|e es (Hq & Hl & Hn)] using rev_ind; [split_and!; [done|done|constructor]|].
  rewrite run_snoc. unfold quits, last_error. rewrite existsb_app, fold_left_app. fold (quits es). cbn [existsb fold_left].
  rewrite orb_false_r, <- Hq. unfold last_error in Hl.
  destruct e as [h|h|data| |]; cbn [on_event]; rewrite ?orb_false_r, ?orb_true_r.
  - case_bool_decide as Hh; [done|]. split_and!; [done|done|]. apply NoDup_app. split_and!; [done| |apply NoDup_singleton].
    intros x Hx ->%list_elem_of_singleton. done.
  - split_and!; [done|done|]. apply NoDup_ListNoDup, List.NoDup_filter, NoDup_ListNoDup. done.
  - by case_match.
  - by destruct (expectingDaemonClose (run es)) eqn:E; cbn; rewrite ?E.
  - done.
Qed.

Lemma on_event_state es e :
  goDaemonState (run (es ++ [e])) = default (goDaemonState (run es)) (last (announces es e)).
Proof.
  rewrite run_snoc. destruct (run_flags es) as (Hq & Hl & _). destruct e as [h|h|data| |]; cbn [on_event announces]; try done.
  - by case_bool_decide.
  - by case_match.
  - rewrite Hq. destruct (quits es); [done|]. cbn. by rewrite Hl.
Qed.

Lemma heard_app h l1 l2 : snd <$> List.filter (λ c : nat * GoDaemonState, Nat.eqb c.1 h) (l1 ++ l2) =
  (snd <$> List.filter (λ c, Nat.eqb c.1 h) l1) ++ (snd <$> List.filter (λ c, Nat.eqb c.1 h) l2).
Proof. by rewrite List.filter_app, fmap_app. Qed.
Lemma heard_once h (s : GoDaemonState) hs : NoDup hs →
  snd <$> List.filter (λ c, Nat.eqb c.1 h) ((λ x, (x, s)) <$> hs) = if bool_decide (h ∈ hs) then [s] else [].
Proof.
  induction 1 as [|x hs Hx Hn IH]; [done|]. cbn. destruct (Nat.eqb_spec x h) as [->|Hne]; cbn; rewrite IH.
  - rewrite (bool_decide_eq_false_2 _ Hx), bool_decide_eq_true_2; [done|by left].
  - apply Nat.neq_sym in Hne. by rewrite (bool_decide_ext (h ∈ x :: hs) (h ∈ hs)) by set_solver.
Qed.
Lemma on_event_heard es e h :
  heard h (run (es ++ [e])) =
  heard h (run es) ++ (if bool_decide (h ∈ daemonStateHandlers (run es)) then announces es e else []).
Proof.
  rewrite run_snoc. destruct (run_flags es) as (Hq & Hl & Hn).
  destruct e as [h'|h'|data| |]; cbn [on_event announces]; rewrite ?app_nil_r.
  - by case_bool_decide; case_bool_decide; rewrite ?app_nil_r.
  - by case_bool_decide; rewrite ?app_nil_r.
  - unfold heard. destruct (js_includes "INFO" data && js_includes "DaemonStarted" data); cbn [updateGoDaemonState calls daemonStateHandlers].
    + by rewrite heard_app, heard_once.
    + by case_bool_decide; rewrite ?app_nil_r.
  - unfold heard. rewrite Hq. destruct (quits es); cbn [updateGoDaemonState calls daemonStateHandlers].
    + by case_bool_decide; rewrite ?app_nil_r.
    + rewrite heard_app, heard_once by done. by rewrite Hl.
  - by case_bool_decide; rewrite ?app_nil_r.
Qed.

Lemma trace_snoc before es e : trace before (es ++ [e]) = trace before es ++ announces (before ++ es) e.
Proof.
  revert before. induction es as [|x es IH]; intros before; cbn; [by rewrite !app_nil_r|].
  by rewrite IH, <- !(assoc_L (++)).
Qed.
Lemma subscribed_stays es1 es2 h :
  h ∈ daemonStateHandlers (run es1) → Unsubscribe h ∉ es2 → h ∈ daemonStateHandlers (run (es1 ++ es2)).
Proof.
  intros Hh. induction es2 as [|e es2 IH] using rev_ind; [by rewrite app_nil_r|].
  intros Hn. rewrite (assoc_L (++)), run_snoc. assert (h ∈ daemonStateHandlers (run (es1 ++ es2))) as Hin by (apply IH; set_solver).
  destruct e as [h'|h'|data| |]; cbn [on_event]; try done.
  - case_bool_decide; [done|]. cbn. set_solver.
  - cbn. apply list_elem_of_In, filter_In. split; [by apply list_elem_of_In|]. apply negb_true_iff, Nat.eqb_neq. intros ->. set_solver.
  - by case_match.
  - by case_match.
Qed.

(** The state of the daemon is the last one that was announced: that it has started,
    when its errors say so, or that it failed, when it closes before the application
    quits, with what it wrote last.  A handler hears everything that is announced while
    it is subscribed, once and in order.  Once the application quits no failure is
    announced. *)
Theorem daemon_trace es1 es2 h :
  goDaemonState (run (es1 ++ es2)) = default (goDaemonState (run es1)) (last (trace es1 es2)) ∧
  goDaemonState (run es2) = default Startup (last (trace [] es2)) ∧
  (Unsubscribe h ∉ es2 →
   heard h (run (es1 ++ Subscribe h :: es2)) = heard h (run es1) ++ trace (es1 ++ [Subscribe h]) es2) ∧
  (quits es1 = true → ∀ m, Failed m ∉ trace es1 es2).
Proof.
  assert (∀ es1 es2, goDaemonState (run (es1 ++ es2)) = default (goDaemonState (run es1)) (last (trace es1 es2))) as Hs.
  { clear. intros es1 es2. induction es2 as [|e es2 IH] using rev_ind; [by rewrite app_nil_r|].
    rewrite (assoc_L (++)), on_event_state, IH, trace_snoc, last_app. by destruct (last (announces _ _)). }
  split; [apply Hs|]. split; [apply (Hs [] es2)|]. split.
  - intros Hn. rewrite cons_middle, (assoc_L (++)).
    assert (h ∈ daemonStateHandlers (run (es1 ++ [Subscribe h]))) as Hin.
    { rewrite run_snoc. cbn. case_bool_decide; [done|]. cbn. set_solver. }
    induction es2 as [|e es2 IH] using rev_ind.
    + rewrite app_nil_r, on_event_heard. cbn. case_bool_decide; by rewrite !app_nil_r.
    + rewrite (assoc_L (++) (es1 ++ _)), on_event_heard, IH by set_solver. rewrite trace_snoc, <- (assoc_L (++)).
      rewrite bool_decide_eq_true_2; [done|]. apply subscribed_stays; [done|set_solver].
  - intros Hq m. induction es2 as [|e es2 IH] using rev_ind; [by apply not_elem_of_nil|].
    rewrite trace_snoc. intros [Hm|Hm]%elem_of_app; [by apply IH|].
    assert (quits (es1 ++ es2) = true) as Hq2 by (unfold quits in *; by rewrite existsb_app, Hq).
    destruct e as [h'|h'|data| |]; cbn in Hm; try by apply elem_of_nil in Hm.
    + case_match; [by apply list_elem_of_singleton in Hm|by apply elem_of_nil in Hm].
    + rewrite Hq2 in Hm. by apply elem_of_nil in Hm.
Qed.

Definition example_events : list Event := [Subscribe 1; Stderr "INFO DaemonStarted"; Stderr "bad disk"; Close].
Lemma daemon_trace_witness :
  heard 1 (run example_events) = [Ready; Failed "Service Error: !!!bad disk"].
Proof.
  destruct (daemon_trace [] [Stderr "INFO DaemonStarted"; Stderr "bad disk"; Close] 1) as (_ & _ & E & _).
  etransitivity; [apply E|by vm_compute].
  by rewrite !not_elem_of_cons; split_and!; [..|apply not_elem_of_nil].
Defined.
End daemon.

(** ** Updates *)

Section updates.
Import Updates.
Context (midnight : Z → Z).

Definition asked (answers due : bool) : list Check :=
  if due then AskServer :: (if answers then [TellNewRelease] else []) else [].
Definition a_day_after (d t : Z) : bool := (oneDayInMilliseconds <=? t - d)%Z.

Lemma stored_checks answers d times :
  run_checks (linuxCheckForUpdates midnight answers) (Some d) times =
    (Some d, (λ t, asked answers (a_day_after d t)) <$> times).
Proof.
  induction times as [|t times IH]; [done|]. cbn [run_checks].
  assert (linuxCheckForUpdates midnight answers (Some d) t = (Some d, asked answers (a_day_after d t))) as -> by done.
  cbn [fst snd]. by rewrite IH.
Qed.

(** Under Linux the date is stored at the first check of all and never again.  That
    check asks the server; a later one does if a day has passed since that date, so that
    from the second day on every one of them does, whatever the server said.  An answer
    of the server, of whatever version, tells the user of a new release. *)
Theorem linux_checks answers start n t0 :
  let check := linuxCheckForUpdates midnight answers in
  run_checks check (Some t0) (check_times start n) =
    (Some t0, (λ t, asked answers (a_day_after t0 t)) <$> check_times start n) ∧
  run_checks check None (check_times start n) =
    (Some (midnight (start + 2000)%Z),
     asked answers true :: ((λ k, asked answers (a_day_after (midnight (start + 2000)) (start + 43200000 * Z.of_nat k)))%Z
                              <$> seq 1 n)) ∧
  ((midnight (start + 2000) ≤ start)%Z → ∀ k, 2 ≤ k ≤ n →
   (run_checks check None (check_times start n)).2 !! k = Some (asked answers true)).
Proof.
  intros check. split; [apply stored_checks|].
  assert (run_checks check None (check_times start n) =
    (Some (midnight (start + 2000)%Z),
     asked answers true :: ((λ k, asked answers (a_day_after (midnight (start + 2000)) (start + 43200000 * Z.of_nat k)))%Z
                              <$> seq 1 n))) as E.
  { unfold check_times. cbn [run_checks]. 
    assert (check None (start + 2000)%Z = (Some (midnight (start + 2000)%Z), asked answers true)) as -> by done.
    cbn [fst snd]. unfold check. rewrite stored_checks, <- list_fmap_compose. done. }
  split; [exact E|]. intros Hm k Hk. rewrite E. cbn [snd]. destruct k as [|k]; [lia|]. rewrite lookup_cons.
  rewrite list_lookup_fmap.
  assert (seq 1 n !! k = Some (S k)) as -> by (apply lookup_seq; split; lia). cbn [fmap option_fmap option_map]. do 2 f_equal.
  unfold a_day_after, oneDayInMilliseconds. apply Z.leb_le. lia.
Qed.
End updates.

(** ** The folders of an export *)

Section folders.
Import Folders.

(** The text that is written of a document. *)
Definition text_of (doc : Doc) : string := (upload_all (d_ended doc) (d_markdown doc)).1.
Definition file_of (doc : Doc) (folder : Path) : Path * string :=
  (path_join folder (camelTitle (d_title doc) +:+ ".md"), text_of doc).
Definition made (folder : Path) : list Path := [folder; path_join folder "media"].

Lemma exists_app d l p : existsSync {| dirs := dirs d ++ l; texts := texts d |} p = existsSync d p || bool_decide (p ∈ l).
Proof.
  unfold existsSync. cbn. rewrite (bool_decide_ext (p ∈ dirs d ++ l) (p ∈ dirs d ∨ p ∈ l)) by apply elem_of_app.
  rewrite bool_decide_or. by destruct (bool_decide (p ∈ dirs d)), (bool_decide (p ∈ l)), (bool_decide (p ∈ (texts d).*1)).
Qed.
Lemma media_new folder : path_join folder "media" ≠ folder.
Proof. cbn. intros E. apply (f_equal length) in E. rewrite length_app in E. cbn in E. lia. Qed.
Lemma exists_write d p q text : existsSync d p = true → existsSync (write_text d q text) p = true.
Proof.
  unfold existsSync, write_text. cbn. rewrite fmap_app. intros [Hp|Hp]%orb_true_iff; [by rewrite Hp|].
  apply bool_decide_eq_true in Hp. rewrite (bool_decide_eq_true_2 (p ∈ _ ++ _)) by set_solver. apply orb_true_r.
Qed.

(** Folders are in folders. *)
Definition closed (d : Disk) : Prop := ∀ p name, existsSync d (p ++ [name]) = true → existsSync d p = true.

Lemma path_join_plain p name : 2 < len name → path_join p name = p ++ [name].
Proof.
  intros Hl. unfold path_join. destruct (String.eqb_spec name "") as [->|]; [cbn in Hl; lia|].
  destruct (String.eqb_spec name ".") as [->|]; [cbn in Hl; lia|].
  destruct (String.eqb_spec name "..") as [->|]; [cbn in Hl; lia|done].
Qed.
Lemma md_path p s : path_join p (s +:+ ".md") = p ++ [s +:+ ".md"].
Proof. apply path_join_plain. rewrite len_app. cbn. lia. Qed.
Lemma media_path p : path_join p "media" = p ++ ["media"].
Proof. done. Qed.

Lemma numbered_name camel n : "" ≠ camel +:+ "-" +:+ num_to_str n ∧ "." ≠ camel +:+ "-" +:+ num_to_str n ∧
  ".." ≠ camel +:+ "-" +:+ num_to_str n.
Proof.
  destruct camel as [|c1 [|c2 [|c3 s]]]; cbn; split_and!; try done; intros E; injection E; try done.
Qed.

(** The folder of a document is one in the folder of all, or exists. *)
Lemma doc_dir_below filePath counter title d :
  closed d → existsSync d filePath = true → ∃ name,
  (doc_dir filePath counter title d).1 = filePath ++ [name] ∨
  existsSync d (doc_dir filePath counter title d).1 = true.
Proof.
  intros Hc Hp. unfold doc_dir. destruct (existsSync d (path_join filePath (camelTitle title))) eqn:E; cbn [fst].
  - eexists. left. unfold path_join. destruct (numbered_name (camelTitle title) (default 0%N (oget counter (camelTitle title)) + 1)) as (H1 & H2 & H3).
    rewrite !(proj2 (String.eqb_neq _ _)) by congruence. done.
  - exists (camelTitle title). revert E. unfold path_join.
    destruct (String.eqb (camelTitle title) "" || String.eqb (camelTitle title) "."); [by rewrite Hp|].
    destruct (String.eqb (camelTitle title) ".."); [|by left].
    right. destruct filePath as [|x l _] using rev_ind; [done|]. rewrite removelast_last. by eapply Hc.
Qed.

(** One document: its folder is new, and so is the one for its media. *)
Lemma made_folders d folder d1 d2 :
  closed d → mkdirSync d folder = Ok d1 → ensure d1 (path_join folder "media") = Ok d2 →
  existsSync d folder = false ∧ d2 = {| dirs := dirs d ++ made folder; texts := texts d |}.
Proof.
  intros Hc. unfold mkdirSync, ensure. destruct (existsSync d folder) eqn:E; [done|]. intros [= <-] H. split; [done|]. revert H.
  assert (existsSync d (path_join folder "media") = false) as Hm.
  { destruct (existsSync d (path_join folder "media")) eqn:Em; [|done]. rewrite media_path in Em. apply Hc in Em. congruence. }
  rewrite exists_app, Hm. cbn [orb]. rewrite bool_decide_eq_false_2 by (intros Hi%list_elem_of_singleton; by apply media_new in Hi).
  unfold mkdirSync. rewrite exists_app, Hm. cbn [orb].
  rewrite bool_decide_eq_false_2 by (intros Hi%list_elem_of_singleton; by apply media_new in Hi).
  intros [= <-]. cbn. unfold made. by rewrite <- (assoc_L (++)).
Qed.

Lemma exists_after d folder name text p :
  existsSync (write_text {| dirs := dirs d ++ made folder; texts := texts d |} (folder ++ [name]) text) p =
  existsSync d p || bool_decide (p ∈ [folder; folder ++ ["media"]; folder ++ [name]]).
Proof.
  unfold existsSync, write_text. cbn [dirs texts]. rewrite fmap_app. cbn [fmap list_fmap fst]. unfold made. rewrite media_path.
  rewrite <- !bool_decide_or. apply bool_decide_ext. set_solver.
Qed.
Lemma closed_after d filePath x name text :
  closed d → existsSync d filePath = true →
  closed (write_text {| dirs := dirs d ++ made (filePath ++ [x]); texts := texts d |} (filePath ++ [x] ++ [name]) text).
Proof.
  intros Hc Hp p y. rewrite (assoc_L (++)), !exists_after. intros [He|He%bool_decide_eq_true]%orb_true_iff.
  - by rewrite (Hc _ _ He).
  - rewrite !elem_of_cons, elem_of_nil in He. destruct He as [E|[E|[E|[]]]]; apply app_inj_tail in E as [-> _].
    + by rewrite Hp.
    + rewrite (bool_decide_eq_true_2 (_ ∈ _)); [apply orb_true_r|by left].
    + rewrite (bool_decide_eq_true_2 (_ ∈ _)); [apply orb_true_r|by left].
Qed.

(** If an export of many documents ends without an exception, each document has a
    folder of its own that was not there before, with the text of that document in it;
    nothing that was there is changed. *)
Theorem export_own_folders filePath counter docs d failed d' m :
  closed d → existsSync d filePath = true →
  export_docs filePath counter docs d failed = Some (d', Ok m) →
  ∃ folders, length folders = length docs ∧ NoDup folders ∧ (∀ f, f ∈ folders → existsSync d f = false) ∧
    dirs d' = dirs d ++ (folders ≫= made) ∧ texts d' = texts d ++ zip_with file_of docs folders.
Proof.
  revert counter d failed. induction docs as [|doc docs IH]; intros counter d failed Hc Hp He.
  { injection He as <- <-. exists []. split_and!; try done; [constructor|by intros f Hf%elem_of_nil| |]; cbn; by rewrite app_nil_r. }
  cbn [export_docs] in He. destruct (doc_dir_below filePath counter (d_title doc) d Hc Hp) as [x Hx].
  destruct (doc_dir _ _ _ _) as [folder counter'] eqn:Ef. cbn [fst snd] in He, Hx.
  destruct (mkdirSync d folder) as [d1|] eqn:E1; [|done]. destruct (ensure d1 _) as [d2|] eqn:E2; [|done].
  destruct (made_folders d folder d1 d2 Hc E1 E2) as [Hnew ->]. destruct Hx as [-> |Hx]; [|congruence].
  assert (∃ failed', export_docs filePath counter' docs
    (write_text {| dirs := dirs d ++ made (filePath ++ [x]); texts := texts d |}
       (filePath ++ [x] ++ [camelTitle (d_title doc) +:+ ".md"]) (text_of doc))
    failed' = Some (d', Ok m)) as [failed' He'].
  { unfold text_of. rewrite (assoc_L (++)), <- md_path.
    destruct (upload_all _ _) as [text [e|]]; [by eexists|]. destruct (d_pending doc); [done|by eexists]. }
  pose proof (closed_after d filePath x (camelTitle (d_title doc) +:+ ".md") (text_of doc) Hc Hp) as Hc3.
  rewrite (assoc_L (++)) in He', Hc3.
  apply IH in He' as (folders & Hl & Hnd & Hfresh & Hd & Ht); [|done|by rewrite exists_after, Hp].
  exists ((filePath ++ [x]) :: folders). 
  assert (∀ f, f ∈ folders → existsSync d f = false ∧ f ≠ filePath ++ [x]) as Hf.
  { intros f Hf. apply Hfresh in Hf. rewrite exists_after in Hf. apply orb_false_iff in Hf as [Hf1 Hf2%bool_decide_eq_false].
    split; [done|]. intros ->. apply Hf2. by left. }
  split_and!.
  - cbn. by rewrite Hl.
  - constructor; [|done]. intros Hin. by apply Hf in Hin as [_ ?].
  - intros f [->|Hin]%elem_of_cons; [done|]. by apply Hf.
  - rewrite Hd. cbn. by rewrite <- (assoc_L (++)).
  - rewrite Ht. unfold write_text. cbn [texts]. cbn [zip_with]. unfold file_of at 2. rewrite md_path, <- !(assoc_L (++)). done.
Qed.
End folders.

(** ** Examples *)

Section examples.
Import Updates Folders.

Lemma linux_checks_witness :
  (run_checks (linuxCheckForUpdates (λ t, t - 5000)%Z true) None (check_times 100000 3)).2 !! 2 =
    Some [AskServer; TellNewRelease].
Proof. apply (linux_checks (λ t, t - 5000)%Z true 100000 3 0); [by vm_compute|lia]. Defined.

Definition plain_doc (title text : string) : Doc :=
  {| d_title := title; d_markdown := text; d_ended := []; d_pending := false |}.
Definition empty_disk : Disk := {| dirs := [[]; ["Mintter Documents"]]; texts := [] |}.
Definition after (docs : list Doc) (d : Disk) : Disk :=
  match export_docs ["Mintter Documents"] [] docs d None with Some (d', _) => d' | None => d end.

Lemma empty_disk_closed : closed empty_disk.
Proof.
  intros p name. unfold existsSync, empty_disk. cbn [dirs texts].
  rewrite !orb_true_iff, !bool_decide_eq_true, !elem_of_cons, !elem_of_nil. intros [[E|[E|[]]]|[]].
  - by apply app_nil in E as [_ ?].
  - apply (app_inj_tail p []) in E as [-> _]. left. by left.
Qed.
Lemma export_own_folders_witness : ∃ folders,
  NoDup folders ∧ texts (after [plain_doc "my notes" "one"; plain_doc "My notes" "two"] empty_disk) =
    zip_with file_of [plain_doc "my notes" "one"; plain_doc "My notes" "two"] folders.
Proof.
  destruct (export_own_folders ["Mintter Documents"] [] [plain_doc "my notes" "one"; plain_doc "My notes" "two"] empty_disk None
    (after [plain_doc "my notes" "one"; plain_doc "My notes" "two"] empty_disk) None) as (folders & _ & Hn & _ & _ & Ht).
  - exact empty_disk_closed.
  - by vm_compute.
  - by vm_compute.
  - exists folders. by split.
Defined.

(** The counters start again with each export: the third one of a document throws, and
    what is to be sent at its end is not. *)
Example third_export :
  let docs := [plain_doc "notes" "text"] in
  export_docs ["Mintter Documents"] [] docs (after docs (after docs empty_disk)) None =
    Some (after docs (after docs empty_disk), Err "EEXIST").
Proof. by vm_compute. Qed.
(** A file that is not of ipfs stops the export of all that follow. *)
Example other_media :
  export_docs ["Mintter Documents"] []
    [{| d_title := "film"; d_markdown := ""; d_ended := []; d_pending := true |}; plain_doc "notes" "text"] empty_disk None = None.
Proof. by vm_compute. Qed.
End examples.
