(* ===== verification/DraftActors.v ===== *)
(** * The actors of the draft machine

    What [useDraftEditor] of packages/app/models/documents.ts gives the machine: the
    actors that save, restore and reset a draft through the daemon, the query that loads
    it, and the save when the page is left.  The daemon's drafts are a class with laws. *)
From S2P Require Import Prelude.
From S2P Require Import JsString.
From S2P Require Import JsObject.
From S2P Require Import BlockTypes.
From S2P Require Import StyledText.
From S2P Require Import BlockConvert.
From S2P Require Import DraftDiff.
From S2P Require Import DocModel.
From S2P Require Import DraftDiffFacts.
From S2P Require Import DraftSave.
From S2P Require Import DraftMachine.
From S2P Require Import DaemonApi.

(** ** The daemon's drafts *)

Class Drafts (S : Type) : Type := {
  getDraft : string → call S (option HMDocument);
  deleteDraft : string → call S unit;
  createDraft : string → call S (option HMDocument);
  updateDraft_call : string → list DocumentChange → call S (option HMDocument);
  (* what is stored of a draft, and what a new one starts with *)
  draft_of : S → string → option ServerDoc;
  published_of : S → string → string * list BlockTree;
}.
(** A call that fails changes nothing; one that succeeds does what the protocol says. *)
Class DraftsLaws (S : Type) `{Drafts S} : Prop := {
  delete_law i s : let r := deleteDraft i s in
    published_of r.1 = published_of s ∧
    draft_of r.1 i = match r.2 with Ok _ => None | Err _ => draft_of s i end;
  create_law i s : let r := createDraft i s in
    published_of r.1 = published_of s ∧
    match r.2 with
    | Ok o => let p := published_of s i in
        draft_of r.1 i = Some (load_doc p.1 p.2) ∧ ∃ d, o = Some d ∧ d_children d = Some (to_node <$> p.2)
    | Err _ => draft_of r.1 i = draft_of s i
    end;
  update_law i cs s : let r := updateDraft_call i cs s in
    published_of r.1 = published_of s ∧
    match r.2 with
    | Ok _ => ∃ d d', draft_of s i = Some d ∧ apply_changes d cs = Ok d' ∧ draft_of r.1 i = Some d'
    | Err _ => draft_of r.1 i = draft_of s i
    end;
}.

(** ** The actors *)

(** The queries that are invalidated. *)
Inductive QueryKey : Type := GET_DRAFT_LIST | GET_PUBLICATION_DRAFTS | EDITOR_DRAFT.

Section actors.
Context {S : Type} `{Drafts S, Lodash}.
Variables (documentId : string) (json : string → string).

(** The daemon, the cached answer of the query for the draft, and the invalidations. *)
Record World : Type := { w_daemon : S; w_cache : option HMDocument; w_invalid : list QueryKey }.
Definition on_daemon {A} (c : call S A) : call World A := λ w,
  let r := c (w_daemon w) in ({| w_daemon := r.1; w_cache := w_cache w; w_invalid := w_invalid w |}, r.2).
(** [client.setQueryData], for an answer with a document. *)
Definition setQueryData (doc : option HMDocument) : call World unit := λ w,
  ({| w_daemon := w_daemon w; w_cache := match doc with Some _ => doc | None => w_cache w end; w_invalid := w_invalid w |}, Ok ()).
Definition invalidate (keys : list QueryKey) : call World unit := λ w,
  ({| w_daemon := w_daemon w; w_cache := w_cache w; w_invalid := w_invalid w ++ keys |}, Ok ()).

Local Open Scope js_scope.

(** A response, or the message that there is nothing to save. *)
Definition update_actor (editor : option PMNode) (blocksMap : BlocksMap) (blocks : list EditorBlock)
    (draftTitle title : option string) : call World (option HMDocument + string) :=
  await* captured := c_lift (captured_changes editor blocksMap blocks draftTitle title) in
  match captured with
  | [] => c_ret (inr "No changes applied.")
  | _ => c_catch
      (await* doc := on_daemon (updateDraft_call documentId captured) in
       await* _ := setQueryData doc in
       c_ret (inl doc))
      (λ e, c_throw (json e))
  end.
(** The action [onSaveSuccess]; a message is an output as well. *)
Definition onSaveSuccess (output : option HMDocument + string) : call World unit :=
  match output with
  | inl _ => invalidate [GET_DRAFT_LIST; GET_PUBLICATION_DRAFTS; EDITOR_DRAFT]
  | inr m => if truthy m then invalidate [GET_DRAFT_LIST; GET_PUBLICATION_DRAFTS; EDITOR_DRAFT] else c_ret ()
  end.

Definition restore_actor (prevDraft : option HMDocument) : call World (option (option HMDocument)) :=
  match prevDraft with
  | None => c_throw "Expecting previous draft to restore"
  | Some d =>
      match d_children d with
      | None => c_throw "Expecting previous draft with children to restore"
      | Some prevChildren =>
          c_catch
            (await* _ := on_daemon (deleteDraft documentId) in
             await* newDraft := on_daemon (createDraft documentId) in
             await* captured := c_lift (restore_changes (newDraft ≫= d_children) prevChildren) in
             match captured with
             | [] => c_ret None
             | _ =>
                 await* doc := on_daemon (updateDraft_call documentId captured) in
                 await* _ := setQueryData doc in
                 await* _ := invalidate [GET_DRAFT_LIST; GET_PUBLICATION_DRAFTS] in
                 c_ret (Some doc)
             end)
            (λ e, c_throw ("Error restoring: " +:+ json e))
      end
  end.
Definition reset_actor : call World (option HMDocument) :=
  c_catch
    (await* _ := on_daemon (deleteDraft documentId) in
     await* newDraft := on_daemon (createDraft documentId) in
     await* _ := invalidate [GET_DRAFT_LIST; GET_PUBLICATION_DRAFTS] in
     c_ret newDraft)
    (λ e, c_throw ("Error resetting: " +:+ json e)).

(** [queryDraft]'s function: an error is an answer without a draft. *)
Definition queryDraft : call World (option HMDocument) :=
  c_catch (on_daemon (getDraft documentId)) (λ _, c_ret None).
End actors.

(** ** The effect of the hook *)

(** The query as a render sees it, and the machine's state then. *)
Inductive QueryStatus : Type := Loading | Success (data : option HMDocument) | Failure.
Definition same_status (a b : QueryStatus) : bool :=
  match a, b with Loading, Loading | Success _, Success _ | Failure, Failure => true | _, _ => false end.
Definition status_of (r : result (option HMDocument)) : QueryStatus :=
  match r with Ok d => Success d | Err _ => Failure end.

(** What is sent to the machine. *)
Definition fetched_event (state : DraftState) (status : QueryStatus) : option DraftEvent :=
  match state, status with
  | Fetching, Success (Some d) => Some (GET_DRAFT_SUCCESS d)
  | Fetching, Failure => Some GET_DRAFT_ERROR
  | _, _ => None
  end.
(** What the clean-up saves when it runs. *)
Definition saves_on_cleanup (state : DraftState) : bool :=
  match state with Ready Changed => true | _ => false end.

(** The renders of the page up to its end: an effect runs when the status is another one
    than at the effect before, which is cleaned up first; a clean-up sees the state of
    the render that its effect belongs to.  The result says of each clean-up if it
    saves. *)
Fixpoint cleanups (effect : option (QueryStatus * DraftState)) (renders : list (QueryStatus * DraftState)) : list bool :=
  match renders with
  | [] => match effect with Some e => [saves_on_cleanup e.2] | None => [] end
  | r :: renders' =>
      match effect with
      | Some e => if same_status e.1 r.1 then cleanups effect renders'
                  else saves_on_cleanup e.2 :: cleanups (Some r) renders'
      | None => cleanups (Some r) renders'
      end
  end.

(** ** What the actors do *)

Section outcomes.
Context {S : Type} `{DraftsLaws S, LodashLaws}.
Variables (i : string) (json : string → string).
Implicit Types (w : World (S := S)) (old new fresh prev : list BlockTree).
Abbreviation draft w := (draft_of (w_daemon w) i).

Lemma captured_eq editor old blocks new title title' :
  good_forest old → map_result (editor_tree editor) blocks = Ok new →
  captured_changes editor (createBlocksMap (to_node <$> old) "") blocks (Some title) (Some title') =
    Ok ((if bool_decide (Some title = Some title') then [] else [SetTitle title']) ++
        places_changes true (entries (doc_places old)) (doc_places new) ++
        extractDeletes (entries (doc_places old)) (pl_id <$> doc_places new)).
Proof.
  intros Ho Hn. unfold captured_changes. rewrite (good_map old Ho), compareBlocksWithMap_places, Hn.
  cbn [rbind fst snd]. change (forest_places "" None new) with (doc_places new). by case_bool_decide.
Qed.
Lemma restore_eq fresh prev :
  good_forest fresh →
  restore_changes (Some (to_node <$> fresh)) (to_node <$> prev) =
    Ok (places_changes false (entries (doc_places fresh)) (doc_places prev) ++
        extractDeletes (entries (doc_places fresh)) (pl_id <$> doc_places prev)).
Proof.
  intros Hf. unfold restore_changes. by rewrite (good_map fresh Hf), compareDraftWithMap_places.
Qed.
Lemma on_daemon_eq {A} (c : call S A) w s' r :
  c (w_daemon w) = (s', r) →
  on_daemon c w = ({| w_daemon := s'; w_cache := w_cache w; w_invalid := w_invalid w |}, r).
Proof. unfold on_daemon. by intros ->. Qed.
Lemma apply_title d t cs : apply_changes d (SetTitle t :: cs) =
  apply_changes {| s_tree := s_tree d; s_blocks := s_blocks d; s_title := t |} cs.
Proof. done. Qed.

(** A save reaches the daemon: if it resolves with a response, the stored draft has
    the editor's blocks and title, and their order if the children that stay with a
    parent keep theirs; with the message, nothing was sent and the
    stored draft is that already; if it rejects, the stored draft is as before and the
    cached one too. *)
Theorem save_outcomes w editor old blocks new title title' :
  draft w = Some (load_doc title old) → good_forest old → map_result (editor_tree editor) blocks = Ok new →
  good_forest new →
  let r := update_actor i json editor (createBlocksMap (to_node <$> old) "") blocks (Some title) (Some title') w in
  match r.2 with
  | Ok (inl _) => ∃ d, draft r.1 = Some d ∧ s_title d = title' ∧ has_blocks d new ∧ (keeps_order old new → holds d new)
  | Ok (inr _) => r.1 = w ∧ title = title' ∧ has_blocks (load_doc title old) new ∧
                  (keeps_order old new → holds (load_doc title old) new)
  | Err _ => draft r.1 = draft w ∧ w_cache r.1 = w_cache w
  end.
Proof.
  intros Hw Ho Hn Hgn r. unfold r, update_actor. rewrite (captured_eq editor old blocks new title title' Ho Hn).
  destruct (diff_applied true old new title' Ho Hgn) as (d' & Ha & Ht & Hh).
  set (cs := places_changes _ _ _ ++ _) in *.
  set (all := (if bool_decide _ then [] else _) ++ cs).
  assert (apply_changes (load_doc title old) all = Ok d') as Hall.
  { unfold all. case_bool_decide as E; [injection E as <-; exact Ha|]. cbn [app]. rewrite apply_title. exact Ha. }
  rewrite (c_bind_lift (Ok all) _ w all eq_refl). destruct all as [|c l] eqn:Eall.
  - cbn. injection Hall as Hd. rewrite Hd. split; [done|]. split; [|done].
    unfold all in Eall. case_bool_decide as E; [by injection E|done].
  - unfold c_catch, c_bind, on_daemon. pose proof (update_law i (c :: l) (w_daemon w)) as Hu. cbn zeta in Hu.
    destruct (updateDraft_call i (c :: l) (w_daemon w)) as [s' [doc|e]]; cbn [fst snd w_daemon w_cache] in Hu |- *; destruct Hu as [_ Hu]; [|done].
    destruct Hu as (d & d2 & Hd & Hap & Hs). rewrite Hw in Hd. injection Hd as <-.
    rewrite Hall in Hap. injection Hap as <-. by exists d'.
Qed.

(** C2. A restore is three calls, and what it leaves is what they did.  If it resolves, the
    stored draft has the published title and the blocks of the previous draft and no
    others, each below its parent and with its content up to [isBlocksEqual]; siblings
    are in the previous order if the children that a parent has in the published document
    too are in the same order there, and may be in another one otherwise.  If it rejects,
    the draft is untouched, or gone, or that of a new one, as the first, the second or
    the last call failed.  Ids are expected to be unique, and not the empty one or the
    trash's; the previous draft is one that the daemon gave, with all its blocks. *)
Theorem restore_outcomes w d prev :
  let p := published_of (w_daemon w) i in
  d_children d = Some (to_node <$> prev) → good_forest p.2 → good_forest prev →
  let r := restore_actor i json (Some d) w in
  match r.2 with
  | Ok _ => ∃ d', draft r.1 = Some d' ∧ s_title d' = p.1 ∧ has_blocks d' prev ∧ (keeps_order p.2 prev → holds d' prev)
  | Err _ =>
      let s1 := deleteDraft i (w_daemon w) in
      let s2 := createDraft i s1.1 in
      match s1.2, s2.2 with
      | Err _, _ => draft r.1 = draft w
      | Ok _, Err _ => draft r.1 = None
      | Ok _, Ok _ => draft r.1 = Some (load_doc p.1 p.2)
      end
  end.
Proof.
  intros p Hd Hf Hp r. unfold r, restore_actor. rewrite Hd. unfold c_catch.
  pose proof (delete_law i (w_daemon w)) as [Hpd Hdel].
  destruct (deleteDraft i (w_daemon w)) as [s1 [[]|e]] eqn:E1; cbn [fst snd] in Hpd, Hdel.
  2:{ erewrite c_bind_err by (by apply on_daemon_eq). exact Hdel. }
  erewrite c_bind_ok by (by apply on_daemon_eq).
  pose proof (create_law i s1) as [Hpc Hcr].
  destruct (createDraft i s1) as [s2 [o|e]] eqn:E2; cbn [fst snd] in Hpc, Hcr.
  2:{ erewrite c_bind_err by (by apply on_daemon_eq). cbn [fst snd]. rewrite E2. exact (eq_trans Hcr Hdel). }
  erewrite c_bind_ok by (by apply on_daemon_eq). cbn [fst snd]. rewrite E2. cbn [fst snd].
  rewrite Hpd in Hcr. fold p in Hcr. destruct Hcr as (Hdr & nd & -> & Hnd). cbn [mbind option_bind]. rewrite Hnd.
  destruct (diff_applied false p.2 prev p.1 Hf Hp) as (d' & Ha & Ht & Hh).
  change {| s_tree := _; s_blocks := _; s_title := p.1 |} with (load_doc p.1 p.2) in Ha.
  rewrite (c_bind_lift _ _ _ _ (restore_eq p.2 prev Hf)).
  set (cs := places_changes _ _ _ ++ _) in *. destruct cs as [|c l].
  - injection Ha as <-. by exists (load_doc p.1 p.2).
  - pose proof (update_law i (c :: l) s2) as [_ Hu].
    destruct (updateDraft_call i (c :: l) s2) as [s3 [doc|e]] eqn:E3; cbn [fst snd] in Hu.
    2:{ erewrite c_bind_err by (by apply on_daemon_eq). exact (eq_trans Hu Hdr). }
    erewrite c_bind_ok by (by apply on_daemon_eq).
    destruct Hu as (d1 & d2 & Hd1 & Hap & Hs). rewrite Hdr in Hd1. injection Hd1 as <-.
    rewrite Ha in Hap. injection Hap as <-. by exists d'.
Qed.

(** The load of a draft never fails: when the daemon's call does, the machine is
    told nothing and stays where it waits for the draft. *)
Theorem failed_load_is_silent w :
  let r := queryDraft i w in
  status_of r.2 ≠ Failure ∧
  (is_ok (getDraft i (w_daemon w)).2 = false → fetched_event Fetching (status_of r.2) = None).
Proof.
  intros r. unfold r, queryDraft, c_catch, on_daemon. by destruct (getDraft i (w_daemon w)) as [s' [d|e]]; cbn.
Qed.
End outcomes.

(** Leaving the page saves nothing: the clean-up sees the state of the render in which
    the query got its status, and that is one in which the machine still waits for the
    draft, whatever it came to since. *)
Theorem leaving_saves_nothing before status after :
  (∀ r, r ∈ before → r.1 = Loading ∧ r.2 = Fetching) → (∀ r, r ∈ after → same_status status r.1 = true) →
  same_status Loading status = false →
  existsb id (cleanups None (before ++ (status, Fetching) :: after)) = false.
Proof.
  intros Hb Ha Hs.
  assert (∀ e l, (∀ r, r ∈ l → same_status e.1 r.1 = true) → cleanups (Some e) l = [saves_on_cleanup e.2]) as Hsame.
  { intros e l. induction l as [|r l IH]; intros Hl; [done|]. cbn. rewrite Hl by (by left). apply IH. intros q Hq. apply Hl. by right. }
  assert (existsb id (cleanups (Some (Loading, Fetching)) (before ++ (status, Fetching) :: after)) = false) as H.
  { induction before as [|r l IH].
    - cbn [app cleanups fst]. rewrite Hs. cbn. rewrite Hsame by done. done.
    - destruct (Hb r) as [E1 E2]; [by left|]. cbn [app cleanups fst]. rewrite E1. cbn [same_status]. apply IH. intros q Hq. apply Hb. by right. }
  destruct before as [|r l]; cbn [app cleanups].
  - rewrite Hsame by done. done.
  - destruct (Hb r) as [E1 E2]; [by left|]. destruct r as [st q]. cbn in E1, E2. subst.
    cbn [app cleanups] in H. exact H.
Qed.

(** ** A daemon that fails where it is told to *)

Record TestDaemon : Type := {
  td_drafts : gmap string ServerDoc;
  td_published : string * list BlockTree;
  td_faults : list bool;
}.
Definition faulty {A} (c : TestDaemon → TestDaemon * result A) : call TestDaemon A := λ s,
  let s' := {| td_drafts := td_drafts s; td_published := td_published s; td_faults := tail (td_faults s) |} in
  match td_faults s with
  | true :: _ => (s', Err "offline")
  | _ => c s'
  end.
Definition with_drafts (s : TestDaemon) (m : gmap string ServerDoc) : TestDaemon :=
  {| td_drafts := m; td_published := td_published s; td_faults := td_faults s |}.
Definition doc_with (title : string) (children : list BlockTree) : HMDocument :=
  {| d_title := Some title; d_id := None; d_author := None; d_editors := []; d_children := Some (to_node <$> children);
     d_createTime := None; d_updateTime := None; d_publishTime := None; d_version := None; d_previousVersion := None |}.
#[export] Instance test_drafts : Drafts TestDaemon := {|
  getDraft := λ i, faulty (λ s, (s, Ok None));
  deleteDraft := λ i, faulty (λ s, (with_drafts s (delete i (td_drafts s)), Ok ()));
  createDraft := λ i, faulty (λ s,
    (with_drafts s (<[i := load_doc (td_published s).1 (td_published s).2]> (td_drafts s)),
     Ok (Some (doc_with (td_published s).1 (td_published s).2))));
  updateDraft_call := λ i cs, faulty (λ s,
    match td_drafts s !! i with
    | Some d => match apply_changes d cs with
                | Ok d' => (with_drafts s (<[i := d']> (td_drafts s)), Ok None)
                | Err e => (s, Err e)
                end
    | None => (s, Err "not found")
    end);
  draft_of := λ s i, td_drafts s !! i;
  published_of := λ s _, td_published s;
|}.
#[export] Instance test_drafts_laws : DraftsLaws TestDaemon.
Proof.
  split.
  - intros i s. cbn. unfold faulty. destruct (td_faults s) as [|[] l]; cbn; [|done|];
      (split; [done|]); apply lookup_delete_eq.
  - intros i s. cbn. unfold faulty. destruct (td_faults s) as [|[] l]; cbn; [|done|];
      (split; [done|]); (split; [apply lookup_insert_eq|by eexists]).
  - intros i cs s. cbn. unfold faulty. destruct (td_faults s) as [|[] l]; cbn; [|done|];
      (destruct (td_drafts s !! i) as [d|] eqn:E; [|done]);
      (destruct (apply_changes d cs) as [d'|e] eqn:Ea; cbn; [|done]); (split; [done|]);
      exists d, d'; (split; [done|]); (split; [done|]); apply lookup_insert_eq.
Qed.

Definition start_at (stored : list BlockTree) (faults : list bool) : World (S := TestDaemon) :=
  {| w_daemon := {| td_drafts := {[ "doc" := load_doc "T" stored ]}; td_published := ("P", ex_old); td_faults := faults |};
     w_cache := None; w_invalid := [] |}.
Definition plain_json (e : string) : string := e.
Definition ex_blocks : list EditorBlock := [ex_blk "a" "one" [ex_blk "c" "THREE" []]; ex_blk "x" "new" []].

(** The outcome of a run in a statement that goes by it. *)
Ltac run_outcome H :=
  cbv zeta in H;
  match type of H with
  | match ?r with _ => _ end =>
      let v := eval vm_compute in r in
      let E := fresh in assert (r = v) as E by (vm_compute; reflexivity); rewrite E in H; clear E
  end.
Ltac outcome_args := first [apply ex_good|by vm_compute].

Lemma save_outcomes_witness :
  (∃ d, draft_of (w_daemon (update_actor "doc" plain_json None (createBlocksMap (to_node <$> ex_old) "") ex_blocks
          (Some "T") (Some "U") (start_at ex_old [])).1) "doc" = Some d ∧ s_title d = "U" ∧ holds d ex_new) ∧
  draft_of (w_daemon (update_actor "doc" plain_json None (createBlocksMap (to_node <$> ex_old) "") ex_blocks
          (Some "T") (Some "U") (start_at ex_old [true])).1) "doc" = Some (load_doc "T" ex_old).
Proof.
  split.
  - unshelve epose proof (save_outcomes "doc" plain_json (start_at ex_old []) None ex_old ex_blocks ex_new "T" "U" _ _ _ _) as H;
      [outcome_args..|]. run_outcome H. destruct H as (d & H1 & H2 & _ & H3). exists d. split; [done|]. split; [done|]. apply H3, ex_keeps.
  - unshelve epose proof (save_outcomes "doc" plain_json (start_at ex_old [true]) None ex_old ex_blocks ex_new "T" "U" _ _ _ _) as H;
      [outcome_args..|]. run_outcome H. apply H.
Defined.

(** The second call fails: the draft is gone. *)
Lemma restore_outcomes_witness :
  (∃ d', draft_of (w_daemon (restore_actor "doc" plain_json (Some (doc_with "T" ex_new)) (start_at ex_new [])).1) "doc" = Some d' ∧
     s_title d' = "P" ∧ holds d' ex_new) ∧
  draft_of (w_daemon (restore_actor "doc" plain_json (Some (doc_with "T" ex_new)) (start_at ex_new [false; true])).1) "doc" = None.
Proof.
  split.
  - unshelve epose proof (restore_outcomes "doc" plain_json (start_at ex_new []) (doc_with "T" ex_new) ex_new _ _ _) as H;
      [outcome_args..|]. run_outcome H. destruct H as (d & H1 & H2 & _ & H3). exists d. split; [done|]. split; [done|]. apply H3, ex_keeps.
  - unshelve epose proof (restore_outcomes "doc" plain_json (start_at ex_new [false; true]) (doc_with "T" ex_new) ex_new _ _ _) as H;
      [outcome_args..|]. run_outcome H. exact H.
Defined.

Lemma failed_load_is_silent_witness :
  fetched_event Fetching (status_of (queryDraft "doc" (start_at ex_old [true])).2) = None.
Proof. apply (failed_load_is_silent "doc" (start_at ex_old [true])). by vm_compute. Defined.

Lemma leaving_saves_nothing_witness :
  existsb id (cleanups None [(Loading, Fetching); (Success (Some (doc_with "T" ex_old)), Fetching);
                             (Success (Some (doc_with "T" ex_old)), Ready Changed)]) = false.
Proof.
  apply (leaving_saves_nothing [(Loading, Fetching)] (Success (Some (doc_with "T" ex_old)))
           [(Success (Some (doc_with "T" ex_old)), Ready Changed)]).
  - by intros r ->%list_elem_of_singleton.
  - by intros r ->%list_elem_of_singleton.
  - done.
Defined.
