(* ===== verification/EditorApi.v ===== *)
(** * The editor's interface

    What [packages/editor/src/blocknote/core/BlockNoteEditor.ts] offers around the
    editor's document: the blocks it has, the block of an id, the traversal of blocks,
    the blocks around the cursor and in the selection, the styles there, and the edits
    that are ready-made commands. *)
From S2P Require Import Prelude.
From S2P Require Import JsString.
From S2P Require Import JsObject.
From S2P Require Import DaemonApi.
From S2P Require Import NodeConvert.
From S2P Require Import BlockNodes.
From S2P Require Import Positions.
From S2P Require Import PositionsFacts.
From S2P Require Import EditorBlocks.
From S2P Require Import EditorBlocksFacts.
From S2P Require Import EditorLookup.
From S2P Require Import NodeExamples.
From S2P Require Import PositionsModel.
From S2P Require Import EditorInsert.
From S2P Require Import EditorUpdate.
From S2P Require Import EditorExamples.

(** ** Reading the document *)

Section reading.
Context `{Schema, ProseMirror} {G : Type} (generateID : call G string).
Context (same : PNode → PNode → bool) (bs : obj (obj PropSpec)).
Abbreviation St := (G * Cache)%type.
Abbreviation read := (readNode generateID same bs).

(** The calls of a traversal: the state of the calls, and what was collected or the
    exception that ended it. *)
Abbreviation Reading A := (St * result A)%type.
Definition reading {A} (node : PNode) (k : Block → A) (s : St) : Reading A :=
  let r := read node s in (r.1, let* b := r.2 in Ok (k b)).
(** [doc.firstChild.descendants(f)] *)
Definition in_outer {A} (f : Reading A → PNode → Z → Reading A * bool) (a : A) (doc : PNode) : call St A := λ s,
  match n_content doc with
  | [] => (s, Err "TypeError")
  | firstChild :: _ => descendants f firstChild (s, Ok a)
  end.

Definition top_visit (st : Reading (list Block)) (node : PNode) (pos : Z) : Reading (list Block) * bool :=
  match st.2 with
  | Err _ => (st, false)
  | Ok blocks =>
      if existsb (λ b, bool_decide (bk_id b = attr (n_attrs node) "id")) blocks then (st, false)
      else (reading node (λ b, blocks ++ [b]) st.1, false)
  end.
Definition topLevelBlocks (doc : PNode) : call St (list Block) := in_outer top_visit [] doc.

Definition block_visit (id : string) (st : Reading (option Block)) (node : PNode) (pos : Z) :
    Reading (option Block) * bool :=
  match st.2 with
  | Err _ | Ok (Some _) => (st, false)
  | Ok None =>
      if negb (is_block (VStr id) node) then (st, true) else (reading node Some st.1, false)
  end.
Definition getBlock (blockIdentifier : string) (doc : PNode) : call St (option Block) :=
  if truthy blockIdentifier then in_outer (block_visit blockIdentifier) None doc else c_ret None.

(** [resolve(pos).index(depth)]: how many children of the node at the depth end at or
    before the position; and [resolve(pos).node()]. *)
Fixpoint child_index (l : list PNode) (off : Z) : nat :=
  match l with
  | [] => 0
  | n :: l' => if (nodeSize n <=? off)%Z then S (child_index l' (off - nodeSize n)) else 0
  end.
Definition index_at (doc : PNode) (pos : Z) (depth : nat) : result nat :=
  let* p := resolve doc pos in
  match p !! depth with
  | Some (n, start) => Ok (child_index (n_content n) (pos - start))
  | None => Err "TypeError"
  end.
Definition node_around (doc : PNode) (pos : Z) : result PNode :=
  let* p := resolve doc pos in
  match last p with
  | Some (n, _) => Ok n
  | None => Err "TypeError"
  end.

Record TextCursorPosition : Type := {
  tc_block : Block;
  tc_prevBlock : option Block;
  tc_nextBlock : option Block;
}.
Definition c_opt {A B} (f : A → call St B) (o : option A) : call St (option B) :=
  match o with
  | None => c_ret None
  | Some a => await* b := f a in c_ret (Some b)
  end.
(** The nodes: the block's, and those before and after it. *)
Definition cursor_nodes (doc : PNode) (from : Z) : result (PNode * option PNode * option PNode) :=
  let* b := getBlockInfoFromPos doc from in
  let* nodeIndex := index_at doc (bp_endPos b) (bp_depth b - 1) in
  let* around := node_around doc (bp_endPos b + 1) in
  let numNodes := length (n_content around) in
  let* prevNode :=
    if 0 <? nodeIndex then let* n := node_around doc (bp_startPos b - 2) in Ok (Some n) else Ok None in
  let* nextNode :=
    if nodeIndex <? numNodes - 1 then let* n := node_around doc (bp_endPos b + 2) in Ok (Some n) else Ok None in
  Ok (bp_node b, prevNode, nextNode).
Definition getTextCursorPosition (doc : PNode) (from : Z) : call St TextCursorPosition :=
  await* ns := c_lift (cursor_nodes doc from) in
  await* block := read ns.1.1 in
  await* prev := c_opt read ns.1.2 in
  await* next := c_opt read ns.2 in
  c_ret {| tc_block := block; tc_prevBlock := prev; tc_nextBlock := next |}.

Inductive CursorPlacement : Type := AtStart | AtEnd.
(** The position that is given to [setTextSelection]. *)
Definition setTextCursorPosition (targetBlock : string) (placement : CursorPlacement) (doc : PNode) : result Z :=
  let* n := getNodeById targetBlock doc in
  let* b := getBlockInfoFromPos doc (n.2 + 2) in
  Ok match placement with
     | AtStart => bp_startPos b + 1
     | AtEnd => bp_startPos b + nodeSize (bp_contentNode b) - 1
     end%Z.

Definition select_visit (doc : PNode) (from to : Z) (st : Reading (list Block)) (node : PNode) (pos : Z) :
    Reading (list Block) * bool :=
  match st.2 with
  | Err _ => (st, false)
  | Ok blocks =>
      if negb (String.eqb (type_group (n_type node)) "blockContent") then (st, true)
      else if (pos + nodeSize node <? from)%Z || (to <? pos)%Z then (st, true)
      else match node_around doc pos with
           | Err e => ((st.1, Err e), false)
           | Ok n => (reading n (λ b, blocks ++ [b]) st.1, false)
           end
  end.
Definition getSelection (doc : PNode) (from to : Z) : call St (option (list Block)) := λ s,
  if (from =? to)%Z then (s, Ok None)
  else let r := descendants (select_visit doc from to) doc (s, Ok []) in
       (r.1, let* l := r.2 in Ok (Some l)).

Definition canNestBlock (doc : PNode) (from : Z) : result bool :=
  let* b := getBlockInfoFromPos doc from in
  let* i := index_at doc (bp_startPos b) (bp_depth b - 1) in
  Ok (0 <? i).
Definition canUnnestBlock (doc : PNode) (from : Z) : result bool :=
  let* b := getBlockInfoFromPos doc from in Ok (2 <? bp_depth b).
End reading.

(** ** The traversal *)

(** The callback is a call; blocks are visited while it answers [true]. *)
Fixpoint all_true {S} (l : list (call S bool)) : call S bool :=
  match l with
  | [] => c_ret true
  | c :: l' => await* go := c in if go then all_true l' else c_ret false
  end.
Section traversal.
Context {S : Type} (reverse : bool) (callback : Block → call S bool).
Definition in_order {A} (l : list A) : list A := if reverse then rev l else l.
Fixpoint traverse_block (b : Block) : call S bool :=
  match b with
  | Blk _ _ _ _ children =>
      await* go := callback b in
      if go then all_true (in_order (List.map traverse_block children)) else c_ret false
  end.
Definition traverseBlockArray (blocks : list Block) : call S bool :=
  all_true (List.map traverse_block blocks).
Definition forEachBlock (topLevel : list Block) : call S () :=
  await* _ := traverseBlockArray (in_order topLevel) in c_ret tt.
(** The blocks in the order of their visits. *)
Fixpoint visits (b : Block) : list Block :=
  match b with Blk _ _ _ _ children => b :: concat (in_order (List.map visits children)) end.
End traversal.

(** ** Styles and links *)

Definition read_style (styles : Styles) (mark : Mark) : Styles :=
  if is_toggle (m_type mark) then oset styles (m_type mark) VTrue
  else if is_color (m_type mark) then oset styles (m_type mark) (attr (m_attrs mark) "color")
  else styles.
Definition getActiveStyles (marks : list Mark) : Styles := fold_left read_style marks [].

(** The commands of the editor that are called. *)
Inductive MarkCommand : Type :=
| SetMark (style : string) (attrs : Attrs)
| ToggleMark (style : string) (attrs : Attrs)
| UnsetMark (style : string).
Definition style_command (c : string → Attrs → MarkCommand) (e : string * AttrVal) : list MarkCommand :=
  if is_toggle e.1 then [c e.1 []] else if is_color e.1 then [c e.1 [("color", e.2)]] else [].
Definition addStyles (styles : Styles) : list MarkCommand := concat (style_command SetMark <$> styles).
Definition removeStyles (styles : Styles) : list MarkCommand := UnsetMark <$> (styles.*1).
Definition toggleStyles (styles : Styles) : list MarkCommand := concat (style_command ToggleMark <$> styles).

(** The steps of a dispatched transaction. *)
Inductive TextStep : Type :=
| InsertText (text : string) (from to : Z)
| AddMark (from to : Z) (mark : Mark).
(** [selected] is the text between [from] and [to]. *)
Definition createLink `{Schema} (url : string) (text : option string) (selected : string) (from to : Z) :
    result (option (list TextStep)) :=
  if String.eqb url "" then Ok None
  else
    let text := match text with Some t => if truthy t then t else selected | None => selected end in
    let* mark := schema_mark "link" [("href", VStr url)] in
    Ok (Some [InsertText text from to; AddMark from (from + Z.of_nat (len text)) mark]).

(** * What the interface gives *)

(** ** The traversal *)

Section block_tree.
Variable P : Block → Prop.
Hypothesis Hblock : ∀ i t p c l, Forall P l → P (Blk i t p c l).
Fixpoint blk_tree_ind (b : Block) : P b :=
  match b with
  | Blk i t p c l =>
      Hblock i t p c l
        ((fix go (l : list Block) : Forall P l :=
            match l with
            | [] => list.Forall_nil_2 P
            | x :: l' => list.Forall_cons_2 P x l' (blk_tree_ind x) (go l')
            end) l)
  end.
End block_tree.

Section traversal_facts.
Context {S : Type}.
Implicit Types (l k : list (call S bool)).

Lemma all_true_app l k s :
  all_true (l ++ k) s = (await* go := all_true l in if go then all_true k else c_ret false) s.
Proof.
  revert s. induction l as [|c l IH]; intros s; [done|]. cbn [app all_true]. unfold c_bind in *.
  destruct (c s) as [s' [[]|e]]; [apply IH|done|done].
Qed.
Lemma all_true_ext l k s : Forall2 (λ c c', ∀ s, c s = c' s) l k → all_true l s = all_true k s.
Proof.
  intros Hl. revert s. induction Hl as [|c c' l k Hc _ IH]; intros s; [done|]. cbn [all_true]. unfold c_bind.
  rewrite Hc. destruct (c' s) as [s' [[]|e]]; [apply IH|done|done].
Qed.
Lemma all_true_concat (ls : list (list (call S bool))) s : all_true (concat ls) s = all_true (all_true <$> ls) s.
Proof.
  revert s. induction ls as [|l ls IH]; intros s; [done|]. cbn [concat fmap list_fmap all_true].
  rewrite all_true_app. unfold c_bind. destruct (all_true l s) as [s' [[]|e]]; [apply IH|done|done].
Qed.
Lemma in_order_map {A B} (reverse : bool) (f : A → B) (l : list A) : in_order reverse (List.map f l) = f <$> in_order reverse l.
Proof. unfold in_order. destruct reverse; [|done]. symmetry. apply map_rev. Qed.
Lemma in_order_Forall {A} (reverse : bool) (P : A → Prop) (l : list A) : Forall P l → Forall P (in_order reverse l).
Proof. unfold in_order. destruct reverse; [|done]. apply Forall_rev. Qed.

Variables (reverse : bool) (callback : Block → call S bool).
Lemma traverse_list (l : list Block) s :
  Forall (λ b, ∀ s, traverse_block reverse callback b s = all_true (callback <$> visits reverse b) s) l →
  all_true (traverse_block reverse callback <$> l) s = all_true (callback <$> concat (visits reverse <$> l)) s.
Proof.
  intros Hl. rewrite (concat_map callback (visits reverse <$> l) : callback <$> concat _ = _), all_true_concat. apply all_true_ext.
  rewrite <- !list_fmap_compose. induction Hl as [|b l Hb _ IH]; constructor; [exact Hb|exact IH].
Qed.
Lemma traverse_visits b s : traverse_block reverse callback b s = all_true (callback <$> visits reverse b) s.
Proof.
  revert s. induction b as [i t p c l IH] using blk_tree_ind. intros s. cbn [traverse_block visits fmap list_fmap all_true].
  unfold c_bind. destruct (callback (Blk i t p c l) s) as [s' [[]|e]]; [|done|done].
  rewrite !in_order_map. rewrite traverse_list by (by apply in_order_Forall). done.
Qed.
End traversal_facts.

Lemma visits_perm b : visits true b ≡ₚ visits false b.
Proof.
  induction b as [i t p c l IH] using blk_tree_ind. cbn [visits]. constructor. unfold in_order.
  rewrite <- Permutation_rev. induction IH as [|b l Hb _ IH]; [done|]. cbn. by rewrite Hb, IH.
Qed.

(** [forEachBlock] calls back for every block of the document once, a block before the
    blocks below it, until the callback declines or throws; in reverse the siblings come
    the other way round, and a block still comes before those below it. *)
Theorem forEachBlock_spec {S} (reverse : bool) (callback : Block → call S bool) (topLevel : list Block) s :
  let order := concat (visits reverse <$> in_order reverse topLevel) in
  forEachBlock reverse callback topLevel s = (await* _ := all_true (callback <$> order) in c_ret tt) s ∧
  order ≡ₚ concat (visits false <$> topLevel).
Proof.
  intros order. split.
  - unfold forEachBlock, traverseBlockArray, c_bind. change (List.map (traverse_block reverse callback)) with (fmap (M:=list) (traverse_block reverse callback)).
    rewrite traverse_list; [done|]. apply Forall_forall. intros b _ s'. apply traverse_visits.
  - unfold order, in_order. destruct reverse; [|done]. rewrite <- Permutation_rev.
    induction topLevel as [|b l IH]; [done|]. cbn. by rewrite visits_perm, IH.
Qed.

(** ** The blocks around the cursor *)

Section cursor.
Context `{ProseMirrorLaws}.

Lemma child_index_app l n r off :
  forallb typed l = true → (0 ≤ off < nodeSize n)%Z → child_index (l ++ n :: r) (csize l + off) = length l.
Proof.
  induction l as [|x l IH]; intros Hl Ho; cbn [app child_index csize length].
  - destruct (Z.leb_spec (nodeSize n) (0 + off)); [lia|done].
  - cbn in Hl. bool_simpl. pose proof (csize_nonneg l ltac:(done)).
    destruct (Z.leb_spec (nodeSize x) (nodeSize x + csize l + off)); [|lia].
    replace (nodeSize x + csize l + off - nodeSize x)%Z with (csize l + off)%Z by lia. by rewrite IH.
Qed.

(** A block in its group. *)
Variables (f : Frame) (fs : list Frame) (n : PNode).
Abbreviation doc := (plug (f :: fs) n).
Hypothesis Ht : typed doc = true.
Hypothesis Hn : n_type n = "blockContainer".

Lemma sibling_typed : typed n = true ∧ typed_frame f.
Proof.
  split; [by eapply typed_plug_inv|]. pose proof (typed_frames _ _ Ht) as Hf. by inversion Hf.
Qed.
Lemma block_is_elem : ∃ a c ms, n = PElem "blockContainer" a c ms.
Proof. destruct n as [|t a c ms]; [done|]. cbn in Hn. subst t. by eexists _, _, _. Qed.
Lemma container_size : nodeSize n = (2 + content_size n)%Z ∧ (0 ≤ content_size n)%Z.
Proof.
  destruct block_is_elem as (a & c & ms & E). rewrite E. rewrite size_block by done. split; [done|].
  unfold content_size. cbn [n_content]. apply csize_nonneg. destruct sibling_typed as [Htn _].
  rewrite E in Htn. by apply typed_elem in Htn as (_ & _ & Htc).
Qed.
Lemma resolve_here l r : n_content n = l ++ r →
  resolve doc (inner (f :: fs) + csize l) = Ok (ancestors (f :: fs) n).
Proof.
  destruct block_is_elem as (a & c & ms & E). rewrite E in *. cbn [n_content]. intros ->. by apply resolve_between.
Qed.
Lemma index_here l r : n_content n = l ++ r →
  index_at doc (inner (f :: fs) + csize l) (length (f :: fs) - 1) = Ok (length (f_left f)).
Proof.
  intros Hc. unfold index_at. rewrite (resolve_here l r Hc). cbn [rbind ancestors length].
  rewrite lookup_app_l by (rewrite ancestors_length; lia).
  replace (S (length fs) - 1) with (length fs) by lia.
  pose proof (ancestors_last fs (fill_frame f [n])) as Hl. rewrite last_lookup, ancestors_length in Hl. cbn [pred] in Hl.
  rewrite Hl. f_equal. unfold fill_frame. cbn [n_content inner].
  replace (inner fs + csize (f_left f) + 1 + csize l - inner fs)%Z with (csize (f_left f) + (1 + csize l))%Z by lia.
  destruct sibling_typed as [Htn (_ & Hfl & _)]. destruct container_size as [Hs _].
  assert (0 ≤ csize l ≤ content_size n)%Z.
  { unfold content_size. rewrite Hc, csize_app.
    destruct block_is_elem as (a & c & ms & E). rewrite E in Htn, Hc. apply typed_elem in Htn as (_ & _ & Htc).
    cbn [n_content] in Hc. rewrite Hc, forallb_app in Htc. bool_simpl.
    pose proof (csize_nonneg l ltac:(done)). pose proof (csize_nonneg r ltac:(done)). lia. }
  by apply child_index_app; [|lia].
Qed.
Lemma node_around_path (d : PNode) pos gs m : resolve d pos = Ok (ancestors gs m) → node_around d pos = Ok m.
Proof. intros E. unfold node_around. rewrite E. cbn [rbind]. by rewrite ancestors_last. Qed.

(** The blocks beside it. *)
Definition beside (l r : list PNode) : Frame :=
  {| f_type := f_type f; f_attrs := f_attrs f; f_left := l; f_right := r; f_marks := f_marks f |}.
Lemma moved_along l m r : f_left f ++ n :: f_right f = l ++ m :: r → doc = plug (beside l r :: fs) m.
Proof. intros E. cbn [plug]. f_equal. unfold fill_frame, beside. cbn. by rewrite E. Qed.
Lemma group_around : f_type f = "blockGroup" ∧ Forall typed_block (f_left f ++ n :: f_right f).
Proof.
  pose proof (typed_plug_inv fs (fill_frame f [n]) Ht) as Hg. unfold fill_frame in Hg.
  pose proof Hg as Hg'. apply typed_elem in Hg' as (_ & Hc & _).
  assert (f_type f = "blockGroup") as Ef by (by eapply container_parent).
  rewrite Ef in Hg. split; [done|]. apply typed_group in Hg as (_ & Hk & Htk). cbn [app] in Hk, Htk.
  apply Forall_forall. intros x Hx%list_elem_of_In.
  split; [by eapply forallb_forall in Htk|]. eapply forallb_forall in Hk; [|exact Hx]. by apply String.eqb_eq.
Qed.

End cursor.

Section cursor_blocks.
Context `{ProseMirrorLaws}.
Implicit Types (f : Frame) (fs : list Frame) (n m : PNode).

(** From the end of a block's content, or from its start. *)
Lemma node_in_block f fs n l r :
  typed (plug (f :: fs) n) = true → n_type n = "blockContainer" → n_content n = l ++ r →
  node_around (plug (f :: fs) n) (inner (f :: fs) + csize l) = Ok n.
Proof. intros Ht Hn Hc. eapply node_around_path. by apply (resolve_here f fs n Ht Hn l r). Qed.

Lemma cursor_nodes_at f fs n pos :
  typed (plug (f :: fs) n) = true → n_type (plug (f :: fs) n) = "doc" → n_type n = "blockContainer" →
  owns (f :: fs) n pos → (1 < pos)%Z →
  cursor_nodes (plug (f :: fs) n) pos = Ok (n, last (f_left f), head (f_right f)).
Proof.
  intros Ht Hd Hn Ho Hp.
  destruct (lookup_describes _ Ht Hd) as [_ Hown].
  destruct (Hown (f :: fs) n pos eq_refl Hn Ho Hp) as (b & Eb & Hbn & Hs & He & Hdep & _).
  unfold cursor_nodes. rewrite Eb. cbn [rbind]. rewrite He, Hs, Hdep, Hbn. unfold content_size.
  rewrite (index_here f fs n Ht Hn (n_content n) []) by (by rewrite app_nil_r). cbn [rbind].
  destruct (group_around f fs n Ht Hn) as [Ef Hsib].
  assert (node_around (plug (f :: fs) n) (inner (f :: fs) + csize (n_content n) + 1) = Ok (fill_frame f [n])) as Eg.
  { eapply node_around_path. unfold fill_frame. cbn [plug inner]. unfold fill_frame.
    destruct (container_size f fs n Ht Hn) as [Hsz _]. unfold content_size in Hsz.
    replace (inner fs + csize (f_left f) + 1 + csize (n_content n) + 1)%Z with (inner fs + csize (f_left f ++ [n]))%Z
      by (rewrite csize_app, csize_cons; cbn; lia).
    cbn [app]. rewrite cons_middle, (assoc_L (++)). apply resolve_between; [|by rewrite Ef].
    rewrite <- (assoc_L (++)). exact Ht. }
  rewrite Eg. cbn [rbind]. unfold fill_frame at 1. cbn [n_content app]. rewrite length_app. cbn [length].
  assert ((if 0 <? length (f_left f)
           then let* m := node_around (plug (f :: fs) n) (inner (f :: fs) - 2) in Ok (Some m) else Ok None) =
          Ok (last (f_left f))) as ->.
  { destruct (f_left f) as [|m l _] eqn:E using rev_ind; [done|]. rewrite last_snoc, length_app.
    destruct (Nat.ltb_spec 0 (length l + length [m])); [|cbn in *; lia].
    rewrite (moved_along f fs n l m (n :: f_right f)) in Ht |- * by (by rewrite E, <- (assoc_L (++))).
    apply Forall_app in Hsib as [Hl _]. apply Forall_app in Hl as [_ Hm]. inversion_clear Hm as [|?? [_ Hmn] _].
    destruct (container_size _ _ _ Ht Hmn) as [Hsz _]. unfold content_size in Hsz.
    replace (inner (f :: fs) - 2)%Z with (inner (beside f l (n :: f_right f) :: fs) + csize (n_content m))%Z.
    - rewrite (node_in_block _ fs m (n_content m) []); [done|done|done|by rewrite app_nil_r].
    - cbn [inner beside f_left]. rewrite E, csize_app, csize_cons. cbn [csize]. lia. }
  cbn [rbind].
  assert ((if length (f_left f) <? length (f_left f) + S (length (f_right f)) - 1
           then let* m := node_around (plug (f :: fs) n) (inner (f :: fs) + csize (n_content n) + 2) in Ok (Some m)
           else Ok None) = Ok (head (f_right f))) as ->; [|done].
  destruct (f_right f) as [|m r] eqn:E; cbn [length head].
  - destruct (Nat.ltb_spec (length (f_left f)) (length (f_left f) + 1 - 1)); [lia|done].
  - destruct (Nat.ltb_spec (length (f_left f)) (length (f_left f) + S (S (length r)) - 1)); [|lia].
    destruct (container_size f fs n Ht Hn) as [Hsz _]. unfold content_size in Hsz.
    rewrite (moved_along f fs n (f_left f ++ [n]) m r) in Ht |- * by (by rewrite E, <- (assoc_L (++))).
    apply Forall_app in Hsib as [_ Hr]. inversion_clear Hr as [|?? _ Hr']. inversion_clear Hr' as [|?? [_ Hmn] _].
    replace (inner (f :: fs) + csize (n_content n) + 2)%Z
      with (inner (beside f (f_left f ++ [n]) r :: fs) + csize [])%Z
      by (cbn [inner beside f_left csize]; rewrite csize_app, csize_cons; cbn [csize]; lia).
    by rewrite (node_in_block _ fs m [] (n_content m)).
Qed.
End cursor_blocks.

(** What is read, without the cache. *)
Section read_back.
Context `{ProseMirrorLaws} {G : Type} (generateID : call G string).
Context (same : PNode → PNode → bool) (bs : obj (obj PropSpec)).
Hypothesis same_node : ∀ n m, same n m = true → n = m.
Abbreviation St := (G * Cache)%type.
Abbreviation read := (readNode generateID same bs).
Abbreviation coherent := (coherent bs).

Definition reads_as {A} (c : call St A) (r : result A) : Prop :=
  ∀ g cache, coherent cache → ∃ cache', c (g, cache) = ((g, cache'), r) ∧ coherent cache'.
Lemma reads_node n : ids_given n → reads_as (read n) (readBlock bs n).
Proof. intros Hn g cache Hc. by apply (nodes_read generateID bs same same_node n). Qed.
Lemma reads_ret {A} (a : A) : reads_as (c_ret a) (Ok a).
Proof. intros g cache Hc. by exists cache. Qed.
Lemma reads_bind {A B} (c : call St A) (r : result A) (k : A → call St B) (q : A → result B) :
  reads_as c r → (∀ a, r = Ok a → reads_as (k a) (q a)) → reads_as (c_bind c k) (rbind r q).
Proof.
  intros Hc Hk g cache Hco. destruct (Hc g cache Hco) as (c1 & E1 & Hc1).
  destruct r as [a|e]; cbn [rbind].
  - destruct (Hk a eq_refl g c1 Hc1) as (c2 & E2 & Hc2). exists c2. split; [|done]. by rewrite (c_bind_ok _ _ _ _ _ E1).
  - exists c1. split; [|done]. by rewrite (c_bind_err _ _ _ _ _ E1).
Qed.
Definition read_opt (o : option PNode) : result (option Block) :=
  match o with Some n => let* b := readBlock bs n in Ok (Some b) | None => Ok None end.
Lemma reads_opt o : (∀ n, o = Some n → ids_given n) → reads_as (c_opt read o) (read_opt o).
Proof.
  intros Ho. destruct o as [n|]; [|apply reads_ret]. apply reads_bind; [by apply reads_node, Ho|].
  intros b _. apply reads_ret.
Qed.

(** C36. With the cursor in a block: that block, the one before and the one after it among
    its siblings, each if there is one; it can be nested if there is one before it, and
    lifted if it is below another block. *)
Theorem getTextCursorPosition_spec (f : Frame) (fs : list Frame) (n : PNode) (pos : Z) :
  let doc := plug (f :: fs) n in
  typed doc = true → n_type doc = "doc" → n_type n = "blockContainer" →
  owns (f :: fs) n pos → (1 < pos)%Z → Forall ids_given (f_left f ++ n :: f_right f) →
  reads_as (getTextCursorPosition generateID same bs doc pos)
    (let* block := readBlock bs n in
     let* prev := read_opt (last (f_left f)) in
     let* next := read_opt (head (f_right f)) in
     Ok {| tc_block := block; tc_prevBlock := prev; tc_nextBlock := next |}) ∧
  canNestBlock doc pos = Ok (bool_decide (f_left f ≠ [])) ∧
  canUnnestBlock doc pos = Ok (2 <? length (f :: fs)).
Proof.
  intros doc Ht Hd Hn Ho Hp Hids. apply Forall_app in Hids as [Hl Hids]. inversion_clear Hids as [|?? Hin Hr].
  split; [|split].
  - intros g cache Hc. unfold getTextCursorPosition. unfold doc. rewrite cursor_nodes_at by done.
    rewrite (c_bind_lift _ _ _ _ eq_refl). cbn [fst snd]. revert g cache Hc. fold (@reads_as TextCursorPosition).
    apply reads_bind; [by apply reads_node|]. intros b _.
    apply reads_bind. { apply reads_opt. intros m Hm. apply last_Some_elem_of in Hm. rewrite Forall_forall in Hl. by apply Hl. }
    intros p _. apply reads_bind; [|intros; apply reads_ret].
    apply reads_opt. intros m Hm. destruct (f_right f); [done|]. injection Hm as ->. by inversion Hr.
  - destruct (lookup_describes _ Ht Hd) as [_ Hown].
    destruct (Hown (f :: fs) n pos eq_refl Hn Ho Hp) as (b & Eb & _ & Hs & _ & Hdep & _).
    unfold canNestBlock. rewrite Eb. cbn [rbind]. rewrite Hs, Hdep. unfold doc.
    pose proof (index_here f fs n Ht Hn [] (n_content n) eq_refl) as Ei. cbn [csize] in Ei. rewrite Z.add_0_r in Ei.
    rewrite Ei. cbn [rbind]. by destruct (f_left f).
  - destruct (lookup_describes _ Ht Hd) as [_ Hown].
    destruct (Hown (f :: fs) n pos eq_refl Hn Ho Hp) as (b & Eb & _ & _ & _ & Hdep & _).
    unfold canUnnestBlock. rewrite Eb. cbn [rbind]. by rewrite Hdep.
Qed.

(** The cursor is put at the start, or at the end, of the content of the block with the
    id. *)
Theorem setTextCursorPosition_spec (f : Frame) (fs : list Frame) (a : Attrs) (content : PNode) (group : list PNode)
    (ms : list Mark) (id : string) (placement : CursorPlacement) :
  let n := PElem "blockContainer" a (content :: group) ms in
  let doc := plug (f :: fs) n in
  typed doc = true → n_type doc = "doc" → attr a "id" = VStr id → VStr id ∉ ids_before (f :: fs) →
  let start := (inner (f :: fs) + 1)%Z in
  setTextCursorPosition id placement doc =
    Ok match placement with AtStart => start | AtEnd => (start + csize (n_content content))%Z end.
Proof.
  intros n doc Ht Hd Ha Hid start. pose proof (typed_in_doc _ _ Ht Hd eq_refl) as Hdoc.
  unfold setTextCursorPosition. unfold doc.
  rewrite (getNodeById_found id (f :: fs) n) by (done || unfold is_block; cbn; by rewrite bool_decide_eq_true).
  cbn [rbind snd]. pose proof (in_doc_inner _ Hdoc (typed_frames _ _ Ht)) as Hi.
  pose proof (typed_plug_inv _ _ Ht) as Hn. apply typed_container in Hn as (Hg & Htc & _).
  assert (nodeSize content = 2 + csize (n_content content))%Z as Hs.
  { destruct content as [|t ca cc cms]; [done|]. cbn [n_type] in Hg. apply size_block.
    apply type_group_content in Hg. unfold content_types in Hg.
    repeat (apply elem_of_cons in Hg as [->|Hg]; [done|]). by apply elem_of_nil in Hg. }
  assert (0 ≤ csize (n_content content))%Z as Hc0.
  { destruct content as [|t ca cc cms]; [done|]. apply typed_elem in Htc as (_ & _ & Htc). by apply csize_nonneg. }
  destruct (lookup_describes _ Ht Hd) as [_ Hown].
  destruct (Hown (f :: fs) n (hole (f :: fs) + 2)%Z eq_refl eq_refl) as (b & Eb & _ & Hst & _ & _ & Hb & _).
  { cbn [owns n_content n]. left. unfold hole. lia. }
  { unfold hole. lia. }
  unfold doc in Eb. rewrite Eb. cbn [rbind]. injection Hb as Hb. rewrite <- Hb, Hst, Hs. unfold start. destruct placement; f_equal; lia.
Qed.
End read_back.

(** ** The selection *)

Section selection.
Context `{ProseMirrorLaws}.
Variables (from to : Z).

Definition touched (pos size : Z) : bool := negb ((pos + size <? from) || (to <? pos))%Z.
(** The blocks whose content the range meets, for a block before which the position is,
    and for blocks in a row. *)
Fixpoint selected (n : PNode) (pos : Z) : list PNode :=
  match n with
  | PElem _ _ (content :: group) _ =>
      (if touched (pos + 1) (nodeSize content) then [n] else []) ++
      match group with
      | [PElem _ _ kids _] =>
          (fix go (l : list PNode) (p : Z) : list PNode :=
             match l with [] => [] | k :: l' => selected k p ++ go l' (p + nodeSize k)%Z end)
            kids (pos + 1 + nodeSize content + 1)%Z
      | _ => []
      end
  | _ => []
  end.
Fixpoint selected_list (l : list PNode) (p : Z) : list PNode :=
  match l with [] => [] | k :: l' => selected k p ++ selected_list l' (p + nodeSize k)%Z end.

Context {G : Type} (generateID : call G string).
Context (same : PNode → PNode → bool) (bs : obj (obj PropSpec)).
Abbreviation Sel := ((G * Cache) * result (list Block))%type.
Definition read_next (st : Sel) (n : PNode) : Sel :=
  match st.2 with
  | Err _ => st
  | Ok blocks => reading generateID same bs n (λ b, blocks ++ [b]) st.1
  end.
Abbreviation read_all l st := (fold_left read_next l st).

Section in_document.
Variable doc : PNode.
Hypothesis Ht : typed doc = true.
Abbreviation select := (select_visit generateID same bs doc from to).

Lemma select_stopped n pos s e : visit select n pos (s, Err e) = (s, Err e).
Proof. by destruct n. Qed.
Lemma read_all_stopped l s e : read_all l (s, Err e) = (s, Err e).
Proof. induction l; [done|]. done. Qed.
Lemma select_pass n pos s acc :
  type_group (n_type n) ≠ "blockContent" → select (s, Ok acc) n pos = ((s, Ok acc), true).
Proof. intros Hg. unfold select_visit. cbn [snd]. by rewrite (proj2 (String.eqb_neq _ _) Hg). Qed.
Lemma select_inline l pos s acc :
  forallb (λ n, String.eqb (type_group (n_type n)) "inline") l = true → forallb typed l = true →
  visit_list select l pos (s, Ok acc) = (s, Ok acc).
Proof.
  revert pos. induction l as [|n l IH]; intros pos Hi Hl; [done|]. cbn in Hi, Hl. bool_simpl. cbn [visit_list].
  assert (visit select n pos (s, Ok acc) = (s, Ok acc)) as ->; [|by apply IH].
  destruct n as [t nms|t a c nms].
  - cbn [visit]. rewrite select_pass; [done|]. by cbn.
  - rewrite visit_elem, select_pass by (cbn [n_type] in *; congruence). cbn [fst snd].
    match goal with Hx : typed _ = true |- _ => apply typed_elem in Hx as (Hnt & Hc & _) end. cbn [n_type] in *.
    assert (c = []) as ->; [|done].
    match goal with Hx : type_group _ = _ |- _ => apply type_group_inline in Hx as [->|[->| ->]] end; [done| |];
      by apply bool_decide_eq_true in Hc.
Qed.

(** The content of a block. *)
Lemma select_content fs a content group ms s acc :
  doc = plug fs (PElem "blockContainer" a (content :: group) ms) →
  type_group (n_type content) = "blockContent" → typed content = true →
  visit select content (inner fs) (s, Ok acc) =
  read_all (if touched (inner fs) (nodeSize content) then [PElem "blockContainer" a (content :: group) ms] else []) (s, Ok acc).
Proof.
  intros E Hg Htc. destruct content as [|t ca cc cms]; [done|]. set (content := PElem t ca cc cms) in *.
  unfold content at 1. rewrite visit_elem. fold content.
  assert (node_around doc (inner fs) = Ok (PElem "blockContainer" a (content :: group) ms)) as Er.
  { rewrite E. eapply node_around_path. apply resolve_inner; [by rewrite <- E|done]. }
  unfold select_visit. cbn [fst snd]. rewrite Hg. cbn [String.eqb Ascii.eqb Bool.eqb negb]. unfold touched.
  destruct ((inner fs + nodeSize content <? from)%Z || (to <? inner fs)%Z) eqn:Eo; cbn [negb fst snd].
  - cbn [fold_left]. apply typed_elem in Htc as (_ & Hc & Htc). apply type_group_content in Hg.
    apply select_inline; [by apply (inline_content t)|done].
  - rewrite Er. done.
Qed.

Definition selects (n : PNode) : Prop := ∀ fs st, doc = plug fs n → fs ≠ [] →
  visit select n (hole fs) st = read_all (selected n (hole fs)) st.

Lemma select_kids fs ga gms l k st :
  Forall selects k → doc = plug fs (PElem "blockGroup" ga (l ++ k) gms) →
  visit_list select k (inner fs + csize l) st = read_all (selected_list k (inner fs + csize l)) st.
Proof.
  intros Hk. revert l st. induction Hk as [|n k Hn _ IH]; intros l st E; [done|]. cbn [visit_list selected_list].
  rewrite fold_left_app. set (f := {| f_type := "blockGroup"; f_attrs := ga; f_left := l; f_right := k; f_marks := gms |}).
  assert (hole (f :: fs) = inner fs + csize l)%Z as Eh by (unfold hole; cbn; lia).
  rewrite <- Eh, (Hn (f :: fs)) by done. rewrite Eh.
  specialize (IH (l ++ [n])). rewrite csize_app, csize_cons in IH. cbn [csize] in IH. rewrite Z.add_0_r, Z.add_assoc in IH.
  apply IH. by rewrite <- (assoc_L (++)).
Qed.

Lemma block_selects n : typed_block n → selects n.
Proof.
  intros Hb. induction Hb as [a c ms Hg Htc|a c ga kids gms ms Hg Htc Hne Hk IH] using block_tree_ind;
    intros fs [s [acc|e]] E Hfs; try by rewrite select_stopped, read_all_stopped.
  - rewrite visit_elem, select_pass by done. cbn [fst snd visit_list].
    assert (hole fs + 1 = inner fs)%Z as Eh by (unfold hole; lia).
    cbn [selected]. rewrite Eh, app_nil_r. by apply select_content.
  - rewrite visit_elem, select_pass by done. cbn [fst snd visit_list].
    assert (hole fs + 1 = inner fs)%Z as Eh by (unfold hole; lia).
    cbn [selected]. rewrite Eh, fold_left_app. rewrite (select_content fs a c [PElem "blockGroup" ga kids gms] ms) by done.
    set (st := read_all _ (s, Ok acc)). change ((fix go (l : list PNode) (p : Z) : list PNode := _) kids) with (selected_list kids).
    set (f := {| f_type := "blockContainer"; f_attrs := a; f_left := [c]; f_right := []; f_marks := ms |}).
    assert (inner (f :: fs) = inner fs + nodeSize c + 1)%Z as Ei by (cbn; lia).
    destruct st as [s' [acc'|e]]; [|by rewrite select_stopped, read_all_stopped].
    rewrite visit_elem, select_pass by done. cbn [fst snd]. rewrite <- Ei.
    pose proof (select_kids (f :: fs) ga gms [] kids (s', Ok acc') IH E) as Hs. cbn [csize] in Hs.
    by rewrite Z.add_0_r in Hs.
Qed.
End in_document.

Lemma read_all_reads (same_node : ∀ n m, same n m = true → n = m) l acc :
  Forall ids_given l → reads_as bs (λ s, read_all l (s, Ok acc)) (let* r := map_result (readBlock bs) l in Ok (acc ++ r)).
Proof.
  intros Hl. revert acc. induction Hl as [|n l Hn _ IH]; intros acc g cache Hc.
  - exists cache. cbn. by rewrite app_nil_r.
  - cbn [fold_left]. unfold read_next at 2. cbn [fst snd]. unfold reading.
    destruct (reads_node generateID same bs same_node n Hn g cache Hc) as (c1 & E1 & Hc1). rewrite E1. cbn [fst snd].
    rewrite map_result_cons. destruct (readBlock bs n) as [b|e]; cbn [rbind].
    + destruct (IH (acc ++ [b]) g c1 Hc1) as (c2 & E2 & Hc2). exists c2. split; [|done]. rewrite E2.
      destruct (map_result (readBlock bs) l); [|done]. cbn. by rewrite <- (assoc_L (++)).
    + exists c1. split; [|done]. by rewrite read_all_stopped.
Qed.
End selection.

(** Where the whole document has ids, so have the selected blocks. *)
Lemma selected_given `{ProseMirror} from to n :
  (∀ pos, ids_given n → Forall ids_given (selected from to n pos)) ∧
  Forall (λ k, ∀ pos, ids_given k → Forall ids_given (selected from to k pos)) (n_content n).
Proof.
  induction n as [s ms|t a c ms IH] using pnode_tree_ind; [by split; [intros; constructor|constructor]|].
  split; [|eapply list.Forall_impl; [exact IH|]; by intros k []].
  intros pos Hids. destruct c as [|content group]; [constructor|]. cbn [selected]. apply Forall_app. split.
  { destruct (touched _ _ _ _); [|constructor]. by apply list.Forall_singleton. }
  destruct group as [|[|t1 a1 kids m1] [|]]; try constructor. cbn in Hids. destruct Hids as [_ Hk%ids_given_kids].
  inversion_clear IH as [|?? _ IH']. inversion_clear IH' as [|?? [_ Hks] _]. cbn [n_content] in Hks.
  generalize (pos + 1 + nodeSize content + 1)%Z as p.
  induction kids as [|k kids IHk]; intros p; [constructor|].
  inversion_clear Hk. inversion_clear Hks. apply Forall_app. split; [auto|]. by apply IHk.
Qed.

Section documents.
Context `{ProseMirrorLaws} {G : Type} (generateID : call G string).
Context (same : PNode → PNode → bool) (bs : obj (obj PropSpec)).
Hypothesis same_node : ∀ n m, same n m = true → n = m.
Variables (a ga : Attrs) (kids : list PNode) (gms ms : list Mark).
Abbreviation doc := (PElem "doc" a [PElem "blockGroup" ga kids gms] ms).

(** The selection has the blocks whose content the selected range meets, in document
    order, nested ones included; a cursor is no selection. *)
Theorem getSelection_spec from to :
  typed doc = true → Forall ids_given kids →
  reads_as bs (getSelection generateID same bs doc from to)
    (if (from =? to)%Z then Ok None
     else let* blocks := map_result (readBlock bs) (selected_list from to kids 1) in Ok (Some blocks)).
Proof.
  intros Ht Hids g cache Hc. unfold getSelection. destruct (from =? to)%Z; [by exists cache|].
  rewrite descendants_eq. cbn [n_content visit_list]. rewrite visit_elem, select_pass by done. cbn [fst snd].
  pose proof Ht as Hk. apply typed_elem in Hk as (_ & _ & Hk). cbn [forallb] in Hk. rewrite andb_true_r in Hk.
  apply typed_group in Hk as (_ & Hk & Htk).
  pose proof (select_kids from to generateID same bs doc [doc_frame a ms] ga gms [] kids ((g, cache), Ok [])) as Es.
  cbn [inner doc_frame f_left csize] in Es. rewrite !Z.add_0_r in Es. rewrite Es; [|apply Forall_forall|done].
  - assert (Forall ids_given (selected_list from to kids 1)) as Hsel.
    { clear -Hids. generalize 1%Z as p. induction Hids as [|k kids Hk _ IH]; intros p; [constructor|].
      cbn [selected_list]. apply Forall_app. split; [by apply selected_given|apply IH]. }
    destruct (read_all_reads generateID same bs same_node _ [] Hsel g cache Hc) as (c1 & E1 & Hc1).
    exists c1. split; [|done]. cbn beta in E1. change (0 + 1)%Z with 1%Z.  rewrite E1. cbn [fst snd rbind app]. by destruct (map_result _ _).
  - intros k Hin%list_elem_of_In. apply block_selects; [done|]. split.
    + by eapply forallb_forall in Htk.
    + eapply forallb_forall in Hk; [|done]. by apply String.eqb_eq.
Qed.

(** The first of the nodes with each id. *)
Fixpoint firsts (seen : list AttrVal) (l : list PNode) : list PNode :=
  match l with
  | [] => []
  | n :: l' =>
      if bool_decide (attr (n_attrs n) "id" ∈ seen) then firsts seen l'
      else n :: firsts (seen ++ [attr (n_attrs n) "id"]) l'
  end.
Lemma readBlock_id n b : readBlock bs n = Ok b → bk_id b = attr (n_attrs n) "id".
Proof.
  rewrite readBlock_eq. destruct (negb _); [done|]. destruct (getBlockInfo n) as [i|] eqn:Ei; [|done]. cbn [rbind].
  apply getBlockInfo_id in Ei. destruct (block_head _ _ _); [|done]. destruct (map_result _ _); [|done].
  by intros [= <-].
Qed.
Lemma top_visits l pos acc : Forall ids_given l → 
  reads_as bs (λ s, visit_list (top_visit generateID same bs) l pos (s, Ok acc))
    (let* r := map_result (readBlock bs) (firsts (bk_id <$> acc) l) in Ok (acc ++ r)).
Proof.
  intros Hl. revert pos acc. induction Hl as [|n l Hn Hl IH]; intros pos acc g cache Hc.
  { exists cache. cbn. by rewrite app_nil_r. }
  cbn [visit_list firsts].
  assert (visit (top_visit generateID same bs) n pos ((g, cache), Ok acc) =
          (top_visit generateID same bs ((g, cache), Ok acc) n pos).1) as ->.
  { assert ((top_visit generateID same bs ((g, cache), Ok acc) n pos).2 = false) as Ef
      by (unfold top_visit; cbn [snd]; by destruct (existsb _ _)).
    destruct n; cbn [visit]; by rewrite Ef. }
  unfold top_visit at 2. cbn [fst snd].
  assert (existsb (λ b, bool_decide (bk_id b = attr (n_attrs n) "id")) acc =
          bool_decide (attr (n_attrs n) "id" ∈ bk_id <$> acc)) as ->.
  { apply eq_true_iff_eq. rewrite existsb_exists, bool_decide_eq_true, list_elem_of_fmap. split.
    - intros (b & Hb%list_elem_of_In & E%bool_decide_eq_true). by exists b.
    - intros (b & E & Hb%list_elem_of_In). exists b. split; [done|]. by apply bool_decide_eq_true. }
  destruct (bool_decide (attr (n_attrs n) "id" ∈ bk_id <$> acc)); cbn [fst]; [by apply IH|].
  unfold reading. destruct (reads_node generateID same bs same_node n Hn g cache Hc) as (c1 & E1 & Hc1). rewrite E1. cbn [fst snd].
  rewrite map_result_cons. destruct (readBlock bs n) as [b|e] eqn:Eb; cbn [rbind].
  - destruct (IH (pos + nodeSize n)%Z (acc ++ [b]) g c1 Hc1) as (c2 & E2 & Hc2). exists c2. split; [|done]. rewrite E2.
    rewrite fmap_app. cbn [fmap list_fmap]. rewrite (readBlock_id n b Eb).
    destruct (map_result (readBlock bs) (firsts ((bk_id <$> acc) ++ [attr (n_attrs n) "id"]) l)); cbn [rbind]; [|done].
    cbn. by rewrite <- (assoc_L (++)).
  - exists c1. split; [|done]. by apply (f_equal (λ x, x)), visit_list_stuck.
Qed.

(** [topLevelBlocks] has the blocks of the outermost group, of those with the same id
    the first alone. *)
Theorem topLevelBlocks_spec :
  Forall ids_given kids →
  reads_as bs (topLevelBlocks generateID same bs doc) (map_result (readBlock bs) (firsts [] kids)).
Proof.
  intros Hids g cache Hc. unfold topLevelBlocks, in_outer. cbn [n_content]. rewrite descendants_eq. cbn [n_content].
  destruct (top_visits kids 0 [] Hids g cache Hc) as (c1 & E1 & Hc1). exists c1. split; [|done]. rewrite E1.
  cbn [fmap list_fmap]. by destruct (map_result _ _).
Qed.

(** [getBlock] is the block at which [getNodeById] arrives; where that throws, or for
    an empty id, there is none. *)
Theorem getBlock_spec id s :
  getBlock generateID same bs id doc s =
  (if truthy id then match getNodeById id doc with
                     | Ok (n, _) => reading generateID same bs n Some s
                     | Err _ => (s, Ok None)
                     end
   else (s, Ok None)).
Proof.
  unfold getBlock, getNodeById, in_outer. cbn [n_content]. destruct (truthy id); [|done]. rewrite !descendants_eq. cbn [n_content].
  set (found (o : option (PNode * Z)) := match o with Some (n, _) => reading generateID same bs n Some s | None => (s, Ok None) end).
  assert (∀ l, Forall (λ n, ∀ pos o, visit (block_visit generateID same bs id) n pos (found o) = found (visit (look_for (VStr id)) n pos o)) l →
            ∀ pos o, visit_list (block_visit generateID same bs id) l pos (found o) = found (visit_list (look_for (VStr id)) l pos o)) as Hlist.
  { induction 1 as [|n l Hn _ IH]; intros pos o; [done|]. cbn [visit_list]. by rewrite Hn, IH. }
  assert (∀ r n pos, block_visit generateID same bs id (found (Some r)) n pos = (found (Some r), false)) as Hf.
  { intros [m q] n pos. unfold block_visit, found, reading. by destruct (readNode generateID same bs m s) as [? []]. }
  assert (∀ n pos o, visit (block_visit generateID same bs id) n pos (found o) = found (visit (look_for (VStr id)) n pos o)) as Hv.
  { induction n as [t nms|t na c nms IH] using pnode_tree_ind; intros pos [r|].
    - cbn [visit look_for]. by rewrite Hf.
    - done.
    - by rewrite !visit_elem, Hf.
    - rewrite !visit_elem. cbn [look_for].
      assert (block_visit generateID same bs id (found None) (PElem t na c nms) pos =
        if is_block (VStr id) (PElem t na c nms) then (found (Some (PElem t na c nms, (pos + 1)%Z)), false) else (found None, true))
        as -> by (unfold block_visit; cbn [found snd]; by destruct (is_block _ _)).
      destruct (is_block (VStr id) (PElem t na c nms)); cbn [fst snd]; [done|]. apply (Hlist c IH). }
  pose proof (Hlist kids (proj2 (Forall_forall _ _) (λ n _, Hv n)) 0%Z None) as E. cbn [found] in E. rewrite E.
  by destruct (visit_list (look_for _) _ _ _) as [[]|].
Qed.
End documents.

(** ** Styles *)

(** The active styles are those that the text would be read with into a block; where
    that is refused for a mark that it does not know, the mark is passed over. *)
Theorem getActiveStyles_spec marks :
  match read_marks marks with
  | Ok (styles, _) => getActiveStyles marks = styles
  | Err _ => ∃ m, m ∈ marks ∧ m_type m ≠ "link" ∧ is_toggle (m_type m) = false ∧ is_color (m_type m) = false
  end.
Proof.
  unfold read_marks, getActiveStyles. change (@nil (string * AttrVal)) with (fst (@nil (string * AttrVal), @None Mark)) at 2.
  generalize (@nil (string * AttrVal), @None Mark) as acc. induction marks as [|m marks IH]; intros acc.
  - cbn. by destruct acc.
  - cbn [fold_result fold_left]. unfold read_mark at 1, read_style at 2.
    destruct (String.eqb_spec (m_type m) "link") as [El|Hl].
    + cbn [rbind]. rewrite El. change (is_toggle "link") with false. change (is_color "link") with false. cbn iota.
      specialize (IH (acc.1, Some m)). destruct (fold_result _ _ _) as [[st l]|e]; [done|].
      destruct IH as (m' & Hin & Hm). exists m'. split; [by right|done].
    + destruct (is_toggle (m_type m)) eqn:Et; cbn [rbind].
      * specialize (IH (oset acc.1 (m_type m) VTrue, acc.2)). destruct (fold_result _ _ _) as [[st l]|e]; [done|].
        destruct IH as (m' & Hin & Hm). exists m'. split; [by right|done].
      * destruct (is_color (m_type m)) eqn:Ec; cbn [rbind].
        -- specialize (IH (oset acc.1 (m_type m) (attr (m_attrs m) "color"), acc.2)). destruct (fold_result _ _ _) as [[st l]|e]; [done|].
           destruct IH as (m' & Hin & Hm). exists m'. split; [by right|done].
        -- exists m. split; [by left|done].
Qed.

(** ** The interface at an example *)

Abbreviation read_example := (readBlock sample_schema).
Definition nothing_cached : coherent sample_schema no_cache := no_cache_coherent sample_schema eq.

Lemma getTextCursorPosition_spec_witness :
  ∃ block next cache,
    getTextCursorPosition no_ids same_node_eq sample_schema example_doc 4 (tt, no_cache) =
    ((tt, cache), Ok {| tc_block := block; tc_prevBlock := None; tc_nextBlock := Some next |}) ∧
    bk_id block = VStr "a" ∧ bk_id next = VStr "c" ∧
    canNestBlock example_doc 4 = Ok false ∧ canUnnestBlock example_doc 4 = Ok false.
Proof.
  destruct (getTextCursorPosition_spec no_ids same_node_eq sample_schema same_node_is
              (inside (new_group []) [] [block_c]) [inside example_doc [] []] block_a 4) as (Hr & Hn & Hu);
    [by vm_compute|done|done|left; vm_compute; split; discriminate|done| |].
  { repeat (constructor; [vm_compute; repeat split; discriminate|]). constructor. }
  destruct (Hr tt no_cache nothing_cached) as (cache & E & _). eexists _, _, cache.
  split; [exact E|]. split; [done|]. split; [done|]. split; [exact Hn|exact Hu].
Defined.

Ltac run_read E :=
  match type of E with
  | _ = (_, ?r) => let v := eval vm_compute in r in replace r with v in E by (vm_compute; reflexivity)
  end.
Definition frames_of_b : list Frame := inside block_a [paragraph "one"] [] :: frames_a.
Lemma setTextCursorPosition_spec_witness :
  setTextCursorPosition "b" AtStart example_doc = Ok 10%Z ∧ setTextCursorPosition "b" AtEnd example_doc = Ok 13%Z.
Proof.
  assert (∀ placement, setTextCursorPosition "b" placement example_doc =
            Ok match placement with AtStart => 10%Z | AtEnd => 13%Z end) as E; [|by split].
  intros placement.
  unshelve epose proof (setTextCursorPosition_spec (inside (new_group []) [] []) frames_of_b
    (block_attrs "b") (paragraph "two") [] [] "b" placement _ _ _ _) as E;
    [by vm_compute..|apply (bool_decide_unpack _); by vm_compute|].
  destruct placement; vm_compute in E |- *; exact E.
Defined.

Lemma getSelection_spec_witness :
  ∃ b c cache, getSelection no_ids same_node_eq sample_schema example_doc 11 19 (tt, no_cache) = ((tt, cache), Ok (Some [b; c])) ∧
    bk_id b = VStr "b" ∧ bk_id c = VStr "c".
Proof.
  destruct (getSelection_spec no_ids same_node_eq sample_schema same_node_is [] (n_attrs (new_group []))
              [block_a; block_c] [] [] 11 19) with (g := tt) (cache := no_cache) as (cache & E & _);
    [by vm_compute| |apply nothing_cached|].
  { repeat (constructor; [vm_compute; repeat split; discriminate|]). constructor. }
  run_read E. match type of E with _ = (_, Ok (Some [?b; ?c])) => exists b, c, cache end.
  split; [|by clear E]. vm_compute in E |- *. exact E.
Defined.

(** Two blocks with the same id are one for the editor's clients: what a save compares
    and stores lacks the second. *)
Lemma topLevelBlocks_spec_witness :
  ∃ b cache, topLevelBlocks no_ids same_node_eq sample_schema (document [block_b; container "b" (paragraph "lost") []]) (tt, no_cache) =
    ((tt, cache), Ok [b]) ∧ bk_id b = VStr "b".
Proof.
  destruct (topLevelBlocks_spec no_ids same_node_eq sample_schema same_node_is [] (n_attrs (new_group []))
              [block_b; container "b" (paragraph "lost") []] [] []) with (g := tt) (cache := no_cache) as (cache & E & _);
    [|apply nothing_cached|].
  { repeat (constructor; [vm_compute; repeat split; discriminate|]). constructor. }
  run_read E. match type of E with _ = (_, Ok [?b]) => exists b, cache end.
  split; [|by clear E]. vm_compute in E |- *. exact E.
Defined.

(** In reverse a block comes before its children all the same. *)
Example reverse_order :
  let b i l := Blk (VStr i) "paragraph" [] [] l in
  bk_id <$> visits true (b "a" [b "b" []; b "c" []]) = [VStr "a"; VStr "c"; VStr "b"].
Proof. done. Qed.
