(* ===== verification/LinkPaste.v ===== *)
(** * Pasting links

    Of packages/editor/src: tiptap-extension-link/helpers/pasteHandler.ts, which decides
    what becomes of a paste, looks up what a link points to and shows the menu of what can
    be done with it; blocknote/core/extensions/LinkMenu/defaultLinkMenuItems.tsx, the
    items of that menu and what they do; and [youtubeParser] of utils.ts.  The editor is
    a class of the edits that are used, with laws; its states are dispatched to
    [SuggestMenu.Link.apply]. *)
From S2P Require Import Prelude.
From S2P Require Import JsString.
From S2P Require Import JsObject.
From S2P Require Import Autocomplete.
From S2P Require Import EntityId.
From S2P Require Import DaemonApi.
From S2P Require Import NodeConvert.
From S2P Require Import BlockNodes.
From S2P Require Import NodeExamples.
From S2P Require Import Positions.
From S2P Require Import PositionsFacts.
From S2P Require Import EditorBlocks.
From S2P Require Import EditorBlocksFacts.
From S2P Require Import EditorLookup.
From S2P Require Import EditorInsert.
From S2P Require Import PositionsModel.
From S2P Require Import EditorUpdate.
From S2P Require Import EditorExamples.
From S2P Require Import EditorApi.
From S2P Require Import WebLinks.
From S2P Require Import SuggestMenu.

(** ** What a URL seems to be *)

Definition name_char (c : ascii) : bool :=
  negb (Ascii.eqb c "/" || Ascii.eqb c "\" || Ascii.eqb c "&" || Ascii.eqb c "?").
(** [\w] *)
Definition word_char (c : ascii) : bool := is_digit c || is_lower c || is_upper c || Ascii.eqb c "_".
Definition param_char (c : ascii) : bool := Ascii.eqb c "?" || Ascii.eqb c "&".
Definition not_newline (c : ascii) : bool := negb (is_newline c).

(** The lookahead: the end, or parameters up to it on one line. *)
Definition params_or_end (s : list ascii) : bool :=
  match s with [] => true | c :: s' => param_char c && forallb not_newline s' end.
(** How long the extension at the start is, a longer one first. *)
Definition extension_at (s : list ascii) : option nat :=
  match s with
  | "."%char :: r =>
      let try (n : nat) := (n <=? length r) && forallb word_char (take n r) && params_or_end (drop n r) in
      if try 4 then Some 5 else if try 3 then Some 4 else None
  | _ => None
  end.
Fixpoint run_of (p : ascii → bool) (s : list ascii) : nat :=
  match s with c :: s' => if p c then S (run_of p s') else 0 | [] => 0 end.
(** The name before it, as long as it can be. *)
Fixpoint try_names (n : nat) (s : list ascii) : option (list ascii) :=
  match n with
  | O => None
  | S m => match extension_at (drop n s) with
           | Some k => Some (take (n + k) s)
           | None => try_names m s
           end
  end.
Definition match_here (s : list ascii) : option (list ascii) := try_names (run_of name_char s) s.
(** The first match of the expression for a file name. *)
Fixpoint match_file (s : list ascii) : option (list ascii) :=
  match match_here s with
  | Some m => Some m
  | None => match s with [] => None | _ :: s' => match_file s' end
  end.

Definition is_one_of (l : list string) (s : string) : bool := existsb (String.eqb s) l.
Definition checkMediaUrl (url : string) : nat * string :=
  match match_file (chars url) with
  | Some m =>
      let f := of_chars m in
      let extension := default "" (last (js_split "." f)) in
      if is_one_of ["png"; "jpg"; "jpeg"] extension then (1, f)
      else if is_one_of ["pdf"; "xml"; "csv"] extension then (2, f)
      else if is_one_of ["mp4"; "webm"; "ogg"] extension then (3, f)
      else (0, "")
  | None =>
      if existsb (λ v, js_includes v url) ["youtu.be"; "youtube"; "vimeo"] then (3, "")
      else if existsb (λ v, js_includes v url) ["twitter"; "x.com"] then (4, "")
      else (0, "")
  end.

(** [youtubeParser]: after the last place where one of the alternatives matches. *)
Definition eat (c : ascii) (s : list ascii) : list ascii :=
  match s with d :: s' => if Ascii.eqb c d then s' else s | [] => [] end.
Definition eats (p s : string) : option (list ascii) :=
  if js_startsWith p s then Some (drop (len p) (chars s)) else None.
Definition youtube_alternative (s : list ascii) : option (list ascii) :=
  match s with
  | "y" :: "o" :: "u" :: "t" :: "u" :: c :: "b" :: "e" :: "/" :: r => if not_newline c then Some r else None
  | _ => None
  end%char.
Definition user_alternative (s : list ascii) : option (list ascii) :=
  match s with
  | "/" :: "u" :: "/" :: c :: "/" :: r => if word_char c then Some r else None
  | _ => None
  end%char.
Definition first_some {A} (l : list (option A)) : option A :=
  List.fold_right (λ o r, match o with Some _ => o | None => r end) None l.
Definition id_char (c : ascii) : bool := negb (Ascii.eqb c "#" || Ascii.eqb c "&" || Ascii.eqb c "?").
Definition video_at (s : list ascii) : option (list ascii) :=
  let t := of_chars s in
  r ← first_some [youtube_alternative s; eats "v/" t; user_alternative s; eats "embed/" t; eats "watch?" t];
  let r := eat "=" (eat "v" (eat "?" r)) in
  Some (take (run_of id_char r) r).
Fixpoint last_video (n : nat) (s : list ascii) : option (list ascii) :=
  match (if forallb not_newline (take n s) then video_at (drop n s) else None), n with
  | Some v, _ => Some v
  | None, S m => last_video m s
  | None, O => None
  end.
Definition youtubeParser (url : string) : option string :=
  match last_video (len url) (chars url) with
  | Some v => if length v =? 11 then Some (of_chars v) else None
  | None => None
  end.

Example videos :
  youtubeParser "https://www.youtube.com/watch?v=dQw4w9WgXcQ&t=1" = Some "dQw4w9WgXcQ" ∧
  youtubeParser "https://youtu.be/dQw4w9WgXcQ" = Some "dQw4w9WgXcQ" ∧
  youtubeParser "https://www.youtube.com/@user" = None.
Proof. by vm_compute. Qed.
(** A site whose name ends like that of X is taken for it, but X's front page is not. *)
Example media_urls :
  checkMediaUrl "https://a.com/b/photo.png?size=1" = (1, "photo.png") ∧
  checkMediaUrl "https://youtu.be/dQw4w9WgXcQ" = (3, "") ∧
  checkMediaUrl "https://www.dropbox.com/s/1" = (4, "") ∧ checkMediaUrl "https://x.com" = (0, "") ∧
  checkMediaUrl "https://a.com/photo.PNG" = (0, "").
Proof. by vm_compute. Qed.

(** ** The items of the menu *)

Inductive ItemAction : Type :=
| WebLinkAction (docTitle : option string) (sourceUrl : string)
| NoAction
| EmbedAction (view : string) (sourceUrl : option string)
| MentionAction (docTitle : string)
| MediaAction (media : string) (fileName sourceUrl : option string).
Record LinkItem : Type := { li_name : string; li_disabled : bool; li_action : ItemAction }.
Definition enabled (name : string) (a : ItemAction) : LinkItem :=
  {| li_name := name; li_disabled := false; li_action := a |}.

Record ItemsFor : Type := {
  if_isLoading : bool;
  if_hmId : option UnpackedHypermediaId;
  if_media : option string;
  if_sourceUrl : option string;
  if_fileName : option string;
  if_docTitle : option string;
}.
Definition upper_char (c : ascii) : ascii := if is_lower c then Ascii.ascii_of_N (char_code c - 32) else c.
Definition capitalized (s : string) : string :=
  match s with String c r => String (upper_char c) r | EmptyString => "" end.
Definition entity_label (u : UnpackedHypermediaId) : string := undef_str (labelOfEntityType (u_type u)).
Definition title_or_label (u : UnpackedHypermediaId) (docTitle : option string) : string :=
  match docTitle with Some t => if truthy t then quoted t else entity_label u | None => entity_label u end.

Definition loadingItem : LinkItem := {| li_name := "Checking link..."; li_disabled := true; li_action := NoAction |}.
Definition web_items (o : ItemsFor) : list LinkItem :=
  match if_sourceUrl o with
  | Some u => if truthy u && negb (isHypermediaScheme (Some u)) then [enabled "Web Link" (WebLinkAction (if_docTitle o) u)] else []
  | None => []
  end.
Definition card_items (o : ItemsFor) (u : UnpackedHypermediaId) : list LinkItem :=
  if String.eqb (u_type u) "c" then []
  else [enabled ("Insert Card of " +:+ title_or_label u (if_docTitle o)) (EmbedAction "card" (if_sourceUrl o))].
Definition embed_items (o : ItemsFor) (u : UnpackedHypermediaId) : list LinkItem :=
  if truthy (u_type u) then
    [enabled ("Embed " +:+ entity_label u +:+ " " +:+ title_or_label u (if_docTitle o)) (EmbedAction "content" (if_sourceUrl o))]
  else [].
Definition title_items (o : ItemsFor) : list LinkItem :=
  match if_docTitle o with
  | Some t =>
      if truthy t && negb (bool_decide (Some t = if_sourceUrl o)) then
        [enabled ("Link as " +:+ quoted t) NoAction; enabled ("Mention " +:+ quoted t) (MentionAction t)]
      else []
  | None => []
  end.
Definition media_items (o : ItemsFor) : list LinkItem :=
  match if_media o with
  | Some m =>
      if truthy m then
        [enabled ("Convert to " +:+ if String.eqb m "twitter" then "X Post embed" else capitalized m)
           (MediaAction m (if_fileName o) (if_sourceUrl o))]
      else []
  | None => []
  end.
(** Each part comes before those that were made before it. *)
Definition getLinkMenuItems (o : ItemsFor) : list LinkItem :=
  if if_isLoading o then loadingItem :: web_items o
  else match if_hmId o with
       | Some u => title_items o ++ embed_items o u ++ card_items o u ++ web_items o
       | None => media_items o ++ web_items o
       end.

(** *** What an item does *)

(** The steps that are dispatched: a text is linked again; a node takes the place of a
    range; a new block is made at a position, a node put in the range of its content,
    and the texts that are left put back in the block; a mention takes the place of the
    title before it. *)
Inductive MenuEdit : Type :=
| Relink (from to : Z) (text href : string)
| Nothing
| ReplaceWith (from to : Z) (type : string) (attrs : obj string)
| NewBlock (pos from to : Z) (type : string) (attrs : obj string) (left_from left_to : Z) (kept : list PNode)
| Mention (ref : string) (pos from to : Z).

Section execute.
Context `{UrlApi, ProseMirror} (cut : PNode → Z → Z → PNode).

(** [p = doc.resolve(pos)]: [p.start()], [p.end()] and [p.before(p.depth)]. *)
Definition bounds_at (doc : PNode) (pos : Z) : result (Z * Z) :=
  let* p := resolve doc pos in
  match last p with
  | Some (n, start) => Ok (start, start + content_size n)%Z
  | None => Err "TypeError"
  end.
Definition before_at (doc : PNode) (pos : Z) : result Z :=
  let* p := resolve doc pos in
  match last p with
  | Some (_, start) => if length p =? 1 then Err "RangeError" else Ok (start - 1)%Z
  | None => Err "TypeError"
  end.
Definition texts_of (n : PNode) : list PNode :=
  descendants (λ acc child _, (if String.eqb (n_type child) "text" then acc ++ [child] else acc, true)) n [].

Definition insertNode (doc : PNode) (from : Z) (ref type : string) (attrs : obj string) : result MenuEdit :=
  let* block := getBlockInfoFromPos doc from in
  if 1 <? length (n_content (bp_contentNode block)) then
    let* b := bounds_at doc from in
    let kept := texts_of (cut doc b.1 (from - Z.of_nat (len ref))%Z) ++ texts_of (cut doc from b.2) in
    let nextBlockPos := (b.2 + 2)%Z in
    let nextBlockContentPos := (nextBlockPos + 2)%Z in
    let* f := before_at doc nextBlockContentPos in
    let* start := before_at doc from in
    Ok (NewBlock nextBlockPos f (nextBlockContentPos + 1) type attrs start b.2 kept)
  else
    let* start := before_at doc from in Ok (ReplaceWith start from type attrs).

(** [if (isPublicGatewayLink(ref) || isHypermediaScheme(ref)) { ... }] *)
Definition normal_ref (gwUrl ref : string) : result (option string) :=
  if isPublicGatewayLink ref gwUrl || isHypermediaScheme (Some ref) then
    let* id := normalizeHmId ref gwUrl in Ok (or_null id)
  else Ok (Some ref).
Definition media_url (media ref : string) : string :=
  if String.eqb media "video" then
    if js_includes "youtu.be" ref || js_includes "youtube" ref then
      match youtubeParser ref with Some i => "https://www.youtube.com/embed/" +:+ i | None => "" end
    else if js_includes "vimeo" ref then "https://player.vimeo.com/video/" +:+ default "" (last (js_split "/" ref))
    else ""
  else "".

(** An item's [execute(editor, ref)]; [from] and [to] are the selection's. *)
Definition execute (gwUrl : string) (a : ItemAction) (ref : string) (doc : PNode) (from to : Z) : result MenuEdit :=
  match a with
  | NoAction => Ok Nothing
  | WebLinkAction None _ => Err "TypeError"
  | WebLinkAction (Some t) url =>
      let pos := (from - Z.of_nat (len t))%Z in
      Ok (Relink pos (pos + Z.of_nat (len t)) t url)
  | EmbedAction view sourceUrl =>
      let* r := normal_ref gwUrl ref in
      match r with
      | None => Ok Nothing
      | Some ref =>
          if negb (from =? to)%Z then Ok Nothing
          else insertNode doc from (default ref (or_null sourceUrl)) "embed" [("url", ref); ("view", view)]
      end
  | MentionAction t =>
      let* r := normal_ref gwUrl ref in
      match r with
      | None => Ok Nothing
      | Some ref =>
          if negb (from =? to)%Z then Ok Nothing
          else let* _ := getBlockInfoFromPos doc from in
               Ok (Mention ref from (from - Z.of_nat (len t)) from)
      end
  | MediaAction media fileName sourceUrl =>
      if negb (from =? to)%Z then Ok Nothing
      else
        let embedUrl := media_url media ref in
        let target := default ref (or_null sourceUrl) in
        if String.eqb media "twitter" then insertNode doc from target "web-embed" [("url", ref)]
        else insertNode doc from target media
               [("url", embedUrl); ("src", if truthy embedUrl then "" else ref); ("name", default "" (or_null fileName))]
  end.
End execute.

(** The item for a plain link has no title to insert. *)
Lemma web_link_item_throws `{UrlApi, ProseMirror} cut gwUrl url ref doc from to :
  truthy url = true → isHypermediaScheme (Some url) = false →
  let o := {| if_isLoading := false; if_hmId := None; if_media := None; if_sourceUrl := Some url;
              if_fileName := None; if_docTitle := None |} in
  execute cut gwUrl <$> (li_action <$> getLinkMenuItems o) = [execute cut gwUrl (WebLinkAction None url)] ∧
  execute cut gwUrl (WebLinkAction None url) ref doc from to = Err "TypeError".
Proof. intros Ht Hh o. split; [|done]. unfold getLinkMenuItems, media_items, web_items, o. cbn -[isHypermediaScheme truthy]. by rewrite Ht, Hh. Qed.

(** *** Where a node goes *)

Section inserted.
Context `{UrlApi} `{ProseMirrorLaws} (cut : PNode → Z → Z → PNode).
Variables (f : Frame) (fs : list Frame) (a : Attrs) (content : PNode) (ms : list Mark).
Abbreviation n := (PElem "blockContainer" a [content] ms).
Abbreviation doc := (plug (f :: fs) n).
Hypothesis Ht : typed doc = true.
Hypothesis Hd : n_type doc = "doc".

Definition around_content : list Frame :=
  {| f_type := "blockContainer"; f_attrs := a; f_left := []; f_right := []; f_marks := ms |} :: f :: fs.
Lemma link_content_start : inner around_content = (inner (f :: fs) + 1)%Z.
Proof. cbn. lia. Qed.
Lemma content_shape : type_group (n_type content) = "blockContent" ∧ (0 ≤ content_size content)%Z ∧
  nodeSize n = (4 + content_size content)%Z.
Proof.
  pose proof (typed_plug_inv _ _ Ht) as Hn. apply typed_container in Hn as (Hg & Htc & _). split; [done|].
  destruct (content_type_elem content Hg Htc) as (t & ca & c & cms & -> & Hl & _ & _ & Hc & _).
  split; [by apply csize_nonneg|]. rewrite size_block by done. cbn [csize]. rewrite size_block by done. unfold content_size. cbn. lia.
Qed.
Lemma resolve_content pos :
  (inner around_content ≤ pos ≤ inner around_content + content_size content)%Z →
  resolve doc pos = Ok (ancestors around_content content).
Proof. intros Hp. destruct content_shape as (Hg & _ & _). by apply (resolve_in_content around_content content). Qed.

(** The position after the block, and two more. *)
Definition after_block : Z := (inner around_content + content_size content + 2)%Z.
Lemma before_path d pos gs m : resolve d pos = Ok (ancestors gs m) → gs ≠ [] → before_at d pos = Ok (hole gs).
Proof.
  intros E Hne. unfold before_at. rewrite E. cbn [rbind]. rewrite ancestors_last, ancestors_length.
  destruct gs; [done|]. done.
Qed.

Lemma before_next m right : f_right f = m :: right → before_at doc (after_block + 2) = Ok (after_block + 1)%Z.
Proof.
  intros Hr. destruct (group_around f fs n Ht eq_refl) as [_ Hsib]. rewrite Hr in Hsib.
  apply Forall_app in Hsib as [_ Hsib]. inversion_clear Hsib as [|?? _ Hs]. inversion_clear Hs as [|?? [Hmt Hmn] _].
  destruct (container_inv m Hmt Hmn) as (ma & mc & group & mms & -> & Hg & _).
  set (gs := content_frame ma group mms :: beside f (f_left f ++ [n]) right :: fs).
  assert (inner gs = after_block + 2)%Z as Ei.
  { unfold after_block. rewrite link_content_start. cbn [gs inner content_frame beside f_left csize]. rewrite csize_app, csize_cons.
    destruct content_shape as (_ & _ & ->). cbn [csize]. lia. }
  assert (doc = plug gs mc) as Ep.
  { rewrite (moved_along f fs n (f_left f ++ [n]) (PElem "blockContainer" ma (mc :: group) mms) right); [done|].
    by rewrite Hr, <- (assoc_L (++)). }
  pose proof Ht as Ht'. rewrite Ep in Ht' |- *. rewrite <- Ei. rewrite (before_path _ _ gs mc); [unfold hole; f_equal; lia| |done].
  destruct (content_type_elem mc Hg) as (t & ca & c & cms & -> & Hl & _); [by apply (typed_plug_inv gs)|]. by apply resolve_inner.
Qed.

(** The last block below another one. *)
Lemma before_outer pf gf gs : f_right f = [] → fs = pf :: gf :: gs → gs ≠ [] → n_type (fill_frame pf [fill_frame f [n]]) = "blockContainer" → f_right pf = [] →
  before_at doc (after_block + 2) = Ok (hole gs).
Proof.
  intros Hr Hfs Hgs Hp Hpr. set (P := fill_frame pf [fill_frame f [n]]) in *.
  assert (doc = plug gs (PElem (f_type gf) (f_attrs gf) ((f_left gf ++ [P]) ++ f_right gf) (f_marks gf))) as Ep.
  { rewrite Hfs. cbn [plug]. f_equal. unfold fill_frame at 1. by rewrite <- (assoc_L (++)). }
  assert (after_block + 2 = inner gs + csize (f_left gf ++ [P]))%Z as Ei.
  { unfold after_block. rewrite link_content_start, Hfs. cbn [inner]. rewrite csize_app, csize_cons. cbn [csize].
    pose proof (typed_frames _ _ Ht) as Hf. rewrite Hfs in Hf. inversion_clear Hf as [|?? (Hlf & _) Hf2]. inversion_clear Hf2 as [|?? (Hlp & _) _].
    unfold P, fill_frame. rewrite size_block by done. rewrite csize_app, Hpr, app_nil_r. cbn [csize app].
    rewrite size_block by done. rewrite csize_app, Hr. destruct content_shape as (_ & _ & Hs). cbn [csize app] in *. lia. }
  pose proof Ht as Ht'. rewrite Ep in Ht' |- *. rewrite Ei.
  apply (before_path _ _ gs (PElem (f_type gf) (f_attrs gf) ((f_left gf ++ [P]) ++ f_right gf) (f_marks gf))); [|done].
  apply resolve_between; [done|]. pose proof (typed_frames _ _ Ht) as Hf. rewrite Hfs in Hf.
  inversion_clear Hf as [|?? _ Hf2]. inversion_clear Hf2 as [|?? _ Hf3]. by inversion_clear Hf3 as [|?? (Hl & _) _].
Qed.

(** The last block of the document. *)
Lemma before_nothing da dms : f_right f = [] → fs = [doc_frame da dms] → is_ok (before_at doc (after_block + 2)) = false.
Proof.
  intros Hr Hfs. unfold before_at.
  assert (is_ok (resolve doc (after_block + 2)) = false) as E; [|by destruct (resolve doc _)].
  apply resolve_outside; [done|]. right. unfold after_block. rewrite link_content_start, Hfs.
  unfold content_size at 1, fill_frame. cbn [plug doc_frame n_content f_left f_right f_type f_attrs f_marks app csize fill_frame].
  pose proof (typed_frames _ _ Ht) as Hf. inversion_clear Hf as [|?? (Hlf & _) _].
  unfold fill_frame at 1. cbn [doc_frame f_left f_right app n_content csize]. unfold fill_frame. rewrite size_block by done.
  rewrite csize_app, Hr. destruct content_shape as (_ & ? & Hs). cbn [csize app inner doc_frame f_left] in *. lia.
Qed.
Lemma group_is_last pf gf gs : fs = pf :: gf :: gs → f_type pf = "blockContainer" → f_right pf = [].
Proof.
  intros Hfs Hp. pose proof Ht as Htp. rewrite Hfs in Htp. cbn [plug] in Htp. apply typed_plug_inv in Htp. fold (plug [gf]) in Htp.
  apply typed_elem in Htp as (_ & _ & Htp). rewrite !forallb_app in Htp. cbn [forallb] in Htp. bool_simpl.
  match goal with Hx : typed (fill_frame pf _) = true |- _ => destruct (container_inv _ Hx Hp) as (pa & pc & pg & pms & E & Hg & _ & Hgr) end.
  injection E as _ _ E _. destruct (group_around f fs n Ht eq_refl) as [Hf _].
  destruct (f_left pf) as [|x l]; cbn [app] in E.
  - injection E as E _. rewrite <- E in Hg. unfold fill_frame in Hg. cbn [n_type] in Hg. by rewrite Hf in Hg.
  - injection E as _ E. destruct Hgr as [->|(ga & kids & gms & -> & _)].
    + by destruct l.
    + destruct l as [|y l]; cbn [app] in E; [by injection E|]. injection E as _ E. by destruct l.
Qed.

(** A card, an embed or a medium that is made of a link in a line with other text goes
    into a new block after the one with the link if there is a block after it on its
    level.  For the last block of a lower level, the range that it is to replace starts
    before the whole level of the block above; after the last block of the document the
    item throws. *)
Theorem insertNode_spec from (ref type : string) (attrs : obj string) :
  (inner around_content ≤ from ≤ inner around_content + content_size content)%Z →
  1 < length (n_content content) →
  let last_pos := (inner around_content + content_size content)%Z in
  let kept := texts_of (cut doc (inner around_content) (from - Z.of_nat (len ref))) ++ texts_of (cut doc from last_pos) in
  let edit at_ := NewBlock after_block at_ (after_block + 3) type attrs (inner around_content - 1) last_pos kept in
  let r := insertNode cut doc from ref type attrs in
  (f_right f ≠ [] → r = Ok (edit (after_block + 1)%Z)) ∧
  (∀ pf gf gs, f_right f = [] → fs = pf :: gf :: gs → f_type pf = "blockContainer" → gs ≠ [] → r = Ok (edit (hole gs))) ∧
  (∀ da dms, f_right f = [] → fs = [doc_frame da dms] → is_ok r = false).
Proof.
  intros Hfrom Hc last_pos kept edit r.
  assert (r = let* at_ := before_at doc (after_block + 2) in Ok (edit at_)) as Er.
  { unfold r, insertNode.
    pose proof (typed_in_doc _ _ Ht Hd eq_refl) as Hdoc. pose proof (in_doc_inner _ Hdoc (typed_frames _ _ Ht)) as Hi.
    pose proof link_content_start as Ecs. destruct content_shape as (Hg & Hcs & Hs).
    destruct (lookup_describes _ Ht Hd) as [_ Hown].
    destruct (Hown (f :: fs) n from eq_refl eq_refl) as (b & Eb & _ & _ & _ & _ & Hb & _).
    { left. unfold hole. rewrite size_block in Hs by done. cbn [csize] in Hs. lia. }
    { lia. }
    rewrite Eb. cbn [rbind]. injection Hb as Hb. rewrite <- Hb. rewrite (proj2 (Nat.ltb_lt _ _)) by done.
    pose proof (resolve_content from Hfrom) as Ec.
    assert (bounds_at doc from = Ok (inner around_content, last_pos)) as Ebounds.
    { unfold bounds_at. rewrite Ec. cbn [rbind]. by rewrite ancestors_last. }
    rewrite Ebounds. cbn [rbind fst snd]. change (last_pos + 2)%Z with after_block.
    destruct (before_at doc (after_block + 2)) as [q|e]; [|done]. cbn [rbind].
    rewrite (before_path _ _ around_content content) by done. cbn [rbind]. unfold edit, hole. do 2 f_equal. lia. }
  rewrite Er. split; [|split].
  - intros Hr. destruct (f_right f) as [|m right] eqn:E; [done|]. by rewrite (before_next m right).
  - intros pf gf gs Hr Hfs Hp Hgs. by rewrite (before_outer pf gf gs) by (done || by eapply group_is_last).
  - intros da dms Hr Hfs. pose proof (before_nothing da dms Hr Hfs) as E. by destruct (before_at doc (after_block + 2)).
Qed.
End inserted.

(** ** What becomes of a paste *)

Record SliceNode : Type := {
  sn_text : string;
  sn_type : string;
  sn_marks : list (string * option string);      (* the type of a mark, and its href *)
  sn_size : Z;
}.
(** A result of linkify's [find]. *)
Record FoundLink : Type := { fl_isLink : bool; fl_value : string; fl_href : string; fl_start : Z; fl_end : Z }.

Inductive FragmentStep : Type :=
| InsertNode (pos : Z) (node : SliceNode)
| LinkRange (from to : Z) (href : string).
Inductive Paste : Type :=
| PassOn                                          (* returns false *)
| MarkSelection (href : string) (unchecked : bool)
| PasteEntity (id : UnpackedHypermediaId) (url : string)
| PasteLink (href : string)
| PasteFragment (steps : list FragmentStep).

Section handle.
Context `{UrlApi} (find : string → list FoundLink) (gwUrl : string).

(** The loop over the nodes: the position, the steps, [deleteOnly] and the links of the
    last node; [hasMark] is [tr.doc.rangeHasMark] after the steps. *)
Record Fragment : Type := {
  fg_pos : Z;
  fg_steps : list FragmentStep;
  fg_deleteOnly : bool;
  fg_links : list FoundLink;
}.
Variable hasMark : list FragmentStep → Z → Z → bool.
Definition link_range (currentPos : Z) (steps : list FragmentStep) (l : FoundLink) : list FragmentStep :=
  let from := (currentPos + fl_start l)%Z in
  let to := (currentPos + fl_end l)%Z in
  if hasMark steps from to then steps else steps ++ [LinkRange from to (fl_href l)].
Definition paste_node (st : Fragment) (node : SliceNode) : Fragment :=
  let fragmentLinks := find (sn_text node) in
  let steps := fg_steps st ++ [InsertNode (fg_pos st - 1) node] in
  {| fg_pos := (fg_pos st + sn_size node)%Z;
     fg_steps := fold_left (link_range (fg_pos st)) fragmentLinks steps;
     fg_deleteOnly := match fragmentLinks with [] => fg_deleteOnly st | _ => false end;
     fg_links := fragmentLinks |}.
Definition paste_fragment (nodes : list SliceNode) (from : Z) (empty : bool) : Paste :=
  let st := fold_left paste_node nodes
    {| fg_pos := from; fg_steps := []; fg_deleteOnly := negb empty; fg_links := [] |} in
  (* the document is changed by a deletion or an insertion *)
  let docChanged := negb empty || negb (Nat.eqb (length (fg_steps st)) 0) in
  if docChanged && negb (fg_deleteOnly st) && negb (Nat.eqb (length (fg_links st)) 0)
  then PasteFragment (fg_steps st) else PassOn.

Definition link_marks (nodes : list SliceNode) : list (option string) :=
  concat ((λ n, snd <$> List.filter (λ m, String.eqb m.1 "link") (sn_marks n)) <$> nodes).
Definition id_opts (u : UnpackedHypermediaId) : HmIdOpts :=
  {| o_version := u_version u; o_blockRef := u_blockRef u; o_blockRange := u_blockRange u;
     o_groupPathName := None; o_variants := u_variants u; o_latest := u_latest u; o_hostname := None |}.

Definition handlePaste (inCode : bool) (nodes : list SliceNode) (from : Z) (empty linkOnPaste : bool) : result Paste :=
  if inCode then Ok PassOn
  else
    let pastedLinkMarks := link_marks nodes in
    let textContent := js_trim (String.concat "" (sn_text <$> nodes)) in
    let link := List.find (λ l, fl_isLink l && String.eqb (fl_value l) textContent) (find textContent) in
    let isHm := isHypermediaScheme (Some textContent) || isPublicGatewayLink textContent gwUrl in
    let* nativeHyperLink := if isHm then normalizeHmId textContent gwUrl else Ok None in
    let* unpackedHmId := if isHm then unpackHmId textContent else Ok None in
    let pastedLink :=
      js_or nativeHyperLink
        match pastedLinkMarks with
        | href :: _ => href
        | [] => or_null (fl_href <$> link)
        end in
    if negb empty && linkOnPaste && otruthy pastedLink then
      Ok (MarkSelection (default "" pastedLink) (negb (otruthy nativeHyperLink)))
    else
      let marked := match nodes with
                    | n :: _ => String.eqb (sn_type n) "text" && existsb (λ m, String.eqb m.1 "link") (sn_marks n)
                    | [] => false
                    end in
      if marked then Ok PassOn
      else
        let other :=
          match link with
          | Some l => if empty then PasteLink (fl_href l) else paste_fragment nodes from empty
          | None => paste_fragment nodes from empty
          end in
        match unpackedHmId with
        | Some u =>
            if empty && otruthy (u_eid u) && truthy (u_type u) then
              let* url := createHmId (u_type u) (undef_str (u_eid u)) (id_opts u) in
              Ok (PasteEntity u url)
            else Ok other
        | None => Ok other
        end.

(** The links of a paste are made if its last part has one; those of the parts before it
    alone are not. *)
Lemma paste_fragment_links nodes last_node from empty :
  paste_fragment (nodes ++ [last_node]) from empty ≠ PassOn ↔ find (sn_text last_node) ≠ [].
Proof.
  unfold paste_fragment. rewrite fold_left_app. cbn [fold_left].
  set (st := fold_left paste_node nodes _). unfold paste_node. cbn [fg_links fg_deleteOnly fg_steps].
  destruct (find (sn_text last_node)) as [|l ls] eqn:E; cbn [length].
  - rewrite andb_false_r. done.
  - assert (∀ p steps k, length steps ≠ 0 → length (fold_left (link_range p) k steps) ≠ 0) as Hlen.
    { intros p steps k. revert steps. induction k as [|x k IH]; intros steps Hs; [done|]. cbn [fold_left]. apply IH.
      unfold link_range. destruct (hasMark _ _ _); [done|]. rewrite length_app. lia. }
    destruct (Nat.eqb_spec (length (fold_left (link_range (fg_pos st)) (l :: ls) (fg_steps st ++ [InsertNode (fg_pos st - 1) last_node]))) 0) as [E0|_].
    + exfalso. revert E0. apply Hlen. rewrite length_app. cbn. lia.
    + rewrite orb_true_r. cbn [negb andb Nat.eqb]. done.
Qed.
End handle.

(** ** Looking up what was pasted *)

(** The editor: its document, what the menu's plugin sees of it, and the edits of a
    transaction.  [le_doc] is compared when a transaction is dispatched. *)
Class LinkEditor (Ed D : Type) : Type := {
  le_doc : Ed → D;
  le_view : Ed → EdState;
  insertText : Ed → string → Z → Ed;
  addMark : Ed → Z → Z → string → Ed;
  deleteRange : Ed → Z → Z → Ed;
  valid_pos : Ed → Z → Prop;
}.

Section lookups.
Context `{UrlApi} {Ed D : Type} `{EqDecision D} `{LinkEditor Ed D}.
Variables (gwUrl decoration : string).
Abbreviation MenuState := (@Link.PluginState LinkItem).
Abbreviation Meta := (@Link.Meta LinkItem).

Record LinkView : Type := { lv_ed : Ed; lv_menu : MenuState }.
(** A transaction: the state it is made for, what it is by now, and its meta. *)
Record Tr : Type := { tr_before : Ed; tr_now : Ed }.
Definition fresh_tr (v : LinkView) : Tr := {| tr_before := lv_ed v; tr_now := lv_ed v |}.
Definition mismatched : string := "RangeError: Applying a mismatched transaction".
Definition plain_tr (m : option Meta) : Link.Transaction :=
  {| Link.t_orderedListIndexing := false; Link.t_meta := m; Link.t_focus := false; Link.t_blur := false; Link.t_pointer := false |}.
(** [view.dispatch(tr)] *)
Definition dispatch (t : Tr) (m : option Meta) : call LinkView unit := λ v,
  if bool_decide (le_doc (tr_before t) = le_doc (lv_ed v)) then
    ({| lv_ed := tr_now t;
        lv_menu := Link.apply decoration (plain_tr m) (lv_menu v) (le_view (lv_ed v)) (le_view (tr_now t)) |}, Ok tt)
  else (v, Err mismatched).
(** [view.dispatch(view.state.tr.setMeta(linkMenuPluginKey, m))] *)
Definition set_menu (m : Meta) : call LinkView unit := λ v, dispatch (fresh_tr v) (Some m) v.
Definition open_menu (ref : string) (items : list LinkItem) : Meta :=
  {| Link.m_activate := true; Link.m_ref := Some ref; Link.m_items := Some items; Link.m_deactivate := false;
     Link.m_selectedItemIndexChanged := None |}.
Definition menu_items (ref : option string) (items : list LinkItem) : Meta :=
  {| Link.m_activate := false; Link.m_ref := ref; Link.m_items := Some items; Link.m_deactivate := false;
     Link.m_selectedItemIndexChanged := None |}.
Definition linked (e : Ed) (text href : string) (pos : Z) : Ed :=
  addMark (insertText e text pos) pos (pos + Z.of_nat (len text)) href.
Definition item_opts (isLoading : bool) (hmId : option UnpackedHypermediaId) (media sourceUrl fileName docTitle : option string) : ItemsFor :=
  {| if_isLoading := isLoading; if_hmId := hmId; if_media := media; if_sourceUrl := sourceUrl; if_fileName := fileName; if_docTitle := docTitle |}.

(** *** An entity's link

    The transaction [tr] is made when the link is pasted, and changed by each edit; it is
    dispatched when the title is there. *)
Abbreviation World := (LinkView * Tr)%type.
Definition edit_tr (text href : string) (pos : Z) : call World unit := λ w,
  (w.1, {| tr_before := tr_before w.2; tr_now := linked (tr_now w.2) text href pos |}, Ok tt).
Definition dispatch_tr : call World unit := λ w, let r := dispatch w.2 None w.1 in ((r.1, w.2), r.2).
Definition on_view {A} (c : call LinkView A) : call World A := λ w, let r := c w.1 in ((r.1, w.2), r.2).
Definition show_entity (url : string) (docTitle : option string) : call World unit :=
  await* u := c_lift (unpackHmId url) in
  on_view (set_menu (open_menu url (getLinkMenuItems (item_opts false u None (Some url) None docTitle)))).
Definition paste_entity (url : string) (pos : Z) (fetched : result (option string)) : call World unit :=
  c_catch
    (await* title := c_lift fetched in
     let shown := if otruthy title then default "" title else url in
     await* _ := edit_tr shown url pos in
     await* _ := dispatch_tr in
     show_entity url (if otruthy title then title else None))
    (λ _,
     await* _ := edit_tr url url pos in
     await* _ := dispatch_tr in
     show_entity url None).

(** *** A link to the web *)

Definition paste_link (href : string) (pos : Z) : call LinkView unit := λ v,
  (await* _ := dispatch {| tr_before := lv_ed v; tr_now := linked (lv_ed v) href href pos |} None in
   await* _ := set_menu (open_menu href (getLinkMenuItems (item_opts true None None None None None))) in
   let r := checkMediaUrl href in
   let media (m : string) (src : option string) :=
     set_menu (menu_items (Some href) (getLinkMenuItems (item_opts false None (Some m) src (Some r.2) None))) in
   match r.1 with
   | 1 => media "image" None
   | 2 => media "file" None
   | 3 => media "video" (Some href)
   | 4 => media "twitter" (Some href)
   | _ => c_ret tt
   end) v.

(** What is looked up then, when nothing is known of the link: if it is a page of a
    hypermedia site, and if it is a medium by its type; after both, the menu that says
    neither.  The result of the first two is [true] or undefined. *)
Definition look_for_entity (href : string) (pos : Z) (res : result (option WebLinkMeta)) : call LinkView bool :=
  c_catch
    (await* meta := c_lift res in
     match meta with
     | None => c_ret false
     | Some m =>
         await* fullHmUrl := c_lift (hmIdWithVersion (wl_hmId m) (wl_hmVersion m) (extractBlockRefOfUrl (Some href)) None) in
         match or_null fullHmUrl with
         | None => c_ret false
         | Some url =>
             await* _ :=
               (match or_null (wl_hmTitle m) with
                | Some title => λ v,
                    dispatch {| tr_before := lv_ed v;
                                tr_now := linked (deleteRange (lv_ed v) pos (pos + Z.of_nat (len href))) title url pos |} None v
                | None => c_ret tt
                end) in
             await* u := c_lift (unpackHmId url) in
             await* _ := set_menu (menu_items (Some url) (getLinkMenuItems (item_opts false u None (Some url) None (wl_hmTitle m)))) in
             c_ret true
         end
     end)
    (λ _, c_ret false).
Definition look_for_media (href : string) (res : result (option string)) : call LinkView bool :=
  c_catch
    (await* contentType := c_lift res in
     match or_null contentType with
     | None => c_ret false
     | Some t =>
         let type := default "" (head (js_split "/" t)) in
         let type := if String.eqb type "application" then "file" else type in
         if is_one_of ["image"; "video"; "file"] type then
           await* _ := set_menu (menu_items (Some href) (getLinkMenuItems (item_opts false None (Some type) (Some href) None None))) in
           c_ret true
         else c_ret false
     end)
    (λ _, c_ret false).
Definition looked_up (href : string) (entity media : bool) : call LinkView unit :=
  if entity || media then c_ret tt
  else set_menu (menu_items None (getLinkMenuItems (item_opts false None None (Some href) None None))).
(** The two in either order. *)
Definition look_up (entity_first : bool) (href : string) (pos : Z) (page : result (option WebLinkMeta))
    (type : result (option string)) : call LinkView unit :=
  if entity_first then
    await* e := look_for_entity href pos page in
    await* m := look_for_media href type in
    looked_up href e m
  else
    await* m := look_for_media href type in
    await* e := look_for_entity href pos page in
    looked_up href e m.
End lookups.

Class LinkEditorLaws (Ed D : Type) `{LinkEditor Ed D} : Prop := {
  same_insertText e e' t p : le_doc e = le_doc e' → le_doc (insertText e t p) = le_doc (insertText e' t p);
  same_addMark e e' a b h : le_doc e = le_doc e' → le_doc (addMark e a b h) = le_doc (addMark e' a b h);
  same_deleteRange e e' a b : le_doc e = le_doc e' → le_doc (deleteRange e a b) = le_doc (deleteRange e' a b);
  delete_linked e t h p : valid_pos e p →
    le_doc (deleteRange (addMark (insertText e t p) p (p + Z.of_nat (len t)) h) p (p + Z.of_nat (len t))) = le_doc e;
  (* a cursor stays one *)
  cursor_insertText e t p : ed_from (le_view e) = ed_to (le_view e) → ed_from (le_view (insertText e t p)) = ed_to (le_view (insertText e t p));
  cursor_addMark e a b h : ed_from (le_view e) = ed_to (le_view e) → ed_from (le_view (addMark e a b h)) = ed_to (le_view (addMark e a b h));
  cursor_deleteRange e a b : ed_from (le_view e) = ed_to (le_view e) → ed_from (le_view (deleteRange e a b)) = ed_to (le_view (deleteRange e a b));
}.

Section outcomes.
Context `{UrlApi} {Ed D : Type} `{EqDecision D} `{LinkEditorLaws Ed D}.
Variables (gwUrl decoration : string).
Abbreviation dispatch := (dispatch (Ed := Ed) (D := D) decoration).
Abbreviation set_menu := (set_menu (Ed := Ed) (D := D) decoration).
Abbreviation shows v ref_ items :=
  (Link.active (lv_menu v) = true ∧ Link.ref (lv_menu v) = ref_ ∧ Link.ps_items (lv_menu v) = items).

Lemma dispatch_ok t m v : le_doc (tr_before t) = le_doc (lv_ed v) →
  dispatch t m v = ({| lv_ed := tr_now t;
    lv_menu := Link.apply decoration (plain_tr m) (lv_menu v) (le_view (lv_ed v)) (le_view (tr_now t)) |}, Ok tt).
Proof. intros E. unfold LinkPaste.dispatch. by rewrite bool_decide_true. Qed.
Lemma dispatch_stale t m v : le_doc (tr_before t) ≠ le_doc (lv_ed v) → dispatch t m v = (v, Err mismatched).
Proof. intros E. unfold LinkPaste.dispatch. by rewrite bool_decide_false. Qed.
Lemma set_menu_eq m v : set_menu m v =
  ({| lv_ed := lv_ed v;
      lv_menu := Link.apply decoration (plain_tr (Some m)) (lv_menu v) (le_view (lv_ed v)) (le_view (lv_ed v)) |}, Ok tt).
Proof. unfold LinkPaste.set_menu. by rewrite dispatch_ok. Qed.

(** C39. The link of an entity, pasted: when the title is there, or the lookup has failed,
    the title, or the link itself, stands linked where it was pasted, and the menu is
    open on it; but if the document has changed since, nothing is inserted at all. *)
Theorem paste_entity_spec (v : LinkView) (e0 : Ed) url u pos (fetched : result (option string)) :
  unpackHmId url = Ok u →
  let title := match fetched with Ok t => or_null t | Err _ => None end in
  let r := paste_entity decoration url pos fetched (v, {| tr_before := e0; tr_now := e0 |}) in
  (le_doc (lv_ed v) = le_doc e0 →
     r.2 = Ok tt ∧ lv_ed r.1.1 = linked e0 (default url title) url pos ∧
     shows r.1.1 url (getLinkMenuItems (item_opts false u None (Some url) None title))) ∧
  (le_doc (lv_ed v) ≠ le_doc e0 → r.1.1 = v ∧ r.2 = Err mismatched).
Proof.
  intros Hu title r. unfold r, paste_entity, c_catch. split; intros Hdoc.
  - destruct fetched as [t|e].
    + unfold c_bind, c_lift, edit_tr, dispatch_tr, show_entity, on_view. cbn [fst snd tr_before tr_now].
      rewrite dispatch_ok by done. cbn [fst snd tr_now lv_ed]. unfold c_bind, c_lift. rewrite Hu. cbn [fst snd].
      rewrite set_menu_eq. cbn [fst snd lv_ed lv_menu]. unfold title, or_null, js_or.
      split; [done|]. split; [by destruct (otruthy t) eqn:E; destruct t|]. by destruct (otruthy t).
    + unfold c_bind, c_lift, edit_tr, dispatch_tr, show_entity, on_view. cbn [fst snd tr_before tr_now].
      rewrite dispatch_ok by done. cbn [fst snd tr_now lv_ed]. unfold c_bind, c_lift. rewrite Hu. cbn [fst snd].
      by rewrite set_menu_eq.
  - destruct fetched as [t|e]; unfold c_bind, c_lift, edit_tr, dispatch_tr; cbn [fst snd tr_before tr_now];
      repeat (rewrite dispatch_stale by (by cbn); cbn [fst snd tr_before tr_now]); done.
Qed.

(** *** The lookups of a web link *)

Definition quiet (v : @LinkView Ed) : Prop := Link.active (lv_menu v) = true ∧ ed_from (le_view (lv_ed v)) = ed_to (le_view (lv_ed v)).
(** What the lookups find: the reference that the menu gets, and what its items are for. *)
Definition entity_found (href : string) (page : result (option WebLinkMeta)) : option (string * ItemsFor) :=
  match page with
  | Ok (Some m) =>
      match hmIdWithVersion (wl_hmId m) (wl_hmVersion m) (extractBlockRefOfUrl (Some href)) None with
      | Ok o =>
          url ← or_null o;
          match unpackHmId url with
          | Ok u => Some (url, item_opts false u None (Some url) None (wl_hmTitle m))
          | Err _ => None
          end
      | Err _ => None
      end
  | _ => None
  end.
Definition medium_of (contentType : string) : string :=
  let type := default "" (head (js_split "/" contentType)) in
  if String.eqb type "application" then "file" else type.
Definition media_found (href : string) (type : result (option string)) : option (string * ItemsFor) :=
  match type with
  | Ok t =>
      t ← or_null t;
      if is_one_of ["image"; "video"; "file"] (medium_of t)
      then Some (href, item_opts false None (Some (medium_of t)) (Some href) None None) else None
  | Err _ => None
  end.
Definition plain_link (href : string) : ItemsFor := item_opts false None None (Some href) None None.

(** The menu's reference and items. *)
Definition menu_of (v : @LinkView Ed) : string * list LinkItem := (Link.ref (lv_menu v), Link.ps_items (lv_menu v)).
(** After [found]: the menu is for it, or as it was. *)
Definition menu_for (found : option (string * ItemsFor)) (before : string * list LinkItem) : string * list LinkItem :=
  match found with
  | Some (r, o) => (if truthy r then r else before.1, getLinkMenuItems o)
  | None => before
  end.

Lemma items_settled o : if_isLoading o = false → Forall (λ i, li_disabled i = false) (getLinkMenuItems o).
Proof.
  intros Hl. unfold getLinkMenuItems. rewrite Hl.
  assert (Forall (λ i, li_disabled i = false) (web_items o)) as Hw.
  { unfold web_items. destruct (if_sourceUrl o); [|constructor]. destruct (_ && _); [|constructor]. by apply list.Forall_singleton. }
  destruct (if_hmId o) as [u|].
  - apply Forall_app. split; [|apply Forall_app; split; [|apply Forall_app; split; [|done]]].
    + unfold title_items. destruct (if_docTitle o); [|constructor]. destruct (_ && _); repeat constructor.
    + unfold embed_items. destruct (truthy _); repeat constructor.
    + unfold card_items. destruct (String.eqb _ _); repeat constructor.
  - apply Forall_app. split; [|done]. unfold media_items. destruct (if_media o); [|constructor]. destruct (truthy _); repeat constructor.
Qed.
Lemma quiet_update v ref_ items : quiet v →
  let r := set_menu (menu_items ref_ items) v in
  r.2 = Ok tt ∧ quiet r.1 ∧ lv_ed r.1 = lv_ed v ∧ Link.ps_items (lv_menu r.1) = items ∧
  Link.ref (lv_menu r.1) = default (Link.ref (lv_menu v)) (or_null ref_).
Proof.
  intros [Ha Hc] r. unfold r. rewrite set_menu_eq. unfold quiet. cbn [fst snd lv_ed lv_menu].
  unfold Link.apply. cbn. rewrite Ha, Hc, !Z.eqb_refl. done.
Qed.
Lemma quiet_linked v e t h p : quiet v → ed_from (le_view e) = ed_to (le_view e) →
  quiet (dispatch {| tr_before := lv_ed v; tr_now := linked e t h p |} None v).1 ∧
  menu_of (dispatch {| tr_before := lv_ed v; tr_now := linked e t h p |} None v).1 = menu_of v.
Proof.
  intros [Ha Hc] He. rewrite dispatch_ok by done. unfold quiet. cbn [fst snd lv_ed lv_menu tr_now].
  assert (ed_from (le_view (linked e t h p)) = ed_to (le_view (linked e t h p))) as Hn
    by (unfold linked; by apply cursor_addMark, cursor_insertText).
  unfold menu_of, Link.apply. cbn. rewrite Ha, Hn, Z.eqb_refl. done.
Qed.
Lemma update_menu v r o : quiet v →
  ∃ v', set_menu (menu_items (Some r) (getLinkMenuItems o)) v = (v', Ok tt) ∧ quiet v' ∧
    menu_of v' = menu_for (Some (r, o)) (menu_of v).
Proof.
  intros Hq. destruct (quiet_update v (Some r) (getLinkMenuItems o) Hq) as (E & Hq' & _ & Hi & Hr).
  destruct (set_menu _ v) as [v' x]. cbn [fst snd] in *. subst x. exists v'. split; [done|]. split; [done|].
  unfold menu_of, menu_for. rewrite Hi, Hr. unfold or_null, js_or. cbn. by destruct (truthy r).
Qed.
Lemma media_looked_for href res v : quiet v →
  ∃ v', look_for_media decoration href res v = (v', Ok (bool_decide (is_Some (media_found href res)))) ∧ quiet v' ∧
    menu_of v' = menu_for (media_found href res) (menu_of v).
Proof.
  intros Hq. unfold look_for_media, c_catch, c_bind, c_lift. destruct res as [t|e]; cbn [fst snd media_found]; [|by exists v].
  destruct (or_null t) as [ty|]; [|by exists v]. cbn [mbind option_bind]. cbv zeta.
  change (if String.eqb (default "" (head (js_split "/" ty))) "application" then "file" else default "" (head (js_split "/" ty)))
    with (medium_of ty).
  destruct (is_one_of _ _); [|by exists v].
  destruct (update_menu v href (item_opts false None (Some (medium_of ty)) (Some href) None None) Hq) as (v' & E & Hq' & Hm).
  unfold c_bind. rewrite E. by exists v'.
Qed.
Lemma entity_looked_for href pos res v : quiet v →
  ∃ v', look_for_entity decoration href pos res v = (v', Ok (bool_decide (is_Some (entity_found href res)))) ∧ quiet v' ∧
    menu_of v' = menu_for (entity_found href res) (menu_of v).
Proof.
  intros Hq. unfold look_for_entity, c_catch, c_bind, c_lift. destruct res as [[m|]|e]; cbn [fst snd entity_found]; try by exists v.
  destruct (hmIdWithVersion _ _ _ _) as [o|e]; [|by exists v]. destruct (or_null o) as [url|]; [|by exists v].
  set (w := (match or_null (wl_hmTitle m) with Some title => _ | None => c_ret tt end) v).
  assert (∃ v', w = (v', Ok tt) ∧ quiet v' ∧ menu_of v' = menu_of v) as (v' & Ew & Hq' & Hi).
  { unfold w. destruct (or_null (wl_hmTitle m)) as [t|]; [|by exists v].
    destruct (quiet_linked v (deleteRange (lv_ed v) pos (pos + Z.of_nat (len href))) t url pos Hq) as [Hq1 Hq2].
    { apply cursor_deleteRange, Hq. }
    eexists. split; [by rewrite dispatch_ok|]. rewrite dispatch_ok in Hq1, Hq2 by done. done. }
  rewrite Ew. cbn [mbind option_bind]. destruct (unpackHmId url) as [u|e]; [|by exists v'].
  destruct (update_menu v' url (item_opts false u None (Some url) None (wl_hmTitle m)) Hq') as (v2 & E & Hq2 & Hm).
  unfold c_bind. rewrite E. exists v2. split; [done|]. split; [done|]. by rewrite Hm, Hi.
Qed.

(** The items that the menu can end with. *)
Lemma final_items href page type o :
  o = plain_link href ∨ (∃ r, media_found href type = Some (r, o)) ∨ (∃ r, entity_found href page = Some (r, o)) →
  Forall (λ i, li_disabled i = false) (getLinkMenuItems o) ∧
  (truthy href = true → isHypermediaScheme (Some href) = false →
   (∀ url o, entity_found href page = Some (url, o) → if_hmId o ≠ None) → getLinkMenuItems o ≠ []).
Proof.
  intros Ho. assert (if_isLoading o = false) as Hl.
  { destruct Ho as [->|[[r Hf]|[r Hf]]]; [done|..].
    - unfold media_found in Hf. destruct type as [t|]; [|done]. destruct (or_null t); [|done]. cbn [mbind option_bind] in Hf.
      destruct (is_one_of _ _); [|done]. by injection Hf as _ <-.
    - unfold entity_found in Hf. destruct page as [[m|]|]; [|done..]. destruct (hmIdWithVersion _ _ _ _) as [o'|]; [|done].
      destruct (or_null o'); [|done]. cbn [mbind option_bind] in Hf. destruct (unpackHmId _); [|done]. by injection Hf as _ <-. }
  split; [by apply items_settled|]. intros Hh Hs Hid. unfold getLinkMenuItems. rewrite Hl.
  destruct Ho as [->|[[r Hf]|[r Hf]]].
  - unfold web_items. cbn -[truthy isHypermediaScheme]. by rewrite Hh, Hs.
  - unfold media_found in Hf. destruct type as [t|]; [|done]. destruct (or_null t) as [ty|]; [|done]. cbn [mbind option_bind] in Hf.
    destruct (is_one_of _ _) eqn:Em; [|done]. injection Hf as _ <-. cbn [if_hmId item_opts]. unfold media_items. cbn [if_media item_opts].
    destruct (truthy (medium_of ty)) eqn:Et; [done|]. by destruct (medium_of ty).
  - specialize (Hid _ _ Hf). destruct (if_hmId o) as [u|]; [|done]. unfold embed_items, card_items.
    intros [_ [He [Hc _]%app_eq_nil]%app_eq_nil]%app_eq_nil. by destruct (u_type u).
Qed.

(** C40. The menu that waits for the lookups of a pasted web link, open and with a plain
    cursor: whatever the two answer, a failure included, and in whichever order, it ends
    with the items for the last of them that found something, an entity under the
    address or a medium by its type, and with that reference; and if neither did, with
    the items for a plain link and the reference it had.  None of them is disabled, and
    there are some, if the link is to the web and the entity's address names one.  (The
    item for a plain link throws when it is chosen: [web_link_item_throws].) *)
Theorem look_up_settles (entity_first : bool) href pos page type (v : @LinkView Ed) :
  quiet v →
  let r := look_up decoration entity_first href pos page type v in
  let e := entity_found href page in
  let m := media_found href type in
  let items := (menu_of r.1).2 in
  r.2 = Ok tt ∧ quiet r.1 ∧
  menu_of r.1 =
    match e, m with
    | None, None => ((menu_of v).1, getLinkMenuItems (plain_link href))
    | _, _ => if entity_first then menu_for m (menu_for e (menu_of v)) else menu_for e (menu_for m (menu_of v))
    end ∧
  Forall (λ i, li_disabled i = false) items ∧
  (truthy href = true → isHypermediaScheme (Some href) = false →
   (∀ url o, e = Some (url, o) → if_hmId o ≠ None) → items ≠ []).
Proof.
  intros Hq r e m items.
  assert (∀ v', quiet v' → menu_of v' = menu_of v →
    let q := looked_up decoration href false false v' in
    q.2 = Ok tt ∧ quiet q.1 ∧ menu_of q.1 = ((menu_of v).1, getLinkMenuItems (plain_link href))) as Hlast.
  { intros v' Hv' E. destruct (quiet_update v' None (getLinkMenuItems (plain_link href)) Hv') as (Eq & Hq2 & _ & Hi & Hrf).
    split; [exact Eq|]. split; [exact Hq2|]. rewrite <- E. unfold menu_of. f_equal; [exact Hrf|exact Hi]. }
  assert (r.2 = Ok tt ∧ quiet r.1 ∧ menu_of r.1 =
    match e, m with
    | None, None => ((menu_of v).1, getLinkMenuItems (plain_link href))
    | _, _ => if entity_first then menu_for m (menu_for e (menu_of v)) else menu_for e (menu_for m (menu_of v))
    end) as (Hr & Hq' & Hm).
  { unfold r, look_up, c_bind. destruct entity_first.
    - destruct (entity_looked_for href pos page v Hq) as (v1 & -> & Hq1 & E1).
      destruct (media_looked_for href type v1 Hq1) as (v2 & -> & Hq2 & E2). rewrite E1 in E2. fold e m in E2 |- *.
      destruct e, m; [by split; [|split]..|by apply Hlast].
    - destruct (media_looked_for href type v Hq) as (v1 & -> & Hq1 & E1).
      destruct (entity_looked_for href pos page v1 Hq1) as (v2 & -> & Hq2 & E2). rewrite E1 in E2. fold e m in E2 |- *.
      destruct e, m; [by split; [|split]..|by apply Hlast]. }
  split; [exact Hr|]. split; [exact Hq'|]. split; [exact Hm|].
  assert (∃ o, items = getLinkMenuItems o ∧
    (o = plain_link href ∨ (∃ r, m = Some (r, o)) ∨ (∃ r, e = Some (r, o)))) as (o & -> & Ho).
  { unfold items. rewrite Hm. clearbody e m. clear.
    destruct e as [[er eo]|], m as [[mr mo]|], entity_first;
      (eexists; split; [reflexivity|]; eauto). }
  by apply (final_items href page type).
Qed.

(** The title of a page replaces its link where that still is: then the document is what
    it would be with the title pasted in the first place. *)
Theorem page_title_replaces (v : @LinkView Ed) e0 href pos m title url :
  or_null (wl_hmTitle m) = Some title → url ≠ "" →
  hmIdWithVersion (wl_hmId m) (wl_hmVersion m) (extractBlockRefOfUrl (Some href)) None = Ok (Some url) →
  valid_pos e0 pos → le_doc (lv_ed v) = le_doc (linked e0 href href pos) →
  le_doc (lv_ed (look_for_entity decoration href pos (Ok (Some m)) v).1) = le_doc (linked e0 title url pos).
Proof.
  intros Ht Hu Hid Hp Hdoc. unfold look_for_entity, c_catch. unfold c_bind at 1. unfold c_lift at 1. cbn [fst snd].
  unfold c_bind at 1. unfold c_lift at 1. rewrite Hid. cbn [fst snd].
  assert (or_null (Some url) = Some url) as -> by (unfold or_null, js_or; cbn; by rewrite (proj2 (truthy_spec url))).
  rewrite Ht. unfold c_bind at 1. rewrite dispatch_ok by done. cbn [fst snd lv_ed tr_now].
  set (v1 := {| lv_ed := linked (deleteRange (lv_ed v) pos (pos + Z.of_nat (len href))) title url pos; lv_menu := _ |}).
  assert (le_doc (lv_ed v1) = le_doc (linked e0 title url pos)) as E1.
  { unfold v1, linked. cbn [lv_ed]. apply same_addMark, same_insertText.
    rewrite (same_deleteRange _ _ _ _ Hdoc). unfold linked. by apply delete_linked. }
  unfold c_bind at 1. unfold c_lift. destruct (unpackHmId url) as [u|e]; [|exact E1].
  unfold c_bind. rewrite set_menu_eq. exact E1.
Qed.

(** A late answer takes the menu over, whatever it is open on by then. *)
Theorem late_answer_takes_over (v : @LinkView Ed) href type :
  quiet v → type ∈ ["image"; "video"] → href ≠ "" →
  let r := look_for_media decoration href (Ok (Some (type +:+ "/x"))) v in
  Link.ref (lv_menu r.1) = href ∧
  Link.ps_items (lv_menu r.1) = getLinkMenuItems (item_opts false None (Some type) (Some href) None None).
Proof.
  intros Hq Hty Hh r.
  set (items := getLinkMenuItems (item_opts false None (Some type) (Some href) None None)).
  destruct (quiet_update v (Some href) items Hq) as (E & _ & _ & Hi & Hr).
  assert (r = ((set_menu (menu_items (Some href) items) v).1, Ok true)) as ->.
  { unfold r, look_for_media, c_catch. unfold c_bind at 1. unfold c_lift. cbn [fst snd].
    assert (or_null (Some (type +:+ "/x")) = Some (type +:+ "/x") ∧ head (js_split "/" (type +:+ "/x")) = Some type ∧
      String.eqb type "application" = false ∧ is_one_of ["image"; "video"; "file"] type = true) as (-> & -> & E1 & E2).
    { by repeat (apply elem_of_cons in Hty as [->|Hty]; [done|]); apply elem_of_nil in Hty. }
    cbn [default from_option id]. rewrite E1, E2. unfold c_bind. fold items.
    by destruct (set_menu _ v) as [v' [[]|e]]. }
  cbn [fst]. split; [|exact Hi]. rewrite Hr. unfold or_null, js_or. cbn. by rewrite (proj2 (truthy_spec href)).
Qed.
End outcomes.

(** ** A line of text *)

Record Line : Type := { ln_chars : list (ascii * option string); ln_cursor : Z }.
Definition upto (p : Z) (e : Line) := take (Z.to_nat p) (ln_chars e).
Definition past (p : Z) (e : Line) := drop (Z.to_nat p) (ln_chars e).
#[export] Instance line_editor : LinkEditor Line (list (ascii * option string)) := {|
  le_doc := ln_chars;
  le_view := λ e, {| ed_from := ln_cursor e; ed_to := ln_cursor e; ed_text := λ _ _, "" |};
  insertText := λ e t p,
    {| ln_chars := upto p e ++ ((λ c, (c, None)) <$> chars t) ++ past p e;
       ln_cursor := if (p <=? ln_cursor e)%Z then (ln_cursor e + Z.of_nat (len t))%Z else ln_cursor e |};
  addMark := λ e a b h,
    {| ln_chars := upto a e ++ ((λ c, (c.1, Some h)) <$> take (Z.to_nat b - Z.to_nat a) (past a e)) ++ past b e; ln_cursor := ln_cursor e |};
  deleteRange := λ e a b, {| ln_chars := upto a e ++ past b e; ln_cursor := Z.min (ln_cursor e) a |};
  valid_pos := λ e p, (0 ≤ p ≤ Z.of_nat (length (ln_chars e)))%Z;
|}.
#[export] Instance line_laws : LinkEditorLaws Line (list (ascii * option string)).
Proof.
  split; try done;
    try (intros [] []; cbn; intros; subst; done).
  intros [l c] t h p. cbn. intros Hp. unfold upto, past. cbn [ln_chars].
  assert (length (take (Z.to_nat p) l) = Z.to_nat p) as El by (rewrite length_take; lia).
  assert (Z.to_nat (p + Z.of_nat (len t)) = Z.to_nat p + len t) as -> by lia.
  assert (∀ (k k' : list (ascii * option string)) m, length k = m → take m (k ++ k') = k ∧ drop m (k ++ k') = k') as Hcut.
  { intros k k' m <-. by rewrite take_app_length, drop_app_length. }
  set (A := take (Z.to_nat p) l) in *. set (B := drop (Z.to_nat p) l). set (T := (λ c, (c, None)) <$> chars t).
  assert (length T = len t) as ET by (unfold T; by rewrite length_fmap, length_chars).
  destruct (Hcut A (T ++ B) (Z.to_nat p) El) as [-> ->].
  replace (Z.to_nat p + len t - Z.to_nat p) with (len t) by lia. destruct (Hcut T B (len t) ET) as [-> _].
  rewrite <- (drop_drop _ (len t) (Z.to_nat p)). destruct (Hcut A (T ++ B) (Z.to_nat p) El) as [_ ->].
  destruct (Hcut T B (len t) ET) as [_ ->].
  set (T' := (λ c0, (c0.1, Some h)) <$> T). assert (length T' = len t) as ET' by (unfold T'; by rewrite length_fmap).
  destruct (Hcut A (T' ++ B) (Z.to_nat p) El) as [-> _].
  rewrite <- (drop_drop _ (len t) (Z.to_nat p)). destruct (Hcut A (T' ++ B) (Z.to_nat p) El) as [_ ->].
  destruct (Hcut T' B (len t) ET') as [_ ->]. unfold A, B. apply take_drop.
Qed.

Definition line_of (s : string) (cursor : Z) : Line := {| ln_chars := (λ c, (c, None)) <$> chars s; ln_cursor := cursor |}.
Definition text_of_line (e : Line) : string := of_chars (ln_chars e).*1.
Definition calm_view (e : Line) : @LinkView Line := {| lv_ed := e; lv_menu := Link.getDefaultPluginState |}.
Definition a_url : string := "hm://d/abc".

Lemma paste_entity_spec_witness :
  (let r := paste_entity "id" a_url 3 (Ok (Some "Title")) (calm_view (line_of "on " 3), {| tr_before := line_of "on " 3; tr_now := line_of "on " 3 |}) in
   text_of_line (lv_ed r.1.1) = "on Title" ∧ Link.ref (lv_menu r.1.1) = a_url) ∧
  (let r := paste_entity "id" a_url 3 (Ok (Some "Title")) (calm_view (line_of "on and" 6), {| tr_before := line_of "on " 3; tr_now := line_of "on " 3 |}) in
   text_of_line (lv_ed r.1.1) = "on and" ∧ r.2 = Err mismatched).
Proof.
  assert (∃ u, unpackHmId a_url = Ok u) as [u Hu] by (eexists; vm_compute; reflexivity).
  split.
  - destruct (paste_entity_spec "id" (calm_view (line_of "on " 3)) (line_of "on " 3) a_url u 3 (Ok (Some "Title")) Hu) as [Hr _].
    destruct (Hr eq_refl) as (_ & He & _ & Href & _). cbv zeta. rewrite He. split; [by vm_compute|exact Href].
  - destruct (paste_entity_spec "id" (calm_view (line_of "on and" 6)) (line_of "on " 3) a_url u 3 (Ok (Some "Title")) Hu) as [_ Hr].
    destruct (Hr ltac:(by vm_compute)) as [He Hm]. cbv zeta. rewrite He. split; [by vm_compute|exact Hm].
Defined.

(** A link pasted on a line of its own, and its menu waiting. *)
Definition pasted (href : string) (e : Line) (pos : Z) : @LinkView Line := (paste_link "id" href pos (calm_view e)).1.
Definition page_of (title : string) : WebLinkMeta :=
  {| wl_hmId := Some "hm://d/abc"; wl_hmUrl := None; wl_hmVersion := Some "v1"; wl_hmTitle := Some title; wl_blockRef := None |}.

(** Neither lookup finds anything; and the page of an entity is found after a picture. *)
Lemma look_up_settles_witness :
  let v := pasted "https://a.b/c" (line_of "on " 3) 3 in
  li_name <$> (menu_of v).2 = ["Checking link..."] ∧
  menu_of (look_up "id" true "https://a.b/c" 3 (Ok None) (Err "offline") v).1 =
    ("https://a.b/c", [enabled "Web Link" (WebLinkAction None "https://a.b/c")]) ∧
  (let r := menu_of (look_up "id" false "https://a.b/c" 3 (Ok (Some (page_of "Title"))) (Ok (Some "image/png")) v).1 in
   r.1 = "hm://d/abc?v=v1" ∧ length r.2 = 4 ∧ Forall (λ i, li_disabled i = false) r.2).
Proof.
  intros v. assert (quiet v) as Hq by by vm_compute.
  destruct (look_up_settles "id" true "https://a.b/c" 3 (Ok None) (Err "offline") v Hq) as (_ & _ & Hm & _).
  destruct (look_up_settles "id" false "https://a.b/c" 3 (Ok (Some (page_of "Title"))) (Ok (Some "image/png")) v Hq)
    as (_ & _ & Hm' & Hf & _).
  split; [by vm_compute|]. split.
  - rewrite Hm. by vm_compute.
  - cbv zeta. split; [rewrite Hm'; by vm_compute|]. split; [rewrite Hm'; by vm_compute|exact Hf].
Defined.

Lemma page_title_replaces_witness :
  text_of_line (lv_ed (look_for_entity "id" "https://a.b/c" 3 (Ok (Some (page_of "Title"))) (pasted "https://a.b/c" (line_of "on it" 3) 3)).1) = "on Titleit".
Proof.
  unfold text_of_line. change ln_chars with (@le_doc Line _ line_editor).
  rewrite (page_title_replaces "id" (pasted "https://a.b/c" (line_of "on it" 3) 3) (line_of "on it" 3) "https://a.b/c" 3 (page_of "Title") "Title" "hm://d/abc?v=v1");
    [first [by vm_compute|vm_compute; split; discriminate]..|].
  by vm_compute.
Defined.
(** Where it is not any more, other text goes. *)
Example page_title_elsewhere :
  let v := pasted "https://a.b/c" (line_of "on it" 3) 3 in
  let typed := {| lv_ed := insertText (lv_ed v) "so " 0; lv_menu := lv_menu v |} in
  text_of_line (lv_ed typed) = "so on https://a.b/cit" ∧
  text_of_line (lv_ed (look_for_entity "id" "https://a.b/c" 3 (Ok (Some (page_of "Title"))) typed).1) = "so Titleb/cit".
Proof. by vm_compute. Qed.

Lemma late_answer_takes_over_witness :
  let v := pasted "https://x.y/2" (line_of "" 0) 0 in
  Link.ref (lv_menu v) = "https://x.y/2" ∧
  Link.ref (lv_menu (look_for_media "id" "https://a.b/1" (Ok (Some ("image" +:+ "/x"))) v).1) = "https://a.b/1".
Proof.
  split; [by vm_compute|].
  apply (late_answer_takes_over "id" (pasted "https://x.y/2" (line_of "" 0) 0) "https://a.b/1" "image"); [by vm_compute| |done].
  by left.
Defined.

(** ** A node in place of a link *)

(** The texts between two positions. *)
Definition cut_texts (doc : PNode) (from to : Z) : PNode :=
  PElem "paragraph" []
    (visit_list (λ acc n pos,
       (match n with
        | PText s ms =>
            let a := Z.max 0 (from - pos) in
            let b := Z.min (Z.of_nat (len s)) (to - pos) in
            if (a <? b)%Z then acc ++ [PText (js_slice s a b) ms] else acc
        | PElem _ _ _ _ => acc
        end, true)) (n_content doc) 0 []) [].
Definition link_mark : Mark := {| m_type := "link"; m_attrs := [("href", VStr a_url)] |}.
Definition with_link : PNode := PElem "paragraph" [("type", VStr "p")] [PText "see all of " []; PText "Title" [link_mark]] [].
Definition linking (kids : list PNode) : PNode := container "l" with_link kids.
Definition under (id text : string) (kids : list PNode) : PNode := container id (paragraph text) kids.

(** The block before another one; the last below a block; the last one of all. *)
Definition doc_between : PNode := document [linking []; block_b].
Definition doc_nested : PNode := document [block_c; under "p" "parent" [linking []]; block_b].
Definition doc_last : PNode := document [block_b; linking []].
Definition edit_range (r : result MenuEdit) : option (Z * Z) :=
  match r with Ok (NewBlock _ from to _ _ _ _ _) => Some (from, to) | _ => None end.

Lemma insertNode_spec_witness :
  edit_range (insertNode cut_texts doc_between 19 a_url "embed" []) = Some (22, 24)%Z ∧
  edit_range (insertNode cut_texts doc_nested 33 a_url "embed" []) = Some (0, 38)%Z ∧
  is_ok (insertNode cut_texts doc_last 26 a_url "embed" []) = false.
Proof.
  assert (∀ r e, r = Ok e → edit_range r = match e with NewBlock _ from to _ _ _ _ _ => Some (from, to) | _ => None end) as Hr by (by intros r e ->).
  split; [|split].
  - destruct (insertNode_spec cut_texts (inside (new_group []) [] [block_b]) [inside doc_between [] []] (block_attrs "l") with_link []
                eq_refl eq_refl 19 a_url "embed" []) as (H1 & _); [vm_compute; split; discriminate|vm_compute; lia|].
    pose proof (Hr _ _ (H1 ltac:(done))) as E. vm_compute in E |- *. exact E.
  - destruct (insertNode_spec cut_texts (inside (new_group []) [] [])
                [inside (under "p" "parent" []) [paragraph "parent"] []; inside (new_group []) [block_c] [block_b]; inside doc_nested [] []]
                (block_attrs "l") with_link [] eq_refl eq_refl 33 a_url "embed" []) as (_ & H2 & _);
      [vm_compute; split; discriminate|vm_compute; lia|].
    pose proof (Hr _ _ (H2 _ _ _ eq_refl eq_refl eq_refl ltac:(done))) as E. vm_compute in E |- *. exact E.
  - destruct (insertNode_spec cut_texts (inside (new_group []) [block_b] []) [inside doc_last [] []] (block_attrs "l") with_link []
                eq_refl eq_refl 26 a_url "embed" []) as (_ & _ & H3); [vm_compute; split; discriminate|vm_compute; lia|].
    exact (H3 [] [] eq_refl eq_refl).
Defined.

(** The link stands under its title, but as much text is taken away as its address is
    long: the words before it go too. *)
Example card_eats_text :
  match insertNode cut_texts doc_between 19 a_url "embed" [] with
  | Ok (NewBlock _ _ _ _ _ _ _ kept) => kept = [PText "see al" []]
  | _ => False
  end.
Proof. by vm_compute. Qed.

(** ** The title of an entity *)

Record PastedAccount : Type := { pa_id : string; pa_alias : option string }.
(** The calls of the daemon: titles as [pub?.document?.title], accounts, and the author
    of a comment. *)
Class TitleCalls (S : Type) : Type := {
  tc_getPublication : string → option string → call S (option string);
  tc_getAccount : string → call S (option PastedAccount);
  tc_getGroup : string → option string → call S (option string);
  tc_listContent : string → call S (obj string);
  tc_getComment : string → call S (option string);
}.
Section titles.
Context {S : Type} `{TitleCalls S}.
Definition fetchEntityTitle (hmId : UnpackedHypermediaId) : call S (option string) :=
  if String.eqb (u_type hmId) "d" then
    await* title := tc_getPublication (u_qid hmId) (or_null (u_version hmId)) in c_ret (or_null title)
  else if String.eqb (u_type hmId) "a" then
    await* account := tc_getAccount (undef_str (u_eid hmId)) in c_ret (or_null (a ← account; pa_alias a))
  else if String.eqb (u_type hmId) "g" then
    await* title := tc_getGroup (u_qid hmId) (or_null (u_version hmId)) in
    await* _ := tc_listContent (u_qid hmId) in
    c_ret (or_null title)
  else if String.eqb (u_type hmId) "c" then
    c_catch
      (await* comment := tc_getComment (u_qid hmId) in
       match comment with
       | None => c_ret None
       | Some author =>
           await* account := tc_getAccount author in
           match or_null (a ← account; pa_alias a), account with
           | Some alias, _ => c_ret (Some ("Comment from " +:+ alias))
           | None, Some a => c_ret (Some ("Comment from " +:+ js_slice (pa_id a) 0 5 +:+ "..." +:+ js_slice_from (pa_id a) (-5)))
           | None, None => c_throw "TypeError"
           end
       end)
      (λ _, c_ret None)
  else c_ret None.

(** The lookup of a comment never fails; those of the other entities fail with their
    calls, and then the link itself is shown. *)
Lemma comment_title_total u s : u_type u = "c" → is_ok (fetchEntityTitle u s).2 = true.
Proof.
  intros E. unfold fetchEntityTitle. rewrite E. unfold c_catch. cbn [String.eqb Ascii.eqb Bool.eqb].
  by destruct (c_bind _ _ s) as [s' [t|m]].
Qed.
End titles.
