(* ===== verification/Autolink.v ===== *)
(** * Links that make themselves

    packages/editor/src/tiptap-extension-link/helpers/autolink.ts: after a change of the
    document, a link whose text is none any more is cut, and the last word before a space
    or a new line becomes a link if it is one.  What the editor and linkify tell of the
    document are parameters, with what is relied on of them as hypotheses. *)
From S2P Require Import Prelude.
From S2P Require Import JsString.
From S2P Require Import Autocomplete.
From S2P Require Import LinkPaste.

(** [s.lastIndexOf(w)] and [s.endsWith(' ')]. *)
Fixpoint last_index_go (w s : string) (i : nat) (found : option nat) : option nat :=
  let found := if js_startsWith w s then Some i else found in
  match s with EmptyString => found | String _ s' => last_index_go w s' (S i) found end.
Definition js_lastIndexOf (w s : string) : Z :=
  match last_index_go w s 0 None with Some i => Z.of_nat i | None => -1 end.
Definition ends_with_space (s : string) : bool := bool_decide (last (chars s) = Some " "%char).

(** ** The plugin *)

Inductive LinkStep : Type :=
| RemoveMark (from to : Z)
| AddLink (from to : Z) (href : string).
(** A changed range: the link marks in the old one and the text blocks in the new one,
    each with its position and size, and where the new one ends. *)
Record Change : Type := {
  ch_oldMarks : list (Z * Z);
  ch_blocks : list (Z * Z);
  ch_from : Z;
  ch_to : Z;
}.

Section autolink.
Variable map_pos : Z → Z.                          (* [mapping.map] *)
Variable newMarks : Z → Z → list (Z * Z).          (* the link marks between two positions *)
Variables oldText newText : Z → Z → string.        (* [textBetween(from, to, undefined, ' ')] *)
Variable newTextBlocks : Z → Z → string.           (* [textBetween(from, to, ' ', ' ')] *)
Variables (test : string → bool) (find : string → list FoundLink) (validate : option (string → bool)).

(** The steps so far, and [needsAutolink]. *)
Abbreviation State := (list LinkStep * bool)%type.
Definition remove_link (st : State) (oldMark : Z * Z) : State :=
  match newMarks (map_pos oldMark.1) (map_pos oldMark.2) with
  | [] => st
  | newMark :: _ =>
      let wasLink := test (oldText oldMark.1 oldMark.2) in
      let isLink := test (newText newMark.1 newMark.2) in
      let needsAutolink := if wasLink then false else st.2 in
      if wasLink && negb isLink then
        (st.1 ++ [RemoveMark (if needsAutolink then newMark.1 else newMark.2 - 1) newMark.2]%Z, needsAutolink)
      else (st.1, needsAutolink)
  end.

(** The text block that is looked at, and its text before the white space. *)
Definition block_before (c : Change) : option (Z * string) :=
  match ch_blocks c with
  | b :: _ :: _ => Some (b.1, newText b.1 (b.1 + b.2))
  | [b] =>
      if ends_with_space (newTextBlocks (ch_from c) (ch_to c)) then Some (b.1, newText b.1 (ch_to c)) else None
  | [] => None
  end.
Definition words (s : string) : list string := List.filter truthy (js_split " " s).
Definition add_link (offset : Z) (steps : list LinkStep) (l : FoundLink) : list LinkStep :=
  let from := (offset + fl_start l + 1)%Z in
  let to := (offset + fl_end l + 1)%Z in
  match newMarks from to with
  | [] => steps ++ [AddLink from to (fl_href l)]
  | _ => steps
  end.
Definition valid_link (l : FoundLink) : bool :=
  fl_isLink l && match validate with Some f => f (fl_value l) | None => true end.
Definition add_links (c : Change) (steps : list LinkStep) : list LinkStep :=
  match block_before c with
  | None => steps
  | Some (pos, text) =>
      match last (words text) with
      | None => steps
      | Some w => fold_left (add_link (pos + js_lastIndexOf w text)) (List.filter valid_link (find w)) steps
      end
  end.
Definition autolink_change (st : State) (c : Change) : State :=
  let st := fold_left remove_link (ch_oldMarks c) st in
  (add_links c st.1, st.2).
(** [appendTransaction]: the steps of the transaction that is added, if one is. *)
Definition autolink (docChanges preventAutolink : bool) (changes : list Change) : option (list LinkStep) :=
  if negb docChanges || preventAutolink then None
  else match fold_left autolink_change changes ([], true) with
       | ([], _) => None
       | (steps, _) => Some steps
       end.

(** ** What it does *)

Lemma remove_link_steps (P : LinkStep → Prop) st marks :
  (∀ to, P (RemoveMark (to - 1) to)) → Forall P st.1 → Forall P (fold_left remove_link marks st).1.
Proof.
  intros HP. revert st. induction marks as [|m marks IH]; intros st Hst; [done|]. cbn [fold_left]. apply IH.
  unfold remove_link. destruct (newMarks _ _) as [|nm l]; [done|]. destruct (test (oldText _ _)); cbn [andb]; [|done].
  destruct (negb _); [|done]. cbn [fst]. apply Forall_app. split; [done|]. by apply list.Forall_singleton.
Qed.

Lemma last_index_occurs w s i found p :
  (∀ j, found = Some j → ∃ a b, p = a ++ b ∧ length a = j ∧ ∃ c, b ++ chars s = chars w ++ c) →
  length p = i →
  ∀ j, last_index_go w s i found = Some j → ∃ a c, p ++ chars s = a ++ chars w ++ c ∧ length a = j.
Proof.
  revert i found p. induction s as [|d s IH]; intros i found p Hf Hp j; cbn [last_index_go].
  - set (f := if js_startsWith w "" then Some i else found). intros Hj.
    assert (∀ k, f = Some k → ∃ a b, p = a ++ b ∧ length a = k ∧ ∃ c, b ++ [] = chars w ++ c) as Hf'.
    { unfold f. intros k. destruct (js_startsWith w "") eqn:E; [|apply Hf]. intros [= <-]. exists p, []. rewrite app_nil_r.
      split; [done|]. split; [done|]. apply prefix_iff in E as [t Et]. exists (chars t). by rewrite <- chars_app, <- Et. }
    destruct (Hf' j Hj) as (a & b & -> & Ha & c & Hc). exists a, c. split; [|done]. rewrite <- (assoc_L (++)).
    change (chars "") with (@nil ascii). by rewrite Hc.
  - set (f := if js_startsWith w (String d s) then Some i else found). intros Hj.
    assert (∀ k, f = Some k → ∃ a b, p = a ++ b ∧ length a = k ∧ ∃ c, b ++ chars (String d s) = chars w ++ c) as Hf'.
    { unfold f. intros k. destruct (js_startsWith w (String d s)) eqn:E; [|apply Hf]. intros [= <-]. exists p, []. rewrite app_nil_r.
      split; [done|]. split; [done|]. apply prefix_iff in E as [t Et]. exists (chars t). cbn [app]. by rewrite Et, chars_app. }
    destruct (IH (S i) f (p ++ [d])) with (j := j) as (a & c & E & Ha).
    + intros k Hk. destruct (Hf' k Hk) as (a & b & -> & Ha & c & Hc). exists a, (b ++ [d]). rewrite (assoc_L (++)).
      split; [done|]. split; [done|]. exists c. rewrite <- Hc, <- (assoc_L (++)). done.
    + rewrite length_app, Hp. cbn. lia.
    + done.
    + exists a, c. split; [|done]. rewrite <- E, <- (assoc_L (++)). done.
Qed.
Lemma last_index_found w s i found : is_Some found → is_Some (last_index_go w s i found).
Proof.
  revert i found. induction s as [|d s IH]; intros i found Hf; cbn [last_index_go]; destruct (js_startsWith w _);
    first [done|by apply IH].
Qed.
Lemma last_index_some w p q i found : is_Some (last_index_go w (p +:+ w +:+ q) i found).
Proof.
  revert i found. induction p as [|d p IH]; intros i found.
  - change ("" +:+ w +:+ q) with (w +:+ q). pose proof (prefix_app w q) as E. unfold last_index_go, js_startsWith.
    destruct (w +:+ q) as [|d s] eqn:Ew; fold last_index_go; rewrite E; [done|]. by apply last_index_found.
  - change (String d p +:+ w +:+ q) with (String d (p +:+ w +:+ q)). cbn [last_index_go]. apply IH.
Qed.
(** A part that occurs is found where it occurs. *)
Lemma lastIndexOf_occurs w p q : ∃ a c, chars (p +:+ w +:+ q) = a ++ chars w ++ c ∧ js_lastIndexOf w (p +:+ w +:+ q) = Z.of_nat (length a).
Proof.
  unfold js_lastIndexOf. destruct (last_index_some w p q 0 None) as [j E]. rewrite E.
  destruct (last_index_occurs w (p +:+ w +:+ q) 0 None [] ltac:(done) eq_refl j E) as (a & c & Ha & <-). by exists a, c.
Qed.
Lemma split_occurs w s : w ∈ js_split " " s → ∃ p q, s = p +:+ w +:+ q.
Proof.
  unfold js_split. revert w. induction s as [|d s IH]; intros w.
  - cbn. intros ->%list_elem_of_singleton. by exists "", "".
  - cbn [split_go]. destruct (String.prefix " " (String d s)) eqn:E.
    + cbn [len String.length Nat.sub]. intros [->|Hin]%elem_of_cons; [by exists "", (String d s)|].
      destruct (IH w Hin) as (p & q & ->). by exists (String d p), q.
    + destruct (split_go " " 0 s) as [|h t] eqn:Es; cbn [cons_head].
      * intros ->%list_elem_of_singleton. by exists "", s.
      * intros [->|Hin]%elem_of_cons.
        -- assert (∃ q, s = h +:+ q) as [q ->].
           { clear IH E. revert h t Es. induction s as [|e s IHs]; intros h t; cbn [split_go]; [intros [= <- _]; by exists ""|].
             destruct (String.prefix " " (String e s)); [intros [= <- _]; by exists (String e s)|].
             destruct (split_go " " 0 s) as [|h' t'] eqn:E'; cbn [cons_head]; intros [= <- _]; [by exists s|].
             destruct (IHs h' t' eq_refl) as [q ->]. by exists q. }
           by exists "", q.
        -- destruct (IH w ltac:(by right)) as (p & q & ->). by exists (String d p), q.
Qed.
End autolink.

(** What is relied on: positions in a text block count its characters, a break or an
    embedded node being a space; linkify's matches are where it says.  A change that
    meets one block ends in it. *)
Record TextLaws (newText : Z → Z → string) (find : string → list FoundLink) (content : Z → string) (c : Change) : Prop := {
  block_size (b : Z * Z) : b ∈ ch_blocks c → b.2 = (Z.of_nat (len (content b.1)) + 2)%Z;
  text_whole (b : Z * Z) : b ∈ ch_blocks c → newText b.1 (b.1 + b.2)%Z = content b.1;
  text_start (b : Z * Z) (k : nat) : b ∈ ch_blocks c → k ≤ len (content b.1) →
    chars (newText b.1 (b.1 + 1 + Z.of_nat k)%Z) = take k (chars (content b.1));
  text_between (b : Z * Z) (i j : nat) : b ∈ ch_blocks c → i ≤ j ≤ len (content b.1) →
    chars (newText (b.1 + 1 + Z.of_nat i)%Z (b.1 + 1 + Z.of_nat j)%Z) = take (j - i) (drop i (chars (content b.1)));
  ends_in_block (b : Z * Z) : ch_blocks c = [b] → (b.1 + 1 ≤ ch_to c ≤ b.1 + 1 + Z.of_nat (len (content b.1)))%Z;
  found_where w l : l ∈ find w → ∃ i j, fl_start l = Z.of_nat i ∧ fl_end l = Z.of_nat j ∧ i ≤ j ≤ len w ∧
    take (j - i) (drop i (chars w)) = chars (fl_value l);
}.

Section correct.
Variable map_pos : Z → Z.
Variable newMarks : Z → Z → list (Z * Z).
Variables oldText newText newTextBlocks : Z → Z → string.
Variables (test : string → bool) (find : string → list FoundLink) (validate : option (string → bool)).
Variable content : Z → string.

(** The step removes the mark of one character, or links the text of a match. *)
Definition good_step (s : LinkStep) : Prop :=
  match s with
  | RemoveMark from to => from = (to - 1)%Z
  | AddLink from to href =>
      ∃ w l, l ∈ find w ∧ valid_link validate l = true ∧ href = fl_href l ∧ newText from to = fl_value l ∧
             newMarks from to = []
  end.

(** The text before the white space is the start of a block's. *)
Lemma block_before_start c pos text : TextLaws newText find content c → block_before newText newTextBlocks c = Some (pos, text) →
  ∃ b, b ∈ ch_blocks c ∧ pos = b.1 ∧ ∃ r, chars (content b.1) = chars text ++ r.
Proof.
  intros Hl. unfold block_before. destruct (ch_blocks c) as [|b [|b' l]] eqn:E; [done| |].
  - destruct (ends_with_space _); [|done]. intros [= <- <-].
    assert (b ∈ ch_blocks c) as Hb by (rewrite E; by left). exists b. split; [by left|]. split; [done|].
    pose proof (ends_in_block _ _ _ _ Hl b E) as Hr.
    pose proof (text_start _ _ _ _ Hl b (Z.to_nat (ch_to c - (b.1 + 1))) Hb ltac:(lia)) as Et.
    replace (b.1 + 1 + Z.of_nat (Z.to_nat (ch_to c - (b.1 + 1))))%Z with (ch_to c) in Et by lia.
    exists (drop (Z.to_nat (ch_to c - (b.1 + 1))) (chars (content b.1))). by rewrite Et, take_drop.
  - intros [= <- <-]. assert (b ∈ ch_blocks c) as Hb by (rewrite E; by left). exists b. split; [by left|]. split; [done|].
    exists []. by rewrite app_nil_r, (text_whole _ _ _ _ Hl b Hb).
Qed.

Lemma add_links_good c steps : TextLaws newText find content c → Forall good_step steps →
  Forall good_step (add_links newMarks newText newTextBlocks find validate c steps).
Proof.
  intros Hl Hst. unfold add_links. destruct (block_before _ _ c) as [[pos text]|] eqn:Eb; [|done].
  destruct (block_before_start c pos text Hl Eb) as (b & Hb & -> & r & Hr).
  destruct (last (words text)) as [w|] eqn:Ew; [|done].
  assert (w ∈ js_split " " text) as Hw.
  { apply last_Some_elem_of in Ew. unfold words in Ew. apply list_elem_of_In, filter_In in Ew as [Ew _]. by apply list_elem_of_In. }
  destruct (split_occurs w text Hw) as (p & q & Et). destruct (lastIndexOf_occurs w p q) as (a & c' & Ea & Ei).
  rewrite <- Et in Ea, Ei. rewrite Ei.
  assert (∀ l, l ∈ List.filter (valid_link validate) (find w) → l ∈ find w ∧ valid_link validate l = true) as Hf.
  { intros l Hin. apply list_elem_of_In, filter_In in Hin as [Hin Hv]. split; [by apply list_elem_of_In|done]. }
  revert steps Hst. induction (List.filter (valid_link validate) (find w)) as [|l ls IH]; intros steps Hst; [done|].
  cbn [fold_left]. apply IH; [intros l' Hl'; apply Hf; by right|]. unfold add_link.
  destruct (newMarks _ _) as [|] eqn:Em; [|done]. apply Forall_app. split; [done|]. apply list.Forall_singleton.
  destruct (Hf l ltac:(by left)) as [Hin Hv]. exists w, l. do 3 (split; [done|]). split; [|done].
  destruct (found_where _ _ _ _ Hl w l Hin) as (i & j & Esi & Esj & Hij & Hval). apply chars_inj. rewrite <- Hval.
  rewrite Esi, Esj. assert (length (chars text) ≤ len (content b.1)) as Hlen by (rewrite <- length_chars, Hr, length_app; lia).
  rewrite Ea, !length_app, length_chars in Hlen.
  replace (b.1 + Z.of_nat (length a) + Z.of_nat i + 1)%Z with (b.1 + 1 + Z.of_nat (length a + i))%Z by lia.
  replace (b.1 + Z.of_nat (length a) + Z.of_nat j + 1)%Z with (b.1 + 1 + Z.of_nat (length a + j))%Z by lia.
  rewrite (text_between _ _ _ _ Hl b) by (done || lia).
  replace (length a + j - (length a + i)) with (j - i) by lia.
  rewrite Hr, Ea, <- !(assoc_L (++)), <- drop_drop, drop_app_length.
  rewrite drop_app_le by (rewrite length_chars; lia). rewrite take_app_le; [done|]. rewrite length_drop, length_chars. lia.
Qed.

(** What is linked after a change is exactly the text of a match of linkify's in a word,
    where there was no link; and a link that has ceased to be one has the mark taken off
    its last character alone. *)
Theorem autolink_spec docChanges preventAutolink changes steps :
  Forall (TextLaws newText find content) changes →
  autolink map_pos newMarks oldText newText newTextBlocks test find validate docChanges preventAutolink changes = Some steps →
  steps ≠ [] ∧ Forall good_step steps ∧ docChanges = true ∧ preventAutolink = false.
Proof.
  intros Hc. unfold autolink. destruct docChanges, preventAutolink; try done. cbn [negb orb].
  set (step := autolink_change map_pos newMarks oldText newText newTextBlocks test find validate).
  assert (∀ st, Forall good_step st.1 → Forall good_step (fold_left step changes st).1) as Hg.
  { induction Hc as [|c cs Hc _ IH]; intros st Hst; [done|]. cbn [fold_left]. apply IH. unfold step, autolink_change. cbn [fst].
    apply add_links_good; [done|]. by apply remove_link_steps. }
  specialize (Hg ([], true) ltac:(constructor)). destruct (fold_left step changes _) as [[|s l] b]; [done|].
  intros [= <-]. split; [done|]. split; [exact Hg|done].
Qed.
End correct.

(** ** A line that is typed *)

(** Up to the space: [see a.b], and then with more of it. *)
Definition line_text (s : string) (from to : Z) : string := js_slice s (Z.max 0 (from - 1)) (Z.max 0 (to - 1)).
Definition dotted (w : string) : list FoundLink :=
  if js_includes "." w then [{| fl_isLink := true; fl_value := w; fl_href := "http://" +:+ w; fl_start := 0; fl_end := Z.of_nat (len w) |}] else [].
Definition typed_space (s : string) : Change :=
  {| ch_oldMarks := []; ch_blocks := [(0, Z.of_nat (len s) + 2)%Z]; ch_from := Z.of_nat (len s); ch_to := Z.of_nat (len s) + 1 |}.

Lemma autolink_spec_witness :
  let s := "see a.b " in
  let r := autolink (λ p, p) (λ _ _, []) (line_text s) (line_text s) (line_text s) (λ w, js_includes "." w) dotted None true false [typed_space s] in
  r = Some [AddLink 5 8 "http://a.b"] ∧ Forall (good_step (λ _ _, []) (line_text s) dotted None) (default [] r).
Proof.
  split; [by vm_compute|].
  assert (TextLaws (line_text "see a.b ") dotted (λ _, "see a.b ") (typed_space "see a.b ")) as Hl.
  { split.
    - intros b ->%list_elem_of_singleton. done.
    - intros b ->%list_elem_of_singleton. done.
    - intros b k ->%list_elem_of_singleton Hk. cbn [len String.length] in Hk. cbn [fst].
      do 9 (destruct k as [|k]; [by vm_compute|]). lia.
    - intros b i j ->%list_elem_of_singleton Hij. cbn [len String.length] in Hij. cbn [fst].
      do 9 (destruct j as [|j]; [do 9 (destruct i as [|i]; [first [by vm_compute|lia]|]); lia|]). lia.
    - intros b [= <-]. vm_compute. split; discriminate.
    - intros w l. unfold dotted. destruct (js_includes "." w); [|by intros ?%elem_of_nil].
      intros ->%list_elem_of_singleton. exists 0, (len w). cbn. split; [done|]. split; [done|]. split; [lia|].
      rewrite Nat.sub_0_r. apply take_ge. rewrite length_chars. lia. }
  apply (autolink_spec (λ p, p) (λ _ _, []) (line_text "see a.b ") (line_text "see a.b ") (line_text "see a.b ")
           (λ w, js_includes "." w) dotted None (λ _, "see a.b ") true false [typed_space "see a.b "]); [|by vm_compute].
  by apply list.Forall_singleton.
Defined.
