(* ===== verification/Tipping.v ===== *)
(** * Donations to the authors of a document

    apps/site/src/web-tipping.tsx: how a donation is split among the authors who can
    receive one, what each of them gets, and the dialog that has it paid.  Shares and
    amounts are the program's doubles, with the operations of IEEE 754 that the Standard
    Library specifies. *)
From S2P Require Import Prelude.
From S2P Require Import JsString.
From S2P Require Import DaemonApi.
From Stdlib Require Import SpecFloat.

(** ** Numbers *)

Abbreviation Double := spec_float.
Abbreviation d_add := (SFadd 53 1024).
Abbreviation d_sub := (SFsub 53 1024).
Abbreviation d_mul := (SFmul 53 1024).
Abbreviation d_div := (SFdiv 53 1024).
Abbreviation d_zero := (S754_zero false).
Definition d_of (n : Z) : Double := binary_normalize 53 1024 n 0 false.

(** [Math.max] and [Math.min]: not a number if one of them is not; of the two zeros the
    negative one is the smaller. *)
Definition is_nan (x : Double) : bool := match x with S754_nan => true | _ => false end.
Definition math_max (x y : Double) : Double :=
  if is_nan x || is_nan y then S754_nan
  else if SFltb x y then y else if SFltb y x then x
  else match x with S754_zero true => y | _ => x end.
Definition math_min (x y : Double) : Double :=
  if is_nan x || is_nan y then S754_nan
  else if SFltb y x then y else if SFltb x y then x
  else match x with S754_zero false => y | _ => x end.
(** [Math.floor] *)
Definition math_floor (x : Double) : Double :=
  match x with
  | S754_finite s m e =>
      if (0 <=? e)%Z then x
      else binary_normalize 53 1024 (Z.div (cond_Zopp s (Z.pos m)) (Z.pow 2 (- e))) 0 false
  | _ => x
  end.

(** ** The shares *)

Record Share : Type := { sh_id : string; sh_percentage : Double; sh_canReceive : bool }.
(** The double of the literal [0.99]. *)
Definition editorsOverallPercentage : Double := d_div (d_of 99) (d_of 100).
Definition with_percentage (s : Share) (p : Double) : Share :=
  {| sh_id := sh_id s; sh_percentage := p; sh_canReceive := sh_canReceive s |}.
Definition count (n : nat) : Double := d_of (Z.of_nat n).

(** [splitReducer] for the action [incrementPercentage], the only one. *)
Definition next_percentage (p increment : Double) : Double :=
  math_min editorsOverallPercentage (math_max d_zero (d_add p increment)).
Definition splitReducer (state : list Share) (id : string) (increment : Double) : list Share :=
  let availRecipients := List.filter sh_canReceive state in
  match List.find (λ s, String.eqb (sh_id s) id) state with
  | None => state
  | Some prevTarget =>
      let prevTargetPercentage := sh_percentage prevTarget in
      let nextPercentage := next_percentage prevTargetPercentage increment in
      let prevRemainderPercentage := d_sub editorsOverallPercentage prevTargetPercentage in
      let nextRemainderPercentage := d_sub editorsOverallPercentage nextPercentage in
      let others := List.filter (λ s, negb (String.eqb (sh_id s) id)) state in
      if negb (existsb (λ s, negb (SFeqb (sh_percentage s) d_zero)) others) then
        (λ s, if negb (sh_canReceive s) then s
              else if String.eqb (sh_id s) id then with_percentage s nextPercentage
              else with_percentage s
                     (d_div nextRemainderPercentage (d_sub (count (length availRecipients)) (d_of 1)))) <$> state
      else
        (λ s, if String.eqb (sh_id s) id then with_percentage s nextPercentage
              else
                let prevRatioExcludingTarget :=
                  if SFeqb prevRemainderPercentage d_zero then d_zero
                  else d_div (sh_percentage s) prevRemainderPercentage in
                with_percentage s (d_mul prevRatioExcludingTarget nextRemainderPercentage)) <$> state
  end.

(** [initialSplit]: an editor is an account's id, or null. *)
Definition initialSplit (editors : list (option string)) (validRecipients : list string) : list Share :=
  let editorIds := List.filter truthy (default "" <$> editors) in
  let equalPercentage :=
    match validRecipients with
    | [] => editorsOverallPercentage
    | _ => d_div editorsOverallPercentage (count (length validRecipients))
    end in
  (λ id, let canReceive := truthy id && existsb (String.eqb id) validRecipients in
         {| sh_id := id; sh_canReceive := canReceive;
            sh_percentage := if canReceive then equalPercentage else d_zero |}) <$> editorIds.

(** [computed]: the sats of each row, and the fee, which is what is left. *)
Definition row_sats (amount : Double) (s : Share) : Double := math_floor (d_mul amount (sh_percentage s)).
Definition computed (amount : Double) (split : list Share) : list Double * Double :=
  (row_sats amount <$> split, fold_left (λ remainder s, d_sub remainder (row_sats amount s)) split amount).

(** ** The invoice *)

Record InternalInvoice : Type := { in_payload : string; in_hash : string; in_split : list Share }.
Record InvoiceResponse : Type := { ir_pr : option string; ir_payment_hash : string; ir_reason : string }.
Section invoice.
Variables (host docId : string) (show : Double → string) (fetch : string → result InvoiceResponse).
(** [show] prints a number. *)
Definition invoice_url (split : list Share) (amount : Double) : string :=
  host +:+ "/v2/invoice?source=" +:+ docId +:+
  String.concat "" ((λ s, "&user=" +:+ sh_id s +:+ "," +:+ show (sh_percentage s)) <$> split) +:+
  "&amount=" +:+ show (d_mul amount (d_of 1000)).
Definition createInvoice (split : list Share) (amount : Double) : result InternalInvoice :=
  if SFleb amount d_zero then Err "min amount is 1sat"
  else match split with
  | [] => Err "invalid donation share: empty"
  | _ =>
      let* resp := fetch (invoice_url split amount) in
      match or_null (ir_pr resp) with
      | None => Err ("Could not create invoice: " +:+ ir_reason resp)
      | Some pr => Ok {| in_payload := pr; in_hash := ir_payment_hash resp; in_split := split |}
      end
  end.
(** [checkInvoice]: what the response's status and its body say; [true] is complete. *)
Definition checkInvoice (invoice : InternalInvoice) (get : string → result (Z * string)) : result bool :=
  match or_null (sh_id <$> head (in_split invoice)) with
  | None => Err "Invalid invoice, no user id"
  | Some userId =>
      let* res := get (host +:+ "/v2/invoicemeta/" +:+ in_hash invoice +:+ "?user=" +:+ userId) in
      Ok ((res.1 =? 200)%Z && String.eqb res.2 "settled")
  end.
End invoice.

(** ** The dialog *)

Record Dialog : Type := {
  dl_open : bool;
  dl_invoice : option InternalInvoice;
  dl_completion : bool;
  dl_creating : nat;                     (* invoices that are asked for *)
  dl_payments : nat;                     (* payments that a wallet is asked for *)
  dl_checks : nat;                       (* checks whose answers are to come *)
}.
Definition closed_dialog : Dialog :=
  {| dl_open := false; dl_invoice := None; dl_completion := false; dl_creating := 0; dl_payments := 0; dl_checks := 0 |}.
Inductive View : Type := CreateView | PayView (invoice : InternalInvoice) | CompletionView.
Definition content (d : Dialog) : View :=
  if dl_completion d then CompletionView
  else match dl_invoice d with Some i => PayView i | None => CreateView end.
Inductive DialogEvent : Type :=
| Opened
| Closed                                 (* by its button, or by the completion's *)
| Create
| Created (r : result InternalInvoice)
| WalletPaid                             (* [sendWeblnPayment] resolves with an output *)
| IntervalFires
| Checked (complete : result bool).
Definition dialog_step (d : Dialog) (e : DialogEvent) : option Dialog :=
  match e with
  | Opened => Some {| dl_open := true; dl_invoice := dl_invoice d; dl_completion := dl_completion d;
                      dl_creating := dl_creating d; dl_payments := dl_payments d; dl_checks := dl_checks d |}
  | Closed => if dl_open d then Some {| dl_open := false; dl_invoice := None; dl_completion := false;
                                        dl_creating := dl_creating d; dl_payments := dl_payments d; dl_checks := dl_checks d |} else None
  | Create =>
      match dl_open d, content d with
      | true, CreateView => Some {| dl_open := true; dl_invoice := dl_invoice d; dl_completion := false;
                                    dl_creating := S (dl_creating d); dl_payments := dl_payments d; dl_checks := dl_checks d |}
      | _, _ => None
      end
  | Created r =>
      match dl_creating d with
      | O => None
      | S n => Some {| dl_open := dl_open d; dl_invoice := match r with Ok i => Some i | Err _ => dl_invoice d end;
                       dl_completion := dl_completion d; dl_creating := n; dl_payments := match r with Ok _ => S (dl_payments d) | Err _ => dl_payments d end; dl_checks := dl_checks d |}
      end
  | WalletPaid =>
      match dl_payments d with
      | O => None
      | S n => Some {| dl_open := dl_open d; dl_invoice := dl_invoice d; dl_completion := true;
                       dl_creating := dl_creating d; dl_payments := n; dl_checks := dl_checks d |}
      end
  | IntervalFires =>
      match dl_open d, content d with
      | true, PayView _ => Some {| dl_open := true; dl_invoice := dl_invoice d; dl_completion := dl_completion d;
                                   dl_creating := dl_creating d; dl_payments := dl_payments d; dl_checks := S (dl_checks d) |}
      | _, _ => None
      end
  | Checked r =>
      match dl_checks d with
      | O => None
      | S n => Some {| dl_open := dl_open d; dl_invoice := dl_invoice d;
                       dl_completion := match r with Ok true => true | _ => dl_completion d end;
                       dl_creating := dl_creating d; dl_payments := dl_payments d; dl_checks := n |}
      end
  end.
Fixpoint dialog_run (d : Dialog) (es : list DialogEvent) : option Dialog :=
  match es with
  | [] => Some d
  | e :: es' => d' ← dialog_step d e; dialog_run d' es'
  end.

(** ** A share stays within its bounds *)

Lemma shr_1_nonneg r : (0 <= shr_m r)%Z → (0 <= shr_m (shr_1 r))%Z.
Proof. by destruct r as [[|[p|p|]|[p|p|]] ? ?]. Qed.
Lemma iter_pos_keeps {A} (P : A → Prop) (f : A → A) n x : (∀ y, P y → P (f y)) → P x → P (SpecFloat.iter_pos f n x).
Proof. intros Hf. revert x. induction n as [n IH|n IH|]; intros x Hx; cbn; auto. Qed.
Lemma shr_fexp_nonneg m e l : (0 <= m)%Z → (0 <= shr_m (shr_fexp 53 1024 m e l).1)%Z.
Proof.
  intros Hm. unfold shr_fexp, shr.
  assert (0 <= shr_m (shr_record_of_loc m l))%Z as Hr by by destruct l as [|[]].
  destruct (_ - e)%Z; cbn; [done| |done]. by apply (iter_pos_keeps (λ r, (0 <= shr_m r)%Z)); [apply shr_1_nonneg|].
Qed.
(** Rounding gives a number. *)
Lemma round_not_nan s m e l : (0 <= m)%Z → is_nan (binary_round_aux 53 1024 s m e l) = false.
Proof.
  intros Hm. unfold binary_round_aux. pose proof (shr_fexp_nonneg m e l Hm) as H1.
  destruct (shr_fexp 53 1024 m e l) as [r1 e1]. cbn [fst] in H1.
  assert (0 <= round_nearest_even (shr_m r1) (loc_of_shr_record r1))%Z as H2.
  { unfold round_nearest_even. destruct (loc_of_shr_record r1) as [|[]]; try lia. destruct (Z.even _); lia. }
  pose proof (shr_fexp_nonneg _ e1 loc_Exact H2) as H3. destruct (shr_fexp 53 1024 _ e1 loc_Exact) as [r2 e2]. cbn [fst] in H3.
  destruct (shr_m r2) as [|p|p]; [done| |lia]. by destruct (e2 <=? _)%Z.
Qed.
Lemma normalize_not_nan m e s : is_nan (binary_normalize 53 1024 m e s) = false.
Proof.
  destruct m as [|p|p]; cbn; [done| |]; unfold binary_round; destruct (shl_align _ _ _); by apply round_not_nan.
Qed.
(** A number that is neither infinite nor none. *)
Definition is_finite (x : Double) : bool := match x with S754_zero _ | S754_finite _ _ _ => true | _ => false end.
Lemma add_not_nan x y : is_finite x = true → is_finite y = true → is_nan (d_add x y) = false.
Proof.
  destruct x as [s| | |s m e], y as [s'| | |s' m' e']; try done; intros _ _; [by destruct s, s'|].
  apply normalize_not_nan.
Qed.

Lemma max_zero_nonneg x : is_nan x = false → SFleb d_zero (math_max d_zero x) = true ∧ is_nan (math_max d_zero x) = false.
Proof.
  intros Hx. unfold math_max. rewrite Hx. cbn [is_nan orb]. unfold SFltb, SFleb.
  destruct x as [s|s| |s m e]; [done|by destruct s|done|by destruct s].
Qed.
Lemma min_bounds c x : is_nan c = false → is_nan x = false → SFleb c c = true → SFleb d_zero c = true →
  SFleb d_zero x = true → c ≠ d_zero → SFleb d_zero (math_min c x) = true ∧ SFleb (math_min c x) c = true.
Proof.
  intros Hc Hx Hcc Hc0 Hx0 Hne. unfold math_min. rewrite Hc, Hx. cbn [orb].
  destruct (SFltb x c) eqn:E1; [split; [done|]; unfold SFltb, SFleb in *; destruct (SFcompare x c) as [[]|]; done|].
  destruct (SFltb c x); [done|]. destruct c as [[]| | |]; try done.
Qed.

(** Changing the share of an author: nobody comes or goes, and the new share is what was
    asked for, from nothing to the editors' part, however the doubles round; what the
    others get has no such bounds ([shares_drift]). *)
Theorem splitReducer_target (state : list Share) (t : Share) (increment : Double) :
  List.find (λ s, String.eqb (sh_id s) (sh_id t)) state = Some t → sh_canReceive t = true →
  is_finite (sh_percentage t) = true → is_finite increment = true →
  let state' := splitReducer state (sh_id t) increment in
  sh_id <$> state' = sh_id <$> state ∧ sh_canReceive <$> state' = sh_canReceive <$> state ∧
  (∃ s', s' ∈ state' ∧ sh_id s' = sh_id t) ∧
  ∀ s', s' ∈ state' → sh_id s' = sh_id t → sh_canReceive s' = true →
    sh_percentage s' = next_percentage (sh_percentage t) increment ∧
    SFleb d_zero (sh_percentage s') = true ∧ SFleb (sh_percentage s') editorsOverallPercentage = true.
Proof.
  intros Hf Ht Hp Hi state'.
  destruct (max_zero_nonneg (d_add (sh_percentage t) increment) (add_not_nan _ _ Hp Hi)) as [Hm0 Hmn].
  assert (SFleb d_zero (next_percentage (sh_percentage t) increment) = true ∧
          SFleb (next_percentage (sh_percentage t) increment) editorsOverallPercentage = true) as Hb
    by (apply min_bounds; done || by vm_compute).
  assert (∃ f : Share → Share, state' = f <$> state ∧ (∀ s, sh_id (f s) = sh_id s) ∧ (∀ s, sh_canReceive (f s) = sh_canReceive s) ∧
    ∀ s, sh_id s = sh_id t → sh_canReceive s = true → sh_percentage (f s) = next_percentage (sh_percentage t) increment)
    as (f & -> & Hid & Hc & Hfp).
  { unfold state', splitReducer. rewrite Hf.
    destruct (negb (existsb _ _)); eexists; (split; [reflexivity|]); cbv beta zeta; split_and!.
    - intros s. destruct (negb _); [done|]. by destruct (String.eqb _ _).
    - intros s. destruct (negb _); [done|]. by destruct (String.eqb _ _).
    - intros s E Hr. by rewrite Hr, E, str_eqb_refl.
    - intros s. by destruct (String.eqb _ _).
    - intros s. by destruct (String.eqb _ _).
    - intros s E _. by rewrite E, str_eqb_refl. }
  rewrite <- !list_fmap_compose. split; [apply list_fmap_ext; intros i s _; apply Hid|].
  split; [apply list_fmap_ext; intros i s _; apply Hc|]. split.
  - apply List.find_some in Hf as [Hin _]. exists (f t). split; [|apply Hid].
    by apply list_elem_of_fmap_2, list_elem_of_In.
  - intros s' (s & -> & _)%list_elem_of_fmap E Hr. rewrite Hid in E. rewrite Hc in Hr. by rewrite (Hfp s E Hr).
Qed.

(** *** What the rounding does *)

Definition two_authors : list Share := initialSplit [Some "a"; Some "b"] ["a"; "b"].
Definition plus : Double := d_div (d_of 1) (d_of 10).
Definition minus : Double := SFopp plus.
Definition clicks (state : list Share) (l : list (string * Double)) : list Share :=
  fold_left (λ state c, splitReducer state c.1 c.2) l state.
Definition total (l : list Share) : Double := fold_left (λ r s, d_add r (sh_percentage s)) l d_zero.

(** Ten clicks on the shares of two authors, and together they have less than [0.966]. *)
Lemma shares_drift :
  let state := clicks two_authors [("a", plus); ("a", plus); ("b", minus); ("a", minus); ("b", minus);
                                   ("b", minus); ("b", minus); ("a", minus); ("b", minus); ("a", minus)] in
  total two_authors = editorsOverallPercentage ∧
  SFltb (total state) (d_div (d_of 966) (d_of 1000)) = true.
Proof. by vm_compute. Qed.
(** With one author who can receive, what is taken from the share goes to nobody, and so
    into the fee. *)
Lemma lone_share_is_lost :
  let state := splitReducer (initialSplit [Some "a"; Some "b"] ["a"]) "a" minus in
  sh_percentage <$> state = [d_sub editorsOverallPercentage plus; d_zero].
Proof. by vm_compute. Qed.
(** Of 1000 sats the fee is meant to be 10; with the shares that five clicks lead to it is 12. *)
Lemma fee_of_rounding :
  let state := clicks two_authors [("a", plus); ("a", plus); ("b", minus); ("a", minus); ("b", minus)] in
  (computed (d_of 1000) two_authors).2 = d_of 10 ∧
  (computed (d_of 1000) state).2 = d_of 12.
Proof. by vm_compute. Qed.

(** ** The dialog *)

(** The dialog thanks for a donation only after an invoice was found paid, or a wallet
    has paid it; but the answer may be for an invoice of an earlier time the dialog was
    open. *)
Theorem thanks_after_payment es d :
  dialog_run closed_dialog es = Some d → content d = CompletionView →
  ∃ e, e ∈ es ∧ (e = WalletPaid ∨ e = Checked (Ok true)).
Proof.
  intros Hr Hc.
  assert (∀ es d0, dialog_run d0 es = Some d → dl_completion d0 = false → dl_completion d = true →
    ∃ e, e ∈ es ∧ (e = WalletPaid ∨ e = Checked (Ok true))) as Hgen.
  { clear. induction es as [|e es IH]; intros d0 Hr H0 Hd; [cbn in Hr; congruence|].
    cbn in Hr. destruct (dialog_step d0 e) as [d1|] eqn:E; [|done]. cbn in Hr.
    destruct (dl_completion d1) eqn:E1.
    - exists e. split; [by left|]. destruct e as [| | |r| | |[[]|]]; cbn in E; try (by left); try (by right);
        try (injection E as <-; cbn in E1; congruence).
      + destruct (dl_open d0); [|done]. injection E as <-. done.
      + destruct (dl_open d0); [|done]. destruct (content d0); [|done|done]. by injection E as <-.
      + destruct (dl_creating d0); [done|]. injection E as <-. cbn in E1. congruence.
      + destruct (dl_open d0); [|done]. destruct (content d0); [done| |done]. injection E as <-. cbn in E1. congruence.
      + destruct (dl_checks d0); [done|]. injection E as <-. cbn in E1. congruence.
      + destruct (dl_checks d0); [done|]. injection E as <-. cbn in E1. congruence.
    - destruct (IH d1 Hr E1 Hd) as (e' & He & Hp). exists e'. split; [by right|done]. }
  apply (Hgen es closed_dialog Hr eq_refl). unfold content in Hc. destruct (dl_completion d); [done|]. by destruct (dl_invoice d).
Qed.

(** The check of an invoice is answered after the dialog was closed: opened again, it
    thanks for a donation that has not been made. *)
Lemma thanked_without_donating inv :
  ∃ d, dialog_run closed_dialog [Opened; Create; Created (Ok inv); IntervalFires; Closed; Checked (Ok true); Opened] = Some d ∧
    content d = CompletionView ∧ dl_invoice d = None.
Proof. by eexists. Qed.

(** ** Donations at an example *)

Lemma splitReducer_target_witness :
  let state := splitReducer two_authors "a" plus in
  ∀ s, s ∈ state → sh_id s = "a" → sh_canReceive s = true → SFleb (sh_percentage s) editorsOverallPercentage = true.
Proof.
  intros state s Hs Hid Hr.
  by apply (splitReducer_target two_authors {| sh_id := "a"; sh_percentage := d_div editorsOverallPercentage (d_of 2); sh_canReceive := true |} plus
    ltac:(by vm_compute) eq_refl eq_refl eq_refl).
Defined.
Definition an_invoice : InternalInvoice := {| in_payload := "lnbc"; in_hash := "h"; in_split := two_authors |}.
Lemma thanks_after_payment_witness : ∃ e, e ∈ [Opened; Create; Created (Ok an_invoice); WalletPaid] ∧ (e = WalletPaid ∨ e = Checked (Ok true)).
Proof. eapply (thanks_after_payment [Opened; Create; Created (Ok an_invoice); WalletPaid]); reflexivity. Defined.
