(* ===== verification/CodeBlock.v ===== *)
(** * Code blocks

    Of packages/editor/src/tiptap-extension-code-block: code-block.ts, what the keys do in
    a block of code, its language in HTML and what is pasted from an editor of code; and
    lowlight-plugin.ts, the classes that highlighting gives to the text.  The editor is a
    class of what the keys read and of the edits of a transaction, with laws. *)
From S2P Require Import Prelude.
From S2P Require Import JsString.
From S2P Require Import JsObject.
From S2P Require Import DaemonApi.
From S2P Require Import NodeConvert.
From S2P Require Import BlockNodes.
From S2P Require Import Positions.
From S2P Require Import PositionsFacts.
From S2P Require Import NodeExamples.
From S2P Require Import PositionsModel.

Definition NL : ascii := ascii_of_nat 10.
Definition CR : ascii := ascii_of_nat 13.
Definition newline : string := String NL "".
Definition tabSpace : string := "  ".

(** The state a key is pressed in: if the selection starts in a block of code
    ([$from.parent.type === this.type]), the text of that block, where its content starts,
    and the ends of the selection; and the edits. *)
Class CodeEditor (Ed : Type) : Type := {
  ce_in_code : Ed → bool;
  ce_text : Ed → string;
  ce_start : Ed → Z;
  ce_from : Ed → Z;
  ce_to : Ed → Z;
  (* [codeBlock.textBetween(from, to)] *)
  textBetween : string → Z → Z → result string;
  (* [tr.insert(pos, schema.text(s))], [tr.deleteRange(from, to)] and [tr.delete] *)
  ed_insert : Ed → Z → string → Ed;
  ed_deleteRange : Ed → Z → Z → Ed;
  ed_delete : Ed → Z → Z → Ed;
  (* [commands.focus(pos)], [commands.clearNodes()], [commands.exitCode()] *)
  ed_focus : Ed → Z → Ed;
  clearNodes : Ed → bool * Ed;
  exitCode : Ed → bool * Ed;
}.

Section keys.
Context {Ed : Type} `{CodeEditor Ed}.
Definition ce_empty (e : Ed) : bool := (ce_from e =? ce_to e)%Z.
(** The selection's ends in the content of the block. *)
Definition from_in (e : Ed) : Z := (ce_from e - ce_start e)%Z.
Definition to_in (e : Ed) : Z := (ce_to e - ce_start e)%Z.
Definition text_size (s : string) : Z := Z.of_nat (len s).

(** [while (currentChar !== '\n' && currentPosInBlock != -1)], from one after the position;
    at 0 the position is -1. *)
Fixpoint line_start (s : string) (k : nat) (currentChar : string) : result Z :=
  if String.eqb currentChar newline then Ok (Z.of_nat k - 1)%Z
  else match k with
       | O => Ok (-1)%Z
       | S k' =>
           let* c := textBetween s (Z.of_nat k' - 1) (Z.of_nat k') in
           line_start s k' c
       end.

(** The scan of the selection: the positions that [found] takes at each newline. *)
Fixpoint scan_lines (s : string) (found : Z → result (list Z)) (n : nat) (currentPos : Z) : result (list Z) :=
  match n with
  | O => Ok []
  | S n' =>
      let* c := textBetween s currentPos (currentPos + 1) in
      let* here := if String.eqb c newline then found currentPos else Ok [] in
      let* rest := scan_lines s found n' (currentPos + 1)%Z in
      Ok (here ++ rest)
  end.
Definition breakLinePositions (e : Ed) (found : Z → result (list Z)) : result (list Z) :=
  if ce_empty e then Ok []
  else scan_lines (ce_text e) found (Z.to_nat (to_in e - from_in e)) (from_in e).

(** [breakLinePositions.forEach((pos, index) => ...)] *)
Fixpoint each_break (f : Ed → Z → Z → Ed) (index : Z) (l : list Z) (tr : Ed) : Ed :=
  match l with
  | [] => tr
  | pos :: l' => each_break f (index + 1)%Z l' (f tr pos index)
  end.

Definition Tab (e : Ed) : result (bool * Ed) :=
  if negb (ce_in_code e) then Ok (false, e)
  else if (ce_from e =? ce_start e)%Z && ce_empty e then Ok (false, e)
  else
    let* p := line_start (ce_text e) (S (Z.to_nat (from_in e))) "" in
    let* breaks := breakLinePositions e (λ pos, Ok [pos]) in
    let tr := ed_insert e (p + ce_start e + 1) tabSpace in
    Ok (true, each_break (λ tr pos index, ed_insert tr (pos + ce_start e + 1 + (index + 1) * 2) tabSpace) 0 breaks tr).

Definition has_newline (s : string) : bool := negb (lacks NL s).
(** The second loop, which looks at two characters at a time; [n] counts the positions
    left, so that [currentPosInBlock + 2 < size] is that it is not 0. *)
Fixpoint find_pair (s : string) (n : nat) : result (Z * string) :=
  let pos := (text_size s - 2 - Z.of_nat n)%Z in
  let* c := textBetween s pos (pos + 2) in
  if String.eqb c tabSpace || has_newline c then Ok (pos, c)
  else match n with
       | O => Ok (pos, c)
       | S n' => find_pair s n'
       end.

(** What is done at a newline of the selection. *)
Definition pair_found (s : string) (pos : Z) : result (list Z) :=
  let* nextChars := textBetween s (pos + 1) (pos + 3) in
  Ok (if String.eqb nextChars tabSpace then [pos + 1]%Z else []).
Definition Shift_Tab (e : Ed) : result (bool * Ed) :=
  if negb (ce_in_code e) then Ok (false, e)
  else if (ce_from e =? ce_start e)%Z && ce_empty e then Ok (false, e)
  else
    let s := ce_text e in
    let start := ce_start e in
    let k := Z.to_nat (from_in e) in
    let* c := textBetween s (Z.of_nat k - 1) (Z.of_nat k) in
    let* p := line_start s k c in
    if (text_size s <=? p + 2)%Z then Ok (true, e)
    else
      let* r := find_pair s (Z.to_nat (text_size s - 2 - (p + 1))) in
      let* breaks := breakLinePositions e (pair_found s) in
      let first := String.eqb r.2 tabSpace in
      let tr := if first then ed_deleteRange e (r.1 + start) (r.1 + start + 2) else e in
      let shift (index : Z) := if first then ((index + 1) * 2)%Z else (index * 2)%Z in
      Ok (true, each_break (λ tr pos index,
            ed_deleteRange tr (pos + start - shift index) (pos + start + 2 - shift index)) 0 breaks tr).

Definition ends_with_newline (s : string) : bool :=
  match rev (chars s) with c :: _ => Ascii.eqb c NL | [] => false end.
Definition Enter (e : Ed) : bool * Ed :=
  if negb (ce_empty e) || negb (ce_in_code e) then (false, e)
  else
    let isAtEnd := (from_in e =? text_size (ce_text e))%Z in
    if isAtEnd && ends_with_newline (ce_text e) then
      let nextBlockPos := (ce_start e + text_size (ce_text e) + 2)%Z in
      (true, ed_delete (ed_focus e nextBlockPos) (ce_from e - 1) (ce_from e))
    else (true, ed_insert e (ce_from e) newline).

Definition Backspace (e : Ed) : bool * Ed :=
  let isAtStart := (ce_from e =? 1)%Z in
  if negb (ce_empty e) || negb (ce_in_code e) then (false, e)
  else if isAtStart || negb (truthy (ce_text e)) then clearNodes e
  else (false, e).

(** [nodeAfter] is [doc.nodeAt($from.after())]. *)
Definition ArrowDown (e : Ed) (nodeAfter : option PNode) : bool * Ed :=
  if negb (ce_empty e) || negb (ce_in_code e) then (false, e)
  else if negb (from_in e =? text_size (ce_text e))%Z then (false, e)
  else if nodeAfter is Some _ then (false, e)
  else exitCode e.
End keys.

(** ** What is pasted from an editor of code *)

(** [text.replace(/\r\n?/g, '\n')] *)
Fixpoint normalize_newlines (l : list ascii) : list ascii :=
  match l with
  | c :: l' =>
      if Ascii.eqb c CR then
        NL :: match l' with
              | d :: l'' => if Ascii.eqb d NL then normalize_newlines l'' else normalize_newlines l'
              | [] => []
              end
      else c :: normalize_newlines l'
  | [] => []
  end.
(** The language and the text of the block of code that is made, if one is.  The data of
    the clipboard is the text and, of another editor, JSON with the mode. *)
Definition vscode_paste (JSON_mode : string → result (option string)) (active : bool)
    (clipboardData : option (string * string)) : result (option (string * string)) :=
  match clipboardData with
  | None => Ok None
  | Some (text, vscode) =>
      if active then Ok None
      else
        let* language := if truthy vscode then JSON_mode vscode else Ok None in
        Ok (if truthy text && otruthy language
            then Some (default "" language, of_chars (normalize_newlines (chars text))) else None)
  end.

(** The language of [pre], from its classes. *)
Definition parse_language (languageClassPrefix : string) (classNames : list string) : string :=
  match List.filter (js_startsWith languageClassPrefix) classNames with
  | c :: _ => of_chars (drop (len languageClassPrefix) (chars c))
  | [] => ""
  end.

(** ** Highlighting *)

(** The nodes that [lowlight] returns. *)
Inductive Hast : Type :=
| HText (value : string)
| HElem (className : option (list string)) (children : list Hast).

Fixpoint parseNode (className : list string) (node : Hast) : list (string * list string) :=
  match node with
  | HText value => [(value, className)]
  | HElem properties children =>
      flat_map (parseNode (className ++ default [] properties)) children
  end.
Definition parseNodes (nodes : list Hast) (className : list string) : list (string * list string) :=
  flat_map (parseNode className) nodes.
(** [result.value] or [result.children]; arrays are truthy. *)
Definition getHighlightNodes (value children : option (list Hast)) : list Hast :=
  match value with Some l => l | None => default [] children end.

Record Decoration : Type := { d_from : Z; d_to : Z; d_class : string }.
Fixpoint decorate (from : Z) (nodes : list (string * list string)) : list Decoration :=
  match nodes with
  | [] => []
  | (text, classes) :: nodes' =>
      let to := (from + text_size text)%Z in
      (if bool_decide (classes = []) then []
       else [{| d_from := from; d_to := to; d_class := js_join " " classes |}]) ++ decorate to nodes'
  end.

Section decorations.
(** [lowlight.listLanguages()], highlight.js' [getLanguage], and the nodes of a text. *)
Variables (listLanguages : list string) (registered : string → bool).
Variables (highlight : string → string → list Hast) (highlightAuto : string → list Hast).
Definition highlight_nodes (language : option string) (text : string) : list Hast :=
  match or_null language with
  | Some l =>
      if existsb (String.eqb l) listLanguages || registered l then highlight l text else highlightAuto text
  | None => highlightAuto text
  end.
(** The blocks are those that [findChildren] finds: where, the language and the text. *)
Definition block_decorations (defaultLanguage : option string) (b : Z * option string * string) : list Decoration :=
  let '(pos, language, textContent) := b in
  decorate (pos + 1) (parseNodes (highlight_nodes (js_or language defaultLanguage) textContent) []).
Definition getDecorations (defaultLanguage : option string) (blocks : list (Z * option string * string)) : list Decoration :=
  flat_map (block_decorations defaultLanguage) blocks.

(** When the decorations are made again: the positions and sizes of the blocks before and
    after, and the ranges of the steps that have one. *)
Definition recompute (name oldNodeName newNodeName : string) (docChanged : bool)
    (oldNodes newNodes : list (Z * Z)) (steps : list (option (Z * Z))) : bool :=
  docChanged
  && (existsb (String.eqb name) [oldNodeName; newNodeName]
      || negb (Nat.eqb (length newNodes) (length oldNodes))
      || existsb (λ step, match step with
                          | Some (from, to) =>
                              existsb (λ n, (from <=? n.1)%Z && (n.1 + n.2 <=? to)%Z) oldNodes
                          | None => false
                          end) steps).
End decorations.

(** A block's content is text; the edits change it between positions in it. *)
Class CodeEditorLaws (Ed : Type) `{CodeEditor Ed} : Prop := {
  textBetween_in s a b : (-1 <= a)%Z → (a <= b)%Z → (0 <= b)%Z → (b <= text_size s)%Z →
    textBetween s a b = Ok (js_slice s (Z.max 0 a) b);
  (* past the end, it goes on to a child that is not there *)
  textBetween_past s a b : (0 <= a)%Z → (a < b)%Z → (text_size s < b)%Z → is_ok (textBetween s a b) = false;
  from_after_start e : ce_in_code e = true → (0 <= from_in e <= text_size (ce_text e))%Z;
  from_before_to e : (ce_from e <= ce_to e)%Z;
  insert_text e u v s : ce_in_code e = true → ce_text e = u +:+ v →
    let e' := ed_insert e (ce_start e + text_size u) s in
    ce_in_code e' = true ∧ ce_start e' = ce_start e ∧ ce_text e' = u +:+ s +:+ v;
  deleteRange_text e u v s : ce_in_code e = true → ce_text e = u +:+ s +:+ v →
    let e' := ed_deleteRange e (ce_start e + text_size u) (ce_start e + text_size u + text_size s) in
    ce_in_code e' = true ∧ ce_start e' = ce_start e ∧ ce_text e' = u +:+ v;
}.

(** ** What the keys leave *)

Definition SP : ascii := " "%char.
(** Two spaces after each newline. *)
Definition indent (l : list ascii) : list ascii :=
  flat_map (λ c, if Ascii.eqb c NL then [NL; SP; SP] else [c]) l.
(** Without the two spaces after each newline among the first [n] characters. *)
Fixpoint outdent (n : nat) (w : list ascii) : list ascii :=
  match w, n with
  | c :: w', S n' =>
      if Ascii.eqb c NL then
        match w' with
        | " " :: " " :: w'' => c :: outdent (n' - 2) w''
        | _ => c :: outdent n' w'
        end%char
      else c :: outdent n' w'
  | _, _ => w
  end.
(** The first double space of a line. *)
Fixpoint split_pair (w : list ascii) : option (list ascii * list ascii) :=
  match w with
  | c :: w' =>
      if Ascii.eqb c NL then None
      else match w' with
           | d :: b =>
               if Ascii.eqb c SP && Ascii.eqb d SP then Some ([], b)
               else '(a, b) ← split_pair w'; Some (c :: a, b)
           | [] => None
           end
  | [] => None
  end.
Definition unindent (m : nat) (w : list ascii) : list ascii :=
  match split_pair w with
  | Some (a, b) => a ++ outdent (m - length a - 2) b
  | None => outdent m w
  end.
(** Each newline among the first [n] characters has two more after it. *)
Fixpoint roomy (n : nat) (w : list ascii) : bool :=
  match w, n with
  | c :: w', S n' => (negb (Ascii.eqb c NL) || (2 <=? length w')) && roomy n' w'
  | _, _ => true
  end.

(** The positions that the scans of a selection find. *)
Fixpoint newlines_at (pos : Z) (l : list ascii) : list Z :=
  match l with
  | [] => []
  | c :: l' => (if Ascii.eqb c NL then [pos] else []) ++ newlines_at (pos + 1) l'
  end.
Definition starts_pair (w : list ascii) : bool :=
  match w with a :: b :: _ => Ascii.eqb a SP && Ascii.eqb b SP | _ => false end.
Fixpoint pairs_at (pos : Z) (n : nat) (w : list ascii) : list Z :=
  match w, n with
  | c :: w', S n' =>
      (if Ascii.eqb c NL && starts_pair w' then [(pos + 1)%Z] else []) ++ pairs_at (pos + 1) n' w'
  | _, _ => []
  end.
Definition size_of (l : list ascii) : Z := Z.of_nat (length l).
Definition at_line_start (before : list ascii) : Prop := before = [] ∨ last before = Some NL.

Section keys_facts.
Context {Ed : Type} `{CodeEditorLaws Ed}.
Implicit Types (e : Ed) (u v w l : list ascii).

Lemma text_size_chars s : text_size s = size_of (chars s).
Proof. unfold text_size, size_of. by rewrite length_chars. Qed.
Lemma size_app u v : size_of (u ++ v) = (size_of u + size_of v)%Z.
Proof. unfold size_of. rewrite length_app. lia. Qed.
Lemma size_cons c l : size_of (c :: l) = (1 + size_of l)%Z.
Proof. unfold size_of. cbn [length]. lia. Qed.
Lemma size_pos l : (0 <= size_of l)%Z.
Proof. unfold size_of. lia. Qed.

(** Reading between two places of a text. *)
Lemma read_mid s u l v : chars s = u ++ l ++ v → l ≠ [] →
  textBetween s (size_of u) (size_of u + size_of l) = Ok (of_chars l).
Proof.
  intros E Hl. pose proof (size_pos u). pose proof (size_pos v).
  assert (0 < size_of l)%Z by (destruct l; [done|]; rewrite size_cons; pose proof (size_pos l); lia).
  assert (text_size s = size_of u + size_of l + size_of v)%Z as Hs by (rewrite text_size_chars, E, !size_app; lia).
  rewrite textBetween_in by lia. f_equal. apply chars_inj.
  rewrite Z.max_r by lia. unfold text_size in Hs. rewrite chars_slice by lia.
  rewrite chars_of_chars, E. unfold size_of. rewrite Nat2Z.id, drop_app_length.
  replace (Z.to_nat _ - length u) with (length l) by lia. apply take_app_length.
Qed.
Lemma read_char s u c v : chars s = u ++ c :: v →
  textBetween s (size_of u) (size_of u + 1) = Ok (String c "").
Proof. intros E. by apply (read_mid s u [c] v). Qed.
Lemma read_before s : textBetween s (-1) 0 = Ok "".
Proof.
  rewrite textBetween_in by (unfold text_size; lia). f_equal. apply chars_inj.
  rewrite chars_slice by lia. done.
Qed.
Lemma read_past s u v : chars s = u ++ v → (size_of v < 2)%Z → is_ok (textBetween s (size_of u) (size_of u + 2)) = false.
Proof.
  intros E Hv. pose proof (size_pos u). apply textBetween_past; [done|lia|].
  rewrite text_size_chars, E, size_app. lia.
Qed.

Lemma eqb_char c d : String.eqb (String c "") (String d "") = Ascii.eqb c d.
Proof. cbn. by destruct (Ascii.eqb c d). Qed.
Lemma eqb_pair c d : String.eqb (of_chars [c; d]) tabSpace = Ascii.eqb c SP && Ascii.eqb d SP.
Proof. cbn. destruct (Ascii.eqb c SP) eqn:E1, (Ascii.eqb d SP) eqn:E2; unfold SP in *; by rewrite ?E1, ?E2. Qed.
Lemma has_newline_pair c d : has_newline (of_chars [c; d]) = Ascii.eqb NL c || Ascii.eqb NL d.
Proof. unfold has_newline, lacks. cbn -[Ascii.eqb]. by destruct (Ascii.eqb NL c), (Ascii.eqb NL d). Qed.

(** *** Loops *)

Lemma line_start_spec s before l v cur : chars s = before ++ l ++ v → at_line_start before →
  NL ∉ l → cur ≠ newline → 
  line_start s (S (length (before ++ l))) cur = Ok (size_of before - 1)%Z.
Proof.
  revert v cur. induction l as [|c l IH] using rev_ind; intros v cur E Hb Hn Hc; cbn [line_start].
  - rewrite app_nil_r in *. replace (String.eqb cur newline) with false by (symmetry; by apply String.eqb_neq).
    destruct Hb as [->|Hb].
    + cbn -[Z.of_nat Z.sub]. rewrite read_before. done.
    + apply last_Some in Hb as [b ->]. rewrite length_app, Nat.add_1_r.
      assert (Z.of_nat (S (length b)) - 1 = size_of b)%Z as -> by (unfold size_of; lia).
      assert (Z.of_nat (S (length b)) = size_of b + 1)%Z as -> by (unfold size_of; lia).
      rewrite (read_char s b NL v) by (by rewrite E, <- app_assoc). cbn [rbind line_start].
      replace (String.eqb (String NL "") newline) with true by done.
      rewrite size_app. f_equal. unfold size_of. cbn [length]. lia.
  - replace (String.eqb cur newline) with false by (symmetry; by apply String.eqb_neq).
    rewrite app_assoc, length_app, Nat.add_1_r.
    assert (Z.of_nat (S (length (before ++ l))) - 1 = size_of (before ++ l))%Z as -> by (unfold size_of; lia).
    assert (Z.of_nat (S (length (before ++ l))) = size_of (before ++ l) + 1)%Z as -> by (unfold size_of; lia).
    rewrite (read_char s (before ++ l) c v) by (by rewrite E, <- !app_assoc). cbn [rbind].
    apply (IH (c :: v)); [by rewrite E, <- !app_assoc|done|set_solver|].
    intros [= ->]. set_solver.
Qed.

Lemma scan_newlines s u l v : chars s = u ++ l ++ v →
  scan_lines s (λ pos, Ok [pos]) (length l) (size_of u) = Ok (newlines_at (size_of u) l).
Proof.
  revert u. induction l as [|c l IH]; intros u E; [done|]. cbn [length scan_lines newlines_at].
  rewrite (read_char s u c (l ++ v)) by done. cbn [rbind]. unfold newline. rewrite eqb_char.
  assert (size_of u + 1 = size_of (u ++ [c]))%Z as -> by (rewrite size_app; unfold size_of; cbn; lia).
  destruct (Ascii.eqb c NL); cbn [rbind]; rewrite IH by (by rewrite E, <- app_assoc); done.
Qed.

Lemma pair_found_ok s u w : chars s = u ++ NL :: w → 2 <= length w →
  pair_found s (size_of u) = Ok (if starts_pair w then [size_of u + 1]%Z else []).
Proof.
  intros E Hw. destruct w as [|a [|b w]]; [cbn in Hw; lia..|]. unfold pair_found.
  assert (size_of u + 1 = size_of (u ++ [NL]))%Z as Hs by (rewrite size_app; unfold size_of; cbn; lia).
  replace (size_of u + 3)%Z with (size_of u + 1 + 2)%Z by lia. rewrite Hs.
  pose proof (read_mid s (u ++ [NL]) [a; b] w ltac:(by rewrite E, <- app_assoc) ltac:(done)) as R.
  change (size_of [a; b]) with 2%Z in R. rewrite R. cbn [rbind]. by rewrite eqb_pair.
Qed.
Lemma pair_found_past s u w : chars s = u ++ NL :: w → length w < 2 → is_ok (pair_found s (size_of u)) = false.
Proof.
  intros E Hw. unfold pair_found.
  assert (size_of u + 1 = size_of (u ++ [NL]))%Z as Hs by (rewrite size_app; unfold size_of; cbn; lia).
  replace (size_of u + 3)%Z with (size_of u + 1 + 2)%Z by lia. rewrite Hs.
  assert (is_ok (textBetween s (size_of (u ++ [NL])) (size_of (u ++ [NL]) + 2)) = false) as Hf.
  { apply (read_past s _ w); [by rewrite E, <- app_assoc|unfold size_of; lia]. }
  by destruct (textBetween s _ _).
Qed.
Lemma scan_pairs s u n w : chars s = u ++ w → n <= length w →
  if roomy n w then scan_lines s (pair_found s) n (size_of u) = Ok (pairs_at (size_of u) n w)
  else is_ok (scan_lines s (pair_found s) n (size_of u)) = false.
Proof.
  revert u w. induction n as [|n IH]; intros u w E Hn; [by destruct w|].
  destruct w as [|c w]; [cbn in Hn; lia|]. cbn [scan_lines roomy pairs_at].
  rewrite (read_char s u c w) by done. cbn [rbind]. unfold newline. rewrite eqb_char.
  specialize (IH (u ++ [c]) w). rewrite <- app_assoc in IH. specialize (IH E ltac:(cbn in Hn; lia)).
  assert (size_of (u ++ [c]) = size_of u + 1)%Z as Hs by (rewrite size_app; unfold size_of; cbn; lia).
  rewrite Hs in IH. destruct (Ascii.eqb c NL) eqn:Ec; cbn [negb orb andb rbind].
  - apply Ascii.eqb_eq in Ec as ->. destruct (Nat.leb_spec 2 (length w)) as [H2|H2]; cbn [andb].
    + rewrite (pair_found_ok s u w) by done. cbn [rbind].
      destruct (roomy n w); [by rewrite IH|]. by destruct (scan_lines s _ n _).
    + pose proof (pair_found_past s u w E H2) as Hf. by destruct (pair_found s (size_of u)).
  - destruct (roomy n w); [by rewrite IH|]. by destruct (scan_lines s _ n _).
Qed.

Lemma find_pair_spec s u w n : chars s = u ++ w → length w = n + 2 →
  match split_pair w with
  | Some (a, b) => find_pair s n = Ok (size_of (u ++ a), tabSpace)
  | None => ∃ r, find_pair s n = Ok r ∧ String.eqb r.2 tabSpace = false
  end.
Proof.
  revert u w. induction n as [|n IH]; intros u [|c [|d b]] E Hn; try (cbn in Hn; lia).
  all: assert (text_size s - 2 - Z.of_nat (length b) = size_of u)%Z as Hp
    by (rewrite text_size_chars, E, size_app, !size_cons; unfold size_of; lia).
  all: pose proof (read_mid s u [c; d] b ltac:(done) ltac:(done)) as R; change (size_of [c; d]) with 2%Z in R.
  - assert (length b = 0) as Hb by (cbn in Hn; lia). rewrite Hb in Hp. destruct b; [|done].
    cbn [find_pair]. rewrite Hp, R. cbn [rbind]. rewrite eqb_pair, has_newline_pair. cbn [split_pair].
    destruct (Ascii.eqb_spec c NL) as [->|Hc].
    { exists (size_of u, of_chars [NL; d]). split; [by rewrite orb_true_r|]. etrans; [apply eqb_pair|done]. }
    destruct (Ascii.eqb c SP && Ascii.eqb d SP) eqn:Ep.
    + rewrite app_nil_r. cbn [orb]. do 2 f_equal. apply String.eqb_eq. by rewrite eqb_pair.
    + assert ((if Ascii.eqb d NL then None else None : option (list ascii * list ascii)) = None) as ->
        by (by destruct (Ascii.eqb d NL)). cbn.
      exists (size_of u, of_chars [c; d]). split; [by destruct (_ || _)|]. etrans; [apply eqb_pair|done].
  - assert (length b = S n) as Hb by (cbn in Hn; lia). rewrite Hb in Hp.
    cbn [find_pair]. rewrite Hp, R. cbn [rbind]. rewrite eqb_pair, has_newline_pair.
    change (split_pair (c :: d :: b)) with
      (if Ascii.eqb c NL then None else if Ascii.eqb c SP && Ascii.eqb d SP then Some ([], b)
       else '(a, b) ← split_pair (d :: b); Some (c :: a, b)).
    destruct (Ascii.eqb_spec c NL) as [->|Hc].
    { rewrite Ascii.eqb_refl, orb_true_r. exists (size_of u, of_chars [NL; d]). split; [done|]. etrans; [apply eqb_pair|done]. }
    assert (Ascii.eqb NL c = false) as -> by (apply Ascii.eqb_neq; congruence).
    destruct (Ascii.eqb c SP && Ascii.eqb d SP) eqn:Ep.
    { rewrite app_nil_r. cbn [orb]. do 2 f_equal. apply String.eqb_eq. by rewrite eqb_pair. }
    cbn [orb]. destruct (Ascii.eqb_spec NL d) as [<-|Hd].
    { cbn -[of_chars String.eqb]. exists (size_of u, of_chars [c; NL]). split; [done|]. etrans; [apply eqb_pair|done]. }
    specialize (IH (u ++ [c]) (d :: b)). rewrite <- app_assoc in IH.
    specialize (IH E ltac:(cbn in *; lia)). destruct (split_pair (d :: b)) as [[a b']|]; cbn; [|done].
    by rewrite <- app_assoc in IH.
Qed.

(** *** Edits *)

Lemma each_break_ext (f g : Ed → Z → Z → Ed) i breaks tr :
  (∀ tr pos index, f tr pos index = g tr pos index) → each_break f i breaks tr = each_break g i breaks tr.
Proof.
  intros E. revert i tr. induction breaks as [|p breaks IH]; intros i tr; [done|]. cbn. by rewrite IH, E.
Qed.

Definition holds (e : Ed) (st : Z) (l : list ascii) : Prop :=
  ce_in_code e = true ∧ ce_start e = st ∧ chars (ce_text e) = l.
Lemma insert_holds e st u v p s : holds e st (u ++ v) → p = (st + size_of u)%Z →
  holds (ed_insert e p s) st (u ++ chars s ++ v).
Proof.
  intros (Hc & <- & E) ->.
  destruct (insert_text e (of_chars u) (of_chars v) s Hc) as (H1 & H2 & H3).
  { apply chars_inj. by rewrite chars_app, !chars_of_chars. }
  rewrite text_size_chars, chars_of_chars in H1, H2, H3. split; [done|]. split; [done|].
  by rewrite H3, !chars_app, !chars_of_chars.
Qed.
Lemma delete_holds e st u v c d p : holds e st (u ++ c :: d :: v) → p = (st + size_of u)%Z →
  holds (ed_deleteRange e p (p + 2)) st (u ++ v).
Proof.
  intros (Hc & <- & E) ->.
  destruct (deleteRange_text e (of_chars u) (of_chars v) (of_chars [c; d]) Hc) as (H1 & H2 & H3).
  { apply chars_inj. by rewrite !chars_app, !chars_of_chars. }
  rewrite !text_size_chars, !chars_of_chars in H1, H2, H3. change (size_of [c; d]) with 2%Z in *.
  split; [done|]. split; [done|]. by rewrite H3, !chars_app, !chars_of_chars.
Qed.

(** The insertions of Tab, each moved by those before it. *)
Lemma insert_breaks st l u v e i pos : holds e st (u ++ l ++ v) → size_of u = (pos + 2 * (i + 1))%Z →
  holds (each_break (λ tr pos index, ed_insert tr (pos + st + 1 + (index + 1) * 2) tabSpace) i
           (newlines_at pos l) e) st (u ++ indent l ++ v).
Proof.
  revert u e i pos. induction l as [|c l IH]; intros u e i pos Hh Hu; [done|]. cbn [newlines_at indent flat_map].
  destruct (Ascii.eqb_spec c NL) as [->|Hc]; cbn [app each_break].
  - specialize (IH (u ++ [NL; SP; SP]) (ed_insert e (pos + st + 1 + (i + 1) * 2) tabSpace) (i + 1)%Z (pos + 1)%Z).
    rewrite <- !app_assoc in IH. apply IH.
    + assert (holds e st ((u ++ [NL]) ++ l ++ v)) as Hh' by (by rewrite <- app_assoc).
      apply (insert_holds _ _ _ _ (pos + st + 1 + (i + 1) * 2)%Z tabSpace) in Hh'.
      * by rewrite <- !app_assoc in Hh'.
      * rewrite size_app. unfold size_of at 2. cbn. lia.
    + rewrite size_app. unfold size_of at 2. cbn. lia.
  - specialize (IH (u ++ [c]) e i (pos + 1)%Z). rewrite <- !app_assoc in IH. apply IH; [done|].
    rewrite size_app. unfold size_of at 2. cbn. lia.
Qed.

Lemma pairs_at_after pos n w : pairs_at (pos + 1) n (SP :: SP :: w) = pairs_at (pos + 3) (n - 2) w.
Proof.
  destruct n as [|[|n]]; cbn; [by destruct w| |].
  - by destruct w.
  - rewrite Nat.sub_0_r. by replace (pos + 1 + 1 + 1)%Z with (pos + 3)%Z by lia.
Qed.
(** The deletions of Shift-Tab; [d] is how many were made before them. *)
Lemma delete_breaks (st d : Z) w n u e i pos : holds e st (u ++ w) → size_of u = (pos - 2 * (i + d))%Z →
  holds (each_break (λ tr pos index,
           ed_deleteRange tr (pos + st - 2 * (index + d)) (pos + st + 2 - 2 * (index + d))) i
           (pairs_at pos n w) e) st (u ++ outdent n w).
Proof.
  revert n u e i pos. induction w as [w IH] using (induction_ltof1 _ (length (A := ascii))).
  intros n u e i pos Hh Hu. destruct w as [|c w]; [by destruct n|]. destruct n as [|n]; [exact Hh|]. cbn [outdent pairs_at].
  assert (holds (each_break (λ tr pos index,
           ed_deleteRange tr (pos + st - 2 * (index + d)) (pos + st + 2 - 2 * (index + d))) i
           (pairs_at (pos + 1) n w) e) st (u ++ c :: outdent n w)) as Hskip.
  { pose proof (IH w ltac:(unfold ltof; cbn; lia) n (u ++ [c]) e i (pos + 1)%Z) as IH'.
    rewrite <- !app_assoc in IH'. apply IH'; [done|]. rewrite size_app. unfold size_of at 2. cbn. lia. }
  destruct (Ascii.eqb_spec c NL) as [->|Hc]; [|done]. cbn [andb].
  destruct (starts_pair w) eqn:Ep.
  - destruct w as [|a [|b w]]; [done..|]. cbn in Ep. bool_simpl. apply Ascii.eqb_eq in H1 as ->, H2 as ->.
    cbn [app each_break]. rewrite pairs_at_after.
    pose proof (IH w ltac:(unfold ltof; cbn; lia) (n - 2) (u ++ [NL])
      (ed_deleteRange e (pos + 1 + st - 2 * (i + d)) (pos + 1 + st + 2 - 2 * (i + d))) (i + 1)%Z (pos + 3)%Z) as IH'.
    rewrite <- !app_assoc in IH'. apply IH'.
    + assert (holds e st ((u ++ [NL]) ++ SP :: SP :: w)) as Hh' by (by rewrite <- app_assoc).
      apply (delete_holds _ _ _ _ _ _ (pos + 1 + st - 2 * (i + d))%Z) in Hh'.
      * rewrite <- app_assoc in Hh'. by replace (pos + 1 + st + 2 - 2 * (i + d))%Z
          with (pos + 1 + st - 2 * (i + d) + 2)%Z by lia.
      * rewrite size_app. unfold size_of at 2. cbn. lia.
    + rewrite size_app. unfold size_of at 2. cbn. lia.
  - cbn [app]. assert (∀ A (x : list ascii → A) y, match w with | " "%char :: " "%char :: w'' => x w'' | _ => y end = y) as Hm.
    { intros A x y. destruct w as [|a w]; [done|]. destruct (Ascii.eqb_spec a SP) as [->|Ha].
      - destruct w as [|b w]; [done|]. destruct (Ascii.eqb_spec b SP) as [->|Hb]; [done|].
        unfold SP in *. repeat match goal with |- context [match ?b with _ => _ end] => destruct b; try done end.
      - unfold SP in *. repeat match goal with |- context [match ?b with _ => _ end] => destruct b; try done end. }
    by rewrite Hm.
Qed.

(** *** The keys *)

(** A selection in the text of the block: from after [before ++ line], where the line
    starts after [before], over [sel]. *)
Record selects (e : Ed) (before line sel after : list ascii) : Prop := {
  sel_code : ce_in_code e = true;
  sel_text : chars (ce_text e) = before ++ line ++ sel ++ after;
  sel_line : at_line_start before;
  sel_one_line : NL ∉ line;
  sel_from : from_in e = size_of (before ++ line);
  sel_to : to_in e = (size_of (before ++ line) + size_of sel)%Z;
}.
Section selected.
Context (e : Ed) (before line sel after : list ascii) (He : selects e before line sel after).

Lemma selected_holds : holds e (ce_start e) (before ++ line ++ sel ++ after).
Proof. split; [apply He|]. split; [done|apply He]. Qed.
Lemma selected_empty : ce_empty e = bool_decide (sel = []).
Proof.
  unfold ce_empty. pose proof (sel_from _ _ _ _ _ He) as Hf. pose proof (sel_to _ _ _ _ _ He) as Ht.
  unfold from_in, to_in in *. case_bool_decide as Hs.
  - subst. unfold size_of at 2 in Ht. cbn in Ht. lia.
  - destruct sel; [done|]. rewrite size_cons in Ht. pose proof (size_pos l). lia.
Qed.
Lemma selected_count : Z.to_nat (to_in e - from_in e) = length sel.
Proof. rewrite (sel_to _ _ _ _ _ He), (sel_from _ _ _ _ _ He). unfold size_of. lia. Qed.
Lemma selected_skip : before ++ line ++ sel ≠ [] → (ce_from e =? ce_start e)%Z && ce_empty e = false.
Proof.
  intros Hne. rewrite selected_empty. case_bool_decide as Hs; [|by rewrite andb_false_r].
  pose proof (sel_from _ _ _ _ _ He) as Hf. unfold from_in, size_of in Hf. subst. rewrite app_nil_r in Hne.
  assert (0 < length (before ++ line)) by (destruct (before ++ line); [done|cbn; lia]). lia.
Qed.
Lemma selected_breaks found :
  breakLinePositions e found = scan_lines (ce_text e) found (length sel) (size_of (before ++ line)).
Proof.
  unfold breakLinePositions. rewrite selected_empty, selected_count, (sel_from _ _ _ _ _ He).
  by case_bool_decide; subst.
Qed.
End selected.

(** Tab in a block of code moves every line of the selection to the right by two
    spaces, the first one and those that start in it. *)
Theorem Tab_spec e before line sel after :
  selects e before line sel after → before ++ line ++ sel ≠ [] →
  ∃ e', Tab e = Ok (true, e') ∧ ce_in_code e' = true ∧
    chars (ce_text e') = before ++ [SP; SP] ++ line ++ indent sel ++ after.
Proof.
  intros He Hne. unfold Tab. rewrite (sel_code _ _ _ _ _ He), (selected_skip _ _ _ _ _ He Hne). cbn [negb].
  assert (Z.to_nat (from_in e) = length (before ++ line)) as ->
    by (rewrite (sel_from _ _ _ _ _ He); unfold size_of; lia).
  rewrite (line_start_spec _ before line (sel ++ after)) by (try apply He; done). cbn [rbind].
  rewrite (selected_breaks _ _ _ _ _ He).
  rewrite (scan_newlines _ (before ++ line) sel after) by (by rewrite (sel_text _ _ _ _ _ He), <- app_assoc).
  cbn [rbind]. eexists. split; [done|].
  pose proof (selected_holds _ _ _ _ _ He) as Hh.
  apply (insert_holds _ _ _ _ (size_of before - 1 + ce_start e + 1)%Z tabSpace) in Hh; [|lia].
  change (chars tabSpace) with [SP; SP] in Hh.
  pose proof (insert_breaks (ce_start e) sel (before ++ [SP; SP] ++ line) after _ 0 (size_of (before ++ line)) 
    ltac:(rewrite <- !app_assoc; exact Hh)) as Hi.
  destruct Hi as (H1 & _ & H3); [rewrite !size_app; unfold size_of; cbn; lia|].
  split; [done|]. by rewrite <- !app_assoc in H3.
Qed.

Lemma scan_past s found n pos : (0 <= pos <= text_size s)%Z → (text_size s < pos + Z.of_nat n)%Z →
  is_ok (scan_lines s found n pos) = false.
Proof.
  revert pos. induction n as [|n IH]; intros pos Hp Hn; [lia|]. cbn [scan_lines].
  destruct (decide (pos = text_size s)) as [->|Hne].
  - pose proof (textBetween_past s (text_size s) (text_size s + 1) ltac:(lia) ltac:(lia) ltac:(lia)) as Hf.
    by destruct (textBetween s _ _).
  - destruct (textBetween s pos _) as [c|]; [|done]. cbn [rbind].
    destruct (if String.eqb c newline then _ else _) as [here|]; [|done]. cbn [rbind].
    specialize (IH (pos + 1)%Z ltac:(lia) ltac:(lia)). by destruct (scan_lines s found n _).
Qed.
(** A selection that goes on into the next block makes Tab fail, with nothing changed. *)
Theorem Tab_past e : ce_in_code e = true → (text_size (ce_text e) < to_in e)%Z → is_ok (Tab e) = false.
Proof.
  intros Hc Hto. pose proof (from_after_start e Hc) as Hf. unfold Tab. rewrite Hc. cbn [negb].
  assert (ce_empty e = false) as He by (unfold ce_empty, from_in, to_in in *; lia).
  rewrite He, andb_false_r. destruct (line_start _ _ _) as [p|]; [|done]. cbn [rbind].
  unfold breakLinePositions. rewrite He.
  pose proof (scan_past (ce_text e) (λ pos, Ok [pos]) (Z.to_nat (to_in e - from_in e)) (from_in e) Hf ltac:(lia)) as Hs.
  by destruct (scan_lines _ _ _ _).
Qed.

Lemma split_pair_eq w a b : split_pair w = Some (a, b) → w = a ++ SP :: SP :: b ∧ NL ∉ a.
Proof.
  revert a b. induction w as [|c w IH]; intros a b E; [done|]. cbn [split_pair] in E.
  destruct (Ascii.eqb_spec c NL) as [|Hc]; [done|]. destruct w as [|d w']; [done|].
  destruct (Ascii.eqb c SP && Ascii.eqb d SP) eqn:Ep.
  - injection E as <- <-. bool_simpl. apply Ascii.eqb_eq in H1 as ->, H2 as ->. split; [done|set_solver].
  - destruct (split_pair (d :: w')) as [[a' b']|]; [|done]. cbn in E. injection E as <- <-.
    destruct (IH a' b' eq_refl) as [-> Hn]. split; [done|]. set_solver.
Qed.
Lemma pairs_at_skip pos m l w : NL ∉ l → pairs_at pos (length l + m) (l ++ w) = pairs_at (pos + size_of l) m w.
Proof.
  revert pos. induction l as [|c l IH]; intros pos Hl; [by rewrite Z.add_0_r|]. cbn.
  destruct (Ascii.eqb_spec c NL) as [->|_]; [set_solver|]. cbn. rewrite IH by set_solver.
  rewrite size_cons. by rewrite Z.add_assoc.
Qed.
Lemma roomy_skip m l w : NL ∉ l → roomy (length l + m) (l ++ w) = roomy m w.
Proof.
  induction l as [|c l IH]; intros Hl; [done|]. cbn.
  destruct (Ascii.eqb_spec c NL) as [->|_]; [set_solver|]. cbn. apply IH. set_solver.
Qed.
Lemma pairs_at_short pos m l w : NL ∉ l → m <= length l → pairs_at pos m (l ++ w) = [].
Proof.
  revert pos m. induction l as [|c l IH]; intros pos m Hl Hm; [cbn in Hm; replace m with 0 by lia; by destruct w|].
  destruct m as [|m]; [done|]. cbn. destruct (Ascii.eqb_spec c NL) as [->|_]; [set_solver|]. cbn.
  apply IH; [set_solver|cbn in Hm; lia].
Qed.

Section shift_tab.
Context (e : Ed) (before line sel after : list ascii) (He : selects e before line sel after).
Let w := line ++ sel ++ after.
Let m := length line + length sel.
Let st := ce_start e.
Hypothesis Hne : before ++ line ++ sel ≠ [].

(** What is deleted when the first pair is found, or not. *)
Definition delete_first (r : Z * string) : Ed :=
  if String.eqb r.2 tabSpace then ed_deleteRange e (r.1 + st) (r.1 + st + 2) else e.
Definition shifted (r : Z * string) (index : Z) : Z :=
  if String.eqb r.2 tabSpace then ((index + 1) * 2)%Z else (index * 2)%Z.
Definition delete_rest (r : Z * string) (breaks : list Z) : Ed :=
  each_break (λ tr pos index,
    ed_deleteRange tr (pos + st - shifted r index) (pos + st + 2 - shifted r index)) 0 breaks (delete_first r).

Lemma Shift_Tab_run :
  Shift_Tab e =
    if (size_of w <=? 1)%Z then Ok (true, e)
    else let* r := find_pair (ce_text e) (length w - 2) in
         let* breaks := scan_lines (ce_text e) (pair_found (ce_text e)) (length sel) (size_of (before ++ line)) in
         Ok (true, delete_rest r breaks).
Proof.
  unfold Shift_Tab. rewrite (sel_code _ _ _ _ _ He), (selected_skip _ _ _ _ _ He Hne). cbn [negb].
  assert (Z.to_nat (from_in e) = length (before ++ line)) as ->
    by (rewrite (sel_from _ _ _ _ _ He); unfold size_of; lia).
  (* the first step is a step of the loop *)
  pose proof (line_start_spec (ce_text e) before line (sel ++ after) "" (sel_text _ _ _ _ _ He)
    (sel_line _ _ _ _ _ He) (sel_one_line _ _ _ _ _ He) ltac:(done)) as Hl.
  cbn [line_start] in Hl. change (String.eqb "" newline) with false in Hl. cbv iota in Hl.
  destruct (textBetween _ _ _) as [c|]; [|done]. cbn [rbind] in Hl |- *. rewrite Hl. cbn [rbind].
  assert (text_size (ce_text e) = size_of before + size_of w)%Z as ->
    by (rewrite text_size_chars, (sel_text _ _ _ _ _ He); apply size_app).
  replace (size_of before + size_of w <=? size_of before - 1 + 2)%Z with (size_of w <=? 1)%Z by lia.
  destruct (Z.leb_spec (size_of w) 1) as [|Hw]; [done|].
  replace (Z.to_nat _) with (length w - 2) by (unfold size_of in *; lia).
  destruct (find_pair _ _) as [r|]; [|done]. cbn [rbind]. rewrite (selected_breaks _ _ _ _ _ He).
  by destruct (scan_lines _ _ _ _).
Qed.

Lemma selected_pairs : roomy m w = true →
  scan_lines (ce_text e) (pair_found (ce_text e)) (length sel) (size_of (before ++ line)) =
  Ok (pairs_at (size_of before) m w).
Proof.
  intros Hr. unfold m, w in *. rewrite roomy_skip in Hr by apply (sel_one_line _ _ _ _ _ He).
  rewrite pairs_at_skip by apply (sel_one_line _ _ _ _ _ He). rewrite <- size_app.
  pose proof (scan_pairs (ce_text e) (before ++ line) (length sel) (sel ++ after)
    ltac:(by rewrite (sel_text _ _ _ _ _ He), <- app_assoc) ltac:(rewrite length_app; lia)) as Hs.
  by rewrite Hr in Hs.
Qed.

Lemma text_found : chars (ce_text e) = before ++ w.
Proof. apply (sel_text _ _ _ _ _ He). Qed.
Lemma split_pair_short l : length l <= 1 → split_pair l = None.
Proof. destruct l as [|a [|b l]]; cbn; try lia; [done|]. by destruct (Ascii.eqb a NL). Qed.
Lemma outdent_short n l : length l <= 1 → outdent n l = l.
Proof. destruct l as [|a [|b l]], n; cbn; try lia; try done. destruct (Ascii.eqb a NL); by destruct n. Qed.

Lemma Shift_Tab_ok : roomy m w = true →
  ∃ e', Shift_Tab e = Ok (true, e') ∧ holds e' st (before ++ unindent m w).
Proof.
  intros Hr. rewrite Shift_Tab_run. pose proof (selected_holds _ _ _ _ _ He) as Hh. fold w st in Hh.
  destruct (Z.leb_spec (size_of w) 1) as [Hw|Hw].
  { exists e. split; [done|]. unfold unindent. unfold size_of in Hw.
    by rewrite split_pair_short, outdent_short by lia. }
  rewrite (selected_pairs Hr). unfold size_of in Hw.
  pose proof (find_pair_spec (ce_text e) before w (length w - 2) text_found ltac:(lia)) as Hf.
  unfold unindent. destruct (split_pair w) as [[a b]|] eqn:Es.
  - rewrite Hf. cbn [rbind]. eexists. split; [done|]. unfold delete_rest, delete_first, shifted. cbn [fst snd].
    change (String.eqb tabSpace tabSpace) with true. cbv iota.
    apply split_pair_eq in Es as [Ew Ha]. rewrite Ew in Hh |- *.
    assert (holds e st ((before ++ a) ++ SP :: SP :: b)) as Hh1 by (by rewrite <- app_assoc).
    apply (delete_holds _ _ _ _ _ _ (size_of (before ++ a) + st)%Z) in Hh1; [|lia].
    assert (pairs_at (size_of before) m (a ++ SP :: SP :: b) =
      pairs_at (size_of (before ++ a) + 2) (m - length a - 2) b) as ->.
    { destruct (decide (length a + 2 <= m)) as [Hm|Hm].
      - replace m with (length (a ++ [SP; SP]) + (m - length a - 2)) at 1 by (rewrite length_app; cbn; lia).
        change (SP :: SP :: b) with ([SP; SP] ++ b). rewrite app_assoc, pairs_at_skip by set_solver.
        f_equal. rewrite !size_app. unfold size_of. cbn. lia.
      - replace (m - length a - 2) with 0 by lia. change (SP :: SP :: b) with ([SP; SP] ++ b).
        rewrite app_assoc, pairs_at_short by (first [set_solver|rewrite length_app; cbn; lia]). by destruct b. }
    pose proof (delete_breaks st 1 b (m - length a - 2) (before ++ a) _ 0 (size_of (before ++ a) + 2) Hh1
      ltac:(lia)) as Hd.
    rewrite <- app_assoc in Hd. erewrite each_break_ext; [exact Hd|]. intros tr pos index. cbn beta. f_equal; lia.
  - destruct Hf as (r & Hf & Hr2). rewrite Hf. cbn [rbind]. eexists. split; [done|].
    unfold delete_rest, delete_first, shifted. rewrite Hr2.
    pose proof (delete_breaks st 0 w m before e 0 (size_of before) Hh ltac:(lia)) as Hd.
    erewrite each_break_ext; [exact Hd|]. intros tr pos index. cbn beta. f_equal; lia.
Qed.
End shift_tab.

(** It fails, and changes nothing, when a newline of the selection has fewer than two
    characters after it in the block. *)
Lemma Shift_Tab_fails e before line sel after :
  selects e before line sel after →
  let rest := line ++ sel ++ after in
  2 <= length rest → roomy (length line + length sel) rest = false →
  is_ok (Shift_Tab e) = false.
Proof.
  intros He rest H2 Hr.
  assert (before ++ line ++ sel ≠ []) as Hne.
  { intros E. apply app_eq_nil in E as [_ E]. apply app_eq_nil in E as [-> ->]. cbn in Hr. unfold rest in Hr.
    by destruct after. }
  rewrite (Shift_Tab_run e before line sel after He Hne).
  replace (size_of (line ++ sel ++ after) <=? 1)%Z with false by (unfold size_of, rest in *; lia).
  destruct (find_pair _ _) as [r|]; [|done]. cbn [rbind].
  unfold rest in Hr. rewrite roomy_skip in Hr by apply (sel_one_line _ _ _ _ _ He).
  pose proof (scan_pairs (ce_text e) (before ++ line) (length sel) (sel ++ after)
    ltac:(by rewrite (sel_text _ _ _ _ _ He), <- app_assoc) ltac:(rewrite length_app; lia)) as Hs.
  rewrite Hr in Hs. by destruct (scan_lines _ _ _ _).
Qed.
(** Nothing is selected at the very start of the block: the key is left to others. *)
Lemma Shift_Tab_start e before line sel after :
  selects e before line sel after → before ++ line ++ sel = [] → Shift_Tab e = Ok (false, e).
Proof.
  intros He Hn. apply app_eq_nil in Hn as [-> Hn]. apply app_eq_nil in Hn as [-> ->].
  pose proof (sel_from _ _ _ _ _ He) as Hf. pose proof (sel_to _ _ _ _ _ He) as Ht.
  unfold Shift_Tab. rewrite (sel_code _ _ _ _ _ He). cbn [negb].
  unfold size_of, from_in, to_in in Hf, Ht. cbn in Hf, Ht.
  assert ((ce_from e =? ce_start e)%Z && ce_empty e = true) as ->; [|done].
  unfold ce_empty. lia.
Qed.

End keys_facts.

(** *** Backspace *)

Lemma code_parents t l n : content_ok t l = true → n ∈ l →
  (n_type n = "codeBlock" → t = "blockContainer") ∧ (n_type n = "blockContainer" → t = "blockGroup").
Proof.
  intros Hc Hn. unfold content_ok in Hc.
  destruct (String.eqb_spec t "doc") as [->|].
  { apply bool_decide_eq_true in Hc. apply (list_elem_of_fmap_2 n_type) in Hn. rewrite Hc in Hn.
    apply list_elem_of_singleton in Hn. by rewrite Hn. }
  assert (∀ f, forallb f l = true → f n = true) as Hall.
  { intros f Hf. rewrite forallb_forall in Hf. apply Hf. by apply list_elem_of_In. }
  destruct (String.eqb_spec t "blockGroup") as [->|].
  { apply andb_prop in Hc as [_ Hc]. specialize (Hall _ Hc). cbn in Hall. apply String.eqb_eq in Hall. by rewrite Hall. }
  destruct (String.eqb_spec t "blockContainer") as [->|].
  { split; [done|]. intros E. destruct l as [|c group]; [done|]. apply andb_prop in Hc as [H1 H2].
    apply elem_of_cons in Hn as [->|Hn]; [by rewrite E in H1|].
    destruct group as [|g [|]]; [by apply elem_of_nil in Hn| |done].
    apply list_elem_of_singleton in Hn as ->. by rewrite E in H2. }
  destruct (String.eqb t "codeBlock").
  { specialize (Hall _ Hc). cbn in Hall. apply String.eqb_eq in Hall. by rewrite Hall. }
  case_bool_decide.
  { specialize (Hall _ Hc). cbn in Hall. by split; intros E; rewrite E in Hall. }
  apply bool_decide_eq_true in Hc. subst. by apply elem_of_nil in Hn.
Qed.
(** A block of code is in a container in a group in the document. *)
Lemma code_starts_late `{SizeLaws} fs a c ms :
  typed (plug fs (PElem "codeBlock" a c ms)) = true →
  n_type (plug fs (PElem "codeBlock" a c ms)) = "doc" → (3 <= inner fs)%Z.
Proof.
  intros Ht Hd. pose proof (typed_frames _ _ Ht) as Hfs.
  assert (∀ f gs n, typed (plug (f :: gs) n) = true →
    (n_type n = "codeBlock" → f_type f = "blockContainer") ∧ (n_type n = "blockContainer" → f_type f = "blockGroup")) as Hp.
  { intros f gs n Hn. cbn in Hn. apply typed_plug_inv in Hn. apply typed_elem in Hn as (_ & Hc & _).
    eapply code_parents; [exact Hc|]. set_solver. }
  destruct fs as [|f1 fs]; [discriminate Hd|].
  assert (f_type f1 = "blockContainer") as H1 by (by apply (Hp f1 fs (PElem "codeBlock" a c ms) Ht)).
  destruct fs as [|f2 fs]; [cbn in Hd; rewrite H1 in Hd; discriminate Hd|].
  assert (f_type f2 = "blockGroup") as H2 by (by apply (Hp f2 fs _ Ht)).
  destruct fs as [|f3 fs]; [cbn in Hd; rewrite H2 in Hd; discriminate Hd|].
  inversion_clear Hfs as [|?? (_ & Hl1 & _) Hf2]. inversion_clear Hf2 as [|?? (_ & Hl2 & _) Hf3].
  inversion_clear Hf3 as [|?? (_ & Hl3 & _) Hf4]. pose proof (inner_nonneg _ Hf4).
  apply csize_nonneg in Hl1, Hl2, Hl3. cbn [inner]. lia.
Qed.

(** Backspace in a block of code is left to others unless the block is empty: that the
    cursor is at the start of the document, for which the key also tests, is never so. *)
Theorem Backspace_spec `{SizeLaws} {Ed} `{CodeEditorLaws Ed} (e : Ed) fs a c ms :
  typed (plug fs (PElem "codeBlock" a c ms)) = true →
  n_type (plug fs (PElem "codeBlock" a c ms)) = "doc" →
  ce_in_code e = true → ce_start e = inner fs →
  Backspace e = if ce_empty e && negb (truthy (ce_text e)) then clearNodes e else (false, e).
Proof.
  intros Ht Hd Hc Hs. pose proof (code_starts_late fs a c ms Ht Hd) as H3.
  pose proof (from_after_start e Hc) as Hf. unfold from_in in Hf. unfold Backspace. rewrite Hc.
  replace (ce_from e =? 1)%Z with false by lia. by destruct (ce_empty e).
Qed.

(** ** Highlighting *)

Fixpoint hast_text (n : Hast) : string :=
  match n with
  | HText value => value
  | HElem _ children => String.concat "" (map hast_text children)
  end.
Definition texts (l : list Hast) : string := String.concat "" (map hast_text l).
(** The classes of the elements around a character of the text, the outermost first. *)
Fixpoint classes_at (className : list string) (n : Hast) (k : nat) : list string :=
  match n with
  | HText _ => className
  | HElem properties children =>
      (fix go (l : list Hast) (k : nat) : list string :=
         match l with
         | [] => []
         | x :: l' => if k <? len (hast_text x) then classes_at (className ++ default [] properties) x k
                      else go l' (k - len (hast_text x))
         end) children k
  end.
Fixpoint forest_classes (className : list string) (l : list Hast) (k : nat) : list string :=
  match l with
  | [] => []
  | x :: l' => if k <? len (hast_text x) then classes_at className x k
               else forest_classes className l' (k - len (hast_text x))
  end.
(** The classes with which a position is decorated, by each decoration over it. *)
Definition covering (pos : Z) (ds : list Decoration) : list string :=
  d_class <$> List.filter (λ d, (d_from d <=? pos)%Z && (pos <? d_to d)%Z) ds.

Section hast_ind.
Variable P : Hast → Prop.
Hypothesis Htext : ∀ v, P (HText v).
Hypothesis Helem : ∀ p ch, Forall P ch → P (HElem p ch).
Fixpoint hast_tree_ind (n : Hast) : P n :=
  match n with
  | HText v => Htext v
  | HElem p ch => Helem p ch ((fix go l := match l return Forall P l with
                                            | [] => @List.Forall_nil _ P
                                            | x :: l' => @List.Forall_cons _ P x l' (hast_tree_ind x) (go l')
                                            end) ch)
  end.
End hast_ind.

(** The classes of the part of a flat text that a character is in. *)
Fixpoint part_at (l : list (string * list string)) (k : nat) : list string :=
  match l with
  | [] => []
  | (text, cl) :: l' => if k <? len text then cl else part_at l' (k - len text)
  end.
Definition flat_text (l : list (string * list string)) : string := String.concat "" (map fst l).

Lemma concat_cons s l : String.concat "" (s :: l) = s +:+ String.concat "" l.
Proof. cbn. destruct l; [by rewrite str_app_nil_r|done]. Qed.
Lemma flat_text_app l k : flat_text (l ++ k) = flat_text l +:+ flat_text k.
Proof.
  unfold flat_text. induction l as [|[t cl] l IH]; [done|]. cbn [app map fst]. by rewrite !concat_cons, IH, str_app_assoc.
Qed.
Lemma parseNode_text cl n : flat_text (parseNode cl n) = hast_text n.
Proof.
  revert cl. induction n as [v|p ch IH] using hast_tree_ind; intros cl; [done|]. cbn [parseNode hast_text].
  set (cl' := cl ++ default [] p). clearbody cl'. induction IH as [|x ch Hx _ IHch]; [done|].
  cbn [flat_map map]. by rewrite concat_cons, flat_text_app, Hx, IHch.
Qed.
Lemma part_at_app l l' k :
  part_at (l ++ l') k = if k <? len (flat_text l) then part_at l k else part_at l' (k - len (flat_text l)).
Proof.
  revert k. induction l as [|[t cl] l IH]; intros k; [cbn; by rewrite Nat.sub_0_r|].
  unfold flat_text in *. cbn [app part_at map fst]. rewrite concat_cons, len_app.
  destruct (Nat.ltb_spec k (len t)).
  - by replace (k <? _) with true by (symmetry; apply Nat.ltb_lt; lia).
  - rewrite IH. replace (k - len t - _) with (k - (len t + len (String.concat "" (map fst l)))) by lia.
    destruct (Nat.ltb_spec (k - len t) (len (String.concat "" (map fst l)))), (Nat.ltb_spec k (len t + len (String.concat "" (map fst l)))); by try lia.
Qed.
Lemma forest_parts cl l k :
  Forall (λ n, ∀ cl k, k < len (hast_text n) → part_at (parseNode cl n) k = classes_at cl n k) l →
  part_at (flat_map (parseNode cl) l) k = forest_classes cl l k.
Proof.
  intros Hl. revert k. induction Hl as [|x l Hx _ IH]; intros k; [done|]. cbn [flat_map forest_classes].
  rewrite part_at_app, parseNode_text. destruct (Nat.ltb_spec k (len (hast_text x))); [by apply Hx|]. apply IH.
Qed.
Lemma parseNode_classes n cl k : k < len (hast_text n) → part_at (parseNode cl n) k = classes_at cl n k.
Proof.
  revert cl k. induction n as [v|p ch IH] using hast_tree_ind; intros cl k Hk.
  - cbn [parseNode part_at classes_at hast_text] in *. destruct (Nat.ltb_spec k (len v)); [done|lia].
  - cbn [parseNode]. rewrite (forest_parts _ ch) by done. cbn [classes_at].
    clear. set (cl' := cl ++ default [] p). clearbody cl'. revert k. induction ch as [|x ch IH]; intros k; [done|].
    cbn. by rewrite IH.
Qed.
Lemma decorate_bounds from l d : d ∈ decorate from l →
  (from <= d_from d)%Z ∧ (d_from d <= d_to d)%Z ∧ (d_to d <= from + text_size (flat_text l))%Z.
Proof.
  revert from. induction l as [|[t cl] l IH]; intros from Hd; [by apply elem_of_nil in Hd|]. cbn [decorate] in Hd.
  unfold flat_text, text_size in *. cbn [map fst]. rewrite concat_cons, len_app.
  apply elem_of_app in Hd as [Hd|Hd].
  - case_bool_decide; [by apply elem_of_nil in Hd|]. apply list_elem_of_singleton in Hd as ->. cbn. lia.
  - apply IH in Hd. lia.
Qed.
Lemma covering_none pos ds : (∀ d, d ∈ ds → (pos < d_from d)%Z) → covering pos ds = [].
Proof.
  unfold covering. induction ds as [|d ds IH]; intros Hd; [done|]. cbn.
  pose proof (Hd d ltac:(set_solver)). replace (d_from d <=? pos)%Z with false by lia. cbn. apply IH. set_solver.
Qed.
Lemma decorate_covering l from k : k < len (flat_text l) →
  covering (from + Z.of_nat k) (decorate from l) =
  if bool_decide (part_at l k = []) then [] else [js_join " " (part_at l k)].
Proof.
  revert from k. induction l as [|[t cl] l IH]; intros from k Hk; [cbn in Hk; lia|]. cbn [decorate part_at].
  unfold covering in *. rewrite List.filter_app, fmap_app.
  unfold flat_text in Hk. cbn [map fst] in Hk. rewrite concat_cons, len_app in Hk.
  destruct (Nat.ltb_spec k (len t)) as [Hlt|Hge].
  - assert (d_class <$> List.filter (λ d, (d_from d <=? from + Z.of_nat k)%Z && (from + Z.of_nat k <? d_to d)%Z)
      (decorate (from + text_size t) l) = []) as ->.
    { apply covering_none. intros d Hd. apply decorate_bounds in Hd. unfold text_size in Hd. lia. }
    rewrite app_nil_r. case_bool_decide; [done|]. cbn. unfold text_size.
    replace (from <=? from + Z.of_nat k)%Z with true by lia.
    by replace (from + Z.of_nat k <? from + Z.of_nat (len t))%Z with true by lia.
  - rewrite <- (IH (from + text_size t)%Z (k - len t)) by (unfold flat_text; lia).
    replace (from + text_size t + Z.of_nat (k - len t))%Z with (from + Z.of_nat k)%Z by (unfold text_size; lia).
    case_bool_decide; [done|]. cbn. unfold text_size.
    replace (from + Z.of_nat k <? from + Z.of_nat (len t))%Z with false by lia. by rewrite andb_false_r.
Qed.

(** C12. Highlighting: when the nodes have the text of the block, each character of it is
    decorated once, with the classes of the elements around it from the outermost to the
    innermost, or not at all if there are none; and nothing but the text is decorated. *)
Theorem block_decorations_spec langs registered highlight highlightAuto dflt pos language text :
  let nodes := highlight_nodes langs registered highlight highlightAuto (js_or language dflt) text in
  let ds := block_decorations langs registered highlight highlightAuto dflt (pos, language, text) in
  texts nodes = text →
  (∀ d, d ∈ ds → (pos + 1 <= d_from d)%Z ∧ (d_to d <= pos + 1 + text_size text)%Z) ∧
  (∀ k, k < len text →
     covering (pos + 1 + Z.of_nat k) ds =
     match forest_classes [] nodes k with [] => [] | cl => [js_join " " cl] end).
Proof.
  intros nodes ds Ht. unfold ds, block_decorations. fold nodes.
  assert (flat_text (parseNodes nodes []) = text) as Hflat.
  { rewrite <- Ht. unfold parseNodes, texts. clear. induction nodes as [|x l IH]; [done|].
    cbn [flat_map map]. by rewrite flat_text_app, concat_cons, parseNode_text, IH. }
  split.
  - intros d Hd. apply decorate_bounds in Hd. rewrite Hflat in Hd. lia.
  - intros k Hk. rewrite decorate_covering by (by rewrite Hflat). unfold parseNodes.
    rewrite (forest_parts [] nodes k) by (apply Forall_forall; intros x _ cl j Hj; by apply parseNode_classes).
    by destruct (forest_classes [] nodes k).
Qed.

(** ** An editor *)

(** One block of code and a selection; positions after the block are in other blocks. *)
Record CodeState : Type := { cs_start : Z; cs_text : string; cs_from : Z; cs_to : Z }.
Definition cs_begin (e : CodeState) : Z := (cs_start e + Z.max 0 (Z.min (cs_from e) (text_size (cs_text e))))%Z.
Definition cs_edit (e : CodeState) (from to : Z) (s : string) : CodeState :=
  let t := chars (cs_text e) in
  {| cs_start := cs_start e;
     cs_text := of_chars (take (Z.to_nat (from - cs_start e)) t ++ chars s ++ drop (Z.to_nat (to - cs_start e)) t);
     cs_from := cs_from e; cs_to := cs_to e |}.
#[export] Instance code_state : CodeEditor CodeState := {
  ce_in_code _ := true;
  ce_text := cs_text;
  ce_start := cs_start;
  ce_from := cs_begin;
  ce_to e := Z.max (cs_begin e) (cs_start e + cs_to e);
  textBetween s a b :=
    if (b <=? 0)%Z || (b <=? text_size s)%Z then Ok (js_slice s (Z.max 0 a) b) else Err "TypeError";
  ed_insert e pos s := cs_edit e pos pos s;
  ed_deleteRange e from to := cs_edit e from to "";
  ed_delete e from to := cs_edit e from to "";
  ed_focus e _ := e;
  clearNodes e := (true, e);
  exitCode e := (false, e);
}.
#[export] Instance code_state_laws : CodeEditorLaws CodeState.
Proof.
  split.
  - intros s a b ? ? ? Hb. cbn. by replace (b <=? text_size s)%Z with true by lia; rewrite orb_true_r.
  - intros s a b ? ? ?. cbn. by replace (b <=? 0)%Z with false by lia; replace (b <=? text_size s)%Z with false by lia.
  - intros e _. unfold from_in. cbn. unfold cs_begin, text_size. lia.
  - intros e. cbn. lia.
  - intros e u v s _ E e'. split; [done|]. split; [done|]. unfold e'. cbn in E |- *. unfold cs_edit. cbn.
    apply chars_inj. rewrite chars_of_chars, E, !chars_app. unfold text_size.
    replace (Z.to_nat _) with (length (chars u)) by (rewrite length_chars; lia).
    by rewrite take_app_length, drop_app_length.
  - intros e u v s _ E e'. split; [done|]. split; [done|]. unfold e'. cbn in E |- *. unfold cs_edit. cbn.
    apply chars_inj. rewrite chars_of_chars, E, !chars_app. unfold text_size.
    replace (Z.to_nat _) with (length (chars u)) by (rewrite length_chars; lia).
    replace (Z.to_nat _) with (length (chars u ++ chars s)) by (rewrite length_app, !length_chars; lia).
    rewrite take_app_length. by rewrite (app_assoc (chars u)), drop_app_length.
Qed.

(** Two lines, selected from inside of the first one to inside of the second. *)
Definition code_lines (first second : string) (from to : Z) : CodeState :=
  {| cs_start := 3; cs_text := first +:+ newline +:+ second; cs_from := from; cs_to := to |}.
Definition text_after (r : result (bool * CodeState)) : option string :=
  match r with Ok (true, e) => Some (cs_text e) | _ => None end.

Lemma Tab_spec_witness :
  selects (code_lines "if x:" "  y" 3 7) [] (chars "if ") (chars "x:" ++ NL :: chars " ") (chars " y") ∧
  ∃ e', Tab (code_lines "if x:" "  y" 3 7) = Ok (true, e') ∧ ce_in_code e' = true ∧
    chars (ce_text e') = chars "  if x:" ++ NL :: chars "    y".
Proof.
  assert (selects (code_lines "if x:" "  y" 3 7) [] (chars "if ") (chars "x:" ++ NL :: chars " ") (chars " y")) as Hs.
  { split; try done; [by left|]. by apply (bool_decide_unpack _). }
  split; [done|]. by apply (Tab_spec _ [] (chars "if ") (chars "x:" ++ NL :: chars " ") (chars " y")).
Defined.
Lemma Tab_past_witness : is_ok (Tab (code_lines "a" "b" 0 7)) = false.
Proof. by apply (Tab_past (code_lines "a" "b" 0 7)). Defined.
(** A double space is taken from inside of the line; a selection that does not reach
    the next line leaves it alone. *)
Example spaces_inside :
  text_after (Shift_Tab (code_lines "x =  1" "  y" 6 6)) = Some ("x =1" +:+ newline +:+ "  y") ∧
  text_after (Shift_Tab (code_lines "x" "y" 1 1)) = Some ("x" +:+ newline +:+ "y").
Proof. by vm_compute. Qed.

Lemma Backspace_spec_witness :
  let doc := plug [ {| f_type := "blockContainer"; f_attrs := []; f_left := []; f_right := []; f_marks := [] |};
                    {| f_type := "blockGroup"; f_attrs := []; f_left := []; f_right := []; f_marks := [] |};
                    {| f_type := "doc"; f_attrs := []; f_left := []; f_right := []; f_marks := [] |} ]
                  (PElem "codeBlock" [] [] []) in
  typed doc = true ∧ Backspace (code_lines "a" "b" 0 0) = (false, code_lines "a" "b" 0 0).
Proof.
  split; [done|].
  exact (Backspace_spec (code_lines "a" "b" 0 0)
    [ {| f_type := "blockContainer"; f_attrs := []; f_left := []; f_right := []; f_marks := [] |};
      {| f_type := "blockGroup"; f_attrs := []; f_left := []; f_right := []; f_marks := [] |};
      {| f_type := "doc"; f_attrs := []; f_left := []; f_right := []; f_marks := [] |} ] [] [] [] eq_refl eq_refl eq_refl eq_refl).
Defined.

(** [const x] *)
Definition example_nodes : list Hast :=
  [HElem (Some ["hljs-keyword"]) [HText "const"]; HText " x"].
Lemma block_decorations_spec_witness :
  let hl := λ _ _, example_nodes in
  let ds := block_decorations ["javascript"] (λ _, false) hl (λ t, [HText t]) None (5%Z, Some "javascript", "const x") in
  texts example_nodes = "const x" ∧
  (∀ d, d ∈ ds → (6 <= d_from d)%Z ∧ (d_to d <= 13)%Z) ∧
  covering 8 ds = ["hljs-keyword"] ∧ covering 12 ds = [].
Proof.
  destruct (block_decorations_spec ["javascript"] (λ _, false) (λ _ _, example_nodes) (λ t, [HText t]) None 5
    (Some "javascript") "const x" eq_refl) as [H1 H2].
  split; [done|]. split; [exact H1|]. split; [apply (H2 2); vm_compute; lia|apply (H2 6); vm_compute; lia].
Defined.

(** Windows' and old Macintosh' line ends become newlines. *)
Example pasted_code :
  vscode_paste (λ _, Ok (Some "go")) false
    (Some (of_chars ("a" :: CR :: NL :: "b" :: CR :: "c" :: NL :: [])%char, "{}")) =
  Ok (Some ("go", of_chars ("a" :: NL :: "b" :: NL :: "c" :: NL :: [])%char)) ∧
  parse_language "language-" ["hljs"; "language-go"] = "go".
Proof. by vm_compute. Qed.
