(* ===== verification/CommentEditor.v ===== *)
(** * The editor of a comment

    [useCommentEditor] and [useCreateComment] of packages/app/models/comments.ts: the draft
    of a comment is loaded into an editor and written back half a second after the last
    edit; when a write is answered, the draft counts as saved.  The machine's parts are the
    editor, the timer, the writes on their way to the main process, its answers on their
    way back, and the store that [Stores.CommentDrafts] models. *)
From S2P Require Import Prelude.
From S2P Require Import JsString.
From S2P Require Import JsObject.
From S2P Require Import EntityId.
From S2P Require Import BlockTypes.
From S2P Require Import StyledText.
From S2P Require Import BlockConvert.
From S2P Require Import Routes.
From S2P Require Import Stores.
From S2P Require Import DraftDiff.
From S2P Require Import Comments.

Import CommentDrafts.

(** ** The machine *)

Section machine.
(** [serverBlockNodesFromEditorBlocks(editor, editor.topLevelBlocks)], and the draft. *)
Variable serialize : list EditorBlock → result (list HMBlockNode).
Variable editCommentId : string.

Record CommentState : Type := {
  cs_editor : list EditorBlock;
  cs_ready : bool;                          (* readyEditor.current *)
  cs_draft : option CommentDraft;           (* initCommentDraft.current *)
  cs_isSaved : bool;
  cs_timer : bool;                          (* the timeout of saveTimeoutRef is set *)
  cs_sent : list (list HMBlockNode);        (* write.mutateAsync, not yet received *)
  cs_answers : list (option string);        (* answers on their way; [Some] is an error *)
  cs_store : Store;
  cs_toasts : list string;
}.

(** [onEditorContentChange] *)
Definition onEditorContentChange (content : list EditorBlock) (s : CommentState) : CommentState :=
  {| cs_editor := content; cs_ready := cs_ready s; cs_draft := cs_draft s; cs_isSaved := false; cs_timer := true;
     cs_sent := cs_sent s; cs_answers := cs_answers s; cs_store := cs_store s; cs_toasts := cs_toasts s |}.
(** The timeout's callback; an error of the conversion ends it. *)
Definition save_timeout (s : CommentState) : CommentState :=
  {| cs_editor := cs_editor s; cs_ready := cs_ready s; cs_draft := cs_draft s; cs_isSaved := cs_isSaved s;
     cs_timer := false;
     cs_sent := match serialize (cs_editor s) with Ok blocks => cs_sent s ++ [blocks] | Err _ => cs_sent s end;
     cs_answers := cs_answers s; cs_store := cs_store s; cs_toasts := cs_toasts s |}.
(** The main process takes the next write. *)
Definition main_write (s : CommentState) : CommentState :=
  match cs_sent s with
  | [] => s
  | blocks :: rest =>
      let r := writeCommentDraft editCommentId blocks (cs_store s) in
      {| cs_editor := cs_editor s; cs_ready := cs_ready s; cs_draft := cs_draft s; cs_isSaved := cs_isSaved s;
         cs_timer := cs_timer s; cs_sent := rest;
         cs_answers := cs_answers s ++ [match r with Ok _ => None | Err e => Some e end];
         cs_store := match r with Ok store => store | Err _ => cs_store s end; cs_toasts := cs_toasts s |}
  end.
(** The mutation's [then], or its [onError]. *)
Definition write_answered (s : CommentState) : CommentState :=
  match cs_answers s with
  | [] => s
  | None :: rest =>
      {| cs_editor := cs_editor s; cs_ready := cs_ready s; cs_draft := cs_draft s; cs_isSaved := true;
         cs_timer := false; cs_sent := cs_sent s; cs_answers := rest; cs_store := cs_store s;
         cs_toasts := cs_toasts s |}
  | Some e :: rest =>
      {| cs_editor := cs_editor s; cs_ready := cs_ready s; cs_draft := cs_draft s; cs_isSaved := cs_isSaved s;
         cs_timer := cs_timer s; cs_sent := cs_sent s; cs_answers := rest; cs_store := cs_store s;
         cs_toasts := cs_toasts s ++ [e] |}
  end.

(** [initDraft]: the editor's blocks are replaced, which is a change of its content. *)
Definition initDraft (s : CommentState) : CommentState :=
  match cs_draft s with
  | Some draft =>
      if cs_ready s then
        match toHMBlock (Some (cd_blocks draft)) None with
        | Ok editorBlocks => onEditorContentChange editorBlocks s
        | Err _ => s
        end
      else s
  | None => s
  end.
Definition onEditorReady (s : CommentState) : CommentState :=
  initDraft {| cs_editor := cs_editor s; cs_ready := true; cs_draft := cs_draft s; cs_isSaved := cs_isSaved s;
    cs_timer := cs_timer s; cs_sent := cs_sent s; cs_answers := cs_answers s; cs_store := cs_store s;
    cs_toasts := cs_toasts s |}.
(** The query's [onSuccess], which throws without a draft. *)
Definition draft_loaded (draft : option CommentDraft) (s : CommentState) : CommentState :=
  match draft with
  | None => s
  | Some _ =>
      initDraft {| cs_editor := cs_editor s; cs_ready := cs_ready s; cs_draft := draft; cs_isSaved := cs_isSaved s;
        cs_timer := cs_timer s; cs_sent := cs_sent s; cs_answers := cs_answers s; cs_store := cs_store s;
        cs_toasts := cs_toasts s |}
  end.

Inductive CommentEvent : Type :=
| Edited (content : list EditorBlock)
| TimedOut
| MainWrites
| Answered
| Ready
| Loaded (draft : option CommentDraft).
Definition comment_step (s : CommentState) (e : CommentEvent) : CommentState :=
  match e with
  | Edited content => onEditorContentChange content s
  | TimedOut => if cs_timer s then save_timeout s else s
  | MainWrites => main_write s
  | Answered => write_answered s
  | Ready => onEditorReady s
  | Loaded draft => draft_loaded draft s
  end.
Definition comment_run (s : CommentState) (l : list CommentEvent) : CommentState := fold_left comment_step l s.

(** The blocks that the store has for the draft. *)
Definition stored (s : CommentState) : option (list HMBlockNode) :=
  cd_blocks <$> oget (comment_entries (cs_store s)) editCommentId.

(** ** Publishing, replying and discarding *)

(** The invalidated queries and the comment that is shown, in [onSuccess] of
    [publishComment]; the store is not touched. *)
Definition publish_onSuccess `{UrlApi} (id : string) (target : option string) : result (list (string * option string) * string) :=
  let* targetDocId := if otruthy target then unpackHmId (default "" target) else Ok None in
  Ok (match targetDocId with Some t => [("PUBLICATION_COMMENTS", u_eid t)] | None => [] end
      ++ [("trpc.comments.getCommentDrafts", None); ("FEED_LATEST_EVENT", None);
          ("RESOURCE_FEED_LATEST_EVENT", None)], id).
(** [onDiscard]; the window is closed whether this fails or not. *)
Definition discard (s : CommentState) : CommentState :=
  let r := removeCommentDraft editCommentId (cs_store s) in
  {| cs_editor := cs_editor s; cs_ready := cs_ready s; cs_draft := cs_draft s; cs_isSaved := cs_isSaved s;
     cs_timer := cs_timer s; cs_sent := cs_sent s; cs_answers := cs_answers s; cs_store := r.1;
    cs_toasts := cs_toasts s |}.
End machine.

(** The blocks of a new draft: with an embed, block nodes; without, an object that is none,
    since its block is missing. *)
Definition new_comment_blocks (embedRef : option string) : list HMBlockNode :=
  let block type ref text := {| b_id := ""; b_type := type; b_text := text; b_ref := ref;
                                b_annotations := None; b_attributes := Some [] |} in
  if otruthy embedRef then
    [BlockNode (Some (block "embed" embedRef None)) (Some []);
     BlockNode (Some (block "paragraph" None (Some ""))) (Some [])]
  else [BlockNode None (Some [])].

(** * What becomes of edits *)

Section saving.
Variable serialize : list EditorBlock → result (list HMBlockNode).
Variable id : string.
Abbreviation step := (comment_step serialize id).
Abbreviation run := (comment_run serialize id).

Definition idle (s : CommentState) : Prop := cs_sent s = [] ∧ cs_answers s = [].
(** The store has what the editor shows. *)
Definition up_to_date (s : CommentState) : Prop :=
  ∃ blocks, serialize (cs_editor s) = Ok blocks ∧ stored id s = Some blocks.

Lemma stored_write blocks (s s' : Store) :
  writeCommentDraft id blocks s = Ok s' → cd_blocks <$> oget (comment_entries s') id = Some blocks.
Proof.
  unfold writeCommentDraft. destruct (oget (comment_entries s) id) as [c|]; [|done]. intros [= <-]. cbn.
  by rewrite oget_oset_eq.
Qed.

(** Nothing changes in the editor while a write is on its way. *)
Definition changes_content (e : CommentEvent) : bool :=
  match e with Edited _ | Ready | Loaded _ => true | _ => false end.
Inductive calm_run : CommentState → CommentState → Prop :=
| calm_refl s : calm_run s s
| calm_next s e s' : calm_run s s' → (changes_content e = true → idle s') → calm_run s (step s' e).

(** Between saves, or with one save under way of what the editor shows. *)
Definition in_step (s : CommentState) : Prop :=
  (idle s ∧ (cs_isSaved s = true → cs_timer s = false ∧ up_to_date s)) ∨
  (cs_isSaved s = false ∧ cs_timer s = false ∧ ∃ blocks, serialize (cs_editor s) = Ok blocks ∧
     ((cs_sent s = [blocks] ∧ cs_answers s = []) ∨
      (cs_sent s = [] ∧ cs_answers s = [None] ∧ stored id s = Some blocks) ∨
      (cs_sent s = [] ∧ ∃ e, cs_answers s = [Some e]))).

Lemma changed_in_step content s : idle s → in_step (onEditorContentChange content s).
Proof. intros Hi. left. by split. Qed.
Lemma init_in_step s : idle s → (cs_isSaved s = true → cs_timer s = false ∧ up_to_date s) → in_step (initDraft s).
Proof.
  intros Hi Hs. unfold initDraft. destruct (cs_draft s); [|by left]. destruct (cs_ready s); [|by left].
  destruct (toHMBlock _ _); [by apply changed_in_step|by left].
Qed.
Lemma step_in_step s e : in_step s → (changes_content e = true → idle s) → in_step (step s e).
Proof.
  intros Hs Hidle. destruct e as [content| | | | |draft]; cbn [comment_step].
  - apply changed_in_step. by apply Hidle.
  - destruct (cs_timer s) eqn:Et; [|done].
    destruct Hs as [[[Hse Ha] Hs]|(_ & Ht & _)]; [|by rewrite Et in Ht].
    assert (cs_isSaved s = false) as Hn by (destruct (cs_isSaved s); [by destruct (Hs eq_refl); congruence|done]).
    unfold save_timeout. destruct (serialize (cs_editor s)) as [blocks|] eqn:Es.
    + right. cbn. rewrite Hse, Ha. split; [done|]. split; [done|]. exists blocks. split; [done|]. by left.
    + left. split; [done|]. cbn. by rewrite Hn.
  - destruct Hs as [[[Hse Ha] Hs]|(Hn & Ht & blocks & Eb & Hs)]; unfold main_write.
    + rewrite Hse. left. by split.
    + destruct Hs as [[Hse Ha]|[(Hse & Hs)|(Hse & Hs)]]; rewrite Hse.
      * right. cbn. split; [done|]. split; [done|]. exists blocks. split; [done|]. right. rewrite Ha.
        unfold stored. destruct (writeCommentDraft id blocks (cs_store s)) as [s'|] eqn:Ew.
        -- left. split; [done|]. split; [done|]. cbn. by eapply stored_write.
        -- right. by eauto.
      * right. split; [done|]. split; [done|]. exists blocks. split; [done|]. right. by left.
      * right. split; [done|]. split; [done|]. exists blocks. split; [done|]. right. by right.
  - destruct Hs as [[[Hse Ha] Hs]|(Hn & Ht & blocks & Eb & Hs)]; unfold write_answered.
    + rewrite Ha. left. by split.
    + destruct Hs as [[Hse Ha]|[(Hse & Ha & Hst)|(Hse & e & Ha)]]; rewrite Ha.
      * right. split; [done|]. split; [done|]. exists blocks. split; [done|]. by left.
      * left. split; [done|]. intros _. split; [done|]. by exists blocks.
      * left. split; [done|]. cbn. by rewrite Hn.
  - destruct Hs as [[Hi Hs]|(Hn & Ht & _)]; [by apply init_in_step|].
    apply init_in_step; [by apply Hidle|]. cbn. by rewrite Hn.
  - destruct draft as [d|]; [|done]. unfold draft_loaded.
    destruct Hs as [[Hi Hs]|(Hn & Ht & _)]; [by apply init_in_step|].
    apply init_in_step; [by apply Hidle|]. cbn. by rewrite Hn.
Qed.

(** C37. If nothing is edited while a write is on its way, then whenever the draft is shown
    as saved, the store has what the editor shows. *)
Theorem calm_saved_is_stored s s' :
  idle s → (cs_isSaved s = true → cs_timer s = false ∧ up_to_date s) →
  calm_run s s' → cs_isSaved s' = true → cs_timer s' = false ∧ up_to_date s'.
Proof.
  intros Hi Hs Hr. assert (in_step s') as [[_ H]|(Hn & _)]; [|done|by rewrite Hn].
  induction Hr as [|s e s' Hr IH Hc]; [by left|]. apply step_in_step; [by apply IH|done].
Qed.

(** An edit by itself is written: the timer, the write and its answer. *)
Theorem edit_is_saved content blocks s :
  idle s → is_Some (oget (comment_entries (cs_store s)) id) → serialize content = Ok blocks →
  let s' := run s [Edited content; TimedOut; MainWrites; Answered] in
  cs_isSaved s' = true ∧ stored id s' = Some blocks ∧ idle s'.
Proof.
  intros [Hse Ha] [c Hc] Es. unfold comment_run. cbn [fold_left comment_step].
  unfold save_timeout, main_write, write_answered. cbn. rewrite Es, Hse, Ha. cbn.
  unfold writeCommentDraft. rewrite Hc. cbn. unfold stored. cbn. by rewrite oget_oset_eq.
Qed.

(** *** Edits while a write is on its way

    After the edit the timer, the write and its answer come in some order.  The answer is
    first if the write is received and answered before the timer fires. *)
Definition quiet (e : CommentEvent) : Prop := e = TimedOut ∨ e = MainWrites ∨ e = Answered.
Fixpoint answered_first (written : bool) (l : list CommentEvent) : bool :=
  match l with
  | MainWrites :: l' => answered_first true l'
  | Answered :: l' => written || answered_first written l'
  | _ => false
  end.

(** The timer is stopped and nothing is left to be written. *)
Definition settled (content : list EditorBlock) (blocks : list HMBlockNode) (s : CommentState) : Prop :=
  cs_isSaved s = true ∧ cs_timer s = false ∧ idle s ∧ cs_editor s = content ∧ stored id s = Some blocks.
(** [blocks] is the last that is sent, or is stored and to be answered. *)
Definition under_way (content : list EditorBlock) (blocks : list HMBlockNode) (s : CommentState) : Prop :=
  cs_timer s = false ∧ cs_editor s = content ∧ Forall (λ a, a = None) (cs_answers s) ∧
  is_Some (oget (comment_entries (cs_store s)) id) ∧
  ((∃ rest, cs_sent s = rest ++ [blocks]) ∨
   (cs_sent s = [] ∧ stored id s = Some blocks ∧ (cs_answers s ≠ [] ∨ cs_isSaved s = true))).
(** The timer is set and the write of [blocks] is sent, or written and to be answered. *)
Definition edited (content : list EditorBlock) (blocks : list HMBlockNode) (written : bool) (s : CommentState) : Prop :=
  cs_timer s = true ∧ cs_editor s = content ∧ is_Some (oget (comment_entries (cs_store s)) id) ∧
  if written then cs_sent s = [] ∧ cs_answers s = [None] ∧ stored id s = Some blocks
  else cs_sent s = [blocks] ∧ cs_answers s = [].

Lemma written_store blocks (st : Store) :
  is_Some (oget (comment_entries st) id) →
  ∃ st', writeCommentDraft id blocks st = Ok st' ∧ is_Some (oget (comment_entries st') id) ∧
    cd_blocks <$> oget (comment_entries st') id = Some blocks.
Proof.
  intros [c Hc]. unfold writeCommentDraft. rewrite Hc. eexists. split; [done|]. cbn. rewrite oget_oset_eq. by split.
Qed.

Lemma settled_stays content blocks s l :
  settled content blocks s → Forall quiet l → settled content blocks (run s l).
Proof.
  intros Hs Hl. revert s Hs. induction Hl as [|e l He _ IH]; intros s Hs; [done|]. apply IH.
  destruct Hs as (H1 & Ht & [Hse Ha] & H2 & H3).
  destruct He as [-> |[-> | ->]]; cbn [comment_step]; unfold main_write, write_answered;
    rewrite ?Ht, ?Hse, ?Ha; by repeat split.
Qed.
Lemma under_way_step content blocks s e :
  quiet e → under_way content blocks s → under_way content blocks (step s e).
Proof.
  intros He (Ht & Hc & Ha & Hid & Hs). destruct He as [-> |[-> | ->]]; cbn [comment_step].
  - by rewrite Ht.
  - unfold main_write. destruct (cs_sent s) as [|b rest] eqn:Hse; [by repeat split; eauto; rewrite ?Hse|].
    destruct (written_store b (cs_store s) Hid) as (st & -> & Hid' & Hst). split; [done|]. split; [done|].
    split; [cbn; apply Forall_app; by repeat constructor|]. split; [done|]. cbn.
    destruct Hs as [[[|b' rest'] Hs]|[? _]]; [|left; exists rest'; by injection Hs as _ ->|done].
    injection Hs as -> ->. right. split; [done|]. split; [done|]. left. by destruct (cs_answers s).
  - unfold write_answered. destruct (cs_answers s) as [|a rest] eqn:Ean; [by repeat split; eauto; rewrite ?Ean|].
    apply Forall_cons in Ha as [-> Ha]. split; [done|]. split; [done|]. split; [done|]. split; [done|].
    destruct Hs as [Hs|(Hs & Hst & _)]; [by left|right]. by repeat split; [..|right].
Qed.
Lemma under_way_run content blocks s l :
  under_way content blocks s → Forall quiet l → idle (run s l) → settled content blocks (run s l).
Proof.
  intros Hs Hl [Hse Ha]. assert (under_way content blocks (run s l)) as (Ht & Hc & _ & _ & [[rest Hr]|(_ & Hst & Hor)]).
  { clear Hse Ha. revert s Hs. induction Hl as [|e l He _ IH]; intros s Hs; [done|]. apply IH. by apply under_way_step. }
  - rewrite Hse in Hr. by destruct rest.
  - destruct Hor as [Hn|Hsaved]; [done|]. by repeat split.
Qed.
Lemma edited_run content blocks new w s l :
  serialize content = Ok new → edited content blocks w s → Forall quiet l →
  if answered_first w l then settled content blocks (run s l)
  else idle (run s l) → settled content new (run s l).
Proof.
  intros Es Hs Hl. revert w s Hs. induction Hl as [|e l He Hl IH]; intros w s (Ht & Hc & Hid & Hs).
  { cbn. intros [Hse Ha]. destruct w; [by destruct Hs as (_ & Hs & _); rewrite Ha in Hs|].
    destruct Hs as [Hs _]. by rewrite Hse in Hs. }
  destruct He as [-> |[-> | ->]]; cbn [answered_first].
  - apply (under_way_run content new (step s TimedOut) l); [|done]. cbn [comment_step]. rewrite Ht. unfold save_timeout.
    rewrite Hc, Es. split; [done|]. split; [done|]. cbn. destruct w; destruct Hs as [-> Hs].
    + destruct Hs as [-> _]. split; [by repeat constructor|]. split; [done|]. left. by exists [].
    + rewrite Hs. split; [constructor|]. split; [done|]. left. by exists [blocks].
  - apply (IH true). cbn [comment_step]. unfold main_write. destruct w; destruct Hs as [Hse Hs]; rewrite Hse.
    + by split.
    + destruct (written_store blocks (cs_store s) Hid) as (st & -> & Hid' & Hst). rewrite Hs.
      split; [done|]. split; [done|]. by split.
  - destruct w; destruct Hs as [Hse Hs]; cbn [orb].
    + destruct Hs as [Ha Hst]. apply (settled_stays _ _ (step s Answered)); [|done]. cbn [comment_step].
      unfold write_answered. rewrite Ha. by repeat split.
    + apply (IH false). cbn [comment_step]. unfold write_answered. rewrite Hs. by split.
Qed.

(** C38. An edit that is made while a write is on its way, over every order in which the
    timer fires and writes are received and answered, none failing and nothing else being
    edited.  If the write is answered before the timer fires, the edit is never written:
    the answer stops the timer and shows the draft as saved, and from then on the store
    has the old blocks.  If the timer fires first, the edit is stored once no write is on
    its way. *)
Theorem edit_during_save_is_lost content blocks new s l :
  cs_sent s = [blocks] → cs_answers s = [] → is_Some (oget (comment_entries (cs_store s)) id) →
  serialize content = Ok new → Forall quiet l →
  let s' := run s (Edited content :: l) in
  if answered_first false l then settled content blocks s'
  else idle s' → settled content new s'.
Proof.
  intros Hse Ha Hid Es Hl. apply (edited_run content blocks new false (step s (Edited content)) l); [done| |done].
  by split.
Qed.

(** As long as no save has failed and the conversion does not, unsaved edits have a
    save to come. *)
Definition save_to_come (s : CommentState) : Prop :=
  cs_isSaved s = true ∨ cs_timer s = true ∨ cs_sent s ≠ [] ∨ cs_answers s ≠ [].
Definition failures (s : CommentState) : nat := length (cs_toasts s).
Lemma init_unsaved s : cs_isSaved (initDraft s) = false ∧ cs_timer (initDraft s) = true ∨ initDraft s = s.
Proof.
  unfold initDraft. destruct (cs_draft s); [|by right]. destruct (cs_ready s); [|by right].
  destruct (toHMBlock _ _); [by left|by right].
Qed.
Lemma init_failures s : failures (initDraft s) = failures s.
Proof.
  unfold initDraft. destruct (cs_draft s), (cs_ready s); try done. by destruct (toHMBlock _ _).
Qed.
Lemma step_failures s e : failures s <= failures (step s e).
Proof.
  destruct e as [content| | | | |[d|]]; cbn [comment_step]; try done.
  - by destruct (cs_timer s).
  - unfold main_write. by destruct (cs_sent s).
  - unfold write_answered, failures. destruct (cs_answers s) as [|[e|] rest]; cbn; [done| |done].
    rewrite length_app. lia.
  - unfold onEditorReady. by rewrite init_failures.
  - unfold draft_loaded. by rewrite init_failures.
Qed.
Lemma step_to_come s e : (∀ content, is_ok (serialize content) = true) → save_to_come s →
  save_to_come (step s e) ∨ failures s < failures (step s e).
Proof.
  intros Hser Hs. destruct e as [content| | | | |[d|]]; cbn [comment_step].
  - left. right. by left.
  - destruct (cs_timer s) eqn:Et; [|by left]. left. right. right. left. unfold save_timeout. cbn.
    specialize (Hser (cs_editor s)). destruct (serialize (cs_editor s)); [|done]. by destruct (cs_sent s).
  - unfold main_write. destruct (cs_sent s) as [|b rest]; [by left|]. left. do 3 right. cbn. by destruct (cs_answers s).
  - unfold write_answered, failures. destruct (cs_answers s) as [|[e|] rest]; cbn; [by left| |left; by left].
    right. rewrite length_app. cbn. lia.
  - left. unfold onEditorReady.
    match goal with |- save_to_come (initDraft ?t) => destruct (init_unsaved t) as [[_ Ht]| ->] end; [right; by left|done].
  - left. unfold draft_loaded.
    match goal with |- save_to_come (initDraft ?t) => destruct (init_unsaved t) as [[_ Ht]| ->] end; [right; by left|done].
  - by left.
Qed.
(** As long as no write fails and the blocks can be converted, a draft that is not
    shown as saved has a save to come. *)
Theorem unsaved_has_save_to_come s l :
  (∀ content, is_ok (serialize content) = true) → save_to_come s →
  save_to_come (run s l) ∨ failures s < failures (run s l).
Proof.
  intros Hser Hs. unfold comment_run. induction l as [|e l IH] using rev_ind; [by left|]. rewrite fold_left_app. cbn [fold_left].
  destruct IH as [IH|IH].
  - destruct (step_to_come _ e Hser IH) as [H|H]; [by left|]. right.
    enough (failures s <= failures (fold_left step l s)) by lia. clear.
    induction l as [|e l IH] using rev_ind; [done|]. rewrite fold_left_app. cbn [fold_left].
    etrans; [exact IH|apply step_failures].
  - right. eapply Nat.lt_le_trans; [exact IH|apply step_failures].
Qed.
End saving.

(** A new comment without an embed is no block node: loading it fails, and the editor
    stays empty. *)
Lemma new_comment_is_no_block : toHMBlock (Some (new_comment_blocks None)) None = Err missingBlockMsg.
Proof. done. Qed.
Theorem new_comment_not_loaded targetDocEid targetDocVersion targetCommentId draftId s store editor :
  let store' := createCommentDraft draftId targetDocEid targetDocVersion targetCommentId
                  (Some (new_comment_blocks None)) store in
  draftId ≠ "" →
  cs_editor (draft_loaded (fst <$> getCommentDraft (Some draftId) store')
    {| cs_editor := editor; cs_ready := true; cs_draft := None; cs_isSaved := s; cs_timer := false;
       cs_sent := []; cs_answers := []; cs_store := store'; cs_toasts := [] |}) = editor.
Proof.
  intros store' Hne. unfold getCommentDraft. rewrite otruthy_Some by done. cbn [default from_option].
  unfold store', createCommentDraft. cbn. by rewrite oget_oset_eq.
Qed.

(** ** Witnesses *)

Definition ex_serialize (l : list EditorBlock) : result (list HMBlockNode) := serverBlockNodesFromEditorBlocks None l.
Definition ex_paragraph (id text : string) : EditorBlock :=
  EBlock id "paragraph" (props_childrenType None) [] [].
Definition ex_store : Store := createCommentDraft "c" "d" "v" None (Some []) empty_store.
Definition ex_open : CommentState :=
  {| cs_editor := []; cs_ready := true; cs_draft := None; cs_isSaved := true; cs_timer := false;
     cs_sent := []; cs_answers := []; cs_store := ex_store; cs_toasts := [] |}.
Definition ex_p : EditorBlock := ex_paragraph "b1" "x".
Definition ex_blocks : list HMBlockNode := match ex_serialize [ex_p] with Ok b => b | Err _ => [] end.
Definition ex_written : list CommentEvent := [Edited [ex_p]; TimedOut; MainWrites; Answered].

Lemma ex_open_ok : idle ex_open ∧ (cs_isSaved ex_open = true → cs_timer ex_open = false ∧ up_to_date ex_serialize "c" ex_open).
Proof. split; [done|]. intros _. split; [done|]. by exists []. Qed.
Lemma calm_saved_is_stored_witness :
  let s' := comment_run ex_serialize "c" ex_open ex_written in
  cs_isSaved s' = true ∧ cs_editor s' = [ex_p] ∧ cs_timer s' = false ∧ up_to_date ex_serialize "c" s'.
Proof.
  split; [done|]. split; [done|].
  apply (calm_saved_is_stored ex_serialize "c" ex_open); [done|apply ex_open_ok| |done].
  unfold ex_written, comment_run. cbn [fold_left].
  do 3 (apply calm_next; [|done]). apply calm_next; [apply calm_refl|done].
Defined.
Lemma edit_is_saved_witness :
  let s' := comment_run ex_serialize "c" ex_open ex_written in
  cs_isSaved s' = true ∧ is_Some (stored "c" s') ∧ idle s'.
Proof.
  destruct (edit_is_saved ex_serialize "c" [ex_p] ex_blocks ex_open) as (H1 & H2 & H3); [done|by eexists|done|].
  split; [exact H1|]. split; [|exact H3]. by exists ex_blocks.
Defined.
(** One paragraph is being written when a second one is typed; the timer fires after the
    answer, and before it. *)
Definition ex_two : list EditorBlock := [ex_p; ex_paragraph "b2" "y"].
Lemma edit_during_save_is_lost_witness :
  let s := comment_run ex_serialize "c" ex_open [Edited [ex_p]; TimedOut] in
  let lost := comment_run ex_serialize "c" s [Edited ex_two; MainWrites; Answered; TimedOut; MainWrites] in
  let kept := comment_run ex_serialize "c" s [Edited ex_two; MainWrites; TimedOut; Answered; MainWrites; Answered] in
  (cs_isSaved lost = true ∧ cs_editor lost = ex_two ∧ length <$> stored "c" lost = Some 1) ∧
  (cs_isSaved kept = true ∧ cs_editor kept = ex_two ∧ length <$> stored "c" kept = Some 2).
Proof.
  destruct (ex_serialize ex_two) as [new|] eqn:Es; [|vm_compute in Es; discriminate Es].
  assert (length new = 2) as Hlen by (vm_compute in Es; by injection Es as <-).
  set (s := comment_run ex_serialize "c" ex_open [Edited [ex_p]; TimedOut]).
  assert (∀ l, Forall quiet l → let s' := comment_run ex_serialize "c" s (Edited ex_two :: l) in
    if answered_first false l then settled "c" ex_two ex_blocks s' else idle s' → settled "c" ex_two new s') as Hrun.
  { intros l Hl. apply (edit_during_save_is_lost ex_serialize "c"); [by vm_compute|done|by eexists|exact Es|exact Hl]. }
  split.
  - destruct (Hrun [MainWrites; Answered; TimedOut; MainWrites]) as (H1 & _ & _ & H2 & H3).
    + by repeat (apply Forall_cons; split; [unfold quiet; tauto|]).
    + cbv zeta. split; [exact H1|]. split; [exact H2|]. by rewrite H3.
  - destruct (Hrun [MainWrites; TimedOut; Answered; MainWrites; Answered]) as (H1 & _ & _ & H2 & H3).
    + by repeat (apply Forall_cons; split; [unfold quiet; tauto|]).
    + by vm_compute.
    + cbv zeta. split; [exact H1|]. split; [exact H2|]. rewrite H3. cbn. by rewrite Hlen.
Defined.
Lemma unsaved_has_save_to_come_witness :
  let s' := comment_run (λ _, Ok []) "c" ex_open [Edited []; Edited []; TimedOut] in
  cs_isSaved s' = false ∧ (save_to_come s' ∨ 0 < failures s').
Proof. split; [done|]. apply (unsaved_has_save_to_come (λ _, Ok []) "c" ex_open); [done|by left]. Defined.
Lemma new_comment_not_loaded_witness :
  cs_editor (draft_loaded (fst <$> getCommentDraft (Some "c") (createCommentDraft "c" "d" "v" None (Some (new_comment_blocks None)) empty_store))
    {| cs_editor := [ex_p]; cs_ready := true; cs_draft := None; cs_isSaved := true; cs_timer := false;
       cs_sent := []; cs_answers := []; cs_store := createCommentDraft "c" "d" "v" None (Some (new_comment_blocks None)) empty_store;
       cs_toasts := [] |}) = [ex_p].
Proof. by apply (new_comment_not_loaded "d" "v" None "c" true empty_store [ex_p]). Defined.
