(* ===== verification/MediaInsert.v ===== *)
(** * Media that is dropped or pasted

    [handleDragMedia] and [generateBlockId] of packages/app/utils/media-drag.ts, the drop
    handlers of packages/app/pages/comment-draft.tsx and draft.tsx, which insert a block
    for each file, and packages/editor/src/handle-local-media-paste-plugin.ts.  Blocks are
    inserted by [EditorBlocks.insertBlocks]. *)
From S2P Require Import Prelude.
From S2P Require Import JsString.
From S2P Require Import JsObject.
From S2P Require Import DaemonApi.
From S2P Require Import NodeConvert.
From S2P Require Import BlockNodes.
From S2P Require Import NodeRoundtrip.
From S2P Require Import NodeExamples.
From S2P Require Import Positions.
From S2P Require Import EditorBlocks.
From S2P Require Import PositionsFacts.
From S2P Require Import EditorBlocksFacts.
From S2P Require Import EditorLookup.
From S2P Require Import EditorInsert.
From S2P Require Import EditorUpdate.
From S2P Require Import EditorRemove.
From S2P Require Import PositionsModel.
From S2P Require Import EditorExamples.

(** ** Files *)

Record MediaFile : Type := { mf_name : string; mf_type : string; mf_size : N }.
Record MediaProps : Type := { mp_url : string; mp_name : string; mp_size : string }.

Definition MAX_SIZE : N := 62914560.
(** [handleDragMedia]: [upload] is the text of the server's answer.  A file that is too
    large is not sent; the message of each failure is shown. *)
Definition handleDragMedia (file : MediaFile) (upload : result string) : option MediaProps * list string :=
  if (MAX_SIZE <? mf_size file)%N then
    (None, ["The size of " +:+ mf_name file +:+ " exceeds 60 MB."])
  else match upload with
       | Ok data =>
           (Some {| mp_url := if truthy data then "ipfs://" +:+ data else "";
                    mp_name := mf_name file; mp_size := num_to_str (mf_size file) |}, [])
       | Err _ => (None, ["Failed to upload file."])
       end.

Definition chromiumSupportedImageMimeTypes : list string :=
  ["image/jpeg"; "image/jpg"; "image/png"; "image/gif"; "image/webp"; "image/bmp"; "image/svg+xml";
   "image/x-icon"; "image/vnd.microsoft.icon"; "image/apng"; "image/avif"].
Definition chromiumSupportedVideoMimeTypes : list string := ["video/mp4"; "video/webm"].

Definition media_type (file : MediaFile) : string :=
  if existsb (String.eqb (mf_type file)) chromiumSupportedImageMimeTypes then "image"
  else if existsb (String.eqb (mf_type file)) chromiumSupportedVideoMimeTypes then "video"
  else "file".
(** The block of a file. *)
Definition block_props (file : MediaFile) (props : MediaProps) : Attrs :=
  [("url", VStr (mp_url props)); ("name", VStr (mp_name props))]
  ++ if String.eqb (media_type file) "file" then [("size", VStr (mp_size props))] else [].
Definition blockNode (file : MediaFile) (props : MediaProps) (newId : string) : PartialBlock :=
  PBlock (Some newId) (Some (media_type file)) (Some (block_props file props)) None None.

(** [generateBlockId]: a character for each random number. *)
Definition id_characters : string :=
  "ABCDEFGHIJKLMNOPQRSTUVWXYZabcdefghijklmnopqrstuvwxyz0123456789".
Definition generateBlockId (randoms : list nat) : string :=
  of_chars (omap (λ r, chars id_characters !! (r mod len id_characters)) randoms).

(** ** Dropping files *)

(** A file with what its upload will give and the id that its block gets. *)
Record Dropped : Type := { dr_file : MediaFile; dr_upload : result string; dr_newId : string }.
Definition dropped_props (d : Dropped) : option MediaProps := (handleDragMedia (dr_file d) (dr_upload d)).1.
Definition dropped_block (d : Dropped) : option PartialBlock :=
  (λ p, blockNode (dr_file d) p (dr_newId d)) <$> dropped_props d.

Definition no_reference : string := "TypeError".

Section drop.
Context `{Schema, ProseMirror} {G : Type} (generateID : call G string).
(** [insertBlocks] reads [id] of a reference that is not a string. *)
Definition insert_at (blocks : list PartialBlock) (reference : option string) (placement : Placement)
    (doc : PNode) : call G PNode :=
  match reference with
  | Some id => insertBlocks generateID blocks id placement doc
  | None => c_throw no_reference
  end.

(** What is done for a file once it is uploaded; the last block is [lastId]. *)
Definition drop_file (pos : Z) (index : nat) (d : Dropped) (lastId : option string) (doc : PNode) :
    call G (PNode * option string) :=
  match dropped_block d with
  | None => c_ret (doc, lastId)
  | Some block =>
      await* blockInfo := c_lift (getBlockInfoFromPos doc pos) in
      await* doc' :=
        match index with
        | O => insert_at [block] (as_str (bp_id blockInfo))
                 (if truthy (textContent (bp_node blockInfo)) then After else Before) doc
        | S _ => insert_at [block] lastId After doc
        end in
      c_ret (doc', Some (dr_newId d))
  end.
(** The chain of promises: the files one after the other, to the first error.  The
    document is what the editor shows then. *)
Fixpoint drop_files (pos : Z) (index : nat) (files : list Dropped) (lastId : option string) (doc : PNode) (g : G) :
    G * PNode * result unit :=
  match files with
  | [] => (g, doc, Ok tt)
  | d :: files' =>
      match drop_file pos index d lastId doc g with
      | (g', Ok (doc', lastId')) => drop_files pos (S index) files' lastId' doc' g'
      | (g', Err e) => (g', doc, Err e)
      end
  end.
(** [onDrop]: nothing is inserted if the drop is not over the text. *)
Definition onDrop (pos : option (Z * Z)) (files : list Dropped) (doc : PNode) (g : G) : G * PNode * result unit :=
  match pos with
  | Some (pos, inside) => if (inside =? -1)%Z then (g, doc, Ok tt) else drop_files pos 0 files None doc g
  | None => (g, doc, Ok tt)
  end.
End drop.

(** ** Pasting files *)

(** An item of the clipboard: its type, and its file if it is one. *)
Record ClipItem : Type := { ci_type : string; ci_file : option MediaFile }.
(** The file that is uploaded and the type of its node, and if the paste is handled: the
    loop returns in its first round. *)
Definition media_paste (items : list ClipItem) : bool * option (MediaFile * string) :=
  match items with
  | [] => (false, None)
  | item :: _ =>
      if js_startsWith "image" (ci_type item) then (true, (λ f, (f, "image")) <$> ci_file item)
      else if js_startsWith "video" (ci_type item) then (true, (λ f, (f, "video")) <$> ci_file item)
      else match ci_file item with
           | Some f => (true, Some (f, "file"))
           | None => (false, None)
           end
  end.
(** What is inserted when the answer is there, and where: before the position at which
    the selection started when it was pasted. *)
Definition media_node (anchor : Z) (f : MediaFile) (type data : string) : Z * string * Attrs :=
  ((anchor - 1)%Z, type,
   [("url", VStr ("ipfs://" +:+ data)); ("name", VStr (mf_name f))]
   ++ if String.eqb type "file" then [("size", VNum (Z.of_N (mf_size f)))] else []).

(** ** The blocks of files *)

Lemma in_block_ids fs n i : i ∈ ids_before fs ∨ i ∈ block_ids n → i ∈ block_ids (plug fs n).
Proof.
  revert n. induction fs as [|f fs IH]; intros n [Hi|Hi]; cbn [plug]; [by apply elem_of_nil in Hi|done| |].
  - cbn [ids_before] in Hi. rewrite !elem_of_app in Hi. apply IH. destruct Hi as [Hi|Hi]; [by left|right].
    unfold fill_frame. cbn [block_ids]. rewrite fmap_app, concat_app, !elem_of_app. set_solver.
  - apply IH. right. unfold fill_frame. cbn [block_ids]. rewrite !fmap_app, !concat_app, !elem_of_app.
    right. right. left. cbn. by rewrite app_nil_r.
Qed.
Lemma plug_ids_mono (P : AttrVal → Prop) fs a b :
  (∀ x, x ∈ block_ids a → x ∈ block_ids b ∨ P x) →
  ∀ x, x ∈ block_ids (plug fs a) → x ∈ block_ids (plug fs b) ∨ P x.
Proof.
  revert a b. induction fs as [|f fs IH]; intros a b Hab; [done|]. cbn [plug]. apply IH. intros x Hx.
  unfold fill_frame in *. cbn [block_ids] in *. rewrite !fmap_app, !concat_app, !elem_of_app in *. cbn in *.
  rewrite app_nil_r in *. specialize (Hab x). tauto.
Qed.

Section blocks.
Context `{SchemaLaws} `{!ProseMirror} {G : Type} (generateID : call G string).
Hypothesis Hmedia : ∀ t, t ∈ ["image"; "video"; "file"] → is_Some (node_spec t).

Lemma media_type_known f : media_type f ∈ ["image"; "video"; "file"].
Proof. unfold media_type. repeat case_match; set_solver. Qed.
Lemma media_types_ok f p i : block_types_ok (blockNode f p i).
Proof.
  cbn. split; [|done]. unfold media_type.
  repeat case_match; by apply (bool_decide_unpack _).
Qed.
(** The node of a file's block has its id, and no other block in it. *)
Definition one_block (i : string) (n : PNode) : Prop :=
  typed_block n ∧ is_block (VStr i) n = true ∧ block_ids n = [VStr i].
Lemma media_block f p i : ∃ n, (∀ g, blockToNode generateID (blockNode f p i) g = (g, Ok n)) ∧ one_block i n.
Proof.
  destruct (Hmedia (media_type f) (media_type_known f)) as [ds Eds].
  destruct has_container as (dc & Edc & did & Hdid).
  destruct has_group as [dg Eg].
  set (c := PElem (media_type f) (compute_attrs ds (block_props f p)) [] []).
  set (n := PElem "blockContainer" (compute_attrs dc (ospread [("id", VStr i)] (block_props f p))) [c] []).
  assert (∀ {G} (gen : call G string) g, blockToNode gen (blockNode f p i) g = (g, Ok n)) as En.
  { intros G' gen g. unfold blockNode. cbn [blockToNode]. unfold c_bind, c_ret, c_lift, content_node.
    cbn [given_content rbind fst snd default from_option id].
    rewrite (create_ok _ ds), (create_ok "blockGroup" dg), (create_ok "blockContainer" dc) by done.
    cbn [default from_option id]. by rewrite fragment_none, fragment_elems. }
  exists n. split; [by intros g; apply En|].
  assert (attr (n_attrs n) "id" = VStr i) as Hid.
  { assert (attr (ospread [("id", VStr i)] (block_props f p)) "id" = VStr i) as Hsp.
    { unfold attr, block_props. by destruct (String.eqb _ _). }
    cbn [n n_attrs]. rewrite (compute_attrs_given _ _ _ did); [done|done|by rewrite Hsp]. }
  split; [|split].
  - by apply (block_node_typed (G := unit) (c_ret "") (blockNode f p i) tt tt); [apply media_types_ok|apply En].
  - unfold is_block. rewrite Hid. cbn. by rewrite bool_decide_true.
  - assert (block_ids c = []) as Ec.
    { unfold c. cbn [block_ids fmap list_fmap concat]. rewrite app_nil_r.
      unfold own_id, media_type. by repeat case_match. }
    unfold n. cbn [block_ids fmap list_fmap concat]. rewrite Ec, !app_nil_r. cbn [n n_attrs] in Hid.
    unfold own_id. cbn [String.eqb Ascii.eqb Bool.eqb]. by rewrite Hid.
Qed.

End blocks.

(** ** Where they go *)

Section drops.
Context `{ProseMirrorLaws} {G : Type} (generateID : call G string).
Hypothesis Hmedia : ∀ t, t ∈ ["image"; "video"; "file"] → is_Some (node_spec t).

Lemma plug_grows fs n n' : (nodeSize n <= nodeSize n')%Z → (nodeSize (plug fs n) <= nodeSize (plug fs n'))%Z.
Proof.
  revert n n'. induction fs as [|f fs IH]; intros n n' Hle; [done|]. cbn [plug]. apply IH. unfold fill_frame.
  rewrite !size_elem. destruct (is_leaf (f_type f)); [done|]. rewrite !csize_app. cbn [csize app]. lia.
Qed.
Lemma inserted_grows f fs n new r : typed_block new → r = [n; new] ∨ r = [new; n] →
  (outer_end (plug (f :: fs) n) <= outer_end (plug fs (fill_frame f r)))%Z.
Proof.
  intros Hnew Hr. unfold outer_end. cbn [plug].
  enough (nodeSize (plug fs (fill_frame f [n])) <= nodeSize (plug fs (fill_frame f r)))%Z by lia.
  apply plug_grows. unfold fill_frame. rewrite !size_elem. destruct (is_leaf (f_type f)); [done|]. rewrite !csize_app.
  pose proof (nodeSize_pos new ltac:(apply Hnew)). destruct Hr as [-> | ->]; cbn [csize]; lia.
Qed.
Lemma plug_type fs n : fs ≠ [] → ∀ n', n_type (plug fs n) = n_type (plug fs n').
Proof.
  revert n. induction fs as [|f fs IH]; intros n Hne n'; [done|]. cbn [plug].
  destruct fs as [|g fs]; [done|]. by apply IH.
Qed.
Definition with_left (f : Frame) (n : PNode) : Frame :=
  {| f_type := f_type f; f_attrs := f_attrs f; f_left := f_left f ++ [n]; f_right := f_right f; f_marks := f_marks f |}.
Definition with_right (f : Frame) (n : PNode) : Frame :=
  {| f_type := f_type f; f_attrs := f_attrs f; f_left := f_left f; f_right := n :: f_right f; f_marks := f_marks f |}.
Lemma fill_left f n l : fill_frame (with_left f n) l = fill_frame f (n :: l).
Proof. unfold fill_frame. cbn. by rewrite <- app_assoc. Qed.
Lemma fill_right f n l : fill_frame (with_right f n) l = fill_frame f (l ++ [n]).
Proof. unfold fill_frame. cbn. by rewrite <- app_assoc. Qed.

(** One file after the block with the id [last]. *)
Definition at_place (pos : Z) (fs : list Frame) (n : PNode) (last : string) : Prop :=
  typed (plug fs n) = true ∧ n_type (plug fs n) = "doc" ∧ fs ≠ [] ∧ is_block (VStr last) n = true ∧
  VStr last ∉ ids_before fs ∧ (pos < outer_end (plug fs n) - 1)%Z.
Lemma insert_one placement f fs n last file p i pos g :
  placement ≠ Nested → at_place pos (f :: fs) n last → VStr i ∉ block_ids (plug (f :: fs) n) →
  ∃ new, (∀ g, blockToNode generateID (blockNode file p i) g = (g, Ok new)) ∧ one_block i new ∧
    let f' := match placement with Before => with_right f n | _ => with_left f n end in
    insertBlocks generateID [blockNode file p i] last placement (plug (f :: fs) n) g = (g, Ok (plug (f' :: fs) new)) ∧
    at_place pos (f' :: fs) new i ∧
    (∀ x, x ∈ block_ids (plug (f' :: fs) new) → x ∈ block_ids (plug (f :: fs) n) ∨ x = VStr i).
Proof.
  intros Hpl (Ht & Hd & _ & Hn & Hl & Hpos) Hi.
  destruct (media_block generateID Hmedia file p i) as (new & En & Hnew). exists new. split; [done|]. split; [done|].
  destruct Hnew as (Htb & Hib & Hids).
  assert (c_map (blockToNode generateID) [blockNode file p i] g = (g, Ok [new])) as Em.
  { cbn [c_map]. unfold c_bind, c_ret. by rewrite En. }
  destruct (blocks_inserted generateID (f :: fs) n last placement [blockNode file p i] [new] g g) as [Ei Hti];
    [done|done|done|done|by constructor; [apply media_types_ok|]|done|done|].
  assert (VStr i ∉ ids_before (f :: fs) ∧ VStr i ∉ block_ids n) as [Hif Hin].
  { split; intros Hx; apply Hi, (in_block_ids (f :: fs) n); [by left|by right]. }
  cbn [ids_before] in Hif. rewrite !not_elem_of_app in Hif.
  set (f' := match placement with Before => with_right f n | _ => with_left f n end).
  assert (inserted placement (f :: fs) n [new] = plug (f' :: fs) new) as E'.
  { unfold f'. destruct placement; cbn [inserted plug]; [by rewrite fill_right|by rewrite fill_left|done]. }
  rewrite E' in Ei, Hti. cbv zeta. fold f'. split; [exact Ei|]. split; cycle 1.
  { rewrite <- E'. intros x. unfold f'. destruct placement; cbn [inserted plug]; [| |done];
      apply (plug_ids_mono (λ x, x = VStr i)); clear x; intros x;
      unfold fill_frame; cbn [block_ids]; rewrite !fmap_app, !concat_app; cbn; rewrite Hids, ?app_nil_r;
      set_unfold; tauto. }
  split; [done|]. split.
  { cbn [plug] in Hd |- *. destruct fs as [|h fs]; [|by rewrite <- Hd; apply plug_type].
    cbn in Hd |- *. by unfold f'; destruct placement. }
  split; [done|]. split; [done|]. split.
  - cbn [ids_before]. rewrite !not_elem_of_app. destruct Hif as (? & ? & ?).
    unfold f'. destruct placement; cbn; [done| |done].
    split; [done|]. split; [done|]. rewrite fmap_app, concat_app, not_elem_of_app. cbn. by rewrite app_nil_r.
  - assert (outer_end (plug (f :: fs) n) <= outer_end (plug (f' :: fs) new))%Z; [|lia].
    rewrite <- E'. unfold f'. destruct placement; cbn [inserted]; [| |done].
    + apply (inserted_grows f fs n new); [done|by right].
    + apply (inserted_grows f fs n new); [done|by left].
Qed.

Definition node_of (b : PartialBlock) (n : PNode) : Prop := ∀ g, blockToNode generateID b g = (g, Ok n).
Lemma dropped_block_Some d b : dropped_block d = Some b → ∃ p, dropped_props d = Some p ∧ b = blockNode (dr_file d) p (dr_newId d).
Proof. unfold dropped_block. destruct (dropped_props d) as [p|]; [|done]. intros [= <-]. by exists p. Qed.
Lemma place_info pos fs n last : at_place pos fs n last → is_ok (getBlockInfoFromPos (plug fs n) pos) = true.
Proof.
  intros (Ht & Hd & _ & _ & _ & Hpos). destruct (lookup_describes _ Ht Hd) as [Hall _].
  destruct (Hall pos ltac:(lia)) as (? & ? & ? & _ & _ & E & _). by rewrite E.
Qed.

(** The other files: each block after the one before it. *)
Lemma drop_after files k f fs n last pos g :
  at_place pos (f :: fs) n last → NoDup (dr_newId <$> files) →
  (∀ d, d ∈ files → VStr (dr_newId d) ∉ block_ids (plug (f :: fs) n)) →
  ∃ new, Forall2 node_of (omap dropped_block files) new ∧
    drop_files generateID pos (S k) files (Some last) (plug (f :: fs) n) g =
      (g, plug fs (fill_frame f (n :: new)), Ok tt) ∧
    typed (plug fs (fill_frame f (n :: new))) = true.
Proof.
  revert k f n last. induction files as [|d files IH]; intros k f n last Hp Hnd Hids.
  { exists []. split; [constructor|]. split; [done|]. apply Hp. }
  apply NoDup_cons in Hnd as [Hd Hnd]. cbn [omap list_omap drop_files]. unfold drop_file.
  destruct (dropped_block d) as [b|] eqn:Eb.
  - destruct (dropped_block_Some d b Eb) as (p & _ & ->).
    pose proof (place_info _ _ _ _ Hp) as Hinfo. destruct (getBlockInfoFromPos _ pos) as [info|]; [|done].
    destruct (insert_one After f fs n last (dr_file d) p (dr_newId d) pos g) as (m & Em & Hm & Ei & Hp' & Hsub);
      [done|done|apply Hids; by left|].
    unfold insert_at. rewrite (c_bind_lift _ _ _ info) by done. rewrite (c_bind_ok _ _ _ _ _ Ei). cbn [c_ret fst snd].
    destruct (IH (S k) (with_left f n) m (dr_newId d) Hp' Hnd) as (new & Hnew & Edrop & Ht).
    { intros d' Hd' Hx. destruct (Hsub _ Hx) as [Hx'|[= Hx']]; [by apply (Hids d'); [by right|]|].
      apply Hd. rewrite <- Hx'. by apply list_elem_of_fmap_2. }
    exists (m :: new). split; [by constructor|]. unfold c_ret. rewrite Edrop. by rewrite fill_left in Ht |- *.
  - unfold c_ret. apply IH; [done|done|]. intros d' Hd'. apply Hids. by right.
Qed.

(** The first file is uploaded. *)
Lemma drop_uploaded pos inside fs n b i d files g :
  typed (plug fs n) = true → n_type (plug fs n) = "doc" → n_type n = "blockContainer" →
  getBlockInfoFromPos (plug fs n) pos = Ok b → bp_node b = n → bp_id b = VStr i → 
  attr (n_attrs n) "id" = VStr i → VStr i ∉ ids_before fs →
  (pos < outer_end (plug fs n) - 1)%Z → inside ≠ (-1)%Z →
  is_Some (dropped_props d) → NoDup (dr_newId <$> d :: files) →
  (∀ x, x ∈ d :: files → VStr (dr_newId x) ∉ block_ids (plug fs n)) →
  ∃ new, Forall2 node_of (omap dropped_block (d :: files)) new ∧
    let doc' := inserted (if truthy (textContent n) then After else Before) fs n new in
    onDrop generateID (Some (pos, inside)) (d :: files) (plug fs n) g = (g, doc', Ok tt) ∧ typed doc' = true.
Proof.
  intros Ht Hdoc Hn Einfo Hb Hbi Hni Hi Hpos Hin [p Hp] Hnd Hids.
  destruct fs as [|f fs]; [by cbn in Hdoc; rewrite Hn in Hdoc|].
  unfold onDrop. replace (inside =? -1)%Z with false by lia. cbn [drop_files]. unfold drop_file.
  assert (dropped_block d = Some (blockNode (dr_file d) p (dr_newId d))) as Eb by (unfold dropped_block; by rewrite Hp).
  cbn [omap list_omap]. rewrite Eb. rewrite (c_bind_lift _ _ _ b) by done. rewrite Hb, Hbi. cbn [as_str insert_at].
  set (placement := if truthy (textContent n) then After else Before).
  assert (placement ≠ Nested) as Hpl by (unfold placement; by destruct (truthy _)).
  apply NoDup_cons in Hnd as [Hd Hnd].
  destruct (insert_one placement f fs n i (dr_file d) p (dr_newId d) pos g) as (m & Em & Hm & Ei & Hp' & Hsub);
    [done| |apply Hids; by left|].
  { split; [done|]. split; [done|]. split; [done|]. split; [|by split].
    unfold is_block. rewrite Hn, Hni. cbn. by rewrite bool_decide_true. }
  rewrite (c_bind_ok _ _ _ _ _ Ei). unfold c_ret.
  destruct (drop_after files 0 _ fs m (dr_newId d) pos g Hp' Hnd) as (new & Hnew & Edrop & Htd).
  { intros d' Hd' Hx. destruct (Hsub _ Hx) as [Hx'|[= Hx']]; [by apply (Hids d'); [by right|]|].
    apply Hd. rewrite <- Hx'. by apply list_elem_of_fmap_2. }
  exists (m :: new). split; [by constructor|]. rewrite Edrop. unfold placement in *.
  destruct (truthy (textContent n)); cbn [inserted].
  - by rewrite fill_left in Htd |- *.
  - by rewrite fill_right in Htd |- *.
Qed.

(** If the first file is not uploaded, no file is inserted: at the first one that is,
    the block to insert after is missing, and the rest is given up. *)
Lemma first_file_fails pos inside doc d files g :
  inside ≠ (-1)%Z → is_ok (getBlockInfoFromPos doc pos) = true → dropped_props d = None →
  onDrop generateID (Some (pos, inside)) (d :: files) doc g =
    (g, doc, if existsb (λ x, bool_decide (is_Some (dropped_props x))) files then Err no_reference else Ok tt).
Proof.
  intros Hin Hinfo Hd. unfold onDrop. replace (inside =? -1)%Z with false by lia. cbn [drop_files].
  unfold drop_file at 1, dropped_block. rewrite Hd. cbn [fmap option_fmap option_map c_ret]. unfold c_ret.
  generalize 0. induction files as [|x files IH]; intros k; [done|]. cbn [drop_files existsb].
  unfold drop_file at 1, dropped_block. destruct (dropped_props x) as [p|] eqn:Ex; cbn [fmap option_fmap option_map].
  - rewrite bool_decide_true by (by eexists). destruct (getBlockInfoFromPos doc pos) as [info|]; [|done].
    rewrite (c_bind_lift _ _ _ info) by done. done.
  - rewrite bool_decide_false by (by intros [? ?]). apply IH.
Qed.
(** C26. Files dropped on a block of the text.  If the first of them is uploaded, a block
    for every file that is uploaded, in the order of the files, stands before the block
    that was dropped on if that is empty and after it if not, and nothing else changes.
    If the first one is not (it is too large or the upload fails), no file is inserted:
    if any other is uploaded, the drop fails at the first of those.  The ids that are
    drawn for the blocks are taken to be distinct and new to the document, and the block
    to be the first with its id. *)
Theorem drop_files_spec pos inside fs n b i d files g :
  typed (plug fs n) = true → n_type (plug fs n) = "doc" → n_type n = "blockContainer" →
  getBlockInfoFromPos (plug fs n) pos = Ok b → bp_node b = n → bp_id b = VStr i →
  attr (n_attrs n) "id" = VStr i → VStr i ∉ ids_before fs →
  (pos < outer_end (plug fs n) - 1)%Z → inside ≠ (-1)%Z →
  NoDup (dr_newId <$> d :: files) →
  (∀ x, x ∈ d :: files → VStr (dr_newId x) ∉ block_ids (plug fs n)) →
  match dropped_props d with
  | Some _ =>
      ∃ new, Forall2 node_of (omap dropped_block (d :: files)) new ∧
        let doc' := inserted (if truthy (textContent n) then After else Before) fs n new in
        onDrop generateID (Some (pos, inside)) (d :: files) (plug fs n) g = (g, doc', Ok tt) ∧ typed doc' = true
  | None =>
      onDrop generateID (Some (pos, inside)) (d :: files) (plug fs n) g =
        (g, plug fs n, if existsb (λ x, bool_decide (is_Some (dropped_props x))) files
                       then Err no_reference else Ok tt)
  end.
Proof.
  intros. destruct (dropped_props d) as [p|] eqn:Hd.
  - eapply drop_uploaded; try done.
  - apply first_file_fails; [done|by match goal with E : getBlockInfoFromPos _ _ = _ |- _ => rewrite E end|done].
Qed.
End drops.


(** ** An example *)

Lemma editor_media t : t ∈ ["image"; "video"; "file"] → is_Some (node_spec t).
Proof. intros Ht. repeat (apply elem_of_cons in Ht as [->|Ht]; [by eexists|]). by apply elem_of_nil in Ht. Qed.
Definition png : MediaFile := {| mf_name := "a.png"; mf_type := "image/png"; mf_size := 10 |}.
Definition huge : MediaFile := {| mf_name := "b.zip"; mf_type := "application/zip"; mf_size := 70000000 |}.
Definition zip : MediaFile := {| mf_name := "c.zip"; mf_type := "application/zip"; mf_size := 20 |}.
Definition dropped (f : MediaFile) (i : string) : Dropped := {| dr_file := f; dr_upload := Ok "cid"; dr_newId := i |}.

(** On a block with text: after it, the picture and the small archive; and nothing if the
    file that is too large comes first. *)
Lemma drop_files_spec_witness :
  (∃ new, Forall2 (node_of no_ids) (omap dropped_block [dropped png "x"; dropped huge "y"; dropped zip "z"]) new ∧
    onDrop no_ids (Some (4, 3)%Z) [dropped png "x"; dropped huge "y"; dropped zip "z"] example_doc tt =
      (tt, document (block_a :: new ++ [block_c]), Ok tt) ∧ length new = 2) ∧
  onDrop no_ids (Some (4, 3)%Z) [dropped huge "y"; dropped png "x"] example_doc tt =
    (tt, example_doc, Err no_reference).
Proof.
  destruct (getBlockInfoFromPos example_doc 4) as [b|] eqn:E; [|vm_compute in E; discriminate E].
  assert (bp_node b = block_a ∧ bp_id b = VStr "a") as [Hb Hi] by (vm_compute in E; by injection E as <-).
  assert (∀ d l, NoDup (dr_newId <$> d :: l) →
    (∀ x, x ∈ d :: l → VStr (dr_newId x) ∉ block_ids (plug frames_a block_a)) →
    let r := onDrop no_ids (Some (4, 3)%Z) (d :: l) example_doc tt in
    match dropped_props d with
    | Some _ =>
        ∃ new, Forall2 (node_of no_ids) (omap dropped_block (d :: l)) new ∧
          let doc' := inserted After frames_a block_a new in r = (tt, doc', Ok tt) ∧ typed doc' = true
    | None => r = (tt, example_doc, if existsb (λ x, bool_decide (is_Some (dropped_props x))) l
                                    then Err no_reference else Ok tt)
    end) as Hdrop.
  { intros d l Hnd Hnew. eapply (drop_files_spec no_ids editor_media 4 3 frames_a block_a b "a" d l tt);
      [by vm_compute|done|done|exact E|exact Hb|exact Hi|done|by apply (bool_decide_unpack _)|by vm_compute|done
      |exact Hnd|exact Hnew]. }
  split.
  - destruct (Hdrop (dropped png "x") [dropped huge "y"; dropped zip "z"]) as (new & Hnew & Hrun & _).
    + by apply (bool_decide_unpack _).
    + intros x Hx. repeat (apply elem_of_cons in Hx as [->|Hx]; [by apply (bool_decide_unpack _)|]). by apply elem_of_nil in Hx.
    + exists new. split; [exact Hnew|]. split; [exact Hrun|]. apply Forall2_length in Hnew. by rewrite <- Hnew.
  - apply (Hdrop (dropped huge "y") [dropped png "x"]).
    + by apply (bool_decide_unpack _).
    + intros x Hx. repeat (apply elem_of_cons in Hx as [->|Hx]; [by apply (bool_decide_unpack _)|]). by apply elem_of_nil in Hx.
Defined.

(** The items of a picture that was copied in a browser: its markup comes first. *)
Example copied_picture :
  media_paste [{| ci_type := "text/html"; ci_file := None |}; {| ci_type := "image/png"; ci_file := Some png |}] = (false, None) ∧
  media_paste [{| ci_type := "image/png"; ci_file := Some png |}; {| ci_type := "image/png"; ci_file := Some png |}] =
    (true, Some (png, "image")).
Proof. done. Qed.
Example media_ids : generateBlockId [0; 27; 61; 62] = "Ab9A".
Proof. by vm_compute. Qed.
